(* ===== verification/_CoqProject ===== *)
-Q . S2P
Prelude.v
JsCollections.v
JsNumber.v
JsText.v
NumText.v
Json.v
Types.v
Observability.v
Status.v
Resources.v
Activity.v
Fleet.v
Rpc.v
TerminalText.v
WebStorage.v
Ledger.v
DaemonMetrics.v
SandboxClusters.v
ClusterSync.v
CaptureStore.v
DaemonCapture.v
Format.v
Uri.v
ObservabilityTab.v
Shell.v
Files.v
ObservabilityApi.v
Blame.v
Catalog.v
ProcessEstimates.v
Poll.v
RevisionGate.v
PollingContract.v
ProcessTopology.v
ProcessView.v
FleetPolling.v
TranscriptPoll.v
Traces.v
Terminal.v
SessionActions.v
Actions.v
Sessions.v
Composer.v
FileView.v
FileTree.v
FileTreeView.v
FilesTab.v
FilePage.v
FilesPage.v
EditorPane.v
Charts.v
DaemonView.v
Events.v
LayerStack.v
Preview.v
Transcript.v
TerminalPage.v
TerminalPolling.v
WorkspacePicker.v
CreateSandbox.v
CreateFormView.v
CreateForm.v
Dashboard.v
Cards.v
NodePath.v
Assets.v
GenerateAssets.v
DashboardView.v
FleetBoard.v
Waterfall.v
EventsPage.v
PreviewPage.v
CardPage.v
SidebarPage.v
LayerStackPage.v
TracesPage.v
DaemonPage.v
ConsolePage.v
ChartPage.v
DetailPage.v
