(* ===== verification/Prelude.v ===== *)
(** * Ephemeral Sandbox Console: a verification library for the browser client

    The console is a single-page application (sources under [web/src]) that
    shows a fleet of sandboxes, their daemons' metrics, their files and their
    terminals. It talks to a manager and to one daemon per sandbox through one
    RPC endpoint, polls them gently (the daemons are asked only when something
    can have changed), and keeps a little state of its own in the browser: a
    command ledger and a cluster registry in local storage, and a capture of
    daemon metrics in IndexedDB. This library models that client as executable
    functions, and its asynchronous parts as transition systems, and proves
    what makes each part correct.

    ** Conventions

    Strings are lists of UTF-16 code units ([jsstr]); floating-point values
    are binary64 ([number], JsNumber) and integers of the protocol are [Z],
    with [2^53] as a named bound where a theorem needs it. [null] and
    [undefined] are [None]; a thrown error or a rejected promise is [Throws]
    of [outcome]. A record of a component is its state, and every handler is a
    function on it; where handlers interleave (awaits, timers, events) there
    is a step relation and the theorems are about every reachable state.
    Code outside [web/src] is a parameter: [fetch] (the network, the gateway
    and the daemons behind it), IndexedDB ([IndexedStore], a class with laws
    and an instance), the storage quota ([fits]), the locale's comparison and
    case mappings, [Date.now()] and [crypto.randomUUID()]. So are the libraries
    the pages are built on, as far as the code relies on them: what the query
    library holds for a key (data, failure, and the previous data that stands
    in while a new key is awaited), the items a virtualizer draws, whether a
    popover asks its opener, and the router ([ConsolePage.Router], a class with
    an instance).

    ** The language and its libraries

    Prelude (list functions of arrays, tactics, the hint base [console]),
    JsCollections (Set, Map, the stable sort), JsNumber and NumText (binary64,
    its order and extremes, [Number(text)], [String(x)], [toFixed]), JsText
    (trimming, searching, splitting), Json (values, [parse], [stringify] and
    their round trip, also with a layout), Uri ([encodeURIComponent] and back,
    [URLSearchParams]), WebStorage, NodePath (paths and trees of files).

    ** The core ([web/src/core]) and the protocol ([web/src/api])

    - Types, Observability: wire types ([api/types.ts],
      [api/observability.ts]); ObservabilityApi: its requests.
    - Rpc: [api/rpc.ts], [api/http.ts], [api/gateway.ts],
      [api/hostResources.ts]. What a call returns and throws; the streamed
      call delivers every log line in order whatever way the network cuts the
      text.
    - Catalog: [api/catalog.ts]. Fields of a form into the arguments of a call.
    - Files: [api/files.ts]. Reading a whole file window by window terminates
      with exactly the file, or fails.
    - Status, Resources, Activity, Fleet: [core/status.ts], [resources.ts],
      [activity.ts], [fleet.ts]. Display states, gauges, when a sandbox is
      active, card order, search, totals and view models.
    - SandboxClusters: [core/sandboxClusters.ts]. The registry stays free of
      conflicts, and resolving it shows every sandbox exactly once.
    - ClusterSync: the listings, registrations and removals of several browsers
      over the one registry of the server, whose register and remove are those
      of [server/src/sandbox_clusters.rs]; its check of a posted record is the
      parameter [valid].
    - DaemonMetrics, CaptureStore: [core/daemonMetrics.ts],
      [core/daemonCaptureStore.ts]. The bounded history with its rates, and its
      copy on disk as a log per sandbox.
    - Format, TerminalText: [lib/format.ts], [lib/terminalText.ts].

    ** Polling ([web/src/poll])

    - Poll: the cadence of [usePoll.ts].
    - RevisionGate: the class of the gates that decide whether a daemon may be
      asked ([useSandboxSnapshot.ts], [useFleetSnapshots.ts],
      [useProcessTopology.ts]), with its three instances; the bounds on the
      number of requests are proved against the class.
    - PollingContract: the contract of [docs/polling-contract.md] as a
      transition system, what it bounds, and that every instance of the class,
      with the explicit refresh of the process page, refines it.
    - ProcessTopology, FleetPolling: what these hooks add.

    ** Pages ([web/src/pages], [web/src/components], [web/src/shell])

    - Dashboard, Cards, DashboardView: [DashboardPage.tsx] and the cards and
      summaries it is made of. DashboardView puts the page's queries through
      the core and shows that its two views agree. FleetBoard takes the page
      through its queries, a creation, the address and the keyboard, with the
      memo and the order that renders keep.
    - WorkspacePicker and CreateSandbox: [fleet/WorkspacePicker.tsx],
      [fleet/CreateSandboxModal.tsx].
    - FileTree, FileView, Blame, FilesTab: [sandbox/files/*]. The rows and the
      keyboard of the tree; the viewer and editor as a transition system in
      which loads, pages, saves, typing and changes by others interleave, over
      any text that the editor library makes of a string (the class
      [FileView.DocumentText]); the file and session an address shows.
    - Ledger, Terminal, Transcript, TranscriptPoll, Composer, SessionActions,
      Sessions: [sandbox/terminal/*]. The ledger and its reconciliation with
      snapshots, catching up with a command's output, the keys written to it,
      the scheduler that shares one timer among all transcripts, launching a
      command from a composer that the tab mounts and unmounts, and the session
      sidebar, whose creation, publication and
      discard of sessions interleave with snapshots and selections.
    - DaemonCapture, DaemonView, Charts, ProcessEstimates, ProcessView, Traces,
      Waterfall, Events, LayerStack, ObservabilityTab:
      [sandbox/observability/*]. The capture hook as a transition system over
      generations and job queues, those of earlier views included, the pages that show its history, the
      estimates of a workspace over successive topologies, the trace waterfall,
      the event table with its cache of sorted rows, and the layers.
    - Preview: [sandbox/preview/PreviewTab.tsx], [PortPreview.tsx],
      [SandboxHeader.tsx]. Ports and the addresses of previews.
    - Actions: [DestroyAction.tsx], [SquashDialog.tsx],
      [RemoveClusterAction.tsx], [ErrorToast.tsx], as transition systems.
    - Shell: [shell/Shell.tsx]. The trail, the navigation and the tabs.

    ** Pages put together

    Each of these takes the parts of one page, with what it renders, what it
    keeps and what it asks for, through the events of the page's life; the
    step functions call those of the component files.

    - TerminalPage, TerminalPolling: [terminal/TerminalTab.tsx] over a change of
      sandbox, and the tab with its transcripts, their viewers and the
      scheduler as one system, which catches up with every running command.
      CardPage: [CommandCard.tsx], [TranscriptViewer.tsx], [StdinBar.tsx].
      SidebarPage: [SessionSidebar.tsx], [WorkspaceSessionActions.tsx].
    - FileTreeView, FilePage, EditorPane, FilesPage: [sandbox/files/*]. The tree
      with its focus, the queries of its listings and their memoised map; the
      viewer with its toolbar and blame; the
      editor of the library that the page makes, and the element it stands in;
      the tab with the editors of files opened and left.
    - CreateFormView, CreateForm: [CreateSandboxModal.tsx] with the picker, from
      the form to the log of the creation.
    - EventsPage, TracesPage, LayerStackPage, DaemonPage, ChartPage:
      [sandbox/observability/*], with the polls, the plots and the capture.
    - PreviewPage: [sandbox/preview/PreviewTab.tsx] and the launcher.
    - DetailPage: [SandboxDetail.tsx], its tabs and [RemoveClusterAction.tsx].
    - ConsolePage: [App.tsx], the routes and redirects, and what the frame and
      the dashboard keep over navigation.

    ** The asset script ([web/scripts])

    - Assets: [assets.mjs]. What a verified repository and a verified build
      guarantee; hashing and image metadata are parameters.
    - GenerateAssets: the other half of the script, which writes the images, the
      fonts, the icons and the manifest. What it writes verifies, and it touches
      nothing else; the encoders and the icon generator are parameters.

    ** The theorems

    Refinement: the session sidebar implements a lifecycle with one permitted
    change at a time ([Sessions.sessions_refine_lifecycle]), the polling hooks
    the polling contract ([PollingContract.gates_refine_contract]), and the
    steps of a creation, from the button to the form reset at its end, its
    submission as one call ([CreateForm.creation_runs_submit]). Liveness:
    [TerminalPolling.terminal_catches_up]. Invariants of transition systems
    (DaemonCapture, FileView, TranscriptPoll, Sessions, Composer, Actions,
    WorkspacePicker, ProcessTopology, ProcessView, LayerStack, FilesPage,
    EditorPane, ChartPage, CardPage, DetailPage, ClusterSync, FleetBoard, the
    queries of FileTreeView); termination with exactly the result (Files,
    Transcript, Traces, FileTree); round trips (Rpc, Ledger, SandboxClusters,
    Catalog, Events, Preview, GenerateAssets with Assets,
    the address of Dashboard, DetailPage's tabs); equivalence with a
    reference (LayerStack's runs with maximal runs, FileTreeView's memoised map with the present one); bounds (RevisionGate,
    PollingContract, Poll, DaemonMetrics, Charts, Waterfall, Composer, Preview,
    DaemonView, Blame); safety across components ([DashboardView.views_agree],
    [DaemonPage.captured_from_own_sandbox], [CreateForm.workspace_root_from_host],
    [CardPage.transcript_shared], [Assets.verifyDist_sound],
    [GenerateAssets.generate_stays_inside]); functional
    specifications on every branch (the rest).

    Safety over every interleaving: a cluster removed from the server and from
    every storage stays removed ([ClusterSync.removal_lasts]).

    What is said of the output of commands is said of lines whose control
    sequences end within them and are of the kinds that
    [TerminalText.terminal_line] lists, colours among them; of other output text
    may be lost. The order of the event table is told apart from how the table
    sorts ([Events.event_before]), and so are the answers the process page is
    given from what its effects keep ([ProcessView.newest]).

    Some theorems and examples state where the code does not do what it means
    to: [TerminalText.strip_loses_text_between_commands],
    [FileView.save_discards_later_typing], [FileView.save_rewrites_line_ends],
    [DaemonCapture.returning_view_drifts], [Composer.second_composer_launches],
    [Transcript.blank_line_never_arrives], [Format.formatDuration_sixty_seconds],
    [Files.read_pages_blank_first_line], [Sessions.publish_drops_later_selection],
    [Composer.typed_during_launch_lost], [Actions.destroy_leaves_other_page],
    [ProcessView.reopened_page_overstates_cpu], [Shell.crumbs_inherited],
    [ObservabilityTab.tab_of_page_misled], the first part of
    [DaemonView.daemon_page_speaks], and, a smaller one,
    [FileTree.row_keys_collide]. Of the pages put together: the first part of
    [TerminalPage.tab_switch], [TerminalPage.tab_switch_asks_wrong_daemon],
    [TerminalPage.tab_launch_lands_elsewhere], [TerminalPage.tab_launch_duplicates],
    [TerminalPolling.twin_card_starves], [FileTreeView.tree_keys_stop_at_link],
    [FileTreeView.tree_focus_lost], [FileTreeView.rescope_asks_expanded],
    [FilePage.file_of_other_sandbox],
    [FilesPage.left_draft_lost], [EditorPane.text_after_binary_blank],
    [CreateForm.left_creation], [CreateFormView.picker_controls],
    [EventsPage.paused_filters_show_others], [EventsPage.keyboard_stops_at_row],
    [PreviewPage.launcher_never_opens], [CardPage.reopened_card_forgets],
    [SidebarPage.created_row_replaced], [LayerStackPage.depth_of_other_sandbox],
    [TracesPage.failed_poll_closes_spans], [DaemonPage.resumed_after_failure],
    the third part of [ChartPage.resources_page_says],
    [DetailPage.record_of_other_sandbox], [ConsolePage.hidden_cluster_reopens],
    [ClusterSync.other_browser_restores], [ClusterSync.listing_race_restores] and
    [FleetBoard.board_rolls_back].

    ** Fuel

    [Json.parse] runs on the length of the text and [Rpc.drain] on that of the
    buffer; [Files.read_pages], [Traces.flatten] and [Transcript.fetch_loop]
    have theorems that a stated amount is enough and gives the whole result;
    [FileTree.flattenRows] takes one level more than there are expanded
    directories, proved enough; [Blame] and the sorts are structural.

    ** Not modelled

    Styles, layout and the markup around what is shown, and focus beyond the
    tree; the libraries of React, Mantine, TanStack Query, uPlot and CodeMirror,
    of which only the contract the code relies on appears (a query's data, error
    and pending flag; the text of a document, a parameter; the plots made, given data and
    destroyed); the matching of an address with a route; timestamps in the
    browser's locale; theme and build configuration, which are constants of
    those libraries; the image library and the packaging tool that the asset
    script runs; and the Rust console server (but for the
    cluster registry's register and remove, without its file) and the desktop
    shell, the server being the other side of [fetch].

    ** Plan

    Next: when the dashboard lists the cluster registry again, and the rest of
    the markup. *)

From stdpp Require Export base gmap sets list strings option numbers sorting.
From Stdlib Require Export ZArith Lia.

#[global] Open Scope Z_scope.
#[export] Set Warnings "-clear-no-such-hyp".
#[export] Set Default Goal Selector "!".

(** ** JavaScript strings: sequences of UTF-16 code units *)

Abbreviation jsstr := (list Z) (only parsing).

(** The code units of an ASCII literal. *)
Fixpoint js (s : string) : jsstr :=
  match s with
  | EmptyString => []
  | String a s => Z.of_N (Ascii.N_of_ascii a) :: js s
  end.

(** ** Notations and control flow of the source *)

Declare Scope console_scope.
Delimit Scope console_scope with console.
#[global] Open Scope console_scope.

(** [a ?? b]: the nullish coalescing operator ([None] is [null]/[undefined]). *)
Notation "a ?? b" := (default b a) (at level 65, right associativity) : console_scope.

(** The result of a call that may throw. *)
Inductive outcome (E A : Type) :=
  | Returns (a : A)
  | Throws (e : E).
Arguments Returns {E A} a.
Arguments Throws {E A} e.

Definition obind {E A B} (m : outcome E A) (f : A → outcome E B) : outcome E B :=
  match m with Returns a => f a | Throws e => Throws e end.

Notation "'let!' x ':=' m 'in' k" := (obind m (λ x, k))
  (at level 10, x name, m at level 100, k at level 200) : console_scope.

(** ** Automation *)

Create HintDb console.
Create Rewrite HintDb console.

Ltac bool_to_prop :=
  repeat match goal with
  | H : _ && _ = true |- _ => apply andb_true_iff in H as [? ?]
  | H : _ || _ = false |- _ => apply orb_false_iff in H as [? ?]
  | H : bool_decide _ = true |- _ => apply bool_decide_eq_true in H
  | H : bool_decide _ = false |- _ => apply bool_decide_eq_false in H
  | H : negb _ = true |- _ => apply negb_true_iff in H
  | H : negb _ = false |- _ => apply negb_false_iff in H
  | H : (_ <? _) = true |- _ => apply Z.ltb_lt in H
  | H : (_ <? _) = false |- _ => apply Z.ltb_ge in H
  | H : (_ <=? _) = true |- _ => apply Z.leb_le in H
  | H : (_ <=? _) = false |- _ => apply Z.leb_gt in H
  | H : (_ =? _) = true |- _ => apply Z.eqb_eq in H
  | H : (_ =? _) = false |- _ => apply Z.eqb_neq in H
  end.

(** Case analysis on the next condition the goal is stuck on. *)
Ltac cases :=
  repeat (case_match || case_decide); bool_to_prop; simplify_eq/=.

(** Decide a closed proposition by computation. *)
Ltac decide_closed := apply (bool_decide_unpack _); vm_compute; exact I.

(** ** Lists *)

(** What every step keeps, a run keeps. *)
Lemma foldl_invariant {A B} (P : A → Prop) (f : A → B → A) l a :
  (∀ a b, P a → P (f a b)) → P a → P (foldl f a l).
Proof. intros Hf. revert a. induction l as [|b l IH]; intros a Ha; [done|]. apply IH, Hf, Ha. Qed.

Section lists.
Context {A : Type}.
Implicit Types l : list A.

(** [l.slice(-n)] for a non-negative [n]: [slice(-0)] is the whole array. *)
Definition slice_last (n : nat) l : list A :=
  match n with O => l | _ => drop (length l - n) l end.

Lemma slice_last_length n l : (0 < n)%nat → (length (slice_last n l) = min n (length l))%nat.
Proof. destruct n; [lia|]. intros _. unfold slice_last. rewrite length_drop. lia. Qed.

Lemma slice_last_all n l : (length l ≤ n)%nat → slice_last n l = l.
Proof.
  intros Hl. destruct n as [|n]; [done|]. unfold slice_last.
  replace (length l - S n)%nat with 0%nat by lia. done.
Qed.

Lemma slice_last_suffix n l : slice_last n l `suffix_of` l.
Proof.
  destruct n as [|n]; [by exists []|].
  unfold slice_last. exists (take (length l - S n) l). by rewrite take_drop.
Qed.

Lemma last_slice_last n l x : (0 < n)%nat → last (slice_last n (l ++ [x])) = Some x.
Proof.
  destruct n as [|n]; [lia|]. intros _. unfold slice_last. rewrite drop_app_le by (rewrite length_app; cbn; lia).
  apply last_snoc.
Qed.

(** [l.find(p)]. *)
Definition js_find (p : A → bool) l : option A := List.find p l.

Lemma js_find_Some p l x :
  js_find p l = Some x ↔
  ∃ l1 l2, l = l1 ++ x :: l2 ∧ p x = true ∧ Forall (λ y, p y = false) l1.
Proof.
  unfold js_find. split.
  - induction l as [|y l IH]; [done|]. simpl. destruct (p y) eqn:Hp.
    + intros [= ->]. exists [], l. eauto.
    + intros H. destruct (IH H) as (l1 & l2 & -> & ? & ?).
      exists (y :: l1), l2. eauto.
  - intros (l1 & l2 & -> & Hx & Hl1). induction Hl1 as [|y l1 Hy _ IH]; simpl.
    + by rewrite Hx.
    + by rewrite Hy.
Qed.

Lemma js_find_None p l : js_find p l = None ↔ Forall (λ y, p y = false) l.
Proof.
  unfold js_find. induction l as [|y l IH]; simpl.
  - split; [constructor|done].
  - destruct (p y) eqn:Hp; rewrite Forall_cons; naive_solver congruence.
Qed.
End lists.

(** [l.some(p)] and [l.every(p)] are the boolean quantifiers. *)
Abbreviation js_some := List.existsb.
Abbreviation js_every := List.forallb.
Abbreviation js_filter := List.filter.

Lemma js_some_exists {A} (p : A → bool) l :
  js_some p l = true ↔ ∃ x, x ∈ l ∧ p x = true.
Proof. rewrite existsb_exists. by setoid_rewrite list_elem_of_In. Qed.

Lemma js_some_none {A} (p : A → bool) l :
  js_some p l = false ↔ ∀ x, x ∈ l → p x = false.
Proof.
  induction l as [|y l IH]; simpl; [set_solver|].
  rewrite orb_false_iff, IH. set_solver.
Qed.

Lemma js_every_forall {A} (p : A → bool) l :
  js_every p l = true ↔ ∀ x, x ∈ l → p x = true.
Proof. rewrite forallb_forall. by setoid_rewrite list_elem_of_In. Qed.

Lemma js_filter_elem {A} (p : A → bool) l x :
  x ∈ js_filter p l ↔ x ∈ l ∧ p x = true.
Proof. rewrite !list_elem_of_In. apply filter_In. Qed.

Lemma js_filter_app {A} (p : A → bool) l l' : js_filter p (l ++ l') = js_filter p l ++ js_filter p l'.
Proof. apply Stdlib.Lists.List.filter_app. Qed.

(** Taking one element out of a list. *)
Lemma elem_of_drop_one {A} (i : nat) (l : list A) x : x ∈ take i l ++ drop (S i) l → x ∈ l.
Proof. rewrite elem_of_app. intros [H|H]; [by eapply subseteq_take|by eapply subseteq_drop]. Qed.

(** Among elements with distinct keys a test that only one key passes. *)
Lemma js_filter_unique {A B} (f : A → B) (q : A → bool) l x :
  NoDup (f <$> l) → x ∈ l → q x = true → (∀ y, y ∈ l → q y = true → f y = f x) → js_filter q l = [x].
Proof.
  intros Hnd Hx Hq Hu. induction l as [|y l IH]; [by apply not_elem_of_nil in Hx|].
  rewrite fmap_cons in Hnd. apply NoDup_cons in Hnd as [Hn Hnd]. apply elem_of_cons in Hx as [<-|Hx]; cbn [js_filter List.filter].
  - rewrite Hq. f_equal. apply elem_of_nil_inv. intros y [Hy Hqy]%js_filter_elem. apply Hn.
    rewrite <- (Hu y) by (done || by right). by apply list_elem_of_fmap_2.
  - destruct (q y) eqn:Hqy.
    + exfalso. apply Hn. rewrite (Hu y) by (done || by left). by apply list_elem_of_fmap_2.
    + apply IH; [done..|]. intros z Hz. apply Hu. by right.
Qed.

Lemma js_filter_sublist {A} (p : A → bool) l : js_filter p l `sublist_of` l.
Proof.
  induction l as [|x l IH]; simpl; [constructor|].
  destruct (p x); by constructor.
Qed.

Lemma js_filter_ext {A} (p q : A → bool) l :
  (∀ x, x ∈ l → p x = q x) → js_filter p l = js_filter q l.
Proof. intros H. apply filter_ext_in. intros x Hx. apply H. by apply list_elem_of_In. Qed.

#[export] Hint Resolve js_filter_sublist : console.

Lemma length_omap_le {A B} (f : A → option B) (l : list A) : (length (omap f l) ≤ length l)%nat.
Proof.
  induction l as [|x l IH]; [done|].
  change (omap f (x :: l)) with (match f x with Some y => y :: omap f l | None => omap f l end).
  destruct (f x); simpl length; lia.
Qed.

Lemma omap_snoc {A B} (f : A → option B) l x :
  omap f (l ++ [x]) = omap f l ++ match f x with Some y => [y] | None => [] end.
Proof. rewrite omap_app. by f_equal. Qed.
