(* ===== verification/JsCollections.v ===== *)
(** The collections of the language that the console uses: [Set] as the
    list of its elements in insertion order, [Map] as a [gmap], and the
    stable [Array.prototype.sort] with an integer comparator. *)
From S2P Require Import Prelude.

(** ** [[...new Set(l)]]: first occurrences in insertion order *)

Section set.
Context `{EqDecision A}.
Implicit Types (l : list A) (x y : A).

Fixpoint js_set_go (seen : list A) l : list A :=
  match l with
  | [] => []
  | x :: l => if bool_decide (x ∈ seen) then js_set_go seen l
              else x :: js_set_go (x :: seen) l
  end.

Definition js_set l : list A := js_set_go [] l.

Lemma js_set_go_elem seen l x : x ∈ js_set_go seen l ↔ x ∈ l ∧ x ∉ seen.
Proof.
  revert seen. induction l as [|y l IH]; intros seen; simpl; [set_solver|].
  case_bool_decide; rewrite ?elem_of_cons, ?IH, ?elem_of_cons; [set_solver|].
  destruct (decide (x = y)); set_solver.
Qed.

Lemma js_set_elem l x : x ∈ js_set l ↔ x ∈ l.
Proof. unfold js_set. rewrite js_set_go_elem. set_solver. Qed.

Lemma js_set_go_NoDup seen l : NoDup (js_set_go seen l).
Proof.
  revert seen. induction l as [|y l IH]; intros seen; simpl; [constructor|].
  case_bool_decide; [done|]. constructor; [|done].
  rewrite js_set_go_elem. set_solver.
Qed.

Lemma js_set_NoDup l : NoDup (js_set l).
Proof. apply js_set_go_NoDup. Qed.

Lemma js_set_go_sublist seen l : js_set_go seen l `sublist_of` l.
Proof.
  revert seen. induction l as [|y l IH]; intros seen; simpl; [constructor|].
  case_bool_decide; by constructor.
Qed.

Lemma js_set_sublist l : js_set l `sublist_of` l.
Proof. apply js_set_go_sublist. Qed.

Lemma js_set_go_id seen l :
  NoDup l → (∀ x, x ∈ l → x ∉ seen) → js_set_go seen l = l.
Proof.
  intros Hnd. revert seen. induction Hnd as [|y l Hy _ IH]; intros seen Hs; [done|].
  simpl. rewrite bool_decide_false by set_solver. f_equal. apply IH. set_solver.
Qed.

Lemma js_set_id l : NoDup l → js_set l = l.
Proof. intros. apply js_set_go_id; set_solver. Qed.
End set.

#[export] Hint Resolve js_set_NoDup js_set_sublist : console.

(** ** [new Map(entries)]: a later entry with the same key replaces the value *)

Section map.
Context `{Countable K} {V : Type}.
Implicit Types (es : list (K * V)) (m : gmap K V).

Definition js_map_set m (e : K * V) : gmap K V := <[e.1 := e.2]> m.
Definition js_map es : gmap K V := foldl js_map_set ∅ es.

Lemma js_map_snoc es e : js_map (es ++ [e]) = <[e.1 := e.2]> (js_map es).
Proof. unfold js_map. by rewrite foldl_app. Qed.

Lemma js_map_lookup_None es k : js_map es !! k = None ↔ k ∉ es.*1.
Proof.
  induction es as [|[k' v'] es IH] using rev_ind; [set_solver|].
  rewrite js_map_snoc, fmap_app. simpl.
  destruct (decide (k' = k)) as [->|]; simplify_map_eq; set_solver.
Qed.

(** The value of a key is that of its last entry. *)
Lemma js_map_lookup_Some es k v :
  js_map es !! k = Some v ↔ ∃ es1 es2, es = es1 ++ (k, v) :: es2 ∧ k ∉ es2.*1.
Proof.
  split.
  - induction es as [|[k' v'] es IH] using rev_ind; [done|].
    rewrite js_map_snoc. simpl. destruct (decide (k' = k)) as [->|Hne].
    + rewrite lookup_insert_eq. intros [= ->]. exists es, []. set_solver.
    + rewrite lookup_insert_ne by done. intros (es1 & es2 & -> & ?)%IH.
      exists es1, (es2 ++ [(k', v')]). split; [by rewrite <-app_assoc|].
      rewrite fmap_app. set_solver.
  - intros (es1 & es2 & -> & Hk). induction es2 as [|[k' v'] es2 IH] using rev_ind.
    + by rewrite js_map_snoc, lookup_insert_eq.
    + rewrite fmap_app in Hk. rewrite app_comm_cons, app_assoc, js_map_snoc. simpl.
      rewrite lookup_insert_ne by set_solver. apply IH. set_solver.
Qed.

Lemma js_map_elem es k v : js_map es !! k = Some v → (k, v) ∈ es.
Proof. intros (es1 & es2 & -> & _)%js_map_lookup_Some. set_solver. Qed.

Lemma js_map_NoDup es k v : NoDup es.*1 → (k, v) ∈ es → js_map es !! k = Some v.
Proof.
  intros Hnd (es1 & es2 & ->)%list_elem_of_split. apply js_map_lookup_Some.
  exists es1, es2. split; [done|]. rewrite fmap_app in Hnd.
  apply NoDup_app in Hnd as (_ & _ & Hnd). by apply NoDup_cons in Hnd as [? _].
Qed.
End map.

(** ** [l.sort(compare)]: stable, by an integer comparator *)

Section sort.
Context {A : Type} (compare : A → A → Z).
Implicit Types l : list A.

Fixpoint js_insert (x : A) l : list A :=
  match l with
  | [] => [x]
  | y :: l' => if compare x y <=? 0 then x :: l else y :: js_insert x l'
  end.

Fixpoint js_sort l : list A :=
  match l with [] => [] | x :: l => js_insert x (js_sort l) end.

Lemma js_insert_perm x l : js_insert x l ≡ₚ x :: l.
Proof.
  induction l as [|y l IH]; simpl; [done|].
  destruct (_ <=? _); [done|]. rewrite IH. apply Permutation_swap.
Qed.

Lemma js_sort_perm l : js_sort l ≡ₚ l.
Proof. induction l as [|x l IH]; simpl; [done|]. by rewrite js_insert_perm, IH. Qed.

(** The sort is stable: elements of a class that the comparator does not tell
    apart keep their order. *)
Lemma js_sort_stable (same : A → bool) l :
  (∀ x y, same x = true → same y = true → compare x y ≤ 0) → js_filter same (js_sort l) = js_filter same l.
Proof.
  intros Hsame. induction l as [|x l IH]; [done|]. cbn [js_sort]. transitivity (js_filter same (x :: js_sort l)); [|cbn; by rewrite IH].
  generalize (js_sort l). clear IH l. intros l. induction l as [|y l IH]; [done|]. cbn [js_insert].
  destruct (Z.leb_spec (compare x y) 0) as [|Hgt]; [done|]. cbn [List.filter] in *. rewrite IH.
  destruct (same x) eqn:Hx, (same y) eqn:Hy; try done. specialize (Hsame x y Hx Hy). lia.
Qed.

(** With a comparator that is a total preorder on the elements, the result
    is in order. *)
Record preorder_on (P : A → Prop) : Prop := {
  preorder_total x y : P x → P y → compare x y ≤ 0 ∨ compare y x ≤ 0;
  preorder_trans x y z : P x → P y → P z → compare x y ≤ 0 → compare y z ≤ 0 → compare x z ≤ 0 }.

Definition in_order (l : list A) : Prop := StronglySorted (λ x y, compare x y ≤ 0) l.

Lemma js_insert_in_order P x l :
  preorder_on P → P x → Forall P l → in_order l → in_order (js_insert x l).
Proof.
  intros HP Hx Hl Hs. induction Hs as [|y l Hs IH Hy]; simpl; [repeat constructor|].
  apply Forall_cons in Hl as [Py Hl]. destruct (compare x y <=? 0) eqn:Hc; bool_to_prop.
  - constructor; [by constructor|]. constructor; [done|]. rewrite Forall_forall in Hy, Hl |- *. intros z Hz.
    eapply (preorder_trans _ HP _ y); auto.
  - constructor; [by apply IH|]. rewrite js_insert_perm. constructor; [|done].
    destruct (preorder_total _ HP x y); [done..|lia|done].
Qed.

Lemma js_sort_in_order P l : preorder_on P → Forall P l → in_order (js_sort l).
Proof.
  intros HP Hl. induction Hl as [|x l Hx Hl IH]; simpl; [constructor|].
  apply (js_insert_in_order P); auto. by rewrite js_sort_perm.
Qed.

(** On the elements of the list the comparator is a strict total order. *)
Record strict_on (P : A → Prop) : Prop := {
  strict_total x y : P x → P y → x ≠ y → compare x y < 0 ∨ compare y x < 0;
  strict_asym x y : P x → P y → compare x y < 0 → 0 < compare y x;
  strict_trans x y z :
    P x → P y → P z → compare x y < 0 → compare y z < 0 → compare x z < 0 }.

Definition ascending (l : list A) : Prop :=
  StronglySorted (λ x y, compare x y < 0) l.

Lemma js_insert_head x l :
  Forall (λ y, compare x y < 0) l → js_insert x l = x :: l.
Proof. destruct 1; simpl; [done|]. by rewrite (proj2 (Z.leb_le _ _)) by lia. Qed.

Lemma js_insert_ascending P x l :
  strict_on P → P x → Forall P l → x ∉ l → ascending l → ascending (js_insert x l).
Proof.
  intros HP Hx Hl Hnotin Hs. induction Hs as [|y l Hs IH Hy]; simpl.
  { repeat constructor. }
  apply Forall_cons in Hl as [Py Hl]. apply not_elem_of_cons in Hnotin as [Hne Hnotin].
  destruct (compare x y <=? 0) eqn:Hc; bool_to_prop.
  - assert (compare x y < 0) as Hlt.
    { destruct (strict_total _ HP x y) as [?|Hyx]; [done..|].
      apply (strict_asym _ HP) in Hyx; [lia|done..]. }
    constructor; [by constructor|]. constructor; [done|].
    rewrite Forall_forall in Hy, Hl |- *. intros z Hz.
    eapply (strict_trans _ HP _ y); auto.
  - constructor; [by apply IH|]. rewrite js_insert_perm. constructor; [|done].
    destruct (strict_total _ HP x y); [done..|lia|done].
Qed.

Lemma js_sort_ascending P l :
  strict_on P → Forall P l → NoDup l → ascending (js_sort l).
Proof.
  intros HP Hl Hnd. induction Hnd as [|x l Hx Hnd IH]; simpl; [constructor|].
  apply Forall_cons in Hl as [Px Hl]. apply (js_insert_ascending P); auto.
  - by rewrite js_sort_perm.
  - by rewrite js_sort_perm.
Qed.

Lemma ascending_unique P l1 l2 :
  strict_on P → Forall P l1 → l1 ≡ₚ l2 → ascending l1 → ascending l2 → l1 = l2.
Proof.
  intros HP Hl Hperm H1. revert l2 Hl Hperm.
  induction H1 as [|x l1 H1 IH Hx]; intros l2 Hl Hperm H2.
  { symmetry. by apply Permutation_nil. }
  destruct H2 as [|y l2 H2 Hy]; [by apply Permutation_nil_r in Hperm|].
  assert (x = y) as ->.
  { assert (x ∈ y :: l2) as [->|Hin]%elem_of_cons by (rewrite <-Hperm; set_solver); [done|].
    assert (y ∈ x :: l1) as [->|Hin']%elem_of_cons by (rewrite Hperm; set_solver); [done|].
    rewrite Forall_forall in Hx, Hy, Hl. specialize (Hx _ Hin'). specialize (Hy _ Hin).
    apply (strict_asym _ HP) in Hx; [lia|apply Hl; set_solver..]. }
  f_equal. apply IH; [by apply Forall_cons in Hl as [_ ?]| |done].
  by apply (Permutation_cons_inv (a := y)).
Qed.

(** The stable sort is the unique ascending rearrangement. *)
Lemma js_sort_unique P l l' :
  strict_on P → Forall P l → NoDup l → l' ≡ₚ l → ascending l' → js_sort l = l'.
Proof.
  intros HP Hl Hnd Hperm Hasc. apply (ascending_unique P); [done| | |by eapply js_sort_ascending|done].
  - by rewrite js_sort_perm.
  - by rewrite js_sort_perm, Hperm.
Qed.
End sort.
