(* ===== verification/JsNumber.v ===== *)
(** The numbers of the language: IEEE 754 binary64, as the executable
    [spec_float] of the standard library at precision 53 and maximal
    exponent 1024, with the tests, operations and the integer conversions the
    console uses, and the closure facts its theorems share. *)
From Corelib Require Export SpecFloat.
From S2P Require Import Prelude.

Abbreviation number := spec_float (only parsing).

#[export] Instance number_eq_dec : EqDecision spec_float.
Proof. solve_decision. Defined.

(** ** Operations *)

Definition num_add : number → number → number := SFadd 53 1024.
Definition num_sub : number → number → number := SFsub 53 1024.
Definition num_mul : number → number → number := SFmul 53 1024.
Definition num_div : number → number → number := SFdiv 53 1024.
(** [a < b], [a <= b] and [a === b]: all false on [NaN]. *)
Definition num_ltb : number → number → bool := SFltb.
Definition num_leb : number → number → bool := SFleb.
Definition num_eqb : number → number → bool := SFeqb.

(** The number nearest to an integer (exact up to 2^53). *)
Definition num_of_Z (z : Z) : number := binary_normalize 53 1024 z 0 false.

(** The number nearest to [m / d], ties to even: what a decimal literal denotes. *)
Definition num_of_ratio (s : bool) (m d : positive) : number :=
  SFdiv 53 1024 (S754_finite s m 0) (S754_finite false d 0).

Definition num_zero : number := S754_zero false.
Definition POSITIVE_INFINITY : number := S754_infinity false.

(** [Number.isFinite]. *)
Definition isFinite (x : number) : bool :=
  match x with S754_zero _ | S754_finite _ _ _ => true | _ => false end.

(** [Number.isFinite(x) && x >= 0]. *)
Definition finite_nonneg (x : number) : bool := isFinite x && num_leb num_zero x.

(** The integer a number denotes, if it is one. *)
Definition num_to_Z (x : number) : option Z :=
  match x with
  | S754_zero _ => Some 0
  | S754_finite s m e =>
      let signed z := if s : bool then - z else z in
      if 0 <=? e then Some (signed (Zpos m * 2 ^ e))
      else if Zpos m mod 2 ^ (- e) =? 0 then Some (signed (Zpos m / 2 ^ (- e)))
      else None
  | _ => None
  end.

(** ** Integers up to 2^53 are represented exactly *)

Lemma digits2_pos_bounds p : 2 ^ (Zpos (digits2_pos p) - 1) ≤ Zpos p < 2 ^ Zpos (digits2_pos p).
Proof.
  induction p as [p IH|p IH|]; simpl digits2_pos; [| |done].
  all: rewrite Pos2Z.inj_succ; unfold Z.succ; rewrite Z.add_simpl_r.
  all: replace (Zpos (digits2_pos p)) with (Zpos (digits2_pos p) - 1 + 1) at 1 by lia.
  all: rewrite !Z.pow_add_r by lia; lia.
Qed.

Lemma digits2_pos_shift m k :
  Zpos (digits2_pos (Pos.iter xO m k)) = Zpos (digits2_pos m) + Zpos k.
Proof.
  induction k as [|k IH] using Pos.peano_ind; [simpl; lia|].
  rewrite Pos.iter_succ. simpl digits2_pos. lia.
Qed.

Lemma pos_shift_value m k : Zpos (Pos.iter xO m k) = Zpos m * 2 ^ Zpos k.
Proof.
  induction k as [|k IH] using Pos.peano_ind; [simpl; lia|].
  rewrite Pos.iter_succ, Pos2Z.inj_xO, IH, Pos2Z.inj_succ, Z.pow_succ_r by lia. lia.
Qed.

(** A mantissa of exactly 53 bits is not rounded. *)
Lemma round_exact s M e :
  Zpos (digits2_pos M) = 53 → -1074 ≤ e ≤ 971 →
  binary_round_aux 53 1024 s (Zpos M) e loc_Exact = S754_finite s M e.
Proof.
  intros HM He.
  assert (shr_fexp 53 1024 (Zpos M) e loc_Exact = (Build_shr_record (Zpos M) false false, e)) as Hs.
  { unfold shr_fexp, fexp, emin. simpl Zdigits2. rewrite HM.
    replace (Z.max _ _ - e) with 0 by lia. done. }
  unfold binary_round_aux. rewrite Hs. simpl. rewrite Hs. simpl.
  rewrite (proj2 (Z.leb_le _ _)) by lia. done.
Qed.

Lemma round_pos s m :
  Zpos m < 2 ^ 53 →
  ∃ M e, binary_round 53 1024 s m 0 = S754_finite s M e
         ∧ -53 < e ≤ 0 ∧ Zpos M = Zpos m * 2 ^ (- e) ∧ 2 ^ 52 ≤ Zpos M < 2 ^ 53.
Proof.
  intros Hm. pose proof (digits2_pos_bounds m) as [Hlo Hhi].
  assert (Zpos (digits2_pos m) ≤ 53) as Hd.
  { assert (2 ^ (Zpos (digits2_pos m) - 1) < 2 ^ 53) as Hpow by lia.
    apply Z.pow_lt_mono_r_iff in Hpow; lia. }
  unfold binary_round, fexp, emin, shl_align.
  replace (Z.max _ _) with (Zpos (digits2_pos m) - 53) by lia. rewrite Z.sub_0_r.
  assert (∀ M, Zpos (digits2_pos M) = 53 → 2 ^ 52 ≤ Zpos M < 2 ^ 53) as Hnorm.
  { intros M HM. pose proof (digits2_pos_bounds M) as [H1 H2]. rewrite HM in H1, H2. done. }
  destruct (Zpos (digits2_pos m) - 53) as [|k|k] eqn:Hk; [|lia|]; cbv beta iota zeta.
  - exists m, 0. rewrite round_exact by lia. split_and!; try (lia || done); apply Hnorm; lia.
  - exists (Pos.iter xO m k), (Zneg k).
    rewrite round_exact, pos_shift_value by (rewrite ?digits2_pos_shift; lia). split_and!; try (lia || done).
    all: rewrite <- pos_shift_value; apply Hnorm; rewrite digits2_pos_shift; lia.
Qed.

Lemma num_to_Z_of_Z z : Z.abs z < 2 ^ 53 → num_to_Z (num_of_Z z) = Some z.
Proof.
  assert (∀ s m, Zpos m < 2 ^ 53 →
    num_to_Z (binary_round 53 1024 s m 0) = Some (if s : bool then - Zpos m else Zpos m)) as H.
  { intros s m Hm. destruct (round_pos s m Hm) as (M & e & -> & He & HM & _). unfold num_to_Z.
    destruct (Z.leb_spec 0 e).
    - replace e with 0 in * by lia. rewrite Z.pow_0_r, Z.mul_1_r in *. by rewrite HM.
    - rewrite HM, Z.mod_mul, Z.div_mul by lia. done. }
  intros Hz. destruct z as [|m|m]; unfold num_of_Z; simpl; [done|..].
  all: rewrite H by lia; done.
Qed.

Lemma num_of_Z_inj z z' :
  Z.abs z < 2 ^ 53 → Z.abs z' < 2 ^ 53 → num_of_Z z = num_of_Z z' → z = z'.
Proof.
  intros Hz Hz' Heq. apply (f_equal num_to_Z) in Heq.
  rewrite !num_to_Z_of_Z in Heq by done. by injection Heq.
Qed.

Lemma num_of_Z_finite z : Z.abs z < 2 ^ 53 → isFinite (num_of_Z z) = true.
Proof.
  intros Hz. pose proof (num_to_Z_of_Z z Hz) as H. by destruct (num_of_Z z).
Qed.

(** ** Comparisons and products of integers are exact *)

Lemma num_of_Z_shape z : z ≠ 0 → Z.abs z < 2 ^ 53 →
  ∃ M e, num_of_Z z = S754_finite (z <? 0) M e ∧ -53 < e ≤ 0 ∧ Zpos M = Z.abs z * 2 ^ (- e) ∧ 2 ^ 52 ≤ Zpos M < 2 ^ 53.
Proof. intros H0 Hz. destruct z as [|m|m]; [done|..]; unfold num_of_Z; simpl; apply round_pos; lia. Qed.

(** Mantissas of 53 bits are ordered by their exponents first. *)
Lemma exponent_order M1 e1 M2 e2 a b :
  Zpos M1 < 2 ^ 53 → 2 ^ 52 ≤ Zpos M2 → e1 < e2 ≤ 0 → Zpos M1 = a * 2 ^ (- e1) → Zpos M2 = b * 2 ^ (- e2) → a < b.
Proof.
  intros H1 H2 He Ha Hb. destruct (Z.lt_ge_cases a b) as [|Hge]; [done|exfalso].
  replace (- e1) with (- e2 + 1 + (e2 - e1 - 1)) in Ha by lia.
  rewrite !Z.pow_add_r in Ha by lia. assert (0 < 2 ^ (e2 - e1 - 1)) by (apply Z.pow_pos_nonneg; lia).
  assert (0 < 2 ^ (- e2)) by (apply Z.pow_pos_nonneg; lia).
  set (p := 2 ^ (- e2)) in *. set (k := 2 ^ (e2 - e1 - 1)) in *.
  assert (b * p ≤ a * p) by (apply Z.mul_le_mono_nonneg_r; lia).
  assert (a * p * 1 ≤ a * p * k) by (apply Z.mul_le_mono_nonneg_l; lia). lia.
Qed.

Lemma num_compare_of_Z a b :
  Z.abs a < 2 ^ 53 → Z.abs b < 2 ^ 53 → SFcompare (num_of_Z a) (num_of_Z b) = Some (a ?= b).
Proof.
  intros Ha Hb. destruct (decide (a = 0)) as [->|Ha0], (decide (b = 0)) as [->|Hb0]; [done|..].
  - destruct (num_of_Z_shape b Hb0 Hb) as (M & e & -> & _). by destruct b.
  - destruct (num_of_Z_shape a Ha0 Ha) as (M & e & -> & _). by destruct a.
  - destruct (num_of_Z_shape a Ha0 Ha) as (M1 & e1 & -> & He1 & Hm1 & Hl1 & Hh1), (num_of_Z_shape b Hb0 Hb) as (M2 & e2 & -> & He2 & Hm2 & Hl2 & Hh2).
    pose proof (exponent_order M1 e1 M2 e2 (Z.abs a) (Z.abs b)) as H12. pose proof (exponent_order M2 e2 M1 e1 (Z.abs b) (Z.abs a)) as H21.
    cbn [SFcompare]. assert (0 < 2 ^ (- e1)) by (apply Z.pow_pos_nonneg; lia). symmetry.
    destruct (Z.ltb_spec a 0), (Z.ltb_spec b 0); f_equal; try (apply Z.compare_lt_iff || apply Z.compare_gt_iff; lia).
    all: destruct (Z.compare_spec e1 e2) as [<-|He|He]; try (apply Z.compare_lt_iff || apply Z.compare_gt_iff; lia).
    all: change (Pos.compare_cont Eq M1 M2) with (Z.pos M1 ?= Z.pos M2); rewrite Hm1, Hm2, <- Zmult_compare_compat_r by lia.
    all: destruct (Z.compare_spec (Z.abs a) (Z.abs b)); cbn [CompOpp];
      (apply Z.compare_eq_iff || apply Z.compare_lt_iff || apply Z.compare_gt_iff); lia.
Qed.

Lemma num_ltb_of_Z a b : Z.abs a < 2 ^ 53 → Z.abs b < 2 ^ 53 → num_ltb (num_of_Z a) (num_of_Z b) = (a <? b).
Proof. intros Ha Hb. unfold num_ltb, SFltb, Z.ltb. by rewrite num_compare_of_Z. Qed.

Lemma num_eqb_of_Z a b : Z.abs a < 2 ^ 53 → Z.abs b < 2 ^ 53 → num_eqb (num_of_Z a) (num_of_Z b) = (a =? b).
Proof. intros Ha Hb. unfold num_eqb, SFeqb. rewrite num_compare_of_Z, Z.eqb_compare by done. by destruct (a ?= b). Qed.

Lemma iter_pos_exact n q :
  0 < q → SpecFloat.iter_pos shr_1 n (Build_shr_record (q * 2 ^ Zpos n) false false) = Build_shr_record q false false.
Proof.
  revert q. induction n as [n IH|n IH|]; intros q Hq; cbn [SpecFloat.iter_pos].
  - replace (q * 2 ^ Zpos n~1) with (2 * (q * 2 ^ Zpos n * 2 ^ Zpos n))
      by (replace (Zpos n~1) with (Zpos n + Zpos n + 1) by lia; rewrite !Z.pow_add_r by lia; ring).
    assert (0 < q * 2 ^ Zpos n) as H1 by (apply Z.mul_pos_pos; [lia|apply Z.pow_pos_nonneg; lia]).
    assert (0 < q * 2 ^ Zpos n * 2 ^ Zpos n) as H2 by (apply Z.mul_pos_pos; [lia|apply Z.pow_pos_nonneg; lia]).
    assert (shr_1 (Build_shr_record (2 * (q * 2 ^ Zpos n * 2 ^ Zpos n)) false false) =
            Build_shr_record (q * 2 ^ Zpos n * 2 ^ Zpos n) false false) as ->
      by (destruct (q * 2 ^ Zpos n * 2 ^ Zpos n); [lia|done|lia]).
    by rewrite !IH.
  - replace (q * 2 ^ Zpos n~0) with (q * 2 ^ Zpos n * 2 ^ Zpos n)
      by (replace (Zpos n~0) with (Zpos n + Zpos n) by lia; rewrite Z.pow_add_r by lia; ring).
    assert (0 < q * 2 ^ Zpos n) as H1 by (apply Z.mul_pos_pos; [lia|apply Z.pow_pos_nonneg; lia]). by rewrite !IH.
  - destruct q as [|p|p]; [lia| |lia]. by rewrite Z.mul_comm.
Qed.

(** A mantissa with as many zeros at its end as it is too long is exact. *)
Lemma round_aux_exact s P Q k e :
  Zpos P = Zpos Q * 2 ^ k → 2 ^ 52 ≤ Zpos Q < 2 ^ 53 → 0 ≤ k → -1074 ≤ e + k ≤ 971 →
  binary_round_aux 53 1024 s (Zpos P) e loc_Exact = S754_finite s Q (e + k).
Proof.
  intros HP HQ Hk He.
  assert (∀ M j, 0 ≤ j → 2 ^ (52 + j) ≤ Zpos M < 2 ^ (53 + j) → Zpos (digits2_pos M) = 53 + j) as Hdig.
  { intros M j Hj HM. pose proof (digits2_pos_bounds M) as [H1 H2].
    assert (2 ^ (52 + j) < 2 ^ Zpos (digits2_pos M)) as H3 by lia. apply Z.pow_lt_mono_r_iff in H3; [|lia..].
    assert (2 ^ (Zpos (digits2_pos M) - 1) < 2 ^ (53 + j)) as H4 by lia. apply Z.pow_lt_mono_r_iff in H4; lia. }
  assert (Zpos (digits2_pos Q) = 53) as HdQ by (apply (Hdig Q 0); lia).
  assert (Zpos (digits2_pos P) = 53 + k) as HdP.
  { apply Hdig; [done|]. rewrite !Z.pow_add_r, HP by lia. assert (0 < 2 ^ k) by (apply Z.pow_pos_nonneg; lia).
    split; [apply Z.mul_le_mono_nonneg_r; lia|apply Z.mul_lt_mono_pos_r; lia]. }
  destruct (Z.eq_dec k 0) as [->|Hk0].
  { rewrite Z.mul_1_r in HP. injection HP as ->. rewrite Z.add_0_r. apply round_exact; lia. }
  assert (shr_fexp 53 1024 (Zpos P) e loc_Exact = (Build_shr_record (Zpos Q) false false, e + k)) as Hs.
  { unfold shr_fexp, fexp, emin, shr. simpl Zdigits2. rewrite HdP.
    replace (Z.max _ _ - e) with k by lia. destruct k as [|k|k]; [lia| |lia]. cbn [shr_record_of_loc]. rewrite HP.
    by rewrite iter_pos_exact by lia. }
  unfold binary_round_aux. rewrite Hs. cbn [shr_m loc_of_shr_record round_nearest_even].
  assert (shr_fexp 53 1024 (Zpos Q) (e + k) loc_Exact = (Build_shr_record (Zpos Q) false false, e + k)) as Hs2.
  { unfold shr_fexp, fexp, emin. simpl Zdigits2. rewrite HdQ. replace (Z.max _ _ - (e + k)) with 0 by lia. done. }
  rewrite Hs2. cbn [shr_m]. rewrite (proj2 (Z.leb_le _ _)) by lia. done.
Qed.

Lemma num_mul_of_Z a b :
  0 < a < 2 ^ 53 → 0 < b < 2 ^ 53 → a * b < 2 ^ 53 → num_mul (num_of_Z a) (num_of_Z b) = num_of_Z (a * b).
Proof.
  intros Ha Hb Hab. assert (0 < a * b) as H0 by (apply Z.mul_pos_pos; lia).
  destruct (num_of_Z_shape a) as (M1 & e1 & -> & He1 & Hm1 & H1); [lia..|].
  destruct (num_of_Z_shape b) as (M2 & e2 & -> & He2 & Hm2 & H2); [lia..|].
  destruct (num_of_Z_shape (a * b)) as (M3 & e3 & -> & He3 & Hm3 & H3); [lia..|].
  rewrite !(proj2 (Z.ltb_ge _ 0)) by lia. rewrite !Z.abs_eq in * by lia. unfold num_mul. cbn [SFmul xorb].
  assert (2 ^ 52 * 2 ^ 52 ≤ Zpos (M1 * M2)) as HP by (rewrite Pos2Z.inj_mul; apply Z.mul_le_mono_nonneg; lia).
  assert (Zpos (M1 * M2) = a * b * 2 ^ (- e1 - e2)) as Heq.
  { rewrite Pos2Z.inj_mul, Hm1, Hm2. replace (- e1 - e2) with (- e1 + - e2) by lia. rewrite Z.pow_add_r by lia. ring. }
  assert (e1 + e2 ≤ e3) as Hk.
  { destruct (Z.le_gt_cases (e1 + e2) e3) as [|Hlt]; [done|exfalso].
    assert (2 ^ (- e1 - e2) ≤ 2 ^ (- e3)) by (apply Z.pow_le_mono_r; lia).
    assert (a * b * 2 ^ (- e1 - e2) ≤ a * b * 2 ^ (- e3)) by (apply Z.mul_le_mono_nonneg_l; lia). lia. }
  replace e3 with (e1 + e2 + (e3 - (e1 + e2))) at 1 by lia. apply round_aux_exact; [|lia..].
  rewrite Heq, Hm3. replace (- e1 - e2) with (- e3 + (e3 - (e1 + e2))) by lia. rewrite Z.pow_add_r by lia. ring.
Qed.

(** ** Non-negative numbers are closed under the arithmetic of the gauges *)

(** Neither negative nor [NaN]; [-0] and [Infinity] are included. *)
Definition nonneg (x : number) : bool :=
  match x with
  | S754_zero _ | S754_infinity false | S754_finite false _ _ => true
  | _ => false
  end.

Lemma finite_nonneg_spec x : finite_nonneg x = true ↔ isFinite x = true ∧ nonneg x = true.
Proof. unfold finite_nonneg. rewrite andb_true_iff. by destruct x as [|[]| |[]]. Qed.

Lemma nonneg_not_ltb x : nonneg x = true → num_ltb x num_zero = false.
Proof. by destruct x as [|[]| |[]]. Qed.

Lemma shr_1_nonneg mrs : 0 ≤ shr_m mrs → 0 ≤ shr_m (shr_1 mrs).
Proof. destruct mrs as [[|[p|p|]|p] r s]; simpl; lia. Qed.

Lemma iter_pos_nonneg n mrs : 0 ≤ shr_m mrs → 0 ≤ shr_m (SpecFloat.iter_pos shr_1 n mrs).
Proof. revert mrs. induction n; intros mrs H; simpl; auto using shr_1_nonneg. Qed.

Lemma shr_fexp_nonneg m e l : 0 ≤ m → 0 ≤ shr_m (shr_fexp 53 1024 m e l).1.
Proof.
  intros Hm. unfold shr_fexp, shr.
  assert (0 ≤ shr_m (shr_record_of_loc m l)) by (destruct l as [|[]]; done).
  case_match; simpl; auto using iter_pos_nonneg.
Qed.

Lemma round_aux_nonneg m e l : 0 ≤ m → nonneg (binary_round_aux 53 1024 false m e l) = true.
Proof.
  intros Hm. unfold binary_round_aux.
  pose proof (shr_fexp_nonneg m e l Hm) as H1.
  destruct (shr_fexp 53 1024 m e l) as [mrs1 e1]. simpl in H1.
  assert (0 ≤ round_nearest_even (shr_m mrs1) (loc_of_shr_record mrs1)) as H2.
  { unfold round_nearest_even. repeat case_match; lia. }
  pose proof (shr_fexp_nonneg _ e1 loc_Exact H2) as H3.
  destruct (shr_fexp _ _ _ e1 _) as [mrs2 e2]. simpl in H3.
  destruct (shr_m mrs2); [done| |lia]. by case_match.
Qed.

Lemma binary_round_nonneg m e : nonneg (binary_round 53 1024 false m e) = true.
Proof. unfold binary_round. case_match. by apply round_aux_nonneg. Qed.

Lemma num_of_Z_nonneg z : 0 ≤ z → nonneg (num_of_Z z) = true.
Proof. destruct z as [|p|p]; [done| |lia]. intros _. apply binary_round_nonneg. Qed.

Lemma num_add_nonneg x y : nonneg x = true → nonneg y = true → nonneg (num_add x y) = true.
Proof.
  unfold num_add. destruct x as [[]|[]| |[] m e], y as [[]|[]| |[] m' e']; try done.
  intros _ _. unfold SFadd, cond_Zopp. simpl binary_normalize. apply binary_round_nonneg.
Qed.

Lemma num_mul_nonneg x y :
  finite_nonneg x = true → finite_nonneg y = true → nonneg (num_mul x y) = true.
Proof.
  unfold num_mul. destruct x as [[]|[]| |[] m e], y as [[]|[]| |[] m' e']; try done.
  intros _ _. by apply round_aux_nonneg.
Qed.

Lemma num_div_nonneg x y :
  nonneg x = true → isFinite y = true → num_ltb num_zero y = true →
  nonneg (num_div x y) = true.
Proof.
  unfold num_div. destruct x as [[]|[]| |[] m e], y as [[]|[]| |[] m' e']; try done.
  intros _ _ _. unfold SFdiv. destruct (SFdiv_core_binary _ _ _ _ _ _) as [[q e''] l] eqn:Hq.
  apply round_aux_nonneg. unfold SFdiv_core_binary in Hq.
  match type of Hq with context [Z.div_eucl ?a ?b] =>
    assert (0 ≤ a) as Ha; [|pose proof (Z.div_pos a b Ha) as Hdiv; unfold Z.div in Hdiv;
      destruct (Z.div_eucl a b); injection Hq; intros; subst; apply Hdiv; lia]
  end.
  match goal with |- 0 ≤ match ?s with _ => _ end => destruct s end; [lia| |lia].
  apply Z.shiftl_nonneg. lia.
Qed.

#[export] Hint Resolve num_add_nonneg num_mul_nonneg num_div_nonneg num_of_Z_nonneg
  num_of_Z_finite : console.

(** Products of normal size do not vanish. *)

Lemma shr_1_m mrs : 0 ≤ shr_m mrs → shr_m (shr_1 mrs) = shr_m mrs / 2.
Proof.
  destruct mrs as [[|[p|p|]|p] r s]; simpl; intros H; try done; symmetry.
  - rewrite Pos2Z.inj_xI, Z.mul_comm, Z.div_add_l by lia. by rewrite Z.add_0_r.
  - rewrite Pos2Z.inj_xO, Z.mul_comm. by rewrite Z.div_mul.
Qed.

Lemma iter_pos_m n mrs :
  0 ≤ shr_m mrs → shr_m (SpecFloat.iter_pos shr_1 n mrs) = shr_m mrs / 2 ^ Zpos n.
Proof.
  revert mrs. induction n as [n IH|n IH|]; intros mrs H; cbn [SpecFloat.iter_pos].
  - rewrite !IH, shr_1_m by auto using shr_1_nonneg, iter_pos_nonneg.
    rewrite !Z.div_div by (try apply Z.pow_pos_nonneg; lia || (try apply Z.pow_nonzero; lia)).
    f_equal. rewrite <-Z.pow_add_r by lia. rewrite Pos2Z.inj_xI.
    replace (2 * Zpos n + 1) with (1 + (Zpos n + Zpos n)) by lia.
    by rewrite (Z.pow_add_r 2 1) by lia.
  - rewrite !IH by auto using iter_pos_nonneg.
    rewrite Z.div_div by (try apply Z.pow_pos_nonneg; lia || (try apply Z.pow_nonzero; lia)).
    rewrite <-Z.pow_add_r by lia. f_equal. f_equal. lia.
  - by rewrite shr_1_m by done.
Qed.

Lemma shr_fexp_pos m e l :
  -1074 ≤ e → 0 < m → 0 < shr_m (shr_fexp 53 1024 m e l).1 ∧ -1074 ≤ (shr_fexp 53 1024 m e l).2.
Proof.
  intros He Hm. destruct m as [|m|m]; [lia| |lia].
  unfold shr_fexp, shr, fexp, emin. simpl Zdigits2.
  assert (shr_m (shr_record_of_loc (Zpos m) l) = Zpos m) as Hl by (destruct l as [|[]]; done).
  destruct (Z.max _ _ - e) as [|n|n] eqn:Hn; cbn [fst snd]; rewrite ?Hl; [lia| |lia].
  rewrite iter_pos_m, Hl by (rewrite Hl; lia). split; [|lia].
  apply Z.div_str_pos. split; [apply Z.pow_pos_nonneg; lia|].
  pose proof (digits2_pos_bounds m) as [Hlo _]. etransitivity; [|done].
  apply Z.pow_le_mono_r; lia.
Qed.

Lemma round_aux_nonzero m e l :
  -1074 ≤ e → 0 < m → num_ltb num_zero (binary_round_aux 53 1024 false m e l) = true.
Proof.
  intros He Hm. unfold binary_round_aux.
  pose proof (shr_fexp_pos m e l He Hm) as [H1 He1].
  destruct (shr_fexp 53 1024 m e l) as [mrs1 e1]. simpl in H1, He1.
  assert (0 < round_nearest_even (shr_m mrs1) (loc_of_shr_record mrs1)) as H2.
  { unfold round_nearest_even. repeat case_match; lia. }
  pose proof (shr_fexp_pos _ e1 loc_Exact He1 H2) as [H3 _].
  destruct (shr_fexp _ _ _ e1 _) as [mrs2 e2]. simpl in H3.
  destruct (shr_m mrs2); [lia| |lia]. by case_match.
Qed.

Lemma num_mul_pos x y :
  match x, y with
  | S754_finite false _ e, S754_finite false _ e' => -1074 ≤ e + e'
  | _, _ => False
  end → num_ltb num_zero (num_mul x y) = true.
Proof.
  destruct x as [| | |[] m e], y as [| | |[] m' e']; try done. intros He.
  by apply round_aux_nonzero.
Qed.

(** Dividing a finite gauge by a positive number, possibly [Infinity]. *)
Lemma num_div_pos_nonneg x y :
  finite_nonneg x = true → num_ltb num_zero y = true → nonneg (num_div x y) = true.
Proof.
  intros [Hf Hn]%finite_nonneg_spec Hy. destruct (isFinite y) eqn:Hfin.
  - by apply num_div_nonneg.
  - destruct y as [|[]| |]; try done. by destruct x as [[]| | |[]].
Qed.

Lemma num_mul_pos_nonneg x y :
  nonneg x = true → isFinite y = true → num_ltb num_zero y = true → nonneg (num_mul x y) = true.
Proof.
  destruct x as [[]|[]| |[] m e], y as [[]|[]| |[] m' e']; try done. intros _ _ _.
  by apply round_aux_nonneg.
Qed.

Lemma num_of_Z_pos z : 0 < z → num_ltb num_zero (num_of_Z z) = true.
Proof.
  intros Hz. destruct z as [|m|m]; [lia| |lia]. unfold num_of_Z, binary_normalize, binary_round.
  unfold shl_align, fexp, emin.
  destruct (Z.max _ _ - 0) as [|k|k] eqn:Hk; apply round_aux_nonzero; lia.
Qed.

(** ** Numbers beyond the exact integers *)

Lemma shr_fexp_exponent m e l : 0 < m →
  e ≤ (shr_fexp 53 1024 m e l).2 ∧ (2 ^ 53 ≤ m → e = 0 → 0 < (shr_fexp 53 1024 m e l).2).
Proof.
  intros Hm. destruct m as [|m|m]; [lia| |lia]. unfold shr_fexp, shr, fexp, emin. simpl Zdigits2.
  destruct (Z.max _ _ - e) as [|n|n] eqn:Hn; cbn [snd]; (split; [lia|]); intros Hbig ->; [exfalso|lia|exfalso].
  all: pose proof (digits2_pos_bounds m) as [_ Hhi]; assert (2 ^ 53 < 2 ^ Zpos (digits2_pos m)) as Hpow by lia.
  all: apply Z.pow_lt_mono_r_iff in Hpow; lia.
Qed.

Lemma round_aux_large m : 2 ^ 53 ≤ m →
  binary_round_aux 53 1024 false m 0 loc_Exact = S754_infinity false ∨
  ∃ M e, binary_round_aux 53 1024 false m 0 loc_Exact = S754_finite false M e ∧ 0 < e.
Proof.
  intros Hm. unfold binary_round_aux.
  pose proof (shr_fexp_pos m 0 loc_Exact ltac:(lia) ltac:(lia)) as [H1 He1].
  pose proof (proj2 (shr_fexp_exponent m 0 loc_Exact ltac:(lia)) Hm eq_refl) as He2.
  destruct (shr_fexp 53 1024 m 0 loc_Exact) as [mrs1 e1]. cbn [fst snd] in *.
  assert (0 < round_nearest_even (shr_m mrs1) (loc_of_shr_record mrs1)) as H2
    by (unfold round_nearest_even; repeat case_match; lia).
  pose proof (shr_fexp_pos _ e1 loc_Exact He1 H2) as [H3 _]. pose proof (proj1 (shr_fexp_exponent _ e1 loc_Exact H2)) as He3.
  destruct (shr_fexp _ _ _ e1 _) as [mrs2 e2]. cbn [fst snd] in *.
  destruct (shr_m mrs2) as [|M|M]; [lia| |lia]. case_match; [right|by left]. exists M, e2. split; [done|lia].
Qed.

(** A large integer is read as infinity, or as a number that is not smaller
    than [2^53]. *)
Lemma num_of_Z_large a : 2 ^ 53 ≤ a →
  num_of_Z a = S754_infinity false ∨ ∃ M e, num_of_Z a = S754_finite false M e ∧ 0 < e.
Proof.
  intros Ha. pose proof (round_aux_large a Ha) as Hr. destruct a as [|m|m]; [lia| |lia].
  unfold num_of_Z, binary_normalize, binary_round, shl_align.
  pose proof (digits2_pos_bounds m) as [_ Hhi]. assert (2 ^ 53 < 2 ^ Zpos (digits2_pos m)) as Hpow by lia.
  apply Z.pow_lt_mono_r_iff in Hpow; [|lia..]. destruct (fexp _ _ _ - 0) as [|k|k] eqn:Hk; [done..|].
  unfold fexp, emin in Hk. lia.
Qed.

Lemma num_leb_of_Z a b : 0 ≤ a → 0 ≤ b < 2 ^ 53 →
  num_leb (num_of_Z a) (num_of_Z b) = (a <=? b) ∧ num_leb (num_of_Z b) (num_of_Z a) = (b <=? a).
Proof.
  intros Ha Hb. unfold num_leb, SFleb. destruct (Z.lt_ge_cases a (2 ^ 53)) as [Hlt|Hge].
  { unfold Z.leb. by rewrite !num_compare_of_Z by lia. }
  rewrite (proj2 (Z.leb_gt a b)), (proj2 (Z.leb_le b a)) by lia.
  assert (num_of_Z b = S754_zero false ∨ ∃ M e, num_of_Z b = S754_finite false M e ∧ e ≤ 0) as [->|(M & e & -> & He)].
  { destruct (decide (b = 0)) as [->|Hb0]; [by left|right]. destruct (num_of_Z_shape b Hb0) as (M & e & -> & ? & _); [lia|].
    exists M, e. rewrite (proj2 (Z.ltb_ge b 0)) by lia. split; [done|lia]. }
  all: destruct (num_of_Z_large a Hge) as [->|(M' & e' & -> & He')]; try done; cbn [SFcompare].
  destruct (Z.compare_spec e' e), (Z.compare_spec e e'); try done; lia.
Qed.

(** ** The order of the numbers that are not [NaN] *)

Definition is_nan (x : number) : bool := match x with S754_nan => true | _ => false end.

(** A key that orders numbers: the class, then the exponent, then the
    mantissa, each with the sign. *)
Definition num_key (x : number) : Z * Z * Z :=
  match x with
  | S754_infinity true => (-2, 0, 0)
  | S754_finite true m e => (-1, - e, Z.neg m)
  | S754_zero _ | S754_nan => (0, 0, 0)
  | S754_finite false m e => (1, e, Z.pos m)
  | S754_infinity false => (2, 0, 0)
  end.

Definition key_le (a b : Z * Z * Z) : Prop :=
  a.1.1 < b.1.1 ∨ a.1.1 = b.1.1 ∧ (a.1.2 < b.1.2 ∨ a.1.2 = b.1.2 ∧ a.2 ≤ b.2).

Lemma num_leb_key x y : is_nan x = false → is_nan y = false → num_leb x y = true ↔ key_le (num_key x) (num_key y).
Proof.
  intros Hx Hy. unfold num_leb, SFleb, key_le.
  destruct x as [?|[]| |[] m1 e1], y as [?|[]| |[] m2 e2]; try discriminate; cbn [SFcompare num_key fst snd];
    try (split; intros; (discriminate || lia || done)).
  all: destruct (Z.compare_spec e1 e2) as [->|He|He]; try (split; intros; (discriminate || lia || done)).
  all: change (Pos.compare_cont Eq m1 m2) with (Pos.compare m1 m2); destruct (Pos.compare_spec m1 m2); cbn [CompOpp];
    split; intros; (discriminate || lia || done).
Qed.

Lemma num_leb_refl x : is_nan x = false → num_leb x x = true.
Proof. intros Hx. apply num_leb_key; [done..|]. unfold key_le. lia. Qed.

Lemma num_leb_total x y : is_nan x = false → is_nan y = false → num_leb x y = true ∨ num_leb y x = true.
Proof. intros Hx Hy. rewrite !num_leb_key by done. unfold key_le. lia. Qed.

Lemma num_leb_trans x y z : is_nan x = false → is_nan y = false → is_nan z = false →
  num_leb x y = true → num_leb y z = true → num_leb x z = true.
Proof. intros Hx Hy Hz. rewrite !num_leb_key by done. unfold key_le. lia. Qed.

Lemma num_ltb_leb x y : is_nan x = false → is_nan y = false → num_ltb x y = negb (num_leb y x).
Proof.
  intros Hx Hy. unfold num_ltb, num_leb, SFltb, SFleb.
  destruct x as [?|[]| |[] m1 e1], y as [?|[]| |[] m2 e2]; try discriminate; cbn [SFcompare]; try done.
  all: rewrite (Z.compare_antisym e1 e2); destruct (e1 ?= e2); cbn [CompOpp]; try done.
  all: change (Pos.compare_cont Eq ?a ?b) with (Pos.compare a b); rewrite (Pos.compare_antisym m1 m2);
    by destruct (Pos.compare m1 m2).
Qed.

(** ** [Math.min] and [Math.max] *)

Definition num_min (a b : number) : number :=
  if is_nan a || is_nan b then S754_nan
  else match a, b with
       | S754_zero _, S754_zero true => b
       | _, _ => if num_ltb b a then b else a
       end.

Definition num_max (a b : number) : number :=
  if is_nan a || is_nan b then S754_nan
  else match a, b with
       | S754_zero _, S754_zero false => b
       | _, _ => if num_ltb a b then b else a
       end.

Definition math_min (l : list number) : number := foldl num_min (S754_infinity false) l.
Definition math_max (l : list number) : number := foldl num_max (S754_infinity true) l.

Lemma is_nan_number x : is_nan x = false ↔ x ≠ S754_nan.
Proof. by destruct x. Qed.

(** One step of the minimum keeps the smaller one, and dually. *)
Lemma num_min_spec a b : is_nan a = false → is_nan b = false →
  (num_min a b = a ∨ num_min a b = b) ∧ num_leb (num_min a b) a = true ∧ num_leb (num_min a b) b = true.
Proof.
  intros Ha Hb. pose proof (num_leb_refl a Ha). pose proof (num_leb_refl b Hb). pose proof (num_leb_total a b Ha Hb) as Htot.
  unfold num_min. rewrite Ha, Hb. cbn [orb].
  assert (num_ltb b a = negb (num_leb a b)) as Hlt by by apply num_ltb_leb.
  destruct (num_ltb b a) eqn:H', a as [[]| | |], b as [[]| | |]; try (split_and!; auto; done);
    destruct (num_leb _ _) eqn:Hle in Hlt; try done; split_and!; auto; destruct Htot; congruence.
Qed.

Lemma num_max_spec a b : is_nan a = false → is_nan b = false →
  (num_max a b = a ∨ num_max a b = b) ∧ num_leb a (num_max a b) = true ∧ num_leb b (num_max a b) = true.
Proof.
  intros Ha Hb. pose proof (num_leb_refl a Ha). pose proof (num_leb_refl b Hb). pose proof (num_leb_total a b Ha Hb) as Htot.
  unfold num_max. rewrite Ha, Hb. cbn [orb].
  assert (num_ltb a b = negb (num_leb b a)) as Hlt by by apply num_ltb_leb.
  destruct (num_ltb a b) eqn:H', a as [[]| | |], b as [[]| | |]; try (split_and!; auto; done);
    destruct (num_leb _ _) eqn:Hle in Hlt; try done; split_and!; auto; destruct Htot; congruence.
Qed.

(** The extremes of a list, by an operation that keeps one of its arguments
    and is on one side of both. *)
Section extreme.
Context (f : number → number → number) (R : number → number → Prop).
Context (f_spec : ∀ a b, is_nan a = false → is_nan b = false → (f a b = a ∨ f a b = b) ∧ R (f a b) a ∧ R (f a b) b).
Context (R_trans : ∀ a b c, is_nan a = false → is_nan b = false → is_nan c = false → R a b → R b c → R a c).
Context (R_refl : ∀ a, is_nan a = false → R a a).

Lemma extreme_fold l : ∀ a, is_nan a = false → Forall (λ x, is_nan x = false) l →
  foldl f a l ∈ a :: l ∧ Forall (R (foldl f a l)) (a :: l).
Proof.
  induction l as [|x l IH]; intros a Ha Hl; cbn [foldl].
  - split; [apply list_elem_of_here|]. constructor; [by apply R_refl|constructor].
  - apply Forall_cons in Hl as [Hx Hl]. destruct (f_spec a x Ha Hx) as (Hf & HRa & HRx).
    assert (is_nan (f a x) = false) as Hfn by (by destruct Hf as [-> | ->]).
    destruct (IH (f a x) Hfn Hl) as [Hin [HR Hall]%Forall_cons].
    assert (is_nan (foldl f (f a x) l) = false) as Hr.
    { apply elem_of_cons in Hin as [->|Hin]; [done|]. rewrite Forall_forall in Hl. by apply Hl. }
    split; [|constructor; [by apply (R_trans _ (f a x))|constructor; [by apply (R_trans _ (f a x))|done]]].
    rewrite !elem_of_cons in *. destruct Hin as [->|?]; [|by right; right]. destruct Hf as [-> | ->]; tauto.
Qed.
End extreme.

Lemma infinity_top x : is_nan x = false → num_leb (S754_infinity false) x = true → x = S754_infinity false.
Proof. by destruct x as [?|[]| |[]]. Qed.

Lemma infinity_bottom x : is_nan x = false → num_leb x (S754_infinity true) = true → x = S754_infinity true.
Proof. by destruct x as [?|[]| |[]]. Qed.

Lemma math_min_spec l : l ≠ [] → Forall (λ x, is_nan x = false) l → math_min l ∈ l ∧ Forall (λ x, num_leb (math_min l) x = true) l.
Proof.
  intros Hne Hl. destruct (extreme_fold num_min (λ a b, num_leb a b = true) num_min_spec num_leb_trans num_leb_refl l (S754_infinity false)
    eq_refl Hl) as [Hin [_ Hall]%Forall_cons]. fold (math_min l) in *. split; [|done]. apply elem_of_cons in Hin as [Heq|]; [|done].
  rewrite Heq in *. destruct l as [|x l]; [done|]. apply Forall_cons in Hl as [Hx _], Hall as [Hle _].
  rewrite (infinity_top x Hx Hle). apply list_elem_of_here.
Qed.

Lemma math_max_spec l : l ≠ [] → Forall (λ x, is_nan x = false) l → math_max l ∈ l ∧ Forall (λ x, num_leb x (math_max l) = true) l.
Proof.
  intros Hne Hl. destruct (extreme_fold num_max (λ a b, num_leb b a = true) num_max_spec) with (l := l) (a := S754_infinity true)
    as [Hin [_ Hall]%Forall_cons]; [intros a b c Ha Hb Hc H1 H2; by apply (num_leb_trans c b a)|apply num_leb_refl|done|done|].
  fold (math_max l) in *. split; [|done]. apply elem_of_cons in Hin as [Heq|]; [|done].
  rewrite Heq in *. destruct l as [|x l]; [done|]. apply Forall_cons in Hl as [Hx _], Hall as [Hle _].
  rewrite (infinity_bottom x Hx Hle). apply list_elem_of_here.
Qed.
