(* ===== verification/JsText.v ===== *)
(** The string operations of the language the console uses, on UTF-16 code
    units: trimming, searching, splitting, joining, the decimal text of an
    integer, and what the console relies on of lower-casing. *)
From S2P Require Import Prelude.

(** ** White space and trimming *)

(** WhiteSpace and LineTerminator of ECMA-262. *)
Definition is_space (u : Z) : bool :=
  ((9 <=? u) && (u <=? 13)) || bool_decide (u ∈ [32; 160; 5760; 8232; 8233; 8239; 8287; 12288; 65279])
  || ((8192 <=? u) && (u <=? 8202)).

Fixpoint drop_while (p : Z → bool) (s : jsstr) : jsstr :=
  match s with
  | [] => []
  | u :: s' => if p u then drop_while p s' else s
  end.

Definition trimStart : jsstr → jsstr := drop_while is_space.
Definition trimEnd (s : jsstr) : jsstr := reverse (drop_while is_space (reverse s)).
Definition trim (s : jsstr) : jsstr := trimEnd (trimStart s).

Lemma drop_while_suffix p s : drop_while p s `suffix_of` s.
Proof.
  induction s as [|u s IH]; simpl; [done|]. destruct (p u); [|done].
  by apply suffix_cons_r.
Qed.

Lemma drop_while_nil p s : drop_while p s = [] ↔ Forall (λ u, p u = true) s.
Proof.
  induction s as [|u s IH]; simpl; [split; auto|].
  rewrite Forall_cons. destruct (p u); naive_solver.
Qed.

Lemma drop_while_id p u s : p u = false → drop_while p (u :: s) = u :: s.
Proof. simpl. by intros ->. Qed.

(** Only white space trims to the empty string. *)
Lemma trim_nil s : trim s = [] ↔ Forall (λ u, is_space u = true) s.
Proof.
  unfold trim, trimEnd, trimStart. split.
  - intros H. apply (f_equal reverse) in H. rewrite reverse_involutive in H.
    apply drop_while_nil in H. rewrite Forall_reverse in H.
    destruct (drop_while is_space s) as [|u r] eqn:Hd; [by apply drop_while_nil|].
    exfalso. apply Forall_cons in H as [Hu _]. revert Hd Hu. clear.
    induction s as [|v s IH]; simpl; [done|]. destruct (is_space v) eqn:Hv; [done|]. naive_solver congruence.
  - intros H. rewrite (proj2 (drop_while_nil _ s)) by done. done.
Qed.

(** Leading and trailing surrogates. *)
Definition is_lead (u : Z) : bool := (55296 <=? u) && (u <=? 56319).
Definition is_trail (u : Z) : bool := (56320 <=? u) && (u <=? 57343).

(** ** Searching *)

Fixpoint startsWith (p s : jsstr) : bool :=
  match p, s with
  | [], _ => true
  | u :: p, v :: s => (u =? v) && startsWith p s
  | _ :: _, [] => false
  end.

Lemma startsWith_spec p s : startsWith p s = true ↔ p `prefix_of` s.
Proof.
  revert s. induction p as [|u p IH]; intros [|v s]; simpl.
  - split; [by intros; exists []|done].
  - split; [by intros; exists (v :: s)|done].
  - split; [done|]. intros H. by apply prefix_nil_not in H.
  - rewrite andb_true_iff, IH, Z.eqb_eq. split.
    + intros [-> ?]. by apply prefix_cons.
    + intros H. split; [by apply prefix_cons_inv_1 in H|by apply prefix_cons_inv_2 in H].
Qed.

Fixpoint includes (n s : jsstr) : bool :=
  startsWith n s || match s with [] => false | _ :: s' => includes n s' end.

Lemma includes_spec n s : includes n s = true ↔ ∃ s1 s2, s = s1 ++ n ++ s2.
Proof.
  induction s as [|v s IH]; simpl; rewrite orb_true_iff, startsWith_spec.
  - split.
    + intros [[k Hk]|]; [|done]. exists [], k. done.
    + intros ([|] & s2 & H); [|done]. left. by exists s2.
  - rewrite IH. split.
    + intros [[k Hk]|(s1 & s2 & ->)]; [by exists [], k|by exists (v :: s1), s2].
    + intros ([|v' s1] & s2 & H); [left; by exists s2|right].
      injection H as -> ->. by exists s1, s2.
Qed.

(** [s.indexOf(n)]; [None] is [-1]. *)
Fixpoint indexOf (n s : jsstr) : option nat :=
  if startsWith n s then Some 0%nat
  else match s with [] => None | _ :: s' => S <$> indexOf n s' end.

Lemma indexOf_Some n s i :
  indexOf n s = Some i → s = take i s ++ n ++ drop (i + length n) s.
Proof.
  revert i. induction s as [|v s IH]; intros i; simpl; destruct (startsWith _ _) eqn:Hp.
  1,3: intros [= <-]; apply startsWith_spec in Hp as [k Hk]; rewrite Hk; simpl;
    by rewrite drop_app_length.
  - done.
  - destruct (indexOf n s) as [j|] eqn:Hj; [|done]. intros [= <-].
    simpl. f_equal. by apply IH.
Qed.

(** The first occurrence. *)
Lemma indexOf_first n s i j :
  indexOf n s = Some i → (j < i)%nat → startsWith n (drop j s) = false.
Proof.
  revert i j. induction s as [|v s IH]; intros i j; simpl; destruct (startsWith _ _) eqn:Hp.
  1,3: intros [= <-]; lia.
  - done.
  - destruct (indexOf n s) as [k|] eqn:Hk; [|done]. intros [= <-] Hj.
    destruct j as [|j]; [done|]. simpl. eapply IH; [done|lia].
Qed.

(** ** Splitting and joining on one code unit *)

Fixpoint split (c : Z) (s : jsstr) : list jsstr :=
  match s with
  | [] => [[]]
  | u :: s =>
      if u =? c then [] :: split c s
      else match split c s with [] => [[u]] | p :: ps => (u :: p) :: ps end
  end.

Fixpoint join (sep : jsstr) (ps : list jsstr) : jsstr :=
  match ps with
  | [] => []
  | [p] => p
  | p :: ps => p ++ sep ++ join sep ps
  end.

Lemma split_nonempty c s : split c s ≠ [].
Proof. destruct s as [|u s]; simpl; [done|]. destruct (u =? c); [done|]. by case_match. Qed.

Lemma join_cons sep p ps : ps ≠ [] → join sep (p :: ps) = p ++ sep ++ join sep ps.
Proof. by destruct ps. Qed.

Lemma join_split c s : join [c] (split c s) = s.
Proof.
  induction s as [|u s IH]; [done|]. cbn [split]. destruct (Z.eqb_spec u c) as [->|].
  - rewrite join_cons by apply split_nonempty. by rewrite IH.
  - pose proof (split_nonempty c s). destruct (split c s) as [|p ps]; [done|].
    rewrite <-IH. by destruct ps.
Qed.

Lemma split_parts c s : Forall (λ p, c ∉ p) (split c s).
Proof.
  induction s as [|u s IH]; simpl; [repeat constructor; set_solver|].
  destruct (Z.eqb_spec u c); [constructor; [set_solver|done]|].
  destruct (split c s); [repeat constructor; set_solver|].
  apply Forall_cons in IH as [? ?]. constructor; [set_solver|done].
Qed.

Lemma split_none c s : c ∉ s → split c s = [s].
Proof.
  induction s as [|u s IH]; [done|]. intros [Hu Hs]%not_elem_of_cons. simpl.
  destruct (Z.eqb_spec u c); [congruence|]. by rewrite IH.
Qed.

Lemma split_app c p s : c ∉ p → split c (p ++ c :: s) = p :: split c s.
Proof.
  induction p as [|u p IH]; simpl; [by rewrite Z.eqb_refl|].
  intros [Hu Hp]%not_elem_of_cons. destruct (Z.eqb_spec u c); [congruence|]. by rewrite IH.
Qed.

Lemma split_join c ps : ps ≠ [] → Forall (λ p, c ∉ p) ps → split c (join [c] ps) = ps.
Proof.
  intros Hne Hps. induction Hps as [|p ps Hp Hps IH]; [done|].
  destruct ps as [|q ps]; [by apply split_none|].
  rewrite join_cons by done. simpl app. rewrite split_app by done. f_equal. by apply IH.
Qed.

(** ** Order *)

(** The order of texts by their code units, as [sort()] without a comparator
    uses it. *)
Fixpoint compare_units (a b : jsstr) : Z :=
  match a, b with
  | [], [] => 0
  | [], _ :: _ => -1
  | _ :: _, [] => 1
  | x :: a, y :: b => if x <? y then -1 else if y <? x then 1 else compare_units a b
  end.

(** ** Lower case *)

(** [String.prototype.toLowerCase] follows the tables of Unicode, which are not
    spelled out: what the searches rely on is that a text is lowered to nothing
    only when it is empty. *)
Class CaseMapping := {
  toLowerCase : jsstr → jsstr;
  toLowerCase_nil s : toLowerCase s = [] ↔ s = [];
}.

(** The mapping on Basic Latin, for examples. *)
Definition lower_unit (u : Z) : Z := if (65 <=? u) && (u <=? 90) then u + 32 else u.

Definition basic_latin : CaseMapping.
Proof. refine {| toLowerCase s := lower_unit <$> s |}. intros s. by destruct s. Defined.

(** ** The decimal text of an integer *)

Fixpoint dec_go (fuel : nat) (z : Z) (acc : jsstr) : jsstr :=
  let acc := (48 + z mod 10) :: acc in
  match fuel with
  | O => acc
  | S fuel => if z <? 10 then acc else dec_go fuel (z / 10) acc
  end.

(** The digits of a non-negative integer; [log2 z] steps of division by ten
    are enough. *)
Definition dec (z : Z) : jsstr := dec_go (Z.to_nat (Z.log2 z)) z [].

(** [String(z)] of an integer below 10^21 in magnitude. *)
Definition Z_to_js (z : Z) : jsstr := if z <? 0 then 45 :: dec (- z) else dec z.

Definition is_digit (u : Z) : bool := (48 <=? u) && (u <=? 57).

(** The integer a digit sequence denotes, continuing from [a]. *)
Definition undec (a : Z) (s : jsstr) : Z := foldl (λ a u, a * 10 + (u - 48)) a s.

Lemma dec_go_spec fuel z acc :
  0 ≤ z < 2 ^ (Z.of_nat fuel + 1) →
  ∃ ds, dec_go fuel z acc = ds ++ acc ∧ undec 0 ds = z ∧ ds ≠ [] ∧
        Forall (λ u, is_digit u = true) ds ∧ (0 < z → hd_error ds ≠ Some 48).
Proof.
  assert (∀ z, 0 ≤ z → is_digit (48 + z mod 10) = true) as Hdig.
  { intros w ?. unfold is_digit. pose proof (Z.mod_pos_bound w 10). bool_to_prop.
    apply andb_true_iff; split; apply Z.leb_le; lia. }
  assert (∀ z, 0 ≤ z < 10 → ∃ ds, (48 + z mod 10) :: acc = ds ++ acc ∧ undec 0 ds = z ∧ ds ≠ [] ∧
    Forall (λ u, is_digit u = true) ds ∧ (0 < z → hd_error ds ≠ Some 48)) as Hone.
  { intros w ?. exists [48 + w mod 10]. rewrite (Z.mod_small w 10) by lia.
    split_and!; [done|unfold undec; simpl; lia|done|..].
    - constructor; [|done]. rewrite <-(Z.mod_small w 10) by lia. apply Hdig. lia.
    - simpl. intros ? [=]. lia. }
  revert z acc Hone. induction fuel as [|fuel IH]; intros z acc Hone Hz; cbn [dec_go].
  { apply Hone. change (Z.of_nat 0 + 1) with 1 in Hz. lia. }
  destruct (Z.ltb_spec z 10); [apply Hone; lia|].
  assert (0 ≤ z / 10 < 2 ^ (Z.of_nat fuel + 1)) as Hdiv.
  { split; [apply Z.div_pos; lia|]. apply Z.div_lt_upper_bound; [lia|].
    replace (Z.of_nat (S fuel) + 1) with (Z.succ (Z.of_nat fuel + 1)) in Hz by lia.
    rewrite Z.pow_succ_r in Hz by lia. lia. }
  destruct (IH (z / 10) ((48 + z mod 10) :: acc)) as (ds & -> & Hval & Hne & Hds & Hhd); [|done|].
  { intros w ?. exists [48 + w mod 10]. rewrite (Z.mod_small w 10) by lia.
    split_and!; [done|unfold undec; simpl; lia|done|..].
    - constructor; [|done]. rewrite <-(Z.mod_small w 10) by lia. apply Hdig. lia.
    - simpl. intros ? [=]. lia. }
  exists (ds ++ [48 + z mod 10]). split_and!.
  - by rewrite <-app_assoc.
  - unfold undec in *. rewrite foldl_app, Hval. simpl.
    pose proof (Z.div_mod z 10). lia.
  - by destruct ds.
  - apply Forall_app. split; [done|]. constructor; [apply Hdig; lia|done].
  - intros _. destruct ds; [done|]. simpl in *. apply Hhd.
    apply Z.div_str_pos. lia.
Qed.

Lemma dec_spec z :
  0 ≤ z → undec 0 (dec z) = z ∧ dec z ≠ [] ∧ Forall (λ u, is_digit u = true) (dec z) ∧
          (0 < z → hd_error (dec z) ≠ Some 48).
Proof.
  intros Hz. destruct (dec_go_spec (Z.to_nat (Z.log2 z)) z []) as (ds & Hds & ?).
  - rewrite Z2Nat.id by apply Z.log2_nonneg. destruct (decide (z = 0)) as [->|]; [done|].
    pose proof (Z.log2_spec z). unfold Z.succ in *. lia.
  - unfold dec. rewrite Hds, app_nil_r. done.
Qed.

Lemma dec_digits z u : 0 ≤ z → u ∈ dec z → 48 ≤ u ≤ 57.
Proof.
  intros Hz Hu. destruct (dec_spec z Hz) as (_ & _ & Hds & _).
  rewrite Forall_forall in Hds. specialize (Hds u Hu). unfold is_digit in Hds. bool_to_prop. lia.
Qed.

Lemma Z_to_js_units z u : u ∈ Z_to_js z → u = 45 ∨ 48 ≤ u ≤ 57.
Proof.
  unfold Z_to_js. destruct (Z.ltb_spec z 0).
  - rewrite elem_of_cons. intros [->|Hu]; [by left|]. right. apply dec_digits in Hu; lia.
  - intros Hu. right. eapply dec_digits; [|done]. lia.
Qed.

Lemma dec_inj z z' : 0 ≤ z → 0 ≤ z' → dec z = dec z' → z = z'.
Proof.
  intros Hz Hz' Heq. destruct (dec_spec z Hz) as [<- _]. destruct (dec_spec z' Hz') as [<- _].
  by rewrite Heq.
Qed.

Lemma Z_to_js_inj z z' : Z_to_js z = Z_to_js z' → z = z'.
Proof.
  unfold Z_to_js. intros Heq.
  assert (∀ w ds, 0 ≤ w → dec w = 45 :: ds → False) as Hneg.
  { intros w ds Hw Hd. assert (45 ∈ dec w) as H45 by (rewrite Hd; set_solver).
    apply dec_digits in H45; lia. }
  destruct (Z.ltb_spec z 0), (Z.ltb_spec z' 0).
  - injection Heq as Heq. apply dec_inj in Heq; lia.
  - symmetry in Heq. apply Hneg in Heq; [done|lia].
  - apply Hneg in Heq; [done|lia].
  - by apply dec_inj in Heq.
Qed.

Example Z_to_js_ex : Z_to_js 1203 = js "1203" ∧ Z_to_js (-7) = js "-7" ∧ Z_to_js 0 = js "0".
Proof. done. Qed.

(** ** Searching in a concatenation *)

Lemma startsWith_app n s t : startsWith n s = true → startsWith n (s ++ t) = true.
Proof. rewrite !startsWith_spec. apply prefix_app_r. Qed.

Lemma startsWith_app_long n s t :
  (length n ≤ length s)%nat → startsWith n (s ++ t) = startsWith n s.
Proof.
  revert s. induction n as [|u n IH]; intros [|v s] Hlen; simpl in *; [done|done|lia|].
  rewrite IH by lia. done.
Qed.

(** A match inside the first part stays the first match. *)
Lemma indexOf_app n s t i : indexOf n s = Some i → indexOf n (s ++ t) = Some i.
Proof.
  revert i. induction s as [|v s IH]; intros i Hi.
  - simpl in Hi. destruct (startsWith n []) eqn:Hs; [|done]. injection Hi as <-.
    destruct n; [|done]. by destruct t.
  - simpl in Hi. destruct (startsWith n (v :: s)) eqn:Hs.
    + injection Hi as <-. simpl. pose proof (startsWith_app _ _ t Hs) as H. simpl in H. by rewrite H.
    + destruct (indexOf n s) as [j|] eqn:Hj; [|done]. injection Hi as <-.
      assert (startsWith n (v :: s ++ t) = false) as Hf.
      { rewrite app_comm_cons, startsWith_app_long; [done|].
        apply indexOf_Some in Hj. apply (f_equal length) in Hj.
        rewrite !length_app, length_take, length_drop in Hj. simpl. lia. }
      simpl. rewrite Hf. by rewrite (IH j).
Qed.

Lemma indexOf_length n s i : indexOf n s = Some i → (i + length n ≤ length s)%nat.
Proof.
  revert i. induction s as [|v s IH]; intros i; simpl; destruct (startsWith _ _) eqn:Hp.
  1,3: intros [= <-]; apply startsWith_spec, prefix_length in Hp; simpl in *; lia.
  - done.
  - destruct (indexOf n s) as [j|]; [|done]. intros [= <-]. specialize (IH j eq_refl). lia.
Qed.

Lemma indexOf_drop_app n s t i :
  indexOf n s = Some i → drop (i + length n) (s ++ t) = drop (i + length n) s ++ t.
Proof. intros Hi%indexOf_length. by rewrite drop_app_le. Qed.

Lemma indexOf_take_app n s t i : indexOf n s = Some i → take i (s ++ t) = take i s.
Proof. intros Hi%indexOf_length. rewrite take_app_le; [done|lia]. Qed.

(** ** Facts: trimming *)

Lemma drop_while_head p s u r : drop_while p s = u :: r → p u = false.
Proof.
  induction s as [|v s IH]; [done|]. simpl. destruct (p v) eqn:Hv; [done|]. by intros [= -> ->].
Qed.

Lemma drop_while_app_all p a s : Forall (λ u, p u = true) a → drop_while p (a ++ s) = drop_while p s.
Proof. induction 1 as [|u a Hu _ IH]; [done|]. simpl. by rewrite Hu. Qed.

(** Trimming text between two units that are no white space. *)
Lemma trim_pad a s b :
  Forall (λ u, is_space u = true) a → Forall (λ u, is_space u = true) b → s ≠ [] →
  (∀ u, hd_error s = Some u ∨ last s = Some u → is_space u = false) →
  trim (a ++ s ++ b) = s.
Proof.
  intros Ha Hb Hne Hs. unfold trim, trimEnd, trimStart. rewrite drop_while_app_all by done.
  destruct s as [|u s]; [done|]. cbn [app]. rewrite drop_while_id by (apply Hs; by left).
  change (u :: s ++ b) with ((u :: s) ++ b). rewrite reverse_app, drop_while_app_all by by apply Forall_reverse.
  destruct (last (u :: s)) as [v|] eqn:Hl; [|by apply last_None in Hl].
  pose proof Hl as [r Hr]%last_Some. rewrite Hr, reverse_snoc, drop_while_id by (apply Hs; by right).
  by rewrite <- reverse_snoc, reverse_involutive.
Qed.

Lemma trim_ends s :
  s ≠ [] → (∀ u, hd_error s = Some u ∨ last s = Some u → is_space u = false) → trim s = s.
Proof.
  intros Hne Hs. rewrite <- (app_nil_r s) at 1. change (s ++ []) with ([] ++ s ++ []).
  by apply trim_pad; try constructor.
Qed.

Lemma trim_solid s : (∀ u, u ∈ s → is_space u = false) → trim s = s.
Proof.
  intros Hs. destruct (decide (s = [])) as [->|]; [done|]. apply trim_ends; [done|].
  intros u [Hu|Hu]; apply Hs; [by destruct s; simplify_eq/=; set_solver|].
  apply last_Some in Hu as [? ->]. set_solver.
Qed.

(** A trimmed text neither begins nor ends with white space. *)
Lemma trim_ends_solid s u : hd_error (trim s) = Some u ∨ last (trim s) = Some u → is_space u = false.
Proof.
  unfold trim, trimEnd, trimStart. set (t := drop_while is_space s).
  destruct (drop_while is_space (reverse t)) as [|v w] eqn:Hw; [by intros [[=]|[=]]|].
  rewrite reverse_cons, last_snoc. intros [Hu|[= <-]]; [|by eapply drop_while_head].
  destruct (drop_while_suffix is_space (reverse t)) as [k Hk]. rewrite Hw in Hk.
  apply (f_equal reverse) in Hk. rewrite reverse_involutive, reverse_app, reverse_cons in Hk.
  destruct (reverse w ++ [v]) as [|x r]; [done|]. injection Hu as ->. by eapply drop_while_head.
Qed.

Lemma trim_idempotent s : trim (trim s) = trim s.
Proof.
  destruct (decide (trim s = [])) as [->|]; [done|]. apply trim_ends; [done|]. apply trim_ends_solid.
Qed.

(** What is before the first separator is determined. *)
Lemma separator_inj (sep : Z) (a b p q : jsstr) : sep ∉ a → sep ∉ b → a ++ sep :: p = b ++ sep :: q → a = b ∧ p = q.
Proof.
  revert b. induction a as [|u a IH]; intros [|v b]; cbn [app]; rewrite ?not_elem_of_cons; intros Ha Hb Heq.
  - by injection Heq as ->.
  - injection Heq as <- _. by destruct Hb as [[] _].
  - injection Heq as -> _. by destruct Ha as [[] _].
  - injection Heq as -> Hrest. destruct Ha as [_ Ha], Hb as [_ Hb], (IH b Ha Hb Hrest) as [-> ->]. done.
Qed.

Lemma undec_nonneg s : Forall (λ u, is_digit u = true) s → 0 ≤ undec 0 s.
Proof.
  intros Hs. unfold undec. assert (∀ a, 0 ≤ a → 0 ≤ foldl (λ a u, a * 10 + (u - 48)) a s) as H; [|by apply H].
  induction Hs as [|u s Hu _ IH]; intros a Ha; cbn [foldl]; [done|]. apply IH. unfold is_digit in Hu. bool_to_prop. lia.
Qed.
