(* ===== verification/NumText.v ===== *)
(** Numbers as text: [String(x)] (the shortest decimal that reads back as
    [x]), the number a decimal literal denotes, [Number(text)] and
    [x.toFixed(d)]. *)
From S2P Require Import Prelude JsNumber JsText.

(** ** Reading decimals *)

(** The number nearest to [m * 10^e]. *)
Definition num_of_decimal (m e : Z) : number :=
  if 0 <=? e then num_of_Z (m * 10 ^ e)
  else match m with
       | Zpos p => num_of_ratio false p (Z.to_pos (10 ^ (- e)))
       | _ => num_zero
       end.

(** The longest prefix of digits. *)
Fixpoint span_digits (s : jsstr) : jsstr * jsstr :=
  match s with
  | u :: s' => if is_digit u then let '(ds, r) := span_digits s' in (u :: ds, r) else ([], s)
  | [] => ([], [])
  end.

(** An optional fraction: its digits and what follows. *)
Definition read_fraction (s : jsstr) : jsstr * jsstr :=
  match s with
  | 46 :: s' => let '(fs, r) := span_digits s' in
                match fs with [] => ([], s) | _ => (fs, r) end
  | _ => ([], s)
  end.

(** An optional exponent: its value and what follows. *)
Definition read_exponent (s : jsstr) : Z * jsstr :=
  match s with
  | u :: s' =>
      if (u =? 101) || (u =? 69) then
        let '(neg, s1) := match s' with
                          | 43 :: r => (false, r) | 45 :: r => (true, r) | _ => (false, s')
                          end in
        match span_digits s1 with
        | ([], _) => (0, s)
        | (ds, r) => ((if neg : bool then - undec 0 ds else undec 0 ds), r)
        end
      else (0, s)
  | [] => (0, s)
  end.

Lemma span_digits_app ds r :
  Forall (λ u, is_digit u = true) ds →
  match r with [] => True | u :: _ => is_digit u = false end →
  span_digits (ds ++ r) = (ds, r).
Proof.
  intros Hds Hr. induction Hds as [|u ds Hu _ IH]; simpl.
  - destruct r as [|u r]; simpl; [done|]. by rewrite Hr.
  - by rewrite Hu, IH.
Qed.

Lemma span_digits_spec s ds r :
  span_digits s = (ds, r) → s = ds ++ r ∧ Forall (λ u, is_digit u = true) ds.
Proof.
  revert ds r. induction s as [|u s IH]; intros ds r; simpl; [by intros [= <- <-]|].
  destruct (is_digit u) eqn:Hu; [|by intros [= <- <-]].
  destruct (span_digits s) as [ds' r']. intros [= <- <-].
  destruct (IH _ _ eq_refl) as [-> ?]. split; [done|by constructor].
Qed.

(** ** [String(x)] *)

(** [floor(a * 10^e)] of the ratio [p / q]. *)
Definition scale_floor (p q e : Z) : Z :=
  if 0 <=? e then p * 10 ^ e / q else p / (q * 10 ^ (- e)).

(** The least [j] below the fuel with [p * 10^j >= q]. *)
Fixpoint lead_zeros (fuel : nat) (j p q : Z) : Z :=
  match fuel with
  | O => j
  | S fuel => if q <=? p then j else lead_zeros fuel (j + 1) (p * 10) q
  end.

(** [n] with [10^(n-1) <= p/q < 10^n]. *)
Definition decimal_exponent (p q : Z) : Z :=
  if q <=? p then Z.of_nat (length (dec (p / q))) else 1 - lead_zeros 330 0 p q.

(** The digits [s] and exponent [n] with fewest digits that read back as [x];
    seventeen digits always do. *)
Fixpoint shortest (fuel : nat) (k : Z) (x : number) (p q n : Z) : Z * Z * Z :=
  let f := scale_floor p q (k - n) in
  let reads s := bool_decide (num_of_decimal s (n - k) = x) in
  let up := if f + 1 =? 10 ^ k then (10 ^ (k - 1), k, n + 1) else (f + 1, k, n) in
  (* twice the distance from the lower candidate compared with one unit *)
  let nearer_low := scale_floor (2 * p) q (k - n) - 2 * f =? 0 in
  if reads f && (nearer_low || negb (reads (f + 1))) then (f, k, n)
  else if reads (f + 1) then up
  else match fuel with O => (f, k, n) | S fuel => shortest fuel (k + 1) x p q n end.

Definition zeros (n : Z) : jsstr := replicate (Z.to_nat n) 48.

(** Number::toString of the digits [s] ([k] of them) and exponent [n]. *)
Definition layout (s k n : Z) : jsstr :=
  let d := dec s in
  if (k <=? n) && (n <=? 21) then d ++ zeros (n - k)
  else if (0 <? n) && (n <=? 21) then take (Z.to_nat n) d ++ 46 :: drop (Z.to_nat n) d
  else if (-6 <? n) && (n <=? 0) then 48 :: 46 :: zeros (- n) ++ d
  else let e := n - 1 in
       let exp := 101 :: (if e <? 0 then 45 else 43) :: dec (Z.abs e) in
       if k =? 1 then d ++ exp else take 1 d ++ 46 :: drop 1 d ++ exp.

Definition num_to_js (x : number) : jsstr :=
  match x with
  | S754_nan => js "NaN"
  | S754_infinity s => if s then js "-Infinity" else js "Infinity"
  | S754_zero _ => js "0"
  | S754_finite s m e =>
      match num_to_Z x with
      | Some z => if Z.abs z <? 2 ^ 53 then Z_to_js z
                  else let '(d, k, n) := shortest 17 1 (S754_finite false m e) (Z.abs z) 1
                                           (decimal_exponent (Z.abs z) 1) in
                       (if s then [45] else []) ++ layout d k n
      | None => let q := 2 ^ (- e) in
                let '(d, k, n) := shortest 17 1 (S754_finite false m e) (Zpos m) q
                                    (decimal_exponent (Zpos m) q) in
                (if s then [45] else []) ++ layout d k n
      end
  end.

Lemma num_to_js_Z z : Z.abs z < 2 ^ 53 → num_to_js (num_of_Z z) = Z_to_js z.
Proof.
  intros Hz. pose proof (num_to_Z_of_Z z Hz) as H.
  destruct (num_of_Z z) as [s|s| |s m e] eqn:Hn; try done.
  - simpl in H. injection H as <-. done.
  - unfold num_to_js. rewrite H. by rewrite (proj2 (Z.ltb_lt _ _)).
Qed.

Example num_to_js_examples :
  let d := num_of_decimal in
  map num_to_js [d 1 (-1); d 5 (-1); d 123456 (-3); d 1 21; d 1 23; d 15 (-8); d 5 (-324); d 1 17;
                 num_div (num_of_Z 1) (num_of_Z 3); SFopp (d 25 (-1)); d 17976931348623157 292]
  = map js ["0.1"; "0.5"; "123.456"; "1e+21"; "1e+23"; "1.5e-7"; "5e-324"; "100000000000000000";
            "0.3333333333333333"; "-2.5"; "1.7976931348623157e+308"]%string.
Proof. vm_compute. done. Qed.

(** ** [Number(text)] of a trimmed non-empty text: decimal literals and
    [Infinity]; the [0x], [0o] and [0b] forms *)

Definition read_decimal (s : jsstr) : option number :=
  let '(ds, r1) := span_digits s in
  let '(fs, r2) := match r1 with
                   | 46 :: r => match ds, span_digits r with
                                | [], ([], _) => ([], r1)
                                | _, (fs, r2) => (fs, r2)
                                end
                   | _ => ([], r1)
                   end in
  match ds ++ fs with
  | [] => None
  | ms => let '(e, r3) := read_exponent r2 in
          match r3 with
          | [] => Some (num_of_decimal (undec 0 ms) (e - Z.of_nat (length fs)))
          | _ => None
          end
  end.

Definition digit_value (u : Z) : Z :=
  if is_digit u then u - 48
  else if (97 <=? u) && (u <=? 102) then u - 87
  else if (65 <=? u) && (u <=? 70) then u - 55
  else 16.

Definition read_radix (b : Z) (s : jsstr) : number :=
  match s with
  | [] => S754_nan
  | _ => if forallb (λ u, digit_value u <? b) s
         then num_of_Z (foldl (λ a u, a * b + digit_value u) 0 s) else S754_nan
  end.

Definition Number (text : jsstr) : number :=
  let s := trim text in
  match s with
  | [] => num_zero
  | 48 :: u :: r =>
      if bool_decide (u ∈ [120; 88]) then read_radix 16 r
      else if bool_decide (u ∈ [111; 79]) then read_radix 8 r
      else if bool_decide (u ∈ [98; 66]) then read_radix 2 r
      else read_decimal s ?? S754_nan
  | _ =>
      let '(neg, body) := match s with
                          | 43 :: r => (false, r) | 45 :: r => (true, r) | _ => (false, s)
                          end in
      let v := if bool_decide (body = js "Infinity") then POSITIVE_INFINITY
               else read_decimal body ?? S754_nan in
      if neg : bool then SFopp v else v
  end.

Example Number_examples :
  map (num_to_js ∘ Number ∘ js)
      [" 12 "; "1.5e3"; ".5"; "5."; "0x1F"; "-Infinity"; "1e"; "abc"; "1 2"; "."]%string
  = map js ["12"; "1500"; "0.5"; "5"; "31"; "-Infinity"; "NaN"; "NaN"; "NaN"; "NaN"]%string.
Proof. vm_compute. done. Qed.

(** The digits of a safe integer read back as that integer. *)
Lemma read_decimal_digits ds :
  ds ≠ [] → Forall (λ u, is_digit u = true) ds →
  read_decimal ds = Some (num_of_Z (undec 0 ds)).
Proof.
  intros Hne Hds. unfold read_decimal.
  pose proof (span_digits_app ds [] Hds I) as Hspan. rewrite app_nil_r in Hspan.
  rewrite Hspan. rewrite app_nil_r. destruct ds as [|u ds]; [done|].
  simpl read_exponent. unfold num_of_decimal. simpl. by rewrite Z.mul_1_r.
Qed.

Lemma is_digit_cases u :
  is_digit u = true → u = 48 ∨ u = 49 ∨ u = 50 ∨ u = 51 ∨ u = 52 ∨ u = 53 ∨ u = 54 ∨ u = 55 ∨ u = 56 ∨ u = 57.
Proof. unfold is_digit. intros H. bool_to_prop. lia. Qed.

Lemma digits_solid ds : Forall (λ u, is_digit u = true) ds → trim ds = ds.
Proof.
  intros Hds. apply trim_solid. intros u Hu. rewrite Forall_forall in Hds.
  by destruct (is_digit_cases u (Hds u Hu)) as [->|[->|[->|[->|[->|[->|[->|[->|[->| ->]]]]]]]]].
Qed.

Lemma Number_digits ds :
  ds ≠ [] → Forall (λ u, is_digit u = true) ds → Number ds = num_of_Z (undec 0 ds).
Proof.
  intros Hne Hds. unfold Number. rewrite digits_solid by done.
  pose proof (read_decimal_digits ds Hne Hds) as Hread. rewrite Forall_forall in Hds.
  destruct ds as [|u ds]; [done|].
  destruct (is_digit_cases u (Hds u ltac:(set_solver))) as [->|[->|[->|[->|[->|[->|[->|[->|[->| ->]]]]]]]]]; cycle 1.
  1-9: cbv beta iota zeta; rewrite bool_decide_false by (intros H%(f_equal head); vm_compute in H; discriminate); by rewrite Hread.
  destruct ds as [|v ds]; [done|]. rewrite !bool_decide_false, Hread; [done|..].
  all: destruct (is_digit_cases v (Hds v ltac:(set_solver))) as [->|[->|[->|[->|[->|[->|[->|[->|[->| ->]]]]]]]]]; set_solver.
Qed.

(** The text of an integer denotes it. *)
Lemma Number_Z n : 0 ≤ n → Number (Z_to_js n) = num_of_Z n.
Proof.
  intros Hn. unfold Z_to_js. destruct (Z.ltb_spec n 0); [lia|].
  destruct (dec_spec n Hn) as (Hv & Hne & Hds & _). by rewrite Number_digits, Hv.
Qed.

(** ** [x.toFixed(d)] for a finite non-negative [x] below 10^21 *)

(** [n / 10^d] nearest to [p / q], the larger on ties. *)
Definition to_fixed_int (d p q : Z) : Z := (2 * p * 10 ^ d + q) / (2 * q).

Definition ratio_of (x : number) : Z * Z :=
  match x with
  | S754_finite _ m e => if 0 <=? e then (Zpos m * 2 ^ e, 1) else (Zpos m, 2 ^ (- e))
  | _ => (0, 1)
  end.

Definition toFixed (d : nat) (x : number) : jsstr :=
  let '(p, q) := ratio_of x in
  let n := dec (to_fixed_int (Z.of_nat d) p q) in
  let n := replicate (S d - length n) 48 ++ n in
  match d with
  | O => n
  | _ => take (length n - d) n ++ 46 :: drop (length n - d) n
  end.

(** [Math.round] and [Math.floor] of a finite non-negative number, as integers. *)
Definition num_round (x : number) : Z := let '(p, q) := ratio_of x in (2 * p + q) / (2 * q).
Definition num_floor (x : number) : Z := let '(p, q) := ratio_of x in p / q.

Example toFixed_examples :
  (toFixed 1 (num_of_decimal 15 (-1)), toFixed 2 (num_of_decimal 1005 (-3)), toFixed 1 (num_of_Z 9),
   toFixed 0 (num_of_decimal 25 (-1)), toFixed 2 num_zero)
  = (js "1.5", js "1.00", js "9.0", js "3", js "0.00").
Proof. vm_compute. done. Qed.
