(* ===== verification/Json.v ===== *)
(** JSON values with [JSON.parse] and [JSON.stringify] of the language, and
    the round trip between them on the values the console stores and sends. *)
From S2P Require Import Prelude JsNumber JsText NumText.

Inductive json :=
  | JNull
  | JBool (b : bool)
  | JNum (n : number)
  | JStr (s : jsstr)
  | JArr (l : list json)
  | JObj (l : list (jsstr * json)).

(** Induction with the hypothesis for every element of an array or object. *)
Section json_ind.
Context (P : json → Prop).
Hypothesis Pnull : P JNull.
Hypothesis Pbool : ∀ b, P (JBool b).
Hypothesis Pnum : ∀ n, P (JNum n).
Hypothesis Pstr : ∀ s, P (JStr s).
Hypothesis Parr : ∀ l, Forall P l → P (JArr l).
Hypothesis Pobj : ∀ l, Forall (λ kv, P kv.2) l → P (JObj l).

Fixpoint json_nested_ind (v : json) : P v :=
  match v with
  | JNull => Pnull | JBool b => Pbool b | JNum n => Pnum n | JStr s => Pstr s
  | JArr l => Parr l ((fix go l : Forall P l :=
      match l with [] => Forall_nil_2 _ | x :: l => Forall_cons_2 _ _ _ (json_nested_ind x) (go l) end) l)
  | JObj l => Pobj l ((fix go l : Forall (λ kv, P kv.2) l :=
      match l with [] => Forall_nil_2 _ | kv :: l => Forall_cons_2 _ _ _ (json_nested_ind kv.2) (go l) end) l)
  end.
End json_ind.

(** ** Objects: properties in insertion order *)

Definition obj_get (k : jsstr) (l : list (jsstr * json)) : option json :=
  snd <$> js_find (λ kv, bool_decide (kv.1 = k)) l.

(** Assigning an existing property keeps its place. *)
Fixpoint obj_set (k : jsstr) (v : json) (l : list (jsstr * json)) : list (jsstr * json) :=
  match l with
  | [] => [(k, v)]
  | (k', v') :: l => if bool_decide (k' = k) then (k, v) :: l else (k', v') :: obj_set k v l
  end.

(** [v.k], [undefined] ([None]) when it is not an own property. *)
Definition get (k : string) (v : json) : option json :=
  match v with JObj l => obj_get (js k) l | _ => None end.

Lemma obj_get_set k v l : obj_get k (obj_set k v l) = Some v.
Proof.
  unfold obj_get, js_find. induction l as [|[k' v'] l IH]; simpl.
  - by rewrite bool_decide_true.
  - case_bool_decide; simpl; [by rewrite bool_decide_true|]. by rewrite bool_decide_false.
Qed.

Lemma obj_get_set_ne k k' v l : k ≠ k' → obj_get k' (obj_set k v l) = obj_get k' l.
Proof.
  intros Hne. unfold obj_get, js_find. induction l as [|[k'' v'] l IH]; simpl.
  - by rewrite bool_decide_false.
  - case_bool_decide as H; simpl; [|by case_bool_decide].
    by rewrite (bool_decide_false (k = k')), bool_decide_false by congruence.
Qed.

Lemma obj_set_fresh k v l : k ∉ l.*1 → obj_set k v l = l ++ [(k, v)].
Proof.
  induction l as [|[k' v'] l IH]; simpl; [done|]. intros [Hk Hl]%not_elem_of_cons.
  rewrite bool_decide_false by done. by rewrite IH.
Qed.

(** ** [JSON.stringify] *)

Definition hex_digit (d : Z) : Z := if d <? 10 then 48 + d else 87 + d.

(** [\uXXXX] in lower case. *)
Definition unicode_escape (u : Z) : jsstr :=
  [92; 117; hex_digit (u / 4096 mod 16); hex_digit (u / 256 mod 16);
   hex_digit (u / 16 mod 16); hex_digit (u mod 16)].

Definition quote_unit (u : Z) : jsstr :=
  if u =? 34 then [92; 34]
  else if u =? 92 then [92; 92]
  else if u =? 8 then [92; 98]
  else if u =? 12 then [92; 102]
  else if u =? 10 then [92; 110]
  else if u =? 13 then [92; 114]
  else if u =? 9 then [92; 116]
  else if u <? 32 then unicode_escape u
  else [u].

(** The body of a quoted string: a surrogate without its pair is escaped. *)
Fixpoint quote_body (s : jsstr) : jsstr :=
  match s with
  | [] => []
  | u :: s =>
      if is_lead u then
        match s with
        | v :: s' => if is_trail v then u :: v :: quote_body s' else unicode_escape u ++ quote_body s
        | [] => unicode_escape u
        end
      else if is_trail u then unicode_escape u ++ quote_body s
      else quote_unit u ++ quote_body s
  end.

Definition quote (s : jsstr) : jsstr := 34 :: quote_body s ++ [34].

Fixpoint stringify (v : json) : jsstr :=
  match v with
  | JNull => js "null"
  | JBool b => if b then js "true" else js "false"
  | JNum n => if isFinite n then num_to_js n else js "null"
  | JStr s => quote s
  | JArr l => 91 :: join [44] (map stringify l) ++ [93]
  | JObj l => 123 :: join [44] (map (λ kv, quote kv.1 ++ 58 :: stringify kv.2) l) ++ [125]
  end.

(** [JSON.stringify(v, null, gap)]: with a gap, every element and member is on
    a line of its own, indented by the gaps of its level; without one the text
    is that of [stringify]. *)
Definition new_line (gap indent : jsstr) : jsstr := if bool_decide (gap = []) then [] else 10 :: indent.
Definition colon (gap : jsstr) : jsstr := if bool_decide (gap = []) then [58] else [58; 32].

Definition bracketed (open close : Z) (line last_line : jsstr) (parts : list jsstr) : jsstr :=
  match parts with
  | [] => [open; close]
  | _ => open :: line ++ join (44 :: line) parts ++ last_line ++ [close]
  end.

Fixpoint print (gap indent : jsstr) (v : json) : jsstr :=
  let inner := indent ++ gap in
  match v with
  | JNull => js "null"
  | JBool b => if b then js "true" else js "false"
  | JNum n => if isFinite n then num_to_js n else js "null"
  | JStr s => quote s
  | JArr l => bracketed 91 93 (new_line gap inner) (new_line gap indent) (map (print gap inner) l)
  | JObj l => bracketed 123 125 (new_line gap inner) (new_line gap indent)
                (map (λ kv, quote kv.1 ++ colon gap ++ print gap inner kv.2) l)
  end.

Example print_example :
  print (js "  ") [] (JObj [(js "a", JArr [JNum (num_of_Z 1); JArr []]); (js "b", JObj [(js "c", JNull)])]) =
  map (λ u, if u =? 39 then 34 else if u =? 33 then 10 else u) (js "{!  'a': [!    1,!    []!  ],!  'b': {!    'c': null!  }!}").
Proof. vm_compute. reflexivity. Qed.

(** ** [JSON.parse]; [None] is a thrown [SyntaxError] *)

Definition is_json_space (u : Z) : bool := bool_decide (u ∈ [9; 10; 13; 32]).
Definition skip_space : jsstr → jsstr := drop_while is_json_space.

Definition unhex (a b c d : Z) : option Z :=
  if forallb (λ u, digit_value u <? 16) [a; b; c; d]
  then Some (foldl (λ z u, z * 16 + digit_value u) 0 [a; b; c; d]) else None.

Definition unescape (c : Z) : option Z :=
  if c =? 34 then Some 34 else if c =? 92 then Some 92 else if c =? 47 then Some 47
  else if c =? 98 then Some 8 else if c =? 102 then Some 12 else if c =? 110 then Some 10
  else if c =? 114 then Some 13 else if c =? 116 then Some 9 else None.

(** The rest of a string after its opening quote. *)
Fixpoint parse_string (s : jsstr) : option (jsstr * jsstr) :=
  match s with
  | [] => None
  | u :: s =>
      if u =? 34 then Some ([], s)
      else if u =? 92 then
        match s with
        | [] => None
        | c :: s' =>
            if c =? 117 then
              match s' with
              | a :: b :: c :: d :: s'' =>
                  match unhex a b c d, parse_string s'' with
                  | Some w, Some (t, r) => Some (w :: t, r)
                  | _, _ => None
                  end
              | _ => None
              end
            else match unescape c, parse_string s' with
                 | Some w, Some (t, r) => Some (w :: t, r)
                 | _, _ => None
                 end
        end
      else if u <? 32 then None
      else match parse_string s with Some (t, r) => Some (u :: t, r) | None => None end
  end.

(** A second digit after a leading zero. *)
Definition leading_zero (ds : jsstr) : bool :=
  match ds with d :: _ :: _ => d =? 48 | _ => false end.

Definition parse_number (s : jsstr) : option (number * jsstr) :=
  let neg := match s with u :: _ => u =? 45 | [] => false end in
  let '(ds, r1) := span_digits (if neg then drop 1 s else s) in
  if bool_decide (ds = []) || leading_zero ds then None
  else let '(fs, r2) := read_fraction r1 in
       let '(e, r3) := read_exponent r2 in
       let v := num_of_decimal (undec 0 (ds ++ fs)) (e - Z.of_nat (length fs)) in
       Some (if neg then SFopp v else v, r3).

Definition parse_word (w : string) (v : json) (s : jsstr) : option (json * jsstr) :=
  if startsWith (js w) s then Some (v, drop (String.length w) s) else None.

Section parser.
Context (value : jsstr → option (json * jsstr)).

(** Elements after the first [\[]; at least one is present. *)
Fixpoint parse_elements (fuel : nat) (s : jsstr) : option (list json * jsstr) :=
  match fuel with
  | O => None
  | S fuel =>
      match value s with
      | Some (v, r) =>
          match skip_space r with
          | 44 :: r' => match parse_elements fuel r' with
                        | Some (vs, r'') => Some (v :: vs, r'') | None => None end
          | 93 :: r' => Some ([v], r')
          | _ => None
          end
      | None => None
      end
  end.

Definition parse_member (s : jsstr) : option ((jsstr * json) * jsstr) :=
  match skip_space s with
  | 34 :: s' =>
      match parse_string s' with
      | Some (k, r) =>
          match skip_space r with
          | 58 :: r' => match value r' with
                        | Some (v, r'') => Some ((k, v), r'') | None => None end
          | _ => None
          end
      | None => None
      end
  | _ => None
  end.

Fixpoint parse_members (fuel : nat) (acc : list (jsstr * json)) (s : jsstr)
    : option (list (jsstr * json) * jsstr) :=
  match fuel with
  | O => None
  | S fuel =>
      match parse_member s with
      | Some ((k, v), r) =>
          match skip_space r with
          | 44 :: r' => parse_members fuel (obj_set k v acc) r'
          | 125 :: r' => Some (obj_set k v acc, r')
          | _ => None
          end
      | None => None
      end
  end.
End parser.

(** Each nested value consumes at least one code unit, so the length of the
    text is enough fuel. *)
Fixpoint parse_value (fuel : nat) (s : jsstr) : option (json * jsstr) :=
  match fuel with
  | O => None
  | S fuel =>
      match skip_space s with
      | [] => None
      | u :: r =>
          if u =? 34 then match parse_string r with
                          | Some (t, r) => Some (JStr t, r) | None => None end
          else if u =? 91 then
            match skip_space r with
            | 93 :: r' => Some (JArr [], r')
            | _ => match parse_elements (parse_value fuel) fuel r with
                   | Some (vs, r') => Some (JArr vs, r') | None => None end
            end
          else if u =? 123 then
            match skip_space r with
            | 125 :: r' => Some (JObj [], r')
            | _ => match parse_members (parse_value fuel) fuel [] r with
                   | Some (ms, r') => Some (JObj ms, r') | None => None end
            end
          else if u =? 110 then parse_word "null" JNull (u :: r)
          else if u =? 116 then parse_word "true" (JBool true) (u :: r)
          else if u =? 102 then parse_word "false" (JBool false) (u :: r)
          else match parse_number (u :: r) with
               | Some (n, r) => Some (JNum n, r) | None => None end
      end
  end.

Definition parse (s : jsstr) : option json :=
  match parse_value (S (length s)) s with
  | Some (v, r) => match skip_space r with [] => Some v | _ => None end
  | None => None
  end.

Example parse_examples :
  parse (js "{'a': [1, -2.5e1, true], 'b': {'c': null}, 'a': 'x\u0041\n'}"%string) = None ∧
  parse (map (λ u, if u =? 39 then 34 else u) (js " {'a': [1, -2.5e1 ,true], 'b' :{'c': null}, 'a': 'x\u0041\n'} ")) =
  Some (JObj [(js "a", JStr (js "xA" ++ [10])); (js "b", JObj [(js "c", JNull)])]) ∧
  parse (js "[1,]") = None ∧ parse (js "[]x") = None ∧ parse (js "01") = None.
Proof. vm_compute. done. Qed.

(** ** Round trip *)

(** Strings of code units. *)
Definition wf_str (s : jsstr) : Prop := Forall (λ u, 0 ≤ u < 65536) s.

(** Values whose numbers are safe integers and whose objects have distinct
    keys: what the console itself serialises. *)
Inductive plain : json → Prop :=
  | plain_null : plain JNull
  | plain_bool b : plain (JBool b)
  | plain_int z : Z.abs z < 2 ^ 53 → plain (JNum (num_of_Z z))
  | plain_str s : wf_str s → plain (JStr s)
  | plain_arr l : Forall plain l → plain (JArr l)
  | plain_obj l : NoDup l.*1 → Forall (λ kv, wf_str kv.1 ∧ plain kv.2) l → plain (JObj l).

#[export] Hint Constructors plain : console.

Lemma digit_value_hex d : 0 ≤ d < 16 → digit_value (hex_digit d) = d.
Proof.
  intros Hd. unfold digit_value, hex_digit, is_digit.
  repeat match goal with
  | |- context [?a <? ?b] => destruct (Z.ltb_spec a b)
  | |- context [?a <=? ?b] => destruct (Z.leb_spec a b)
  end; simpl; lia.
Qed.

Lemma unhex_escape u :
  0 ≤ u < 65536 →
  unhex (hex_digit (u / 4096 mod 16)) (hex_digit (u / 256 mod 16))
        (hex_digit (u / 16 mod 16)) (hex_digit (u mod 16)) = Some u.
Proof.
  intros Hu. unfold unhex. simpl. rewrite !digit_value_hex by (apply Z.mod_pos_bound; lia).
  rewrite !(proj2 (Z.ltb_lt _ _)) by (apply Z.mod_pos_bound; lia). simpl. f_equal.
  Z.to_euclidean_division_equations. lia.
Qed.

Lemma parse_unicode u s :
  0 ≤ u < 65536 →
  parse_string (unicode_escape u ++ s) =
  match parse_string s with Some (t, r) => Some (u :: t, r) | None => None end.
Proof.
  intros Hu. unfold unicode_escape. cbn [app parse_string]. simpl.
  rewrite unhex_escape by done. done.
Qed.

Lemma parse_raw u s :
  32 ≤ u → u ≠ 34 → u ≠ 92 →
  parse_string (u :: s) =
  match parse_string s with Some (t, r) => Some (u :: t, r) | None => None end.
Proof.
  intros ? ? ?. cbn [parse_string]. rewrite !(proj2 (Z.eqb_neq _ _)) by done.
  by rewrite (proj2 (Z.ltb_ge _ _)).
Qed.

Lemma parse_quote_unit u s :
  0 ≤ u < 65536 →
  parse_string (quote_unit u ++ s) =
  match parse_string s with Some (t, r) => Some (u :: t, r) | None => None end.
Proof.
  intros Hu. unfold quote_unit.
  repeat match goal with
  | |- context [?a =? ?b] => destruct (Z.eqb_spec a b); [subst; done|]
  end.
  destruct (Z.ltb_spec u 32); [by apply parse_unicode|]. by apply parse_raw.
Qed.

Lemma parse_string_quote s r :
  wf_str s → parse_string (quote_body s ++ 34 :: r) = Some (s, r).
Proof.
  revert r. induction s as [s IH] using (induction_ltof1 _ length). unfold ltof in IH.
  intros r Hs. destruct s as [|u s]; [done|]. apply Forall_cons in Hs as [Hu Hs].
  cbn [quote_body]. destruct (is_lead u) eqn:Hlead.
  - destruct s as [|v s]; [by rewrite parse_unicode|].
    destruct (is_trail v) eqn:Htrail.
    + apply Forall_cons in Hs as [Hv Hs]. unfold is_lead, is_trail in *. bool_to_prop.
      simpl app. rewrite !parse_raw by lia. rewrite IH by (simpl; done || lia). done.
    + rewrite <-app_assoc, parse_unicode, IH by (simpl; done || lia). done.
  - destruct (is_trail u); rewrite <-app_assoc.
    + rewrite parse_unicode, IH by (simpl; done || lia). done.
    + rewrite parse_quote_unit, IH by (simpl; done || lia). done.
Qed.

(** What may follow a value inside a text. *)
Definition stops (r : jsstr) : Prop :=
  match r with [] => True | u :: _ => u = 44 ∨ u = 93 ∨ u = 125 ∨ u = 10 end.

Lemma SFopp_round m : SFopp (binary_round 53 1024 false m 0) = binary_round 53 1024 true m 0.
Proof.
  unfold binary_round. case_match. unfold binary_round_aux. repeat case_match; done.
Qed.

Lemma parse_number_dec z r :
  0 ≤ z → stops r → parse_number (dec z ++ r) = Some (num_of_Z z, r) ∧
                    parse_number (45 :: dec z ++ r) = Some (SFopp (num_of_Z z), r).
Proof.
  intros Hz Hr. destruct (dec_spec z Hz) as (Hval & Hne & Hds & Hhd).
  assert (span_digits (dec z ++ r) = (dec z, r)) as Hspan.
  { apply span_digits_app; [done|]. destruct r as [|u r]; [done|].
    destruct Hr as [->|[->|[->| ->]]]; done. }
  assert (leading_zero (dec z) = false) as Hlead.
  { destruct (decide (z = 0)) as [->|]; [done|]. destruct (dec z) as [|d [|e ds]]; [done..|].
    simpl in *. apply Z.eqb_neq. intros ->. apply Hhd; [lia|done]. }
  assert (read_fraction r = ([], r) ∧ read_exponent r = (0, r)) as [Hf He].
  { destruct r as [|u r]; [done|]. destruct Hr as [->|[->|[->| ->]]]; done. }
  assert (num_of_decimal (undec 0 (dec z ++ [])) (0 - Z.of_nat 0) = num_of_Z z) as Hnum.
  { rewrite app_nil_r, Hval. unfold num_of_decimal. simpl. by rewrite Z.mul_1_r. }
  assert (match dec z ++ r with u :: _ => u =? 45 | [] => false end = false) as Hneg.
  { clear Hhd Hval Hspan Hlead Hnum. destruct (dec z) as [|d ds]; [done|].
    apply Forall_cons in Hds as [Hdig _]. unfold is_digit in Hdig. bool_to_prop.
    simpl. apply Z.eqb_neq. lia. }
  unfold parse_number. rewrite Hneg. cbn [drop]. rewrite Z.eqb_refl.
  split; rewrite ?drop_0, Hspan, Hlead, (bool_decide_false (dec z = [])) by done;
    cbn [orb]; rewrite Hf, He; cbn [length]; by rewrite Hnum.
Qed.

Lemma skip_space_head u s : is_json_space u = false → skip_space (u :: s) = u :: s.
Proof. apply drop_while_id. Qed.

Lemma parse_value_int fuel z r :
  Z.abs z < 2 ^ 53 → stops r →
  parse_value (S fuel) (Z_to_js z ++ r) = Some (JNum (num_of_Z z), r).
Proof.
  intros Hz Hr. unfold Z_to_js. destruct (Z.ltb_spec z 0).
  - cbn [parse_value app]. rewrite skip_space_head by done. cbn [Z.eqb Pos.eqb].
    destruct (parse_number_dec (- z) r) as [_ ->]; [lia|done|].
    destruct z as [|m|m]; [lia..|]. simpl. by rewrite SFopp_round.
  - destruct (dec_spec z) as (_ & Hne & Hds & _); [lia|].
    destruct (parse_number_dec z r) as [Hp _]; [lia|done|].
    destruct (dec z) as [|d ds]; [done|]. apply Forall_cons in Hds as [Hd _].
    unfold is_digit in Hd. bool_to_prop. cbn [parse_value app].
    rewrite skip_space_head by (apply bool_decide_false; set_unfold; lia).
    rewrite !(proj2 (Z.eqb_neq _ _)) by lia. simpl app in Hp. by rewrite Hp.
Qed.

(** Space between the parts of a text. *)
Definition spaces (s : jsstr) : Prop := Forall (λ u, is_json_space u = true) s.

Lemma skip_spaces g s : spaces g → skip_space (g ++ s) = skip_space s.
Proof. induction 1 as [|u g Hu _ IH]; [done|]. unfold skip_space in *. cbn [app drop_while]. by rewrite Hu. Qed.

(** A line break, if any, before the next part. *)
Definition line (g : jsstr) : Prop := g = [] ∨ ∃ t, g = 10 :: t ∧ spaces t.

Lemma line_spaces g : line g → spaces g.
Proof. intros [->|(t & -> & Ht)]; [constructor|]. by constructor. Qed.

Lemma line_stops g u r : line g → u = 44 ∨ u = 93 ∨ u = 125 → stops (g ++ u :: r).
Proof. intros [->|(t & -> & _)] Hu; cbn; tauto. Qed.

Lemma new_line_line gap indent : spaces indent → line (new_line gap indent).
Proof. intros Hi. unfold new_line. case_bool_decide; [by left|right; by eexists]. Qed.

Section elements.
Context (value : jsstr → option (json * jsstr)) (text : json → jsstr).
Hypothesis value_skips : ∀ g s, spaces g → value (g ++ s) = value s.

Definition reads_back (v : json) : Prop :=
  ∀ r, stops r → value (text v ++ r) = Some (v, r).

Section lines.
Context (gap_line last_line : jsstr) (Hgap : line gap_line) (Hlast : line last_line).

Lemma parse_elements_ok fuel v vs r :
  (length vs < fuel)%nat → Forall reads_back (v :: vs) →
  parse_elements value fuel (gap_line ++ join (44 :: gap_line) (map text (v :: vs)) ++ last_line ++ 93 :: r)
  = Some (v :: vs, r).
Proof.
  revert v fuel. induction vs as [|v' vs IH]; intros v fuel Hfuel [Hv Hvs]%Forall_cons.
  all: destruct fuel as [|fuel]; [simpl in Hfuel; lia|]; cbn [parse_elements map].
  all: rewrite value_skips by (by apply line_spaces).
  - cbn [join]. rewrite Hv by (apply line_stops; auto). rewrite skip_spaces by (by apply line_spaces). done.
  - rewrite join_cons by done. rewrite <-!app_assoc, Hv by (simpl; auto). simpl app.
    rewrite skip_space_head by done. cbn beta iota zeta.
    rewrite (IH v') by (simpl in *; lia || done). done.
Qed.

Context (after_key : jsstr) (Hkey : ∃ g, after_key = 58 :: g ∧ spaces g).

Definition member_line (kv : jsstr * json) : jsstr := quote kv.1 ++ after_key ++ text kv.2.

Lemma parse_member_ok g k v r : spaces g → wf_str k → reads_back v → stops r →
  parse_member value (g ++ member_line (k, v) ++ r) = Some ((k, v), r).
Proof.
  intros Hg Hk Hv Hr. unfold parse_member, member_line, quote. rewrite skip_spaces by done. simpl app.
  rewrite skip_space_head by done. cbn beta iota. rewrite <-!app_assoc. simpl app. rewrite parse_string_quote by done.
  destruct Hkey as (g' & -> & Hg'). simpl app. rewrite skip_space_head by done. cbn beta iota. by rewrite value_skips, Hv.
Qed.

Lemma parse_members_ok fuel acc kv kvs r :
  (length kvs < fuel)%nat →
  Forall (λ kv, wf_str kv.1 ∧ reads_back kv.2) (kv :: kvs) →
  NoDup (acc ++ kv :: kvs).*1 →
  parse_members value fuel acc (gap_line ++ join (44 :: gap_line) (map member_line (kv :: kvs)) ++ last_line ++ 125 :: r)
  = Some (acc ++ kv :: kvs, r).
Proof.
  revert kv fuel acc. induction kvs as [|kv' kvs IH];
    intros [k v] fuel acc Hfuel [[Hk Hv] Hvs]%Forall_cons Hnd; simpl in Hk, Hv.
  all: destruct fuel as [|fuel]; [simpl in Hfuel; lia|].
  all: assert (k ∉ acc.*1) as Hfresh
    by (rewrite fmap_app in Hnd; apply NoDup_app in Hnd as (_ & Hnd & _);
        intros Hin; apply (Hnd _ Hin); simpl; set_solver).
  all: cbn [parse_members map].
  - cbn [join]. rewrite parse_member_ok by (first [by apply line_spaces|apply line_stops; auto|done]).
    rewrite skip_spaces by (by apply line_spaces). simpl. by rewrite obj_set_fresh.
  - rewrite join_cons by done. rewrite <-!app_assoc.
    rewrite parse_member_ok by (first [by apply line_spaces|done|simpl; auto]). simpl app.
    rewrite skip_space_head by done. cbn beta iota zeta. rewrite obj_set_fresh by done.
    rewrite (IH kv') by (simpl in *; rewrite <-?app_assoc; lia || done).
    by rewrite <-app_assoc.
Qed.
End lines.
End elements.

Lemma join_length_bound (sep : jsstr) (ps : list jsstr) p : p ∈ ps → (length p ≤ length (join sep ps))%nat.
Proof.
  induction ps as [|q ps IH]; [set_solver|]. intros Hp.
  destruct ps as [|q' ps]; [simpl; apply list_elem_of_singleton in Hp as ->; lia|].
  rewrite join_cons by done. rewrite !length_app.
  apply elem_of_cons in Hp as [->|Hp]; [lia|]. specialize (IH Hp). lia.
Qed.

Lemma join_length_count c (sep : jsstr) (ps : list jsstr) : (length ps ≤ S (length (join (c :: sep) ps)))%nat.
Proof.
  induction ps as [|q ps IH]; [simpl; lia|]. destruct ps as [|q' ps]; [simpl; lia|].
  rewrite join_cons by done. rewrite !length_app. simpl length in *. lia.
Qed.

Lemma bracketed_length open close gap_line last_line parts p : p ∈ parts →
  (length p + 1 < length (bracketed open close gap_line last_line parts) ∧
   length parts < length (bracketed open close gap_line last_line parts))%nat.
Proof.
  intros Hp. pose proof (join_length_bound (44 :: gap_line) parts p Hp). pose proof (join_length_count 44 gap_line parts).
  destruct parts as [|q parts]; [set_solver|]. unfold bracketed. rewrite length_cons, !length_app. cbn [length] in *. lia.
Qed.

Lemma bracketed_cons open close gap_line last_line parts r : parts ≠ [] →
  bracketed open close gap_line last_line parts ++ r = open :: gap_line ++ join (44 :: gap_line) parts ++ last_line ++ close :: r.
Proof. intros Hp. destruct parts as [|p parts]; [done|]. unfold bracketed. cbn [app]. by rewrite <- !app_assoc. Qed.

Lemma parse_value_space fuel g s : spaces g → parse_value fuel (g ++ s) = parse_value fuel s.
Proof. intros Hg. destruct fuel; [done|]. cbn [parse_value]. by rewrite skip_spaces. Qed.

(** After the bracket: a first part, which does not close it. *)
Lemma skip_to_part gap_line u t : line gap_line → is_json_space u = false → skip_space (gap_line ++ u :: t) = u :: t.
Proof. intros Hg Hu. rewrite skip_spaces by (by apply line_spaces). by apply skip_space_head. Qed.

Lemma join_head sep p ps (u : Z) t : p = u :: t → ∃ t', join sep (p :: ps) = u :: t'.
Proof. intros ->. destruct ps; [by exists t|]. rewrite join_cons by done. by eexists. Qed.

Section values.
Context (fuel : nat) (text : json → jsstr) (gap_line last_line : jsstr) (Hgap : line gap_line) (Hlast : line last_line).

Lemma parse_value_array l r :
  (length l < fuel)%nat → (∀ v, v ∈ l → ∃ u t, text v = u :: t ∧ is_json_space u = false ∧ u ≠ 93) →
  Forall (reads_back (parse_value fuel) text) l →
  parse_value (S fuel) (bracketed 91 93 gap_line last_line (map text l) ++ r) = Some (JArr l, r).
Proof.
  intros Hfuel Hhead Hread. destruct l as [|v vs]; [done|].
  rewrite bracketed_cons by done. cbn [parse_value]. rewrite skip_space_head by done. cbn [Z.eqb Pos.eqb].
  rewrite parse_elements_ok; [|by intros; apply parse_value_space|done..|simpl in *; lia|done].
  destruct (Hhead v ltac:(by left)) as (u & t & Hu & Hsp & H93).
  destruct (join_head (44 :: gap_line) (text v) (map text vs) u t Hu) as [t' Ht]. cbn [map]. rewrite Ht. cbn [app].
  rewrite skip_to_part by done. repeat case_match; simplify_eq; done.
Qed.

Lemma parse_value_object after_key l r : (∃ g, after_key = 58 :: g ∧ spaces g) →
  (length l < fuel)%nat → NoDup l.*1 → Forall (λ kv, wf_str kv.1 ∧ reads_back (parse_value fuel) text kv.2) l →
  parse_value (S fuel) (bracketed 123 125 gap_line last_line (map (member_line text after_key) l) ++ r) = Some (JObj l, r).
Proof.
  intros Hkey Hfuel Hnd Hread. destruct l as [|kv kvs]; [done|].
  rewrite bracketed_cons by done. cbn [parse_value]. rewrite skip_space_head by done. cbn [Z.eqb Pos.eqb].
  rewrite parse_members_ok; [|by intros; apply parse_value_space|done..|simpl in *; lia|done|done].
  destruct (join_head (44 :: gap_line) (member_line text after_key kv) (map (member_line text after_key) kvs) 34
    (quote_body kv.1 ++ [34] ++ after_key ++ text kv.2)) as [t' Ht].
  { unfold member_line, quote. cbn [app]. f_equal. by rewrite <- app_assoc. }
  cbn [map]. rewrite Ht. cbn [app]. by rewrite skip_to_part by done.
Qed.
End values.

(** The first code unit of a serialised value starts a value. *)
Lemma print_head gap indent v : plain v → ∃ u t, print gap indent v = u :: t ∧ is_json_space u = false ∧ u ≠ 93.
Proof.
  intros Hv. destruct Hv as [|[]|z Hz|s Hs|l Hl|l Hl Hl']; [eexists _, _; done..| | | |].
  - cbn [print]. rewrite num_of_Z_finite, num_to_js_Z by done. unfold Z_to_js.
    destruct (Z.ltb_spec z 0); [eexists _, _; done|].
    destruct (dec_spec z) as (_ & Hne & Hds & _); [lia|].
    destruct (dec z) as [|d ds]; [done|]. apply Forall_cons in Hds as [Hd _].
    exists d, ds. unfold is_digit in Hd. bool_to_prop. split_and!; [done| |lia..].
    apply bool_decide_false. set_unfold. lia.
  - eexists _, _; done.
  - cbn [print]. destruct l; eexists _, _; done.
  - cbn [print]. destruct l; eexists _, _; done.
Qed.

Lemma parse_value_print gap v : spaces gap → ∀ fuel indent, spaces indent →
  plain v → (length (print gap indent v) < fuel)%nat → reads_back (parse_value fuel) (print gap indent) v.
Proof.
  intros Hgap. induction v as [|b|n|s|l IH|l IH] using json_nested_ind; intros [|fuel] indent Hind Hv Hfuel r Hr;
    [lia| |lia| |lia| |lia| |lia| |lia|]; [done|by destruct b| | | |].
  - inversion Hv as [| |z Hz| | |]; subst. cbn [print].
    rewrite num_of_Z_finite, num_to_js_Z by done. by apply parse_value_int.
  - inversion Hv as [| | |? Hs| |]; subst. cbn [print quote app parse_value].
    rewrite skip_space_head by done. cbn [Z.eqb Pos.eqb]. rewrite <-app_assoc. simpl app.
    by rewrite parse_string_quote.
  - inversion Hv as [| | | |? Hl|]; subst. cbn [print] in Hfuel |- *. assert (spaces (indent ++ gap)) as Hinner by by apply Forall_app_2.
    assert (length l < fuel)%nat.
    { destruct l as [|v0 l]; [cbn in *; lia|]. cbn [map] in Hfuel.
      pose proof (bracketed_length 91 93 (new_line gap (indent ++ gap)) (new_line gap indent) (map (print gap (indent ++ gap)) (v0 :: l)) _ ltac:(by left)) as [_ Hc].
      rewrite length_map in Hc. cbn [map] in Hc. lia. }
    apply parse_value_array; [by apply new_line_line..|done| |].
    + intros w Hw. rewrite Forall_forall in Hl. by apply print_head, Hl.
    + rewrite Forall_forall in IH, Hl |- *. intros w Hw. apply IH; auto.
      pose proof (bracketed_length 91 93 (new_line gap (indent ++ gap)) (new_line gap indent) (map (print gap (indent ++ gap)) l)
        (print gap (indent ++ gap) w) ltac:(by apply list_elem_of_fmap_2)). lia.
  - inversion Hv as [| | | | |? Hnd Hl]; subst. cbn [print] in Hfuel |- *. assert (spaces (indent ++ gap)) as Hinner by by apply Forall_app_2.
    change (map _ l) with (map (member_line (print gap (indent ++ gap)) (colon gap)) l) in Hfuel |- *.
    assert (∀ kv, kv ∈ l → length (print gap (indent ++ gap) kv.2) < fuel ∧ length l < fuel)%nat as Hlen.
    { intros kv Hkv. pose proof (bracketed_length 123 125 (new_line gap (indent ++ gap)) (new_line gap indent)
        (map (member_line (print gap (indent ++ gap)) (colon gap)) l) (member_line (print gap (indent ++ gap)) (colon gap) kv)
        ltac:(by apply list_elem_of_fmap_2)) as [Hp Hc].
      rewrite length_map in Hc. unfold member_line in Hp at 1. rewrite !length_app in Hp. lia. }
    apply parse_value_object; [by apply new_line_line..| | |done|].
    + unfold colon. case_bool_decide; [exists []|exists [32]]; (split; [done|repeat constructor]).
    + destruct l as [|kv l]; [cbn in *; lia|]. apply (Hlen kv). by left.
    + rewrite Forall_forall in IH, Hl |- *. intros kv Hkv. destruct (Hl kv Hkv) as [? ?].
      split; [done|]. apply IH; [done..|]. by apply Hlen.
Qed.

(** [JSON.parse(JSON.stringify(v, null, gap))] is [v], whatever the gap and
    whatever space ends the text. *)
Lemma parse_print gap v g : spaces gap → line g → plain v → parse (print gap [] v ++ g) = Some v.
Proof.
  intros Hgap Hg Hv. unfold parse.
  rewrite (parse_value_print gap v Hgap (S (length (print gap [] v ++ g))) [] ltac:(constructor) Hv).
  - pose proof (skip_spaces g [] (line_spaces g Hg)) as Hs. rewrite app_nil_r in Hs. by rewrite Hs.
  - rewrite length_app. lia.
  - destruct Hg as [->|(t & -> & _)]; cbn; tauto.
Qed.

(** One member of an object's text. *)
Definition member_text (kv : jsstr * json) : jsstr := quote kv.1 ++ 58 :: stringify kv.2.

Lemma print_compact v : ∀ indent, print [] indent v = stringify v.
Proof.
  induction v as [|b|n|s|l IH|l IH] using json_nested_ind; intros indent; [done..| |]; cbn [print].
  - rewrite (map_ext_in _ stringify); [by destruct l|]. intros w Hw%list_elem_of_In. rewrite Forall_forall in IH. by apply IH.
  - rewrite (map_ext_in _ member_text); [by destruct l|]. intros kv Hw%list_elem_of_In. rewrite Forall_forall in IH.
    unfold member_text, colon. rewrite bool_decide_true by done. cbn [app]. by rewrite IH.
Qed.

(** [JSON.parse(JSON.stringify(v))] is [v]. *)
Lemma parse_stringify v : plain v → parse (stringify v) = Some v.
Proof.
  intros Hv. rewrite <- (print_compact v []), <- (app_nil_r (print [] [] v)). apply parse_print; [constructor|by left|done].
Qed.

Lemma stringify_inj v w : plain v → plain w → stringify v = stringify w → v = w.
Proof.
  intros Hv%parse_stringify Hw%parse_stringify Heq. rewrite Heq in Hv. congruence.
Qed.

#[export] Hint Resolve parse_stringify : console.

(** ** Serialised text has no control characters *)

Definition printable (s : jsstr) : Prop := Forall (λ u, 32 ≤ u) s.

Lemma printable_app s t : printable s → printable t → printable (s ++ t).
Proof. by apply Forall_app_2. Qed.

Lemma hex_digit_printable d : 0 ≤ d → 32 ≤ hex_digit d.
Proof. unfold hex_digit. case_match; lia. Qed.

Lemma unicode_escape_printable u : 0 ≤ u → printable (unicode_escape u).
Proof.
  intros Hu. unfold unicode_escape, printable.
  repeat (constructor; [first [lia|apply hex_digit_printable, Z.mod_pos_bound; lia]|]). constructor.
Qed.

Lemma quote_unit_printable u : 0 ≤ u → printable (quote_unit u).
Proof.
  intros Hu. unfold quote_unit, printable.
  repeat match goal with |- context [?a =? ?b] => destruct (Z.eqb_spec a b) end;
    try (repeat constructor; lia).
  destruct (Z.ltb_spec u 32); [by apply unicode_escape_printable|by repeat constructor].
Qed.

Lemma quote_body_printable s : wf_str s → printable (quote_body s).
Proof.
  induction s as [s IH] using (induction_ltof1 _ length). unfold ltof in IH. intros Hs.
  destruct s as [|u s]; [constructor|]. apply Forall_cons in Hs as [Hu Hs]. cbn [quote_body].
  assert (printable (quote_body s)) by (apply IH; simpl; done || lia).
  destruct (is_lead u) eqn:Hlead.
  - destruct s as [|v s]; [apply unicode_escape_printable; lia|].
    destruct (is_trail v) eqn:Htrail.
    + apply Forall_cons in Hs as [Hv Hs]. unfold is_lead, is_trail in *. bool_to_prop.
      constructor; [lia|]. constructor; [lia|]. apply IH; simpl; done || lia.
    + apply printable_app; [apply unicode_escape_printable; lia|done].
  - destruct (is_trail u); apply printable_app; [apply unicode_escape_printable; lia|done| |done].
    apply quote_unit_printable; lia.
Qed.

(** Closed texts. *)
Ltac solve_printable := unfold printable; simpl; repeat (constructor; [lia|]); constructor.

Lemma quote_printable s : wf_str s → printable (quote s).
Proof.
  intros Hs. unfold quote. constructor; [lia|]. apply printable_app; [by apply quote_body_printable|].
  solve_printable.
Qed.

Lemma join_printable ps : Forall printable ps → printable (join [44] ps).
Proof.
  induction 1 as [|p ps Hp Hps IH]; [constructor|]. destruct ps; [done|].
  rewrite join_cons by done. apply printable_app; [done|]. by constructor.
Qed.

Lemma stringify_printable v : plain v → printable (stringify v).
Proof.
  induction v as [|b|n|s|l IH|l IH] using json_nested_ind; intros Hv.
  - solve_printable.
  - destruct b; solve_printable.
  - inversion Hv as [| |z Hz| | |]; subst. cbn [stringify]. rewrite num_of_Z_finite, num_to_js_Z by done.
    apply Forall_forall. intros u Hu%Z_to_js_units. lia.
  - inversion Hv; subst. by apply quote_printable.
  - inversion Hv as [| | | |? Hl|]; subst. cbn [stringify]. constructor; [lia|].
    apply printable_app; [|solve_printable]. apply join_printable.
    rewrite Forall_forall in IH, Hl; rewrite Forall_forall; intros p (w & -> & Hw)%list_elem_of_fmap. auto.
  - inversion Hv as [| | | | |? _ Hl]; subst.
    change (stringify (JObj l)) with (123 :: join [44] (map member_text l) ++ [125]).
    constructor; [lia|]. apply printable_app; [|solve_printable]. apply join_printable.
    rewrite Forall_forall in IH, Hl; rewrite Forall_forall; intros p (kv & -> & Hkv)%list_elem_of_fmap.
    destruct (Hl kv Hkv) as [Hk Hw]. unfold member_text.
    apply printable_app; [by apply quote_printable|]. constructor; [lia|]. by apply IH.
Qed.

Lemma wf_js s : wf_str (js s).
Proof.
  induction s as [|a s IH]; [constructor|]. constructor; [|done].
  pose proof (Ascii.N_ascii_bounded a). lia.
Qed.

#[export] Hint Resolve wf_js : console.
