(* ===== verification/Types.v ===== *)
(** The manager's wire types ([web/src/api/types.ts]).

    The manager and the daemon send identifiers, paths and messages as
    strings (code units) and process ids, offsets, counters and timestamps as
    JSON integers, which are [Z] here; a field that may be [null] or absent
    is an option. *)
From S2P Require Import Prelude.

Inductive SandboxState := creating | ready | stopping | stopped | failed.

#[export] Instance SandboxState_eq_dec : EqDecision SandboxState.
Proof. solve_decision. Defined.

(** The string a state is on the wire. *)
Definition SandboxState_string (s : SandboxState) : jsstr :=
  match s with
  | creating => js "creating"
  | ready => js "ready"
  | stopping => js "stopping"
  | stopped => js "stopped"
  | failed => js "failed"
  end.

Record Endpoint := { host : jsstr; port : Z }.

Record SharedBase := {
  base_source : jsstr;
  base_target : jsstr;
  base_root_hash : jsstr;
  base_readonly : bool;
}.

Record SandboxRecord := {
  id : jsstr;
  workspace_root : jsstr;
  state : SandboxState;
  daemon : option Endpoint;
  daemon_http : option Endpoint;
  shared_base : option SharedBase;
  (** absent only while connected to a pre-revision manager *)
  activity_revision : option Z;
}.

Record SandboxList := { sandboxes : list SandboxRecord }.

#[export] Instance Endpoint_eq_dec : EqDecision Endpoint.
Proof. solve_decision. Defined.
#[export] Instance SharedBase_eq_dec : EqDecision SharedBase.
Proof. solve_decision. Defined.
#[export] Instance SandboxRecord_eq_dec : EqDecision SandboxRecord.
Proof. solve_decision. Defined.

(** [record.state === "ready"]. *)
Definition is_ready (r : SandboxRecord) : bool := bool_decide (state r = ready).

Inductive CommandStatus := running | ok | error | timed_out | cancelled.

#[export] Instance CommandStatus_eq_dec : EqDecision CommandStatus.
Proof. solve_decision. Defined.

Definition CommandStatus_string (s : CommandStatus) : jsstr :=
  match s with
  | running => js "running"
  | ok => js "ok"
  | error => js "error"
  | timed_out => js "timed_out"
  | cancelled => js "cancelled"
  end.

Record CommandOutput := {
  out_status : CommandStatus;
  out_exit_code : option Z;
  wall_time_seconds : Z;
  command_total_time_seconds : Z;
  start_offset : Z;
  end_offset : Z;
  total_lines : Z;
  original_token_count : Z;
  output : jsstr;
  command_session_id : option jsstr;
  workspace_session_id : option jsstr;
  publish_rejected : option bool;
  publish_reject_class : option jsstr;
}.

(** ** Workspace sessions and the reports of their publication *)

Inductive SessionNetwork := session_shared | session_isolated.

Record WorkspaceSessionCreated := { created_session_id : jsstr; created_network : SessionNetwork }.

Record WorkspaceSessionDestroyed := { destroyed_session_id : jsstr; destroyed_upperdir_bytes : Z }.

Record WorkspaceSessionRevision := {
  revision_manifest_version : Z;
  revision_root_hash : jsstr;
  revision_layer_count : Z;
}.

Record RouteSummary := { source_count : Z; ignored_count : Z }.

Record WorkspaceSessionPublishSummary := {
  no_op : bool;
  revision : WorkspaceSessionRevision;
  route_summary : RouteSummary;
}.

Record WorkspaceSessionPublished := {
  published_session_id : jsstr;
  publish : WorkspaceSessionPublishSummary;
  published_upperdir_bytes : Z;
}.

Inductive WorkspaceSessionPublishRejectionReason :=
  | invalid_base_revision | protected_path | source_conflict_reason
  | opaque_dir_protected_descendant | opaque_dir_mixed_routes
  | opaque_dir_expansion_limit | route_preparation_failed.

Inductive WorkspaceSessionProtectedDropReason :=
  | unsupported_special_file | invalid_layer_path | command_scratch_path.

(** The states of a conflicting path are opaque records, only displayed. *)
Record SourceConflict := { conflict_path : jsstr }.

Record ProtectedDrop := { drop_path : option jsstr; drop_reason : WorkspaceSessionProtectedDropReason }.

Record WorkspaceSessionPublishRejection := {
  rejection_path : option jsstr;
  rejection_reason : WorkspaceSessionPublishRejectionReason;
  source_conflict : option SourceConflict;
  protected_drop : option ProtectedDrop;
  rejection_message : option jsstr;
}.

Inductive RetainedStage := stage_capture | stage_publish.

Record WorkspaceSessionPublishRetainedDetails := {
  retained_session_id : jsstr;
  retained_stage : RetainedStage;
  publish_rejection : option WorkspaceSessionPublishRejection;
  active_command_session_ids : option (list jsstr);
}.

Record WorkspaceSessionPublishCleanupDetails := {
  cleanup_session_id : jsstr;
  layer_committed : bool;
  cleanup_publish : WorkspaceSessionPublishSummary;
}.

(** A record for concrete instances. *)
Definition example_record (k : string) (s : SandboxState) : SandboxRecord :=
  {| id := js k; workspace_root := js "/work"; state := s; daemon := None; daemon_http := None;
     shared_base := None; activity_revision := None |}.

