(* ===== verification/Observability.v ===== *)
(** The daemon's wire types ([web/src/api/observability.ts]) and the number
    of commands a snapshot has in flight.

    Gauges ([metrics], [deltas], resident memory and CPU time of a process)
    are [number]s, since the client checks them with [Number.isFinite] and
    divides them; identifiers, counters and timestamps that it only compares
    or subtracts are [Z]. *)
From S2P Require Import Prelude JsNumber Types.

Inductive metric_value := MNumber (n : number) | MBool (b : bool) | MString (s : jsstr).

Record ResourceSample := {
  ts : number;
  sample_delta_ms : option number;
  metrics : gmap jsstr metric_value;
  deltas : gmap jsstr number;
}.

Record ResourceSeries := { latest : option ResourceSample; history : list ResourceSample }.

Record ActiveExecution := {
  namespace_execution_id : jsstr;
  operation : jsstr;
  execution_lifecycle_state : jsstr;
  execution_command : option jsstr;
}.

Inductive WorkspaceFinalizationState := finalization_active | finalizing | finalize_failed.
Inductive NetworkProfile := shared | isolated.

Record WorkspaceSnapshot := {
  snapshot_workspace_id : jsstr;
  workspace_lifecycle_state : jsstr;
  finalization_state : WorkspaceFinalizationState;
  network_profile : NetworkProfile;
  base_root_hash : jsstr;
  workspace_layer_count : Z;
  namespace_fd_count : Z;
  workspace_resources : ResourceSeries;
  active_namespace_executions : list ActiveExecution;
}.

Record StackSummary := { layer_count : Z; layers_bytes : Z; active_leases : Z }.

Record SandboxSnapshot := {
  sandbox_id : jsstr;
  snapshot_lifecycle_state : jsstr;
  availability : jsstr;
  snapshot_sampled_at : Z;
  snapshot_errors : list jsstr;
  snapshot_daemon : option (Z * jsstr);
  snapshot_resources : ResourceSeries;
  workspaces : list WorkspaceSnapshot;
  stack : StackSummary;
}.

Record SnapshotResult := { snapshots : list SandboxSnapshot }.

(** [workspaces.reduce((total, w) => total + w.active_namespace_executions.length, 0)]. *)
Definition inFlightCount (s : SandboxSnapshot) : Z :=
  foldl (λ total w, total + Z.of_nat (length (active_namespace_executions w))) 0 (workspaces s).

Lemma inFlight_foldl (l : list WorkspaceSnapshot) a :
  foldl (λ total w, total + Z.of_nat (length (active_namespace_executions w))) a l
  = a + Z.of_nat (length (l ≫= active_namespace_executions)).
Proof.
  revert a. induction l as [|w l IH]; intros a; [simpl; lia|].
  cbn [foldl]. rewrite IH, bind_cons, length_app. lia.
Qed.

(** The count is the number of executions of all workspaces together. *)
Lemma inFlightCount_length s :
  inFlightCount s = Z.of_nat (length (workspaces s ≫= active_namespace_executions)).
Proof. unfold inFlightCount. rewrite inFlight_foldl. lia. Qed.

Lemma inFlightCount_nonneg s : 0 ≤ inFlightCount s.
Proof. rewrite inFlightCount_length. lia. Qed.

Lemma inFlightCount_pos s :
  0 < inFlightCount s ↔ ∃ w, w ∈ workspaces s ∧ active_namespace_executions w ≠ [].
Proof.
  rewrite inFlightCount_length. split.
  - intros Hpos. destruct (workspaces s ≫= active_namespace_executions) as [|e es] eqn:He; [simpl in Hpos; lia|].
    assert (e ∈ workspaces s ≫= active_namespace_executions) as Hin by (rewrite He; set_solver).
    apply list_elem_of_bind in Hin as (w & Hew & Hw). exists w. split; [done|].
    intros Hnil. rewrite Hnil in Hew. by apply not_elem_of_nil in Hew.
  - intros (w & Hw & Hne). destruct (active_namespace_executions w) as [|e es] eqn:He; [done|].
    assert (e ∈ workspaces s ≫= active_namespace_executions) as Hin
      by (apply list_elem_of_bind; exists w; rewrite He; set_solver).
    destruct (workspaces s ≫= _); [by apply not_elem_of_nil in Hin|simpl; lia].
Qed.

#[export] Hint Resolve inFlightCount_nonneg : console.

(** ** Process topology and the daemon's own metrics *)

Inductive ProcessKind := namespace_init | process_kind.

Record WorkspaceProcess := {
  pid : Z;
  namespace_pid : Z;
  parent_pid : Z;
  process_name : jsstr;
  process_state : jsstr;
  kind : ProcessKind;
  cgroup_memberships : list jsstr;
  resident_memory_bytes : option number;
  cpu_time_us : option number;
  start_time_ticks : option number;
}.

Inductive WorkspaceActivity := workspace_active | workspace_idle | workspace_partial.

#[export] Instance WorkspaceActivity_eq_dec : EqDecision WorkspaceActivity.
Proof. solve_decision. Defined.

Record WorkspaceProcesses := {
  workspace_id : jsstr;
  workspace_state : WorkspaceActivity;
  holder_pid : Z;
  pid_namespace : option jsstr;
  mount_namespace : option jsstr;
  processes : list WorkspaceProcess;
}.

Record DaemonProcessMetrics := {
  available : bool;
  daemon_error : option jsstr;
  sampled_at_unix_ms : Z;
  daemon_pid : Z;
  daemon_name : option jsstr;
  daemon_state : option jsstr;
  virtual_memory_bytes : option Z;
  daemon_resident_memory_bytes : option Z;
  peak_resident_memory_bytes : option Z;
  proportional_set_size_bytes : option Z;
  unique_set_size_bytes : option Z;
  private_dirty_bytes : option Z;
  anonymous_huge_pages_bytes : option Z;
  anonymous_memory_bytes : option Z;
  file_memory_bytes : option Z;
  shared_memory_bytes : option Z;
  data_memory_bytes : option Z;
  swap_bytes : option Z;
  daemon_cpu_time_us : option Z;
  daemon_start_time_ticks : option Z;
  thread_count : option Z;
  file_descriptor_count : option Z;
  io_read_bytes : option Z;
  io_write_bytes : option Z;
  read_syscalls : option Z;
  write_syscalls : option Z;
  voluntary_context_switches : option Z;
  involuntary_context_switches : option Z;
  daemon_cgroup_memberships : list jsstr;
  cgroup_path : option jsstr;
  daemon_warnings : list jsstr;
  runtime_usage : option (option Z);
  ownership : option Z;
}.

Record WorkspaceProcessTopology := {
  topology_available : bool;
  topology_source : option jsstr;
  topology_error : option jsstr;
  topology_truncated : bool;
  topology_warnings : list jsstr;
  topology_workspaces : list WorkspaceProcesses;
  topology_daemon : option DaemonProcessMetrics;
}.

Record TopologyResult := { topology : WorkspaceProcessTopology }.

(** ** Layer stack and events *)

Record StackLayer := {
  layer_id : jsstr;
  layer_bytes : Z;
  leased_by_workspaces : Z;
  booked_by : list jsstr;
}.

Record LayerStackResult := {
  manifest_version : Z;
  root_hash : jsstr;
  active_lease_count : Z;
  total_bytes : Z;
  layers : list StackLayer;
}.

Record LayerStackWorkspaceMount := { mount_layer_id : jsstr; shared_with : list jsstr }.

Record LayerStackWorkspaceResult := {
  stack_workspace : jsstr;
  mounts : list LayerStackWorkspaceMount;
  upper_bytes : option Z;
}.

Inductive LayerStackLayerEntryKind :=
  | layer_file | layer_directory | layer_symlink | layer_delete | layer_opaque_dir.

#[export] Instance LayerStackLayerEntryKind_eq_dec : EqDecision LayerStackLayerEntryKind.
Proof. solve_decision. Defined.

Record LayerStackLayerEntry := { entry_path : jsstr; layer_entry_kind : LayerStackLayerEntryKind }.

Record LayerStackLayerResult := {
  layer_result_id : jsstr;
  layer_entries : list LayerStackLayerEntry;
  layer_truncated : bool;
}.

(** ** Resource series *)

Record CgroupSeries := {
  cgroup_scope : jsstr;
  cgroup_series : list ResourceSample;
  cgroup_topology : WorkspaceProcessTopology;
}.

Inductive ResourceAvailability := resources_available | resources_partial.

Record SandboxResourcesResult := {
  resources_sandbox_id : jsstr;
  resources_availability : ResourceAvailability;
  resources_errors : list jsstr;
  resources_series : list ResourceSample;
}.

Record FleetResourceCurrent := {
  current_availability : ResourceAvailability;
  current_errors : list jsstr;
  current : option ResourceSample;
}.

Record FleetResourcesResult := {
  fleet_availability : ResourceAvailability;
  fleet_errors : list jsstr;
  fleet_sandboxes : gmap jsstr FleetResourceCurrent;
}.

Record DaemonResult := { result_daemon : DaemonProcessMetrics }.

(** ** Traces and events; attributes are opaque values, here [A] *)

Section traces.
Context {A : Type}.

Record TraceEvent := {
  event_ts : number;
  event_trace : jsstr;
  event_parent : option jsstr;
  event_name : jsstr;
  event_attrs : gmap jsstr A;
}.

Record TraceSpan := {
  span_ts : number;
  span_trace : jsstr;
  span_id : jsstr;
  span_name : jsstr;
  dur_ms : option number;
  span_status : jsstr;
  span_attrs : gmap jsstr A;
}.

(** An event attached to a span, positioned from the trace start. *)
Record TraceEventNode := { event_offset_ms : number; node_event : TraceEvent }.

Inductive TraceNode :=
  TNode (node_span : TraceSpan) (node_offset_ms : number)
        (children : list TraceNode) (node_events : list TraceEventNode).

Record TraceResult := { trace : jsstr; spans : list TraceNode }.

Record EventsResult := { events : list TraceEvent }.
End traces.

Arguments TraceEvent : clear implicits.
Arguments TraceSpan : clear implicits.
Arguments TraceEventNode : clear implicits.
Arguments TraceNode : clear implicits.
Arguments TraceResult : clear implicits.
Arguments EventsResult : clear implicits.
