(* ===== verification/Status.v ===== *)
(** The status a sandbox is shown with ([web/src/core/status.ts]): the
    manager's lifecycle state, overridden by "active" when a ready sandbox
    has confirmed commands. *)
From S2P Require Import Prelude JsNumber Types.

(** [SandboxState | "active"]. *)
Inductive SandboxDisplayState := lifecycle (s : SandboxState) | active.

#[export] Instance SandboxDisplayState_eq_dec : EqDecision SandboxDisplayState.
Proof. solve_decision. Defined.

Definition SandboxDisplayState_string (d : SandboxDisplayState) : jsstr :=
  match d with lifecycle s => SandboxState_string s | active => js "active" end.

Inductive SandboxStatusTone :=
  | tone_active | tone_success | tone_warning | tone_walnut | tone_neutral | tone_danger.

Record SandboxStatusPresentation := {
  status_state : SandboxDisplayState;
  lifecycleState : SandboxState;
  label : jsstr;
  tone : SandboxStatusTone;
  pulse : bool;
}.

(** The entries of [LIFECYCLE_PRESENTATION], completed with the lifecycle
    state they are spread next to. *)
Definition LIFECYCLE_PRESENTATION (s : SandboxState) : SandboxState → SandboxStatusPresentation :=
  λ l, match s with
  | creating => {| status_state := lifecycle creating; lifecycleState := l;
                   label := js "Creating"; tone := tone_warning; pulse := false |}
  | ready => {| status_state := lifecycle ready; lifecycleState := l;
                label := js "Ready"; tone := tone_success; pulse := false |}
  | stopping => {| status_state := lifecycle stopping; lifecycleState := l;
                   label := js "Stopping"; tone := tone_walnut; pulse := false |}
  | stopped => {| status_state := lifecycle stopped; lifecycleState := l;
                  label := js "Stopped"; tone := tone_neutral; pulse := false |}
  | failed => {| status_state := lifecycle failed; lifecycleState := l;
                 label := js "Failed"; tone := tone_danger; pulse := false |}
  end.

Definition ACTIVE_PRESENTATION (l : SandboxState) : SandboxStatusPresentation :=
  {| status_state := active; lifecycleState := l; label := js "Active";
     tone := tone_active; pulse := true |}.

(** [null] and [undefined] commands are [None]. *)
Definition displayStateFor (s : SandboxState) (activeCommands : option number)
    : SandboxDisplayState :=
  if bool_decide (s = ready) &&
     match activeCommands with
     | Some n => isFinite n && num_ltb num_zero n
     | None => false
     end
  then active else lifecycle s.

Definition sandboxStatus (s : SandboxState) (activeCommands : option number)
    : SandboxStatusPresentation :=
  if bool_decide (displayStateFor s activeCommands = active)
  then ACTIVE_PRESENTATION s else LIFECYCLE_PRESENTATION s s.

(** ** Facts *)

(** "Active" exactly for a ready sandbox with a finite positive count. *)
Lemma displayStateFor_active s n :
  displayStateFor s n = active ↔
  s = ready ∧ ∃ k, n = Some k ∧ isFinite k = true ∧ num_ltb num_zero k = true.
Proof.
  unfold displayStateFor. split.
  - destruct (bool_decide (s = ready)) eqn:Hs; [|done]. bool_to_prop. simpl.
    destruct n as [k|]; [|done]. destruct (isFinite k) eqn:?, (num_ltb num_zero k) eqn:?; naive_solver.
  - intros (-> & k & -> & Hf & Hl). by rewrite Hf, Hl.
Qed.

Lemma sandboxStatus_active s n :
  displayStateFor s n = active → sandboxStatus s n = ACTIVE_PRESENTATION s.
Proof. intros H. unfold sandboxStatus. by rewrite bool_decide_true. Qed.

Lemma sandboxStatus_inactive s n :
  displayStateFor s n ≠ active → sandboxStatus s n = LIFECYCLE_PRESENTATION s s.
Proof. intros H. unfold sandboxStatus. by rewrite bool_decide_false. Qed.

Lemma displayStateFor_inactive s n : displayStateFor s n ≠ active → displayStateFor s n = lifecycle s.
Proof. unfold displayStateFor. by case_match. Qed.

(** A sandbox is presented as active exactly when it is ready and a
    finite, positive number of commands is confirmed; otherwise it is
    presented by the entry of its lifecycle state. Either way the lifecycle
    state itself is kept, and only "active" pulses. *)
Theorem sandboxStatus_spec s n :
  sandboxStatus s n =
    (if bool_decide (s = ready) &&
        match n with Some k => isFinite k && num_ltb num_zero k | None => false end
     then ACTIVE_PRESENTATION s else LIFECYCLE_PRESENTATION s s) ∧
  lifecycleState (sandboxStatus s n) = s ∧
  status_state (sandboxStatus s n) = displayStateFor s n ∧
  (pulse (sandboxStatus s n) = true ↔ displayStateFor s n = active).
Proof.
  destruct (decide (displayStateFor s n = active)) as [Ha|Ha].
  - rewrite (sandboxStatus_active s n Ha). pose proof Ha as Hc. unfold displayStateFor in Hc.
    destruct (_ && _); [|done]. done.
  - rewrite (sandboxStatus_inactive s n Ha). rewrite (displayStateFor_inactive s n Ha) in *.
    unfold displayStateFor in *. destruct (_ && _); [done|]. by destruct s.
Qed.
