(* ===== verification/Resources.v ===== *)
(** Current gauges of a sandbox from its resource series, and their fleet
    average ([web/src/core/resources.ts]). An unknown value is [None], never
    zero. *)
From S2P Require Import Prelude JsNumber Types Observability.

Definition MIN_CPU_SAMPLE_MS : number := num_of_Z 250.

Record SandboxCurrentUsage := {
  cpuPercent : option number;
  memoryBytes : option number;
  sampledAt : option number;
}.

(** [isFiniteNonNegative(value)] of a metric, with the number it narrows to. *)
Definition isFiniteNonNegative (v : option metric_value) : option number :=
  match v with
  | Some (MNumber n) => if finite_nonneg n then Some n else None
  | _ => None
  end.

(** A loop from the last element down to the first result. *)
Fixpoint last_result {A B} (f : A → option B) (l : list A) : option B :=
  match l with
  | [] => None
  | x :: l => match last_result f l with Some b => Some b | None => f x end
  end.

Definition sample_memory (s : ResourceSample) : option number :=
  isFiniteNonNegative (metrics s !! js "mem_cur").

(** The CPU share over a sample's interval, when it is long enough. *)
Definition sample_cpu (s : ResourceSample) : option number :=
  match isFiniteNonNegative (MNumber <$> deltas s !! js "cpu_usec"),
        isFiniteNonNegative (MNumber <$> sample_delta_ms s) with
  | Some cpuDelta, Some sampleDeltaMs =>
      if num_leb MIN_CPU_SAMPLE_MS sampleDeltaMs
      then Some (num_mul (num_div cpuDelta (num_mul sampleDeltaMs (num_of_Z 1000))) (num_of_Z 100))
      else None
  | _, _ => None
  end.

Definition currentUsageFromSeries (samples : list ResourceSample) : SandboxCurrentUsage :=
  {| cpuPercent := last_result sample_cpu samples;
     memoryBytes := last_result sample_memory samples;
     sampledAt := isFiniteNonNegative (MNumber ∘ ts <$> last samples) |}.

Definition currentMemoryBytes (usage : option SandboxCurrentUsage) : option number :=
  isFiniteNonNegative (MNumber <$> (usage ≫= memoryBytes)).

(** The loop of [averageMemoryBytes]: the running total and sample count. *)
Definition average_step (usage : gmap jsstr SandboxCurrentUsage)
    (acc : number * Z) (r : SandboxRecord) : number * Z :=
  match currentMemoryBytes (usage !! id r) with
  | None => acc
  | Some memory => (num_add acc.1 memory, acc.2 + 1)
  end.

Definition averageMemoryBytes (records : list SandboxRecord)
    (usage : gmap jsstr SandboxCurrentUsage) : option number :=
  let '(total, sampleCount) := foldl (average_step usage) (num_zero, 0) records in
  if sampleCount =? 0 then None else Some (num_div total (num_of_Z sampleCount)).

(** ** Facts *)

Lemma last_result_Some {A B} (f : A → option B) l b :
  last_result f l = Some b ↔
  ∃ l1 x l2, l = l1 ++ x :: l2 ∧ f x = Some b ∧ Forall (λ y, f y = None) l2.
Proof.
  induction l as [|x l IH]; simpl.
  - split; [done|]. intros ([|] & ? & ? & ? & _); done.
  - split.
    + destruct (last_result f l) as [b'|] eqn:Hl.
      * intros Hb. apply IH in Hb as (l1 & y & l2 & -> & ? & ?). by exists (x :: l1), y, l2.
      * intros Hx. exists [], x, l. split_and!; [done..|]. clear IH Hx.
        induction l as [|y l IH]; [constructor|]. simpl in Hl.
        destruct (last_result f l) eqn:?; [done|]. constructor; auto.
    + intros (l1 & y & l2 & Heq & Hy & Hl2). destruct l1 as [|z l1]; injection Heq as -> ->.
      * replace (last_result f l2) with (@None B); [done|]. clear IH Hy.
        induction Hl2 as [|z l2 Hz _ IH]; simpl; [done|]. by rewrite <-IH.
      * rewrite (proj2 IH); [done|]. eauto 10.
Qed.

Lemma last_result_None {A B} (f : A → option B) l :
  last_result f l = None ↔ Forall (λ y, f y = None) l.
Proof.
  induction l as [|x l IH]; simpl; [done|]. rewrite Forall_cons, <-IH.
  destruct (last_result f l); naive_solver.
Qed.

Lemma isFiniteNonNegative_Some v n :
  isFiniteNonNegative v = Some n ↔ v = Some (MNumber n) ∧ finite_nonneg n = true.
Proof.
  destruct v as [[m|b|s]|]; simpl; [|naive_solver..].
  destruct (finite_nonneg m) eqn:Hm; naive_solver congruence.
Qed.

Lemma cpu_divisor_positive ms :
  finite_nonneg ms = true → num_leb MIN_CPU_SAMPLE_MS ms = true →
  num_ltb num_zero (num_mul ms (num_of_Z 1000)) = true.
Proof.
  intros [Hf Hn]%finite_nonneg_spec Hle. apply num_mul_pos.
  destruct ms as [|[]| |[] m e]; try done.
  change (num_of_Z 1000) with (S754_finite false 8796093022208000 (-43)).
  change MIN_CPU_SAMPLE_MS with (S754_finite false 8796093022208000 (-45)) in Hle.
  unfold num_leb, SFleb, SFcompare in Hle. destruct (Z.compare_spec (-45) e); [lia..|done].
Qed.

Lemma sample_cpu_nonneg s c : sample_cpu s = Some c → nonneg c = true.
Proof.
  unfold sample_cpu.
  destruct (isFiniteNonNegative (MNumber <$> deltas s !! _)) as [d|] eqn:Hd; [|done].
  destruct (isFiniteNonNegative (MNumber <$> sample_delta_ms s)) as [ms|] eqn:Hms; [|done].
  apply isFiniteNonNegative_Some in Hd as [_ Hd], Hms as [_ Hms].
  destruct (num_leb _ _) eqn:Hle; [|done]. intros [= <-].
  apply num_mul_pos_nonneg; [|done..]. apply num_div_pos_nonneg; [done|].
  by apply cpu_divisor_positive.
Qed.

(** The running total and count are those of the known samples alone. *)
Definition known_memory (usage : gmap jsstr SandboxCurrentUsage) (records : list SandboxRecord)
    : list number := omap (λ r, currentMemoryBytes (usage !! id r)) records.

Lemma average_foldl usage records t n :
  foldl (average_step usage) (t, n) records =
  (foldl num_add t (known_memory usage records),
   n + Z.of_nat (length (known_memory usage records))).
Proof.
  revert t n. induction records as [|r records IH]; intros t n; simpl; [f_equal; lia|].
  unfold average_step at 2. simpl. destruct (currentMemoryBytes _); simpl; rewrite IH; f_equal; lia.
Qed.

Lemma known_memory_nonneg usage records :
  Forall (λ m, finite_nonneg m = true) (known_memory usage records).
Proof.
  apply Forall_forall. intros m (r & _ & Hm)%list_elem_of_omap.
  by apply isFiniteNonNegative_Some in Hm as [_ ?].
Qed.

Lemma foldl_add_nonneg l t :
  nonneg t = true → Forall (λ m, finite_nonneg m = true) l → nonneg (foldl num_add t l) = true.
Proof.
  intros Ht Hl. revert t Ht. induction Hl as [|m l Hm _ IH]; intros t Ht; simpl; [done|].
  apply IH. apply finite_nonneg_spec in Hm as [_ ?]. auto with console.
Qed.

(** Each gauge is the newest trustworthy one: later samples have none,
    the CPU share comes from an interval of at least 250 ms, and no value is
    ever negative or [NaN]. *)
Theorem currentUsageFromSeries_newest samples :
  let usage := currentUsageFromSeries samples in
  (∀ m, memoryBytes usage = Some m ↔
     ∃ older s newer, samples = older ++ s :: newer ∧
       metrics s !! js "mem_cur" = Some (MNumber m) ∧ finite_nonneg m = true ∧
       Forall (λ s, sample_memory s = None) newer) ∧
  (∀ c, cpuPercent usage = Some c →
     nonneg c = true ∧
     ∃ older s newer delta ms, samples = older ++ s :: newer ∧
       deltas s !! js "cpu_usec" = Some delta ∧ sample_delta_ms s = Some ms ∧
       num_leb MIN_CPU_SAMPLE_MS ms = true ∧
       c = num_mul (num_div delta (num_mul ms (num_of_Z 1000))) (num_of_Z 100) ∧
       Forall (λ s, sample_cpu s = None) newer) ∧
  (∀ t, sampledAt usage = Some t ↔
     ∃ s, last samples = Some s ∧ ts s = t ∧ finite_nonneg t = true).
Proof.
  intros usage. split_and!.
  - intros m. unfold usage. simpl. rewrite last_result_Some. unfold sample_memory.
    setoid_rewrite isFiniteNonNegative_Some. naive_solver.
  - intros c Hc. unfold usage in Hc. simpl in Hc.
    apply last_result_Some in Hc as (older & s & newer & -> & Hs & Hnewer).
    split; [by eapply sample_cpu_nonneg|]. unfold sample_cpu in Hs.
    destruct (isFiniteNonNegative (MNumber <$> deltas s !! _)) as [d|] eqn:Hd; [|done].
    destruct (isFiniteNonNegative (MNumber <$> sample_delta_ms s)) as [ms|] eqn:Hms; [|done].
    destruct (num_leb _ _) eqn:Hle; [|done]. injection Hs as <-.
    apply isFiniteNonNegative_Some in Hd as [Hd _], Hms as [Hms _].
    apply fmap_Some in Hd as (d' & ? & [= <-]), Hms as (ms' & ? & [= <-]).
    by exists older, s, newer, d, ms.
  - intros t. unfold usage. simpl. rewrite isFiniteNonNegative_Some.
    destruct (last samples) as [s|]; simpl; naive_solver.
Qed.

(** The fleet average divides the sum of the memory samples that exist by
    their number, never by the number of sandboxes; it is unknown exactly when
    no sandbox has a sample, and never negative or [NaN]. The bound keeps the
    sample count an exact number. *)
Theorem averageMemoryBytes_spec records usage
    (Hsafe : Z.of_nat (length records) < 2 ^ 53) :
  let known := known_memory usage records in
  averageMemoryBytes records usage =
    (if bool_decide (known = []) then None
     else Some (num_div (foldl num_add num_zero known) (num_of_Z (Z.of_nat (length known))))) ∧
  ∀ a, averageMemoryBytes records usage = Some a → nonneg a = true.
Proof.
  intros known. unfold averageMemoryBytes. rewrite average_foldl. fold known.
  assert (length known ≤ length records)%nat as Hlen.
  { apply length_omap_le. }
  case_bool_decide as Hk; [by rewrite Hk|].
  assert (0 < Z.of_nat (length known)) as Hpos by (destruct known; [done|simpl length; lia]).
  rewrite (proj2 (Z.eqb_neq _ _)) by lia. split; [done|]. intros a [= <-].
  apply num_div_nonneg.
  - apply foldl_add_nonneg; [done|]. apply known_memory_nonneg.
  - apply num_of_Z_finite. lia.
  - apply num_of_Z_pos. lia.
Qed.

(** ** Witnesses *)

Lemma averageMemoryBytes_spec_witness :
  averageMemoryBytes
    [{| id := js "a"; workspace_root := []; state := ready; daemon := None; daemon_http := None;
        shared_base := None; activity_revision := None |};
     {| id := js "b"; workspace_root := []; state := ready; daemon := None; daemon_http := None;
        shared_base := None; activity_revision := None |}]
    {[js "b" := {| cpuPercent := None; memoryBytes := Some (num_of_Z 64); sampledAt := None |}]}
  = Some (num_of_Z 64).
Proof.
  refine (eq_trans (proj1 (averageMemoryBytes_spec _ _ _)) _); vm_compute; reflexivity.
Defined.
