(* ===== verification/Activity.v ===== *)
(** When a sandbox counts as active and when its daemon is asked for a
    snapshot ([web/src/core/activity.ts]). *)
From S2P Require Import Prelude Types Observability.

Inductive SnapshotPollingMode := fast | slow.

#[export] Instance SnapshotPollingMode_eq_dec : EqDecision SnapshotPollingMode.
Proof. solve_decision. Defined.

(** [snapshot?.sandboxes.find(entry => entry.sandbox_id === sandboxId)]. *)
Definition snapshotForSandbox (snapshot : option SnapshotResult) (sandboxId : jsstr)
    : option SandboxSnapshot :=
  snapshot ≫= λ s, js_find (λ e, bool_decide (sandbox_id e = sandboxId)) (snapshots s).

Definition snapshotHasActivity (record : option SandboxRecord)
    (snapshot : option SnapshotResult) : bool :=
  match record with
  | Some r =>
      if negb (is_ready r) then false
      else match snapshotForSandbox snapshot (id r) with
           | Some s => (0 <? active_leases (stack s)) || (0 <? inFlightCount s)
           | None => false
           end
  | None => false
  end.

(** [typeof record.activity_revision === "number" &&
    record.activity_revision !== last]; [last] is [number | null | undefined]. *)
Definition revision_differs (r : SandboxRecord) (last : option (option Z)) : bool :=
  match activity_revision r with
  | Some v => bool_decide (last ≠ Some (Some v))
  | None => false
  end.

Definition shouldRequestSandboxSnapshot (record : option SandboxRecord)
    (snapshot : option SnapshotResult) (lastSnapshotRevision : option (option Z)) : bool :=
  match record with
  | Some r =>
      if negb (is_ready r) then false
      else match snapshot with
           | None => match lastSnapshotRevision with
                     | None => true
                     | Some _ => revision_differs r lastSnapshotRevision
                     end
           | Some _ => if snapshotHasActivity record snapshot then true
                       else revision_differs r lastSnapshotRevision
           end
  | None => false
  end.

Definition snapshotPollingMode (record : option SandboxRecord)
    (snapshot : option SnapshotResult) : SnapshotPollingMode :=
  if snapshotHasActivity record snapshot then fast else slow.

Definition snapshotActiveCommandCount (record : SandboxRecord)
    (snapshot : option SnapshotResult) : option Z :=
  if negb (is_ready record) then None
  else inFlightCount <$> snapshotForSandbox snapshot (id record).

(** ** Facts *)

Lemma is_ready_spec r : is_ready r = true ↔ state r = ready.
Proof. unfold is_ready. by rewrite bool_decide_eq_true. Qed.

Lemma snapshotHasActivity_spec record snapshot :
  snapshotHasActivity record snapshot = true ↔
  ∃ r s, record = Some r ∧ state r = ready ∧ snapshotForSandbox snapshot (id r) = Some s ∧
         (0 < active_leases (stack s) ∨ 0 < inFlightCount s).
Proof.
  unfold snapshotHasActivity. destruct record as [r|]; [|naive_solver].
  destruct (is_ready r) eqn:Hr; simpl.
  - apply is_ready_spec in Hr. destruct (snapshotForSandbox _ _) as [s|] eqn:Hs; [|naive_solver].
    rewrite orb_true_iff, !Z.ltb_lt. naive_solver.
  - split; [done|]. intros (r' & s & [= <-] & Hready & _). apply is_ready_spec in Hready. congruence.
Qed.

(** Only a ready record is ever asked for. *)
Lemma shouldRequest_ready record snapshot rev :
  shouldRequestSandboxSnapshot record snapshot rev = true →
  ∃ r, record = Some r ∧ state r = ready.
Proof.
  unfold shouldRequestSandboxSnapshot. destruct record as [r|]; [|done].
  destruct (is_ready r) eqn:Hr; [|done]. apply is_ready_spec in Hr. eauto.
Qed.

(** Asking again after an attempt at the record's own revision needs activity. *)
Lemma shouldRequest_same_revision r snapshot :
  shouldRequestSandboxSnapshot (Some r) snapshot (Some (activity_revision r)) = true →
  snapshotHasActivity (Some r) snapshot = true.
Proof.
  unfold shouldRequestSandboxSnapshot.
  assert (revision_differs r (Some (activity_revision r)) = false) as ->.
  { unfold revision_differs. destruct (activity_revision r); [|done]. apply bool_decide_eq_false. naive_solver. }
  destruct (is_ready r); [|done]. destruct snapshot; [|done]. by destruct (snapshotHasActivity _ _).
Qed.

#[export] Hint Resolve shouldRequest_ready : console.
