(* ===== verification/Fleet.v ===== *)
(** The dashboard's fleet of sandboxes ([web/src/core/fleet.ts]): a stable
    card order, searching, the need for fast polling, and the summary and
    card view models. *)
From S2P Require Import Prelude JsNumber JsText JsCollections Types Observability Status Resources.

Record FleetSummary := {
  total : option Z;
  summary_ready : option Z;
  summary_activeCommands : option Z;
  summary_averageMemoryBytes : option number;
}.

Inductive SandboxPrimaryActionKind := action_open | action_inspect.

Record SandboxPrimaryAction := {
  action_kind : SandboxPrimaryActionKind;
  action_label : jsstr;
  disabled : bool;
}.

Record SandboxCardViewModel := {
  card_id : jsstr;
  workspaceRoot : jsstr;
  card_lifecycleState : SandboxState;
  displayState : SandboxDisplayState;
  status : SandboxStatusPresentation;
  card_cpuPercent : option number;
  card_memoryBytes : option number;
  sessions : option Z;
  activeCommands : option Z;
  primaryAction : option SandboxPrimaryAction;
}.

Definition snapshots_of (snapshot : option SnapshotResult) : list SandboxSnapshot :=
  snapshots <$> snapshot ?? [].

Definition snapshotsBySandbox (snapshot : option SnapshotResult) : gmap jsstr SandboxSnapshot :=
  js_map ((λ e, (sandbox_id e, e)) <$> snapshots_of snapshot).

Definition currentFleetList (slow fast : option SandboxList) (lifecycleActive : bool)
    : option SandboxList :=
  if lifecycleActive then match fast with Some l => Some l | None => slow end else slow.

(** ** Stable order *)

(** [new Map(order.map((id, index) => [id, index]))]. *)
Definition positions (order : list jsstr) : gmap jsstr Z :=
  js_map (imap (λ i k, (k, Z.of_nat i)) order).

Definition compare_fleet (previous incoming : gmap jsstr Z) (left right : SandboxRecord) : Z :=
  match previous !! id left, previous !! id right with
  | Some l, Some r => l - r
  | Some _, None => -1
  | None, Some _ => 1
  | None, None => (incoming !! id left ?? 0) - (incoming !! id right ?? 0)
  end.

Definition stabilizeFleetList (fleet : option SandboxList) (previousOrder : list jsstr)
    : option SandboxList :=
  match fleet with
  | None => None
  | Some l =>
      if bool_decide (previousOrder = []) then Some l
      else Some {| sandboxes :=
             js_sort (compare_fleet (positions previousOrder) (positions (id <$> sandboxes l)))
                     (sandboxes l) |}
  end.

(** ** Activity *)

Definition records_of (fleet : option SandboxList) : list SandboxRecord :=
  sandboxes <$> fleet ?? [].

Definition hasFleetActivity (fleet : option SandboxList) (snapshot : option SnapshotResult)
    (createLogs : option (list jsstr)) : bool :=
  if bool_decide (is_Some createLogs) then true
  else let records := records_of fleet in
       if js_some (λ r, bool_decide (state r = creating) || bool_decide (state r = stopping)) records
       then true
       else let readyIds := js_set (id <$> js_filter is_ready records) in
            js_some (λ e, bool_decide (sandbox_id e ∈ readyIds) && (0 <? inFlightCount e))
                    (snapshots_of snapshot).

Definition activeCommandsForRecord (record : SandboxRecord) (snapshot : option SandboxSnapshot)
    : option Z :=
  match snapshot with
  | Some s => if negb (is_ready record) || negb (bool_decide (sandbox_id s = id record))
              then None else Some (inFlightCount s)
  | None => None
  end.

(** ** Search *)

Definition fleetRecordMatches `{CaseMapping} (record : SandboxRecord) (query : jsstr)
    (snapshot : option SandboxSnapshot) : bool :=
  let needle := toLowerCase (trim query) in
  if bool_decide (needle = []) then true
  else let st := sandboxStatus (state record) (num_of_Z <$> activeCommandsForRecord record snapshot) in
       js_some (λ value, includes needle (toLowerCase value))
         [id record; workspace_root record; SandboxState_string (state record);
          SandboxDisplayState_string (status_state st); label st].

Definition filterFleetRecords `{CaseMapping} (records : list SandboxRecord) (query : jsstr)
    (snapshot : option SnapshotResult) : list SandboxRecord :=
  if bool_decide (trim query = []) then records
  else let by_id := snapshotsBySandbox snapshot in
       js_filter (λ r, fleetRecordMatches r query (by_id !! id r)) records.

(** ** Summary *)

(** The loop of [activeCommandTotal]: [None] is its early [return null]. *)
Fixpoint sum_commands (by_id : gmap jsstr SandboxSnapshot) (total : Z)
    (records : list SandboxRecord) : option Z :=
  match records with
  | [] => Some total
  | r :: records =>
      match by_id !! id r with
      | None => None
      | Some entry => sum_commands by_id (total + inFlightCount entry) records
      end
  end.

Definition activeCommandTotal (fleet : option SandboxList) (snapshot : option SnapshotResult)
    : option Z :=
  match fleet with
  | None => None
  | Some l =>
      let readyRecords := js_filter is_ready (sandboxes l) in
      if bool_decide (readyRecords = []) then Some 0
      else match snapshot with
           | None => None
           | Some _ => sum_commands (snapshotsBySandbox snapshot) 0 readyRecords
           end
  end.

Definition dashboardSummary (fleet : option SandboxList) (snapshot : option SnapshotResult)
    (usage : gmap jsstr SandboxCurrentUsage) : FleetSummary :=
  match fleet with
  | None => {| total := None; summary_ready := None; summary_activeCommands := None;
               summary_averageMemoryBytes := None |}
  | Some l =>
      {| total := Some (Z.of_nat (length (sandboxes l)));
         summary_ready := Some (Z.of_nat (length (js_filter is_ready (sandboxes l))));
         summary_activeCommands := activeCommandTotal fleet snapshot;
         summary_averageMemoryBytes := averageMemoryBytes (sandboxes l) usage |}
  end.

(** ** Cards *)

Definition primaryActionFor (s : SandboxState) : option SandboxPrimaryAction :=
  match s with
  | ready => Some {| action_kind := action_open; action_label := js "Open"; disabled := false |}
  | stopping => Some {| action_kind := action_open; action_label := js "Open"; disabled := true |}
  | stopped | failed =>
      Some {| action_kind := action_inspect; action_label := js "Inspect"; disabled := false |}
  | creating => None
  end.

Definition sandboxCardViewModel (record : SandboxRecord) (snapshot : option SandboxSnapshot)
    (usage : option SandboxCurrentUsage) : SandboxCardViewModel :=
  let commands := activeCommandsForRecord record snapshot in
  let hasCurrentData := is_ready record in
  let st := sandboxStatus (state record) (num_of_Z <$> commands) in
  {| card_id := id record;
     workspaceRoot := workspace_root record;
     card_lifecycleState := state record;
     displayState := status_state st;
     status := st;
     card_cpuPercent := if hasCurrentData then usage ≫= cpuPercent else None;
     card_memoryBytes := if hasCurrentData then usage ≫= memoryBytes else None;
     sessions :=
       match snapshot with
       | Some s => if hasCurrentData && bool_decide (sandbox_id s = id record)
                   then Some (Z.of_nat (length (workspaces s))) else None
       | None => None
       end;
     activeCommands := commands;
     primaryAction := primaryActionFor (state record) |}.

(** ** The order of the cards *)

Lemma positions_lookup order k i :
  NoDup order → positions order !! k = Some i ↔ ∃ j, order !! j = Some k ∧ i = Z.of_nat j.
Proof.
  intros Hnd. unfold positions.
  assert ((imap (λ i k, (k, Z.of_nat i)) order).*1 = order) as Hfst.
  { apply list_eq. intros j. rewrite list_lookup_fmap, list_lookup_imap. by destruct (order !! j). }
  split.
  - intros H%js_map_elem. apply list_elem_of_lookup in H as [j Hj].
    rewrite list_lookup_imap in Hj. destruct (order !! j) as [k'|] eqn:Ho; [|done].
    injection Hj as -> <-. eauto.
  - intros (j & Hj & ->). apply js_map_NoDup; [by rewrite Hfst|].
    apply list_elem_of_lookup. exists j. by rewrite list_lookup_imap, Hj.
Qed.

Lemma positions_None order k : positions order !! k = None ↔ k ∉ order.
Proof.
  unfold positions. rewrite js_map_lookup_None.
  assert ((imap (λ i k, (k, Z.of_nat i)) order).*1 = order) as ->; [|done].
  apply list_eq. intros j. rewrite list_lookup_fmap, list_lookup_imap. by destruct (order !! j).
Qed.

Lemma positions_inj order k k' i :
  NoDup order → positions order !! k = Some i → positions order !! k' = Some i → k = k'.
Proof.
  intros Hnd (j & Hj & ->)%positions_lookup (j' & Hj' & Heq)%positions_lookup; [|done..].
  apply Nat2Z.inj in Heq as ->. congruence.
Qed.

Lemma position_exists order k : k ∈ order → ∃ i, positions order !! k = Some i.
Proof.
  intros Hk. destruct (positions order !! k) eqn:He; [eauto|]. by apply positions_None in He.
Qed.

Lemma id_inj (l : list SandboxRecord) r r' :
  NoDup (id <$> l) → r ∈ l → r' ∈ l → id r = id r' → r = r'.
Proof.
  intros Hnd Hr Hr' Heq. apply list_elem_of_lookup in Hr as [i Hi], Hr' as [j Hj].
  assert (i = j) as ->; [|congruence].
  eapply (NoDup_lookup _ _ _ (id r)); [done|by rewrite list_lookup_fmap, Hi|].
  by rewrite list_lookup_fmap, Hj, Heq.
Qed.

(** Between the records of one list, with distinct identifiers, the
    comparator is a strict total order. *)
Lemma compare_fleet_strict previous l :
  NoDup previous → NoDup (id <$> l) →
  strict_on (compare_fleet (positions previous) (positions (id <$> l))) (λ r, r ∈ l).
Proof.
  intros Hp Hl.
  assert (∀ r, r ∈ l → ∃ i, positions (id <$> l) !! id r = Some i) as Hpos
    by (intros r Hr; apply position_exists; set_solver).
  split; unfold compare_fleet.
  - intros x y Hx Hy Hne. destruct (Hpos x Hx) as [i Hi], (Hpos y Hy) as [j Hj].
    rewrite Hi, Hj. simpl.
    destruct (positions previous !! id x) as [px|] eqn:Hpx, (positions previous !! id y) as [py|] eqn:Hpy;
      [|lia..|].
    + assert (px ≠ py) by (intros ->; apply Hne, (id_inj l); eauto using positions_inj). lia.
    + assert (i ≠ j) by (intros ->; apply Hne, (id_inj l); eauto using positions_inj). lia.
  - intros x y _ _. repeat case_match; lia.
  - intros x y z _ _ _. repeat case_match; lia.
Qed.

(** What the dashboard promises: cards already shown keep their relative
    order, new ones follow in the order they arrived. *)
Definition stable_order (previous : list jsstr) (l : list SandboxRecord) : list SandboxRecord :=
  omap (λ k, js_find (λ r, bool_decide (id r = k)) l) previous ++
  js_filter (λ r, negb (bool_decide (id r ∈ previous))) l.

Lemma find_by_id l k r :
  NoDup (id <$> l) →
  js_find (λ r, bool_decide (id r = k)) l = Some r ↔ r ∈ l ∧ id r = k.
Proof.
  intros Hnd. split.
  - intros (l1 & l2 & -> & Hk & _)%js_find_Some. bool_to_prop. set_solver.
  - intros [Hr <-]. destruct (js_find _ l) as [r'|] eqn:Hf.
    + apply js_find_Some in Hf as (l1 & l2 & -> & Hid & _). bool_to_prop. f_equal.
      eapply id_inj; [done|set_solver|done|done].
    + apply js_find_None in Hf. rewrite Forall_forall in Hf. specialize (Hf r Hr).
      by rewrite bool_decide_true in Hf.
Qed.

Lemma stable_order_elem previous l r :
  NoDup (id <$> l) → r ∈ stable_order previous l ↔ r ∈ l.
Proof.
  intros Hl. unfold stable_order. rewrite elem_of_app, list_elem_of_omap, js_filter_elem.
  setoid_rewrite (find_by_id l _ _ Hl). rewrite negb_true_iff, bool_decide_eq_false.
  destruct (decide (id r ∈ previous)); naive_solver.
Qed.

Lemma stable_order_NoDup previous l :
  NoDup previous → NoDup (id <$> l) → NoDup (stable_order previous l).
Proof.
  intros Hp Hl. apply NoDup_app. split_and!.
  - induction Hp as [|k previous Hk _ IH]; simpl; [constructor|].
    destruct (js_find _ l) as [r|] eqn:Hf; [|done]. constructor; [|done].
    intros (k' & Hk' & Hr)%list_elem_of_omap.
    apply find_by_id in Hf as [_ <-], Hr as [_ <-]; [|done..]. done.
  - intros r (k & Hk & Hr)%list_elem_of_omap [_ Hnot]%js_filter_elem.
    apply find_by_id in Hr as [_ <-]; [|done]. bool_to_prop. done.
  - eapply sublist_NoDup; [apply (NoDup_fmap_1 id); exact Hl|apply js_filter_sublist].
Qed.

Lemma StronglySorted_mono_elem {A} (R R' : A → A → Prop) l :
  StronglySorted R l → (∀ x y, x ∈ l → y ∈ l → R x y → R' x y) → StronglySorted R' l.
Proof.
  induction 1 as [|x l Hs IH Hx]; intros Himp; constructor.
  - apply IH. set_solver.
  - rewrite Forall_forall in Hx |- *. intros y Hy. apply Himp; set_solver.
Qed.

(** A list with distinct identifiers is sorted by its own positions. *)
Lemma sorted_by_position (l : list jsstr) :
  NoDup l → StronglySorted (λ k k', ∃ i j, positions l !! k = Some i ∧ positions l !! k' = Some j ∧ i < j) l.
Proof.
  intros Hnd.
  assert (∀ n m, m = drop n l →
    StronglySorted (λ k k', ∃ i j, positions l !! k = Some i ∧ positions l !! k' = Some j ∧ i < j) m) as H;
    [|by apply (H 0%nat)].
  intros n m. revert n. induction m as [|k m IH]; intros n Hm; [constructor|].
  assert (l !! n = Some k) as Hn by (rewrite <-(Nat.add_0_r n), <-lookup_drop, <-Hm; done).
  constructor.
  - apply (IH (S n)). replace (S n) with (n + 1)%nat by lia. by rewrite <-drop_drop, <-Hm.
  - apply Forall_forall. intros k' [j Hj]%list_elem_of_lookup.
    assert (l !! (n + S j)%nat = Some k') as Hj' by (rewrite <-lookup_drop, <-Hm; done).
    exists (Z.of_nat n), (Z.of_nat (n + S j)). split_and!; [| |lia].
    all: apply positions_lookup; eauto.
Qed.

Lemma omap_find_sorted previous l :
  NoDup previous → NoDup (id <$> l) →
  StronglySorted (λ x y, ∃ i j, positions previous !! id x = Some i ∧
                                positions previous !! id y = Some j ∧ i < j)
    (omap (λ k, js_find (λ r, bool_decide (id r = k)) l) previous).
Proof.
  intros Hp Hl. pose proof (sorted_by_position previous Hp) as Hs. revert Hs. clear Hp.
  generalize (positions previous). intros pos Hs.
  induction Hs as [|k ks Hs IH Hk]; simpl; [constructor|].
  destruct (js_find _ l) as [r|] eqn:Hr; [|done].
  apply find_by_id in Hr as [_ Hr]; [|done]. constructor; [done|].
  apply Forall_forall. intros r' (k' & Hk' & Hr')%list_elem_of_omap.
  apply find_by_id in Hr' as [_ Hr']; [|done]. subst.
  rewrite Forall_forall in Hk. exact (Hk _ Hk').
Qed.

Lemma filter_sorted (p : SandboxRecord → bool) l :
  NoDup (id <$> l) →
  StronglySorted (λ x y, ∃ i j, positions (id <$> l) !! id x = Some i ∧
                                positions (id <$> l) !! id y = Some j ∧ i < j) (js_filter p l).
Proof.
  intros Hl. pose proof (sorted_by_position (id <$> l) Hl) as Hs. revert Hs. clear Hl.
  generalize (positions (id <$> l)). intros pos.
  induction l as [|r l IH]; simpl; [constructor|].
  intros [Hs Hr]%StronglySorted_inv. destruct (p r); [|by apply IH].
  constructor; [by apply IH|]. apply Forall_forall.
  intros r' [Hr' _]%js_filter_elem.
  apply (proj1 (Forall_forall _ (id <$> l)) Hr (id r')). set_solver.
Qed.

Lemma stable_order_ascending previous l :
  NoDup previous → NoDup (id <$> l) →
  ascending (compare_fleet (positions previous) (positions (id <$> l))) (stable_order previous l).
Proof.
  intros Hp Hl. unfold ascending, stable_order, compare_fleet.
  apply StronglySorted_app_2.
  - intros x y (k & Hk & Hx)%list_elem_of_omap [_ Hy]%js_filter_elem.
    apply find_by_id in Hx as [_ <-]; [|done].
    destruct (position_exists _ _ Hk) as [i ->]. bool_to_prop.
    rewrite (proj2 (positions_None _ _)) by done. lia.
  - eapply StronglySorted_mono_elem; [by apply omap_find_sorted|].
    intros x y _ _ (i & j & -> & -> & ?). lia.
  - eapply StronglySorted_mono_elem; [by apply filter_sorted|].
    intros x y [_ Hx]%js_filter_elem [_ Hy]%js_filter_elem (i & j & Hi & Hj & ?).
    bool_to_prop. rewrite !(proj2 (positions_None _ _)) by done. rewrite Hi, Hj. simpl. lia.
Qed.

(** The sort arranges the records in that order. *)
Lemma sort_stable_order previous l :
  NoDup previous → NoDup (id <$> l) →
  js_sort (compare_fleet (positions previous) (positions (id <$> l))) l = stable_order previous l.
Proof.
  intros Hp Hl. apply (js_sort_unique _ (λ r, r ∈ l)).
  - by apply compare_fleet_strict.
  - by apply Forall_forall.
  - by apply (NoDup_fmap_1 id).
  - apply NoDup_Permutation; [by apply stable_order_NoDup|by apply (NoDup_fmap_1 id)|].
    intros r. by apply stable_order_elem.
  - by apply stable_order_ascending.
Qed.

(** With the order of the cards on screen and the incoming records given
    with distinct identifiers, the list is arranged exactly as promised: the
    known cards in their previous order, then the new ones in arrival order. *)
Theorem stabilizeFleetList_order previous l
    (Hne : previous ≠ []) (Hp : NoDup previous) (Hl : NoDup (id <$> l)) :
  stabilizeFleetList (Some {| sandboxes := l |}) previous
  = Some {| sandboxes := stable_order previous l |}.
Proof.
  unfold stabilizeFleetList. rewrite bool_decide_false by done. simpl.
  by rewrite sort_stable_order.
Qed.

(** Whatever the identifiers, stabilising neither loses nor invents a record. *)
Theorem stabilizeFleetList_permutation fleet previous :
  records_of (stabilizeFleetList fleet previous) ≡ₚ records_of fleet.
Proof.
  destruct fleet as [l|]; [|done]. unfold stabilizeFleetList.
  case_bool_decide; [done|]. apply js_sort_perm.
Qed.

(** ** Activity of the fleet *)

Lemma ready_id_elem l k :
  k ∈ js_set (id <$> js_filter is_ready l) ↔ ∃ r, r ∈ l ∧ state r = ready ∧ id r = k.
Proof.
  rewrite js_set_elem, list_elem_of_fmap. setoid_rewrite js_filter_elem.
  unfold is_ready. setoid_rewrite bool_decide_eq_true. naive_solver.
Qed.

(** The fleet is polled fast exactly while a create stream is open, a
    sandbox is in a lifecycle transition, or a command runs in a sandbox the
    manager lists as ready. *)
Theorem hasFleetActivity_iff fleet snapshot createLogs :
  hasFleetActivity fleet snapshot createLogs = true ↔
  is_Some createLogs ∨
  (∃ r, r ∈ records_of fleet ∧ (state r = creating ∨ state r = stopping)) ∨
  (∃ r e w, r ∈ records_of fleet ∧ state r = ready ∧ e ∈ snapshots_of snapshot ∧
            sandbox_id e = id r ∧ w ∈ workspaces e ∧ active_namespace_executions w ≠ []).
Proof.
  unfold hasFleetActivity. case_bool_decide as Hlogs; [tauto|].
  case_match eqn:Htrans.
  - apply js_some_exists in Htrans as (r & Hr & Hst). rewrite orb_true_iff, !bool_decide_eq_true in Hst.
    naive_solver.
  - rewrite js_some_exists. setoid_rewrite andb_true_iff.
    setoid_rewrite bool_decide_eq_true. setoid_rewrite Z.ltb_lt.
    setoid_rewrite ready_id_elem. setoid_rewrite inFlightCount_pos.
    assert (¬ ∃ r, r ∈ records_of fleet ∧ (state r = creating ∨ state r = stopping)) as Hno.
    { intros (r & Hr & Hst). rewrite js_some_none in Htrans. specialize (Htrans r Hr).
      apply orb_false_iff in Htrans as [? ?]. bool_to_prop. tauto. }
    naive_solver.
Qed.

(** ** Searching *)

(** The texts a record is found by. *)
Definition searchable (record : SandboxRecord) (snapshot : option SandboxSnapshot) : list jsstr :=
  let st := sandboxStatus (state record) (num_of_Z <$> activeCommandsForRecord record snapshot) in
  [id record; workspace_root record; SandboxState_string (state record);
   SandboxDisplayState_string (status_state st); label st].

Lemma fleetRecordMatches_iff `{CaseMapping} record query snapshot :
  fleetRecordMatches record query snapshot = true ↔
  trim query = [] ∨
  ∃ text s1 s2, text ∈ searchable record snapshot ∧
                toLowerCase text = s1 ++ toLowerCase (trim query) ++ s2.
Proof.
  unfold fleetRecordMatches. pose proof (toLowerCase_nil (trim query)) as Hnil.
  case_bool_decide; [naive_solver|]. rewrite js_some_exists. setoid_rewrite includes_spec.
  fold (searchable record snapshot). naive_solver.
Qed.

(** A search keeps the order of the records and keeps exactly those one
    of whose texts (identifier, workspace root, lifecycle state, displayed
    state or label) contains the trimmed query, ignoring case. *)
Theorem filterFleetRecords_spec `{CaseMapping} records query snapshot :
  filterFleetRecords records query snapshot `sublist_of` records ∧
  ∀ r, r ∈ filterFleetRecords records query snapshot ↔
       r ∈ records ∧
       (trim query = [] ∨
        ∃ text s1 s2, text ∈ searchable r (snapshotsBySandbox snapshot !! id r) ∧
                      toLowerCase text = s1 ++ toLowerCase (trim query) ++ s2).
Proof.
  unfold filterFleetRecords. case_bool_decide as Hq.
  - split; [done|]. tauto.
  - split; [apply js_filter_sublist|]. intros r. by rewrite js_filter_elem, fleetRecordMatches_iff.
Qed.

(** ** The summary *)

Lemma sum_commands_spec by_id total records :
  sum_commands by_id total records =
  (λ es, foldl Z.add total (inFlightCount <$> es)) <$> mapM (λ r, by_id !! id r) records.
Proof.
  revert total. induction records as [|r records IH]; intros total; simpl; [done|].
  destruct (by_id !! id r) as [e|]; simpl; [|done]. rewrite IH.
  destruct (mapM _ records); done.
Qed.

(** The number of active commands is known exactly when the fleet is
    listed and every ready sandbox has a snapshot, and it is then the sum
    over the ready sandboxes; a missing snapshot is never counted as zero. *)
Theorem activeCommandTotal_spec fleet snapshot :
  activeCommandTotal fleet snapshot =
  match fleet with
  | None => None
  | Some l =>
      (λ es, foldl Z.add 0 (inFlightCount <$> es)) <$>
      mapM (λ r, snapshotsBySandbox snapshot !! id r) (js_filter is_ready (sandboxes l))
  end.
Proof.
  destruct fleet as [l|]; [|done]. unfold activeCommandTotal.
  case_bool_decide as Hready; [by rewrite Hready|].
  destruct snapshot as [s|]; [apply sum_commands_spec|].
  destruct (js_filter is_ready (sandboxes l)) as [|r rs]; [done|]. simpl.
  assert (snapshotsBySandbox None !! id r = None) as -> by done. done.
Qed.

(** ** Cards *)

Lemma activeCommandsForRecord_nonneg r s n : activeCommandsForRecord r s = Some n → 0 ≤ n.
Proof.
  unfold activeCommandsForRecord. destruct s as [s|]; [|done]. case_match; [done|].
  intros [= <-]. apply inFlightCount_nonneg.
Qed.

(** C26: A card is truthful: it is shown as active exactly when its own
    snapshot reports a positive number of commands for a ready sandbox, it
    carries gauges and counts only for a ready sandbox, and it can be opened
    only when the sandbox is ready. The bound keeps the count an exact number. *)
Theorem sandboxCardViewModel_truthful record snapshot usage
    (Hsafe : ∀ s, snapshot = Some s → inFlightCount s < 2 ^ 53) :
  let card := sandboxCardViewModel record snapshot usage in
  (displayState card = active ↔
     state record = ready ∧ ∃ s, snapshot = Some s ∧ sandbox_id s = id record ∧ 0 < inFlightCount s) ∧
  (state record ≠ ready →
     card_cpuPercent card = None ∧ card_memoryBytes card = None ∧
     sessions card = None ∧ activeCommands card = None) ∧
  (primaryAction card = Some {| action_kind := action_open; action_label := js "Open"; disabled := false |}
     ↔ state record = ready).
Proof.
  intros card.
  assert (displayState card = displayStateFor (state record)
            (num_of_Z <$> activeCommandsForRecord record snapshot)) as Hdisp.
  { unfold card. simpl. destruct (decide (displayStateFor (state record)
      (num_of_Z <$> activeCommandsForRecord record snapshot) = active)) as [H|H].
    - by rewrite sandboxStatus_active.
    - rewrite sandboxStatus_inactive, (displayStateFor_inactive _ _ H) by done. by destruct (state record). }
  split_and!.
  - rewrite Hdisp, displayStateFor_active. unfold activeCommandsForRecord. split.
    + intros (Hr & k & Hk & _ & Hpos). split; [done|]. destruct snapshot as [s|]; [|done].
      destruct (negb (is_ready record) || _) eqn:Hc; [done|]. bool_to_prop.
      injection Hk as <-. exists s. split_and!; [done..|].
      destruct (decide (inFlightCount s = 0)) as [Hz|]; [by rewrite Hz in Hpos|].
      pose proof (inFlightCount_nonneg s). lia.
    + intros (Hr & s & -> & Hid & Hpos). split; [done|]. exists (num_of_Z (inFlightCount s)).
      unfold is_ready. rewrite !bool_decide_true by done. simpl.
      specialize (Hsafe s eq_refl). split_and!; [done|apply num_of_Z_finite; lia|by apply num_of_Z_pos].
  - intros Hnr. unfold card. simpl. unfold activeCommandsForRecord, is_ready.
    rewrite bool_decide_false by done. by destruct snapshot.
  - unfold card. simpl. destruct (state record); split; intros; done.
Qed.

(** ** Witnesses *)

Lemma stabilizeFleetList_order_witness :
  stabilizeFleetList
    (Some {| sandboxes := [example_record "c" ready; example_record "a" failed; example_record "b" ready] |})
    [js "b"; js "gone"; js "a"]
  = Some {| sandboxes := [example_record "b" ready; example_record "a" failed; example_record "c" ready] |}.
Proof.
  rewrite (stabilizeFleetList_order [js "b"; js "gone"; js "a"]).
  - vm_compute. reflexivity.
  - discriminate.
  - decide_closed.
  - decide_closed.
Defined.

Lemma sandboxCardViewModel_truthful_witness :
  displayState (sandboxCardViewModel (example_record "a" stopped) None None) ≠ active.
Proof.
  intros H. apply (sandboxCardViewModel_truthful (example_record "a" stopped) None None) in H
    as [H _]; discriminate.
Defined.
