(* ===== verification/Rpc.v ===== *)
(** The client of the console's RPC endpoint: one-shot calls
    ([web/src/api/rpc.ts], [web/src/api/http.ts], [gateway.ts],
    [hostResources.ts]) and the server-sent-event variant.

    [fetch] is a parameter: the browser's network, which either rejects or
    answers with a status and, when it can be read, a body text. *)
From S2P Require Import Prelude JsNumber JsText NumText Json.

Inductive Scope := ScopeSystem | ScopeSandbox (sandbox : jsstr).

Definition systemScope : Scope := ScopeSystem.
Definition sandboxScope (sandboxId : jsstr) : Scope := ScopeSandbox sandboxId.

Definition scope_json (s : Scope) : json :=
  match s with
  | ScopeSystem => JObj [(js "kind", JStr (js "system"))]
  | ScopeSandbox i => JObj [(js "kind", JStr (js "sandbox")); (js "sandbox_id", JStr i)]
  end.

(** [details] is completed by the constructor; [kind] and [message] are
    whatever the body carried, as the casts of the source leave them. *)
Record RpcError := {
  err_kind : json;
  err_message : json;
  err_details : json;
  transport : bool;
  err_status : option Z;
}.

Definition new_RpcError (kind message : json) (details : option json) (transport : bool)
    (status : option Z) : RpcError :=
  {| err_kind := kind; err_message := message;
     err_details := match details with Some JNull | None => JObj [] | Some d => d end;
     transport := transport; err_status := status |}.

(** What [fetch] settles with; an unreadable body has no text. *)
Inductive fetched :=
  | FetchRejected (reason : jsstr)
  | FetchResponse (status : Z) (body : option jsstr).

(** ** Reading a body *)

(** [response.json().catch(() => null)]. *)
Definition body_json (body : option jsstr) : json := (body ≫= parse) ?? JNull.

Definition response_ok (status : Z) : bool := (200 <=? status) && (status <=? 299).

(** [o?.k]. *)
Definition chain (k : string) (o : option json) : option json :=
  match o with None | Some JNull => None | Some v => get k v end.

(** [o ?? d] of a JSON value, where [null] counts as absent. *)
Definition nullish (o : option json) (d : json) : json :=
  match o with None | Some JNull => d | Some v => v end.

Definition truthy (v : json) : bool :=
  match v with
  | JNull => false
  | JBool b => b
  | JNum n => match n with S754_zero _ | S754_nan => false | _ => true end
  | JStr s => bool_decide (s ≠ [])
  | JArr _ | JObj _ => true
  end.

(** [body && typeof body === "object" && body.error], when truthy. *)
Definition error_member (body : json) : option json :=
  match get "error" body with
  | Some e => if truthy e then Some e else None
  | None => None
  end.

Definition network_error (reason : jsstr) : RpcError :=
  new_RpcError (JStr (js "network_error")) (JStr (js "console unreachable: " ++ reason)) None true None.

Definition protocolError (body : json) : RpcError :=
  let error := chain "error" (Some body) in
  new_RpcError (nullish (chain "kind" error) (JStr (js "unknown_error")))
    (nullish (chain "message" error) (JStr (js "operation failed")))
    (chain "details" error) false None.

Definition http_error (status : Z) (body : json) : RpcError :=
  let error := chain "error" (Some body) in
  new_RpcError (nullish (chain "kind" error) (JStr (js "transport_error")))
    (nullish (chain "message" error) (JStr (js "console answered HTTP " ++ Z_to_js status)))
    (chain "details" error) true (Some status).

(** ** One-shot calls *)

Definition rpc_request (op : jsstr) (scope : Scope) (args : list (jsstr * json)) : json :=
  JObj [(js "op", JStr op); (js "scope", scope_json scope); (js "args", JObj args)].

(** What [rpc] does with the settled [fetch]. *)
Definition rpc_settle (r : fetched) : outcome RpcError json :=
  match r with
  | FetchRejected reason => Throws (network_error reason)
  | FetchResponse status text =>
      let body := body_json text in
      if negb (response_ok status) then Throws (http_error status body)
      else match error_member body with
           | Some _ => Throws (protocolError body)
           | None => Returns body
           end
  end.

Definition rpc (fetch : jsstr → jsstr → fetched) (op : jsstr) (scope : Scope)
    (args : list (jsstr * json)) : outcome RpcError json :=
  rpc_settle (fetch (js "/api/rpc") (stringify (rpc_request op scope args))).

(** [postJson] of [http.ts] repeats the reading of the body inline: the
    defaults of a protocol error are applied to [body.error] itself. *)
Definition postJson (fetch : jsstr → jsstr → fetched) (url : jsstr) (args : list (jsstr * json))
    : outcome RpcError json :=
  match fetch url (stringify (JObj args)) with
  | FetchRejected reason => Throws (network_error reason)
  | FetchResponse status text =>
      let body := body_json text in
      if negb (response_ok status)
      then Throws (new_RpcError
             (nullish (chain "kind" (chain "error" (Some body))) (JStr (js "transport_error")))
             (nullish (chain "message" (chain "error" (Some body)))
                (JStr (js "console answered HTTP " ++ Z_to_js status)))
             (chain "details" (chain "error" (Some body))) true (Some status))
      else match error_member body with
           | Some e => Throws (new_RpcError (nullish (get "kind" e) (JStr (js "unknown_error")))
                         (nullish (get "message" e) (JStr (js "operation failed")))
                         (get "details" e) false None)
           | None => Returns body
           end
  end.

Definition startGateway (fetch : jsstr → jsstr → fetched) : outcome RpcError json :=
  postJson fetch (js "/api/gateway/start") [].

Definition listWorkspaceDirectories (fetch : jsstr → jsstr → fetched) (path : option jsstr)
    : outcome RpcError json :=
  rpc fetch (js "list_workspace_directories") systemScope
    match path with None => [] | Some p => [(js "path", JStr p)] end.

(** [None] is the [undefined] of a body without [images]. *)
Definition listDockerImages (fetch : jsstr → jsstr → fetched) : outcome RpcError (option json) :=
  let! result := rpc fetch (js "list_docker_images") systemScope [] in
  Returns (get "images" result).

(** ** Server-sent events *)

Record SseEvent := { event : jsstr; data : jsstr }.

(** One pass over the lines of a chunk. *)
Definition sse_line (acc : jsstr * list jsstr) (line : jsstr) : jsstr * list jsstr :=
  if startsWith (js "event:") line then (trim (drop 6 line), acc.2)
  else if startsWith (js "data:") line then (acc.1, acc.2 ++ [trim (drop 5 line)])
  else acc.

Definition parseSseChunk (chunk : jsstr) : option SseEvent :=
  let '(ev, dataLines) := foldl sse_line (js "message", []) (split 10 chunk) in
  if bool_decide (dataLines = []) then None
  else Some {| event := ev; data := join [10] dataLines |}.

Inductive stream_error :=
  | StreamRpc (e : RpcError)
  | StreamSyntaxError
  | StreamTypeError
  | StreamReadError (reason : jsstr).

(** What one parsed event does: log a line, nothing, or settle the call. *)
Inductive reaction :=
  | Log (line : json)
  | Ignore
  | Settle (o : outcome stream_error json).

(** [JSON.parse(parsed.data)], then a property of it: reading a property of
    [null] is a [TypeError]. *)
Definition with_payload (e : SseEvent) (k : json → reaction) : reaction :=
  match parse (data e) with
  | None => Settle (Throws StreamSyntaxError)
  | Some JNull => Settle (Throws StreamTypeError)
  | Some payload => k payload
  end.

Definition react (e : SseEvent) : reaction :=
  if bool_decide (event e = js "log") then
    with_payload e (λ payload, Log (nullish (get "line" payload) (JStr [])))
  else if bool_decide (event e = js "error") then
    with_payload e (λ payload, Settle (Throws (StreamRpc
      (new_RpcError (nullish (get "kind" payload) (JStr (js "transport_error")))
         (nullish (get "message" payload) (JStr (js "gateway stream failed"))) None true None))))
  else if bool_decide (event e = js "result") then
    match parse (data e) with
    | None => Settle (Throws StreamSyntaxError)
    | Some payload =>
        match error_member payload with
        | Some _ => Settle (Throws (StreamRpc (protocolError payload)))
        | None => Settle (Returns payload)
        end
    end
  else Ignore.

(** The inner loop over the complete events of the buffer: the lines logged,
    the outcome if an event settled the call, and the remaining buffer. *)
Fixpoint drain_go (fuel : nat) (buffer : jsstr)
    : list json * option (outcome stream_error json) * jsstr :=
  match fuel with
  | O => ([], None, buffer)
  | S fuel =>
      match indexOf [10; 10] buffer with
      | None => ([], None, buffer)
      | Some boundary =>
          let chunk := take boundary buffer in
          let rest := drop (boundary + 2) buffer in
          match parseSseChunk chunk with
          | None => drain_go fuel rest
          | Some e =>
              match react e with
              | Ignore => drain_go fuel rest
              | Log line => let '(lines, o, r) := drain_go fuel rest in (line :: lines, o, r)
              | Settle o => ([], Some o, rest)
              end
          end
      end
  end.

(** Every event takes two code units, so the length is enough fuel. *)
Definition drain (buffer : jsstr) := drain_go (S (length buffer)) buffer.

(** The reads of the body stream, decoded; the end of the list is [done]. *)
Inductive read := Chunk (text : jsstr) | ReadRejected (reason : jsstr).

Definition stream_ended : RpcError :=
  new_RpcError (JStr (js "transport_error")) (JStr (js "stream ended without a result event")) None true None.

Fixpoint read_loop (buffer : jsstr) (reads : list read) : list json * outcome stream_error json :=
  match reads with
  | [] => ([], Throws (StreamRpc stream_ended))
  | ReadRejected reason :: _ => ([], Throws (StreamReadError reason))
  | Chunk text :: reads =>
      match drain (buffer ++ text) with
      | (lines, Some o, _) => (lines, o)
      | (lines, None, buffer') =>
          let '(lines', o) := read_loop buffer' reads in (lines ++ lines', o)
      end
  end.

(** What the streaming [fetch] settles with; [None] reads is a response
    without a body stream. *)
Inductive fetched_stream :=
  | StreamRejected (reason : jsstr)
  | StreamResponse (status : Z) (text : option jsstr) (reads : option (list read)).

Definition rpcStream (fetch : jsstr → jsstr → fetched_stream) (op : jsstr) (scope : Scope)
    (args : list (jsstr * json)) : list json * outcome stream_error json :=
  match fetch (js "/api/rpc") (stringify (rpc_request op scope args)) with
  | StreamRejected reason => ([], Throws (StreamRpc (network_error reason)))
  | StreamResponse status text reads =>
      match reads with
      | Some rs => if response_ok status then read_loop [] rs
                   else ([], Throws (StreamRpc (http_error status (body_json text))))
      | None => ([], Throws (StreamRpc (http_error status (body_json text))))
      end
  end.

(** ** Facts: one-shot calls *)

Lemma chain_some k v : v ≠ JNull → chain k (Some v) = get k v.
Proof. by destruct v. Qed.

Lemma truthy_not_null v : truthy v = true → v ≠ JNull.
Proof. by destruct v. Qed.

(** The two readings of a response, [rpc]'s and [postJson]'s, agree on
    every response. *)
Theorem postJson_rpc_settle fetch url args :
  postJson fetch url args = rpc_settle (fetch url (stringify (JObj args))).
Proof.
  unfold postJson, rpc_settle. destruct (fetch _ _) as [reason|status text]; [done|].
  destruct (negb (response_ok status)); [done|].
  unfold error_member. destruct (get "error" (body_json text)) as [e|] eqn:He; [|done].
  destruct (truthy e) eqn:Ht; [|done]. unfold protocolError.
  rewrite chain_some by (intros Hn; by rewrite Hn in He). rewrite He.
  by rewrite !chain_some by (by apply truthy_not_null).
Qed.

(** How an RPC settles: it returns the body exactly when the status is
    2xx and the body carries no truthy [error]; a protocol error (a 2xx body
    with an [error]) is not a transport error and has no status; every other
    failure is a transport error, with the HTTP status unless [fetch] itself
    was rejected. *)
Theorem rpc_settle_spec r :
  match rpc_settle r with
  | Returns body =>
      ∃ status text, r = FetchResponse status text ∧ response_ok status = true ∧
                     body = body_json text ∧ error_member body = None
  | Throws e =>
      if transport e then
        match err_status e with
        | Some status => response_ok status = false ∧ ∃ text, r = FetchResponse status text
        | None => ∃ reason, r = FetchRejected reason
        end
      else err_status e = None ∧
           ∃ status text, r = FetchResponse status text ∧ response_ok status = true ∧
                          is_Some (error_member (body_json text))
  end.
Proof.
  destruct r as [reason|status text]; simpl; [eauto|].
  destruct (response_ok status) eqn:Hok; simpl; [|eauto].
  destruct (error_member (body_json text)) eqn:He; simpl; eauto 10.
Qed.

(** ** Facts: the stream *)

Lemma drain_go_fuel fuel fuel' b :
  (length b < fuel)%nat → (length b < fuel')%nat → drain_go fuel b = drain_go fuel' b.
Proof.
  revert fuel' b. induction fuel as [|fuel IH]; intros [|fuel'] b H H'; [lia..|].
  cbn [drain_go]. destruct (indexOf [10; 10] b) as [i|] eqn:Hi; [|done].
  pose proof (indexOf_length _ _ _ Hi) as Hlen. simpl length in Hlen.
  assert (drain_go fuel (drop (i + 2) b) = drain_go fuel' (drop (i + 2) b)) as Heq
    by (apply IH; rewrite length_drop; lia).
  rewrite Heq. done.
Qed.

(** One step of the inner loop. *)
Lemma drain_unfold b :
  drain b = match indexOf [10; 10] b with
            | None => ([], None, b)
            | Some i =>
                let rest := drop (i + 2) b in
                match parseSseChunk (take i b) with
                | None => drain rest
                | Some e => match react e with
                            | Ignore => drain rest
                            | Log line => let '(lines, o, r) := drain rest in (line :: lines, o, r)
                            | Settle o => ([], Some o, rest)
                            end
                end
            end.
Proof.
  unfold drain at 1. cbn [drain_go]. destruct (indexOf [10; 10] b) as [i|] eqn:Hi; [|done].
  pose proof (indexOf_length _ _ _ Hi) as Hlen. simpl length in Hlen. cbv zeta.
  rewrite (drain_go_fuel (length b) (S (length (drop (i + 2) b)))) by (rewrite length_drop; lia).
  done.
Qed.

(** Draining a longer buffer: drain the first part, then go on with what it left. *)
Lemma drain_app b c :
  drain (b ++ c) = match drain b with
                   | (lines, Some o, r) => (lines, Some o, r ++ c)
                   | (lines, None, r) =>
                       let '(lines', o, r') := drain (r ++ c) in (lines ++ lines', o, r')
                   end.
Proof.
  induction b as [b IH] using (induction_ltof1 _ length). unfold ltof in IH.
  rewrite (drain_unfold b). destruct (indexOf [10; 10] b) as [i|] eqn:Hi.
  2: { by destruct (drain (b ++ c)) as [[? ?] ?]. }
  pose proof (indexOf_length _ _ _ Hi) as Hlen. simpl length in Hlen.
  rewrite drain_unfold, (indexOf_app _ _ _ _ Hi), (indexOf_take_app _ _ _ _ Hi).
  change 2%nat with (length [10; 10]). rewrite (indexOf_drop_app _ _ _ _ Hi). cbv zeta.
  assert (length (drop (i + length [10%Z; 10%Z]) b) < length b)%nat as Hlt
    by (rewrite length_drop; simpl length; lia).
  destruct (parseSseChunk (take i b)) as [e|]; [|by apply IH].
  destruct (react e) as [line| |o]; [|by apply IH|done].
  rewrite IH by done. destruct (drain _) as [[lines [o|]] r]; [done|].
  by destruct (drain (r ++ c)) as [[? ?] ?].
Qed.

Lemma drain_nil : drain [] = ([], None, []).
Proof. done. Qed.

(** What is left over is no complete event. *)
Lemma drain_rest b lines r : drain b = (lines, None, r) → drain r = ([], None, r).
Proof.
  revert lines. induction b as [b IH] using (induction_ltof1 _ length). unfold ltof in IH.
  intros lines. rewrite drain_unfold. destruct (indexOf [10; 10] b) as [i|] eqn:Hi.
  2: { intros [= <- <-]. by rewrite drain_unfold, Hi. }
  pose proof (indexOf_length _ _ _ Hi) as Hlen. simpl length in Hlen. cbv zeta.
  assert (length (drop (i + 2) b) < length b)%nat as Hlt by (rewrite length_drop; lia).
  destruct (parseSseChunk (take i b)) as [e|]; [|by apply IH].
  destruct (react e) as [line| |o]; [|by apply IH|done].
  destruct (drain (drop (i + 2) b)) as [[lines' [o'|]] r'] eqn:Hd; [done|].
  intros [= <- <-]. by eapply IH.
Qed.

Lemma read_loop_chunks b texts :
  drain b = ([], None, b) →
  read_loop b (Chunk <$> texts) = read_loop b [Chunk (concat texts)].
Proof.
  revert b. induction texts as [|t texts IH]; intros b Hb; cbn [read_loop fmap list_fmap concat].
  - by rewrite app_nil_r, Hb.
  - rewrite app_assoc, (drain_app (b ++ t)). destruct (drain (b ++ t)) as [[lines [o|]] r] eqn:Hd; [done|].
    apply drain_rest in Hd. rewrite IH by done. cbn [read_loop].
    destruct (drain (r ++ concat texts)) as [[lines' [o|]] r'];
      by rewrite ?app_nil_r, <-?app_assoc.
Qed.

(** C9: The outcome of a streamed call does not depend on how the network
    cuts the body: any sequence of reads logs the same lines and settles the
    same way as the whole text in one read. *)
Theorem rpcStream_chunking op scope args status text texts :
  rpcStream (λ _ _, StreamResponse status text (Some (Chunk <$> texts))) op scope args =
  rpcStream (λ _ _, StreamResponse status text (Some [Chunk (concat texts)])) op scope args.
Proof.
  unfold rpcStream. destruct (response_ok status); [|done]. by apply read_loop_chunks.
Qed.

(** ** The server's encoding of an event ([sse_event] of [server/src/rpc.rs]) *)

Definition sse_event (ev : string) (payload : json) : jsstr :=
  js "event: " ++ js ev ++ [10] ++ js "data: " ++ stringify payload ++ [10; 10].

Definition log_event (line : jsstr) : jsstr := sse_event "log" (JObj [(js "line", JStr line)]).

Lemma object_text_trim l :
  stringify (JObj l) ≠ [] ∧ trim (32 :: stringify (JObj l)) = stringify (JObj l).
Proof.
  change (stringify (JObj l)) with (123 :: join [44] (map member_text l) ++ [125]).
  split; [done|]. unfold trim, trimStart, trimEnd. cbn [drop_while].
  change (is_space 32) with true. change (is_space 123) with false. cbv iota.
  rewrite app_comm_cons, reverse_app. change (reverse [125]) with [125]. simpl app.
  rewrite drop_while_id by done.
  change (125 :: reverse (123 :: join [44] (map member_text l)))
    with (reverse [125] ++ reverse (123 :: join [44] (map member_text l))).
  by rewrite <-reverse_app, reverse_involutive.
Qed.

(** A search for a line end skips any other code unit. *)
Lemma indexOf_skip u s : u ≠ 10 → indexOf [10; 10] (u :: s) = S <$> indexOf [10; 10] s.
Proof.
  intros Hu. cbn [indexOf startsWith]. rewrite (proj2 (Z.eqb_neq 10 u)) by congruence. done.
Qed.

Lemma indexOf_line a s :
  10 ∉ a → indexOf [10; 10] (a ++ 10 :: 10 :: s) = Some (length a).
Proof.
  induction a as [|u a IH]; [done|]. intros [Hu Ha]%not_elem_of_cons.
  rewrite <-app_comm_cons, indexOf_skip by congruence. by rewrite (IH Ha).
Qed.

Lemma indexOf_event h d s :
  10 ∉ h → 10 ∉ d → d ≠ [] →
  indexOf [10; 10] (h ++ 10 :: d ++ 10 :: 10 :: s) = Some (length h + 1 + length d)%nat.
Proof.
  intros Hh Hd Hne. induction h as [|u h IH].
  - pose proof (indexOf_line d s Hd) as Hi. destruct d as [|v d]; [done|].
    apply not_elem_of_cons in Hd as [Hv _]. rewrite <-app_comm_cons in *. cbn [app].
    change (indexOf [10; 10] (10 :: v :: d ++ 10 :: 10 :: s)) with
      (if (10 =? 10) && ((10 =? v) && true) then Some 0%nat
       else S <$> indexOf [10; 10] (v :: d ++ 10 :: 10 :: s)).
    rewrite Hi, (proj2 (Z.eqb_neq 10 v)) by congruence. done.
  - apply not_elem_of_cons in Hh as [Hu Hh].
    rewrite <-app_comm_cons, indexOf_skip by congruence. by rewrite (IH Hh).
Qed.

Lemma printable_no_newline s : printable s → 10 ∉ s.
Proof. unfold printable. rewrite Forall_forall. intros Hs H. specialize (Hs 10 H). lia. Qed.

(** One encoded event at the front of the buffer is read back as itself. *)
Lemma drain_event ev l rest :
  10 ∉ js ev → trim (32 :: js ev) = js ev → plain (JObj l) →
  drain (sse_event ev (JObj l) ++ rest) =
  match react {| event := js ev; data := stringify (JObj l) |} with
  | Ignore => drain rest
  | Log line => let '(lines, o, r) := drain rest in (line :: lines, o, r)
  | Settle o => ([], Some o, rest)
  end.
Proof.
  intros Hev Htrim Hl.
  set (h := js "event: " ++ js ev). set (d := js "data: " ++ stringify (JObj l)).
  assert (sse_event ev (JObj l) ++ rest = h ++ 10 :: d ++ 10 :: 10 :: rest) as ->.
  { unfold sse_event, h, d. rewrite <-!app_assoc. done. }
  assert (10 ∉ js "event: ") as He by decide_closed.
  assert (10 ∉ js "data: ") as Hdata by decide_closed.
  pose proof (printable_no_newline _ (stringify_printable _ Hl)) as Htext.
  assert (10 ∉ h) as Hh by (unfold h; rewrite elem_of_app; tauto).
  assert (10 ∉ d) as Hd by (unfold d; rewrite elem_of_app; tauto).
  rewrite drain_unfold, indexOf_event by done. cbv zeta.
  assert (h ++ 10 :: d ++ 10 :: 10 :: rest = (h ++ 10 :: d) ++ [10; 10] ++ rest) as Hsplit
    by (rewrite <-app_assoc; done).
  assert (length h + 1 + length d = length (h ++ 10%Z :: d))%nat as ->
    by (rewrite length_app; simpl; lia).
  rewrite Hsplit, take_app_length, drop_app_add. simpl drop.
  unfold parseSseChunk. rewrite split_app, split_none by done. cbn [foldl].
  change (sse_line (js "message", []) h) with (trim (32 :: js ev), @nil jsstr). rewrite Htrim.
  change (sse_line (js ev, []) d) with (js ev, [trim (32 :: stringify (JObj l))]).
  by rewrite (proj2 (object_text_trim l)).
Qed.

Lemma react_result d :
  react {| event := js "result"; data := d |} =
  match parse d with
  | None => Settle (Throws StreamSyntaxError)
  | Some payload => match error_member payload with
                    | Some _ => Settle (Throws (StreamRpc (protocolError payload)))
                    | None => Settle (Returns payload)
                    end
  end.
Proof. reflexivity. Qed.

Lemma react_log d :
  react {| event := js "log"; data := d |} =
  match parse d with
  | None => Settle (Throws StreamSyntaxError)
  | Some JNull => Settle (Throws StreamTypeError)
  | Some payload => Log (nullish (get "line" payload) (JStr []))
  end.
Proof. reflexivity. Qed.

(** The whole stream of a successful operation, cut into reads in any way. *)
Lemma rpcStream_events op scope args lines result texts :
  Forall wf_str lines → plain (JObj result) → error_member (JObj result) = None →
  concat texts = concat (log_event <$> lines) ++ sse_event "result" (JObj result) →
  rpcStream (λ _ _, StreamResponse 200 None (Some (Chunk <$> texts))) op scope args = (JStr <$> lines, Returns (JObj result)).
Proof.
  intros Hlines Hresult Herror Htexts.
  unfold rpcStream. simpl response_ok. rewrite read_loop_chunks by done. rewrite Htexts.
  enough (drain (concat (log_event <$> lines) ++ sse_event "result" (JObj result))
          = (JStr <$> lines, Some (Returns (JObj result)), [])) as Hd
    by (cbn [read_loop app]; rewrite Hd; done).
  clear Htexts. induction Hlines as [|line lines Hline Hlines IH]; cbn [fmap list_fmap concat app].
  - rewrite <-(app_nil_r (sse_event "result" (JObj result))).
    rewrite drain_event by (done || decide_closed). rewrite react_result, parse_stringify by done.
    by rewrite Herror.
  - rewrite <-app_assoc. unfold log_event at 1.
    assert (plain (JObj [(js "line", JStr line)])) as Hplain.
    { constructor; [decide_closed|]. constructor; [|done].
      split; [apply Forall_forall; intros u Hu; set_unfold; lia|by constructor]. }
    rewrite drain_event by (done || decide_closed). rewrite react_log, parse_stringify by done.
    by rewrite IH.
Qed.

(** C8: Round trip with the server's encoding: the text of the progress
    lines followed by the result event, cut into reads in any way, logs
    exactly those lines in order and returns the result. *)
Theorem rpcStream_round_trip op scope args lines result texts
    (Hlines : Forall wf_str lines) (Hresult : plain (JObj result))
    (Herror : error_member (JObj result) = None)
    (Htexts : concat texts = concat (log_event <$> lines) ++ sse_event "result" (JObj result)) :
  rpcStream (λ _ _, StreamResponse 200 None (Some (Chunk <$> texts))) op scope args =
  (JStr <$> lines, Returns (JObj result)).
Proof. by apply rpcStream_events. Qed.

Lemma rpcStream_round_trip_witness :
  rpcStream (λ _ _, StreamResponse 200 None (Some (Chunk <$>
      [js "event: log"; [10]; take 9 (drop 11 (log_event (js "pull"))); drop 20 (log_event (js "pull"));
       sse_event "result" (JObj [(js "n", JNum (num_of_Z 3))])])))
    (js "create_sandbox") systemScope []
  = ([JStr (js "pull")], Returns (JObj [(js "n", JNum (num_of_Z 3))])).
Proof.
  apply (rpcStream_round_trip _ _ _ [js "pull"] [(js "n", JNum (num_of_Z 3))]).
  - repeat constructor; lia.
  - constructor; [decide_closed|].
    repeat constructor; lia.
  - reflexivity.
  - vm_compute. reflexivity.
Defined.
