(* ===== verification/TerminalText.v ===== *)
(** Removal of terminal control sequences from command output
    ([web/src/lib/terminalText.ts]). The four global regular-expression
    replacements are scanners over code units; the greedy [[^\u0007]*] of the
    first one is modelled with its backtracking. *)
From S2P Require Import Prelude JsText.

Definition ESC : Z := 27.
Definition BEL : Z := 7.

(** ** The regular expressions: the length of the match at the head *)

Fixpoint span (p : Z → bool) (s : jsstr) : nat :=
  match s with
  | u :: s => if p u then S (span p s) else O
  | [] => O
  end.

Definition between (a b u : Z) : bool := (a <=? u) && (u <=? b).

(** The last position of [ESC \] in a text. *)
Fixpoint last_terminator (s : jsstr) : option nat :=
  match s with
  | [] => None
  | u :: s' =>
      match last_terminator s' with
      | Some i => Some (S i)
      | None => match s' with
                | v :: _ => if (u =? ESC) && (v =? 92) then Some 0%nat else None
                | [] => None
                end
      end
  end.

(** [/\u001B\][^\u0007]*(?:\u0007|\u001B\\)/]: the greedy run stops at the
    first [BEL], which then closes the match; without a [BEL] it runs to the
    end and backtracks to the last [ESC \]. *)
Definition OPERATING_SYSTEM_COMMAND (s : jsstr) : option nat :=
  match s with
  | u :: v :: body =>
      if (u =? ESC) && (v =? 93) then
        let run := span (λ w, negb (w =? BEL)) body in
        match drop run body with
        | _ :: _ => Some (run + 3)%nat
        | [] => (λ i, i + 4)%nat <$> last_terminator body
        end
      else None
  | _ => None
  end.

(** [/(?:\u001B\[|\u009B)[0-?]*[ -/]*[@-~]/]: the three classes are disjoint,
    so the greedy runs never give anything back. *)
Definition csi_tail (s : jsstr) : option nat :=
  let p := span (between 48 63) s in
  let q := span (between 32 47) (drop p s) in
  match drop (p + q) s with
  | u :: _ => if between 64 126 u then Some (p + q + 1)%nat else None
  | [] => None
  end.

Definition CONTROL_SEQUENCE (s : jsstr) : option nat :=
  match s with
  | u :: s' =>
      if u =? 155 then S <$> csi_tail s'
      else match s' with
           | v :: s'' => if (u =? ESC) && (v =? 91) then (λ n, n + 2)%nat <$> csi_tail s'' else None
           | [] => None
           end
  | [] => None
  end.

(** [/\u001B[ -/]*[0-~]/]. *)
Definition ESCAPE_SEQUENCE (s : jsstr) : option nat :=
  match s with
  | u :: s' =>
      if u =? ESC then
        let q := span (between 32 47) s' in
        match drop q s' with
        | v :: _ => if between 48 126 v then Some (q + 2)%nat else None
        | [] => None
        end
      else None
  | [] => None
  end.

(** [[\u0000-\u0008\u000B\u000C\u000E-\u001F\u007F-\u009F]]. *)
Definition is_control (u : Z) : bool :=
  between 0 8 u || between 11 12 u || between 14 31 u || between 127 159 u.

Definition NON_TEXT_CONTROL (s : jsstr) : option nat :=
  match s with u :: _ => if is_control u then Some 1%nat else None | [] => None end.

(** [s.replace(re, "")] with the global flag: [skip] code units of the
    current match are still to be dropped. *)
Fixpoint remove_all (re : jsstr → option nat) (skip : nat) (s : jsstr) : jsstr :=
  match s with
  | [] => []
  | u :: s' =>
      match skip with
      | S k => remove_all re k s'
      | O => match re s with
             | Some (S k) => remove_all re k s'
             | _ => u :: remove_all re 0 s'
             end
      end
  end.

Definition stripTerminalControlSequences (output : jsstr) : jsstr :=
  remove_all NON_TEXT_CONTROL 0 (remove_all ESCAPE_SEQUENCE 0
    (remove_all CONTROL_SEQUENCE 0 (remove_all OPERATING_SYSTEM_COMMAND 0 output))).

(** ** Facts *)

Lemma remove_all_sublist re k s : remove_all re k s `sublist_of` s.
Proof.
  revert k. induction s as [|u s IH]; intros k; simpl; [constructor|].
  destruct k as [|k]; [|by constructor].
  destruct (re (u :: s)) as [[|k]|]; by constructor.
Qed.

(** Code units that no expression starts at. *)
Definition is_text (u : Z) : bool := negb (is_control u).

Lemma no_match_text u s :
  is_text u = true →
  OPERATING_SYSTEM_COMMAND (u :: s) = None ∧ CONTROL_SEQUENCE (u :: s) = None ∧
  ESCAPE_SEQUENCE (u :: s) = None ∧ NON_TEXT_CONTROL (u :: s) = None.
Proof.
  intros Hu. unfold is_text in Hu. apply negb_true_iff in Hu.
  assert (u ≠ 27 ∧ u ≠ 155) as [H27 H155] by (split; intros ->; discriminate).
  unfold OPERATING_SYSTEM_COMMAND, CONTROL_SEQUENCE, ESCAPE_SEQUENCE, NON_TEXT_CONTROL, ESC.
  rewrite Hu, !(proj2 (Z.eqb_neq _ _)) by done. by destruct s.
Qed.

Lemma remove_all_text_app (re : jsstr → option nat) a s :
  (∀ u s, is_text u = true → re (u :: s) = None) →
  Forall (λ u, is_text u = true) a → remove_all re 0 (a ++ s) = a ++ remove_all re 0 s.
Proof.
  intros Hre Ha. induction Ha as [|u a Hu _ IH]; simpl; [done|]. by rewrite Hre, IH.
Qed.

(** Leading text passes through unchanged. *)
Lemma strip_text_app a s :
  Forall (λ u, is_text u = true) a →
  stripTerminalControlSequences (a ++ s) = a ++ stripTerminalControlSequences s.
Proof.
  intros Ha. unfold stripTerminalControlSequences.
  rewrite !remove_all_text_app; try done; intros u t Hu; by apply (no_match_text u t) in Hu as (?&?&?&?).
Qed.

Lemma strip_nil : stripTerminalControlSequences [] = [].
Proof. done. Qed.

Lemma remove_control_text s : Forall (λ u, is_text u = true) (remove_all NON_TEXT_CONTROL 0 s).
Proof.
  induction s as [|u s IH]; simpl; [constructor|].
  unfold NON_TEXT_CONTROL. destruct (is_control u) eqn:Hu.
  - exact IH.
  - constructor; [unfold is_text; by rewrite Hu|exact IH].
Qed.

(** Whatever the command printed, the shown text is a subsequence of it
    without any control character other than tab, line feed and carriage
    return, and output without control characters is shown unchanged; so
    stripping twice is the same as stripping once. *)
Theorem strip_sound output :
  stripTerminalControlSequences output `sublist_of` output ∧
  (∀ u, u ∈ stripTerminalControlSequences output → is_control u = false) ∧
  ((∀ u, u ∈ output → is_control u = false) → stripTerminalControlSequences output = output) ∧
  stripTerminalControlSequences (stripTerminalControlSequences output)
  = stripTerminalControlSequences output.
Proof.
  assert (∀ s, (∀ u, u ∈ s → is_control u = false) → stripTerminalControlSequences s = s) as Hid.
  { intros s Hs. rewrite <-(app_nil_r s) at 1. rewrite strip_text_app, strip_nil, app_nil_r; [done|].
    apply Forall_forall. intros u Hu. unfold is_text. by rewrite (Hs u Hu). }
  assert (∀ s u, u ∈ stripTerminalControlSequences s → is_control u = false) as Hclean.
  { intros s u Hu. unfold stripTerminalControlSequences in Hu.
    match type of Hu with _ ∈ remove_all _ _ ?t => pose proof (remove_control_text t) as H end.
    rewrite Forall_forall in H. specialize (H u Hu). unfold is_text in H. by apply negb_true_iff. }
  split_and!; [|apply Hclean|apply Hid|apply Hid, Hclean].
  unfold stripTerminalControlSequences.
  etransitivity; [apply remove_all_sublist|]. etransitivity; [apply remove_all_sublist|].
  etransitivity; apply remove_all_sublist.
Qed.

(** ** Control sequences *)

(** [ESC \[ parameters intermediates final]. *)
Definition csi (params inter : jsstr) (final : Z) : jsstr := ESC :: 91 :: params ++ inter ++ [final].

Lemma span_app p a u s :
  Forall (λ w, p w = true) a → p u = false → span p (a ++ u :: s) = length a.
Proof. intros Ha Hu. induction Ha as [|v a Hv _ IH]; simpl; [by rewrite Hu|]. by rewrite Hv, IH. Qed.

Lemma remove_all_skip re a s : remove_all re (length a) (a ++ s) = remove_all re 0 s.
Proof. induction a as [|u a IH]; simpl; [by destruct s|done]. Qed.

Lemma remove_all_match re k u s :
  re (u :: s) = Some (S k) → remove_all re 0 (u :: s) = remove_all re k s.
Proof. simpl. by intros ->. Qed.

Lemma csi_tail_app params inter final s :
  Forall (λ u, between 48 63 u = true) params → Forall (λ u, between 32 47 u = true) inter →
  between 64 126 final = true →
  csi_tail (params ++ inter ++ final :: s) = Some (length params + length inter + 1)%nat.
Proof.
  intros Hp Hi Hf. unfold csi_tail.
  assert (span (between 48 63) (params ++ inter ++ final :: s) = length params) as ->.
  { unfold between in *. destruct inter as [|v inter].
    - apply span_app; [done|]. bool_to_prop. apply andb_false_iff. right. apply Z.leb_gt. lia.
    - apply Forall_cons in Hi as [Hv _]. apply span_app; [done|]. bool_to_prop.
      apply andb_false_iff. left. apply Z.leb_gt. lia. }
  rewrite drop_app_length. unfold between in *.
  rewrite span_app by (done || (bool_to_prop; apply andb_false_iff; right; apply Z.leb_gt; lia)).
  rewrite app_assoc, <-length_app, drop_app_length, Hf. by rewrite length_app.
Qed.

(** The body of a control sequence is passed over by the first scanner. *)
Lemma osc_skips_csi a s :
  Forall (λ u, (u =? ESC) = false) a →
  remove_all OPERATING_SYSTEM_COMMAND 0 (a ++ s) = a ++ remove_all OPERATING_SYSTEM_COMMAND 0 s.
Proof.
  intros Ha. induction Ha as [|u a Hu _ IH]; [done|]. cbn [app remove_all].
  unfold OPERATING_SYSTEM_COMMAND at 1. rewrite Hu. destruct (a ++ s); by rewrite IH.
Qed.

Lemma osc_other_escape u s :
  u ≠ 93 →
  remove_all OPERATING_SYSTEM_COMMAND 0 (ESC :: u :: s)
  = ESC :: remove_all OPERATING_SYSTEM_COMMAND 0 (u :: s).
Proof.
  intros Hu.
  assert (OPERATING_SYSTEM_COMMAND (ESC :: u :: s) = None) as Hno
    by (unfold OPERATING_SYSTEM_COMMAND; by rewrite (proj2 (Z.eqb_neq u 93))).
  change (remove_all OPERATING_SYSTEM_COMMAND 0 (ESC :: u :: s)) with
    (match OPERATING_SYSTEM_COMMAND (ESC :: u :: s) with
     | Some (S k) => remove_all OPERATING_SYSTEM_COMMAND k (u :: s)
     | _ => ESC :: remove_all OPERATING_SYSTEM_COMMAND 0 (u :: s) end).
  by rewrite Hno.
Qed.

(** A well-formed control sequence (colours, cursor movement) between
    text and further output disappears, and the text on both sides is kept. *)
Theorem strip_control_sequence text params inter final rest
    (Htext : Forall (λ u, is_text u = true) text)
    (Hp : Forall (λ u, between 48 63 u = true) params)
    (Hi : Forall (λ u, between 32 47 u = true) inter)
    (Hf : between 64 126 final = true) :
  stripTerminalControlSequences (text ++ csi params inter final ++ rest)
  = text ++ stripTerminalControlSequences rest.
Proof.
  rewrite strip_text_app by done. f_equal. unfold stripTerminalControlSequences.
  set (tl := remove_all OPERATING_SYSTEM_COMMAND 0 rest). do 2 f_equal.
  assert (remove_all OPERATING_SYSTEM_COMMAND 0 (csi params inter final ++ rest)
          = csi params inter final ++ tl) as ->.
  { unfold csi. rewrite <-!app_comm_cons, osc_other_escape by done. f_equal.
    rewrite app_comm_cons, (osc_skips_csi (91 :: params ++ inter ++ [final])); [done|].
    constructor; [done|]. rewrite !Forall_app. unfold between, ESC in *.
    split_and!; [eapply Forall_impl; [exact Hp|]|eapply Forall_impl; [exact Hi|]|constructor; [|done]];
      try (intros u Hu; simpl in Hu); bool_to_prop; apply Z.eqb_neq; lia. }
  assert (csi params inter final ++ tl = ESC :: 91 :: params ++ inter ++ final :: tl) as ->
    by (unfold csi; cbn [app]; by rewrite <-!app_assoc).
  rewrite (remove_all_match _ (length (91 :: params ++ inter ++ [final]))).
  2: { unfold CONTROL_SEQUENCE. cbn [Z.eqb ESC Pos.eqb andb]. rewrite csi_tail_app by done.
       simpl. f_equal. rewrite !length_app. simpl. lia. }
  assert (91 :: params ++ inter ++ final :: tl = (91 :: params ++ inter ++ [final]) ++ tl) as ->
    by (cbn [app]; by rewrite <-!app_assoc).
  apply remove_all_skip.
Qed.

Lemma strip_control_sequence_witness :
  stripTerminalControlSequences (js "ok " ++ csi (js "1;32") [] 109 ++ js "done") = js "ok done".
Proof.
  rewrite strip_control_sequence; [reflexivity|decide_closed..|reflexivity].
Defined.

(** The greedy expression loses visible output: between two
    operating-system commands closed by [ESC \] (as a terminal hyperlink is
    written) all text is removed when no [BEL] follows. *)
Theorem strip_loses_text_between_commands a b text
    (Ha : BEL ∉ a) (Hb : BEL ∉ b) (Htext : BEL ∉ text) :
  stripTerminalControlSequences
    ((ESC :: 93 :: a ++ [ESC; 92]) ++ text ++ (ESC :: 93 :: b ++ [ESC; 92])) = [].
Proof.
  set (body := a ++ [ESC; 92] ++ text ++ ESC :: 93 :: b).
  assert ((ESC :: 93 :: a ++ [ESC; 92]) ++ text ++ ESC :: 93 :: b ++ [ESC; 92]
          = ESC :: 93 :: body ++ [ESC; 92]) as ->
    by (unfold body; cbn [app]; rewrite <-!app_assoc; cbn [app]; rewrite <-!app_assoc; done).
  assert (BEL ∉ body ++ [ESC; 92]) as Hbel.
  { assert (BEL ∉ [ESC; 92] ∧ BEL ∉ [ESC; 93]) as [? ?] by (split; decide_closed).
    unfold body. set_unfold. naive_solver. }
  assert (∀ s, BEL ∉ s → span (λ w, negb (w =? BEL)) s = length s) as Hspan.
  { induction s as [|u s IH]; [done|]. intros [Hu Hs]%not_elem_of_cons. simpl.
    rewrite (proj2 (Z.eqb_neq u BEL)) by congruence. simpl. by rewrite IH. }
  assert (∀ s, last_terminator (s ++ [ESC; 92]) = Some (length s)) as Hlast.
  { induction s as [|u s IH]; [done|]. cbn [app last_terminator]. by rewrite IH. }
  unfold stripTerminalControlSequences.
  assert (remove_all OPERATING_SYSTEM_COMMAND 0 (ESC :: 93 :: body ++ [ESC; 92]) = []) as ->; [|done].
  rewrite (remove_all_match _ (length (93 :: body ++ [ESC; 92]))).
  2: { unfold OPERATING_SYSTEM_COMMAND. cbn [Z.eqb ESC Pos.eqb andb].
       rewrite Hspan, drop_all, Hlast by done. simpl. f_equal. rewrite length_app. simpl. lia. }
  rewrite <-(app_nil_r (93 :: body ++ [ESC; 92])) at 2. by rewrite remove_all_skip.
Qed.

Lemma strip_loses_text_between_commands_witness :
  stripTerminalControlSequences
    ((ESC :: 93 :: js "8;;http://x" ++ [ESC; 92]) ++ js "link" ++ (ESC :: 93 :: js "8;;" ++ [ESC; 92])) = [].
Proof. apply strip_loses_text_between_commands; decide_closed. Defined.

(** ** Lines of a terminal *)

Lemma remove_all_inert re a s :
  (∀ a1 u a2, a = a1 ++ u :: a2 → re (u :: a2 ++ s) = None) → remove_all re 0 (a ++ s) = a ++ remove_all re 0 s.
Proof.
  induction a as [|u a IH]; intros Hre; [done|]. cbn [app remove_all]. rewrite (Hre [] u a eq_refl).
  f_equal. apply IH. intros a1 v a2 ->. by apply (Hre (u :: a1)).
Qed.

(** Units at which neither kind of sequence begins. *)
Lemma plain_no_match u s : u ≠ ESC → u ≠ 155 →
  OPERATING_SYSTEM_COMMAND (u :: s) = None ∧ CONTROL_SEQUENCE (u :: s) = None ∧ ESCAPE_SEQUENCE (u :: s) = None.
Proof.
  intros He H155. unfold OPERATING_SYSTEM_COMMAND, CONTROL_SEQUENCE, ESCAPE_SEQUENCE.
  rewrite !(proj2 (Z.eqb_neq _ _)) by done. by destruct s.
Qed.

(** A control character by itself, such as a backspace or a bell. *)
Lemma strip_control u s : is_control u = true → u ≠ ESC → u ≠ 155 →
  stripTerminalControlSequences (u :: s) = stripTerminalControlSequences s.
Proof.
  intros Hc He H155. assert (∀ t, OPERATING_SYSTEM_COMMAND (u :: t) = None ∧ CONTROL_SEQUENCE (u :: t) = None ∧ ESCAPE_SEQUENCE (u :: t) = None) as Hno
    by (intros t; by apply plain_no_match).
  unfold stripTerminalControlSequences.
  assert (∀ re t, re (u :: t) = None → remove_all re 0 (u :: t) = u :: remove_all re 0 t) as Hkeep by (intros re t Hre; cbn [remove_all]; by rewrite Hre).
  rewrite (Hkeep OPERATING_SYSTEM_COMMAND), (Hkeep CONTROL_SEQUENCE), (Hkeep ESCAPE_SEQUENCE) by apply Hno.
  cbn [remove_all NON_TEXT_CONTROL]. by rewrite Hc.
Qed.

(** A command closed by the first [BEL], such as the title of a window. *)
Lemma strip_command a s : BEL ∉ a →
  stripTerminalControlSequences (ESC :: 93 :: a ++ BEL :: s) = stripTerminalControlSequences s.
Proof.
  intros Ha. unfold stripTerminalControlSequences.
  assert (remove_all OPERATING_SYSTEM_COMMAND 0 (ESC :: 93 :: a ++ BEL :: s) = remove_all OPERATING_SYSTEM_COMMAND 0 s) as ->; [|done].
  rewrite (remove_all_match _ (length (93 :: a ++ [BEL]))).
  2: { unfold OPERATING_SYSTEM_COMMAND. cbn [Z.eqb ESC Pos.eqb andb].
       rewrite span_app, drop_app_length; [|apply Forall_forall; intros u Hu; apply negb_true_iff, Z.eqb_neq; congruence|done].
       f_equal. cbn [length]. rewrite length_app. cbn [length]. lia. }
  change (93 :: a ++ BEL :: s) with ((93 :: a) ++ BEL :: s).
  replace ((93 :: a) ++ BEL :: s) with ((93 :: a ++ [BEL]) ++ s) by (cbn [app]; by rewrite <- app_assoc).
  apply remove_all_skip.
Qed.

(** [ESC intermediates final], such as the choice of a character set; without
    intermediates it is not the beginning of another kind of sequence. *)
Lemma strip_escape inter final s :
  Forall (λ u, between 32 47 u = true) inter → between 48 126 final = true → (inter = [] → final ≠ 91 ∧ final ≠ 93) →
  stripTerminalControlSequences (ESC :: inter ++ final :: s) = stripTerminalControlSequences s.
Proof.
  intros Hi Hf Hplain.
  assert (∀ u, u ∈ inter ++ [final] → 32 ≤ u ≤ 126) as Hunits.
  { rewrite Forall_forall in Hi. intros u [Hu| ->%list_elem_of_singleton]%elem_of_app; [apply Hi in Hu|]; unfold between in *; bool_to_prop; lia. }
  assert (∀ re t, (∀ x, re (ESC :: x) = None ∨ ∃ v y, x = v :: y ∧ (v = 91 ∨ v = 93)) → (∀ u y, u ≠ ESC → u ≠ 155 → re (u :: y) = None) →
    remove_all re 0 (ESC :: inter ++ final :: t) = ESC :: inter ++ final :: remove_all re 0 t) as Hinert.
  { intros re t Hesc Hno. pose proof (remove_all_inert re (ESC :: inter ++ [final]) t) as H. cbn [app] in H. rewrite <- !app_assoc in H. apply H.
    intros [|v a1] u a2 Heq; cbn [app] in Heq; injection Heq as Hu Heq.
    - subst u a2. destruct (Hesc ((inter ++ [final]) ++ t)) as [?|(v & y & Hv & Hor)]; [done|]. exfalso. destruct inter as [|w inter].
      + cbn in Hv. injection Hv as -> _. destruct (Hplain eq_refl). lia.
      + cbn in Hv. injection Hv as -> _. apply Forall_cons in Hi as [Hw _]. unfold between in Hw. bool_to_prop. lia.
    - specialize (Hunits u ltac:(rewrite Heq; set_solver)). apply Hno; unfold ESC; lia. }
  unfold stripTerminalControlSequences. rewrite (Hinert OPERATING_SYSTEM_COMMAND), (Hinert CONTROL_SEQUENCE).
  - do 1 f_equal. rewrite (remove_all_match _ (length (inter ++ [final]))).
    + rewrite <- (remove_all_skip ESCAPE_SEQUENCE (inter ++ [final])). by rewrite <- app_assoc.
    + unfold ESCAPE_SEQUENCE. cbn [Z.eqb ESC Pos.eqb]. unfold between in *. bool_to_prop.
      rewrite span_app by (done || (bool_to_prop; apply andb_false_iff; right; apply Z.leb_gt; lia)).
      rewrite drop_app_length. rewrite length_app. cbn [length].
      rewrite (proj2 (Z.leb_le _ _)), (proj2 (Z.leb_le _ _)) by lia. cbn. f_equal. lia.
  - intros [|v y]; [by left|]. unfold CONTROL_SEQUENCE. cbn [Z.eqb ESC Pos.eqb andb]. destruct (Z.eqb_spec v 91) as [->|]; [right; eauto|by left].
  - intros u y ? ?. by apply plain_no_match.
  - intros [|v y]; [by left|]. unfold OPERATING_SYSTEM_COMMAND. cbn [Z.eqb ESC Pos.eqb andb]. destruct (Z.eqb_spec v 93) as [->|]; [right; eauto|by left].
  - intros u y ? ?. by apply plain_no_match.
Qed.

(** A line as a terminal would show it: text, and between it colours, cursor
    movements and the like, titles closed by a bell, choices of character sets
    and single control characters, each whole within the line; and the text
    that is left. *)
Inductive terminal_line : jsstr → jsstr → Prop :=
  | line_end : terminal_line [] []
  | line_text u l t : is_text u = true → u ≠ 10 → terminal_line l t → terminal_line (u :: l) (u :: t)
  | line_csi params inter final l t :
      Forall (λ u, between 48 63 u = true) params → Forall (λ u, between 32 47 u = true) inter →
      between 64 126 final = true → terminal_line l t → terminal_line (csi params inter final ++ l) t
  | line_command a l t : BEL ∉ a → 10 ∉ a → terminal_line l t → terminal_line (ESC :: 93 :: a ++ BEL :: l) t
  | line_escape inter final l t :
      Forall (λ u, between 32 47 u = true) inter → between 48 126 final = true → (inter = [] → final ≠ 91 ∧ final ≠ 93) →
      terminal_line l t → terminal_line (ESC :: inter ++ final :: l) t
  | line_control u l t : is_control u = true → u ≠ ESC → u ≠ 155 → terminal_line l t → terminal_line (u :: l) t.

Lemma strip_terminal_line l t rest :
  terminal_line l t → stripTerminalControlSequences (l ++ rest) = t ++ stripTerminalControlSequences rest.
Proof.
  induction 1 as [|u l t Hu Hn _ IH|params inter final l t Hp Hi Hf _ IH|a l t Ha Hn _ IH|inter final l t Hi Hf Hplain _ IH|u l t Hc He H155 _ IH].
  - done.
  - change ((u :: l) ++ rest) with ([u] ++ l ++ rest). rewrite strip_text_app by by constructor. cbn [app]. by rewrite IH.
  - rewrite <- app_assoc. pose proof (strip_control_sequence [] params inter final (l ++ rest)) as Hs. cbn [app] in Hs.
    by rewrite Hs.
  - cbn [app]. rewrite <- app_assoc. cbn [app]. by rewrite strip_command.
  - cbn [app]. rewrite <- app_assoc. cbn [app]. by rewrite strip_escape.
  - cbn [app]. by rewrite strip_control.
Qed.

Lemma terminal_line_feed l t : terminal_line l t → 10 ∉ l ∧ 10 ∉ t.
Proof.
  assert (∀ a b L, Forall (λ u, between a b u = true) L → 10 < a → 10 ∉ L) as Hrange.
  { intros a b L HL Ha Hin. rewrite Forall_forall in HL. apply HL in Hin. unfold between in Hin. bool_to_prop. lia. }
  induction 1 as [|u l t Hu Hn _ [IH1 IH2]|params inter final l t Hp Hi Hf _ [IH1 IH2]|a l t Ha Hn _ [IH1 IH2]|inter final l t Hi Hf Hplain _ [IH1 IH2]|u l t Hc He H155 _ [IH1 IH2]];
    (split; [|first [apply not_elem_of_nil|done|by apply not_elem_of_cons]]).
  - apply not_elem_of_nil.
  - by apply not_elem_of_cons.
  - apply Hrange in Hp, Hi; [|lia..]. unfold between in Hf. bool_to_prop. unfold csi, ESC.
    rewrite !elem_of_app, !elem_of_cons, !elem_of_app, elem_of_cons, elem_of_nil. intuition lia.
  - unfold ESC, BEL in *. rewrite !elem_of_cons, elem_of_app, elem_of_cons. intuition lia.
  - apply Hrange in Hi; [|lia]. unfold between in Hf. bool_to_prop. unfold ESC. rewrite elem_of_cons, elem_of_app, elem_of_cons. intuition lia.
  - apply not_elem_of_cons. split; [|done]. intros <-. discriminate.
Qed.

(** Text without control characters is shown as it is. *)
Lemma terminal_line_text l : 10 ∉ l → Forall (λ u, is_text u = true) l → terminal_line l l.
Proof.
  intros Hn Hl. induction Hl as [|u l Hu _ IH]; [constructor|]. apply not_elem_of_cons in Hn as [? ?]. constructor; auto.
Qed.

Lemma plain_lines ls : Forall (λ l, 10 ∉ l ∧ Forall (λ u, is_text u = true) l) ls → Forall2 terminal_line ls ls.
Proof. induction 1 as [|l ls [Hn Hl] _ IH]; constructor; [by apply terminal_line_text|done]. Qed.
