(* ===== verification/WebStorage.v ===== *)
(** [window.localStorage] as the console uses it: items that are texts, a
    store that may be unavailable, and a quota the browser decides ([fits]). *)
From S2P Require Import Prelude.

Record Storage := { available : bool; items : gmap jsstr jsstr }.

(** [getItem]; it throws when storage is unavailable. *)
Definition getItem (s : Storage) (key : jsstr) : outcome unit (option jsstr) :=
  if available s then Returns (items s !! key) else Throws tt.

(** [setItem]; it throws when storage is unavailable or full. *)
Definition setItem (fits : gmap jsstr jsstr → bool) (s : Storage) (key value : jsstr)
    : outcome unit Storage :=
  if available s && fits (<[key := value]> (items s))
  then Returns {| available := true; items := <[key := value]> (items s) |}
  else Throws tt.

Lemma setItem_get fits s key value s' :
  setItem fits s key value = Returns s' → getItem s' key = Returns (Some value).
Proof.
  unfold setItem, getItem. destruct (_ && _); [|done]. intros [= <-]. simpl. by simplify_map_eq.
Qed.

Lemma setItem_get_ne fits s key key' value s' :
  setItem fits s key value = Returns s' → key ≠ key' → getItem s' key' = getItem s key'.
Proof.
  unfold setItem, getItem. destruct (available s) eqn:Ha; [|done]. simpl.
  destruct (fits _); [|done]. intros [= <-] Hne. simpl. by simplify_map_eq.
Qed.

#[export] Hint Resolve setItem_get : console.
