(* ===== verification/Ledger.v ===== *)
(** The command ledger kept in local storage and the in-memory transcript
    cache ([web/src/pages/sandbox/terminal/ledger.ts]). *)
From S2P Require Import Prelude JsNumber JsText NumText Json Types TerminalText WebStorage.

(** ** Ledger entries *)

Record LedgerEntry := {
  localId : jsstr;
  commandSessionId : option jsstr;
  cmd : jsstr;
  workspaceSessionId : option jsstr;
  autoPublish : bool;
  startedAt : Z;
  entry_status : CommandStatus;
  entry_exitCode : option Z;
  endedAt : option Z;
  inlineOutput : option jsstr;
  entry_publishRejected : bool;
  entry_publishRejectClass : option jsstr;
}.

Definition LEDGER_CAP : nat := 200.

Definition storageKey (sandboxId : jsstr) : jsstr := js "eos-console:ledger:" ++ sandboxId.

(** An entry as the object literal serialises: [null] for [None]. *)
Definition json_opt_str (o : option jsstr) : json := match o with Some s => JStr s | None => JNull end.
Definition json_opt_int (o : option Z) : json := match o with Some z => JNum (num_of_Z z) | None => JNull end.

Definition entry_json (e : LedgerEntry) : json :=
  JObj [(js "localId", JStr (localId e));
        (js "commandSessionId", json_opt_str (commandSessionId e));
        (js "cmd", JStr (cmd e));
        (js "workspaceSessionId", json_opt_str (workspaceSessionId e));
        (js "autoPublish", JBool (autoPublish e));
        (js "startedAt", JNum (num_of_Z (startedAt e)));
        (js "status", JStr (CommandStatus_string (entry_status e)));
        (js "exitCode", json_opt_int (entry_exitCode e));
        (js "endedAt", json_opt_int (endedAt e));
        (js "inlineOutput", json_opt_str (inlineOutput e));
        (js "publishRejected", JBool (entry_publishRejected e));
        (js "publishRejectClass", json_opt_str (entry_publishRejectClass e))].

(** The loaded elements are whatever the array holds: the source casts them
    to entries without checking. *)
Definition loadLedger (s : Storage) (sandboxId : jsstr) : list json :=
  match getItem s (storageKey sandboxId) with
  | Returns (Some raw) =>
      if bool_decide (raw = []) then []
      else match parse raw with
           | Some (JArr l) => l
           | _ => []
           end
  | _ => []
  end.

Definition saveLedger (fits : gmap jsstr jsstr → bool) (s : Storage) (sandboxId : jsstr)
    (entries : list LedgerEntry) : Storage :=
  match setItem fits s (storageKey sandboxId)
          (stringify (JArr (entry_json <$> slice_last LEDGER_CAP entries))) with
  | Returns s' => s'
  | Throws _ => s
  end.

(** [uuid], [now] and [later] are the results of [crypto.randomUUID()] and of
    the two calls of [Date.now()]. *)
Definition entryFromExec (uuid : jsstr) (now later : Z) (command : jsstr)
    (session : option jsstr) (out : CommandOutput) : LedgerEntry :=
  {| localId := uuid;
     commandSessionId := command_session_id out;
     cmd := command;
     workspaceSessionId := match workspace_session_id out with Some w => Some w | None => session end;
     autoPublish := bool_decide (session = None);
     startedAt := now;
     entry_status := out_status out;
     entry_exitCode := out_exit_code out;
     endedAt := if bool_decide (out_status out = running) then None else Some later;
     inlineOutput := if bool_decide (command_session_id out ?? [] ≠ []) then None
                     else Some (stripTerminalControlSequences (output out));
     entry_publishRejected := bool_decide (publish_rejected out = Some true);
     entry_publishRejectClass := publish_reject_class out |}.

Definition entryFromSnapshot (uuid : jsstr) (now : Z) (commandId session : jsstr)
    (command : option jsstr) : LedgerEntry :=
  {| localId := uuid;
     commandSessionId := Some commandId;
     cmd := if bool_decide (command ?? [] = [])
            then js "(running command " ++ commandId ++ 32 :: 8212 :: js " started outside this browser)"
            else command ?? [];
     workspaceSessionId := Some session;
     autoPublish := false;
     startedAt := now;
     entry_status := running;
     entry_exitCode := None;
     endedAt := None;
     inlineOutput := None;
     entry_publishRejected := false;
     entry_publishRejectClass := None |}.

(** ** Transcripts *)

(** [lines] is a JavaScript array: an index never written is a hole ([None]).
    [tailPinned] is absent in a cache of an older shape. *)
Record TranscriptState := {
  lines : list (option jsstr);
  fetchedTo : Z;
  totalLines : Z;
  status : CommandStatus;
  exitCode : option Z;
  publishRejected : bool;
  publishRejectClass : option jsstr;
  transcript_error : option jsstr;
  tailPinned : option bool;
}.

Definition fresh_transcript : TranscriptState :=
  {| lines := []; fetchedTo := 0; totalLines := 0; status := running; exitCode := None;
     publishRejected := false; publishRejectClass := None; transcript_error := None;
     tailPinned := Some true |}.

Definition transcript_key (command sandboxId : jsstr) : jsstr :=
  stringify (JArr [JStr sandboxId; JStr command]).

(** The state and the cache afterwards: the returned object is the cached one. *)
Definition transcriptFor (transcripts : gmap jsstr TranscriptState) (command sandboxId : jsstr)
    : TranscriptState * gmap jsstr TranscriptState :=
  let key := transcript_key command sandboxId in
  let st := transcripts !! key ?? fresh_transcript in
  let st := {| lines := lines st; fetchedTo := fetchedTo st; totalLines := totalLines st;
               status := status st; exitCode := exitCode st; publishRejected := publishRejected st;
               publishRejectClass := publishRejectClass st; transcript_error := transcript_error st;
               tailPinned := Some (tailPinned st ?? true) |} in
  (st, <[key := st]> transcripts).

(** [lines[i] = v] at an index that may be past the end. *)
Definition set_line (i : nat) (v : jsstr) (l : list (option jsstr)) : list (option jsstr) :=
  if bool_decide (i < length l)%nat then <[i := Some v]> l
  else l ++ replicate (i - length l) None ++ [Some v].

(** The loop over [incoming], from the index [i] on. *)
Fixpoint set_lines (i : nat) (incoming : list jsstr) (l : list (option jsstr)) : list (option jsstr) :=
  match incoming with
  | [] => l
  | v :: incoming => set_lines (S i) incoming (set_line i v l)
  end.

Definition absorbOutput (st : TranscriptState) (out : CommandOutput) : TranscriptState :=
  let absorbed := (start_offset out <? end_offset out) && bool_decide (output out ≠ []) in
  let rejected := bool_decide (publish_rejected out = Some true) in
  {| lines := if absorbed
              then set_lines (Z.to_nat (start_offset out))
                     (split 10 (stripTerminalControlSequences (output out))) (lines st)
              else lines st;
     fetchedTo := if absorbed then Z.max (fetchedTo st) (end_offset out) else fetchedTo st;
     totalLines := total_lines out;
     status := out_status out;
     exitCode := out_exit_code out;
     publishRejected := if rejected then true else publishRejected st;
     publishRejectClass := if rejected then publish_reject_class out else publishRejectClass st;
     transcript_error := transcript_error st;
     tailPinned := tailPinned st |}.

(** ** Facts: the ledger in storage *)

(** Texts of code units and numbers that are safe integers. *)
Definition wf_opt_str (o : option jsstr) : Prop := ∀ s, o = Some s → wf_str s.
Definition safe_int (z : Z) : Prop := Z.abs z < 2 ^ 53.
Definition safe_opt_int (o : option Z) : Prop := ∀ z, o = Some z → safe_int z.

Record wf_entry (e : LedgerEntry) : Prop := {
  wf_localId : wf_str (localId e);
  wf_commandSessionId : wf_opt_str (commandSessionId e);
  wf_cmd : wf_str (cmd e);
  wf_workspaceSessionId : wf_opt_str (workspaceSessionId e);
  wf_startedAt : safe_int (startedAt e);
  wf_exitCode : safe_opt_int (entry_exitCode e);
  wf_endedAt : safe_opt_int (endedAt e);
  wf_inlineOutput : wf_opt_str (inlineOutput e);
  wf_rejectClass : wf_opt_str (entry_publishRejectClass e);
}.

Lemma plain_opt_str o : wf_opt_str o → plain (json_opt_str o).
Proof. destruct o; simpl; intros H; [constructor; by apply H|constructor]. Qed.

Lemma plain_opt_int o : safe_opt_int o → plain (json_opt_int o).
Proof. destruct o; simpl; intros H; [constructor; by apply H|constructor]. Qed.

#[export] Hint Resolve plain_opt_str plain_opt_int : console.

Lemma entry_json_plain e : wf_entry e → plain (entry_json e).
Proof.
  intros []. constructor; [decide_closed|].
  rewrite !Forall_cons. cbn [fst snd]. split_and!; try apply wf_js; auto using Forall_nil with console.
  constructor. destruct (entry_status e); apply wf_js.
Qed.

Lemma storageKey_inj a b : storageKey a = storageKey b → a = b.
Proof. apply app_inv_head. Qed.

Lemma getItem_available s key : available s = true → getItem s key = Returns (items s !! key).
Proof. unfold getItem. by intros ->. Qed.

Lemma stringify_array_nonempty l : stringify (JArr l) ≠ [].
Proof. done. Qed.

(** C24: Saving the ledger and loading it back gives the last 200 entries in
    order, exactly as they were; other sandboxes' ledgers are untouched; and
    when the browser refuses the write nothing changes at all. *)
Theorem ledger_round_trip fits s sandboxId entries
    (Hwf : Forall wf_entry entries) :
  let s' := saveLedger fits s sandboxId entries in
  (s' = s ∨ loadLedger s' sandboxId = entry_json <$> slice_last LEDGER_CAP entries) ∧
  (available s = true → (∀ m, fits m = true) →
     loadLedger s' sandboxId = entry_json <$> slice_last LEDGER_CAP entries) ∧
  (∀ other, other ≠ sandboxId → loadLedger s' other = loadLedger s other).
Proof.
  intros s'. unfold s', saveLedger.
  set (kept := entry_json <$> slice_last LEDGER_CAP entries).
  assert (plain (JArr kept)) as Hplain.
  { constructor. unfold kept. apply Forall_fmap. eapply Forall_impl; [|apply entry_json_plain].
    destruct (slice_last_suffix LEDGER_CAP entries) as [k Hk]. rewrite Hk in Hwf.
    by apply Forall_app in Hwf as [_ ?]. }
  assert (∀ s'', setItem fits s (storageKey sandboxId) (stringify (JArr kept)) = Returns s'' →
            loadLedger s'' sandboxId = kept) as Hload.
  { intros s'' Hs. unfold loadLedger. rewrite (setItem_get _ _ _ _ _ Hs).
    rewrite bool_decide_false by apply stringify_array_nonempty. by rewrite parse_stringify. }
  split_and!.
  - destruct (setItem _ _ _ _) eqn:Hs; [right; by apply Hload|by left].
  - intros Ha Hfits. destruct (setItem _ _ _ _) eqn:Hs; [by apply Hload|].
    unfold setItem in Hs. by rewrite Ha, Hfits in Hs.
  - intros other Hne. destruct (setItem _ _ _ _) eqn:Hs; [|done]. unfold loadLedger.
    rewrite (setItem_get_ne _ _ _ (storageKey other) _ _ Hs); [done|].
    intros Heq%storageKey_inj. congruence.
Qed.

Definition example_entry (k : string) : LedgerEntry :=
  entryFromSnapshot (js k) 1700000000000 (js "cmd-1") (js "ws-1") None.

Lemma ledger_round_trip_witness :
  loadLedger (saveLedger (λ _, true) {| available := true; items := ∅ |} (js "sb") [example_entry "a"]) (js "sb")
  = [entry_json (example_entry "a")].
Proof.
  refine (proj1 (proj2 (ledger_round_trip (λ _, true) {| available := true; items := ∅ |} (js "sb")
    [example_entry "a"] _)) eq_refl (λ _, eq_refl)).
  constructor; [|constructor]. constructor; try (intros ? [=]; subst); try decide_closed; discriminate.
Defined.

(** ** Facts: transcripts *)

Lemma transcript_key_inj c s c' s' :
  wf_str c → wf_str s → wf_str c' → wf_str s' →
  transcript_key c s = transcript_key c' s' → c = c' ∧ s = s'.
Proof.
  intros ? ? ? ? Heq. apply stringify_inj in Heq; [by injection Heq| |].
  all: constructor; repeat (constructor; [by constructor|]); constructor.
Qed.

(** The transcript of a command is found again under its own sandbox and
    command, and looking it up never touches the transcript of any other
    pair, even when identifiers contain quotes or separators. *)
Theorem transcriptFor_isolated transcripts c s
    (Hc : wf_str c) (Hs : wf_str s) :
  let '(st, transcripts') := transcriptFor transcripts c s in
  transcriptFor transcripts' c s = (st, transcripts') ∧
  (∀ c' s', wf_str c' → wf_str s' → (c', s') ≠ (c, s) →
     transcripts' !! transcript_key c' s' = transcripts !! transcript_key c' s').
Proof.
  unfold transcriptFor. split.
  - rewrite lookup_insert_eq. simpl. by rewrite insert_insert_eq.
  - intros c' s' Hc' Hs' Hne. apply lookup_insert_ne. intros Heq.
    apply transcript_key_inj in Heq as [-> ->]; done.
Qed.

Lemma transcriptFor_isolated_witness :
  (transcriptFor ∅ (js "c") (js "s")).2 !! transcript_key (js "s") (js "c") = None.
Proof.
  refine (eq_trans (proj2 (transcriptFor_isolated ∅ (js "c") (js "s") _ _) (js "s") (js "c") _ _ _) _);
    [decide_closed..|discriminate|reflexivity].
Defined.

Lemma set_line_length i v l : length (set_line i v l) = (length l `max` S i)%nat.
Proof.
  unfold set_line. case_bool_decide; [rewrite length_insert; lia|].
  rewrite !length_app, length_replicate. simpl. lia.
Qed.

Lemma set_line_lookup i v l : set_line i v l !! i = Some (Some v).
Proof.
  unfold set_line. case_bool_decide; [by apply list_lookup_insert_eq|].
  rewrite lookup_app_r by lia. rewrite lookup_app_r by (rewrite length_replicate; lia).
  rewrite length_replicate. by replace (i - length l - (i - length l))%nat with 0%nat by lia.
Qed.

Lemma set_line_lookup_ne i j v l : i ≠ j → (j < length l)%nat → set_line i v l !! j = l !! j.
Proof.
  intros Hne Hj. unfold set_line. case_bool_decide; [by apply list_lookup_insert_ne|].
  by apply lookup_app_l.
Qed.

(** Writing the window [start ..] of a text over a prefix of its lines that
    reaches at least to [start] extends the prefix. *)
Lemma set_lines_window (full : list jsstr) n start stop :
  (start ≤ n)%nat → (start ≤ stop)%nat → (stop ≤ length full)%nat → (n ≤ length full)%nat →
  set_lines start (drop start (take stop full)) (Some <$> take n full)
  = Some <$> take (n `max` stop) full.
Proof.
  remember (stop - start)%nat as k eqn:Hk. revert start n Hk.
  induction k as [|k IH]; intros start n Hk Hn Hle Hstop Hfull.
  - rewrite drop_ge by (rewrite length_take; lia). simpl. f_equal. f_equal. lia.
  - destruct (lookup_lt_is_Some_2 full start) as [v Hv]; [lia|].
    assert (drop start (take stop full) = v :: drop (S start) (take stop full)) as ->
      by (apply drop_S; rewrite lookup_take_lt by lia; done).
    simpl. assert (set_line start v (Some <$> take n full) = Some <$> take (n `max` S start) full) as ->.
    { apply list_eq. intros j. rewrite list_lookup_fmap.
      destruct (decide (j = start)) as [->|Hne].
      - rewrite set_line_lookup, lookup_take_lt, Hv by lia. done.
      - destruct (decide (j < n)%nat).
        + rewrite set_line_lookup_ne by (rewrite ?length_fmap, ?length_take; lia).
          by rewrite list_lookup_fmap, !lookup_take_lt by lia.
        + rewrite (proj2 (lookup_ge_None (set_line _ _ _) j))
            by (rewrite set_line_length, length_fmap, length_take; lia).
          by rewrite (proj2 (lookup_ge_None (take _ _) j)) by (rewrite length_take; lia). }
    rewrite (IH (S start)) by lia. f_equal. f_equal. lia.
Qed.

(** A page of a transcript: the lines [start_offset .. end_offset) of it. *)
Definition page_of (full : list jsstr) (out : CommandOutput) : Prop :=
  0 ≤ start_offset out < end_offset out ∧ end_offset out ≤ Z.of_nat (length full) ∧
  output out = join [10] (drop (Z.to_nat (start_offset out)) (take (Z.to_nat (end_offset out)) full)) ∧
  output out ≠ [].

(** Pages that leave no gap after the first [n] lines. *)
Fixpoint gapless (full : list jsstr) (n : Z) (pages : list CommandOutput) : Prop :=
  match pages with
  | [] => True
  | p :: pages => page_of full p ∧ start_offset p ≤ n ∧ gapless full (Z.max n (end_offset p)) pages
  end.

(** The lines of a terminal are stripped one by one. *)
Lemma strip_lines ls ts :
  Forall2 terminal_line ls ts → stripTerminalControlSequences (join [10] ls) = join [10] ts.
Proof.
  induction 1 as [|l t ls ts Hl Hls IH]; [done|]. destruct ls as [|l' ls].
  - apply Forall2_nil_inv_l in Hls as ->. cbn [join]. rewrite <- (app_nil_r l), (strip_terminal_line l t []) by done.
    rewrite strip_nil. apply app_nil_r.
  - destruct ts as [|t' ts]; [by apply Forall2_nil_inv_r in Hls|]. rewrite !join_cons by done.
    rewrite (strip_terminal_line l t) by done. f_equal. rewrite strip_text_app by by constructor. by rewrite IH.
Qed.

Lemma absorb_page full shown st out n :
  Forall2 terminal_line full shown → page_of full out → 0 ≤ start_offset out ≤ n → n ≤ Z.of_nat (length full) →
  lines st = Some <$> take (Z.to_nat n) shown → fetchedTo st = n →
  lines (absorbOutput st out) = Some <$> take (Z.to_nat (Z.max n (end_offset out))) shown ∧
  fetchedTo (absorbOutput st out) = Z.max n (end_offset out).
Proof.
  intros Hshown ((Hs & Hlt) & Hend & Hout & Hne) Hstart Hn Hlines Hto. unfold absorbOutput.
  rewrite (proj2 (Z.ltb_lt _ _)), bool_decide_true by done. cbn [andb lines fetchedTo].
  split; [|by rewrite Hto]. rewrite Hlines, Hout. pose proof (Forall2_length _ _ _ Hshown) as Hlen.
  set (window := drop (Z.to_nat (start_offset out)) (take (Z.to_nat (end_offset out)) shown)).
  assert (Forall2 terminal_line (drop (Z.to_nat (start_offset out)) (take (Z.to_nat (end_offset out)) full)) window) as Hw
    by by apply Forall2_drop, Forall2_take.
  rewrite (strip_lines _ _ Hw), split_join.
  - unfold window. rewrite set_lines_window by lia. do 2 f_equal. lia.
  - intros Hnil. apply Hne. rewrite Hout. rewrite Hnil in Hw. by apply Forall2_nil_inv_r in Hw as ->.
  - eapply Forall2_Forall_r; [exact Hw|]. apply Forall_forall. intros l _ t Ht. by apply (terminal_line_feed l).
Qed.

(** Paging a transcript: after any gapless sequence of pages of a text whose
    control sequences do not cross lines, starting from a fresh state, the
    cached lines are exactly what the first [fetchedTo] lines show. *)
Theorem absorbOutput_pages full shown pages
    (Hshown : Forall2 terminal_line full shown) (Hpages : gapless full 0 pages) :
  let st := foldl absorbOutput fresh_transcript pages in
  lines st = Some <$> take (Z.to_nat (fetchedTo st)) shown ∧
  0 ≤ fetchedTo st ≤ Z.of_nat (length full).
Proof.
  assert (∀ st n, 0 ≤ n ≤ Z.of_nat (length full) → gapless full n pages →
    lines st = Some <$> take (Z.to_nat n) shown → fetchedTo st = n →
    let st' := foldl absorbOutput st pages in
    lines st' = Some <$> take (Z.to_nat (fetchedTo st')) shown ∧
    0 ≤ fetchedTo st' ≤ Z.of_nat (length full)) as H;
    [|by apply (H fresh_transcript 0); [lia|..]].
  clear Hpages. induction pages as [|p pages IH]; intros st n Hn Hp Hlines Hto; simpl.
  { rewrite Hto. done. }
  destruct Hp as (Hpage & Hstart & Hrest). pose proof Hpage as ((? & ?) & ? & _).
  destruct (absorb_page full shown st p n) as [Hl' Hto']; [done..|lia|lia|done|done|].
  apply (IH _ (Z.max n (end_offset p))); [lia|done..].
Qed.

Definition example_page (a b : Z) (text : jsstr) : CommandOutput :=
  {| out_status := running; out_exit_code := None; wall_time_seconds := 0;
     command_total_time_seconds := 0; start_offset := a; end_offset := b; total_lines := b;
     original_token_count := 0; output := text; command_session_id := None;
     workspace_session_id := None; publish_rejected := None; publish_reject_class := None |}.

(** A red "a". *)
Definition example_red : jsstr := csi (js "31") [] 109 ++ js "a" ++ csi [] [] 109.

Lemma example_red_line : terminal_line example_red (js "a").
Proof.
  apply line_csi; [decide_closed..|done|]. apply line_text; [done..|].
  rewrite <- (app_nil_r (csi [] [] 109)). apply line_csi; [constructor|constructor|done|constructor].
Qed.

Lemma absorbOutput_pages_witness :
  lines (foldl absorbOutput fresh_transcript
    [example_page 0 2 (example_red ++ 10 :: js "b"); example_page 1 3 (js "b" ++ 10 :: js "c")])
  = [Some (js "a"); Some (js "b"); Some (js "c")].
Proof.
  refine (eq_trans (proj1 (absorbOutput_pages [example_red; js "b"; js "c"] [js "a"; js "b"; js "c"] _ _ _)) _).
  - constructor; [apply example_red_line|]. apply plain_lines. decide_closed.
  - simpl. repeat split; try decide_closed; discriminate.
  - vm_compute. reflexivity.
Defined.
