(* ===== verification/DaemonMetrics.v ===== *)
(** The daemon's own metrics as a bounded history with derived rates
    ([web/src/core/daemonMetrics.ts]). *)
From S2P Require Import Prelude JsNumber JsText NumText Types Observability.

Definition DAEMON_HISTORY_LIMIT : Z := 900.

(** A sample with what was derived from the one before it. *)
Record DaemonMetricPoint := {
  sample : DaemonProcessMetrics;
  sample_period_ms : option Z;
  cpu_percent : option number;
  io_read_bytes_per_second : option number;
  io_write_bytes_per_second : option number;
  context_switches_per_second : option number;
}.

Definition rate (previous current periodMs : option Z) (scale : number) : option number :=
  match previous, current, periodMs with
  | Some previous, Some current, Some periodMs =>
      if periodMs <=? 0 then None
      else let delta := current - previous in
           if 0 <=? delta
           then Some (num_div (num_mul (num_of_Z delta) scale) (num_of_Z periodMs)) else None
  | _, _, _ => None
  end.

Definition contextSwitches (s : option DaemonProcessMetrics) : option Z :=
  match s with
  | Some s => match voluntary_context_switches s, involuntary_context_switches s with
              | Some v, Some i => Some (v + i)
              | _, _ => None
              end
  | None => None
  end.

Definition sameProcess (previous : option DaemonMetricPoint) (s : DaemonProcessMetrics) : bool :=
  match previous with
  | Some p => bool_decide (daemon_pid (sample p) = daemon_pid s) &&
              bool_decide (daemon_start_time_ticks (sample p) = daemon_start_time_ticks s)
  | None => false
  end.

(** 0.1 and 1000. *)
Definition tenth : number := num_of_decimal 1 (-1).
Definition thousand : number := num_of_Z 1000.

Definition deriveDaemonMetric (previous : option DaemonMetricPoint) (s : DaemonProcessMetrics)
    : DaemonMetricPoint :=
  let samplePeriodMs := (λ p, sampled_at_unix_ms s - sampled_at_unix_ms (sample p)) <$> previous in
  let prev (f : DaemonProcessMetrics → option Z) := previous ≫= λ p, f (sample p) in
  {| sample := s;
     sample_period_ms := match samplePeriodMs with
                         | Some period => if 0 <? period then Some period else None
                         | None => None
                         end;
     cpu_percent := rate (prev daemon_cpu_time_us) (daemon_cpu_time_us s) samplePeriodMs tenth;
     io_read_bytes_per_second := rate (prev io_read_bytes) (io_read_bytes s) samplePeriodMs thousand;
     io_write_bytes_per_second := rate (prev io_write_bytes) (io_write_bytes s) samplePeriodMs thousand;
     context_switches_per_second :=
       rate (contextSwitches (sample <$> previous)) (contextSwitches (Some s)) samplePeriodMs thousand |}.

(** The new array, or [None] when the history itself is returned: callers
    compare the two by identity. *)
Definition daemon_metric_next (history : list DaemonMetricPoint) (s : DaemonProcessMetrics) (limit : Z)
    : option (list DaemonMetricPoint) :=
  if negb (available s) || (limit <? 1) then None
  else let newest := last history in
       if match newest with
          | Some l => sampled_at_unix_ms s <=? sampled_at_unix_ms (sample l)
          | None => false
          end then None
       else let previous := if sameProcess newest s then newest else None in
            let point := deriveDaemonMetric previous s in
            let next := if bool_decide (¬ is_Some previous ∧ is_Some newest)
                        then [point] else history ++ [point] in
            Some (if limit <? Z.of_nat (length next)
                  then drop (Z.to_nat (Z.of_nat (length next) - limit)) next else next).

Definition appendDaemonMetric (history : list DaemonMetricPoint) (s : DaemonProcessMetrics) (limit : Z)
    : list DaemonMetricPoint := daemon_metric_next history s limit ?? history.

(** How a new array is made: the sample's point is newer than the last one;
    it is appended for the same process and for an empty history, and starts a
    new history otherwise. *)
Lemma daemon_metric_next_Some h s limit next :
  daemon_metric_next h s limit = Some next →
  ∃ p, sample p = s ∧ available s = true ∧ 1 ≤ limit ∧
       (∀ l, last h = Some l → sampled_at_unix_ms (sample l) < sampled_at_unix_ms s) ∧
       ((next = slice_last (Z.to_nat limit) (h ++ [p]) ∧ (∀ l, last h = Some l → sameProcess (Some l) s = true)) ∨
        (next = [p] ∧ h ≠ [])).
Proof.
  unfold daemon_metric_next. destruct (available s); [|done]. destruct (Z.ltb_spec limit 1); [done|]. cbn [negb orb].
  assert (∀ l : list DaemonMetricPoint, (if limit <? Z.of_nat (length l) then drop (Z.to_nat (Z.of_nat (length l) - limit)) l else l)
               = slice_last (Z.to_nat limit) l) as Hcut.
  { intros l. destruct (Z.ltb_spec limit (Z.of_nat (length l))).
    - unfold slice_last. destruct (Z.to_nat limit) eqn:?; [lia|]. f_equal. lia.
    - symmetry. apply slice_last_all. lia. }
  destruct (last h) as [l|] eqn:Hlast.
  - destruct (Z.leb_spec (sampled_at_unix_ms s) (sampled_at_unix_ms (sample l))); [done|].
    assert (h ≠ []) as Hne by (intros ->; done).
    destruct (sameProcess (Some l) s) eqn:Hsame; cbv beta iota zeta.
    + rewrite bool_decide_false by (intros [Hn _]; apply Hn; eauto). rewrite Hcut. intros [= <-].
      exists (deriveDaemonMetric (Some l) s). split_and!; [done|done|lia|by intros ? [= <-]|]. left. split; [done|]. by intros ? [= <-].
    + rewrite bool_decide_true by (split; [by intros [? ?]|eauto]). rewrite Hcut. intros [= <-].
      exists (deriveDaemonMetric None s). split_and!; [done|done|lia|by intros ? [= <-]|]. right. split; [|done].
      apply slice_last_all. cbn. lia.
  - cbn [sameProcess]. cbv beta iota zeta. rewrite bool_decide_false by (intros [_ [? ?]]; done).
    rewrite Hcut. intros [= <-]. exists (deriveDaemonMetric None s). split_and!; [done|done|lia|done|]. by left.
Qed.

(** ** The invariant of a history *)

(** The daemon process a point belongs to. *)
Definition process_of (p : DaemonMetricPoint) : Z * option Z :=
  (daemon_pid (sample p), daemon_start_time_ticks (sample p)).

Definition rate_ok (r : option number) : Prop := ∀ x, r = Some x → nonneg x = true.

Record point_ok (p : DaemonMetricPoint) : Prop := {
  point_available : available (sample p) = true;
  point_time : 0 ≤ sampled_at_unix_ms (sample p) < 2 ^ 53;
  point_period : ∀ d, sample_period_ms p = Some d → 0 < d;
  point_cpu : rate_ok (cpu_percent p);
  point_read : rate_ok (io_read_bytes_per_second p);
  point_write : rate_ok (io_write_bytes_per_second p);
  point_switches : rate_ok (context_switches_per_second p);
}.

(** Samples of one daemon process, strictly ordered in time, within the limit. *)
Record history_ok (limit : Z) (h : list DaemonMetricPoint) : Prop := {
  history_points : Forall point_ok h;
  history_ordered : StronglySorted (λ p q, sampled_at_unix_ms (sample p) < sampled_at_unix_ms (sample q)) h;
  history_process : ∀ p q, p ∈ h → q ∈ h → process_of p = process_of q;
  history_bounded : Z.of_nat (length h) ≤ limit;
}.

Lemma rate_nonneg a b period scale :
  (∀ p, period = Some p → p < 2 ^ 53) → isFinite scale = true → num_ltb num_zero scale = true →
  rate_ok (rate a b period scale).
Proof.
  intros Hp Hf Hpos x. unfold rate. destruct a as [a|], b as [b|], period as [p|]; try done.
  destruct (Z.leb_spec p 0); [done|]. destruct (Z.leb_spec 0 (b - a)); [|done]. intros [= <-].
  specialize (Hp p eq_refl). apply num_div_nonneg.
  - apply num_mul_pos_nonneg; auto using num_of_Z_nonneg.
  - apply num_of_Z_finite. lia.
  - by apply num_of_Z_pos.
Qed.

Lemma deriveDaemonMetric_ok previous s :
  available s = true → 0 ≤ sampled_at_unix_ms s < 2 ^ 53 →
  (∀ p, previous = Some p → point_ok p) →
  point_ok (deriveDaemonMetric previous s).
Proof.
  intros Ha Ht Hp.
  assert (∀ d, (λ p, sampled_at_unix_ms s - sampled_at_unix_ms (sample p)) <$> previous = Some d → d < 2 ^ 53) as Hd.
  { intros d. destruct previous as [p|]; [|done]. intros [= <-].
    destruct (point_time p (Hp p eq_refl)). lia. }
  split; simpl; try (apply rate_nonneg; [exact Hd|done|vm_compute; done]); [done|done|].
  intros d. destruct (_ <$> previous) as [period|]; [|done]. destruct (Z.ltb_spec 0 period); [|done].
  by intros [= <-].
Qed.

Lemma StronglySorted_snoc {A} (R : A → A → Prop) l x :
  StronglySorted R l → (∀ y, y ∈ l → R y x) → StronglySorted R (l ++ [x]).
Proof.
  intros Hl Hx. apply StronglySorted_app_2; [|done|by repeat constructor].
  intros y z Hy ->%list_elem_of_singleton. auto.
Qed.

Lemma StronglySorted_drop {A} (R : A → A → Prop) n l :
  StronglySorted R l → StronglySorted R (drop n l).
Proof. intros Hl. rewrite <-(take_drop n l) in Hl. by apply StronglySorted_app_1_r in Hl. Qed.

Lemma StronglySorted_last {A} (R : A → A → Prop) l x y :
  StronglySorted R l → last l = Some x → y ∈ l → y = x ∨ R y x.
Proof.
  intros Hl Hx Hy. apply last_Some in Hx as [l' ->]. apply StronglySorted_app in Hl as (Hr & _ & _).
  apply elem_of_app in Hy as [Hy|Hy%list_elem_of_singleton]; [right; apply Hr; set_solver|by left].
Qed.

(** Dropping the oldest points keeps the invariant. *)
Lemma history_ok_cut limit h :
  1 ≤ limit → Forall point_ok h →
  StronglySorted (λ p q, sampled_at_unix_ms (sample p) < sampled_at_unix_ms (sample q)) h →
  (∀ p q, p ∈ h → q ∈ h → process_of p = process_of q) →
  history_ok limit (if limit <? Z.of_nat (length h)
                    then drop (Z.to_nat (Z.of_nat (length h) - limit)) h else h).
Proof.
  intros Hl Hp Hs Hproc. destruct (Z.ltb_spec limit (Z.of_nat (length h))); split; try done.
  - by apply Forall_drop.
  - by apply StronglySorted_drop.
  - intros p q Hip Hiq. apply Hproc; by eapply subseteq_drop.
  - rewrite length_drop. lia.
Qed.

Lemma history_ok_single limit point : 1 ≤ limit → point_ok point → history_ok limit [point].
Proof.
  intros Hlim Hpoint. split; [by apply Forall_singleton|by repeat constructor| |simpl; lia].
  by intros p q ->%list_elem_of_singleton ->%list_elem_of_singleton.
Qed.

(** Appending the point of a newer sample of the same process. *)
Lemma history_ok_append limit history l point :
  1 ≤ limit → history_ok limit history → last history = Some l → point_ok point →
  sampled_at_unix_ms (sample l) < sampled_at_unix_ms (sample point) → process_of point = process_of l →
  history_ok limit (if limit <? Z.of_nat (length (history ++ [point]))
                    then drop (Z.to_nat (Z.of_nat (length (history ++ [point])) - limit)) (history ++ [point])
                    else history ++ [point]).
Proof.
  intros Hlim [Hpts Hord Hproc Hlen] Hlast Hpoint Hlt Hps.
  assert (l ∈ history) as Hl by (apply last_Some in Hlast as [h ->]; set_solver).
  apply history_ok_cut; [lia|by apply Forall_app_2, Forall_singleton|..].
  - apply StronglySorted_snoc; [done|]. intros y Hy.
    destruct (StronglySorted_last _ _ _ _ Hord Hlast Hy) as [->|?]; simpl in *; lia.
  - assert (∀ p, p ∈ history ++ [point] → process_of p = process_of l) as Hall.
    { intros p [Hp|Hp%list_elem_of_singleton]%elem_of_app; [by apply Hproc|by subst p]. }
    intros p q Hp%Hall Hq%Hall. congruence.
Qed.

(** A capture stays well formed: from a well-formed history any sample
    leaves a history of one process, strictly increasing in time, within the
    limit, with non-negative rates. An unavailable or stale sample changes
    nothing; the sample of a restarted daemon starts a new history; any other
    sample is appended, the oldest point being dropped at the limit. *)
Theorem appendDaemonMetric_ok history s limit
    (Hok : history_ok limit history) (Ht : 0 ≤ sampled_at_unix_ms s < 2 ^ 53) :
  history_ok limit (appendDaemonMetric history s limit) ∧
  (available s = true → 1 ≤ limit →
   (∀ l, last history = Some l → sampled_at_unix_ms (sample l) < sampled_at_unix_ms s) →
   ∃ point, sample point = s ∧
     appendDaemonMetric history s limit =
     match last history with
     | Some l => if sameProcess (Some l) s
                 then drop (Z.to_nat (Z.of_nat (length history) + 1 - limit)) (history ++ [point])
                 else [point]
     | None => [point]
     end).
Proof.
  unfold appendDaemonMetric, daemon_metric_next.
  destruct (available s) eqn:Ha; cbn [negb orb]; [|done].
  destruct (Z.ltb_spec limit 1); cbv beta iota zeta; [split; [done|lia]|].
  destruct Hok as [Hpts Hord Hproc Hlen].
  destruct (last history) as [l|] eqn:Hlast.
  - assert (l ∈ history) as Hl by (apply last_Some in Hlast as [h ->]; set_solver).
    destruct (Z.leb_spec (sampled_at_unix_ms s) (sampled_at_unix_ms (sample l))) as [Hle|Hlt]; cbv beta iota zeta.
    { split; [done|]. intros _ _ Hlt. specialize (Hlt l eq_refl). lia. }
    assert (point_ok l) as Hpl by (rewrite Forall_forall in Hpts; auto).
    destruct (sameProcess (Some l) s) eqn:Hsame.
    + rewrite bool_decide_false by (intros [Hn _]; apply Hn; eauto). cbn [default].
      set (point := deriveDaemonMetric (Some l) s).
      assert (point_ok point) as Hpoint by (apply deriveDaemonMetric_ok; [done..|by intros ? [= <-]]).
      assert (process_of l = (daemon_pid s, daemon_start_time_ticks s)) as Hps
        by (simpl in Hsame; bool_to_prop; unfold process_of; congruence).
      split.
      * by apply (history_ok_append limit history l).
      * intros _ _ _. exists point. split; [done|]. rewrite length_app. simpl length.
        destruct (Z.ltb_spec limit (Z.of_nat (length history + 1))).
        -- by replace (Z.to_nat (Z.of_nat (length history) + 1 - limit))
             with (Z.to_nat (Z.of_nat (length history + 1) - limit)) by lia.
        -- by replace (Z.to_nat (Z.of_nat (length history) + 1 - limit)) with 0%nat by lia.
    + rewrite bool_decide_true by (split; [by intros [? ?]|eauto]). cbn [default].
      set (point := deriveDaemonMetric None s).
      assert (point_ok point) as Hpoint by (by apply deriveDaemonMetric_ok).
      rewrite (proj2 (Z.ltb_ge _ _)) by (simpl; lia). split; [by apply history_ok_single|by exists point].
  - apply last_None in Hlast as ->. cbn [last sameProcess].
    set (point := deriveDaemonMetric None s).
    assert (point_ok point) as Hpoint by (by apply deriveDaemonMetric_ok).
    rewrite bool_decide_false by (intros [_ [? ?]]; done). cbn [app].
    rewrite (proj2 (Z.ltb_ge _ _)) by (simpl; lia). split; [by apply history_ok_single|by exists point].
Qed.

Definition example_sample_with (resident : option Z) (pid t cpu : Z) : DaemonProcessMetrics :=
  {| available := true; daemon_error := None; sampled_at_unix_ms := t; daemon_pid := pid;
     daemon_name := None; daemon_state := None; virtual_memory_bytes := None;
     daemon_resident_memory_bytes := resident; peak_resident_memory_bytes := None;
     proportional_set_size_bytes := None; unique_set_size_bytes := None; private_dirty_bytes := None;
     anonymous_huge_pages_bytes := None; anonymous_memory_bytes := None; file_memory_bytes := None;
     shared_memory_bytes := None; data_memory_bytes := None; swap_bytes := None;
     daemon_cpu_time_us := Some cpu; daemon_start_time_ticks := Some 7; thread_count := None;
     file_descriptor_count := None; io_read_bytes := None; io_write_bytes := None;
     read_syscalls := None; write_syscalls := None; voluntary_context_switches := None;
     involuntary_context_switches := None; daemon_cgroup_memberships := []; cgroup_path := None;
     daemon_warnings := []; runtime_usage := None; ownership := None |}.

Definition example_sample : Z → Z → Z → DaemonProcessMetrics := example_sample_with None.

Lemma appendDaemonMetric_ok_witness :
  history_ok 2 (appendDaemonMetric [] (example_sample 1 1000 50) 2).
Proof.
  refine (proj1 (appendDaemonMetric_ok [] (example_sample 1 1000 50) 2 _ _)).
  - split; [constructor|constructor|intros p q Hp; by apply not_elem_of_nil in Hp|simpl; lia].
  - simpl. lia.
Defined.

Example appendDaemonMetric_rates :
  (λ p, (sample_period_ms p, option_map num_to_js (cpu_percent p))) <$>
  appendDaemonMetric (appendDaemonMetric [] (example_sample 1 1000 50) 5) (example_sample 1 3000 1050) 5
  = [(None, None); (Some 2000, Some (js "0.05"))].
Proof. vm_compute. done. Qed.
