(* ===== verification/SandboxClusters.v ===== *)
(** The registry of sandbox clusters ([web/src/core/sandboxClusters.ts]):
    clusters made from a create result, their persistence in local storage
    and in the server's registry, merging, and resolving them against the
    sandboxes that exist. *)
From S2P Require Import Prelude JsNumber JsText Json JsCollections Types WebStorage.

Definition STORAGE_KEY : jsstr := js "ephemeral-sandbox-console:sandbox-clusters:v1".

Record SandboxClusterRecord := {
  cluster_id : jsstr;
  memberIds : list jsstr;
  cluster_workspaceRoot : jsstr;
  createdAt : jsstr;
}.

#[export] Instance SandboxClusterRecord_eq_dec : EqDecision SandboxClusterRecord.
Proof. solve_decision. Defined.

Record ResolvedSandboxCluster := {
  cluster : SandboxClusterRecord;
  members : list SandboxRecord;
}.

(** ** Clusters from a create result *)

(** [typeof v === "string"], with the string. *)
Definition as_string (v : option json) : option jsstr :=
  match v with Some (JStr s) => Some s | _ => None end.

(** [isSandboxRecord]: the identifier and workspace root of a value that has
    the three string properties. *)
Definition isSandboxRecord (v : json) : option (jsstr * jsstr) :=
  match as_string (get "id" v), as_string (get "workspace_root" v), as_string (get "state" v) with
  | Some i, Some root, Some _ => Some (i, root)
  | _, _, _ => None
  end.

Definition recordsFromCreateResult (result : json) : list (jsstr * jsstr) :=
  match get "sandboxes" result with
  | Some (JArr l) => omap isSandboxRecord l
  | _ => match isSandboxRecord result with Some r => [r] | None => [] end
  end.

(** [a || b || c] of strings; the first part of a split always exists. *)
Definition clusterSuffix (sandboxId : jsstr) : jsstr :=
  let normalized := if startsWith (js "eos-") sandboxId then drop 4 sandboxId else sandboxId in
  let first := hd [] (split 45 normalized) in
  if bool_decide (first ≠ []) then first
  else if bool_decide (take 8 normalized ≠ []) then take 8 normalized else js "batch".

Definition clusterFromCreateResult (result : json) (now : jsstr) (allowSingleMember : bool)
    : option SandboxClusterRecord :=
  let records := recordsFromCreateResult result in
  if (length records <? (if allowSingleMember then 1 else 2))%nat then None
  else match records with
       | (i, root) :: _ =>
           Some {| cluster_id := js "cluster-" ++ clusterSuffix i; memberIds := records.*1;
                   cluster_workspaceRoot := root; createdAt := now |}
       | [] => None
       end.

(** ** Reading and writing the registry *)

(** [isClusterRecord], with the record whose properties it checked. *)
Definition isClusterRecord (v : json) : option SandboxClusterRecord :=
  match as_string (get "id" v), get "memberIds" v,
        as_string (get "workspaceRoot" v), as_string (get "createdAt" v) with
  | Some i, Some (JArr ids), Some root, Some created =>
      if bool_decide (ids = []) then None
      else match mapM (λ v, as_string (Some v)) ids with
           | Some strings => Some {| cluster_id := i; memberIds := strings;
                                     cluster_workspaceRoot := root; createdAt := created |}
           | None => None
           end
  | _, _, _, _ => None
  end.

Definition parseSandboxClusters (value : option jsstr) : list SandboxClusterRecord :=
  match value with
  | None => []
  | Some text =>
      if bool_decide (text = []) then []
      else match parse text with
           | Some (JArr l) => omap isClusterRecord l
           | _ => []
           end
  end.

Definition readSandboxClusters (s : Storage) : list SandboxClusterRecord :=
  match getItem s STORAGE_KEY with
  | Returns value => parseSandboxClusters value
  | Throws _ => []
  end.

Definition cluster_json (c : SandboxClusterRecord) : json :=
  JObj [(js "id", JStr (cluster_id c)); (js "memberIds", JArr (JStr <$> memberIds c));
        (js "workspaceRoot", JStr (cluster_workspaceRoot c)); (js "createdAt", JStr (createdAt c))].

(** [setItem] of the whole registry; a refused write is ignored. The flag
    says whether the change event is dispatched. *)
Definition write_clusters (fits : gmap jsstr jsstr → bool) (s : Storage)
    (clusters : list SandboxClusterRecord) : Storage * bool :=
  match setItem fits s STORAGE_KEY (stringify (JArr (cluster_json <$> clusters))) with
  | Returns s' => (s', true)
  | Throws _ => (s, false)
  end.

(** ** Merging *)

Definition conflicts (c candidate : SandboxClusterRecord) : bool :=
  bool_decide (cluster_id candidate = cluster_id c) ||
  js_some (λ m, bool_decide (m ∈ memberIds c)) (memberIds candidate).

Definition merge_step (clusters : list SandboxClusterRecord) (c : SandboxClusterRecord)
    : list SandboxClusterRecord :=
  js_filter (λ candidate, negb (conflicts c candidate)) clusters ++ [c].

Definition mergeSandboxClusters (first second : list SandboxClusterRecord)
    : list SandboxClusterRecord := foldl merge_step first second.

(** ** Talking to the server's registry *)

(** What [fetch] settles with: the status and the parsed body ([None] when
    [response.json()] is rejected). *)
Inductive cluster_reply := ReplyRejected | Reply (status : Z) (body : option json).

Definition reply_ok (status : Z) : bool := (200 <=? status) && (status <=? 299).

Definition persistSandboxCluster (reply : cluster_reply) : bool :=
  match reply with ReplyRejected => false | Reply status _ => reply_ok status end.

(** The clusters shown, and those posted to the server as the migration of
    an earlier, origin-local registry. Reading a property of a [null] body
    throws, which the caller catches. *)
Definition listSandboxClusters (s : Storage) (reply : cluster_reply)
    : list SandboxClusterRecord * list SandboxClusterRecord :=
  let local := readSandboxClusters s in
  match reply with
  | Reply status (Some body) =>
      if negb (reply_ok status) then (local, [])
      else match body with
           | JNull => (local, [])
           | _ =>
               let clusters := match get "clusters" body with
                               | None | Some JNull => JArr []
                               | Some v => v
                               end in
               let remote := parseSandboxClusters (Some (stringify clusters)) in
               (mergeSandboxClusters remote local, local)
           end
  | _ => (local, [])
  end.

(** The registered cluster, the storage afterwards, and whether listeners are
    told; the post to the server does not change the result. *)
Definition registerSandboxCluster (fits : gmap jsstr jsstr → bool) (s : Storage)
    (result : json) (now : jsstr) (allowSingleMember : bool)
    : option SandboxClusterRecord * Storage * bool :=
  match clusterFromCreateResult result now allowSingleMember with
  | None => (None, s, false)
  | Some c =>
      let '(s', told) := write_clusters fits s (mergeSandboxClusters (readSandboxClusters s) [c]) in
      (Some c, s', told)
  end.

(** A rejected or refused deletion throws and leaves the storage as it is. *)
Definition removeSandboxCluster (fits : gmap jsstr jsstr → bool) (s : Storage)
    (clusterId : jsstr) (reply : cluster_reply) : outcome unit Storage :=
  match reply with
  | ReplyRejected => Throws tt
  | Reply status _ =>
      if negb (reply_ok status) then Throws tt
      else Returns (write_clusters fits s
             (js_filter (λ c, negb (bool_decide (cluster_id c = clusterId))) (readSandboxClusters s))).1
  end.

(** ** Resolving *)

(** One cluster of the registry: its live members that no earlier cluster took. *)
Definition resolve_step (byId : gmap jsstr SandboxRecord)
    (acc : list ResolvedSandboxCluster * gset jsstr) (c : SandboxClusterRecord)
    : list ResolvedSandboxCluster * gset jsstr :=
  let '(clusters, clustered) := acc in
  let live := js_filter (λ r, negb (bool_decide (id r ∈ clustered)))
                (omap (λ i, byId !! i) (js_set (memberIds c))) in
  if bool_decide (live = []) then acc
  else (clusters ++ [{| cluster := c; members := live |}], clustered ∪ list_to_set (id <$> live)).

Definition resolveSandboxClusters (records : list SandboxRecord) (registry : list SandboxClusterRecord)
    : list ResolvedSandboxCluster * list SandboxRecord :=
  let byId := js_map ((λ r, (id r, r)) <$> records) in
  let '(clusters, clustered) := foldl (resolve_step byId) ([], ∅) registry in
  (clusters, js_filter (λ r, negb (bool_decide (id r ∈ clustered))) records).

(** ** Facts: merging *)

(** A registry in which no two clusters share an identifier or a member. *)
Definition disjoint_registry (l : list SandboxClusterRecord) : Prop :=
  ∀ i j c d, l !! i = Some c → l !! j = Some d → i ≠ j → conflicts c d = false.

Lemma conflicts_sym c d : conflicts c d = conflicts d c.
Proof.
  unfold conflicts. f_equal; [by apply bool_decide_ext|].
  apply eq_true_iff_eq. rewrite !js_some_exists.
  split; intros (m & Hm & ?%bool_decide_eq_true); exists m; by rewrite bool_decide_eq_true.
Qed.

Lemma merge_step_elem l c x : x ∈ merge_step l c ↔ x = c ∨ (x ∈ l ∧ conflicts c x = false).
Proof.
  unfold merge_step. rewrite elem_of_app, list_elem_of_singleton, js_filter_elem, negb_true_iff. tauto.
Qed.

Lemma disjoint_registry_cons c l :
  disjoint_registry (c :: l) ↔ (∀ d, d ∈ l → conflicts c d = false) ∧ disjoint_registry l.
Proof.
  split.
  - intros H. split.
    + intros d [j Hj]%list_elem_of_lookup. by apply (H 0%nat (S j)).
    + intros i j ? ? ? ? ?. apply (H (S i) (S j)); [done..|congruence].
  - intros [Hc Hl] [|i] [|j] x y Hx Hy Hne; simplify_eq/=.
    + apply Hc. by eapply list_elem_of_lookup_2.
    + rewrite conflicts_sym. apply Hc. by eapply list_elem_of_lookup_2.
    + apply (Hl i j); [done..|congruence].
Qed.

Lemma disjoint_registry_nil : disjoint_registry [].
Proof. intros ? ? ? ? [=]. Qed.

Lemma disjoint_registry_single c : disjoint_registry [c].
Proof. apply disjoint_registry_cons. split; [set_solver|apply disjoint_registry_nil]. Qed.

Lemma disjoint_registry_snoc l c :
  disjoint_registry l → (∀ d, d ∈ l → conflicts c d = false) → disjoint_registry (l ++ [c]).
Proof.
  induction l as [|x l IH]; intros Hl Hc; simpl.
  - apply disjoint_registry_cons. split; [set_solver|apply disjoint_registry_nil].
  - apply disjoint_registry_cons in Hl as [Hx Hl]. apply disjoint_registry_cons. split.
    + intros d [Hd| ->%list_elem_of_singleton]%elem_of_app; [by apply Hx|].
      rewrite conflicts_sym. apply Hc. set_solver.
    + apply IH; [done|]. intros d Hd. apply Hc. set_solver.
Qed.

Lemma disjoint_registry_filter p l : disjoint_registry l → disjoint_registry (js_filter p l).
Proof.
  induction l as [|x l IH]; [done|]. intros [Hx Hl]%disjoint_registry_cons. simpl.
  destruct (p x); [|by apply IH]. apply disjoint_registry_cons. split; [|by apply IH].
  intros d [Hd _]%js_filter_elem. by apply Hx.
Qed.

Lemma merge_step_disjoint l c : disjoint_registry l → disjoint_registry (merge_step l c).
Proof.
  intros Hl. apply disjoint_registry_snoc; [by apply disjoint_registry_filter|].
  intros d [_ ?%negb_true_iff]%js_filter_elem. done.
Qed.

Lemma merge_elem second : ∀ first x,
  x ∈ mergeSandboxClusters first second ↔
  (x ∈ first ∧ ∀ d, d ∈ second → conflicts d x = false) ∨
  ∃ s1 s2, second = s1 ++ x :: s2 ∧ ∀ d, d ∈ s2 → conflicts d x = false.
Proof.
  induction second as [|c second IH]; intros first x; cbn [mergeSandboxClusters foldl].
  - split; [intros Hx; left; split; [done|set_solver]|].
    intros [[? _]|([|] & ? & ? & _)]; done.
  - fold (mergeSandboxClusters (merge_step first c) second). rewrite IH, merge_step_elem. split.
    + intros [[[->|[Hx Hc]] Hs]|(s1 & s2 & -> & Hs)].
      * right. by exists [], second.
      * left. split; [done|]. intros d [->|?]%elem_of_cons; auto.
      * right. by exists (c :: s1), s2.
    + intros [[Hx Hs]|([|y s1] & s2 & [= -> ->] & Hs)].
      * left. split; [right; split; [done|apply Hs; set_solver]|]. intros d Hd. apply Hs. set_solver.
      * left. auto.
      * right. eauto.
Qed.

(** Merging keeps a registry free of conflicts, whatever is merged in, and
    decides every conflict for the newer cluster: a cluster survives exactly
    when no later one has its identifier or one of its members. *)
Theorem mergeSandboxClusters_spec first second
    (Hfirst : disjoint_registry first) :
  disjoint_registry (mergeSandboxClusters first second) ∧
  (∀ c, c ∈ mergeSandboxClusters first second ↔
     (c ∈ first ∧ ∀ d, d ∈ second → conflicts d c = false) ∨
     ∃ s1 s2, second = s1 ++ c :: s2 ∧ ∀ d, d ∈ s2 → conflicts d c = false).
Proof.
  split; [|apply merge_elem].
  revert first Hfirst. induction second as [|c second IH]; intros first Hfirst; [done|].
  apply IH. by apply merge_step_disjoint.
Qed.

Definition example_cluster (i : string) (ids : list string) : SandboxClusterRecord :=
  {| cluster_id := js i; memberIds := js <$> ids; cluster_workspaceRoot := js "/w"; createdAt := js "t" |}.

Lemma mergeSandboxClusters_spec_witness :
  let a := example_cluster "cluster-a" ["1"; "2"]%string in
  let b := example_cluster "cluster-b" ["2"; "3"]%string in
  a ∉ mergeSandboxClusters [a] [b].
Proof.
  intros a b Ha.
  apply (proj2 (mergeSandboxClusters_spec [a] [b] (disjoint_registry_single a))) in Ha.
  destruct Ha as [[_ Hd]|([|x s1] & s2 & Heq & _)].
  - specialize (Hd b). assert (conflicts b a = true) as Ht by decide_closed.
    rewrite Hd in Ht; [done|set_solver].
  - discriminate Heq.
  - injection Heq as _ Heq. by destruct s1.
Defined.

(** ** Facts: the stored registry *)

Record wf_cluster (c : SandboxClusterRecord) : Prop := {
  wf_cluster_id : wf_str (cluster_id c);
  wf_memberIds : Forall wf_str (memberIds c);
  wf_nonempty : memberIds c ≠ [];
  wf_cluster_root : wf_str (cluster_workspaceRoot c);
  wf_createdAt : wf_str (createdAt c);
}.

Lemma cluster_json_plain c : wf_cluster c → plain (cluster_json c).
Proof.
  intros []. constructor; [decide_closed|].
  rewrite !Forall_cons. cbn [fst snd]. split_and!; auto using Forall_nil with console.
  constructor. apply Forall_fmap. eapply Forall_impl; [done|]. by constructor.
Qed.

Lemma as_string_members (ids : list jsstr) :
  mapM (λ v, as_string (Some v)) (JStr <$> ids) = Some ids.
Proof. induction ids as [|i ids IH]; [done|]. cbn. cbn in IH. by rewrite IH. Qed.

Lemma isClusterRecord_json c : wf_cluster c → isClusterRecord (cluster_json c) = Some c.
Proof.
  intros [_ _ Hne _ _]. destruct c as [i ids root t]. unfold isClusterRecord, cluster_json.
  cbn [cluster_id memberIds cluster_workspaceRoot createdAt] in *.
  change (get "id" _) with (Some (JStr i)). change (get "memberIds" _) with (Some (JArr (JStr <$> ids))).
  change (get "workspaceRoot" _) with (Some (JStr root)). change (get "createdAt" _) with (Some (JStr t)).
  cbn [as_string]. rewrite bool_decide_false by (intros ?%fmap_nil_inv; done).
  by rewrite as_string_members.
Qed.

Lemma parse_clusters_json cs :
  Forall wf_cluster cs → parseSandboxClusters (Some (stringify (JArr (cluster_json <$> cs)))) = cs.
Proof.
  intros Hcs. unfold parseSandboxClusters. rewrite bool_decide_false by done.
  rewrite parse_stringify.
  - induction Hcs as [|c cs Hc _ IH]; [done|].
    change (match isClusterRecord (cluster_json c) with
            | Some y => y :: omap isClusterRecord (cluster_json <$> cs)
            | None => omap isClusterRecord (cluster_json <$> cs) end = c :: cs).
    by rewrite isClusterRecord_json, IH.
  - constructor. apply Forall_fmap. eapply Forall_impl; [done|]. apply cluster_json_plain.
Qed.

Lemma write_clusters_read fits s cs s' :
  Forall wf_cluster cs → write_clusters fits s cs = (s', true) → readSandboxClusters s' = cs.
Proof.
  unfold write_clusters. intros Hcs Hw. destruct (setItem _ _ _ _) as [s''|] eqn:Hs; [|done].
  injection Hw as <-. unfold readSandboxClusters. rewrite (setItem_get _ _ _ _ _ Hs).
  by apply parse_clusters_json.
Qed.

Lemma write_clusters_refused fits s cs s' : write_clusters fits s cs = (s', false) → s' = s.
Proof. unfold write_clusters. destruct (setItem _ _ _ _); congruence. Qed.

Lemma merge_wf first second :
  Forall wf_cluster first → Forall wf_cluster second → Forall wf_cluster (mergeSandboxClusters first second).
Proof.
  rewrite !Forall_forall. intros H1 H2 x [[? _]|(s1 & s2 & -> & _)]%merge_elem; [auto|].
  apply H2. set_solver.
Qed.

(** The strings of the records a create result holds are code units. *)
Definition wf_result (result : json) : Prop :=
  Forall (λ r, wf_str r.1 ∧ wf_str r.2) (recordsFromCreateResult result).

Lemma split_first_wf c s : wf_str s → wf_str (hd [] (split c s)).
Proof.
  intros Hs. pose proof (join_split c s) as Hj. destruct (split c s) as [|p ps]; [constructor|].
  cbn [hd]. destruct ps as [|q ps]; [cbn in Hj; by subst|].
  rewrite join_cons in Hj by done. rewrite <- Hj in Hs. by apply Forall_app in Hs as [? _].
Qed.

Lemma clusterSuffix_wf i : wf_str i → wf_str (clusterSuffix i) ∧ clusterSuffix i ≠ [].
Proof.
  intros Hi. unfold clusterSuffix. set (n := if startsWith _ i then _ else _).
  assert (wf_str n) as Hn by (unfold n; destruct (startsWith _ _); [by apply Forall_drop|done]).
  repeat case_bool_decide; split; try done; [by apply split_first_wf|by apply Forall_take|apply wf_js].
Qed.

Lemma clusterFromCreateResult_wf result now single c :
  wf_result result → wf_str now → clusterFromCreateResult result now single = Some c → wf_cluster c.
Proof.
  unfold clusterFromCreateResult, wf_result. intros Hr Hnow H.
  destruct (recordsFromCreateResult result) as [|[i root] rs] eqn:Heq.
  - by destruct single.
  - destruct (_ <? _)%nat; [done|]. injection H as <-.
    pose proof Hr as [[Hi Hroot] _]%Forall_cons. constructor; cbn [cluster_id memberIds cluster_workspaceRoot createdAt]; try done.
    + change (wf_str (js "cluster-" ++ clusterSuffix i)). apply Forall_app. split; [apply wf_js|by apply clusterSuffix_wf].
    + apply (proj2 (Forall_fmap fst wf_str ((i, root) :: rs))). eapply Forall_impl; [exact Hr|]. by intros [] [].
Qed.

(** Registering a create result makes a cluster exactly when it holds
    enough valid sandboxes; the cluster names them all, is read back from
    storage, and replaces whatever shared its name or a member. When the
    browser refuses the write nothing changes and no listener is told. *)
Theorem registerSandboxCluster_spec fits s result now single
    (Hresult : wf_result result) (Hnow : wf_str now)
    (Hstored : Forall wf_cluster (readSandboxClusters s)) :
  let '(registered, s', told) := registerSandboxCluster fits s result now single in
  let records := recordsFromCreateResult result in
  (registered = None ↔ (length records < if single then 1 else 2)%nat) ∧
  (∀ c, registered = Some c → memberIds c = records.*1) ∧
  (if told
   then ∃ c, registered = Some c ∧ c ∈ readSandboxClusters s' ∧
        (∀ x, x ∈ readSandboxClusters s' ↔ x = c ∨ (x ∈ readSandboxClusters s ∧ conflicts c x = false))
   else s' = s).
Proof.
  unfold registerSandboxCluster.
  destruct (clusterFromCreateResult result now single) as [c|] eqn:Hc.
  - assert (wf_cluster c) as Hwf by (by eapply clusterFromCreateResult_wf).
    destruct (write_clusters _ _ _) as [s' told] eqn:Hw. split_and!.
    + unfold clusterFromCreateResult in Hc. split; [done|intros Hlt%Nat.ltb_lt].
      by rewrite Hlt in Hc.
    + intros ? [= <-]. unfold clusterFromCreateResult in Hc.
      destruct (_ <? _)%nat; [done|]. destruct (recordsFromCreateResult result) as [|[]]; naive_solver.
    + destruct told; [|by eapply write_clusters_refused].
      apply write_clusters_read in Hw as ->; [|apply merge_wf; auto using Forall_cons_2, Forall_nil_2].
      exists c. cbn [mergeSandboxClusters foldl].
      split_and!; [done|apply merge_step_elem; by left|]. intros x. apply merge_step_elem.
  - split_and!; [|done|done]. split; [intros _|done].
    unfold clusterFromCreateResult in Hc. apply Nat.ltb_lt.
    destruct (recordsFromCreateResult result) as [|[]]; [by destruct single|].
    by destruct (_ <? _)%nat.
Qed.

Definition example_created (ids : list string) : json :=
  JObj [(js "sandboxes", JArr ((λ i, JObj [(js "id", JStr (js i)); (js "workspace_root", JStr (js "/w"));
                                           (js "state", JStr (js "ready"))]) <$> ids))].

Lemma registerSandboxCluster_spec_witness :
  let '(registered, s', told) := registerSandboxCluster (λ _, true) {| available := true; items := ∅ |}
    (example_created ["eos-1a-x"; "eos-2b-y"]%string) (js "now") false in
  registered ≠ None.
Proof.
  pose proof (registerSandboxCluster_spec (λ _, true) {| available := true; items := ∅ |}
    (example_created ["eos-1a-x"; "eos-2b-y"]%string) (js "now") false) as H.
  destruct (registerSandboxCluster _ _ _ _ _) as [[registered s'] told].
  destruct H as [[H _] _]; [unfold wf_result; decide_closed|decide_closed|constructor|].
  intros Hn. specialize (H Hn). revert H. apply Nat.nlt_ge. decide_closed.
Defined.

Lemma remove_wf i cs :
  Forall wf_cluster cs → Forall wf_cluster (js_filter (λ c, negb (bool_decide (cluster_id c = i))) cs).
Proof. rewrite !Forall_forall. intros H x [? _]%js_filter_elem. auto. Qed.

(** Removing a cluster asks the server first: a refusal or a broken
    connection throws and forgets nothing; afterwards exactly the clusters of
    that name are gone from storage, or (when the browser refuses the write)
    storage is as it was. *)
Theorem removeSandboxCluster_spec fits s clusterId reply
    (Hstored : Forall wf_cluster (readSandboxClusters s)) :
  match removeSandboxCluster fits s clusterId reply with
  | Throws _ => ∀ status body, reply = Reply status body → ¬ (200 ≤ status ≤ 299)
  | Returns s' =>
      (∃ status body, reply = Reply status body ∧ 200 ≤ status ≤ 299) ∧
      (s' = s ∨
       ∀ c, c ∈ readSandboxClusters s' ↔ c ∈ readSandboxClusters s ∧ cluster_id c ≠ clusterId) ∧
      (available s = true → (∀ m, fits m = true) → ∀ c, c ∈ readSandboxClusters s' → cluster_id c ≠ clusterId)
  end.
Proof.
  unfold removeSandboxCluster. destruct reply as [|status body]; [done|].
  destruct (reply_ok status) eqn:Hok; cbn [negb].
  - unfold reply_ok in Hok. bool_to_prop. destruct (write_clusters _ _ _) as [s' told] eqn:Hw. cbn [fst].
    assert (told = true → ∀ c, c ∈ readSandboxClusters s' ↔ c ∈ readSandboxClusters s ∧ cluster_id c ≠ clusterId) as Hread.
    { intros ->. apply write_clusters_read in Hw as ->; [|by apply remove_wf]. intros c.
      by rewrite js_filter_elem, negb_true_iff, bool_decide_eq_false. }
    split_and!; [by eauto|destruct told; [auto|left; by eapply write_clusters_refused]|].
    intros Ha Hfits c Hc. assert (told = true) as Ht.
    { unfold write_clusters, setItem in Hw. rewrite Ha, Hfits in Hw. by injection Hw. }
    by apply Hread in Hc as [_ ?].
  - intros ? ? [= <- <-] [? ?]. unfold reply_ok in Hok.
    apply andb_false_iff in Hok as [?%Z.leb_gt|?%Z.leb_gt]; lia.
Qed.

Lemma removeSandboxCluster_spec_witness :
  match removeSandboxCluster (λ _, true) {| available := true; items := ∅ |} (js "c") (Reply 404 None) with
  | Throws _ => ¬ (200 ≤ 404 ≤ 299)
  | Returns _ => False
  end.
Proof.
  pose proof (removeSandboxCluster_spec (λ _, true) {| available := true; items := ∅ |} (js "c") (Reply 404 None)
    (Forall_nil_2 _)) as H.
  exact (H 404 None eq_refl).
Defined.

(** ** Facts: resolving *)

Definition named (registry : list SandboxClusterRecord) (i : jsstr) : Prop :=
  ∃ c, c ∈ registry ∧ i ∈ memberIds c.

(** The clusters resolved from a prefix of the registry, and the identifiers
    they have taken. *)
Record resolved_prefix (records : list SandboxRecord) (pre : list SandboxClusterRecord)
    (acc : list ResolvedSandboxCluster * gset jsstr) : Prop := {
  rp_used : ∀ i, i ∈ acc.2 ↔ i ∈ id <$> concat (members <$> acc.1);
  rp_members : ∀ r, r ∈ concat (members <$> acc.1) ↔ r ∈ records ∧ named pre (id r);
  rp_NoDup : NoDup (id <$> concat (members <$> acc.1));
  rp_owned : Forall (λ c, members c ≠ [] ∧ ∀ r, r ∈ members c → id r ∈ memberIds (cluster c)) acc.1;
  rp_order : cluster <$> acc.1 `sublist_of` pre;
}.

Section resolve.
Context (records : list SandboxRecord).
Hypothesis Hids : NoDup (id <$> records).
Let byId : gmap jsstr SandboxRecord := js_map ((λ r, (id r, r)) <$> records).

Lemma byId_Some i r : byId !! i = Some r ↔ r ∈ records ∧ id r = i.
Proof.
  assert (((λ r, (id r, r)) <$> records).*1 = id <$> records) as Hkeys by (rewrite <- list_fmap_compose; done).
  split.
  - intros Hl%js_map_elem.
    apply list_elem_of_fmap in Hl as (? & [= -> ->] & ?). done.
  - intros [Hr <-]. apply js_map_NoDup; [by rewrite Hkeys|].
    apply list_elem_of_fmap. by exists r.
Qed.

Definition live_members (used : gset jsstr) (c : SandboxClusterRecord) : list SandboxRecord :=
  js_filter (λ r, negb (bool_decide (id r ∈ used))) (omap (λ i, byId !! i) (js_set (memberIds c))).

Lemma live_members_elem used c r :
  r ∈ live_members used c ↔ r ∈ records ∧ id r ∈ memberIds c ∧ id r ∉ used.
Proof.
  unfold live_members. rewrite js_filter_elem, negb_true_iff, bool_decide_eq_false, list_elem_of_omap.
  setoid_rewrite js_set_elem. setoid_rewrite byId_Some. naive_solver.
Qed.

Lemma omap_byId_ids l : id <$> omap (λ i, byId !! i) l `sublist_of` l.
Proof.
  induction l as [|i l IH]; [constructor|].
  change (omap _ (i :: l)) with
    (match byId !! i with Some y => y :: omap (λ i, byId !! i) l | None => omap (λ i, byId !! i) l end).
  destruct (byId !! i) as [r|] eqn:Hr; [|by constructor].
  apply byId_Some in Hr as [_ <-]. by constructor.
Qed.

Lemma live_members_NoDup used c : NoDup (id <$> live_members used c).
Proof.
  eapply sublist_NoDup; [apply (js_set_NoDup (memberIds c))|].
  etrans; [|apply omap_byId_ids]. apply fmap_sublist, js_filter_sublist.
Qed.

Lemma resolve_step_prefix pre c acc :
  resolved_prefix records pre acc → resolved_prefix records (pre ++ [c]) (resolve_step byId acc c).
Proof.
  destruct acc as [cs used]. intros [Hu Hm Hnd Ho Hs]. cbn [fst snd] in *.
  assert (∀ i, named (pre ++ [c]) i ↔ named pre i ∨ i ∈ memberIds c) as Hnamed.
  { intros i. unfold named. set_solver. }
  assert (∀ r, r ∈ records → (id r ∈ used ↔ named pre (id r))) as Hused.
  { intros r Hr. rewrite Hu, list_elem_of_fmap. split.
    - intros (r' & -> & [_ ?]%Hm). done.
    - intros Hn. exists r. split; [done|]. by apply Hm. }
  unfold resolve_step. fold (live_members used c). case_bool_decide as Hlive.
  - split; cbn [fst snd]; try done.
    + intros r. rewrite Hm, Hnamed. split; [naive_solver|]. intros [Hr [?|Hc]]; [done|].
      split; [done|]. apply Hused; [done|]. apply dec_stable. intros Hn.
      assert (r ∈ live_members used c) as Hin by (by apply live_members_elem).
      rewrite Hlive in Hin. by apply elem_of_nil in Hin.
    + by apply sublist_inserts_r.
  - split; cbn [fst snd]; rewrite ?fmap_app, ?concat_app; cbn [fmap list_fmap concat members cluster]; rewrite ?app_nil_r.
    + intros i. rewrite fmap_app, elem_of_union, elem_of_list_to_set, elem_of_app, Hu. done.
    + intros r. rewrite elem_of_app, live_members_elem, Hm, Hnamed. split; [naive_solver|].
      intros [Hr [?|?]]; [by left|]. destruct (decide (id r ∈ used)) as [Hin|]; [|by right].
      left. split; [done|]. by apply Hused.
    + rewrite fmap_app. apply NoDup_app. split; [done|]. split; [|apply live_members_NoDup].
      intros i Hi (r & -> & Hr)%list_elem_of_fmap. apply live_members_elem in Hr as (_ & _ & Hr).
      by apply Hr, Hu.
    + apply Forall_app. split; [done|]. constructor; [|constructor]. split; [done|].
      by intros r (_ & ? & _)%live_members_elem.
    + by apply sublist_app.
Qed.

Lemma resolve_fold_prefix registry :
  resolved_prefix records registry (foldl (resolve_step byId) ([], ∅) registry).
Proof.
  induction registry as [|c registry IH] using rev_ind.
  - split; cbn; try done; [set_solver| |constructor]. intros r. unfold named. set_solver.
  - rewrite foldl_snoc. by apply resolve_step_prefix.
Qed.
End resolve.

(** C12: Resolving the registry against the sandboxes that exist loses none and
    shows none twice: every sandbox is in exactly one cluster or is an
    individual. A cluster shows only its own members and is never empty,
    clusters keep the registry's order, and the individuals are exactly the
    sandboxes no cluster names, in the manager's order. *)
Theorem resolveSandboxClusters_partition records registry
    (Hids : NoDup (id <$> records)) :
  let '(clusters, individuals) := resolveSandboxClusters records registry in
  concat (members <$> clusters) ++ individuals ≡ₚ records ∧
  (∀ c, c ∈ clusters → members c ≠ [] ∧ ∀ r, r ∈ members c → id r ∈ memberIds (cluster c)) ∧
  cluster <$> clusters `sublist_of` registry ∧
  individuals `sublist_of` records ∧
  (∀ r, r ∈ individuals ↔ r ∈ records ∧ ¬ named registry (id r)).
Proof.
  unfold resolveSandboxClusters. pose proof (resolve_fold_prefix records Hids registry) as HP.
  destruct (foldl _ _ _) as [clusters used]. destruct HP as [Hu Hm Hnd Ho Hs]. cbn [fst snd] in *.
  assert (∀ r, r ∈ js_filter (λ r, negb (bool_decide (id r ∈ used))) records ↔
               r ∈ records ∧ ¬ named registry (id r)) as Hind.
  { intros r. rewrite js_filter_elem, negb_true_iff, bool_decide_eq_false, Hu.
    split; intros [Hr Hn]; (split; [done|]); intros H; apply Hn.
    - apply list_elem_of_fmap. exists r. split; [done|]. by apply Hm.
    - apply list_elem_of_fmap in H as (r' & Heq & [_ ?]%Hm). by rewrite Heq. }
  split_and!; try done; [|by apply Forall_forall|apply js_filter_sublist].
  apply NoDup_fmap_1 in Hnd, Hids. apply NoDup_Permutation; [|done|].
  - apply NoDup_app. split_and!; [done| |].
    + intros r [_ Hr]%Hm [_ Hn]%Hind. done.
    + eapply sublist_NoDup; [exact Hids|apply js_filter_sublist].
  - intros r. rewrite elem_of_app, Hm, Hind. split; [naive_solver|].
    intros Hr. destruct (decide (id r ∈ used)) as [Hin|Hin]; rewrite Hu in Hin.
    + left. split; [done|]. apply list_elem_of_fmap in Hin as (r' & Heq & [_ ?]%Hm). by rewrite Heq.
    + right. split; [done|]. intros Hn. apply Hin, list_elem_of_fmap. exists r. split; [done|]. by apply Hm.
Qed.

Lemma resolveSandboxClusters_partition_witness :
  let records := [example_record "1" ready; example_record "2" ready; example_record "3" ready] in
  let registry := [example_cluster "cluster-a" ["2"; "9"]%string; example_cluster "cluster-b" ["2"; "3"]%string] in
  let '(clusters, individuals) := resolveSandboxClusters records registry in
  concat (members <$> clusters) ++ individuals ≡ₚ records.
Proof.
  intros records registry.
  assert (NoDup (id <$> records)) as Hids by decide_closed.
  pose proof (resolveSandboxClusters_partition records registry Hids) as H.
  destruct (resolveSandboxClusters records registry) as [clusters individuals].
  exact (proj1 H).
Defined.
