(* ===== verification/ClusterSync.v ===== *)
(** The cluster registry between browsers ([web/src/core/sandboxClusters.ts],
    and the refetch of [web/src/pages/dashboard/DashboardPage.tsx]): each
    browser keeps the clusters it created in its own storage, lists those of the
    server, and posts its own to the server with every listing; clusters are
    registered and removed in between.

    The server keeps one registry ([server/src/sandbox_clusters.rs]): a post
    that it finds valid supersedes what it conflicts with, as a merge does in
    the browser, and a deletion removes the cluster of that identifier. *)
From S2P Require Import Prelude JsText Json WebStorage SandboxClusters.

(** ** Browsers and the server *)

(** A listing under way: the clusters read from the storage when it began; what
    it will return, once the server has answered; and its posts still out. *)
Record cluster_listing := { listed_local : list SandboxClusterRecord; listed : option (list SandboxClusterRecord); list_posts : list SandboxClusterRecord }.

(** A browser: its storage, its listings, the posts of registrations and of
    listings that were given up, the deletions sent and answered, and the
    registry the dashboard shows. *)
Record browser := {
  stored : list SandboxClusterRecord;
  listings : list cluster_listing;
  posts : list SandboxClusterRecord;
  deletions : list jsstr;
  deleted : list jsstr;
  registry_shown : option (list SandboxClusterRecord);
}.

Record cluster_world := { remote : list SandboxClusterRecord; browsers : list browser }.

Definition set_browser (b : nat) (x : browser) (w : cluster_world) : cluster_world := {| remote := remote w; browsers := <[b := x]> (browsers w) |}.
Definition set_remote (r : list SandboxClusterRecord) (w : cluster_world) : cluster_world := {| remote := r; browsers := browsers w |}.

Definition without (i : jsstr) (l : list SandboxClusterRecord) : list SandboxClusterRecord :=
  js_filter (λ c, negb (bool_decide (cluster_id c = i))) l.

Definition with_listings (l : list cluster_listing) (ps : list SandboxClusterRecord) (m : option (list SandboxClusterRecord)) (x : browser) : browser :=
  {| stored := stored x; listings := l; posts := ps; deletions := deletions x; deleted := deleted x; registry_shown := m |}.

Definition starts_listing (x : browser) : browser :=
  with_listings (listings x ++ [{| listed_local := stored x; listed := None; list_posts := [] |}]) (posts x) (registry_shown x) x.

(** The listing at [i] has the server's answer, or has failed. *)
Definition listing_answered (i : nat) (answer : option (list SandboxClusterRecord)) (x : browser) : browser :=
  match listings x !! i with
  | Some q =>
      let q' := match answer with
                | Some r => {| listed_local := listed_local q; listed := Some (mergeSandboxClusters r (listed_local q)); list_posts := listed_local q |}
                | None => {| listed_local := listed_local q; listed := Some (listed_local q); list_posts := [] |}
                end in
      with_listings (<[i := q']> (listings x)) (posts x) (registry_shown x) x
  | None => x
  end.

Definition post_leaves (i j : nat) (x : browser) : browser :=
  match listings x !! i with
  | Some q => with_listings (<[i := {| listed_local := listed_local q; listed := listed q; list_posts := delete j (list_posts q) |}]> (listings x))
                (posts x) (registry_shown x) x
  | None => x
  end.

(** A listing whose posts are settled returns; one that is given up for a later
    one returns nothing, but its posts may still arrive. *)
Definition listing_ends (i : nat) (x : browser) : browser :=
  match listings x !! i with
  | Some q => with_listings (delete i (listings x)) (posts x) (match listed q with Some m => Some m | None => registry_shown x end) x
  | None => x
  end.

Definition listing_given_up (i : nat) (x : browser) : browser :=
  match listings x !! i with
  | Some q => with_listings (delete i (listings x)) (posts x ++ list_posts q) (registry_shown x) x
  | None => x
  end.

Definition drop_post (j : nat) (x : browser) : browser := with_listings (listings x) (delete j (posts x)) (registry_shown x) x.

(** The storage may refuse the write. *)
Definition registers (written : bool) (c : SandboxClusterRecord) (x : browser) : browser :=
  {| stored := if written then mergeSandboxClusters (stored x) [c] else stored x; listings := listings x; posts := posts x ++ [c];
     deletions := deletions x; deleted := deleted x; registry_shown := registry_shown x |}.

Definition sends_deletion (i : jsstr) (x : browser) : browser :=
  {| stored := stored x; listings := listings x; posts := posts x; deletions := deletions x ++ [i]; deleted := deleted x;
     registry_shown := registry_shown x |}.

Definition deletion_done (j : nat) (answered : bool) (x : browser) : browser :=
  match deletions x !! j with
  | Some i => {| stored := stored x; listings := listings x; posts := posts x; deletions := delete j (deletions x);
                 deleted := if answered then deleted x ++ [i] else deleted x; registry_shown := registry_shown x |}
  | None => x
  end.

Definition forgets (j : nat) (written : bool) (x : browser) : browser :=
  match deleted x !! j with
  | Some i => {| stored := if written then without i (stored x) else stored x; listings := listings x; posts := posts x;
                 deletions := deletions x; deleted := delete j (deleted x); registry_shown := registry_shown x |}
  | None => x
  end.

Section server.
(** The server's check of a record that is posted. *)
Context (valid : SandboxClusterRecord → bool).

(** The clusters that users create meanwhile. *)
Context (created : SandboxClusterRecord → Prop).

Definition server_registers (c : SandboxClusterRecord) (r : list SandboxClusterRecord) : list SandboxClusterRecord :=
  if valid c then merge_step r c else r.

Inductive sync_step (w : cluster_world) : cluster_world → Prop :=
  | sync_starts b x : browsers w !! b = Some x → sync_step w (set_browser b (starts_listing x) w)
  | sync_answers b x i q : browsers w !! b = Some x → listings x !! i = Some q → listed q = None →
      sync_step w (set_browser b (listing_answered i (Some (remote w)) x) w)
  | sync_unanswered b x i q : browsers w !! b = Some x → listings x !! i = Some q → listed q = None →
      sync_step w (set_browser b (listing_answered i None x) w)
  | sync_posts b x i q j c : browsers w !! b = Some x → listings x !! i = Some q → list_posts q !! j = Some c →
      sync_step w (set_remote (server_registers c (remote w)) (set_browser b (post_leaves i j x) w))
  | sync_post_lost b x i j : browsers w !! b = Some x → sync_step w (set_browser b (post_leaves i j x) w)
  | sync_ends b x i q : browsers w !! b = Some x → listings x !! i = Some q → is_Some (listed q) → list_posts q = [] →
      sync_step w (set_browser b (listing_ends i x) w)
  | sync_gives_up b x i : browsers w !! b = Some x → sync_step w (set_browser b (listing_given_up i x) w)
  | sync_registers b x c written : browsers w !! b = Some x → created c → sync_step w (set_browser b (registers written c x) w)
  | sync_registered b x j c : browsers w !! b = Some x → posts x !! j = Some c →
      sync_step w (set_remote (server_registers c (remote w)) (set_browser b (drop_post j x) w))
  | sync_unregistered b x j : browsers w !! b = Some x → sync_step w (set_browser b (drop_post j x) w)
  | sync_deletes b x i : browsers w !! b = Some x → sync_step w (set_browser b (sends_deletion i x) w)
  | sync_deleted b x j i answered : browsers w !! b = Some x → deletions x !! j = Some i →
      sync_step w (set_remote (without i (remote w)) (set_browser b (deletion_done j answered x) w))
  | sync_undeleted b x j : browsers w !! b = Some x → sync_step w (set_browser b (deletion_done j false x) w)
  | sync_forgets b x j written : browsers w !! b = Some x → sync_step w (set_browser b (forgets j written x) w).
End server.

(** ** Facts: what a browser holds *)

Lemma step_browsers valid created w w' : sync_step valid created w w' → length (browsers w') = length (browsers w).
Proof. destruct 1; cbn [browsers set_browser set_remote]; by rewrite length_insert. Qed.


Section holds.
Context (P : SandboxClusterRecord → Prop).

Record listing_holds (q : cluster_listing) : Prop := {
  lh_local : Forall P (listed_local q);
  lh_posts : Forall P (list_posts q);
  lh_listed : ∀ m, listed q = Some m → Forall P m;
}.

Record browser_holds (x : browser) : Prop := {
  bh_stored : Forall P (stored x);
  bh_posts : Forall P (posts x);
  bh_listings : Forall listing_holds (listings x);
}.

(** Only clusters with [P] are anywhere but on screen. *)
Definition world_holds (w : cluster_world) : Prop := Forall P (remote w) ∧ Forall browser_holds (browsers w).

Lemma merge_step_holds l c : Forall P l → P c → Forall P (merge_step l c).
Proof. rewrite !Forall_forall. intros Hl Hc x [->|[Hx _]]%merge_step_elem; auto. Qed.

Lemma merge_holds first second : Forall P first → Forall P second → Forall P (mergeSandboxClusters first second).
Proof.
  rewrite !Forall_forall. intros H1 H2 x [[Hx _]|(s1 & s2 & -> & _)]%merge_elem; [auto|]. apply H2, elem_of_app. right. by left.
Qed.

Lemma delete_holds {A} (Q : A → Prop) i l : Forall Q l → Forall Q (delete i l).
Proof. rewrite !Forall_lookup. intros Hl j x Hx. rewrite list_lookup_delete in Hx. case_decide; eauto. Qed.

Lemma without_holds i l : Forall P l → Forall P (without i l).
Proof. rewrite !Forall_forall. intros Hl x [Hx _]%js_filter_elem. auto. Qed.

Lemma starts_holds x : browser_holds x → browser_holds (starts_listing x).
Proof. intros [Hs Hp Hl]. constructor; [done..|]. apply Forall_app. split; [done|]. constructor; [|done]. by constructor. Qed.

Lemma answered_holds i answer x : (∀ r, answer = Some r → Forall P r) → browser_holds x → browser_holds (listing_answered i answer x).
Proof.
  intros Ha Hx. pose proof Hx as [Hs Hp Hl]. unfold listing_answered. destruct (listings x !! i) as [q|] eqn:Hq; [|done].
  pose proof (Forall_lookup_1 _ _ _ _ Hl Hq) as [Hql Hqp Hqm]. constructor; [done..|]. apply Forall_insert; [done|].
  destruct answer as [r|]; constructor; cbn; auto; intros m [= <-]; [|done]. apply merge_holds; auto.
Qed.

Lemma post_leaves_holds i j x : browser_holds x → browser_holds (post_leaves i j x).
Proof.
  intros Hx. pose proof Hx as [Hs Hp Hl]. unfold post_leaves. destruct (listings x !! i) as [q|] eqn:Hq; [|done].
  pose proof (Forall_lookup_1 _ _ _ _ Hl Hq) as [Hql Hqp Hqm]. constructor; [done..|]. apply Forall_insert; [done|].
  constructor; cbn; [done|by apply delete_holds|done].
Qed.

Lemma ends_holds i x : browser_holds x → browser_holds (listing_ends i x).
Proof.
  intros Hx. pose proof Hx as [Hs Hp Hl]. unfold listing_ends. destruct (listings x !! i) as [q|] eqn:Hq; [|done].
  constructor; [done..|]. by apply delete_holds.
Qed.

Lemma given_up_holds i x : browser_holds x → browser_holds (listing_given_up i x).
Proof.
  intros Hx. pose proof Hx as [Hs Hp Hl]. unfold listing_given_up. destruct (listings x !! i) as [q|] eqn:Hq; [|done].
  pose proof (Forall_lookup_1 _ _ _ _ Hl Hq) as [Hql Hqp Hqm]. constructor; [done|by apply Forall_app|by apply delete_holds].
Qed.

Lemma drop_post_holds j x : browser_holds x → browser_holds (drop_post j x).
Proof. intros [Hs Hp Hl]. constructor; [done|by apply delete_holds|done]. Qed.

Lemma registers_holds written c x : P c → browser_holds x → browser_holds (registers written c x).
Proof.
  intros Hc [Hs Hp Hl]. constructor; [|apply Forall_app; by split; [|constructor]|done]. destruct written; [|done].
  apply merge_holds; [done|by constructor].
Qed.

Lemma deletion_done_holds j answered x : browser_holds x → browser_holds (deletion_done j answered x).
Proof. intros Hx. unfold deletion_done. destruct (deletions x !! j); [|done]. destruct Hx. by constructor. Qed.

Lemma forgets_holds j written x : browser_holds x → browser_holds (forgets j written x).
Proof.
  intros Hx. unfold forgets. destruct (deleted x !! j); [|done]. destruct Hx as [Hs Hp Hl]. constructor; [|done..].
  destruct written; [by apply without_holds|done].
Qed.

Lemma sync_step_holds valid created w w' :
  (∀ c, created c → P c) → sync_step valid created w w' → world_holds w → world_holds w'.
Proof.
  intros Hcreated Hstep [Hr Hb]. assert (∀ b x, browsers w !! b = Some x → browser_holds x) as Hx.
  { intros b x Hbx. exact (Forall_lookup_1 _ _ _ _ Hb Hbx). }
  assert (∀ b x, browser_holds x → Forall browser_holds (<[b := x]> (browsers w))) as Hset by (intros; by apply Forall_insert).
  assert (∀ c, P c → Forall P (server_registers valid c (remote w))) as Hreg.
  { intros c Hc. unfold server_registers. destruct (valid c); [by apply merge_step_holds|done]. }
  destruct Hstep; split; cbn [remote browsers set_browser set_remote]; try exact Hr; try apply Hset;
    eauto using starts_holds, post_leaves_holds, ends_holds, given_up_holds, drop_post_holds, deletion_done_holds, forgets_holds, registers_holds, without_holds.
  - apply answered_holds; [by intros r [= <-]|eauto].
  - apply answered_holds; [done|eauto].
  - apply Hreg. assert (listing_holds q) as [_ Hq _]; [|exact (Forall_lookup_1 _ _ _ _ Hq ltac:(eassumption))].
    eapply Forall_lookup_1; [apply (bh_listings x); eauto|done].
  - apply Hreg. assert (browser_holds x) as [_ Hq _] by eauto. by eapply Forall_lookup_1.
  - assert (browser_holds x) as [] by eauto. by constructor.
Qed.

(** What is on screen changes only to what a listing returned. *)
Definition screen_holds (w w' : cluster_world) : Prop :=
  ∀ b x x', browsers w !! b = Some x → browsers w' !! b = Some x' →
    registry_shown x' = registry_shown x ∨ ∀ m, registry_shown x' = Some m → Forall P m.

Lemma ends_shown i x : browser_holds x → registry_shown (listing_ends i x) = registry_shown x ∨ ∀ m, registry_shown (listing_ends i x) = Some m → Forall P m.
Proof.
  intros [_ _ Hl]. unfold listing_ends. destruct (listings x !! i) as [q|] eqn:Hq; [|by left]. cbn.
  pose proof (Forall_lookup_1 _ _ _ _ Hl Hq) as [_ _ Hm]. destruct (listed q); [right; intros m [= <-]; by apply Hm|by left].
Qed.

Lemma screen_step valid created w w' : sync_step valid created w w' → world_holds w → screen_holds w w'.
Proof.
  intros Hstep [_ Hb] b0 y y' Hy Hy'. pose proof (Forall_lookup_1 _ _ _ _ Hb Hy) as Hyh.
  assert (∀ b x x', browsers w !! b = Some x → <[b := x']> (browsers w) !! b0 = Some y' →
    (b = b0 → registry_shown x' = registry_shown x ∨ ∀ m, registry_shown x' = Some m → Forall P m) →
    registry_shown y' = registry_shown y ∨ ∀ m, registry_shown y' = Some m → Forall P m) as Hset.
  { intros b x x' Hx Hx' Hshown. destruct (decide (b = b0)) as [->|Hne].
    - rewrite list_lookup_insert_eq in Hx' by (by eapply lookup_lt_Some). simplify_eq. by apply Hshown.
    - rewrite list_lookup_insert_ne in Hx' by done. left. congruence. }
  destruct Hstep; cbn [browsers set_browser set_remote] in Hy'; (eapply Hset; [|exact Hy'|]; [eassumption|]); intros ->; simplify_eq;
    first [by apply ends_shown|left; unfold listing_answered, post_leaves, listing_given_up, deletion_done, forgets; by repeat case_match].
Qed.

Lemma sync_run_holds valid created w w' :
  (∀ c, created c → P c) → rtc (sync_step valid created) w w' → world_holds w → world_holds w' ∧ screen_holds w w'.
Proof.
  intros Hc Hrun. induction Hrun as [w|w w1 w2 Hstep _ IH]; intros Hw.
  - split; [done|]. intros b x x' Hx Hx'. left. congruence.
  - destruct (IH (sync_step_holds _ _ _ _ Hc Hstep Hw)) as [Hw2 Hs2]. split; [done|]. intros b x x' Hx Hx'.
    pose proof (screen_step _ _ _ _ Hstep Hw) as Hs1. destruct (browsers w1 !! b) as [y|] eqn:Hy.
    + destruct (Hs2 b y x' Hy Hx') as [->|?]; [|by right]. by apply (Hs1 b x y).
    + exfalso. apply lookup_ge_None_1 in Hy. apply lookup_lt_Some in Hx. rewrite (step_browsers _ _ _ _ Hstep) in Hy. lia.
Qed.
End holds.

Lemma merge_disjoint first second : disjoint_registry first → disjoint_registry (mergeSandboxClusters first second).
Proof. revert first. induction second as [|c second IH]; intros first Hf; [done|]. apply IH. by apply merge_step_disjoint. Qed.

Record listing_disjoint (q : cluster_listing) : Prop := {
  ld_local : disjoint_registry (listed_local q);
  ld_listed : ∀ m, listed q = Some m → disjoint_registry m;
}.

Record browser_disjoint (x : browser) : Prop := {
  bd_stored : disjoint_registry (stored x);
  bd_shown : ∀ m, registry_shown x = Some m → disjoint_registry m;
  bd_listings : Forall listing_disjoint (listings x);
}.

Definition world_disjoint (w : cluster_world) : Prop := disjoint_registry (remote w) ∧ Forall browser_disjoint (browsers w).

Lemma listing_at_disjoint x i q : browser_disjoint x → listings x !! i = Some q → listing_disjoint q.
Proof. intros Hx Hq. exact (Forall_lookup_1 _ _ _ _ (bd_listings x Hx) Hq). Qed.

Lemma starts_disjoint x : browser_disjoint x → browser_disjoint (starts_listing x).
Proof. intros [Hs Hm Hl]. constructor; [done..|]. apply Forall_app. split; [done|]. constructor; [|done]. by constructor. Qed.

Lemma answered_disjoint i answer x :
  (∀ r, answer = Some r → disjoint_registry r) → browser_disjoint x → browser_disjoint (listing_answered i answer x).
Proof.
  intros Ha Hx. unfold listing_answered. destruct (listings x !! i) as [q|] eqn:Hq; [|done].
  destruct (listing_at_disjoint x i q Hx Hq) as [Hlocal _]. destruct Hx as [Hs Hm Hl]. constructor; [done..|]. apply Forall_insert; [done|].
  destruct answer as [r|]; constructor; cbn; auto; intros m [= <-]; [|done]. apply merge_disjoint. by apply Ha.
Qed.

Lemma listings_change_disjoint i j x :
  browser_disjoint x → browser_disjoint (post_leaves i j x) ∧ browser_disjoint (listing_ends i x) ∧ browser_disjoint (listing_given_up i x).
Proof.
  intros Hx. unfold post_leaves, listing_ends, listing_given_up. destruct (listings x !! i) as [q|] eqn:Hq; [|done].
  destruct (listing_at_disjoint x i q Hx Hq) as [Hlocal Hlisted]. destruct Hx as [Hs Hm Hl].
  split_and!; constructor; cbn; try done; try by apply delete_holds.
  - apply Forall_insert; [done|]. by constructor.
  - destruct (listed q) as [m'|]; [|done]. intros m [= <-]. by apply Hlisted.
Qed.

Lemma registers_disjoint written c x : browser_disjoint x → browser_disjoint (registers written c x).
Proof. intros [Hs Hm Hl]. constructor; [|done..]. destruct written; [by apply merge_disjoint|done]. Qed.

Lemma forgets_disjoint j written x : browser_disjoint x → browser_disjoint (forgets j written x).
Proof.
  intros Hx. unfold forgets. destruct (deleted x !! j); [|done]. destruct Hx. constructor; [|done..].
  destruct written; [by apply disjoint_registry_filter|done].
Qed.

Lemma drop_post_disjoint j x : browser_disjoint x → browser_disjoint (drop_post j x).
Proof. intros []. by constructor. Qed.

Lemma sends_disjoint i x : browser_disjoint x → browser_disjoint (sends_deletion i x).
Proof. intros []. by constructor. Qed.

Lemma deletion_done_disjoint j answered x : browser_disjoint x → browser_disjoint (deletion_done j answered x).
Proof. intros Hx. unfold deletion_done. destruct (deletions x !! j); [|done]. destruct Hx. by constructor. Qed.

Lemma disjoint_step valid created w w' : sync_step valid created w w' → world_disjoint w → world_disjoint w'.
Proof.
  intros Hstep [Hr Hb]. assert (∀ b x, browsers w !! b = Some x → browser_disjoint x) as Hx.
  { intros b x Hbx. exact (Forall_lookup_1 _ _ _ _ Hb Hbx). }
  assert (∀ b x, browser_disjoint x → Forall browser_disjoint (<[b := x]> (browsers w))) as Hset by (intros; by apply Forall_insert).
  assert (∀ c, disjoint_registry (server_registers valid c (remote w))) as Hreg.
  { intros c. unfold server_registers. destruct (valid c); [by apply merge_step_disjoint|done]. }
  destruct Hstep; split; cbn [remote browsers set_browser set_remote]; try exact Hr; try apply Hreg; try (apply Hset);
    try by apply disjoint_registry_filter.
  all: try (apply listings_change_disjoint; by eauto).
  all: try (by eauto using starts_disjoint, registers_disjoint, forgets_disjoint, drop_post_disjoint, sends_disjoint, deletion_done_disjoint).
  - apply answered_disjoint; [by intros r [= <-]|eauto].
  - apply answered_disjoint; [done|eauto].
Qed.

(** What a listing returns, the post of a cluster and the storage after a
    removal are those of the functions of the registry. *)
Definition registry_reply (r : list SandboxClusterRecord) : cluster_reply :=
  Reply 200 (Some (JObj [(js "clusters", JArr (cluster_json <$> r))])).

Lemma listing_of_reply s r :
  Forall wf_cluster r → listSandboxClusters s (registry_reply r) = (mergeSandboxClusters r (readSandboxClusters s), readSandboxClusters s).
Proof.
  intros Hr. unfold registry_reply, listSandboxClusters. change (reply_ok 200) with true. cbn [negb].
  replace (get "clusters" (JObj [(js "clusters", JArr (cluster_json <$> r))])) with (Some (JArr (cluster_json <$> r))) by reflexivity.
  by rewrite parse_clusters_json.
Qed.

(** A browser at rest, and one from which a removal went through. *)
Definition at_rest (x : browser) : Prop := listings x = [] ∧ posts x = [] ∧ deletions x = [] ∧ deleted x = [].

Definition removed_from (i : jsstr) (x : browser) : browser := forgets 0 true (deletion_done 0 true (sends_deletion i x)).

Lemma removed_from_at_rest i x :
  at_rest x → removed_from i x = {| stored := without i (stored x); listings := []; posts := []; deletions := []; deleted := [];
                                    registry_shown := registry_shown x |}.
Proof. destruct x. intros (Hl & Hp & Hd & He). cbn in Hl, Hp, Hd, He. by subst. Qed.

Lemma without_elem i l c : c ∈ without i l ↔ c ∈ l ∧ cluster_id c ≠ i.
Proof. unfold without. by rewrite js_filter_elem, negb_true_iff, bool_decide_eq_false. Qed.

Section runs.
Context (valid : SandboxClusterRecord → bool) (created : SandboxClusterRecord → Prop).

(** The removal as three steps. *)
Lemma removal_runs b x i w :
  browsers w !! b = Some x → deletions x = [] →
  rtc (sync_step valid created) w {| remote := without i (remote w); browsers := <[b := removed_from i x]> (browsers w) |}.
Proof.
  intros Hx Hd. pose proof (lookup_lt_Some _ _ _ Hx) as Hlt.
  eapply rtc_l; [by apply (sync_deletes _ _ _ b x i)|]. eapply rtc_l.
  { apply (sync_deleted _ _ _ b (sends_deletion i x) 0 i); cbn; [by apply list_lookup_insert_eq|]. by rewrite Hd. }
  eapply rtc_l; [|apply rtc_refl]. refine (eq_rect _ _ (sync_forgets _ _ _ b (deletion_done 0 true (sends_deletion i x)) 0 true _) _ _).
  - cbn. rewrite list_insert_insert_eq. apply list_lookup_insert_eq. done.
  - unfold set_browser, set_remote. cbn. by rewrite !list_insert_insert_eq.
Qed.

(** A browser with one listing, and the run of a listing up to its answer. *)
Definition listing_now (q : cluster_listing) (x : browser) : browser := with_listings [q] (posts x) (registry_shown x) x.

Definition answered_listing (r l ps : list SandboxClusterRecord) : cluster_listing :=
  {| listed_local := l; listed := Some (mergeSandboxClusters r l); list_posts := ps |}.

Lemma listing_runs b x w :
  browsers w !! b = Some x → listings x = [] →
  rtc (sync_step valid created) w (set_browser b (listing_now (answered_listing (remote w) (stored x) (stored x)) x) w).
Proof.
  intros Hx Hl. pose proof (lookup_lt_Some _ _ _ Hx) as Hlt. eapply rtc_l; [by apply (sync_starts _ _ _ b x)|].
  eapply rtc_l; [|apply rtc_refl]. refine (eq_rect _ _ (sync_answers _ _ _ b (starts_listing x) 0 _ _ _ _) _ _).
  - by apply list_lookup_insert_eq.
  - cbn. by rewrite Hl.
  - done.
  - unfold set_browser, listing_answered, starts_listing, listing_now, with_listings. cbn. rewrite Hl. cbn. by rewrite list_insert_insert_eq.
Qed.

Lemma posts_lost b x r l ps w :
  browsers w !! b = Some (listing_now (answered_listing r l ps) x) →
  rtc (sync_step valid created) w (set_browser b (listing_now (answered_listing r l []) x) w).
Proof.
  revert w. induction ps as [|c ps IH]; intros w Hx; pose proof (lookup_lt_Some _ _ _ Hx) as Hlt.
  - unfold set_browser. rewrite list_insert_id by done. by destruct w.
  - eapply rtc_l; [by apply (sync_post_lost _ _ _ b (listing_now (answered_listing r l (c :: ps)) x) 0 0)|]. etrans; [apply IH; cbn; by apply list_lookup_insert_eq|].
    unfold set_browser. cbn. by rewrite list_insert_insert_eq.
Qed.

Lemma listing_returns b x w :
  browsers w !! b = Some x → listings x = [] →
  rtc (sync_step valid created) w
    (set_browser b (with_listings [] (posts x) (Some (mergeSandboxClusters (remote w) (stored x))) x) w).
Proof.
  intros Hx Hl. pose proof (lookup_lt_Some _ _ _ Hx) as Hlt. etrans; [by apply (listing_runs b x)|].
  etrans; [apply (posts_lost b x (remote w) (stored x) (stored x)); cbn; by apply list_lookup_insert_eq|].
  eapply rtc_l; [|apply rtc_refl]. refine (eq_rect _ _ (sync_ends _ _ _ b (listing_now (answered_listing (remote w) (stored x) []) x) 0 _ _ _ _ _) _ _).
  - cbn. rewrite list_insert_insert_eq. by apply list_lookup_insert_eq.
  - done.
  - by eexists.
  - done.
  - unfold set_browser. cbn. by rewrite !list_insert_insert_eq.
Qed.
End runs.

(** ** Theorems *)

(** C13: The registry stays free of conflicts. Whatever browsers register, list, post
    and remove, in whatever order their requests arrive or get lost: no two
    clusters of the server's registry share an identifier or a sandbox, nor do
    any two in the storage of a browser, and the dashboard shows such a
    registry. *)
Theorem registries_disjoint valid created w w' (Hrun : rtc (sync_step valid created) w w')
    (Hr : disjoint_registry (remote w))
    (Hb : ∀ x, x ∈ browsers w → disjoint_registry (stored x) ∧ (∀ m, registry_shown x = Some m → disjoint_registry m) ∧ listings x = []) :
  disjoint_registry (remote w') ∧
  ∀ x, x ∈ browsers w' → disjoint_registry (stored x) ∧ ∀ m, registry_shown x = Some m → disjoint_registry m.
Proof.
  assert (world_disjoint w) as Hw.
  { split; [done|]. apply Forall_forall. intros x Hx. destruct (Hb x Hx) as (H1 & H2 & H3). constructor; [done..|]. by rewrite H3. }
  clear Hr Hb. induction Hrun as [w|w w1 w2 Hstep _ IH]; [|by apply IH; apply (disjoint_step valid created w)].
  destruct Hw as [Hr Hb]. split; [done|]. intros x Hx. rewrite Forall_forall in Hb. by destruct (Hb x Hx).
Qed.

(** Two browsers at rest, with a cluster. *)
Definition browser_with (l : list SandboxClusterRecord) : browser :=
  {| stored := l; listings := []; posts := []; deletions := []; deleted := []; registry_shown := None |}.

Definition shared_cluster : SandboxClusterRecord := example_cluster "cluster-a" ["1"; "2"]%string.
Definition other_cluster : SandboxClusterRecord := example_cluster "cluster-b" ["3"; "4"]%string.

Lemma registries_disjoint_witness :
  disjoint_registry (remote (set_browser 0 (with_listings [] [] (Some (mergeSandboxClusters [other_cluster] [shared_cluster])) (browser_with [shared_cluster]))
    {| remote := [other_cluster]; browsers := [browser_with [shared_cluster]] |})).
Proof.
  refine (proj1 (registries_disjoint (λ _, true) (λ _, False) _ _
    (listing_returns (λ _, true) (λ _, False) 0 (browser_with [shared_cluster]) {| remote := [other_cluster]; browsers := [browser_with [shared_cluster]] |}
       eq_refl eq_refl) _ _)).
  - apply disjoint_registry_single.
  - intros x Hx. apply list_elem_of_singleton in Hx as ->. split_and!; [apply disjoint_registry_single|done|done].
Defined.

(** C25: A removal lasts, in one browser. When the only browser has no listing and no
    post under way, removing a cluster takes it from the server and from the
    storage, and then, until a cluster of that identifier is created again, it
    comes back to neither, and no listing shows it. *)
Theorem removal_lasts valid r x i (Hrest : at_rest x) :
  let before := {| remote := r; browsers := [x] |} in
  let after := {| remote := without i r; browsers := [removed_from i x] |} in
  rtc (sync_step valid (λ c, cluster_id c ≠ i)) before after ∧
  ∀ w, rtc (sync_step valid (λ c, cluster_id c ≠ i)) after w →
    (∀ c, c ∈ remote w → cluster_id c ≠ i) ∧
    ∀ y, browsers w !! 0%nat = Some y → (∀ c, c ∈ stored y → cluster_id c ≠ i) ∧
      (registry_shown y = registry_shown x ∨ ∀ m c, registry_shown y = Some m → c ∈ m → cluster_id c ≠ i).
Proof.
  cbv zeta. split; [exact (removal_runs valid _ 0 x i {| remote := r; browsers := [x] |} eq_refl (proj1 (proj2 (proj2 Hrest))))|]. intros w Hrun.
  rewrite (removed_from_at_rest i x Hrest) in Hrun.
  destruct (sync_run_holds (λ c, cluster_id c ≠ i) valid _ _ _ (λ c H, H) Hrun) as [[Hr Hb] Hscreen].
  { split; cbn [remote browsers]; [apply Forall_forall; by intros c [_ ?]%without_elem|]. constructor; [|done]. constructor; cbn; [|done..].
    apply Forall_forall. by intros c [_ ?]%without_elem. }
  rewrite Forall_forall in Hr. split; [exact Hr|]. intros y Hy.
  pose proof (Forall_lookup_1 _ _ _ _ Hb Hy) as [Hs _ _]. rewrite Forall_forall in Hs. split; [exact Hs|].
  destruct (Hscreen 0%nat _ y eq_refl Hy) as [?|Hm]; [by left|]. right. intros m c Hmy Hc. specialize (Hm m Hmy).
  rewrite Forall_forall in Hm. auto.
Qed.

Lemma removal_lasts_witness :
  rtc (sync_step (λ _, true) (λ c, cluster_id c ≠ js "cluster-a"))
    {| remote := [shared_cluster]; browsers := [browser_with [shared_cluster; other_cluster]] |}
    {| remote := []; browsers := [browser_with [other_cluster]] |}.
Proof.
  refine (proj1 (removal_lasts (λ _, true) [shared_cluster] (browser_with [shared_cluster; other_cluster]) (js "cluster-a") _)). by split_and!.
Defined.

(** C36: Another browser brings it back. When a second browser keeps the cluster in
    its storage, its next listing registers it with the server again, and the
    browser that removed it shows it again, though nobody created it anew. *)
Theorem other_browser_restores valid r x y c (Hx : at_rest x) (Hy : at_rest y) (Hc : c ∈ stored y) (Hvalid : valid c = true)
    (Hothers : ∀ d, d ∈ stored x → cluster_id d ≠ cluster_id c → conflicts d c = false) :
  let after := {| remote := without (cluster_id c) r; browsers := [removed_from (cluster_id c) x; y] |} in
  rtc (sync_step valid (λ _, False)) {| remote := r; browsers := [x; y] |} after ∧
  ∃ w w', rtc (sync_step valid (λ _, False)) after w ∧ c ∈ remote w ∧ rtc (sync_step valid (λ _, False)) w w' ∧
    ∃ z m, browsers w' !! 0%nat = Some z ∧ registry_shown z = Some m ∧ c ∈ m.
Proof.
  cbv zeta. split; [exact (removal_runs valid _ 0 x (cluster_id c) {| remote := r; browsers := [x; y] |} eq_refl (proj1 (proj2 (proj2 Hx))))|].
  set (after := {| remote := _; browsers := _ |}). destruct (Hy) as (Hly & _). apply list_elem_of_lookup in Hc as [j Hj].
  pose proof (listing_runs valid (λ _, False) 1 y after eq_refl Hly) as Hrun.
  set (w1 := set_browser 1 _ after) in Hrun.
  pose proof (sync_posts valid (λ _, False) w1 1 _ 0 _ j c eq_refl eq_refl Hj) as Hpost. set (w2 := set_remote _ _) in Hpost.
  assert (c ∈ remote w2) as Hin.
  { unfold w2. cbn. unfold server_registers. rewrite Hvalid. apply merge_step_elem. by left. }
  exists w2. eexists. split; [eapply rtc_r; [exact Hrun|exact Hpost]|]. split; [exact Hin|].
  split; [apply (listing_returns valid (λ _, False) 0 (removed_from (cluster_id c) x) w2 eq_refl); by rewrite removed_from_at_rest|].
  eexists _, _. split; [reflexivity|]. split; [reflexivity|]. apply merge_elem. left. split; [exact Hin|].
  rewrite removed_from_at_rest by done. intros d [Hd Hne]%without_elem. by apply Hothers.
Qed.

Lemma other_browser_restores_witness :
  ∃ w, rtc (sync_step (λ _, true) (λ _, False)) {| remote := []; browsers := [browser_with [other_cluster]; browser_with [shared_cluster]] |} w ∧
    shared_cluster ∈ remote w.
Proof.
  destruct (other_browser_restores (λ _, true) [shared_cluster] (browser_with [shared_cluster; other_cluster]) (browser_with [shared_cluster])
    shared_cluster) as (_ & w & _ & Hrun & Hin & _).
  - by split_and!.
  - by split_and!.
  - by left.
  - done.
  - intros d Hd Hne. apply elem_of_cons in Hd as [->|Hd]; [done|]. apply list_elem_of_singleton in Hd as ->. by vm_compute.
  - by exists w.
Defined.

(** A listing that overlaps a removal brings it back too: with one browser, a
    listing answered before the removal posts, after it, what the storage held
    when the listing began; the removal has succeeded, the storage has
    forgotten the cluster, and the server has it again. *)
Theorem listing_race_restores valid r x c (Hx : at_rest x) (Hc : c ∈ stored x) (Hvalid : valid c = true) :
  ∃ w y, rtc (sync_step valid (λ _, False)) {| remote := r; browsers := [x] |} w ∧
    browsers w = [y] ∧ deleted y = [] ∧ deletions y = [] ∧ c ∉ stored y ∧ c ∈ remote w.
Proof.
  destruct Hx as (Hl & Hp & Hd & He). apply list_elem_of_lookup in Hc as [j Hj]. set (w0 := {| remote := r; browsers := [x] |}).
  pose proof (listing_runs valid (λ _, False) 0 x w0 eq_refl Hl) as Hrun. set (w1 := set_browser 0 _ w0) in Hrun.
  pose proof (removal_runs valid (λ _, False) 0 (listing_now (answered_listing r (stored x) (stored x)) x) (cluster_id c) w1 eq_refl Hd) as Hrem.
  set (y1 := removed_from (cluster_id c) _) in Hrem.
  assert (y1 = {| stored := without (cluster_id c) (stored x); listings := [answered_listing r (stored x) (stored x)]; posts := posts x; deletions := [];
                  deleted := []; registry_shown := registry_shown x |}) as Hy1.
  { unfold y1, removed_from, sends_deletion, deletion_done, forgets, listing_now, with_listings. cbn. rewrite Hd. cbn. by rewrite He. }
  eexists _, (post_leaves 0 j y1). split.
  - eapply rtc_r; [etrans; [exact Hrun|exact Hrem]|]. apply (sync_posts _ _ _ 0 y1 0 (answered_listing r (stored x) (stored x)) j c);
      [reflexivity|by rewrite Hy1|exact Hj].
  - rewrite Hy1. split; [reflexivity|]. split; [reflexivity|]. split; [reflexivity|]. split; [by intros [_ ?]%without_elem|].
    cbn. unfold server_registers. rewrite Hvalid. apply merge_step_elem. by left.
Qed.

Lemma listing_race_restores_witness :
  ∃ w y, rtc (sync_step (λ _, true) (λ _, False)) {| remote := []; browsers := [browser_with [shared_cluster]] |} w ∧
    browsers w = [y] ∧ deleted y = [] ∧ deletions y = [] ∧ shared_cluster ∉ stored y ∧ shared_cluster ∈ remote w.
Proof. apply (listing_race_restores (λ _, true) [] (browser_with [shared_cluster]) shared_cluster); [by split_and!|by left|done]. Defined.
