(* ===== verification/CaptureStore.v ===== *)
(** The disk-backed capture of daemon metrics
    ([web/src/core/daemonCaptureStore.ts]).

    IndexedDB is the browser's; [IndexedStore] states what the client relies
    on (one object store, keyed by sandbox and time, whose cursors visit the
    keys in order, and transactions that take effect as a whole or not at
    all), the operations are defined and verified against it, and a sorted
    association list is an instance. *)
From S2P Require Import Prelude JsNumber Types Observability DaemonMetrics.

Definition MAX_SAFE_INTEGER : Z := 2 ^ 53 - 1.

(** The key of a point within its sandbox. *)
Definition point_time (p : DaemonMetricPoint) : Z := sampled_at_unix_ms (sample p).

Definition in_range (p : DaemonMetricPoint) : Prop := 0 ≤ point_time p ≤ MAX_SAFE_INTEGER.

(** Points in strictly increasing time. *)
Definition ordered (ps : list DaemonMetricPoint) : Prop :=
  StronglySorted (λ p q, point_time p < point_time q) ps.

(** [put]: a point replaces the one with its key. *)
Fixpoint put_point (p : DaemonMetricPoint) (ps : list DaemonMetricPoint) : list DaemonMetricPoint :=
  match ps with
  | [] => [p]
  | q :: ps => if point_time p <? point_time q then p :: q :: ps
               else if point_time p =? point_time q then p :: ps
               else q :: put_point p ps
  end.

(** [cursor.delete()] at a key. *)
Definition delete_point (t : Z) (ps : list DaemonMetricPoint) : list DaemonMetricPoint :=
  js_filter (λ q, negb (point_time q =? t)) ps.

(** ** The interface *)

Class IndexedStore (DB : Type) := {
  (** The points of [sandboxRange(sandbox)] in index order. *)
  db_points : DB → jsstr → list DaemonMetricPoint;
  db_put : jsstr → DaemonMetricPoint → DB → DB;
  db_delete : jsstr → Z → DB → DB;
  db_empty : DB;
  db_ordered db s : ordered (db_points db s);
  db_empty_points s : db_points db_empty s = [];
  db_put_points db s p : in_range p → db_points (db_put s p db) s = put_point p (db_points db s);
  db_put_other db s p s' : s ≠ s' → db_points (db_put s p db) s' = db_points db s';
  db_delete_points db s t s' :
    db_points (db_delete s t db) s' = if bool_decide (s = s') then delete_point t (db_points db s) else db_points db s';
}.

(** How a transaction ends. *)
Inductive transaction := Completes | DatabaseUnavailable | TransactionFails.

Section store.
Context {DB : Type} `{IndexedStore DB}.

(** The ["prev"] cursor over the remaining keys. *)
Fixpoint cursorPoints (cursor : list DaemonMetricPoint) (points : list DaemonMetricPoint) (limit : Z)
    : list DaemonMetricPoint :=
  match cursor with
  | [] => points
  | p :: cursor => if Z.of_nat (length points) =? limit then points
                   else cursorPoints cursor (points ++ [p]) limit
  end.

Definition readDaemonCapture (t : transaction) (db : DB) (sandboxId : jsstr) (limit : Z)
    : outcome unit (list DaemonMetricPoint) :=
  if limit <? 1 then Returns []
  else match t with
       | Completes => Returns (reverse (cursorPoints (reverse (db_points db sandboxId)) [] limit))
       | _ => Throws tt
       end.

(** The ["next"] cursor; [None] is an infinite limit. *)
Fixpoint deleteOldest (sandboxId : jsstr) (cursor : list DaemonMetricPoint) (deleted : Z) (limit : option Z)
    (db : DB) : DB :=
  match cursor with
  | [] => db
  | p :: cursor => if bool_decide (Some deleted = limit) then db
                   else deleteOldest sandboxId cursor (deleted + 1) limit (db_delete sandboxId (point_time p) db)
  end.

(** The work of a transaction, kept only if it completes. *)
Definition commit (t : transaction) (db db' : DB) : outcome unit DB :=
  match t with Completes => Returns db' | _ => Throws tt end.

Definition appendDaemonCapture (t : transaction) (db : DB) (sandboxId : jsstr) (point : DaemonMetricPoint)
    (limit : Z) : outcome unit DB :=
  let db1 := db_put sandboxId point db in
  let count := Z.of_nat (length (db_points db1 sandboxId)) in
  let excess := Z.max (count - limit) 0 in
  commit t db (if 0 <? excess
               then deleteOldest sandboxId (db_points db1 sandboxId) 0 (Some excess) db1 else db1).

Definition clearDaemonCapture (t : transaction) (db : DB) (sandboxId : jsstr) : outcome unit DB :=
  commit t db (deleteOldest sandboxId (db_points db sandboxId) 0 None db).

(** ** Facts *)

Lemma delete_point_head p ps : ordered (p :: ps) → delete_point (point_time p) (p :: ps) = ps.
Proof.
  intros Hord. apply StronglySorted_inv in Hord as [_ Hp]. unfold delete_point. cbn [js_filter List.filter].
  rewrite Z.eqb_refl. cbn [negb]. induction Hp as [|q ps Hq _ IH]; [done|]. cbn [List.filter].
  rewrite (proj2 (Z.eqb_neq _ _)) by lia. cbn [negb]. by rewrite IH.
Qed.

Lemma deleteOldest_other s other cursor limit : s ≠ other → ∀ deleted db,
  db_points (deleteOldest s cursor deleted limit db) other = db_points db other.
Proof.
  intros Hne. induction cursor as [|p cursor IH]; intros deleted db; [done|]. cbn [deleteOldest].
  case_bool_decide; [done|]. rewrite IH, db_delete_points. by rewrite bool_decide_false.
Qed.

Lemma deleteOldest_points s cursor limit : ∀ deleted db,
  db_points db s = cursor → 0 ≤ deleted → (∀ n, limit = Some n → deleted ≤ n) →
  db_points (deleteOldest s cursor deleted limit db) s =
  match limit with Some n => drop (Z.to_nat (n - deleted)) cursor | None => [] end.
Proof.
  induction cursor as [|p cursor IH]; intros deleted db Hdb Hd Hlimit; cbn [deleteOldest].
  { rewrite Hdb. destruct limit; [by rewrite drop_nil|done]. }
  pose proof (db_ordered db s) as Hord. rewrite Hdb in Hord. case_bool_decide as Hstop.
  - subst limit. rewrite Hdb, Z.sub_diag. done.
  - rewrite IH.
    + destruct limit as [n|]; [|done]. specialize (Hlimit n eq_refl).
      replace (Z.to_nat (n - deleted)) with (S (Z.to_nat (n - (deleted + 1)))) by (assert (deleted ≠ n) by congruence; lia).
      done.
    + rewrite db_delete_points, bool_decide_true, Hdb by done. by apply delete_point_head.
    + lia.
    + intros n ->. specialize (Hlimit n eq_refl). assert (deleted ≠ n) by congruence. lia.
Qed.

Lemma cursorPoints_take cursor limit : ∀ points,
  Z.of_nat (length points) ≤ limit →
  cursorPoints cursor points limit = points ++ take (Z.to_nat (limit - Z.of_nat (length points))) cursor.
Proof.
  induction cursor as [|p cursor IH]; intros points Hle; cbn [cursorPoints].
  { by rewrite take_nil, app_nil_r. }
  destruct (Z.eqb_spec (Z.of_nat (length points)) limit) as [Heq|Hne].
  - rewrite <- Heq, Z.sub_diag. cbn. by rewrite app_nil_r.
  - rewrite IH by (rewrite length_app; cbn; lia). rewrite <- app_assoc, length_app. cbn [length app].
    replace (Z.to_nat (limit - Z.of_nat (length points)))
      with (S (Z.to_nat (limit - Z.of_nat (length points + 1)))) by lia. done.
Qed.

Lemma read_points t db s limit :
  readDaemonCapture t db s limit =
  if limit <? 1 then Returns []
  else match t with Completes => Returns (slice_last (Z.to_nat limit) (db_points db s)) | _ => Throws tt end.
Proof.
  unfold readDaemonCapture. destruct (Z.ltb_spec limit 1); [done|]. destruct t; try done.
  rewrite cursorPoints_take by (cbn; lia). cbn [length app]. rewrite Z.sub_0_r. f_equal.
  unfold slice_last. destruct (Z.to_nat limit) as [|n] eqn:Hn; [lia|]. rewrite <- Hn.
  rewrite take_reverse, reverse_involutive. done.
Qed.

Lemma put_point_newest p ps : Forall (λ q, point_time q < point_time p) ps → put_point p ps = ps ++ [p].
Proof.
  induction 1 as [|q ps Hq _ IH]; [done|]. cbn [put_point].
  rewrite (proj2 (Z.ltb_ge _ _)), (proj2 (Z.eqb_neq _ _)) by lia. by rewrite IH.
Qed.

Lemma append_other t db s p limit db' other :
  appendDaemonCapture t db s p limit = Returns db' → other ≠ s → db_points db' other = db_points db other.
Proof.
  unfold appendDaemonCapture, commit. destruct t; try done. intros [= <-] Hne.
  destruct (0 <? _); rewrite ?deleteOldest_other by done; by apply db_put_other.
Qed.

Lemma append_points db s p limit db' :
  in_range p → 0 ≤ limit → appendDaemonCapture Completes db s p limit = Returns db' →
  let ps := put_point p (db_points db s) in db_points db' s = drop (length ps - Z.to_nat limit) ps.
Proof.
  intros Hp Hl. unfold appendDaemonCapture, commit. intros [= <-]. cbv zeta.
  rewrite db_put_points by done. set (ps := put_point p (db_points db s)) in *.
  destruct (Z.ltb_spec 0 (Z.max (Z.of_nat (length ps) - limit) 0)).
  - rewrite (deleteOldest_points s ps (Some (Z.max (Z.of_nat (length ps) - limit) 0)));
      [|by apply db_put_points|lia|intros n [= <-]; lia]. f_equal. lia.
  - rewrite db_put_points by done. replace (length ps - Z.to_nat limit)%nat with 0%nat by lia. done.
Qed.

Lemma clear_points db s db' :
  clearDaemonCapture Completes db s = Returns db' →
  db_points db' s = [] ∧ (∀ other, other ≠ s → db_points db' other = db_points db other).
Proof.
  unfold clearDaemonCapture, commit. intros [= <-]. split; [by rewrite (deleteOldest_points s _ None)|].
  intros other Hne. by rewrite deleteOldest_other.
Qed.
End store.

(** The capture on disk is a bounded log per sandbox: after appending a
    point, reading gives the newest points, oldest first, the appended one
    among them in its place, never more than the limit; clearing forgets all
    of them; other sandboxes' captures never change; and a transaction that
    fails throws without changing anything. *)
Theorem capture_log {DB} `{IndexedStore DB} t (db : DB) s p limit n
    (Hp : in_range p) (Hlimit : 1 ≤ limit) (Hn : 1 ≤ n) :
  match appendDaemonCapture t db s p limit, clearDaemonCapture t db s with
  | Returns db1, Returns db2 =>
      t = Completes ∧
      readDaemonCapture Completes db1 s n =
        Returns (slice_last (Z.to_nat n) (slice_last (Z.to_nat limit) (put_point p (db_points db s)))) ∧
      Z.of_nat (length (db_points db1 s)) ≤ limit ∧
      readDaemonCapture Completes db2 s n = Returns [] ∧
      (∀ other, other ≠ s → readDaemonCapture Completes db1 other n = readDaemonCapture Completes db other n ∧
                           readDaemonCapture Completes db2 other n = readDaemonCapture Completes db other n)
  | Throws _, Throws _ => t ≠ Completes
  | _, _ => False
  end.
Proof.
  destruct (appendDaemonCapture t db s p limit) as [db1|] eqn:Ha; [|by destruct t].
  destruct t; try done. pose proof (λ other, append_other _ _ _ _ _ _ other Ha) as Ho.
  apply append_points in Ha as Hps; [|done|lia].
  destruct (clearDaemonCapture Completes db s) as [db2|] eqn:Hc; [|done].
  apply clear_points in Hc as [Hps2 Ho2]. rewrite !read_points, (proj2 (Z.ltb_ge _ _)) by lia.
  assert (slice_last (Z.to_nat limit) (put_point p (db_points db s)) = db_points db1 s) as Hslice.
  { rewrite Hps. unfold slice_last. destruct (Z.to_nat limit) eqn:?; [lia|done]. }
  split_and!; [done|by rewrite Hslice| |rewrite Hps2; by destruct (Z.to_nat n)|].
  - rewrite <- Hslice, slice_last_length by lia. lia.
  - intros other Hne. by rewrite !read_points, Ho, Ho2 by done.
Qed.

(** ** An instance: sorted lists per sandbox *)

Lemma put_point_elem p ps q : q ∈ put_point p ps → q = p ∨ q ∈ ps.
Proof.
  induction ps as [|r ps IH]; cbn [put_point]; [set_solver|].
  destruct (_ <? _); [set_solver|]. destruct (_ =? _); [set_solver|]. set_solver.
Qed.

Lemma put_point_ordered p ps : ordered ps → ordered (put_point p ps).
Proof.
  induction 1 as [|q ps Hps IH Hq]; cbn [put_point]; [by repeat constructor|].
  destruct (Z.ltb_spec (point_time p) (point_time q)).
  - constructor; [by constructor|]. constructor; [done|]. eapply Forall_impl; [exact Hq|]. cbn. lia.
  - destruct (Z.eqb_spec (point_time p) (point_time q)) as [Heq|Hne].
    + constructor; [done|]. eapply Forall_impl; [exact Hq|]. cbn. lia.
    + constructor; [done|]. apply Forall_forall. intros r [-> |Hr]%put_point_elem; [lia|].
      rewrite Forall_forall in Hq. auto.
Qed.

Lemma delete_point_ordered t ps : ordered ps → ordered (delete_point t ps).
Proof.
  induction 1 as [|q ps Hps IH Hq]; [constructor|]. unfold delete_point. cbn [js_filter List.filter].
  destruct (negb _); [|done]. constructor; [done|]. apply Forall_forall. intros r [Hr _]%js_filter_elem.
  rewrite Forall_forall in Hq. auto.
Qed.

Record sorted_store := {
  table : gmap jsstr (list DaemonMetricPoint);
  table_ordered : map_Forall (λ _ ps, ordered ps) table;
}.

Definition table_points (m : gmap jsstr (list DaemonMetricPoint)) (s : jsstr) : list DaemonMetricPoint := m !! s ?? [].

Lemma table_points_ordered (m : sorted_store) s : ordered (table_points (table m) s).
Proof.
  unfold table_points. destruct (table m !! s) as [ps|] eqn:Hs; [|constructor].
  exact (table_ordered m s ps Hs).
Qed.

Program Definition update_store (f : list DaemonMetricPoint → list DaemonMetricPoint)
    (Hf : ∀ ps, ordered ps → ordered (f ps)) (s : jsstr) (m : sorted_store) : sorted_store :=
  {| table := <[s := f (table_points (table m) s)]> (table m) |}.
Next Obligation.
  intros f Hf s m s' ps. destruct (decide (s = s')) as [<-|Hne].
  - rewrite lookup_insert_eq. intros [= <-]. apply Hf, table_points_ordered.
  - rewrite lookup_insert_ne by done. apply table_ordered.
Qed.

Lemma update_store_points f Hf s m s' :
  table_points (table (update_store f Hf s m)) s' =
  if bool_decide (s = s') then f (table_points (table m) s) else table_points (table m) s'.
Proof.
  unfold table_points at 1. cbn. case_bool_decide as Hs.
  - subst. by rewrite lookup_insert_eq.
  - by rewrite lookup_insert_ne.
Qed.

Program Definition empty_store : sorted_store := {| table := ∅ |}.
Next Obligation. intros s ps Hs. by rewrite lookup_empty in Hs. Qed.

#[export] Program Instance sorted_store_indexed : IndexedStore sorted_store := {|
  db_points m s := table_points (table m) s;
  db_put s p m := update_store (put_point p) (put_point_ordered p) s m;
  db_delete s t m := update_store (delete_point t) (delete_point_ordered t) s m;
  db_empty := empty_store;
|}.
Next Obligation. apply table_points_ordered. Qed.
Next Obligation. done. Qed.
Next Obligation. intros. cbv beta. rewrite update_store_points. by rewrite bool_decide_true. Qed.
Next Obligation. intros. cbv beta. rewrite update_store_points. by rewrite bool_decide_false. Qed.
Next Obligation. intros. apply update_store_points. Qed.

Definition example_point (t : Z) : DaemonMetricPoint := deriveDaemonMetric None (example_sample 1 t 50).

Lemma capture_log_witness :
  match appendDaemonCapture Completes empty_store (js "a") (example_point 5) 2 with
  | Returns db => Z.of_nat (length (db_points db (js "a"))) ≤ 2
  | Throws _ => False
  end.
Proof.
  assert (in_range (example_point 5)) as Hp by (split; vm_compute; discriminate).
  pose proof (capture_log Completes empty_store (js "a") (example_point 5) 2 1 Hp ltac:(lia) ltac:(lia)) as Hlog.
  destruct (appendDaemonCapture _ _ _ _ _), (clearDaemonCapture _ _ _); try (destruct Hlog; fail).
  - exact (proj1 (proj2 (proj2 Hlog))).
  - exact (Hlog eq_refl).
Defined.
