(* ===== verification/DaemonCapture.v ===== *)
(** The capture hook ([web/src/pages/sandbox/observability/useDaemonCapture.ts]):
    the visible history and stored count of a sandbox, kept in step with the
    store by a queue of asynchronous jobs. A job runs in steps, one per
    [await]; between them anything may happen: other queues' jobs run, the
    view moves to another sandbox or goes away. The generation number tells a
    job whether the view it was queued for is still there. *)
From S2P Require Import Prelude JsNumber Types Observability DaemonMetrics CaptureStore.

Definition DAEMON_VISIBLE_HISTORY_LIMIT : Z := 300.

(** The refs and states of the hook; [historyRef] and [history],
    [storedCountRef] and [storedCount] are always set together. *)
Record capture_view := {
  generation : Z;
  view_sandbox : jsstr;
  history : list DaemonMetricPoint;
  storedCount : Z;
  ready : bool;
  failed : bool;
}.

(** Where a job is: what it will do at its next step. *)
Inductive job_step :=
  | LoadCapture
  | RecordSample (s : DaemonProcessMetrics)
  | RecordClear (next : list DaemonMetricPoint)
  | RecordAppend (restarted : bool) (next : list DaemonMetricPoint)
  | RecordShow (restarted : bool) (next : list DaemonMetricPoint)
  | ClearCapture
  | ClearShow.

Record job := { job_generation : Z; job_sandbox : jsstr; job_next : job_step }.

Definition at_step (j : job) (n : job_step) : job :=
  {| job_generation := job_generation j; job_sandbox := job_sandbox j; job_next := n |}.

Definition with_history (v : capture_view) (h : list DaemonMetricPoint) (count : Z) (r : bool) : capture_view :=
  {| generation := generation v; view_sandbox := view_sandbox v; history := h; storedCount := count;
     ready := r; failed := failed v |}.

(** [reportFailure]. *)
Definition reportFailure (g : Z) (v : capture_view) : capture_view :=
  if negb (g =? generation v) then v
  else {| generation := generation v; view_sandbox := view_sandbox v; history := history v;
          storedCount := storedCount v; ready := false; failed := true |}.

(** The effect of a new sandbox: the clean-up and the new generation. *)
Definition mount (sandboxId : jsstr) (v : capture_view) : capture_view :=
  {| generation := generation v + 2; view_sandbox := sandboxId; history := []; storedCount := 0;
     ready := false; failed := false |}.

Definition unmount (v : capture_view) : capture_view :=
  {| generation := generation v + 1; view_sandbox := view_sandbox v; history := history v;
     storedCount := storedCount v; ready := ready v; failed := failed v |}.

Definition new_job (v : capture_view) (n : job_step) : job :=
  {| job_generation := generation v; job_sandbox := view_sandbox v; job_next := n |}.

(** The job a sample queues; [ready] is that of the render the callback
    belongs to, which may be of the view before. *)
Definition recordSample (rendered_ready : bool) (smp : DaemonProcessMetrics) (v : capture_view) : option job :=
  if negb rendered_ready || negb (available smp) then None else Some (new_job v (RecordSample smp)).

Section hook.
Context {DB : Type} `{IndexedStore DB}.

(** One step of a job: the view, the store and the rest of the job. The
    transaction of the step, if it makes one, ends as [t] says. *)
Definition run_job (t : transaction) (j : job) (v : capture_view) (db : DB)
    : capture_view * DB * option job :=
  let g := job_generation j in
  let s := job_sandbox j in
  match job_next j with
  | LoadCapture =>
      match readDaemonCapture t db s DAEMON_HISTORY_LIMIT with
      | Throws _ => (reportFailure g v, db, None)
      | Returns stored =>
          if negb (g =? generation v) then (v, db, None)
          else (with_history v (slice_last (Z.to_nat DAEMON_VISIBLE_HISTORY_LIMIT) stored)
                  (Z.of_nat (length stored)) true, db, None)
      end
  | RecordSample smp =>
      if negb (g =? generation v) then (v, db, None)
      else match daemon_metric_next (history v) smp DAEMON_VISIBLE_HISTORY_LIMIT with
           | None => (v, db, None)
           | Some next =>
               let restarted := (0 <? length (history v))%nat && (length next =? 1)%nat in
               (v, db, Some (at_step j (if restarted then RecordClear next else RecordAppend false next)))
           end
  | RecordClear next =>
      match clearDaemonCapture t db s with
      | Throws _ => (reportFailure g v, db, None)
      | Returns db => (v, db, Some (at_step j (RecordAppend true next)))
      end
  | RecordAppend restarted next =>
      match last next with
      | None => (v, db, None)
      | Some p =>
          match appendDaemonCapture t db s p DAEMON_HISTORY_LIMIT with
          | Throws _ => (reportFailure g v, db, None)
          | Returns db => (v, db, Some (at_step j (RecordShow restarted next)))
          end
      end
  | RecordShow restarted next =>
      if negb (g =? generation v) then (v, db, None)
      else let count := if restarted then 1 else Z.min (storedCount v + 1) DAEMON_HISTORY_LIMIT in
           (with_history v next count (ready v), db, None)
  | ClearCapture =>
      match clearDaemonCapture t db s with
      | Throws _ => (reportFailure g v, db, None)
      | Returns db => (v, db, Some (at_step j ClearShow))
      end
  | ClearShow =>
      if negb (g =? generation v) then (v, db, None)
      else (with_history v [] 0 (ready v), db, None)
  end.

(** The whole capture of a sandbox, once the queue it was asked in is done. *)
Definition readFullCapture (t : transaction) (s : jsstr) (g : Z) (v : capture_view) (db : DB)
    : capture_view * outcome unit (list DaemonMetricPoint) :=
  match readDaemonCapture t db s DAEMON_HISTORY_LIMIT with
  | Returns stored => (v, Returns stored)
  | Throws e => (reportFailure g v, Throws e)
  end.

(** ** The hook and its store as a transition system *)

(** The queue of the view and those of the views before it. *)
Record world := {
  view : capture_view;
  mounted : bool;
  store : DB;
  queue : list job;
  stale : list (list job);
}.

Definition rest_of (o : option job) (q : list job) : list job :=
  match o with Some j => j :: q | None => q end.

(** The view is given a sandbox, which may be one it showed before: the jobs of
    the view it leaves go on, and their queue is not waited for. *)
Definition mount_world (s : jsstr) (w : world) : world :=
  {| view := mount s (view w); mounted := true; store := store w;
     queue := [new_job (mount s (view w)) LoadCapture]; stale := queue w :: stale w |}.

(** A job of an earlier view takes its next step. *)
Inductive stale_step (j : job) (w : world) : world → Prop :=
  | stale_runs t q1 q q2 v' db' o :
      stale w = q1 ++ (j :: q) :: q2 → run_job t j (view w) (store w) = (v', db', o) →
      stale_step j w {| view := v'; mounted := mounted w; store := db'; queue := queue w; stale := q1 ++ rest_of o q :: q2 |}.

Inductive world_step : world → world → Prop :=
  | step_mount s w : world_step w (mount_world s w)
  | step_unmount w :
      world_step w {| view := unmount (view w); mounted := false; store := store w;
                      queue := []; stale := queue w :: stale w |}
  | step_record rendered_ready smp j w :
      mounted w = true → recordSample rendered_ready smp (view w) = Some j →
      0 ≤ sampled_at_unix_ms smp ≤ MAX_SAFE_INTEGER →
      world_step w {| view := view w; mounted := true; store := store w;
                      queue := queue w ++ [j]; stale := stale w |}
  | step_clear w :
      mounted w = true →
      world_step w {| view := view w; mounted := true; store := store w;
                      queue := queue w ++ [new_job (view w) ClearCapture]; stale := stale w |}
  | step_read t s g w :
      world_step w {| view := (readFullCapture t s g (view w) (store w)).1; mounted := mounted w; store := store w;
                      queue := queue w; stale := stale w |}
  | step_job t j q v' db' o w :
      queue w = j :: q → run_job t j (view w) (store w) = (v', db', o) →
      world_step w {| view := v'; mounted := mounted w; store := db';
                      queue := rest_of o q; stale := stale w |}
  | step_stale j w w' : stale_step j w w' → world_step w w'.

Definition initial_world (db : DB) (s : jsstr) : world :=
  {| view := {| generation := 0; view_sandbox := s; history := []; storedCount := 0; ready := false; failed := false |};
     mounted := false; store := db; queue := []; stale := [] |}.

Inductive reachable_world (db : DB) (s : jsstr) : world → Prop :=
  | world_init : reachable_world db s (initial_world db s)
  | world_next w w' : reachable_world db s w → world_step w w' → reachable_world db s w'.
End hook.
Arguments world : clear implicits.

(** ** Facts: what a step of a job may change *)

Section facts.
Context {DB : Type} `{IndexedStore DB}.
Implicit Types (v : capture_view) (db : DB) (j : job).

Ltac job_cases := unfold run_job; repeat case_match; intros; simplify_eq; try done.

Lemma run_job_same t j v db v' db' j' :
  run_job t j v db = (v', db', Some j') → job_generation j' = job_generation j ∧ job_sandbox j' = job_sandbox j.
Proof. job_cases. Qed.

Lemma run_job_identity t j v db v' db' o :
  run_job t j v db = (v', db', o) → generation v' = generation v ∧ view_sandbox v' = view_sandbox v.
Proof. job_cases; unfold reportFailure; by destruct (negb _). Qed.

Lemma run_job_stale_view t j v db v' db' o :
  run_job t j v db = (v', db', o) → job_generation j ≠ generation v → v' = v.
Proof.
  intros Hrun Hne. assert (job_generation j =? generation v = false) as Hg by by apply Z.eqb_neq.
  assert (reportFailure (job_generation j) v = v) as Hf by (unfold reportFailure; by rewrite Hg).
  revert Hrun. unfold run_job. rewrite Hg, Hf. cbn [negb]. repeat case_match; intros; simplify_eq; done.
Qed.

Lemma clear_other t db s db' other :
  clearDaemonCapture t db s = Returns db' → other ≠ s → db_points db' other = db_points db other.
Proof. destruct t; [|done..]. intros [_ Ho]%clear_points. auto. Qed.

Lemma run_job_store t j v db v' db' o other :
  run_job t j v db = (v', db', o) → other ≠ job_sandbox j → db_points db' other = db_points db other.
Proof. job_cases; solve [by eapply clear_other|by eapply append_other]. Qed.

(** ** Slices of the newest points *)

Lemma slice_last_snoc {A} (n : nat) (l : list A) x :
  (0 < n)%nat → slice_last n (slice_last n l ++ [x]) = slice_last n (l ++ [x]).
Proof.
  intros Hn. unfold slice_last. destruct n as [|n]; [lia|]. rewrite !length_app, length_drop. cbn [length].
  destruct (decide (length l ≤ S n)%nat).
  - replace (length l - S n)%nat with 0%nat by lia. rewrite drop_0. f_equal. lia.
  - rewrite (drop_app_le l) by lia. rewrite drop_app_le by (rewrite length_drop; lia).
    rewrite drop_drop. do 2 f_equal. lia.
Qed.

Lemma slice_last_slice {A} (a b : nat) (l : list A) :
  (0 < a ≤ b)%nat → slice_last a (slice_last b l) = slice_last a l.
Proof.
  intros Hab. unfold slice_last. destruct a as [|a], b as [|b]; try lia.
  rewrite drop_drop, length_drop. f_equal. lia.
Qed.

Lemma slice_last_last {A} n (l : list A) : (0 < n)%nat → last (slice_last n l) = last l.
Proof.
  intros Hn. unfold slice_last. destruct n as [|n]; [lia|].
  destruct l as [|x l _] using rev_ind; [done|].
  rewrite drop_app_le by (rewrite length_app; cbn; lia). by rewrite !last_snoc.
Qed.

(** ** The invariant *)

(** The view shows the newest stored points and counts them up to the limit. *)
Definition view_ok v (ps : list DaemonMetricPoint) : Prop :=
  history v = slice_last 300 ps ∧ storedCount v = Z.min (Z.of_nat (length ps)) 900.

(** A job that waits for its turn. *)
Definition waiting (n : job_step) : Prop :=
  match n with
  | RecordSample smp => 0 ≤ sampled_at_unix_ms smp ≤ MAX_SAFE_INTEGER
  | ClearCapture => True
  | _ => False
  end.

(** What holds of the view and the store, given where the first job is. *)
Definition stage_ok v (ps : list DaemonMetricPoint) (n : job_step) : Prop :=
  match n with
  | LoadCapture => False
  | RecordSample _ | ClearCapture => view_ok v ps
  | RecordClear next => view_ok v ps ∧ ∃ p, next = [p] ∧ in_range p
  | RecordAppend restarted next =>
      ∃ p, in_range p ∧
      if restarted then next = [p] ∧ ps = []
      else next = slice_last 300 (ps ++ [p]) ∧ view_ok v ps ∧ Forall (λ q, point_time q < point_time p) ps
  | RecordShow restarted next =>
      next = slice_last 300 ps ∧
      Z.of_nat (length ps) = (if restarted then 1 else Z.min (storedCount v + 1) 900)
  | ClearShow => ps = []
  end.

Definition own_job v j : Prop := job_generation j = generation v ∧ job_sandbox j = view_sandbox v.

Record world_ok (w : world DB) : Prop := {
  ok_stale : ∀ q j, q ∈ stale w → j ∈ q → job_generation j < generation (view w);
  ok_unmounted : mounted w = false → queue w = [];
  ok_own : ∀ j, j ∈ queue w → own_job (view w) j;
  ok_tail : ∀ j q, queue w = j :: q → Forall (λ j, waiting (job_next j)) q;
  ok_head : ∀ j q, queue w = j :: q →
    match job_next j with RecordSample _ as n => waiting n | _ => True end;
}.

(** A view that is ready is in step with the store, as far as its first job is. *)
Definition in_step (w : world DB) : Prop :=
  mounted w = true → ready (view w) = true →
  match queue w with
  | [] => view_ok (view w) (db_points (store w) (view_sandbox (view w)))
  | j :: _ => stage_ok (view w) (db_points (store w) (view_sandbox (view w))) (job_next j)
  end.

(** The steps that change what is stored. *)
Definition writes (n : job_step) : bool :=
  match n with RecordClear _ | RecordAppend _ _ | ClearCapture => true | _ => false end.

Lemma run_job_reads t j v db v' db' o : run_job t j v db = (v', db', o) → writes (job_next j) = false → db' = db.
Proof. job_cases. Qed.

Lemma waiting_stage v ps n : waiting n → view_ok v ps → stage_ok v ps n.
Proof. by destruct n. Qed.

Lemma view_last v ps : view_ok v ps → last (history v) = last ps.
Proof. intros [-> _]. apply slice_last_last. lia. Qed.

Lemma ordered_before_last ps l q : ordered ps → last ps = Some l → q ∈ ps → point_time q ≤ point_time l.
Proof.
  intros Hord [ps' ->]%last_Some Hq. apply elem_of_app in Hq as [Hq| ->%list_elem_of_singleton]; [|lia].
  apply StronglySorted_app in Hord as (Hlt & _ & _). specialize (Hlt q l Hq). set_solver by lia.
Qed.

(** The step of a record job that computes the next history. *)
Lemma record_stage v db smp next :
  0 ≤ sampled_at_unix_ms smp ≤ MAX_SAFE_INTEGER →
  view_ok v (db_points db (view_sandbox v)) →
  daemon_metric_next (history v) smp DAEMON_VISIBLE_HISTORY_LIMIT = Some next →
  stage_ok v (db_points db (view_sandbox v))
    (if (0 <? length (history v))%nat && (length next =? 1)%nat then RecordClear next else RecordAppend false next).
Proof.
  intros Hs Hview (p & Hp & _ & _ & Hnewer & Hnext)%daemon_metric_next_Some.
  assert (in_range p) as Hrange by (unfold in_range, point_time; by rewrite Hp).
  assert (Forall (λ q, point_time q < point_time p) (db_points db (view_sandbox v))) as Hbefore.
  { apply Forall_forall. intros q Hq. unfold point_time at 2. rewrite Hp.
    destruct (last (db_points db (view_sandbox v))) as [l|] eqn:Hl; [|by apply last_None in Hl as Hnil; rewrite Hnil in Hq; apply not_elem_of_nil in Hq].
    pose proof (ordered_before_last _ _ _ (db_ordered _ _) Hl Hq) as Hle.
    rewrite <- (view_last _ _ Hview) in Hl. specialize (Hnewer l Hl). unfold point_time in *. lia. }
  destruct Hview as [Hh Hc]. destruct Hnext as [[-> Hsame]|[-> Hne]].
  - change (Z.to_nat DAEMON_VISIBLE_HISTORY_LIMIT) with 300%nat.
    assert ((0 <? length (history v))%nat && (length (slice_last 300 (history v ++ [p])) =? 1)%nat = false) as ->.
    { rewrite slice_last_length, length_app by lia. cbn [length].
      destruct (Nat.ltb_spec 0 (length (history v))); [|done]. cbn [andb]. apply Nat.eqb_neq. lia. }
    exists p. split; [done|]. rewrite Hh, slice_last_snoc by lia. done.
  - rewrite (proj2 (Nat.ltb_lt _ _)) by (destruct (history v); [done|cbn; lia]). cbn. split; [done|]. by exists p.
Qed.

Lemma append_stage v db s db' restarted next p :
  s = view_sandbox v → stage_ok v (db_points db s) (RecordAppend restarted next) → last next = Some p →
  appendDaemonCapture Completes db s p DAEMON_HISTORY_LIMIT = Returns db' →
  stage_ok v (db_points db' s) (RecordShow restarted next).
Proof.
  intros Hs (p' & Hp' & Hstage) Hlast Happ.
  assert (p' = p) as ->.
  { destruct restarted; destruct Hstage as [-> _]; [by injection Hlast|].
    rewrite slice_last_last, last_snoc in Hlast by lia. by injection Hlast. }
  apply append_points in Happ as ->; [|done|done].
  change (Z.to_nat DAEMON_HISTORY_LIMIT) with 900%nat. destruct restarted.
  - destruct Hstage as [-> ->]. done.
  - destruct Hstage as (-> & [Hh Hc] & Hbefore). rewrite put_point_newest by done. rewrite length_app. cbn [length].
    change (drop (length (db_points db s) + 1 - 900) (db_points db s ++ [p])) with
      (drop (length (db_points db s) + 1 - 900) (db_points db s ++ [p])).
    replace (drop _ (db_points db s ++ [p])) with (slice_last 900 (db_points db s ++ [p]))
      by (unfold slice_last; by rewrite length_app).
    split; [by rewrite slice_last_slice by lia|]. rewrite slice_last_length, length_app by lia. cbn [length]. lia.
Qed.

(** What is left of a job is of the same view, and is not a sample again. *)
Lemma run_job_rest t j v db v' db' o :
  run_job t j v db = (v', db', o) → own_job v j →
  match o with Some j' => own_job v' j' ∧ match job_next j' with RecordSample _ => False | _ => True end | None => True end.
Proof.
  intros Hrun [Hg Hs]. destruct o as [j'|]; [|done]. destruct (run_job_same _ _ _ _ _ _ _ Hrun) as [Hg' Hs'].
  destruct (run_job_identity _ _ _ _ _ _ _ Hrun) as [Hg1 Hs1]. split; [split; congruence|].
  revert Hrun. unfold run_job. repeat case_match; intros; simplify_eq; done.
Qed.

(** One step of the view's own first job. *)
Lemma own_step t j v db v' db' o :
  own_job v j →
  match job_next j with RecordSample _ as n => waiting n | _ => True end →
  (ready v = true → stage_ok v (db_points db (view_sandbox v)) (job_next j)) →
  run_job t j v db = (v', db', o) →
  ready v' = true →
  match o with
  | Some j' => stage_ok v' (db_points db' (view_sandbox v')) (job_next j')
  | None => view_ok v' (db_points db' (view_sandbox v'))
  end.
Proof.
  intros [Hg Hs] Hwait Hstage Hrun. unfold run_job in Hrun. rewrite Hg, Hs, Z.eqb_refl in Hrun. cbn [negb] in Hrun.
  assert (∀ d, ready (reportFailure (generation v) v) = true → view_ok (reportFailure (generation v) v) d) as Hfail
    by (unfold reportFailure; by rewrite Z.eqb_refl).
  destruct (job_next j) as [|smp|next|restarted next|restarted next| |] eqn:Hn.
  - rewrite read_points in Hrun. cbn in Hrun. destruct t; simplify_eq; [|by apply Hfail..].
    intros _. split; cbn [history storedCount with_history view_sandbox].
    + change (Z.to_nat DAEMON_HISTORY_LIMIT) with 900%nat. change (Z.to_nat DAEMON_VISIBLE_HISTORY_LIMIT) with 300%nat.
      by rewrite slice_last_slice by lia.
    + change (Z.to_nat DAEMON_HISTORY_LIMIT) with 900%nat. rewrite slice_last_length by lia. lia.
  - destruct (daemon_metric_next _ _ _) as [next|] eqn:Hnext; simplify_eq; [|done].
    intros Hr. cbn [at_step job_next]. apply record_stage with smp; auto. by apply Hstage.
  - destruct (clearDaemonCapture _ _ _) as [db1|] eqn:Hc; simplify_eq; [|by apply Hfail].
    intros Hr. destruct (Hstage Hr) as (_ & p & -> & Hp).
    destruct t; [|done..]. apply clear_points in Hc as [Hps _]. by exists p.
  - destruct (last next) as [p|] eqn:Hl; simplify_eq.
    + destruct (appendDaemonCapture _ _ _ _ _) as [db1|] eqn:Ha; simplify_eq; [|by apply Hfail].
      intros Hr. destruct t; [|done..]. eapply append_stage; [done|by apply Hstage|done..].
    + intros Hr. destruct (Hstage Hr) as (p & _ & Hst). exfalso.
      destruct restarted; destruct Hst as [-> _]; [done|].
      rewrite slice_last_last, last_snoc in Hl by lia. done.
  - simplify_eq. cbn [ready with_history]. intros Hr. destruct (Hstage Hr) as [-> Hlen].
    split; [done|]. cbn [storedCount with_history view_sandbox]. change DAEMON_HISTORY_LIMIT with 900 in *.
    destruct restarted; lia.
  - destruct (clearDaemonCapture _ _ _) as [db1|] eqn:Hc; simplify_eq; [|by apply Hfail].
    intros Hr. destruct t; [|done..]. by apply clear_points in Hc as [Hps _].
  - simplify_eq. cbn [ready with_history]. intros Hr. cbn in Hstage. specialize (Hstage Hr).
    cbn [view_sandbox with_history]. rewrite Hstage. done.
Qed.
End facts.

Section invariant.
Context {DB : Type} `{IndexedStore DB}.
Implicit Types (w : world DB).

(** ** Facts: the queues *)

Lemma left_jobs_older w : world_ok w → ∀ q j, q ∈ queue w :: stale w → j ∈ q → job_generation j ≤ generation (view w).
Proof.
  intros [Hst _ Hown _ _] q j [->|Hq]%elem_of_cons Hj; [by destruct (Hown j Hj) as [-> _]|]. specialize (Hst q j Hq Hj). lia.
Qed.

Lemma world_ok_mount s w : world_ok w → world_ok (mount_world s w).
Proof.
  intros Hok. split; cbn [mount_world view mounted store queue stale]; try done.
  - intros q j Hq Hj. pose proof (left_jobs_older w Hok q j Hq Hj). cbn [mount generation]. lia.
  - by intros j ->%list_elem_of_singleton.
  - intros j q [= <- <-]. constructor.
  - by intros j q [= <- <-].
Qed.

Lemma world_ok_unmount w :
  world_ok w →
  world_ok {| view := unmount (view w); mounted := false; store := store w; queue := []; stale := queue w :: stale w |}.
Proof.
  intros Hok. split; cbn [view mounted store queue stale]; try done.
  - intros q j Hq Hj. pose proof (left_jobs_older w Hok q j Hq Hj). cbn [unmount generation]. lia.
  - by intros j ?%not_elem_of_nil.
Qed.

Lemma world_ok_enqueue w n :
  mounted w = true → waiting n → world_ok w →
  world_ok {| view := view w; mounted := true; store := store w;
              queue := queue w ++ [new_job (view w) n]; stale := stale w |}.
Proof.
  intros Hm Hn [Hst Hun Hown Htail Hhead]. split; cbn [view mounted store queue stale]; try done.
  - intros j [Hj| ->%list_elem_of_singleton]%elem_of_app; [by apply Hown|done].
  - intros j q Hq. destruct (queue w) as [|j' q'] eqn:Hqueue.
    + injection Hq as <- <-. constructor.
    + injection Hq as <- <-. apply Forall_app. split; [by apply (Htail j' q')|by constructor].
  - intros j q Hq. destruct (queue w) as [|j' q'] eqn:Hqueue.
    + injection Hq as <- <-. by destruct n.
    + injection Hq as <- <-. by apply (Hhead j' q').
Qed.

Lemma in_step_enqueue w n :
  mounted w = true → waiting n → in_step w →
  in_step {| view := view w; mounted := true; store := store w; queue := queue w ++ [new_job (view w) n]; stale := stale w |}.
Proof.
  intros Hm Hn Hin _ Hr. specialize (Hin Hm Hr). cbn [view store queue] in *. destruct (queue w) as [|j' q']; [|done].
  by apply waiting_stage.
Qed.

(** A step of the view's own first job. *)
Lemma world_ok_job t j q v' db' o w :
  queue w = j :: q → run_job t j (view w) (store w) = (v', db', o) → world_ok w →
  let w' := {| view := v'; mounted := mounted w; store := db'; queue := rest_of o q; stale := stale w |} in
  world_ok w' ∧ (in_step w → in_step w').
Proof.
  intros Hq Hrun [Hst Hun Hown Htail Hhead].
  assert (mounted w = true) as Hm by (destruct (mounted w); [done|rewrite Hun in Hq; done]).
  specialize (Htail j q Hq). specialize (Hhead j q Hq). rewrite Hq in Hown.
  destruct (run_job_identity _ _ _ _ _ _ _ Hrun) as [Hgen Hsb].
  assert (own_job (view w) j) as Hj by (apply Hown; set_solver).
  assert (∀ j', j' ∈ q → own_job v' j') as Hq'.
  { intros j' Hj'. destruct (Hown j') as [? ?]; [set_solver|]. split; congruence. }
  assert (match o with Some j' => own_job v' j' ∧ match job_next j' with RecordSample _ => False | _ => True end | None => True end) as Ho
    by by apply (run_job_rest t j (view w) (store w) v' db').
  split; [split; cbn [view mounted store queue stale]|].
  - intros q' j' Hq1 Hj1. rewrite Hgen. by apply (Hst q').
  - intros Hf. congruence.
  - intros j' Hj'. destruct o as [j1|]; cbn [rest_of] in Hj'; [|auto].
    apply elem_of_cons in Hj' as [-> |]; [by destruct Ho|auto].
  - intros j' q' Heq. destruct o as [j1|]; cbn [rest_of] in Heq; [by injection Heq as <- <-|].
    subst q. by apply Forall_cons in Htail as [_ ?].
  - intros j' q' Heq. destruct o as [j1|]; cbn [rest_of] in Heq.
    + injection Heq as <- <-. destruct Ho as [_ Ho]. by destruct (job_next j1).
    + subst q. apply Forall_cons in Htail as [? _]. by destruct (job_next j').
  - intros Hin _ Hr. cbn [view store queue] in *. unfold in_step in Hin. rewrite Hq in Hin.
    pose proof (own_step t j (view w) (store w) v' db' o Hj Hhead (Hin Hm) Hrun Hr) as Hr'.
    destruct o as [j1|]; cbn [rest_of]; [done|]. destruct q as [|j1 q]; [done|].
    apply Forall_cons in Htail as [? _]. by apply waiting_stage.
Qed.

(** A step of a job of an earlier view, which the view does not see; what it
    stores is for its own sandbox, and only a step that writes stores anything. *)
Lemma stale_step_ok j w w' :
  stale_step j w w' → world_ok w →
  world_ok w' ∧ view w' = view w ∧
  (job_sandbox j ≠ view_sandbox (view w) ∨ writes (job_next j) = false → in_step w → in_step w').
Proof.
  intros [t q1 q q2 v' db' o Hs Hrun] [Hst Hun Hown Htail Hhead].
  pose proof (Hst (j :: q) j ltac:(rewrite Hs; set_solver) ltac:(set_solver)) as Hlt.
  assert (v' = view w) as -> by (eapply run_job_stale_view; [done|lia]).
  split; [split; cbn [view mounted store queue stale]; try done|split; [done|]].
  - intros q' j' Hq' Hj'.
    assert (q' ∈ stale w ∨ q' = rest_of o q) as [Hin| ->] by (rewrite Hs; set_solver); [by apply (Hst q')|].
    destruct o as [j1|]; cbn [rest_of] in Hj'.
    + apply elem_of_cons in Hj' as [-> |Hj']; [by destruct (run_job_same _ _ _ _ _ _ _ Hrun) as [-> _]|].
      apply (Hst (j :: q)); [rewrite Hs; set_solver|set_solver].
    + apply (Hst (j :: q)); [rewrite Hs; set_solver|set_solver].
  - intros Hquiet Hin Hm Hr. specialize (Hin Hm Hr). cbn [view store queue] in *.
    assert (db_points db' (view_sandbox (view w)) = db_points (store w) (view_sandbox (view w))) as ->; [|done].
    destruct Hquiet as [Hne|Hw]; [by apply (run_job_store _ _ _ _ _ _ _ _ Hrun)|by rewrite (run_job_reads _ _ _ _ _ _ _ Hrun Hw)].
Qed.

Lemma world_ok_read t s g w :
  let w' := {| view := (readFullCapture t s g (view w) (store w)).1; mounted := mounted w; store := store w;
               queue := queue w; stale := stale w |} in
  world_ok w → world_ok w' ∧ (in_step w → in_step w').
Proof.
  intros w' Hok. subst w'. unfold readFullCapture. destruct (readDaemonCapture _ _ _ _) as [stored|e]; cbn [fst]; [by destruct w|].
  unfold reportFailure. destruct (negb (g =? generation (view w))); [by destruct w|]. split; [by destruct Hok|done].
Qed.

(** ** Facts: the steps of the world *)

(** A step that leaves the view as it is keeps it in step, unless a job of an
    earlier view of its sandbox writes. *)
Definition late_write w w' : Prop :=
  ∃ j, stale_step j w w' ∧ job_sandbox j = view_sandbox (view w) ∧ writes (job_next j) = true.

Lemma world_step_ok w w' : world_step w w' → world_ok w →
  world_ok w' ∧ ((in_step w → in_step w') ∨ late_write w w').
Proof.
  intros Hstep Hok. destruct Hstep as [| |r smp j w Hm Hj Hs| |t s g w| |j w w' Hst].
  - split; [by apply world_ok_mount|by left].
  - split; [by apply world_ok_unmount|by left].
  - unfold recordSample in Hj. destruct (_ || _); [done|]. injection Hj as <-.
    split; [by apply world_ok_enqueue|left; by apply in_step_enqueue].
  - split; [by apply world_ok_enqueue|left; by apply in_step_enqueue].
  - destruct (world_ok_read t s g w Hok). auto.
  - edestruct world_ok_job; eauto.
  - destruct (stale_step_ok j w w' Hst Hok) as (Hok' & _ & Hin). split; [done|].
    destruct (decide (job_sandbox j = view_sandbox (view w))) as [Hj|Hj]; [|auto].
    destruct (writes (job_next j)) eqn:Hw; [right; by exists j|auto].
Qed.

Lemma reachable_world_ok db s w : reachable_world db s w → world_ok w.
Proof.
  induction 1 as [|w w' _ IH Hstep]; [|by apply (world_step_ok w)].
  split; cbn; try done; intros; by apply not_elem_of_nil in H0 || (by apply not_elem_of_nil in H1).
Qed.

(** The generation counts the views. *)
Lemma world_step_view w w' : world_step w w' →
  (generation (view w) < generation (view w') ∧ (mounted w' = true → ready (view w') = false)) ∨
  (generation (view w') = generation (view w) ∧ view_sandbox (view w') = view_sandbox (view w)).
Proof.
  destruct 1 as [| |r smp j w Hm Hj Hs| |t s g w|t j q v' db' o w Hq Hrun|j w w' [t q1 q q2 v' db' o Hs Hrun]].
  - left. cbn. split; [lia|done].
  - left. cbn. split; [lia|done].
  - by right.
  - by right.
  - right. cbn. unfold readFullCapture. destruct (readDaemonCapture _ _ _ _); [done|]. unfold reportFailure. cbn. by destruct (negb _).
  - right. by apply (run_job_identity _ _ _ _ _ _ _ Hrun).
  - right. by apply (run_job_identity _ _ _ _ _ _ _ Hrun).
Qed.

Lemma world_step_mounted w w' : world_step w w' → generation (view w') = generation (view w) → mounted w' = mounted w.
Proof. destruct 1 as [| | | | | |j w w' []]; cbn; try done; intros; lia. Qed.

(** Since the view was mounted, a job of an earlier view of the same sandbox
    has changed what is stored. *)
Definition overtaken (db : DB) (s : jsstr) w : Prop :=
  ∃ w1 w2, reachable_world db s w1 ∧ late_write w1 w2 ∧ rtc world_step w2 w ∧
    generation (view w1) = generation (view w) ∧ view_sandbox (view w1) = view_sandbox (view w).

Lemma in_step_or_overtaken db s w : reachable_world db s w → in_step w ∨ overtaken db s w.
Proof.
  induction 1 as [|w w' Hreach IH Hstep]; [by left|].
  destruct (world_step_view w w' Hstep) as [[_ Hnew]|[Hgen Hsb]]; [left; intros Hm Hr; by rewrite Hnew in Hr|].
  destruct IH as [Hin|(w1 & w2 & H1 & H2 & H3 & H4 & H5)].
  - destruct (world_step_ok w w' Hstep (reachable_world_ok _ _ _ Hreach)) as [_ [Hin'|Hlate]]; [left; auto|].
    right. exists w, w'. split_and!; [done..|apply rtc_refl|done|done].
  - right. exists w1, w2. split_and!; [done..|by eapply rtc_r|congruence|congruence].
Qed.
(** A job of an earlier view that has no write before it ends with its next step. *)
Lemma run_job_stale_ends t j v (db : DB) v' db' o :
  run_job t j v db = (v', db', o) → job_generation j ≠ generation v → writes (job_next j) = false → o = None.
Proof.
  intros Hrun Hne. assert (job_generation j =? generation v = false) as Hg by by apply Z.eqb_neq.
  revert Hrun. unfold run_job. rewrite Hg. cbn [negb]. repeat case_match; intros; simplify_eq; done.
Qed.

(** No write of an earlier view of [sb] is pending. *)
Definition quiet (sb : jsstr) w : Prop :=
  ∀ q j, q ∈ stale w → j ∈ q → job_sandbox j = sb → writes (job_next j) = false.

Lemma quiet_step sb w w' : world_step w w' → world_ok w → generation (view w') = generation (view w) → quiet sb w → quiet sb w'.
Proof.
  intros Hstep Hok Hgen Hq. destruct Hstep as [| |r smp j w Hm Hj Hs| |t s g w| |j w w' [t q1 q q2 v' db' o Hs Hrun]]; try exact Hq.
  - cbn in Hgen. lia.
  - cbn in Hgen. lia.
  - pose proof (ok_stale w Hok (j :: q) j ltac:(rewrite Hs; set_solver) ltac:(set_solver)) as Hlt.
    intros q' j' Hq' Hj' Hsb. cbn [stale] in Hq'.
    assert (q' ∈ stale w ∨ q' = rest_of o q) as [Hin| ->] by (rewrite Hs; set_solver); [by apply (Hq q')|].
    assert (j' ∈ q ∨ o = Some j') as [Hin|Ho] by (destruct o; cbn in Hj'; set_solver).
    + apply (Hq (j :: q)); [rewrite Hs; set_solver|set_solver|done].
    + rewrite Ho in Hrun. destruct (run_job_same _ _ _ _ _ _ _ Hrun) as [_ Hsame].
      assert (writes (job_next j) = false) as Hw by (apply (Hq (j :: q)); [rewrite Hs; set_solver|set_solver|congruence]).
      by pose proof (run_job_stale_ends _ _ _ _ _ _ _ Hrun ltac:(lia) Hw).
Qed.

(** The view of [sb] as long as it stands. *)
Lemma quiet_run db s w0 sb w :
  reachable_world db s w0 → (∀ q j, q ∈ queue w0 :: stale w0 → j ∈ q → job_sandbox j = sb → writes (job_next j) = false) →
  rtc world_step (mount_world sb w0) w →
  world_ok w ∧ generation (view (mount_world sb w0)) ≤ generation (view w) ∧
  (generation (view w) = generation (view (mount_world sb w0)) →
   mounted w = true ∧ view_sandbox (view w) = sb ∧ in_step w ∧ quiet sb w).
Proof.
  intros Hreach Hquiet. revert w. apply rtc_ind_r; [|intros w w' _ Hstep (Hok & Hle & Hstill)].
  - split; [by apply world_ok_mount, (reachable_world_ok db s)|]. split; [done|]. intros _. by split_and!.
  - destruct (world_step_ok w w' Hstep Hok) as [Hok' Hin']. split; [done|].
    destruct (world_step_view w w' Hstep) as [[Hlt _]|[Hgen Hsb]]; [split; [lia|intros; lia]|].
    split; [lia|]. intros Heq. destruct Hstill as (Hm & Hv & Hin & Hq); [congruence|].
    split_and!; [by rewrite (world_step_mounted w w')|congruence| |by eapply quiet_step].
    destruct Hin' as [Hin'|(j & Hst & Hj & Hw)]; [by apply Hin'|].
    destruct Hst as [t q1 q q2 v' db' o Hs Hr]. rewrite (Hq (j :: q) j) in Hw; [done|rewrite Hs; set_solver|set_solver|congruence].
Qed.
End invariant.

(** Between its jobs, being in step is showing the newest stored points. *)
Lemma in_step_between {DB} `{IndexedStore DB} (w : world DB) :
  in_step w → mounted w = true → ready (view w) = true → (∀ j q, queue w = j :: q → waiting (job_next j)) →
  view_ok (view w) (db_points (store w) (view_sandbox (view w))).
Proof.
  intros Hin Hm Hr Hbetween. specialize (Hin Hm Hr). destruct (queue w) as [|j q]; [done|].
  specialize (Hbetween j q eq_refl). by destruct (job_next j).
Qed.

(** C1: The view drifts from the disk only when an earlier view of the same
    sandbox writes late: in every reachable state of a mounted, ready view
    between its jobs, whatever samples, clears, failures and changes of sandbox
    (also back to one shown before) came and however the jobs of earlier views
    interleave, the history shown is exactly the newest 300 stored points and
    the count is the number of stored points, up to the limit of 900; or else,
    since the view was mounted, a clear or a half-done append that an earlier
    view of this sandbox left has changed what is stored
    ([returning_view_drifts] shows that this happens, [quiet_return] when it
    does not). *)
Theorem capture_view_in_step {DB} `{IndexedStore DB} (db : DB) s w
    (Hreach : reachable_world db s w) (Hmounted : mounted w = true) (Hready : ready (view w) = true)
    (Hbetween : ∀ j q, queue w = j :: q → waiting (job_next j)) :
  let ps := db_points (store w) (view_sandbox (view w)) in
  (history (view w) = slice_last 300 ps ∧ storedCount (view w) = Z.min (Z.of_nat (length ps)) 900) ∨ overtaken db s w.
Proof.
  cbv zeta. destruct (in_step_or_overtaken db s w Hreach) as [Hin|Hlate]; [left|by right]. by apply in_step_between.
Qed.

(** Coming back to a sandbox is safe when no clear and no half-done append of
    its earlier views is pending: the samples that wait there are dropped, and
    the view stays in step as long as it stands. *)
Theorem quiet_return {DB} `{IndexedStore DB} (db : DB) s w0 sb w
    (Hreach : reachable_world db s w0)
    (Hquiet : ∀ q j, q ∈ queue w0 :: stale w0 → j ∈ q → job_sandbox j = sb → writes (job_next j) = false)
    (Hrun : rtc world_step (mount_world sb w0) w) (Hstands : generation (view w) = generation (view (mount_world sb w0)))
    (Hready : ready (view w) = true) (Hbetween : ∀ j q, queue w = j :: q → waiting (job_next j)) :
  history (view w) = slice_last 300 (db_points (store w) sb) ∧
  storedCount (view w) = Z.min (Z.of_nat (length (db_points (store w) sb))) 900.
Proof.
  destruct (quiet_run db s w0 sb w Hreach Hquiet Hrun) as (_ & _ & Hstill).
  destruct (Hstill Hstands) as (Hm & <- & Hin & _). by apply in_step_between.
Qed.

(** A job of an earlier view is harmless: whatever it reads, writes or
    fails with, it changes nothing that is shown, and touches no other
    sandbox's capture than its own. *)
Theorem stale_job_harmless {DB} `{IndexedStore DB} t j v (db : DB) :
  let '(v', db', o) := run_job t j v db in
  (job_generation j ≠ generation v → v' = v) ∧
  (∀ other, other ≠ job_sandbox j → db_points db' other = db_points db other).
Proof.
  destruct (run_job t j v db) as [[v' db'] o] eqn:Hrun. split.
  - by eapply run_job_stale_view.
  - intros other. by eapply run_job_store.
Qed.

Definition run_first (w : world sorted_store) : world sorted_store :=
  match queue w with
  | [] => w
  | j :: q => let '(v', db', o) := run_job Completes j (view w) (store w) in
              {| view := v'; mounted := mounted w; store := db'; queue := rest_of o q; stale := stale w |}
  end.

Lemma run_first_step (w : world sorted_store) : queue w ≠ [] → world_step w (run_first w).
Proof.
  intros Hne. unfold run_first. destruct (queue w) as [|j q] eqn:Hq; [done|].
  destruct (run_job _ _ _ _) as [[v' db'] o] eqn:Hrun. by eapply step_job.
Qed.

(** Sandbox "a" is shown and loaded, a sample comes, and its job has gone as far
    as the append when the page is left and opened again; the new view loads,
    and then the append of the old one goes through. *)
Definition example_world : world sorted_store := initial_world empty_store (js "a").
Definition example_mounted : world sorted_store := mount_world (js "a") example_world.
Definition example_loaded : world sorted_store := run_first example_mounted.
Definition example_sampled : world sorted_store :=
  {| view := view example_loaded; mounted := true; store := store example_loaded;
     queue := queue example_loaded ++ [new_job (view example_loaded) (RecordSample (example_sample 1 5 50))]; stale := stale example_loaded |}.
Definition example_recorded : world sorted_store := run_first (run_first (run_first example_sampled)).
Definition example_left : world sorted_store :=
  let w := run_first example_sampled in
  {| view := unmount (view w); mounted := false; store := store w; queue := []; stale := queue w :: stale w |}.
Definition example_returned : world sorted_store := run_first (mount_world (js "a") example_left).

(** Of the new view's empty queue and the one left, the latter has a job. *)
Definition example_overtaken : world sorted_store :=
  let w := example_returned in
  match stale w with
  | q0 :: (j :: q) :: rest =>
      let '(v', db', o) := run_job Completes j (view w) (store w) in
      {| view := v'; mounted := mounted w; store := db'; queue := queue w; stale := q0 :: rest_of o q :: rest |}
  | _ => w
  end.

Lemma example_sampled_reachable : reachable_world empty_store (js "a") example_sampled.
Proof.
  eapply world_next; [|refine (step_record true (example_sample 1 5 50) _ example_loaded eq_refl eq_refl _); split; vm_compute; discriminate].
  eapply world_next; [|apply run_first_step; discriminate]. eapply world_next; [apply world_init|apply step_mount].
Qed.

Lemma example_returned_reachable : reachable_world empty_store (js "a") example_returned.
Proof.
  eapply world_next; [|apply run_first_step; discriminate]. eapply world_next; [|apply step_mount].
  eapply world_next; [|apply step_unmount]. eapply world_next; [|apply run_first_step; vm_compute; discriminate].
  apply example_sampled_reachable.
Qed.

(** A view that comes back drifts: loading replaces the queue without waiting
    for the one before, so the append that the earlier view of this sandbox had
    begun is stored after the new view has read the store, which then shows
    nothing and counts nothing where a point is stored. *)
Theorem returning_view_drifts :
  ∃ w : world sorted_store, reachable_world empty_store (js "a") w ∧
    mounted w = true ∧ ready (view w) = true ∧ queue w = [] ∧ view_sandbox (view w) = js "a" ∧
    history (view w) = [] ∧ storedCount (view w) = 0 ∧ length (db_points (store w) (js "a")) = 1%nat.
Proof.
  exists example_overtaken. split; [|vm_compute; by split_and!].
  destruct (stale example_returned) as [|q0 [|[|j q] rest]] eqn:Hs; [discriminate Hs..|].
  destruct (run_job Completes j (view example_returned) (store example_returned)) as [[v' db'] o] eqn:Hrun.
  eapply world_next; [apply example_returned_reachable|]. unfold example_overtaken. cbv zeta. rewrite Hs, Hrun.
  apply (step_stale j). by apply (stale_runs j example_returned Completes [q0] q rest).
Qed.

Lemma capture_view_in_step_witness :
  reachable_world empty_store (js "a") example_recorded ∧ length (db_points (store example_recorded) (js "a")) = 1%nat ∧
  ((history (view example_recorded) = slice_last 300 (db_points (store example_recorded) (js "a")) ∧
    storedCount (view example_recorded) = Z.min (Z.of_nat (length (db_points (store example_recorded) (js "a")))) 900) ∨
   overtaken empty_store (js "a") example_recorded).
Proof.
  assert (reachable_world empty_store (js "a") example_recorded) as Hreach.
  { unfold example_recorded. do 3 (eapply world_next; [|apply run_first_step; vm_compute; discriminate]). apply example_sampled_reachable. }
  split; [exact Hreach|]. split; [vm_compute; reflexivity|].
  refine (capture_view_in_step empty_store (js "a") example_recorded Hreach eq_refl eq_refl _).
  intros j q Hq. vm_compute in Hq. discriminate Hq.
Defined.

(** The page is left while the sample only waits: nothing is lost. *)
Lemma quiet_return_witness :
  history (view (run_first (mount_world (js "a") example_sampled))) =
  slice_last 300 (db_points (store (run_first (mount_world (js "a") example_sampled))) (js "a")).
Proof.
  refine (proj1 (quiet_return empty_store (js "a") example_sampled (js "a") (run_first (mount_world (js "a") example_sampled))
    example_sampled_reachable _ _ eq_refl eq_refl _)).
  - intros q j Hq Hj _. vm_compute in Hq. apply elem_of_cons in Hq as [->|Hq].
    + by apply list_elem_of_singleton in Hj as ->.
    + apply list_elem_of_singleton in Hq as ->. by apply not_elem_of_nil in Hj.
  - apply rtc_once, run_first_step. discriminate.
  - intros j q Hq. vm_compute in Hq. discriminate Hq.
Defined.
