(* ===== verification/Format.v ===== *)
(** Display formatting ([web/src/lib/format.ts]): byte counts, durations and
    shortened hashes, on the numbers and number-to-text operations of the
    language. [formatTimestamp] asks the browser's locale and is left out. *)
From S2P Require Import Prelude JsNumber JsText NumText.

(** [x.toFixed(d)] of a finite non-negative number of any size. *)
Definition to_fixed (d : nat) (x : number) : jsstr :=
  if num_ltb x (num_of_Z (10 ^ 21)) then toFixed d x else num_to_js x.

(** [Math.round] and [Math.floor], as numbers. *)
Definition math_round (x : number) : number := num_of_Z (num_round x).
Definition math_floor (x : number) : number := num_of_Z (num_floor x).

(** [x % n] of a finite non-negative number and a positive integer. *)
Definition num_rem (x : number) (n : Z) : number :=
  match x with
  | S754_finite _ m e =>
      if 0 <=? e then num_of_Z (Zpos m * 2 ^ e mod n)
      else binary_normalize 53 1024 (Zpos m mod (n * 2 ^ (- e))) e false
  | _ => num_zero
  end.

(** The en dash shown for a value that is not a count. *)
Definition dash : jsstr := [8211].

Definition KILO : number := num_of_Z 1024.

(** The loop over the units: stop below 1024, otherwise divide and go on. *)
Fixpoint scale_units (units : list jsstr) (value : number) (unit : jsstr) : number * jsstr :=
  match units with
  | [] => (value, unit)
  | next :: units =>
      if num_ltb value KILO then (value, unit) else scale_units units (num_div value KILO) next
  end.

Definition byte_units : list jsstr := [js "KiB"; js "MiB"; js "GiB"; js "TiB"].

Definition formatBytes (bytes : number) : jsstr :=
  if negb (isFinite bytes) || num_ltb bytes num_zero then dash
  else if num_ltb bytes KILO then num_to_js bytes ++ js "B"
  else let '(value, unit) := scale_units byte_units bytes (js "B") in
       (if num_leb (num_of_Z 10) value then num_to_js (math_round value) else to_fixed 1 value) ++ unit.

Definition formatMegabytes (bytes : number) : jsstr :=
  if negb (isFinite bytes) || num_ltb bytes num_zero then dash
  else let megabytes := num_div bytes (num_of_Z 1000000) in
       to_fixed (if num_leb (num_of_Z 10) megabytes then 1 else 2) megabytes ++ js " MB".

Definition formatDuration (seconds : number) : jsstr :=
  let SIXTY := num_of_Z 60 in
  if negb (isFinite seconds) || num_ltb seconds num_zero then dash
  else if num_ltb seconds SIXTY
  then to_fixed (if num_ltb seconds (num_of_Z 10) then 1 else 0) seconds ++ js "s"
  else let minutes := math_floor (num_div seconds SIXTY) in
       let rest := math_round (num_rem seconds 60) in
       if num_ltb minutes SIXTY then num_to_js minutes ++ js "m " ++ num_to_js rest ++ js "s"
       else let hours := math_floor (num_div minutes SIXTY) in
            num_to_js hours ++ js "h " ++ num_to_js (num_rem minutes 60) ++ js "m".

(** [shortHash]: the first units and an ellipsis. *)
Definition shortHash (hash : jsstr) (length' : nat) : jsstr :=
  if (length' <? length hash)%nat then take length' hash ++ [8230] else hash.

Example format_examples :
  (map (formatBytes ∘ num_of_Z) [0; 1023; 1024; 1536; 10240; 1048575; 5 * 2 ^ 40; 2 ^ 60],
   map (formatMegabytes ∘ num_of_Z) [0; 1500000; 12345678],
   formatDuration (num_of_decimal 35 (-1)), formatBytes S754_nan)
  = (map js ["0B"; "1023B"; "1.0KiB"; "1.5KiB"; "10KiB"; "1024KiB"; "5.0TiB"; "1048576TiB"]%string,
     map js ["0.00 MB"; "1.50 MB"; "12.3 MB"]%string, js "3.5s", dash).
Proof. vm_compute. done. Qed.

(** ** Facts *)

(** What a whole number of seconds should read as. *)
Definition duration_reference (z : Z) : jsstr :=
  if z <? 10 then Z_to_js z ++ js ".0s"
  else if z <? 60 then Z_to_js z ++ js "s"
  else if z <? 3600 then Z_to_js (z / 60) ++ js "m " ++ Z_to_js (z mod 60) ++ js "s"
  else Z_to_js (z / 3600) ++ js "h " ++ Z_to_js (z / 60 mod 60) ++ js "m".

(** Check a decidable property of every integer below a bound. *)
Fixpoint all_below (n : positive) (p : Z → bool) (base : Z) : bool :=
  match n with
  | xH => p base
  | xO n => all_below n p base && all_below n p (base + Zpos n)
  | xI n => all_below n p base && all_below n p (base + Zpos n) && p (base + Zpos n~0)
  end.

Lemma all_below_spec p n : ∀ base, all_below n p base = true → ∀ z, base ≤ z < base + Zpos n → p z = true.
Proof.
  induction n as [n IH|n IH|]; intros base H z Hz; simpl in H; bool_to_prop.
  - destruct (decide (z < base + Zpos n)); [by apply (IH base); [|lia]|].
    destruct (decide (z < base + Zpos n~0)) as [?|?].
    + apply (IH (base + Zpos n)); [done|lia].
    + by replace z with (base + Zpos n~0) by lia.
  - destruct (decide (z < base + Zpos n)); [by apply (IH base); [|lia]|].
    apply (IH (base + Zpos n)); [done|lia].
  - by replace z with base by lia.
Qed.

(** Durations read exactly, where rounding could carry: every whole
    number of seconds below ten minutes, and the first and the last second of
    every minute of a day, show tenths below ten seconds, then seconds, minutes
    with the remaining seconds, hours with the remaining minutes. *)
Theorem formatDuration_whole_seconds z
    (Hz : 0 ≤ z < 600 ∨ ∃ minute r, z = 60 * minute + r ∧ 0 ≤ minute < 1440 ∧ (r = 0 ∨ r = 59)) :
  formatDuration (num_of_Z z) = duration_reference z.
Proof.
  set (p z := bool_decide (formatDuration (num_of_Z z) = duration_reference z)).
  apply (bool_decide_eq_true_1 _). change (p z = true).
  destruct Hz as [Hz|(minute & r & -> & Hm & [-> | ->])].
  - apply (all_below_spec p 600 0); [vm_compute; done|lia].
  - apply (all_below_spec (λ m, p (60 * m + 0)) 1440 0); [vm_compute; done|lia].
  - apply (all_below_spec (λ m, p (60 * m + 59)) 1440 0); [vm_compute; done|lia].
Qed.

Lemma formatDuration_whole_seconds_witness :
  formatDuration (num_of_Z 3599) = js "59m 59s" ∧ formatDuration (num_of_Z 86399) = js "23h 59m".
Proof.
  split.
  - refine (eq_trans (formatDuration_whole_seconds 3599 (or_intror (ex_intro _ 59 (ex_intro _ 59 _)))) _); [lia|reflexivity].
  - refine (eq_trans (formatDuration_whole_seconds 86399 (or_intror (ex_intro _ 1439 (ex_intro _ 59 _)))) _); [lia|reflexivity].
Defined.

(** The rest of a minute is rounded after it was split off, so half a second
    before each full minute the text shows sixty seconds. *)
Lemma formatDuration_sixty_seconds minutes (Hm : 1 ≤ minutes < 60) :
  formatDuration (num_of_decimal (600 * minutes + 596) (-1)) = Z_to_js minutes ++ js "m 60s".
Proof.
  set (p m := bool_decide (formatDuration (num_of_decimal (600 * m + 596) (-1)) = Z_to_js m ++ js "m 60s")).
  apply (bool_decide_eq_true_1 _). change (p minutes = true).
  apply (all_below_spec p 59 1); [vm_compute; done|lia].
Qed.

(** The unit loop stops below 1024, or at the largest unit. *)
Lemma scale_units_bound units : ∀ value unit,
  let '(v, u) := scale_units units value unit in
  num_ltb v KILO = true ∨ u = List.last units unit.
Proof.
  induction units as [|next units IH]; intros value unit; simpl; [by right|].
  destruct (num_ltb value KILO) eqn:Hv; [by left|].
  specialize (IH (num_div value KILO) next). destruct (scale_units _ _ _) as [v u].
  destruct IH as [?|Hu]; [by left|right]; subst u. destruct units as [|w units]; [done|].
  clear Hv. revert w. induction units as [|w' units IH]; [done|]. intros w. apply IH.
Qed.
