(* ===== verification/Uri.v ===== *)
(** [encodeURIComponent] of the language: the URI unreserved characters stay,
    every other code point becomes the percent-encoded bytes of its UTF-8
    form, and a lone surrogate throws ([None]). *)
From S2P Require Import Prelude JsText.

(** Letters, digits and [- _ . ! ~ * ' ( )]. *)
Definition is_unreserved (u : Z) : bool :=
  ((48 <=? u) && (u <=? 57)) || ((65 <=? u) && (u <=? 90)) || ((97 <=? u) && (u <=? 122)) ||
  bool_decide (u ∈ [45; 95; 46; 33; 126; 42; 39; 40; 41]).

Definition upper_hex (d : Z) : Z := if d <? 10 then 48 + d else 55 + d.

Definition percent (b : Z) : jsstr := [37; upper_hex (b / 16); upper_hex (b mod 16)].

(** The UTF-8 bytes of a code point. *)
Definition utf8 (c : Z) : list Z :=
  if c <? 128 then [c]
  else if c <? 2048 then [192 + c / 64; 128 + c mod 64]
  else if c <? 65536 then [224 + c / 4096; 128 + c / 64 mod 64; 128 + c mod 64]
  else [240 + c / 262144; 128 + c / 4096 mod 64; 128 + c / 64 mod 64; 128 + c mod 64].

Fixpoint encodeURIComponent (s : jsstr) : option jsstr :=
  match s with
  | [] => Some []
  | u :: s' =>
      if is_unreserved u then (u ::.) <$> encodeURIComponent s'
      else if is_trail u then None
      else if is_lead u then
        match s' with
        | t :: s'' => if is_trail t
                      then ((utf8 (65536 + (u - 55296) * 1024 + (t - 56320)) ≫= percent) ++.) <$> encodeURIComponent s''
                      else None
        | [] => None
        end
      else ((utf8 u ≫= percent) ++.) <$> encodeURIComponent s'
  end.

Example encode_examples :
  (encodeURIComponent (js "a/b c?"), encodeURIComponent [233], encodeURIComponent [8364],
   encodeURIComponent [55357; 56832], encodeURIComponent [55357])
  = (Some (js "a%2Fb%20c%3F"), Some (js "%C3%A9"), Some (js "%E2%82%AC"), Some (js "%F0%9F%98%80"), None).
Proof. vm_compute. done. Qed.

(** What an encoded component consists of: unreserved characters and
    percent-encoded bytes; in particular no [/], [?], [#] or [&]. *)
Definition uri_safe (u : Z) : Prop := is_unreserved u = true ∨ u = 37.

Lemma upper_hex_safe d : 0 ≤ d < 16 → uri_safe (upper_hex d).
Proof.
  intros Hd. left. unfold is_unreserved, upper_hex. rewrite !orb_true_iff, !andb_true_iff, !Z.leb_le.
  destruct (Z.ltb_spec d 10); left; left; [left|right]; lia.
Qed.

Lemma percent_safe b : 0 ≤ b < 256 → Forall uri_safe (percent b).
Proof.
  intros Hb. unfold percent. rewrite !Forall_cons. split_and!; [by right|..|constructor]; apply upper_hex_safe.
  - split; [apply Z.div_pos; lia|apply Z.div_lt_upper_bound; lia].
  - apply Z.mod_pos_bound. lia.
Qed.

Lemma utf8_bytes c : 0 ≤ c < 1114112 → Forall (λ b, 0 ≤ b < 256) (utf8 c).
Proof.
  intros Hc. unfold utf8.
  pose proof (Z.mod_pos_bound c 64). pose proof (Z.mod_pos_bound (c / 64) 64).
  pose proof (Z.mod_pos_bound (c / 4096) 64).
  pose proof (Z.div_pos c 64). pose proof (Z.div_pos c 4096). pose proof (Z.div_pos c 262144).
  repeat case_match; bool_to_prop; rewrite !Forall_cons; split_and!; try constructor; try lia.
  - assert (c / 64 < 32) by (apply Z.div_lt_upper_bound; lia). lia.
  - assert (c / 4096 < 16) by (apply Z.div_lt_upper_bound; lia). lia.
  - assert (c / 262144 < 8) by (apply Z.div_lt_upper_bound; lia). lia.
Qed.

Lemma utf8_percent_safe c : 0 ≤ c < 1114112 → Forall uri_safe (utf8 c ≫= percent).
Proof.
  intros Hc%utf8_bytes. induction Hc as [|b bs Hb _ IH]; [constructor|].
  cbn [mbind list_bind]. apply Forall_app. split; [by apply percent_safe|done].
Qed.

Lemma is_trail_range u : is_trail u = true → 56320 ≤ u ≤ 57343.
Proof. unfold is_trail. intros. bool_to_prop. lia. Qed.

Lemma is_lead_range u : is_lead u = true → 55296 ≤ u ≤ 56319.
Proof. unfold is_lead. intros. bool_to_prop. lia. Qed.

Lemma encodeURIComponent_safe n : ∀ s e,
  (length s ≤ n)%nat → Forall (λ u, 0 ≤ u < 65536) s → encodeURIComponent s = Some e → Forall uri_safe e.
Proof.
  induction n as [|n IH]; intros s e Hn Hs; (destruct s as [|u s]; [by intros [= <-]|]).
  - simpl in Hn. lia.
  - apply Forall_cons in Hs as [Hu Hs]. cbn [encodeURIComponent]. simpl in Hn.
    destruct (is_unreserved u) eqn:Hun.
    { intros (e' & He & ->)%fmap_Some. constructor; [by left|]. apply (IH s); [lia|done..]. }
    destruct (is_trail u) eqn:Htr; [done|]. destruct (is_lead u) eqn:Hl.
    + destruct s as [|t s]; [done|]. destruct (is_trail t) eqn:Ht; [|done].
      intros (e' & He & ->)%fmap_Some. apply Forall_cons in Hs as [_ Hs]. simpl in Hn.
      apply is_trail_range in Ht. apply is_lead_range in Hl.
      apply Forall_app. split; [apply utf8_percent_safe; lia|]. apply (IH s); [lia|done..].
    + intros (e' & He & ->)%fmap_Some. apply Forall_app.
      split; [apply utf8_percent_safe; lia|]. apply (IH s); [lia|done..].
Qed.

(** ** [decodeURIComponent]; [None] is a thrown [URIError] *)

Definition hex_value (u : Z) : option Z :=
  if (48 <=? u) && (u <=? 57) then Some (u - 48)
  else if (65 <=? u) && (u <=? 70) then Some (u - 55)
  else if (97 <=? u) && (u <=? 102) then Some (u - 87)
  else None.

(** A percent-encoded byte and what follows it. *)
Definition read_byte (s : jsstr) : option (Z * jsstr) :=
  match s with
  | 37 :: a :: b :: r => match hex_value a, hex_value b with Some x, Some y => Some (16 * x + y, r) | _, _ => None end
  | _ => None
  end.

(** The six bits of a continuation byte. *)
Definition read_continuation (s : jsstr) : option (Z * jsstr) :=
  match read_byte s with
  | Some (b, r) => if (128 <=? b) && (b <? 192) then Some (b - 128, r) else None
  | None => None
  end.

Definition code_units (c : Z) : jsstr :=
  if c <? 65536 then [c] else [55296 + (c - 65536) / 1024; 56320 + (c - 65536) mod 1024].

(** One escaped code point, in its shortest form and not a surrogate. *)
Definition read_escape (s : jsstr) : option (jsstr * jsstr) :=
  match read_byte s with
  | None => None
  | Some (b, r) =>
      if b <? 128 then Some ([b], r)
      else if b <? 194 then None
      else match read_continuation r with
      | None => None
      | Some (x, r) =>
          if b <? 224 then Some (code_units ((b - 192) * 64 + x), r)
          else match read_continuation r with
          | None => None
          | Some (y, r) =>
              if b <? 240 then
                let c := (b - 224) * 4096 + x * 64 + y in
                if (c <? 2048) || ((55296 <=? c) && (c <=? 57343)) then None else Some (code_units c, r)
              else if b <? 245 then
                match read_continuation r with
                | None => None
                | Some (z, r) =>
                    let c := (b - 240) * 262144 + x * 4096 + y * 64 + z in
                    if (c <? 65536) || (1114111 <? c) then None else Some (code_units c, r)
                end
              else None
          end
      end
  end.

Fixpoint decode_go (fuel : nat) (s : jsstr) : option jsstr :=
  match fuel, s with
  | _, [] => Some []
  | O, _ => None
  | S fuel, u :: s' =>
      if u =? 37 then
        match read_escape s with
        | Some (units, r) => (units ++.) <$> decode_go fuel r
        | None => None
        end
      else (u ::.) <$> decode_go fuel s'
  end.

(** Every step reads at least one unit. *)
Definition decodeURIComponent (s : jsstr) : option jsstr := decode_go (length s) s.

Example decode_examples :
  (decodeURIComponent (js "a%2fb%20c"), decodeURIComponent (js "%C3%A9%E2%82%AC"), decodeURIComponent (js "%F0%9F%98%80"),
   decodeURIComponent (js "50%"), decodeURIComponent (js "%C0%80"), decodeURIComponent (js "%ED%A0%80"))
  = (Some (js "a/b c"), Some [233; 8364], Some [55357; 56832], None, None, None).
Proof. vm_compute. done. Qed.

Lemma hex_value_upper d : 0 ≤ d < 16 → hex_value (upper_hex d) = Some d.
Proof.
  intros Hd. assert (d = 0 ∨ d = 1 ∨ d = 2 ∨ d = 3 ∨ d = 4 ∨ d = 5 ∨ d = 6 ∨ d = 7 ∨ d = 8 ∨ d = 9 ∨ d = 10 ∨ d = 11 ∨
    d = 12 ∨ d = 13 ∨ d = 14 ∨ d = 15) as H by lia.
  by repeat destruct H as [->|H]; [..|subst].
Qed.

Lemma read_byte_percent b r : 0 ≤ b < 256 → read_byte (percent b ++ r) = Some (b, r).
Proof.
  intros Hb. unfold percent, read_byte. cbn [app].
  rewrite !hex_value_upper.
  - do 2 f_equal. pose proof (Z.div_mod b 16). lia.
  - apply Z.mod_pos_bound. lia.
  - split; [apply Z.div_pos; lia|apply Z.div_lt_upper_bound; lia].
Qed.

Lemma read_continuation_percent x r : 0 ≤ x < 64 → read_continuation (percent (128 + x) ++ r) = Some (x, r).
Proof.
  intros Hx. unfold read_continuation. rewrite read_byte_percent by lia.
  rewrite (proj2 (Z.leb_le _ _)), (proj2 (Z.ltb_lt _ _)) by lia. cbn [andb]. do 2 f_equal. lia.
Qed.

(** The code points a string can hold outside a pair. *)
Definition scalar (c : Z) : Prop := 0 ≤ c < 1114112 ∧ ¬ (55296 ≤ c ≤ 57343).

Lemma read_escape_utf8 c r : scalar c → read_escape ((utf8 c ≫= percent) ++ r) = Some (code_units c, r).
Proof.
  intros [Hc Hsur]. unfold utf8, read_escape.
  pose proof (Z.mod_pos_bound c 64). pose proof (Z.mod_pos_bound (c / 64) 64). pose proof (Z.mod_pos_bound (c / 4096) 64).
  pose proof (Z.div_mod c 64 ltac:(done)) as Hd1. pose proof (Z.div_mod (c / 64) 64 ltac:(done)) as Hd2.
  pose proof (Z.div_mod (c / 4096) 64 ltac:(done)) as Hd3.
  rewrite !Z.div_div in Hd2, Hd3 by lia. change (64 * 64) with 4096 in Hd2. change (4096 * 64) with 262144 in Hd3.
  destruct (Z.ltb_spec c 128); [|destruct (Z.ltb_spec c 2048); [|destruct (Z.ltb_spec c 65536)]];
    cbn [mbind list_bind]; rewrite ?app_nil_r, <- ?app_assoc, read_byte_percent by lia.
  - rewrite (proj2 (Z.ltb_lt c 128)) by lia. unfold code_units. by rewrite (proj2 (Z.ltb_lt _ _)) by lia.
  - rewrite (proj2 (Z.ltb_ge _ 128)), (proj2 (Z.ltb_ge _ 194)), read_continuation_percent, (proj2 (Z.ltb_lt _ 224)) by lia.
    do 3 f_equal. lia.
  - rewrite (proj2 (Z.ltb_ge _ 128)), (proj2 (Z.ltb_ge _ 194)), read_continuation_percent, (proj2 (Z.ltb_ge _ 224)),
      read_continuation_percent, (proj2 (Z.ltb_lt _ 240)) by lia.
    replace ((224 + c / 4096 - 224) * 4096 + c / 64 mod 64 * 64 + c mod 64) with c by lia. cbv zeta.
    rewrite (proj2 (Z.ltb_ge c 2048)) by lia. cbn [orb].
    destruct (Z.leb_spec 55296 c), (Z.leb_spec c 57343); cbn [andb]; (done || lia).
  - rewrite (proj2 (Z.ltb_ge _ 128)), (proj2 (Z.ltb_ge _ 194)), read_continuation_percent, (proj2 (Z.ltb_ge _ 224)),
      read_continuation_percent, (proj2 (Z.ltb_ge _ 240)), (proj2 (Z.ltb_lt _ 245)), read_continuation_percent by lia.
    replace ((240 + c / 262144 - 240) * 262144 + c / 4096 mod 64 * 4096 + c / 64 mod 64 * 64 + c mod 64) with c by lia. cbv zeta.
    by rewrite (proj2 (Z.ltb_ge c 65536)), (proj2 (Z.ltb_ge 1114111 c)) by lia.
Qed.

Lemma utf8_percent_head c : ∃ rest, utf8 c ≫= percent = 37 :: rest.
Proof. unfold utf8. by repeat case_match; cbn [mbind list_bind percent app]; eexists. Qed.

(** One escape is consumed by one step. *)
Lemma decode_go_escape n c e s :
  scalar c → (length ((utf8 c ≫= percent) ++ e) ≤ n)%nat →
  (∀ m, (length e ≤ m)%nat → decode_go m e = Some s) → decode_go n ((utf8 c ≫= percent) ++ e) = Some (code_units c ++ s).
Proof.
  intros Hc Hn IH. pose proof (read_escape_utf8 c e Hc) as Hread. destruct (utf8_percent_head c) as [rest Hrest].
  rewrite Hrest in *. destruct n as [|n]; cbn [app length] in Hn; [lia|]. cbn [decode_go app].
  rewrite (proj2 (Z.eqb_eq 37 37)) by done. cbn [app] in Hread. rewrite Hread, IH by (rewrite length_app in Hn; lia). done.
Qed.

Lemma code_units_pair u t :
  55296 ≤ u ≤ 56319 → 56320 ≤ t ≤ 57343 → code_units (65536 + (u - 55296) * 1024 + (t - 56320)) = [u; t].
Proof.
  intros Hu Ht. unfold code_units. rewrite (proj2 (Z.ltb_ge _ _)) by lia.
  replace (65536 + (u - 55296) * 1024 + (t - 56320) - 65536) with ((t - 56320) + (u - 55296) * 1024) by lia.
  rewrite Z.div_add, Z.mod_add, Z.div_small, Z.mod_small by lia. repeat f_equal; lia.
Qed.

(** Decoding undoes encoding. *)
Lemma decode_encode s e :
  Forall (λ u, 0 ≤ u < 65536) s → encodeURIComponent s = Some e → decodeURIComponent e = Some s.
Proof.
  intros Hs He. unfold decodeURIComponent. assert (∀ m, (length e ≤ m)%nat → decode_go m e = Some s) as H; [|by apply H].
  revert e Hs He. induction s as [s IH] using (induction_ltof1 _ (@length Z)). unfold ltof in IH.
  intros e Hs He m Hm. destruct s as [|u s]; [injection He as <-; by destruct m|].
  apply Forall_cons in Hs as [Hu Hs]. cbn [encodeURIComponent] in He. destruct (is_unreserved u) eqn:Hun.
  { apply fmap_Some in He as (e' & He & ->). destruct m as [|m]; cbn [length] in Hm; [lia|]. cbn [decode_go].
    destruct (Z.eqb_spec u 37) as [->|]; [done|]. rewrite (IH s) with (e := e'); (done || cbn; lia). }
  destruct (is_trail u) eqn:Htr; [done|]. destruct (is_lead u) eqn:Hl.
  - destruct s as [|t s]; [done|]. destruct (is_trail t) eqn:Ht; [|done]. apply fmap_Some in He as (e' & He & ->).
    apply Forall_cons in Hs as [_ Hs]. apply is_lead_range in Hl. apply is_trail_range in Ht.
    rewrite decode_go_escape with (s := s); [by rewrite code_units_pair|split; lia|done|].
    intros m' Hm'. apply (IH s); (done || cbn; lia).
  - apply fmap_Some in He as (e' & He & ->). unfold is_lead, is_trail in *.
    assert (scalar u) as Hsc by (split; [lia|]; intros ?; apply andb_false_iff in Htr, Hl; rewrite !Z.leb_gt in Htr, Hl; lia).
    rewrite decode_go_escape with (s := s); [|done..|].
    + unfold code_units. by rewrite (proj2 (Z.ltb_lt _ _)) by lia.
    + intros m' Hm'. apply (IH s); (done || cbn; lia).
Qed.

(** ** [URLSearchParams]: the filters the pages keep in the address *)

(** Names and values, in order. *)
Definition url_params := list (jsstr * jsstr).

(** [params.get(k)]: the first value, [null] when there is none. *)
Definition param_get (k : jsstr) (ps : url_params) : option jsstr := snd <$> js_find (λ p, bool_decide (p.1 = k)) ps.

(** [params.delete(k)]: every value of the name. *)
Definition param_delete (k : jsstr) (ps : url_params) : url_params := js_filter (λ p, negb (bool_decide (p.1 = k))) ps.

(** [params.set(k, v)]: the first value is replaced and the others removed; a
    new name is appended. *)
Fixpoint param_set (k v : jsstr) (ps : url_params) : url_params :=
  match ps with
  | [] => [(k, v)]
  | p :: ps => if bool_decide (p.1 = k) then (k, v) :: param_delete k ps else p :: param_set k v ps
  end.

(** [if (v) params.set(k, v); else params.delete(k)]. *)
Definition param_put (k v : jsstr) (ps : url_params) : url_params :=
  if bool_decide (v = []) then param_delete k ps else param_set k v ps.

Lemma param_get_cons k p ps : param_get k (p :: ps) = if bool_decide (p.1 = k) then Some p.2 else param_get k ps.
Proof. unfold param_get, js_find. cbn. by case_bool_decide. Qed.

Lemma param_get_delete k k' ps : param_get k' (param_delete k ps) = if bool_decide (k' = k) then None else param_get k' ps.
Proof.
  induction ps as [|p ps IH]; [by case_bool_decide|].
  assert (param_delete k (p :: ps) = if bool_decide (p.1 = k) then param_delete k ps else p :: param_delete k ps) as ->.
  { unfold param_delete. cbn [List.filter]. by destruct (bool_decide (p.1 = k)). }
  destruct (decide (p.1 = k)) as [Hp|Hp].
  - rewrite (bool_decide_true (p.1 = k)), IH, param_get_cons by done.
    destruct (decide (k' = k)) as [-> |Hne]; [by rewrite bool_decide_true|by rewrite !bool_decide_false by congruence].
  - rewrite (bool_decide_false (p.1 = k)), !param_get_cons, IH by done.
    destruct (decide (k' = k)) as [-> |Hne]; [by rewrite bool_decide_false, bool_decide_true|by rewrite (bool_decide_false (k' = k))].
Qed.

Lemma param_get_set k k' v ps : param_get k' (param_set k v ps) = if bool_decide (k' = k) then Some v else param_get k' ps.
Proof.
  induction ps as [|p ps IH]; cbn [param_set].
  { rewrite param_get_cons. cbn. destruct (decide (k' = k)) as [-> |]; [by rewrite !bool_decide_true|by rewrite !bool_decide_false]. }
  destruct (decide (p.1 = k)) as [Hp|Hp].
  - rewrite (bool_decide_true (p.1 = k)), !param_get_cons, param_get_delete by done. cbn [fst snd].
    destruct (decide (k' = k)) as [-> |]; [by rewrite bool_decide_true|by rewrite !bool_decide_false by congruence].
  - rewrite (bool_decide_false (p.1 = k)), !param_get_cons, IH by done.
    destruct (decide (k' = k)) as [-> |]; [by rewrite bool_decide_false, bool_decide_true|by rewrite (bool_decide_false (k' = k))].
Qed.

(** Reading back what was put, blank for absent; other names are kept. *)
Lemma param_get_put k k' v ps :
  param_get k' (param_put k v ps) ?? [] = if bool_decide (k' = k) then v else param_get k' ps ?? [].
Proof.
  unfold param_put. case_bool_decide as Hv.
  - rewrite param_get_delete. case_bool_decide; [by subst|done].
  - rewrite param_get_set. by case_bool_decide.
Qed.
