(* ===== verification/ObservabilityTab.v ===== *)
(** The navigation of the observability pages
    ([web/src/pages/sandbox/observability/ObservabilityTab.tsx]), the
    redirect of the former layer page ([web/src/App.tsx]) and the notice above
    a sandbox's tabs ([web/src/pages/sandbox/SandboxDetail.tsx]). Matching an
    address with a route is the router's. *)
From S2P Require Import Prelude JsText Types Uri.

(** ** The tabs of the observability pages *)

Definition VIEWS : list (jsstr * jsstr) :=
  [(js "resources", js "Resources"); (js "daemon", js "Daemon"); (js "cgroup", js "Processes");
   (js "traces", js "Traces"); (js "events", js "Events"); (js "layerstack", js "Layers")].

Definition endsWith (suffix s : jsstr) : bool :=
  (length suffix <=? length s)%nat && bool_decide (drop (length s - length suffix) s = suffix).

Definition view_matches (pathname : jsstr) (view : jsstr * jsstr) : bool :=
  endsWith (47 :: view.1) pathname || includes (47 :: view.1 ++ [47]) pathname.

Definition currentView (pathname : jsstr) : jsstr :=
  match js_find (view_matches pathname) VIEWS with Some v => v.1 | None => js "resources" end.

(** ** The address of the former layer page *)

Record location := { loc_pathname : jsstr; loc_search : jsstr; loc_hash : jsstr }.

(** [None] when the identifier cannot be encoded. *)
Definition LegacyLayerStackRedirect (sandboxId : option jsstr) (l : location) : option location :=
  (λ enc, {| loc_pathname := js "/sandboxes/" ++ enc ++ js "/observability/layerstack";
             loc_search := loc_search l; loc_hash := loc_hash l |}) <$> encodeURIComponent (sandboxId ?? []).

(** ** The notice above the tabs *)

Definition state_name (s : SandboxState) : jsstr :=
  match s with
  | creating => js "creating" | ready => js "ready" | stopping => js "stopping" | stopped => js "stopped" | failed => js "failed"
  end.

(** The title and the colour, when the sandbox is not ready. *)
Definition sandbox_notice (record : option SandboxRecord) : option (jsstr * jsstr) :=
  match record with
  | Some r => if bool_decide (state r = ready) then None
              else Some (js "Sandbox " ++ state_name (state r), if bool_decide (state r = failed) then js "danger" else js "warning")
  | None => None
  end.

(** ** Facts *)

Lemma split_at c a b : split c (a ++ c :: b) = split c a ++ split c b.
Proof.
  induction a as [|u a IH]; cbn [app split]; [by rewrite Z.eqb_refl|]. rewrite IH. destruct (u =? c); [done|].
  pose proof (split_nonempty c a). by destruct (split c a).
Qed.

Lemma endsWith_spec p s : endsWith p s = true ↔ p `suffix_of` s.
Proof.
  unfold endsWith. rewrite andb_true_iff, Nat.leb_le, bool_decide_eq_true. split.
  - intros [_ <-]. exists (take (length s - length p) s). by rewrite take_drop.
  - intros [r ->]. rewrite length_app. split; [lia|]. by rewrite drop_app_length' by lia.
Qed.

(** A tab matches an address that has its name as a segment after the first. *)
Lemma view_matches_spec pathname view : 47 ∉ view.1 →
  view_matches pathname view = true ↔ view.1 ∈ tail (split 47 pathname).
Proof.
  intros Hv. unfold view_matches. rewrite orb_true_iff, endsWith_spec, includes_spec. split.
  - intros [[r ->]|(a & b & ->)].
    + rewrite split_at, (split_none 47 view.1) by done. pose proof (split_nonempty 47 r). destruct (split 47 r); set_solver.
    + cbn [app]. rewrite <- app_assoc. cbn [app]. rewrite split_at, (split_app 47 view.1) by done.
      pose proof (split_nonempty 47 a). destruct (split 47 a); set_solver.
  - intros Hin. rewrite <- (join_split 47 pathname). destruct (split 47 pathname) as [|s segs]; [by apply not_elem_of_nil in Hin|].
    cbn [tail] in Hin. apply list_elem_of_split in Hin as (l1 & l2 & ->).
    assert (∃ a, join [47] (s :: l1 ++ view.1 :: l2) = a ++ 47 :: join [47] (view.1 :: l2)) as [a ->].
    { revert s. induction l1 as [|t l1 IH]; intros s; [by exists s|]. destruct (IH t) as [a Ha].
      exists (s ++ 47 :: a). cbn [app] in *. rewrite join_cons by done. rewrite Ha, <- app_assoc. done. }
    destruct l2 as [|t l2]; [left; by exists a|]. right. exists a, (join [47] (t :: l2)). cbn [app]. rewrite join_cons by done.
    by rewrite <- app_assoc.
Qed.

Lemma views_plain : Forall (λ v : jsstr * jsstr, 47 ∉ v.1) VIEWS.
Proof. decide_closed. Qed.

Definition view_names : list jsstr := VIEWS.*1.

(** The address of a page below a sandbox's observability tab. *)
Definition observability_path (sandbox view : jsstr) (rest : list jsstr) : jsstr :=
  47 :: join [47] (js "sandboxes" :: sandbox :: js "observability" :: view :: rest).

(** The highlighted tab is that of the page shown, for every page of every
    sandbox, provided that neither the sandbox's identifier nor a trace's is
    itself the name of a tab. *)
Theorem tab_of_page sandbox view rest
    (Hplain : Forall (λ s, 47 ∉ s) (sandbox :: rest))
    (Hview : view ∈ view_names) (Hnames : Forall (λ s, s ∉ view_names) (sandbox :: rest)) :
  currentView (observability_path sandbox view rest) = view.
Proof.
  assert (Forall (λ s, 47 ∉ s) (js "sandboxes" :: sandbox :: js "observability" :: view :: rest)) as Hsegs.
  { apply Forall_cons in Hplain as [Hs Hr]. repeat (constructor; [try done; try decide_closed|]); [|done].
    apply list_elem_of_fmap in Hview as (v & -> & Hv). pose proof views_plain as H. rewrite Forall_forall in H. by apply H. }
  assert (∀ v, v ∈ VIEWS → view_matches (observability_path sandbox view rest) v = bool_decide (v.1 = view)) as Hm.
  { intros v Hv. apply eq_true_iff_eq. rewrite view_matches_spec, bool_decide_eq_true
      by (pose proof views_plain as H; rewrite Forall_forall in H; by apply H).
    unfold observability_path. change (split 47 (47 :: ?x)) with ([] :: split 47 x). rewrite split_join by done. cbn [tail].
    assert (v.1 ∈ view_names) as Hn by by apply list_elem_of_fmap_2.
    apply Forall_cons in Hnames as [Hs Hr]. rewrite Forall_forall in Hr. rewrite !elem_of_cons. split; [|auto].
    intros [Heq|[Heq|[Heq|[Heq|Hin]]]]; [|by rewrite Heq in Hn| |done|by destruct (Hr _ Hin)].
    all: exfalso; rewrite Heq in Hn; revert Hn; decide_closed. }
  unfold currentView. apply list_elem_of_fmap in Hview as (v & -> & Hv).
  destruct (js_find _ VIEWS) as [w|] eqn:Hf.
  - apply js_find_Some in Hf as (l1 & l2 & Hl & Hw & _). assert (w ∈ VIEWS) as Hin by (rewrite Hl; apply elem_of_app; right; left).
    rewrite Hm in Hw by done. by apply bool_decide_eq_true in Hw.
  - apply js_find_None in Hf. rewrite Forall_forall in Hf. specialize (Hf v Hv). rewrite Hm, bool_decide_true in Hf by done. done.
Qed.

Lemma tab_of_page_witness : currentView (js "/sandboxes/a/observability/traces/t-1") = js "traces".
Proof.
  refine (tab_of_page (js "a") (js "traces") [js "t-1"] _ _ _); [|decide_closed|]; repeat constructor; decide_closed.
Defined.

(** Without that, the tab is wrong: a trace or a sandbox named like a tab
    highlights the tab of that name. *)
Example tab_of_page_misled :
  currentView (js "/sandboxes/a/observability/traces/resources") = js "resources" ∧
  currentView (js "/sandboxes/daemon/observability/traces") = js "daemon".
Proof. split; reflexivity. Qed.
