(* ===== verification/Shell.v ===== *)
(** The frame of the application ([web/src/shell/Shell.tsx]): the trail of a
    page and the navigation, both computed from the path of the address, and
    the current tab of a sandbox ([web/src/pages/sandbox/SandboxDetail.tsx]). *)
From S2P Require Import Prelude JsText Uri.

(** ** Labels

    [TAB_LABELS[tab]] reads a property of an object: one the object has, or
    one it inherits, which is no text. *)
Inductive label := Text (t : jsstr) | Inherited (property : jsstr).

Definition OBJECT_PROTOTYPE : list jsstr :=
  map js ["constructor"; "__defineGetter__"; "__defineSetter__"; "hasOwnProperty"; "__lookupGetter__"; "__lookupSetter__";
          "isPrototypeOf"; "propertyIsEnumerable"; "toString"; "valueOf"; "__proto__"; "toLocaleString"]%string.

Definition property (table : list (jsstr * jsstr)) (k : jsstr) : option label :=
  match js_find (λ e, bool_decide (e.1 = k)) table with
  | Some e => Some (Text e.2)
  | None => if bool_decide (k ∈ OBJECT_PROTOTYPE) then Some (Inherited k) else None
  end.

Definition entry (k v : string) : jsstr * jsstr := (js k, js v).

Definition TAB_LABELS : list (jsstr * jsstr) :=
  [entry "terminal" "Terminal"; entry "files" "Files"; entry "observability" "Observability"; entry "preview" "Preview"].

Definition OBSERVABILITY_LABELS : list (jsstr * jsstr) :=
  [entry "resources" "Resources"; entry "daemon" "Daemon"; entry "cgroup" "Processes"; entry "traces" "Traces";
   entry "events" "Events"; entry "layerstack" "Layers"].

(** ** The trail *)

Definition decodePathSegment (value : jsstr) : jsstr := decodeURIComponent value ?? value.

(** [pathname.split("/").filter(Boolean)]. *)
Definition path_parts (pathname : jsstr) : list jsstr := js_filter (λ p, negb (bool_decide (p = []))) (split 47 pathname).

Record Crumb := { crumb_label : label; crumb_to : option jsstr }.

Definition SANDBOXES : jsstr := js "sandboxes".

(** [parts[0] === "sandboxes" && parts[1]]: the encoded sandbox, and the rest. *)
Definition sandbox_parts (pathname : jsstr) : option (jsstr * list jsstr) :=
  match path_parts pathname with
  | first :: sandbox :: rest => if bool_decide (first = SANDBOXES) then Some (sandbox, rest) else None
  | _ => None
  end.

Definition crumbs (pathname : jsstr) : list Crumb :=
  match sandbox_parts pathname with
  | None => []
  | Some (sandbox, rest) =>
      let result := [{| crumb_label := Text (js "Dashboard"); crumb_to := Some (js "/") |};
                     {| crumb_label := Text (decodePathSegment sandbox); crumb_to := Some (js "/sandboxes/" ++ sandbox) |}] in
      let plain l := match l with Some l => [{| crumb_label := l; crumb_to := None |}] | None => [] end in
      match rest with
      | [] => result ++ [{| crumb_label := Text (js "Terminal"); crumb_to := None |}]
      | tab :: rest =>
          result ++ plain (property TAB_LABELS tab) ++
          match rest with
          | view :: _ => if bool_decide (tab = js "observability") then plain (property OBSERVABILITY_LABELS view) else []
          | [] => []
          end
      end
  end.

(** ** Navigation *)

Record NavigationItem := { item_label : jsstr; item_to : jsstr; item_active : bool }.

Definition item (pathname base : jsstr) (text suffix : string) (nested : bool) : NavigationItem :=
  let to := base ++ js "/" ++ js suffix in
  {| item_label := if nested then [8627; 32] ++ js text else js text;
     item_to := to;
     item_active := if nested then bool_decide (pathname = to)
                    else if bool_decide (js suffix = js "observability")
                    then bool_decide (pathname = to) || startsWith (to ++ js "/") pathname
                    else bool_decide (pathname = to) |}.

Definition navigationItems (pathname : jsstr) : list NavigationItem :=
  let dashboard := {| item_label := js "Dashboard"; item_to := js "/"; item_active := bool_decide (pathname = js "/") |} in
  match sandbox_parts pathname with
  | None => [dashboard]
  | Some (sandbox, _) =>
      let base := js "/sandboxes/" ++ sandbox in
      let item := item pathname base in
      [dashboard; item "Terminal" "terminal" false; item "Files" "files" false; item "Observability" "observability" false;
       item "Resources" "observability/resources" true; item "Daemon" "observability/daemon" true;
       item "Processes" "observability/cgroup" true; item "Traces" "observability/traces" true;
       item "Events" "observability/events" true; item "Layers" "observability/layerstack" true;
       item "Preview" "preview" false]%string
  end.

(** [items.reduce((active, item, index) => item.active ? index : active, -1)]. *)
Definition last_active (items : list NavigationItem) : Z :=
  foldl (λ active e, if item_active e.2 then Z.of_nat e.1 else active) (-1) (imap pair items).

Definition activeIndex (pathname : jsstr) : Z := Z.max 0 (last_active (navigationItems pathname)).

(** ** The tabs of a sandbox *)

Definition TABS : list jsstr := map js ["terminal"; "files"; "observability"; "preview"]%string.

Definition currentTab (pathname basePath : jsstr) : jsstr :=
  js_find (λ tab, bool_decide (pathname = basePath ++ js "/" ++ tab) || startsWith (basePath ++ js "/" ++ tab ++ js "/") pathname) TABS
  ?? js "terminal".

(** ** Facts *)

Lemma last_active_spec items :
  (∀ i e, items !! i = Some e → item_active e = true → Z.of_nat i ≤ last_active items) ∧
  (last_active items = -1 ∨ ∃ i e, last_active items = Z.of_nat i ∧ items !! i = Some e ∧ item_active e = true).
Proof.
  unfold last_active. induction items as [|x items [IH1 IH2]] using rev_ind; [split; [done|by left]|].
  rewrite imap_app, foldl_app. cbn [imap foldl snd fst compose]. rewrite Nat.add_0_r. set (r := foldl _ (-1) (imap pair items)) in *.
  assert (r < Z.of_nat (length items)) as Hr.
  { destruct IH2 as [->|(i & e & -> & Hi & _)]; [lia|]. apply lookup_lt_Some in Hi. lia. }
  split.
  - intros i e [Hi|[Hi Hx]]%lookup_snoc_Some Ha.
    + destruct Hi as [Hlt Hi]. destruct (item_active x); [lia|]. by apply (IH1 i e).
    + subst. rewrite Ha. lia.
  - destruct (item_active x) eqn:Hx.
    + right. exists (length items), x. split_and!; [done| |done]. by rewrite lookup_app_r, Nat.sub_diag by lia.
    + destruct IH2 as [->|(i & e & -> & Hi & Ha)]; [by left|]. right. exists i, e. split_and!; try done.
      by apply lookup_app_l_Some.
Qed.

Definition suffixes : list string :=
  ["/terminal"; "/files"; "/observability"; "/observability/resources"; "/observability/daemon"; "/observability/cgroup";
   "/observability/traces"; "/observability/events"; "/observability/layerstack"; "/preview"]%string.

Lemma navigation_targets pathname sandbox rest :
  sandbox_parts pathname = Some (sandbox, rest) →
  item_to <$> navigationItems pathname = js "/" :: ((λ s, js "/sandboxes/" ++ sandbox ++ js s) <$> suffixes).
Proof. intros H. unfold navigationItems. rewrite H. cbn [fmap list_fmap item item_to suffixes]. by rewrite <- !app_assoc. Qed.

Lemma targets_distinct sandbox : NoDup (js "/" :: ((λ s, js "/sandboxes/" ++ sandbox ++ js s) <$> suffixes)).
Proof.
  apply NoDup_cons. split.
  - intros (s & Heq & _)%list_elem_of_fmap. apply (f_equal length) in Heq. rewrite length_app in Heq. cbn [length js] in Heq. lia.
  - apply NoDup_fmap_2_strong; [|decide_closed]. intros a b Ha Hb Heq. apply app_inv_head, app_inv_head in Heq.
    revert a b Ha Hb Heq. assert (Forall (λ a, Forall (λ b, js a = js b → a = b) suffixes) suffixes) as H by decide_closed.
    intros a b Ha Hb. rewrite Forall_forall in H. specialize (H a Ha). rewrite Forall_forall in H. by apply H.
Qed.

(** An active item is the page itself, or the observability item above it. *)
Lemma item_active_cases pathname sandbox rest j e :
  sandbox_parts pathname = Some (sandbox, rest) → navigationItems pathname !! j = Some e → item_active e = true →
  item_to e = pathname ∨ (j = 3%nat ∧ js "/sandboxes/" ++ sandbox ++ js "/observability/" `prefix_of` pathname).
Proof.
  intros Hs He Ha. unfold navigationItems in He. rewrite Hs in He.
  do 3 (destruct j as [|j]; [left; injection He as <-; by apply bool_decide_eq_true in Ha|]).
  destruct j as [|j].
  { injection He as <-. cbn [item item_active item_to] in *. rewrite (bool_decide_true (js "observability" = _)) in Ha by done.
    apply orb_true_iff in Ha as [Ha%bool_decide_eq_true|Ha%startsWith_spec]; [by left|right]. split; [done|].
    by rewrite <- !app_assoc in Ha. }
  do 7 (destruct j as [|j]; [left; injection He as <-; by apply bool_decide_eq_true in Ha|]). done.
Qed.

Lemma prefix_app_head {A} (a b c : list A) : a ++ b `prefix_of` a ++ c → b `prefix_of` c.
Proof. apply prefix_app_inv. Qed.

(** ** Theorems *)

(** The navigation marks the page that is shown. On every page the
    navigation links to, the item that is focused when it opens is that link
    and no other, although the observability item is highlighted above its
    pages as well. *)
Theorem navigation_active pathname i e (He : navigationItems pathname !! i = Some e) (Hpage : item_to e = pathname) :
  activeIndex pathname = Z.of_nat i.
Proof.
  unfold activeIndex. destruct (last_active_spec (navigationItems pathname)) as [Hmax Hlast].
  assert (item_active e = true) as Hact.
  { unfold navigationItems in He. destruct (sandbox_parts pathname) as [[sandbox rest]|].
    - do 3 (destruct i as [|i]; [injection He as <-; by apply bool_decide_eq_true|]).
      destruct i as [|i].
      { injection He as <-. cbn [item item_active item_to] in *. rewrite (bool_decide_true (js "observability" = _)) by done.
        by rewrite bool_decide_true. }
      do 7 (destruct i as [|i]; [injection He as <-; by apply bool_decide_eq_true|]). done.
    - apply list_lookup_singleton_Some in He as [_ <-]. by apply bool_decide_eq_true. }
  specialize (Hmax i e He Hact). destruct Hlast as [Hl|(j & e' & Hj & He' & Ha')]; [lia|]. rewrite Hj in Hmax |- *.
  assert (j = i) as ->; [|lia].
  destruct (sandbox_parts pathname) as [[sandbox rest]|] eqn:Hs.
  - pose proof (navigation_targets _ _ _ Hs) as Htargets. pose proof (targets_distinct sandbox) as Hnd. rewrite <- Htargets in Hnd.
    destruct (item_active_cases _ _ _ _ _ Hs He' Ha') as [Hto|[-> Hpre]].
    + eapply NoDup_lookup; [exact Hnd|by rewrite list_lookup_fmap, He'|]. rewrite list_lookup_fmap, He. cbn. congruence.
    + assert ((item_to <$> navigationItems pathname) !! i = Some pathname) as Hi by (rewrite list_lookup_fmap, He; cbn; by f_equal).
      rewrite Htargets in Hi. destruct i as [|[|[|[|i]]]]; [| | |done|lia]; exfalso.
      * assert (pathname = js "/") as -> by (by injection Hi). apply prefix_length in Hpre. rewrite !length_app in Hpre.
        cbn [length js] in Hpre. lia.
      * assert (pathname = js "/sandboxes/" ++ sandbox ++ js "/terminal") as -> by (by injection Hi).
        apply prefix_app_head, prefix_app_head in Hpre. revert Hpre. decide_closed.
      * assert (pathname = js "/sandboxes/" ++ sandbox ++ js "/files") as -> by (by injection Hi).
        apply prefix_app_head, prefix_app_head in Hpre. revert Hpre. decide_closed.
  - unfold navigationItems in He, He'. rewrite Hs in He, He'.
    apply list_lookup_singleton_Some in He as [-> _], He' as [-> _]. done.
Qed.

Lemma navigation_active_witness :
  activeIndex (js "/sandboxes/box%201/observability/traces") = 7.
Proof. exact (navigation_active (js "/sandboxes/box%201/observability/traces") 7 _ eq_refl eq_refl). Defined.

(** The parts of a path written from them. *)
Lemma path_parts_join parts :
  Forall (λ p, 47 ∉ p ∧ p ≠ []) parts → path_parts (parts ≫= (47 ::.)) = parts.
Proof.
  intros Hparts. assert (∀ p ps, 47 ∉ p → Forall (λ p, 47 ∉ p ∧ p ≠ []) ps →
    split 47 (p ++ (ps ≫= (47 ::.))) = p :: ps) as Hsplit.
  { intros p ps Hp Hps. revert p Hp. induction Hps as [|q ps [Hq _] _ IH]; intros p Hp; cbn [mbind list_bind].
    - by rewrite app_nil_r, split_none.
    - cbn [app]. rewrite split_app by done. f_equal. by apply IH. }
  unfold path_parts. destruct parts as [|p parts]; [done|]. apply Forall_cons in Hparts as [[Hp Hne] Hps].
  change ((p :: parts) ≫= (47 ::.)) with ([] ++ 47 :: (p ++ (parts ≫= (47 ::.)))). rewrite split_app, Hsplit by (done || set_solver).
  cbn [List.filter]. rewrite (bool_decide_true ([] = [])), (bool_decide_false (p = [])) by done. cbn [negb]. f_equal.
  induction Hps as [|q ps [_ Hq] _ IH]; [done|]. cbn [List.filter]. rewrite bool_decide_false by done. cbn [negb]. by rewrite IH.
Qed.

Lemma encoded_part s e :
  Forall (λ u, 0 ≤ u < 65536) s → s ≠ [] → encodeURIComponent s = Some e → 47 ∉ e ∧ e ≠ [].
Proof.
  intros Hs Hne He. split.
  - pose proof (encodeURIComponent_safe _ s e (le_n _) Hs He) as Hsafe. rewrite Forall_forall in Hsafe. intros Hin.
    destruct (Hsafe 47 Hin) as [H|H]; done.
  - intros ->. apply decode_encode in He; [|done]. by injection He as <-.
Qed.

Lemma property_table table k v : js_find (λ e, bool_decide (e.1 = k)) table = Some (k, v) → property table k = Some (Text v).
Proof. unfold property. by intros ->. Qed.

(** The trail names the page. For any sandbox, whatever characters its
    identifier has, the trail of its pages is the dashboard, the identifier
    itself (decoded again from the address) and the names of the tab and of
    the view; the first two lead back, and a path of no sandbox has none. *)
Theorem crumbs_spec id enc tab text view
    (Hid : Forall (λ u, 0 ≤ u < 65536) id) (Hne : id ≠ []) (Henc : encodeURIComponent id = Some enc)
    (Htab : (tab, text) ∈ TAB_LABELS) :
  let page parts := (SANDBOXES :: enc :: parts) ≫= (47 ::.) in
  let back := [{| crumb_label := Text (js "Dashboard"); crumb_to := Some (js "/") |};
               {| crumb_label := Text id; crumb_to := Some (page []) |}] in
  crumbs (page [tab]) = back ++ [{| crumb_label := Text text; crumb_to := None |}] ∧
  crumbs (page []) = back ++ [{| crumb_label := Text (js "Terminal"); crumb_to := None |}] ∧
  (∀ name, (view, name) ∈ OBSERVABILITY_LABELS →
     crumbs (page [js "observability"; view]) = back ++ [{| crumb_label := Text (js "Observability"); crumb_to := None |};
       {| crumb_label := Text name; crumb_to := None |}]) ∧
  (∀ pathname, sandbox_parts pathname = None → crumbs pathname = [] ∧ activeIndex pathname = 0).
Proof.
  cbv zeta. pose proof (encoded_part id enc Hid Hne Henc) as Hpart. pose proof (decode_encode id enc Hid Henc) as Hdec.
  assert (∀ parts, Forall (λ p, 47 ∉ p ∧ p ≠ []) parts →
    sandbox_parts ((SANDBOXES :: enc :: parts) ≫= (47 ::.)) = Some (enc, parts)) as Hparts.
  { intros parts Hps. unfold sandbox_parts. rewrite path_parts_join; [by rewrite bool_decide_true|].
    constructor; [decide_closed|]. by constructor. }
  assert (Forall (λ e : jsstr * jsstr, (47 ∉ e.1 ∧ e.1 ≠ []) ∧ property TAB_LABELS e.1 = Some (Text e.2)) TAB_LABELS) as Htabs
    by (repeat constructor; first [decide_closed|by vm_compute]).
  assert (Forall (λ e : jsstr * jsstr, (47 ∉ e.1 ∧ e.1 ≠ []) ∧ property OBSERVABILITY_LABELS e.1 = Some (Text e.2)) OBSERVABILITY_LABELS) as Hviews
    by (repeat constructor; first [decide_closed|by vm_compute]).
  rewrite Forall_forall in Htabs, Hviews.
  assert (js "/sandboxes/" ++ enc = [SANDBOXES; enc] ≫= (47 ::.)) as Hto by (cbn [mbind list_bind]; by rewrite app_nil_r).
  unfold crumbs, decodePathSegment. split_and!.
  - destruct (Htabs _ Htab) as [Hok Hprop]. cbn [fst snd] in *. rewrite Hparts by (by rewrite Forall_singleton).
    rewrite Hdec, Hprop, Hto. by destruct (property TAB_LABELS tab).
  - rewrite Hparts by constructor. by rewrite Hdec, Hto.
  - intros name Hview. destruct (Hviews _ Hview) as [Hok Hprop]. cbn [fst snd] in *.
    rewrite Hparts by (constructor; [decide_closed|by rewrite Forall_singleton]). rewrite Hdec, Hprop, Hto.
    rewrite (bool_decide_true (js "observability" = _)) by done. done.
  - intros pathname Hs. rewrite Hs. split; [done|]. unfold activeIndex, navigationItems. rewrite Hs. unfold last_active. cbn.
    by destruct (bool_decide _).
Qed.

Lemma crumbs_spec_witness :
  crumbs (js "/sandboxes/a%2Fb/files") =
  [{| crumb_label := Text (js "Dashboard"); crumb_to := Some (js "/") |};
   {| crumb_label := Text (js "a/b"); crumb_to := Some (js "/sandboxes/a%2Fb") |};
   {| crumb_label := Text (js "Files"); crumb_to := None |}].
Proof.
  refine (proj1 (crumbs_spec (js "a/b") (js "a%2Fb") (js "files") (js "Files") [] _ _ _ _)).
  - decide_closed.
  - done.
  - by vm_compute.
  - apply (list_elem_of_lookup_2 _ 1). by vm_compute.
Defined.

(** The trail of a path that names a property every object inherits holds
    something that is no text: the lookup of the label does not look at the
    table's own properties only. *)
Theorem crumbs_inherited id enc p
    (Hid : Forall (λ u, 0 ≤ u < 65536) id) (Hne : id ≠ []) (Henc : encodeURIComponent id = Some enc) (Hp : p ∈ OBJECT_PROTOTYPE) :
  ∃ c, c ∈ crumbs ((SANDBOXES :: enc :: [p]) ≫= (47 ::.)) ∧ crumb_label c = Inherited p.
Proof.
  pose proof (encoded_part id enc Hid Hne Henc) as Hpart.
  assert (Forall (λ p : jsstr, (47 ∉ p ∧ p ≠ []) ∧ property TAB_LABELS p = Some (Inherited p)) OBJECT_PROTOTYPE) as Hall
    by (repeat constructor; first [decide_closed|by vm_compute]).
  rewrite Forall_forall in Hall. destruct (Hall p Hp) as [Hok Hprop].
  exists {| crumb_label := Inherited p; crumb_to := None |}. split; [|done]. unfold crumbs, sandbox_parts.
  rewrite path_parts_join by (constructor; [decide_closed|constructor; [done|by rewrite Forall_singleton]]). rewrite bool_decide_true by done.
  rewrite Hprop. apply list_elem_of_further, list_elem_of_further, list_elem_of_here.
Qed.

Lemma crumbs_inherited_witness :
  ∃ c, c ∈ crumbs (js "/sandboxes/a/__proto__") ∧ crumb_label c = Inherited (js "__proto__").
Proof.
  refine (crumbs_inherited (js "a") (js "a") (js "__proto__") _ _ _ _).
  - decide_closed.
  - done.
  - by vm_compute.
  - decide_closed.
Defined.

(** The tab of a sandbox's page, also under it. *)
Lemma currentTab_examples :
  map (λ p, currentTab (js p) (js "/sandboxes/a"))
      ["/sandboxes/a/files"; "/sandboxes/a/observability/traces/x"; "/sandboxes/a"; "/sandboxes/a/filesystem"]%string
  = map js ["files"; "observability"; "terminal"; "terminal"]%string.
Proof. vm_compute. done. Qed.
