(* ===== verification/Files.v ===== *)
(** File requests ([web/src/api/files.ts]): listing, reading, blaming and
    writing files of a sandbox, and reading a whole file window by window. *)
From S2P Require Import Prelude JsNumber JsText Json Rpc Uri.

Inductive FileEntryKind := entry_file | entry_directory | entry_symlink | entry_other.

Record FileListEntry := { entry_name : jsstr; entry_kind : FileEntryKind; entry_size : option Z }.

Record FileListResult := { list_path : jsstr; list_entries : list FileListEntry; list_truncated : bool }.

Record FileReadWindow := {
  window_path : jsstr;
  content : jsstr;
  window_start_line : Z;
  num_lines : Z;
  window_total_lines : Z;
  bytes_read : Z;
  window_total_bytes : Z;
  next_offset : option Z;
  window_truncated : bool;
}.

Record BlameRange := { start_line : Z; line_count : Z; owner : jsstr }.

Record BlameResult := { blame_path : jsstr; ranges : list BlameRange }.

(** [if (session) args["workspace_session_id"] = session]. *)
Definition session_arg (session : option jsstr) : list (jsstr * json) :=
  match session with
  | Some s => if bool_decide (s = []) then [] else [(js "workspace_session_id", JStr s)]
  | None => []
  end.

Definition int_arg (k : string) (o : option Z) : list (jsstr * json) :=
  match o with Some z => [(js k, JNum (num_of_Z z))] | None => [] end.

Definition fileUrl (sandboxId : jsstr) : option jsstr :=
  (λ e, js "/api/sandboxes/" ++ e ++ js "/files/list") <$> encodeURIComponent sandboxId.

Section requests.
Context (fetch : jsstr → jsstr → fetched).

(** [None]: the URL cannot be built and the call throws a [URIError]. *)
Definition fileList (sandboxId path : jsstr) (session : option jsstr) : option (outcome RpcError json) :=
  (λ url, postJson fetch url
     ((if bool_decide (path = []) then [] else [(js "path", JStr path)]) ++ session_arg session))
  <$> fileUrl sandboxId.

Definition fileRead (sandboxId path : jsstr) (session : option jsstr) (offset limit : option Z)
    : outcome RpcError json :=
  rpc fetch (js "file_read") (sandboxScope sandboxId)
    ((js "path", JStr path) :: session_arg session ++ int_arg "offset" offset ++ int_arg "limit" limit).

Definition fileBlame (sandboxId path : jsstr) : outcome RpcError json :=
  rpc fetch (js "file_blame") (sandboxScope sandboxId) [(js "path", JStr path)].

Definition fileWrite (sandboxId path text : jsstr) (session : option jsstr) : outcome RpcError json :=
  rpc fetch (js "file_write") (sandboxScope sandboxId)
    ((js "path", JStr path) :: (js "content", JStr text) :: session_arg session).
End requests.

(** ** Paging a file to its end *)

Record WholeFile := { whole_content : jsstr; whole_totalLines : Z; whole_totalBytes : Z }.

(** [content === "" ? next : `${content}\n${next}`]. *)
Definition append_window (content next : jsstr) : jsstr :=
  if bool_decide (content = []) then next else content ++ 10 :: next.

(** The loop, over the reads it makes: at most [fuel] windows ([None] when
    they do not suffice). *)
Fixpoint read_pages (read : option Z → outcome RpcError FileReadWindow) (fuel : nat)
    (text : jsstr) (offset : option Z) : option (outcome RpcError WholeFile) :=
  match fuel with
  | O => None
  | S fuel =>
      match read offset with
      | Throws e => Some (Throws e)
      | Returns window =>
          let text := append_window text (content window) in
          match next_offset window with
          | Some next =>
              if num_lines window =? 0
              then Some (Returns {| whole_content := text; whole_totalLines := window_total_lines window;
                                    whole_totalBytes := window_total_bytes window |})
              else read_pages read fuel text (Some next)
          | None => Some (Returns {| whole_content := text; whole_totalLines := window_total_lines window;
                                     whole_totalBytes := window_total_bytes window |})
          end
      end
  end.

(** [as_window] is the unchecked cast of a body to [FileReadWindow]. *)
Definition fileReadToEnd (fetch : jsstr → jsstr → fetched) (as_window : json → FileReadWindow)
    (sandboxId path : jsstr) (session : option jsstr) (fuel : nat) : option (outcome RpcError WholeFile) :=
  read_pages (λ offset, let! v := fileRead fetch sandboxId path session offset (Some 2000) in
                        Returns (as_window v)) fuel [] None.

(** ** Facts *)

(** What a read service promises for a file of [full] lines: from line [o] it
    answers with between one and [limit] lines and the line to go on from. *)
Definition window_of (full : list jsstr) (bytes o : Z) (w : FileReadWindow) : Prop :=
  1 ≤ num_lines w ∧ o - 1 + num_lines w ≤ Z.of_nat (length full) ∧
  content w = join [10] (take (Z.to_nat (num_lines w)) (drop (Z.to_nat (o - 1)) full)) ∧
  window_total_lines w = Z.of_nat (length full) ∧ window_total_bytes w = bytes ∧
  next_offset w = (if o - 1 + num_lines w <? Z.of_nat (length full) then Some (o + num_lines w) else None).

Definition serves (full : list jsstr) (bytes : Z) (read : option Z → outcome RpcError FileReadWindow) : Prop :=
  ∀ o, 1 ≤ (o ?? 1) ≤ Z.of_nat (length full) → ∃ w, read o = Returns w ∧ window_of full bytes (o ?? 1) w.

Lemma join_app (a b : list jsstr) :
  a ≠ [] → b ≠ [] → join [10] (a ++ b) = join [10] a ++ 10 :: join [10] b.
Proof.
  intros Ha Hb. induction a as [|p a IH]; [done|]. cbn [app].
  rewrite join_cons by (destruct a; [done|by intros ?]).
  destruct a as [|q a]; [done|]. rewrite IH, (join_cons [10] p) by done. by rewrite <- !app_assoc.
Qed.

Section paging.
Context (full : list jsstr) (bytes : Z) (read : option Z → outcome RpcError FileReadWindow).
Hypothesis Hserves : serves full bytes read.

Lemma read_pages_from fuel : ∀ k text,
  (k < length full)%nat → (length full - k ≤ fuel)%nat →
  text = join [10] (take k full) → text ≠ [] →
  read_pages read fuel text (Some (Z.of_nat k + 1)) =
  Some (Returns {| whole_content := join [10] full; whole_totalLines := Z.of_nat (length full);
                   whole_totalBytes := bytes |}).
Proof.
  induction fuel as [|fuel IH]; intros k text Hk Hfuel Htext Hne; [lia|].
  destruct (Hserves (Some (Z.of_nat k + 1))) as (w & Hw & Hn & Hle & Hc & Htl & Htb & Hnext); [simpl; lia|].
  cbn [read_pages]. rewrite Hw. cbn [default from_option id] in *.
  replace (Z.to_nat (Z.of_nat k + 1 - 1)) with k in Hc by lia.
  set (n := Z.to_nat (num_lines w)) in *.
  assert (append_window text (content w) = join [10] (take (k + n) full)) as Happ.
  { unfold append_window. rewrite bool_decide_false by done. rewrite Hc, Htext, <- join_app.
    - f_equal. apply take_take_drop.
    - intros H. apply Hne. by rewrite Htext, H.
    - intros H. apply (f_equal length) in H. rewrite length_take, length_drop in H. simpl in H. lia. }
  rewrite Hnext, Happ. destruct (Z.ltb_spec (Z.of_nat k + 1 - 1 + num_lines w) (Z.of_nat (length full))).
  - rewrite (proj2 (Z.eqb_neq _ _)) by lia.
    replace (Z.of_nat k + 1 + num_lines w) with (Z.of_nat (k + n) + 1) by lia.
    apply IH; [lia|lia|done|]. rewrite <- Happ. unfold append_window. rewrite bool_decide_false by done.
    by destruct text.
  - rewrite Htl, Htb, firstn_all2 by lia. done.
Qed.
End paging.

(** C15: Reading a file to its end gives the whole file: if every read serves
    the lines asked for (however few at a time), the loop ends within one
    read per line with exactly the file's text, provided the first window is
    not a lone blank line with more to follow. *)
Theorem read_pages_whole full bytes read w fuel
    (Hserves : serves full bytes read) (Hfirst : read None = Returns w)
    (Hlines : full ≠ []) (Hblank : content w ≠ [] ∨ next_offset w = None)
    (Hfuel : (length full ≤ fuel)%nat) :
  read_pages read fuel [] None =
  Some (Returns {| whole_content := join [10] full; whole_totalLines := Z.of_nat (length full);
                   whole_totalBytes := bytes |}).
Proof.
  assert (1 ≤ length full)%nat as Hlen by (destruct full; [done|simpl; lia]).
  destruct (Hserves None) as (w' & Hw & Hn & Hle & Hc & Htl & Htb & Hnext); [simpl; lia|].
  rewrite Hfirst in Hw. injection Hw as <-. destruct fuel as [|fuel]; [lia|].
  cbn [read_pages default from_option id] in *. rewrite Hfirst. unfold append_window. rewrite bool_decide_true by done.
  cbn [Z.sub] in Hc. change (Z.to_nat (1 - 1)) with 0%nat in Hc. rewrite drop_0 in Hc. rewrite Hnext.
  destruct (Z.ltb_spec (1 - 1 + num_lines w) (Z.of_nat (length full))) as [Hlt|Hge].
  - rewrite (proj2 (Z.eqb_neq _ _)) by lia.
    replace (1 + num_lines w) with (Z.of_nat (Z.to_nat (num_lines w)) + 1) by lia.
    apply read_pages_from; [done|lia|lia|done|]. destruct Hblank as [?|Hnone]; [done|].
    rewrite Hnext in Hnone. done.
  - by rewrite Hc, Htl, Htb, firstn_all2 by lia.
Qed.

(** A service of [k] lines at a time. *)
Definition serve (k : Z) (full : list jsstr) (o : option Z) : outcome RpcError FileReadWindow :=
  let o := o ?? 1 in
  let n := Z.min k (Z.of_nat (length full) - (o - 1)) in
  Returns {| window_path := js "f"; content := join [10] (take (Z.to_nat n) (drop (Z.to_nat (o - 1)) full));
             window_start_line := o; num_lines := n; window_total_lines := Z.of_nat (length full);
             bytes_read := 0; window_total_bytes := 9;
             next_offset := if o - 1 + n <? Z.of_nat (length full) then Some (o + n) else None;
             window_truncated := false |}.

Lemma serve_serves k full : 1 ≤ k → serves full 9 (serve k full).
Proof.
  intros Hk o Ho. eexists. split; [done|]. unfold window_of.
  cbn [num_lines content window_total_lines window_total_bytes next_offset]. split_and!; try done; lia.
Qed.

Lemma read_pages_whole_witness :
  read_pages (serve 2 [js "a"; []; js "b"; js "c"; js "d"]) 5 [] None =
  Some (Returns {| whole_content := join [10] [js "a"; []; js "b"; js "c"; js "d"];
                   whole_totalLines := 5; whole_totalBytes := 9 |}).
Proof.
  refine (read_pages_whole [js "a"; []; js "b"; js "c"; js "d"] 9
    (serve 2 [js "a"; []; js "b"; js "c"; js "d"]) _ 5 (serve_serves 2 _ _) eq_refl _ _ _).
  - lia.
  - discriminate.
  - left. discriminate.
  - simpl. lia.
Defined.

(** The proviso is needed: with one line per read, the line break after a
    blank first line is lost. *)
Example read_pages_blank_first_line :
  option_map (λ r, match r with Returns f => Some (whole_content f) | Throws _ => None end)
    (read_pages (serve 1 [[]; js "a"; js "b"]) 9 [] None)
  = Some (Some (js "a" ++ 10 :: js "b")).
Proof. reflexivity. Qed.

(** The windows a paging read, each leading to the next, up to one that says
    it is the last. *)
Inductive paged (read : option Z → outcome RpcError FileReadWindow)
    : option Z → list FileReadWindow → Prop :=
  | paged_last o w : read o = Returns w → next_offset w = None ∨ num_lines w = 0 → paged read o [w]
  | paged_more o w next ws :
      read o = Returns w → next_offset w = Some next → num_lines w ≠ 0 →
      paged read (Some next) ws → paged read o (w :: ws).

(** Reading to the end never returns a part of a file as the whole: a
    result is the concatenation of windows that end with one the service
    declared the last, and if any read throws, the call throws that error.
    Whatever the service answers. *)
Theorem read_pages_never_partial read fuel text offset :
  match read_pages read fuel text offset with
  | Some (Returns f) =>
      ∃ ws, paged read offset ws ∧ whole_content f = foldl append_window text (content <$> ws) ∧
            option_map window_total_lines (last ws) = Some (whole_totalLines f)
  | Some (Throws e) => ∃ o, read o = Throws e
  | None => True
  end.
Proof.
  revert text offset. induction fuel as [|fuel IH]; intros text offset; [done|]. cbn [read_pages].
  destruct (read offset) as [w|e] eqn:Hw; [|by exists offset].
  destruct (next_offset w) as [next|] eqn:Hnext.
  - destruct (Z.eqb_spec (num_lines w) 0).
    + exists [w]. split_and!; [|done..]. apply paged_last; auto.
    + specialize (IH (append_window text (content w)) (Some next)).
      destruct (read_pages _ _ _ _) as [[f|e]|]; [|done..]. destruct IH as (ws & Hws & Hc & Hl).
      exists (w :: ws). split_and!; [by eapply paged_more|done|]. by destruct ws.
  - exists [w]. split_and!; [|done..]. apply paged_last; auto.
Qed.
