(* ===== verification/ObservabilityApi.v ===== *)
(** The requests for observability views ([web/src/api/observability.ts]):
    every view is one RPC, scoped to a sandbox unless it is the fleet's. *)
From S2P Require Import Prelude JsNumber JsText Json Rpc.

Section requests.
Context (fetch : jsstr → jsstr → fetched).

Definition fetchObservabilityView (sandboxId operation : jsstr) (args : list (jsstr * json))
    : outcome RpcError json := rpc fetch operation (sandboxScope sandboxId) args.

Definition fetchFleetSnapshot : outcome RpcError json := rpc fetch (js "snapshot") systemScope [].

(** The snapshot of one sandbox, in the shape of the fleet's. *)
Definition fetchSandboxSnapshot (sandboxId : jsstr) : outcome RpcError json :=
  let! snapshot := fetchObservabilityView sandboxId (js "snapshot") [] in
  Returns (JObj [(js "sandboxes", JArr [snapshot])]).

Definition int_json (z : Z) : json := JNum (num_of_Z z).

Definition fetchCgroup (sandboxId scope : jsstr) (windowMs : Z) : outcome RpcError json :=
  fetchObservabilityView sandboxId (js "cgroup")
    [(js "scope", JStr scope); (js "window_ms", int_json windowMs)].

Definition fetchSandboxResources (sandboxId : jsstr) (windowMs : Z) : outcome RpcError json :=
  fetchObservabilityView sandboxId (js "resources") [(js "window_ms", int_json windowMs)].

Definition fetchFleetResources : outcome RpcError json := rpc fetch (js "resources") systemScope [].

Definition fetchTopology (sandboxId : jsstr) : outcome RpcError json :=
  fetchObservabilityView sandboxId (js "topology") [].

Definition fetchDaemonSelf (sandboxId : jsstr) : outcome RpcError json :=
  fetchObservabilityView sandboxId (js "daemon") [].

Definition fetchTrace (sandboxId traceId : jsstr) : outcome RpcError json :=
  fetchObservabilityView sandboxId (js "trace") [(js "trace_id", JStr traceId)].

(** The filters of the event view; an empty name is no filter. *)
Record EventFilters := { filter_name : option jsstr; sinceMs : option Z; lastN : option Z }.

Definition optional (k : string) (v : option json) : list (jsstr * json) :=
  match v with Some v => [(js k, v)] | None => [] end.

Definition fetchEvents (sandboxId : jsstr) (filters : EventFilters) : outcome RpcError json :=
  fetchObservabilityView sandboxId (js "events")
    (optional "name" (match filter_name filters with
                      | Some n => if bool_decide (n = []) then None else Some (JStr n)
                      | None => None end) ++
     optional "since_ms" (int_json <$> sinceMs filters) ++
     optional "last_n" (int_json <$> lastN filters)).

Definition fetchLayerStack (sandboxId : jsstr) : outcome RpcError json :=
  fetchObservabilityView sandboxId (js "layerstack") [].

Definition fetchLayerStackWorkspace (sandboxId workspaceId : jsstr) : outcome RpcError json :=
  fetchObservabilityView sandboxId (js "layerstack") [(js "workspace_id", JStr workspaceId)].

Definition fetchLayerStackLayer (sandboxId layerId : jsstr) : outcome RpcError json :=
  fetchObservabilityView sandboxId (js "layerstack") [(js "layer_id", JStr layerId)].
End requests.
