(* ===== verification/Blame.v ===== *)
(** File blame in the viewer ([web/src/pages/sandbox/files/blame.ts]): the
    stable colour of an owner, from a 32-bit hash of its name, the owners of a
    file and the owner of a line. The gutter's DOM nodes are left out. *)
From S2P Require Import Prelude JsText JsCollections Files.

Record BlameOwnerInfo := { info_owner : jsstr; color : jsstr; hatched : bool }.

(** [x | 0]: the signed 32-bit integer congruent to [x]. *)
Definition to_int32 (x : Z) : Z := (x + 2 ^ 31) mod 2 ^ 32 - 2 ^ 31.

Definition hash_step (hash unit : Z) : Z := to_int32 (hash * 31 + unit).

Definition hashHue (text : jsstr) : Z := Z.abs (foldl hash_step 0 text) mod 360.

Definition ownerInfo (owner : jsstr) : BlameOwnerInfo :=
  if bool_decide (owner = js "original") then
    {| info_owner := owner; color := js "#c8cdd6"; hatched := false |}
  else if bool_decide (owner = js "unknown") then
    {| info_owner := owner; color := js "#9aa1ac"; hatched := true |}
  else {| info_owner := owner; color := js "hsl(" ++ Z_to_js (hashHue owner) ++ js " 65% 55%)"; hatched := false |}.

Definition ownersOf (ranges : list BlameRange) : list jsstr := js_set (owner <$> ranges).

Definition in_range (line : Z) (range : BlameRange) : bool :=
  (start_line range <=? line) && (line <? start_line range + line_count range).

(** The first range that holds the line. *)
Definition ownerAt (ranges : list BlameRange) (absoluteLine : Z) : option jsstr :=
  owner <$> js_find (in_range absoluteLine) ranges.

(** The marker of a document line, whose window starts at [windowStart]; an
    empty owner has none. *)
Definition lineMarker (ranges : list BlameRange) (windowStart docLine : Z) : option BlameOwnerInfo :=
  match ownerAt ranges (windowStart + docLine - 1) with
  | Some o => if bool_decide (o = []) then None else Some (ownerInfo o)
  | None => None
  end.

(** A click reports the owner, and is handled exactly when the line has one. *)
Definition gutter_click (ranges : list BlameRange) (windowStart docLine : Z) : option jsstr * bool :=
  match ownerAt ranges (windowStart + docLine - 1) with
  | Some o => ((if bool_decide (o = []) then None else Some o), true)
  | None => (None, false)
  end.

(** ** Facts *)

Lemma to_int32_range x : - 2 ^ 31 ≤ to_int32 x < 2 ^ 31.
Proof. unfold to_int32. pose proof (Z.mod_pos_bound (x + 2 ^ 31) (2 ^ 32)). lia. Qed.

Lemma to_int32_mod x : to_int32 x mod 2 ^ 32 = x mod 2 ^ 32.
Proof.
  unfold to_int32. rewrite Zminus_mod_idemp_l. f_equal. lia.
Qed.

Lemma to_int32_small x : - 2 ^ 31 ≤ x < 2 ^ 31 → to_int32 x = x.
Proof. intros Hx. unfold to_int32. rewrite Z.mod_small; lia. Qed.

Lemma to_int32_congruent x y : x mod 2 ^ 32 = y mod 2 ^ 32 → to_int32 x = to_int32 y.
Proof.
  intros H. unfold to_int32. by rewrite <- Z.add_mod_idemp_l, H, Z.add_mod_idemp_l by lia.
Qed.

Lemma hash_range text : - 2 ^ 31 ≤ foldl hash_step 0 text < 2 ^ 31.
Proof.
  induction text as [|u text _] using rev_ind; [simpl; lia|].
  rewrite foldl_snoc. apply to_int32_range.
Qed.

(** The product of a 32-bit hash and 31, plus a code unit, is a safe integer,
    so the binary64 arithmetic of the source is exact before [| 0]. *)
Lemma hash_step_safe hash unit :
  - 2 ^ 31 ≤ hash < 2 ^ 31 → 0 ≤ unit < 2 ^ 16 → Z.abs (hash * 31 + unit) < 2 ^ 53.
Proof.
  change (2 ^ 31) with 2147483648. change (2 ^ 16) with 65536. change (2 ^ 53) with 9007199254740992. lia.
Qed.

(** Without wrap-around: the polynomial hash modulo [2^32]. *)
Definition hash_reference (text : jsstr) : Z := foldl (λ h u, h * 31 + u) 0 text.

Lemma hash_congruent text : (foldl hash_step 0 text) mod 2 ^ 32 = hash_reference text mod 2 ^ 32.
Proof.
  unfold hash_reference. induction text as [|u text IH] using rev_ind; [done|].
  rewrite !foldl_snoc. unfold hash_step. rewrite to_int32_mod.
  rewrite <- (Z.add_mod_idemp_l (_ * 31)), <- (Z.mul_mod_idemp_l (foldl hash_step 0 text)), IH by lia.
  by rewrite Z.mul_mod_idemp_l, Z.add_mod_idemp_l by lia.
Qed.

(** An owner's colour is a function of its name alone and always a valid
    one: the hash of the wrapping 32-bit steps is the signed residue of the
    polynomial hash, no intermediate value leaves the safe integers, and the
    hue is a degree below 360; only [unknown] is hatched. *)
Theorem ownerInfo_spec o (Ho : Forall (λ u, 0 ≤ u < 2 ^ 16) o) :
  hashHue o = Z.abs (to_int32 (hash_reference o)) mod 360 ∧ 0 ≤ hashHue o < 360 ∧
  (∀ o1 u o2, o = o1 ++ u :: o2 → Z.abs (foldl hash_step 0 o1 * 31 + u) < 2 ^ 53) ∧
  info_owner (ownerInfo o) = o ∧
  (hatched (ownerInfo o) = true ↔ o = js "unknown") ∧
  (o ≠ js "original" → o ≠ js "unknown" →
   color (ownerInfo o) = js "hsl(" ++ Z_to_js (hashHue o) ++ js " 65% 55%)").
Proof.
  split_and!.
  - unfold hashHue. do 2 f_equal. rewrite <- (to_int32_small (foldl hash_step 0 o)) by apply hash_range.
    apply to_int32_congruent, hash_congruent.
  - apply Z.mod_pos_bound. lia.
  - apply Z.mod_pos_bound. lia.
  - intros o1 u o2 ->. apply hash_step_safe; [apply hash_range|].
    rewrite Forall_app, Forall_cons in Ho. naive_solver.
  - unfold ownerInfo. by repeat case_bool_decide.
  - unfold ownerInfo. repeat case_bool_decide; subst; simpl; split; intros; done || congruence.
  - intros. unfold ownerInfo. by rewrite !bool_decide_false.
Qed.

Lemma ownerInfo_spec_witness : hashHue (js "workspace-7") = 311.
Proof.
  refine (eq_trans (proj1 (ownerInfo_spec (js "workspace-7") _)) _); [|vm_compute; reflexivity].
  decide_closed.
Defined.

(** Ranges that do not overlap, as the blame service lists them. *)
Definition disjoint_ranges (ranges : list BlameRange) : Prop :=
  ∀ i j r r' line, ranges !! i = Some r → ranges !! j = Some r' →
    in_range line r = true → in_range line r' = true → i = j.

(** The marker of a document line is that of the blame range holding its
    absolute line: whatever the order of the disjoint ranges and the window
    the viewer shows; a line in no range, or of an empty owner, has none, and
    every owner shown in the gutter is listed once among the file's owners. *)
Theorem lineMarker_spec ranges windowStart docLine
    (Hdisjoint : disjoint_ranges ranges) :
  (∀ r, r ∈ ranges → in_range (windowStart + docLine - 1) r = true → owner r ≠ [] →
     lineMarker ranges windowStart docLine = Some (ownerInfo (owner r)) ∧
     gutter_click ranges windowStart docLine = (Some (owner r), true)) ∧
  ((∀ r, r ∈ ranges → in_range (windowStart + docLine - 1) r = false) →
     lineMarker ranges windowStart docLine = None ∧ gutter_click ranges windowStart docLine = (None, false)) ∧
  (∀ info, lineMarker ranges windowStart docLine = Some info → info_owner info ∈ ownersOf ranges) ∧
  NoDup (ownersOf ranges).
Proof.
  unfold lineMarker, gutter_click, ownerAt. split_and!.
  - intros r Hr Hin Hne. destruct (js_find _ _) as [r'|] eqn:Hf.
    + apply js_find_Some in Hf as (l1 & l2 & -> & Hr' & _).
      apply list_elem_of_lookup in Hr as [j Hj].
      assert (j = length l1) as ->.
      { eapply Hdisjoint; [done| |done|done]. by rewrite lookup_app_r, Nat.sub_diag by lia. }
      rewrite lookup_app_r, Nat.sub_diag in Hj by lia. injection Hj as ->.
      simpl. by rewrite !bool_decide_false.
    + apply js_find_None in Hf. rewrite Forall_forall in Hf. by rewrite (Hf r Hr) in Hin.
  - intros Hnone. rewrite (proj2 (js_find_None _ _)); [done|]. by apply Forall_forall.
  - intros info. destruct (js_find _ _) as [r|] eqn:Hf; [|done]. simpl. case_bool_decide; [done|].
    intros [= <-]. apply js_find_Some in Hf as (l1 & l2 & -> & _). unfold ownersOf.
    rewrite js_set_elem, list_elem_of_fmap. exists r. split; [|set_solver].
    unfold ownerInfo. by repeat case_bool_decide.
  - apply js_set_NoDup.
Qed.

Lemma lineMarker_spec_witness :
  let ranges := [{| start_line := 1; line_count := 2; owner := js "a" |};
                 {| start_line := 3; line_count := 1; owner := js "unknown" |}] in
  lineMarker ranges 2 2 = Some (ownerInfo (js "unknown")).
Proof.
  refine (proj1 (proj1 (lineMarker_spec _ 2 2 _) {| start_line := 3; line_count := 1; owner := js "unknown" |} _ _ _)).
  - intros [|[|[]]] [|[|[]]] r r' line Hi Hj Hin Hin'; simplify_eq/=; try done; unfold in_range in *; simpl in *; bool_to_prop; lia.
  - set_solver.
  - reflexivity.
  - discriminate.
Defined.
