(* ===== verification/Catalog.v ===== *)
(** The operation catalog ([web/src/api/catalog.ts]): its documents, the
    lookup of an operation, and the validation and conversion of form fields
    into the arguments of a call. *)
From S2P Require Import Prelude JsNumber JsText NumText Json Rpc.

Inductive ArgKind := kind_string | kind_integer | kind_float | kind_path | kind_json_array.
Inductive OperationDomain := domain_manager | domain_runtime | domain_observability.
Inductive OperationScopePolicy := policy_system | policy_sandbox_required | policy_system_or_sandbox.
Inductive OperationScopeKind := scope_system | scope_sandbox.
Inductive OperationExecutionOwner := owner_manager | owner_runtime | owner_observability.
Inductive OperationVisibility := visibility_public | visibility_internal.

Record ArgSpecDoc := {
  arg_name : jsstr;
  arg_kind : ArgKind;
  required : bool;
  help : jsstr;
  arg_default : option jsstr;
}.

Record OperationSpecDoc := {
  operation_name : jsstr;
  family : jsstr;
  summary : jsstr;
  description : jsstr;
  args : list ArgSpecDoc;
  related : list jsstr;
}.

Record OperationRouteDoc := {
  operation : jsstr;
  scope_policy : OperationScopePolicy;
  scope_kind : OperationScopeKind;
  execution_owner : OperationExecutionOwner;
  visibility : OperationVisibility;
}.

Record FamilyDoc := { family_id : jsstr; family_title : jsstr; family_summary : jsstr; family_description : jsstr }.

Record CatalogDoc := {
  operation_execution_space : OperationDomain;
  families : list FamilyDoc;
  operations : list OperationSpecDoc;
  routes : list OperationRouteDoc;
}.

Record Catalogs := { management : CatalogDoc; runtime : CatalogDoc; observability : CatalogDoc }.

(** [fetchCatalogs]: the failure it throws itself, or what [fetch] or
    [response.json()] was rejected with. *)
Inductive catalog_error := CatalogHttp (message : jsstr) | CatalogRejected (reason : jsstr) | CatalogBody.

Definition fetchCatalogs (fetch : jsstr → fetched) : outcome catalog_error json :=
  match fetch (js "/api/catalog") with
  | FetchRejected reason => Throws (CatalogRejected reason)
  | FetchResponse status body =>
      if negb (response_ok status)
      then Throws (CatalogHttp (js "catalog fetch failed: HTTP " ++ Z_to_js status))
      else match body ≫= parse with Some v => Returns v | None => Throws CatalogBody end
  end.

Definition findOperation (catalog : option CatalogDoc) (name : jsstr) : option OperationSpecDoc :=
  catalog ≫= λ c, js_find (λ o, bool_decide (operation_name o = name)) (operations c).

(** ** Form fields *)

(** [{ value?, error? }]: a value, an error, or neither. *)
Inductive parsed_arg := Blank | Invalid (error : jsstr) | Valid (value : json).

Definition parseArgValue (spec : ArgSpecDoc) (raw : jsstr) : parsed_arg :=
  let trimmed := trim raw in
  if bool_decide (trimmed = []) then
    if required spec then Invalid (arg_name spec ++ js " is required") else Blank
  else match arg_kind spec with
       | kind_integer =>
           if forallb is_digit trimmed then Valid (JNum (Number trimmed))
           else Invalid (arg_name spec ++ js " must be an unsigned integer")
       | kind_float =>
           let parsed := Number trimmed in
           if isFinite parsed then Valid (JNum parsed)
           else Invalid (arg_name spec ++ js " must be a finite number")
       | kind_json_array =>
           match parse trimmed with
           | Some (JArr l) => Valid (JArr l)
           | _ => Invalid (arg_name spec ++ js " must be a JSON array")
           end
       | kind_string | kind_path => Valid (JStr raw)
       end.

Record built := { built_args : list (jsstr * json); built_errors : list (jsstr * json) }.

(** [values[spec.name] ?? ""]. *)
Definition field (values : gmap jsstr jsstr) (spec : ArgSpecDoc) : jsstr := values !! arg_name spec ?? [].

Definition build_step (values : gmap jsstr jsstr) (b : built) (spec : ArgSpecDoc) : built :=
  match parseArgValue spec (field values spec) with
  | Invalid error => {| built_args := built_args b;
                        built_errors := obj_set (arg_name spec) (JStr error) (built_errors b) |}
  | Valid value => {| built_args := obj_set (arg_name spec) value (built_args b);
                      built_errors := built_errors b |}
  | Blank => b
  end.

Definition buildArgs (specs : list ArgSpecDoc) (values : gmap jsstr jsstr) : built :=
  foldl (build_step values) {| built_args := []; built_errors := [] |} specs.

(** ** Facts *)

(** The arguments and errors the fields give, in the catalog's order. *)
Definition valid_args (specs : list ArgSpecDoc) (values : gmap jsstr jsstr) : list (jsstr * json) :=
  omap (λ spec, match parseArgValue spec (field values spec) with
                | Valid v => Some (arg_name spec, v) | _ => None end) specs.
Definition field_errors (specs : list ArgSpecDoc) (values : gmap jsstr jsstr) : list (jsstr * json) :=
  omap (λ spec, match parseArgValue spec (field values spec) with
                | Invalid e => Some (arg_name spec, JStr e) | _ => None end) specs.

Lemma omap_keys {B} (f : ArgSpecDoc → option (jsstr * B)) specs :
  (∀ s y, f s = Some y → y.1 = arg_name s) → ∀ k, k ∈ (omap f specs).*1 → k ∈ arg_name <$> specs.
Proof.
  intros Hf k (y & -> & Hy)%list_elem_of_fmap. apply list_elem_of_omap in Hy as (s & Hs & Hy).
  rewrite (Hf s y Hy). by apply list_elem_of_fmap_2.
Qed.

(** Building a call's arguments: each field is checked against its own
    specification, the arguments are the values of the valid fields and the
    errors those of the invalid ones, both in the catalog's order and under
    the argument's name; a blank optional field is in neither, so it is
    omitted from the request. *)
Theorem buildArgs_spec specs values
    (Hnames : NoDup (arg_name <$> specs)) :
  buildArgs specs values =
  {| built_args := valid_args specs values; built_errors := field_errors specs values |}.
Proof.
  unfold buildArgs. induction specs as [|spec specs IH] using rev_ind; [done|].
  rewrite fmap_app in Hnames. apply NoDup_app in Hnames as (Hn & Hd & _).
  rewrite foldl_snoc, IH by done. unfold build_step, valid_args, field_errors. rewrite !omap_snoc.
  assert (arg_name spec ∉ arg_name <$> specs) as Hfresh by (intros ?%Hd; set_solver).
  assert (∀ f : ArgSpecDoc → option (jsstr * json), (∀ s y, f s = Some y → y.1 = arg_name s) →
    ∀ v, obj_set (arg_name spec) v (omap f specs) = omap f specs ++ [(arg_name spec, v)]) as Hset.
  { intros f Hf v. apply obj_set_fresh. intros Hk. by apply Hfresh, (omap_keys f). }
  destruct (parseArgValue spec (field values spec)); cbn [built_args built_errors]; rewrite ?app_nil_r; [done|..].
  - rewrite Hset; [done|]. intros s y Hy. by destruct (parseArgValue _ _); simplify_eq.
  - rewrite Hset; [done|]. intros s y Hy. by destruct (parseArgValue _ _); simplify_eq.
Qed.

Definition example_spec (n : string) (k : ArgKind) (req : bool) : ArgSpecDoc :=
  {| arg_name := js n; arg_kind := k; required := req; help := []; arg_default := None |}.

Lemma buildArgs_spec_witness :
  let specs := [example_spec "path" kind_path true; example_spec "limit" kind_integer false;
                example_spec "cmd" kind_string true; example_spec "layers" kind_json_array false] in
  let values := list_to_map [(js "path", js " /a "); (js "limit", js " "); (js "layers", js " [1, 2]")] in
  built_args (buildArgs specs values) =
    [(js "path", JStr (js " /a ")); (js "layers", JArr [JNum (num_of_Z 1); JNum (num_of_Z 2)])] ∧
  built_errors (buildArgs specs values) = [(js "cmd", JStr (js "cmd is required"))].
Proof.
  intros specs values.
  assert (NoDup (arg_name <$> specs)) as Hn by decide_closed.
  rewrite (buildArgs_spec specs values Hn). split; vm_compute; reflexivity.
Defined.

(** ** Facts: one field *)

(** The values a kind of argument admits. *)
Definition admits (k : ArgKind) (raw : jsstr) (v : json) : Prop :=
  match k with
  | kind_integer => ∃ n, v = JNum n ∧ n = num_of_Z (undec 0 (trim raw)) ∧ Forall (λ u, is_digit u = true) (trim raw)
  | kind_float => ∃ n, v = JNum n ∧ isFinite n = true ∧ n = Number raw
  | kind_json_array => ∃ l, v = JArr l ∧ parse (trim raw) = Some v
  | kind_string | kind_path => v = JStr raw
  end.

Lemma digit_not_space u : is_digit u = true → is_space u = false.
Proof.
  unfold is_digit, is_space. intros H. bool_to_prop.
  rewrite !orb_false_iff, !andb_false_iff, !Z.leb_gt, bool_decide_eq_false. set_unfold. lia.
Qed.

Lemma Number_trim raw : Number (trim raw) = Number raw.
Proof. unfold Number. by rewrite trim_idempotent. Qed.

(** C27: One form field: blank text is an error when the argument is required
    and omitted otherwise; any other text is either converted to a value the
    argument's kind admits (text and paths verbatim, white space included) or
    refused with a message that names the argument. *)
Theorem parseArgValue_spec spec raw :
  match parseArgValue spec raw with
  | Blank => Forall (λ u, is_space u = true) raw ∧ required spec = false
  | Valid v => trim raw ≠ [] ∧ admits (arg_kind spec) raw v
  | Invalid e =>
      (∃ why, e = arg_name spec ++ why ∧ why ≠ []) ∧
      (if bool_decide (trim raw = []) then required spec = true
       else ∀ v, ¬ admits (arg_kind spec) raw v)
  end.
Proof.
  unfold parseArgValue. case_bool_decide as Hblank.
  { destruct (required spec) eqn:Hr; [split; [by eexists|done]|].
    by rewrite <- trim_nil. }
  destruct (arg_kind spec); try done.
  - destruct (forallb is_digit (trim raw)) eqn:Hd.
    + rewrite forallb_forall in Hd.
      assert (Forall (λ u, is_digit u = true) (trim raw)) as Hds by (apply Forall_forall; intros u Hu; apply Hd; by apply list_elem_of_In).
      split; [done|]. eexists. split_and!; [done| |done]. by apply Number_digits.
    + split; [by eexists|]. intros v (n & -> & _ & Hds). apply not_true_iff_false in Hd. apply Hd.
      apply forallb_forall. intros u Hu. rewrite Forall_forall in Hds. apply Hds. by apply list_elem_of_In.
  - destruct (isFinite (Number (trim raw))) eqn:Hf; rewrite Number_trim in *.
    + split; [done|]. by eexists.
    + split; [by eexists|]. intros v (n & _ & Hn & ->). congruence.
  - destruct (parse (trim raw)) as [[| | | |l|]|] eqn:Hp; try (split; [by eexists|]; intros v (l' & -> & ?); congruence).
    split; [done|]. by exists l.
Qed.

Lemma stringify_array_ends l u :
  hd_error (stringify (JArr l)) = Some u ∨ last (stringify (JArr l)) = Some u → u = 91 ∨ u = 93.
Proof.
  assert (∃ body, stringify (JArr l) = 91 :: body ++ [93]) as [body ->] by (eexists; reflexivity).
  rewrite app_comm_cons, last_snoc. intros [[= <-]|[= <-]]; auto.
Qed.

(** Values round trip through a form field: the decimal text of any
    unsigned integer, and the JSON text of any array the console builds, are
    accepted and give that value back, whatever white space surrounds the
    integer. *)
Theorem parseArgValue_round_trip spec before after z l
    (Hz : 0 ≤ z) (Hl : plain (JArr l))
    (Hspace : Forall (λ u, is_space u = true) before ∧ Forall (λ u, is_space u = true) after) :
  (arg_kind spec = kind_integer →
     parseArgValue spec (before ++ dec z ++ after) = Valid (JNum (num_of_Z z))) ∧
  (arg_kind spec = kind_json_array → parseArgValue spec (stringify (JArr l)) = Valid (JArr l)).
Proof.
  destruct Hspace as [Hb Ha]. destruct (dec_spec z Hz) as (Hval & Hne & Hds & _). split; intros Hk.
  - assert (trim (before ++ dec z ++ after) = dec z) as Ht by (apply trim_pad; [done..|]; intros u Hu;
      apply digit_not_space; rewrite Forall_forall in Hds; apply Hds; destruct Hu as [Hu|Hu];
      [by destruct (dec z); simplify_eq/=; set_solver|by apply last_Some in Hu as [? ->]; set_solver]).
    unfold parseArgValue. rewrite Ht, Hk, bool_decide_false by done.
    rewrite (proj2 (forallb_forall _ _)); [by rewrite Number_digits, Hval|].
    intros u Hu. rewrite Forall_forall in Hds. apply Hds. by apply list_elem_of_In.
  - assert (trim (stringify (JArr l)) = stringify (JArr l)) as Ht by (apply trim_ends; [done|];
      intros u [-> | ->]%stringify_array_ends; reflexivity).
    unfold parseArgValue. rewrite Ht, Hk, bool_decide_false by done.
    by rewrite parse_stringify.
Qed.

Lemma parseArgValue_round_trip_witness :
  parseArgValue (example_spec "limit" kind_integer true) (js " " ++ dec 42 ++ [10]) = Valid (JNum (num_of_Z 42)).
Proof.
  refine (proj1 (parseArgValue_round_trip (example_spec "limit" kind_integer true) (js " ") [10] 42 [] _ _ _) eq_refl);
    [lia|by constructor|split; decide_closed].
Defined.
