(* ===== verification/ProcessEstimates.v ===== *)
(** Resource estimates of a workspace from two process topologies
    ([web/src/pages/sandbox/observability/processEstimates.ts]), on binary64
    numbers. *)
From S2P Require Import Prelude JsNumber JsText NumText JsCollections Types Observability.

Record WorkspaceResourceEstimate := {
  residentMemoryBytes : option number;
  cpuPercent : option number;
}.

(** [typeof value === "number" && Number.isFinite(value) && value >= 0]. *)
Definition isNonNegativeNumber (value : option number) : option number :=
  match value with
  | Some v => if finite_nonneg v then Some v else None
  | None => None
  end.

Definition processIdentity (p : WorkspaceProcess) : option jsstr :=
  (λ ticks, Z_to_js (pid p) ++ [58] ++ num_to_js ticks) <$> isNonNegativeNumber (start_time_ticks p).

(** The key of a process in the index: [`${workspace_id}:${key}`]. *)
Definition process_key (workspace key : jsstr) : jsstr := workspace ++ [58] ++ key.

Definition process_entry (workspace : jsstr) (p : WorkspaceProcess) : option (jsstr * number) :=
  match processIdentity p, isNonNegativeNumber (cpu_time_us p) with
  | Some key, Some cpu => Some (process_key workspace key, cpu)
  | _, _ => None
  end.

Definition indexProcesses (t : WorkspaceProcessTopology) : gmap jsstr number :=
  js_map (topology_workspaces t ≫= λ w, omap (process_entry (workspace_id w)) (processes w)).

(** The running totals of one workspace. *)
Record tally := {
  memory_total : number;
  hasMemoryEstimate : bool;
  cpuDeltaUs : number;
  hasCpuEstimate : bool;
}.

(** One process. [previousProcesses] is [None] when the CPU cannot be
    estimated. *)
Definition tally_process (previousProcesses : option (gmap jsstr number)) (workspace : jsstr)
    (t : tally) (p : WorkspaceProcess) : tally :=
  let '(memory, hasMemory) :=
    match isNonNegativeNumber (resident_memory_bytes p) with
    | Some m => (num_add (memory_total t) m, true)
    | None => (memory_total t, hasMemoryEstimate t)
    end in
  let '(delta, hasCpu) :=
    match previousProcesses, process_entry workspace p with
    | Some previous, Some (key, cpu) =>
        match previous !! key with
        | Some before => if num_ltb cpu before then (cpuDeltaUs t, hasCpuEstimate t)
                         else (num_add (cpuDeltaUs t) (num_sub cpu before), true)
        | None => (cpuDeltaUs t, hasCpuEstimate t)
        end
    | _, _ => (cpuDeltaUs t, hasCpuEstimate t)
    end in
  {| memory_total := memory; hasMemoryEstimate := hasMemory; cpuDeltaUs := delta; hasCpuEstimate := hasCpu |}.

Definition estimate_workspace (previousProcesses : option (gmap jsstr number)) (elapsedMs : option number)
    (w : WorkspaceProcesses) : WorkspaceResourceEstimate :=
  let t := foldl (tally_process previousProcesses (workspace_id w))
             {| memory_total := num_zero; hasMemoryEstimate := false;
                cpuDeltaUs := num_zero; hasCpuEstimate := false |} (processes w) in
  {| residentMemoryBytes := if hasMemoryEstimate t then Some (memory_total t) else None;
     cpuPercent := match elapsedMs with
                   | Some ms => if hasCpuEstimate t
                                then Some (num_mul (num_div (cpuDeltaUs t) (num_mul ms (num_of_Z 1000))) (num_of_Z 100))
                                else None
                   | None => None
                   end |}.

Definition estimateWorkspaceResources (previous : option WorkspaceProcessTopology)
    (current : WorkspaceProcessTopology) (elapsedMs : option number) : gmap jsstr WorkspaceResourceEstimate :=
  let previousProcesses :=
    match previous, elapsedMs with
    | Some p, Some ms => if num_ltb num_zero ms then Some (indexProcesses p) else None
    | _, _ => None
    end in
  js_map ((λ w, (workspace_id w, estimate_workspace previousProcesses elapsedMs w)) <$> topology_workspaces current).

(** ** Facts: the identity of a process *)

Lemma dec_units z u : u ∈ dec z → 48 ≤ u ≤ 57.
Proof.
  unfold dec. assert (∀ fuel z acc, (∀ u, u ∈ acc → 48 ≤ u ≤ 57) → ∀ u, u ∈ dec_go fuel z acc → 48 ≤ u ≤ 57) as H.
  { intros fuel. induction fuel as [|fuel IH]; intros w acc Hacc v; cbn [dec_go].
    - intros [-> | ?]%elem_of_cons; [|auto]. pose proof (Z.mod_pos_bound w 10). lia.
    - assert (∀ v, v ∈ (48 + w mod 10) :: acc → 48 ≤ v ≤ 57) as Hcons.
      { intros x [-> | ?]%elem_of_cons; [|auto]. pose proof (Z.mod_pos_bound w 10). lia. }
      destruct (w <? 10); [auto|]. by apply IH. }
  apply H. set_solver.
Qed.

Lemma layout_no_colon s k n : 58 ∉ layout s k n.
Proof.
  assert (∀ z, 58 ∉ dec z) as Hd by (intros z Hz%dec_units; lia).
  assert (∀ z, 58 ∉ zeros z) as Hz by (intros z [? _]%elem_of_replicate; done).
  assert (∀ m z, 58 ∉ take m (dec z)) as Ht by (intros m z Hu%subseteq_take; by eapply Hd).
  assert (∀ m z, 58 ∉ drop m (dec z)) as Hr by (intros m z Hu%subseteq_drop; by eapply Hd).
  unfold layout. repeat case_match; rewrite ?elem_of_app, ?elem_of_cons, ?elem_of_app, ?elem_of_cons; naive_solver.
Qed.

Lemma Z_to_js_no_colon z : 58 ∉ Z_to_js z.
Proof. intros [?|?]%Z_to_js_units; lia. Qed.

Lemma num_to_js_no_colon x : 58 ∉ num_to_js x.
Proof.
  assert (∀ (b : bool) s k n, 58 ∉ (if b then [45] else []) ++ layout s k n) as Hs.
  { intros b s k n. rewrite elem_of_app. intros [Hb|Hl]; [destruct b; set_solver|by eapply layout_no_colon]. }
  unfold num_to_js. destruct x as [s|s| |s m e]; [decide_closed|destruct s; decide_closed|decide_closed|].
  destruct (num_to_Z _) as [z|]; [destruct (_ <? _); [apply Z_to_js_no_colon|]|].
  all: destruct (shortest _ _ _ _ _ _) as [[d k] n]; apply Hs.
Qed.

(** Text before the last separator is determined when the rest has none. *)
Lemma app_sep_inj (c : Z) (a b a' b' : jsstr) :
  c ∉ b → c ∉ b' → a ++ c :: b = a' ++ c :: b' → a = a' ∧ b = b'.
Proof.
  intros Hb Hb' Heq. apply (f_equal reverse) in Heq. rewrite !reverse_app, !reverse_cons in Heq.
  rewrite <- !app_assoc in Heq. cbn [app] in Heq. rewrite <- elem_of_reverse in Hb, Hb'.
  apply (f_equal (split c)) in Heq. rewrite !split_app in Heq by done. injection Heq as H1 H2.
  apply (f_equal (join [c])) in H2. rewrite !join_split in H2. split; by apply (inj reverse).
Qed.

Definition ticks_text (p : WorkspaceProcess) : option jsstr :=
  num_to_js <$> isNonNegativeNumber (start_time_ticks p).

Lemma process_entry_inj w p w' p' k c c' :
  process_entry w p = Some (k, c) → process_entry w' p' = Some (k, c') →
  w = w' ∧ pid p = pid p' ∧ ticks_text p = ticks_text p' ∧ is_Some (ticks_text p).
Proof.
  unfold process_entry, processIdentity, ticks_text.
  destruct (isNonNegativeNumber (start_time_ticks p)) as [t|]; [|done].
  destruct (isNonNegativeNumber (start_time_ticks p')) as [t'|]; cbn [fmap option_fmap option_map];
    [|destruct (isNonNegativeNumber (cpu_time_us p)); done].
  destruct (isNonNegativeNumber (cpu_time_us p)); [|done].
  destruct (isNonNegativeNumber (cpu_time_us p')); [|done].
  intros [= <- <-] [= Heq <-]. unfold process_key in Heq. cbn [app] in Heq.
  assert (∀ w p (t : number), w ++ 58 :: Z_to_js p ++ 58 :: num_to_js t = (w ++ 58 :: Z_to_js p) ++ 58 :: num_to_js t) as Hassoc
    by (intros; by rewrite <- app_assoc).
  rewrite !Hassoc in Heq. apply app_sep_inj in Heq as [Heq Ht]; try apply num_to_js_no_colon.
  apply app_sep_inj in Heq as [Hw Hp]; try apply Z_to_js_no_colon.
  apply Z_to_js_inj in Hp. split_and!; [done..|by rewrite Ht|eauto].
Qed.

(** ** Facts: what is estimated *)

(** The CPU time one process used since the previous topology, if it was in
    the same workspace with the same identity then. *)
Definition cpu_delta (previousProcesses : option (gmap jsstr number)) (workspace : jsstr)
    (p : WorkspaceProcess) : option number :=
  match previousProcesses, process_entry workspace p with
  | Some previous, Some (key, cpu) =>
      match previous !! key with
      | Some before => if num_ltb cpu before then None else Some (num_sub cpu before)
      | None => None
      end
  | _, _ => None
  end.

Definition num_sum (l : list number) : number := foldl num_add num_zero l.

Definition unless_empty (l : list number) : option number :=
  match l with [] => None | _ => Some (num_sum l) end.

Lemma num_sum_snoc l x : num_sum (l ++ [x]) = num_add (num_sum l) x.
Proof. apply foldl_snoc. Qed.

Lemma tally_process_eq previous workspace t p :
  tally_process previous workspace t p =
  let m := isNonNegativeNumber (resident_memory_bytes p) in
  let d := cpu_delta previous workspace p in
  {| memory_total := match m with Some m => num_add (memory_total t) m | None => memory_total t end;
     hasMemoryEstimate := match m with Some _ => true | None => hasMemoryEstimate t end;
     cpuDeltaUs := match d with Some d => num_add (cpuDeltaUs t) d | None => cpuDeltaUs t end;
     hasCpuEstimate := match d with Some _ => true | None => hasCpuEstimate t end |}.
Proof.
  unfold tally_process, cpu_delta. cbv zeta.
  destruct (isNonNegativeNumber _), previous as [previous|]; try done.
  all: destruct (process_entry workspace p) as [[key cpu]|]; [|done].
  all: destruct (previous !! key) as [before|]; [|done].
  all: by destruct (num_ltb cpu before).
Qed.

Lemma tally_spec previous workspace ps :
  let mems := omap (isNonNegativeNumber ∘ resident_memory_bytes) ps in
  let deltas := omap (cpu_delta previous workspace) ps in
  foldl (tally_process previous workspace)
    {| memory_total := num_zero; hasMemoryEstimate := false; cpuDeltaUs := num_zero; hasCpuEstimate := false |} ps
  = {| memory_total := num_sum mems; hasMemoryEstimate := bool_decide (mems ≠ []);
       cpuDeltaUs := num_sum deltas; hasCpuEstimate := bool_decide (deltas ≠ []) |}.
Proof.
  induction ps as [|p ps IH] using rev_ind; [done|]. cbv beta zeta in *.
  rewrite foldl_snoc, IH, !omap_snoc, tally_process_eq.
  cbn [memory_total hasMemoryEstimate cpuDeltaUs hasCpuEstimate].
  assert (∀ (l : list number) x, bool_decide (l ++ [x] ≠ []) = true) as Hne
    by (intros l x; apply bool_decide_eq_true; by destruct l).
  unfold compose. destruct (isNonNegativeNumber (resident_memory_bytes p)), (cpu_delta previous workspace p);
    by rewrite ?app_nil_r, ?num_sum_snoc, ?Hne.
Qed.

Lemma estimate_workspace_eq previous elapsedMs w :
  estimate_workspace previous elapsedMs w =
  {| residentMemoryBytes := unless_empty (omap (isNonNegativeNumber ∘ resident_memory_bytes) (processes w));
     cpuPercent := match elapsedMs with
                   | Some ms => (λ d, num_mul (num_div d (num_mul ms (num_of_Z 1000))) (num_of_Z 100))
                                <$> unless_empty (omap (cpu_delta previous (workspace_id w)) (processes w))
                   | None => None
                   end |}.
Proof.
  unfold estimate_workspace. rewrite tally_spec.
  cbn [memory_total hasMemoryEstimate cpuDeltaUs hasCpuEstimate].
  destruct (omap (_ ∘ _) _), (omap (cpu_delta _ _) _); by destruct elapsedMs.
Qed.

Lemma num_sum_nonneg l : Forall (λ x, finite_nonneg x = true) l → nonneg (num_sum l) = true.
Proof.
  induction l as [|x l IH] using rev_ind; [done|]. intros [Hl Hx]%Forall_app.
  rewrite num_sum_snoc. apply num_add_nonneg; [by apply IH|].
  apply Forall_cons in Hx as [Hx _]. by apply finite_nonneg_spec in Hx as [_ ?].
Qed.

(** Workspace estimates: every current workspace gets the sum of the
    resident memory its processes report, never negative, and a CPU figure
    from the processes that were in the same workspace, under the same
    process identifier and start time, in the previous topology; a workspace
    without such data shows none, as do all when no time has passed. *)
Theorem estimateWorkspaceResources_spec previous current elapsedMs
    (Hids : NoDup (workspace_id <$> topology_workspaces current)) w
    (Hw : w ∈ topology_workspaces current) :
  ∃ index,
    estimateWorkspaceResources previous current elapsedMs !! workspace_id w =
      Some {| residentMemoryBytes := unless_empty (omap (isNonNegativeNumber ∘ resident_memory_bytes) (processes w));
              cpuPercent := elapsedMs ≫= λ ms,
                (λ d, num_mul (num_div d (num_mul ms (num_of_Z 1000))) (num_of_Z 100))
                <$> unless_empty (omap (cpu_delta index (workspace_id w)) (processes w)) |} ∧
    (∀ m, unless_empty (omap (isNonNegativeNumber ∘ resident_memory_bytes) (processes w)) = Some m → nonneg m = true) ∧
    (∀ p d, cpu_delta index (workspace_id w) p = Some d →
       ∃ t w' q cpu before ms,
         previous = Some t ∧ elapsedMs = Some ms ∧ num_ltb num_zero ms = true ∧
         w' ∈ topology_workspaces t ∧ q ∈ processes w' ∧
         workspace_id w' = workspace_id w ∧ pid q = pid p ∧ ticks_text q = ticks_text p ∧ is_Some (ticks_text p) ∧
         cpu_time_us p = Some cpu ∧ cpu_time_us q = Some before ∧
         num_ltb cpu before = false ∧ d = num_sub cpu before).
Proof.
  set (index := match previous, elapsedMs with
                | Some p, Some ms => if num_ltb num_zero ms then Some (indexProcesses p) else None
                | _, _ => None end).
  exists index. split_and!.
  - unfold estimateWorkspaceResources. fold index. apply js_map_NoDup.
    + rewrite <- list_fmap_compose. done.
    + apply list_elem_of_fmap. exists w. split; [|done]. rewrite estimate_workspace_eq. by destruct elapsedMs.
  - intros m Hm. assert (m = num_sum (omap (isNonNegativeNumber ∘ resident_memory_bytes) (processes w))) as ->
      by (destruct (omap _ _); [done|by injection Hm]).
    apply num_sum_nonneg, Forall_forall. intros x (p & _ & Hx)%list_elem_of_omap.
    unfold compose, isNonNegativeNumber in Hx. destruct (resident_memory_bytes p) as [v|]; [|done].
    destruct (finite_nonneg v) eqn:Hv; congruence.
  - intros p d. unfold cpu_delta, index. destruct previous as [t|]; [|done]. destruct elapsedMs as [ms|]; [|done].
    destruct (num_ltb num_zero ms) eqn:Hms; [|done].
    destruct (process_entry (workspace_id w) p) as [[key cpu]|] eqn:Hp; [|done].
    destruct (indexProcesses t !! key) as [before|] eqn:Hlook; [|done].
    destruct (num_ltb cpu before) eqn:Hlt; [done|]. intros [= <-].
    apply js_map_elem, list_elem_of_bind in Hlook as (w' & Hw' & Hin).
    apply list_elem_of_omap in Hw' as (q & Hq & Hqe).
    destruct (process_entry_inj _ _ _ _ _ _ _ Hqe Hp) as (Hwid & Hpid & Hticks & Hsome).
    assert (∀ w p k c, process_entry w p = Some (k, c) → cpu_time_us p = Some c) as Hcpu.
    { intros w0 p0 k c. unfold process_entry. destruct (processIdentity p0); [|done].
      unfold isNonNegativeNumber. destruct (cpu_time_us p0); [|done].
      destruct (finite_nonneg _); [|done]. by intros [= _ ->]. }
    exists t, w', q, cpu, before, ms. split_and!; eauto. by rewrite <- Hticks.
Qed.

Definition example_process (p : Z) (cpu memory : Z) : WorkspaceProcess :=
  {| pid := p; namespace_pid := 1; parent_pid := 0; process_name := js "sh"; process_state := js "S";
     kind := process_kind; cgroup_memberships := []; resident_memory_bytes := Some (num_of_Z memory);
     cpu_time_us := Some (num_of_Z cpu); start_time_ticks := Some (num_of_Z 77) |}.

Definition example_topology (ps : list WorkspaceProcess) : WorkspaceProcessTopology :=
  {| topology_available := true; topology_source := None; topology_error := None; topology_truncated := false;
     topology_warnings := []; topology_daemon := None;
     topology_workspaces := [{| workspace_id := js "w"; workspace_state := workspace_active; holder_pid := 1;
                                pid_namespace := None; mount_namespace := None; processes := ps |}] |}.

(** Process 8 is new, so its CPU time is not counted. *)
Lemma estimateWorkspaceResources_spec_witness :
  let current := example_topology [example_process 7 2000 100; example_process 8 9000 50] in
  let previous := example_topology [example_process 7 1000 90] in
  (λ e, (num_to_js <$> residentMemoryBytes e, num_to_js <$> cpuPercent e)) <$>
    (estimateWorkspaceResources (Some previous) current (Some (num_of_Z 10)) !! js "w")
  = Some (Some (js "150"), Some (js "10")) ∧
  is_Some (estimateWorkspaceResources (Some previous) current (Some (num_of_Z 10)) !! js "w").
Proof.
  intros current previous. split; [vm_compute; reflexivity|].
  assert (NoDup (workspace_id <$> topology_workspaces current)) as Hn by decide_closed.
  destruct (estimateWorkspaceResources_spec (Some previous) current (Some (num_of_Z 10)) Hn
    {| workspace_id := js "w"; workspace_state := workspace_active; holder_pid := 1;
       pid_namespace := None; mount_namespace := None;
       processes := [example_process 7 2000 100; example_process 8 9000 50] |}) as (index & H & _);
    [apply list_elem_of_singleton; reflexivity|].
  eexists. exact H.
Defined.
