(* ===== verification/Poll.v ===== *)
(** The poll controller ([web/src/poll/usePoll.ts]): the interval to the next
    fetch, which decays while the payload stays the same and recovers as soon
    as it changes. TanStack Query, which arms the timer and performs the
    fetches, is outside the model; what the hook configures it with is
    [poll_options]. *)
From S2P Require Import Prelude JsText Json.

Definition FAST_POLL_MS : Z := 400.
Definition SLOW_POLL_MS : Z := 2000.
Definition IDLE_AFTER_MS : Z := 15000.
Definition IDLE_MULTIPLIER : Z := 4.
Definition MAX_IDLE_MS : Z := 8000.

Inductive PollMode := poll_fast | poll_slow.

Record PollTracking := { at_ms : Z; fingerprint : jsstr }.

Definition base_interval (mode : PollMode) : Z :=
  match mode with poll_fast => FAST_POLL_MS | poll_slow => SLOW_POLL_MS end.

Definition fingerprint_of (data : option json) : jsstr :=
  match data with None => [] | Some d => stringify d end.

(** The interval ([None] is [false]: no timer) and the tracking afterwards. *)
Definition pollInterval (data : option json) (mode : PollMode) (tracking : PollTracking)
    (now : Z) (hidden : bool) : option Z * PollTracking :=
  if hidden then (None, tracking)
  else let base := base_interval mode in
       let print := fingerprint_of data in
       if bool_decide (print ≠ fingerprint tracking)
       then (Some base, {| at_ms := now; fingerprint := print |})
       else if IDLE_AFTER_MS <? now - at_ms tracking
            then (Some (Z.min (base * IDLE_MULTIPLIER) MAX_IDLE_MS), tracking)
            else (Some base, tracking).

(** [boolean | "always"]. *)
Inductive focus_policy := focus_never | focus_if_stale | focus_always.

(** What [usePoll] asks of the query library; the options of the caller may be
    constants or functions of the data. *)
Record PollOptions := {
  option_mode : option json → option PollMode;
  option_enabled : option json → option bool;
  option_retry : option bool;
  option_focus : option focus_policy;
}.

Record poll_config := {
  config_enabled : option json → bool;
  config_retry : bool;
  config_focus : focus_policy;
  config_interval : option json → PollTracking → Z → bool → option Z * PollTracking;
}.

Definition modeFor (o : PollOptions) (data : option json) : PollMode := option_mode o data ?? poll_slow.

Definition usePoll (o : PollOptions) : poll_config :=
  {| config_enabled := λ data, option_enabled o data ?? true;
     config_retry := option_retry o ?? false;
     config_focus := option_focus o ?? focus_always;
     config_interval := λ data tracking now hidden, pollInterval data (modeFor o data) tracking now hidden |}.

(** ** Facts: a run of the controller *)

(** One evaluation of the interval. *)
Record tick := { tick_data : option json; tick_mode : PollMode; tick_now : Z; tick_hidden : bool }.

Definition run_tick (acc : list (option Z) * PollTracking) (t : tick) : list (option Z) * PollTracking :=
  let '(i, tracking) := pollInterval (tick_data t) (tick_mode t) acc.2 (tick_now t) (tick_hidden t) in
  (acc.1 ++ [i], tracking).

Definition run (start : PollTracking) (ts : list tick) : list (option Z) * PollTracking :=
  foldl run_tick ([], start) ts.

Lemma run_snoc start ts t : run start (ts ++ [t]) = run_tick (run start ts) t.
Proof. apply foldl_snoc. Qed.

(** The time since which every evaluation on a visible page saw the same text. *)
Definition unchanged_since (start : PollTracking) (ts : list tick) (since : Z) (print : jsstr) : Prop :=
  (since = at_ms start ∧ print = fingerprint start ∧
     Forall (λ t, tick_hidden t = false → fingerprint_of (tick_data t) = print) ts) ∨
  ∃ ts1 t ts2, ts = ts1 ++ t :: ts2 ∧ tick_now t = since ∧ tick_hidden t = false ∧
     fingerprint_of (tick_data t) = print ∧
     Forall (λ t, tick_hidden t = false → fingerprint_of (tick_data t) = print) ts2.

Lemma run_tracking start ts :
  unchanged_since start ts (at_ms (run start ts).2) (fingerprint (run start ts).2).
Proof.
  induction ts as [|t ts IH] using rev_ind; [left; by repeat constructor|].
  rewrite run_snoc. unfold run_tick, pollInterval.
  destruct (tick_hidden t) eqn:Hh; cbn [snd fst].
  - destruct IH as [(? & ? & ?)|(ts1 & u & ts2 & -> & ? & ? & ? & ?)].
    + left. split_and!; [done..|]. apply Forall_app. split; [done|]. constructor; [congruence|done].
    + right. exists ts1, u, (ts2 ++ [t]). split_and!; [by rewrite <- app_assoc|done..|].
      apply Forall_app. split; [done|]. constructor; [congruence|done].
  - case_bool_decide as Hp; cbn [snd fst at_ms fingerprint].
    + right. exists ts, t, []. split_and!; [done..|constructor].
    +
      assert (unchanged_since start (ts ++ [t]) (at_ms (run start ts).2) (fingerprint (run start ts).2)) as Hgoal.
      { destruct IH as [(? & ? & ?)|(ts1 & u & ts2 & Hts & ? & ? & ? & ?)].
        - left. split_and!; [done..|]. apply Forall_app. split; [done|]. by constructor.
        - right. exists ts1, u, (ts2 ++ [t]). split_and!; [by rewrite Hts, <- app_assoc|done..|].
          apply Forall_app. split; [done|]. by constructor. }
      by destruct (IDLE_AFTER_MS <? _).
Qed.

(** The cadence of a poll, over any run of evaluations: a hidden page arms
    no timer; a visible one polls at its base rate, or at four times that
    (1.6 s for running surfaces, 8 s in the background), and it slows down
    exactly when the payload has not changed for fifteen seconds, so the first
    evaluation that sees a different payload is back at the base rate. *)
Theorem pollInterval_cadence start ts t :
  let tracking := (run start ts).2 in
  let '(i, _) := pollInterval (tick_data t) (tick_mode t) tracking (tick_now t) (tick_hidden t) in
  (i = None ↔ tick_hidden t = true) ∧
  (tick_hidden t = false →
     i = Some (base_interval (tick_mode t)) ∨
     i = Some (match tick_mode t with poll_fast => 1600 | poll_slow => 8000 end)) ∧
  (∀ ms, i = Some ms → ms ≠ base_interval (tick_mode t) →
     ∃ since, unchanged_since start (ts ++ [t]) since (fingerprint_of (tick_data t)) ∧ 15000 < tick_now t - since) ∧
  (tick_hidden t = false → fingerprint_of (tick_data t) ≠ fingerprint tracking →
     i = Some (base_interval (tick_mode t))).
Proof.
  cbv zeta. pose proof (run_tracking start (ts ++ [t])) as Htrack. rewrite run_snoc in Htrack. unfold run_tick in Htrack.
  destruct (pollInterval _ _ _ _ _) as [i tracking'] eqn:Hi. cbn [snd] in Htrack.
  unfold pollInterval in Hi. destruct (tick_hidden t) eqn:Hh; [by injection Hi as <- <-|].
  case_bool_decide as Hp; [injection Hi as <- <-; split_and!; [done|by left|congruence|done]|].
  destruct (Z.ltb_spec IDLE_AFTER_MS (tick_now t - at_ms (run start ts).2)) as [Hlt|Hge];
    injection Hi as <- <-; split_and!; try done; try (by left); try congruence.
  - right. by destruct (tick_mode t).
  - intros ms _ _. exists (at_ms (run start ts).2). split; [by rewrite Hp|exact Hlt].
Qed.
