(* ===== verification/RevisionGate.v ===== *)
(** Revision-gated queries: the daemon of a sandbox is asked once, once per
    activity revision the manager reports, or while the last answer shows
    activity, never in an idle loop.

    The hooks share this shape ([web/src/poll/useSandboxSnapshot.ts],
    [useFleetSnapshots.ts], [useProcessTopology.ts]): they note the revision
    before the request goes out, and the query library may start a request
    only while their [enabled] function holds. [RevisionGate] is what they
    promise; the bound on the requests is proved once, against it. *)
From S2P Require Import Prelude Types Observability Activity.

(** [typeof revision === "number" ? revision : null] of a record. *)
Definition noted_revision (record : option SandboxRecord) : option Z := record ≫= activity_revision.

(** ** The interface *)

Class RevisionGate (Data : Type) := {
  (** [enabled]: the record, the cached data and the noted revision. *)
  gate_enabled : option SandboxRecord → option Data → option (option Z) → bool;
  (** The cached data shows activity of the record. *)
  gate_active : option SandboxRecord → option Data → bool;
  gate_ready record data last :
    gate_enabled record data last = true → ∃ r, record = Some r ∧ state r = ready;
  (** After a request at the record's own revision only activity asks again. *)
  gate_same_revision r data :
    gate_enabled (Some r) data (Some (activity_revision r)) = true → gate_active (Some r) data = true;
  (** A new revision of a ready record is asked for. *)
  gate_new_revision r v data last :
    state r = ready → activity_revision r = Some v → last ≠ Some (Some v) →
    gate_enabled (Some r) data last = true;
}.

(** ** The hooks *)

(** [useSandboxSnapshot]: [enabled]; the mode is [snapshotPollingMode]. *)
Definition sandbox_snapshot_enabled (record : option SandboxRecord) (data : option SnapshotResult)
    (last : option (option Z)) : bool := shouldRequestSandboxSnapshot record data last.

(** [useFleetSnapshots]: before any data the attempt itself is what counts;
    afterwards a missing note counts as [null]. *)
Definition fleet_snapshot_enabled (record : option SandboxRecord) (data : option SnapshotResult)
    (last : option (option Z)) : bool :=
  match record with
  | Some r =>
      if negb (is_ready r) then false
      else match data with
           | None => bool_decide (last ≠ Some (activity_revision r))
           | Some _ => shouldRequestSandboxSnapshot record data (Some (last ?? None))
           end
  | None => false
  end.

Definition topologyHasActivity (t : option WorkspaceProcessTopology) : bool :=
  match t with
  | Some t => topology_available t &&
              js_some (λ w, bool_decide (workspace_state w = workspace_active)) (topology_workspaces t)
  | None => false
  end.

Definition shouldRequestProcessTopology (record : option SandboxRecord) (result : option TopologyResult)
    (lastRequestedRevision : option (option Z)) : bool :=
  match record with
  | Some r =>
      if negb (is_ready r) then false
      else match result with
           | None => match lastRequestedRevision with
                     | None => true
                     | Some _ => revision_differs r lastRequestedRevision
                     end
           | Some t => if topologyHasActivity (Some (topology t)) then true
                       else revision_differs r lastRequestedRevision
           end
  | None => false
  end.

(** ** The hooks keep the promise *)

Lemma revision_differs_same r : revision_differs r (Some (activity_revision r)) = false.
Proof. unfold revision_differs. destruct (activity_revision r); [|done]. apply bool_decide_eq_false. naive_solver. Qed.

Lemma revision_differs_new r v last :
  activity_revision r = Some v → last ≠ Some (Some v) → revision_differs r last = true.
Proof. unfold revision_differs. intros -> ?. by apply bool_decide_eq_true. Qed.

#[export] Program Instance sandbox_snapshot_gate : RevisionGate SnapshotResult := {|
  gate_enabled := sandbox_snapshot_enabled;
  gate_active := snapshotHasActivity;
|}.
Next Obligation. intros ? ? ? H. by apply shouldRequest_ready in H. Qed.
Next Obligation. intros ? ? H. by apply shouldRequest_same_revision. Qed.
Next Obligation.
  intros r v data last Hr Hv Hlast. unfold sandbox_snapshot_enabled, shouldRequestSandboxSnapshot.
  rewrite (proj2 (is_ready_spec r)), (revision_differs_new r v) by done. cbn [negb].
  destruct data; [by destruct (snapshotHasActivity _ _)|by destruct last].
Qed.

Definition fleet_snapshot_gate : RevisionGate SnapshotResult.
Proof.
  refine {| gate_enabled := fleet_snapshot_enabled; gate_active := snapshotHasActivity |}.
  - intros [r|] data last; [|done]. unfold fleet_snapshot_enabled. destruct (is_ready r) eqn:Hr; [|done].
    apply is_ready_spec in Hr. eauto.
  - intros r data. unfold fleet_snapshot_enabled. destruct (is_ready r); [|done]. cbn [negb].
    destruct data; [by apply shouldRequest_same_revision|]. by rewrite bool_decide_false by naive_solver.
  - intros r v data last Hr Hv Hlast. unfold fleet_snapshot_enabled.
    rewrite (proj2 (is_ready_spec r)) by done. cbn [negb]. destruct data.
    + unfold shouldRequestSandboxSnapshot.
      rewrite (proj2 (is_ready_spec r)), (revision_differs_new r v) by (done || by destruct last; simpl; congruence).
      by destruct (snapshotHasActivity _ _).
    + rewrite Hv. by apply bool_decide_eq_true.
Defined.

#[export] Program Instance topology_gate : RevisionGate TopologyResult := {|
  gate_enabled := shouldRequestProcessTopology;
  gate_active := λ record data, topologyHasActivity (topology <$> data);
|}.
Next Obligation.
  intros [r|] data last; [|done]. unfold shouldRequestProcessTopology. destruct (is_ready r) eqn:Hr; [|done].
  apply is_ready_spec in Hr. eauto.
Qed.
Next Obligation.
  intros r data. unfold shouldRequestProcessTopology. rewrite revision_differs_same.
  destruct (is_ready r); [|done]. destruct data as [t|]; [|done].
  change (topology <$> Some t) with (Some (topology t)). cbn [negb].
  by destruct (topologyHasActivity (Some (topology t))).
Qed.
Next Obligation.
  intros r v data last Hr Hv Hlast. unfold shouldRequestProcessTopology.
  rewrite (proj2 (is_ready_spec r)), (revision_differs_new r v) by done. cbn [negb].
  destruct data as [t|]; [by destruct (topologyHasActivity (Some (topology t)))|by destruct last].
Qed.

(** ** A query behind a gate *)

Section query.
Context {Data : Type} {G : RevisionGate Data}.

Record query_state := {
  query_record : option SandboxRecord;
  query_data : option Data;
  noted : option (option Z);
  in_flight : bool;
}.

(** The manager's record is replaced; a request starts; it settles, with data
    or with a failure that leaves the cache as it was. *)
Inductive query_event :=
  | ManagerRecord (record : option SandboxRecord)
  | RequestStarts
  | RequestSettles (result : option Data).

(** [None]: the query library does not do this in this state. *)
Definition query_step (s : query_state) (e : query_event) : option query_state :=
  match e with
  | ManagerRecord record =>
      Some {| query_record := record; query_data := query_data s; noted := noted s; in_flight := in_flight s |}
  | RequestStarts =>
      if in_flight s then None
      else if gate_enabled (query_record s) (query_data s) (noted s)
      then Some {| query_record := query_record s; query_data := query_data s;
                   noted := Some (noted_revision (query_record s)); in_flight := true |}
      else None
  | RequestSettles result =>
      if in_flight s
      then Some {| query_record := query_record s;
                   query_data := match result with Some d => Some d | None => query_data s end;
                   noted := noted s; in_flight := false |}
      else None
  end.

Fixpoint query_run (s : query_state) (es : list query_event) : option query_state :=
  match es with
  | [] => Some s
  | e :: es => query_step s e ≫= λ s', query_run s' es
  end.

(** The data of a run never shows activity. *)
Definition idle_event (e : query_event) : Prop :=
  match e with RequestSettles (Some d) => ∀ record, gate_active record (Some d) = false | _ => True end.
Definition idle_state (s : query_state) : Prop := ∀ record, gate_active record (query_data s) = false.

Definition starts (es : list query_event) : nat :=
  length (js_filter (λ e, match e with RequestStarts => true | _ => false end) es).

(** How often the manager reports a revision other than the one before. *)
Fixpoint revision_changes (current : option Z) (es : list query_event) : nat :=
  match es with
  | [] => 0
  | ManagerRecord record :: es =>
      (if bool_decide (noted_revision record = current) then 0 else 1) + revision_changes (noted_revision record) es
  | _ :: es => revision_changes current es
  end.

(** Whether the current revision has not been asked for. *)
Definition pending (s : query_state) : nat :=
  if bool_decide (noted s = Some (noted_revision (query_record s))) then 0 else 1.

Lemma start_pending s :
  idle_state s → gate_enabled (query_record s) (query_data s) (noted s) = true → pending s = 1%nat.
Proof.
  intros Hidle Hen. unfold pending. case_bool_decide as Hnoted; [|done].
  destruct (gate_ready _ _ _ Hen) as (r & Hr & _). rewrite Hr in *. rewrite Hnoted in Hen.
  apply gate_same_revision in Hen. by rewrite Hidle in Hen.
Qed.

Lemma starts_bounded es : ∀ s s',
  query_run s es = Some s' → idle_state s → Forall idle_event es →
  (starts es + pending s' ≤ pending s + revision_changes (noted_revision (query_record s)) es)%nat.
Proof.
  induction es as [|e es IH]; intros s s' Hrun Hidle Hes; [injection Hrun as ->; cbn; lia|].
  apply Forall_cons in Hes as [He Hes]. cbn [query_run] in Hrun.
  destruct (query_step s e) as [s1|] eqn:Hs; [|done]. cbn in Hrun.
  destruct e as [record| |result]; cbn [query_step] in Hs.
  - injection Hs as <-. specialize (IH _ _ Hrun Hidle Hes). cbn [query_record] in IH. cbn [revision_changes].
    change (starts (ManagerRecord record :: es)) with (starts es).
    assert (pending {| query_record := record; query_data := query_data s; noted := noted s; in_flight := in_flight s |}
      ≤ pending s + (if bool_decide (noted_revision record = noted_revision (query_record s)) then 0 else 1))%nat; [|lia].
    unfold pending. cbn [query_record noted]. repeat case_bool_decide; first [lia|exfalso; congruence].
  - destruct (in_flight s); [done|]. destruct (gate_enabled _ _ _) eqn:Hen; [|done]. injection Hs as <-.
    pose proof (start_pending s Hidle Hen) as Hp. specialize (IH _ _ Hrun Hidle Hes). cbn [query_record] in IH.
    change (starts (RequestStarts :: es)) with (S (starts es)). cbn [revision_changes].
    unfold pending at 2 in IH. cbn [query_record] in IH. rewrite bool_decide_true in IH by done. lia.
  - destruct (in_flight s); [|done]. injection Hs as <-.
    assert (idle_state {| query_record := query_record s;
              query_data := match result with Some d => Some d | None => query_data s end;
              noted := noted s; in_flight := false |}) as Hidle' by (destruct result; done).
    specialize (IH _ _ Hrun Hidle' Hes). cbn [query_record] in IH. exact IH.
Qed.
End query.

Arguments query_state : clear implicits.
Arguments query_event : clear implicits.

Definition initial_query {Data} (record : option SandboxRecord) : query_state Data :=
  {| query_record := record; query_data := None; noted := None; in_flight := false |}.

(** C11: No idle polling of a daemon: for any of the revision-gated queries,
    and whatever answers and failures the daemon gives, as long as no answer
    shows activity the requests are at most one for the initial lookup and one
    for every change of revision the manager reported. *)
Theorem gated_requests_bounded {Data} (G : RevisionGate Data) record (es : list (query_event Data)) s'
    (Hnone : ∀ r, gate_active r (@None Data) = false)
    (Hidle : Forall idle_event es) (Hrun : query_run (initial_query record) es = Some s') :
  (starts es ≤ 1 + revision_changes (noted_revision record) es)%nat.
Proof.
  pose proof (starts_bounded es (initial_query record) s' Hrun Hnone Hidle) as H. cbn [initial_query query_record] in H.
  unfold pending at 2 in H. cbn [initial_query query_record noted] in H. rewrite bool_decide_false in H by done. lia.
Qed.

Definition idle_snapshot : SnapshotResult := {| snapshots := [] |}.

(** A failed lookup, a new revision, its answer: two requests. *)
Lemma gated_requests_bounded_witness :
  let r0 := example_record "a" ready in
  let r1 := {| id := id r0; workspace_root := workspace_root r0; state := ready; daemon := None; daemon_http := None;
               shared_base := None; activity_revision := Some 4 |} in
  let es := [RequestStarts; RequestSettles None; ManagerRecord (Some r0); ManagerRecord (Some r1);
             RequestStarts; RequestSettles (Some idle_snapshot)] in
  (starts es ≤ 1 + revision_changes None es)%nat.
Proof.
  intros r0 r1 es.
  destruct (query_run (G := fleet_snapshot_gate) (initial_query (Some r0)) es) as [s'|] eqn:Hrun; [|discriminate Hrun].
  refine (gated_requests_bounded fleet_snapshot_gate (Some r0) es s' _ _ Hrun).
  - intros [r|]; [|reflexivity]. cbn. by destruct (negb _).
  - repeat constructor. intros [r|]; [|reflexivity]. cbn. by destruct (negb _).
Defined.

(** No revision is missed: whenever the record of a ready sandbox carries a
    revision that was not asked for yet, a request may start, whether the
    cached answer shows activity or not and however earlier requests ended;
    and none ever starts for a sandbox that is not ready. *)
Theorem gated_requests_complete {Data} (G : RevisionGate Data) (s : query_state Data) :
  (∀ r v, query_record s = Some r → state r = ready → activity_revision r = Some v →
     noted s ≠ Some (Some v) → in_flight s = false →
     ∃ s', query_step s RequestStarts = Some s' ∧ noted s' = Some (Some v)) ∧
  (∀ s', query_step s RequestStarts = Some s' → ∃ r, query_record s = Some r ∧ state r = ready).
Proof.
  split.
  - intros r v Hr Hready Hv Hnoted Hfl. cbn [query_step]. rewrite Hfl, Hr.
    rewrite (gate_new_revision r v) by done. eexists. split; [done|]. cbn. by rewrite Hv.
  - intros s'. cbn [query_step]. destruct (in_flight s); [done|].
    destruct (gate_enabled _ _ _) eqn:Hen; [|done]. intros _. by eapply gate_ready.
Qed.
