(* ===== verification/PollingContract.v ===== *)
(** The polling contract ([docs/polling-contract.md]) as a transition system,
    and the proof that every revision-gated query of
    [web/src/poll/useSandboxSnapshot.ts], [useFleetSnapshots.ts] and
    [useProcessTopology.ts] refines it, the explicit refresh of the process
    page included. *)
From S2P Require Import Prelude Types Observability Activity RevisionGate.

(** ** The contract *)

(** What the contract speaks of: the revision last asked for, if any, the one
    the manager reports, whether the sandbox can be asked, whether the last
    answer shows activity, and whether a request is outstanding. *)
Record contract := {
  asked : option (option Z);
  reported : option Z;
  available : bool;
  active : bool;
  outstanding : bool;
}.

(** What happens: the manager reports, the console asks by itself or because
    it is told to, the daemon answers or fails. *)
Inductive contract_event :=
  | Reports (revision : option Z) (ready shows_activity : bool)
  | Asks
  | Told
  | Answers (shows_activity : bool).

(** Asking by itself needs a reason: nothing was asked yet, the manager
    reports another revision than the one asked for, or the last answer shows
    activity; and an attempt counts whether it succeeds or not. *)
Inductive contract_step : contract → contract_event → contract → Prop :=
  | may_report c revision ready shows :
      contract_step c (Reports revision ready shows)
        {| asked := asked c; reported := revision; available := ready; active := shows; outstanding := outstanding c |}
  | may_ask c :
      outstanding c = false → available c = true → (asked c ≠ Some (reported c) ∨ active c = true) →
      contract_step c Asks
        {| asked := Some (reported c); reported := reported c; available := available c; active := active c; outstanding := true |}
  | may_be_told c :
      outstanding c = false → available c = true →
      contract_step c Told
        {| asked := Some (reported c); reported := reported c; available := available c; active := active c; outstanding := true |}
  | may_answer c shows :
      outstanding c = true →
      contract_step c (Answers shows)
        {| asked := asked c; reported := reported c; available := available c; active := shows; outstanding := false |}.

Inductive contract_run : contract → list contract_event → contract → Prop :=
  | contract_stops c : contract_run c [] c
  | contract_goes c e d es d' : contract_step c e d → contract_run d es d' → contract_run c (e :: es) d'.

(** ** The queries *)

(** [refetch], behind the process page's button, which is disabled unless
    [canRefresh] (the sandbox is ready) and while a request is out: it does not
    ask the gate, and the query function notes the revision. *)
Inductive console_event Data := Automatic (e : query_event Data) | Refresh.
Arguments Automatic {Data} e.
Arguments Refresh {Data}.

Definition can_ask (record : option SandboxRecord) : bool := match record with Some r => is_ready r | None => false end.

Section refinement.
Context {Data : Type} {G : RevisionGate Data}.

Definition refresh_step (s : query_state Data) : option (query_state Data) :=
  if in_flight s || negb (can_ask (query_record s)) then None
  else Some {| query_record := query_record s; query_data := query_data s;
               noted := Some (noted_revision (query_record s)); in_flight := true |}.

Definition console_query_step (s : query_state Data) (e : console_event Data) : option (query_state Data) :=
  match e with Automatic e => query_step s e | Refresh => refresh_step s end.

Fixpoint console_query_run (s : query_state Data) (es : list (console_event Data)) : option (query_state Data) :=
  match es with
  | [] => Some s
  | e :: es => console_query_step s e ≫= λ s', console_query_run s' es
  end.

(** ** What a query means to the contract *)

Definition contract_of (s : query_state Data) : contract :=
  {| asked := noted s; reported := noted_revision (query_record s); available := can_ask (query_record s);
     active := gate_active (query_record s) (query_data s); outstanding := in_flight s |}.

(** The event the contract sees, when the query ends in [s']. *)
Definition contract_label (e : console_event Data) (s' : query_state Data) : contract_event :=
  match e with
  | Automatic (ManagerRecord record) =>
      Reports (noted_revision record) (can_ask record) (gate_active record (query_data s'))
  | Automatic RequestStarts => Asks
  | Automatic (RequestSettles _) => Answers (gate_active (query_record s') (query_data s'))
  | Refresh => Told
  end.

Fixpoint contract_labels (s : query_state Data) (es : list (console_event Data)) : list contract_event :=
  match es with
  | [] => []
  | e :: es => match console_query_step s e with
               | Some s' => contract_label e s' :: contract_labels s' es
               | None => []
               end
  end.

(** One step of a query is one the contract allows. *)
Lemma step_refines s e s' : console_query_step s e = Some s' → contract_step (contract_of s) (contract_label e s') (contract_of s').
Proof.
  destruct e as [[record| |result]|]; cbn [console_query_step query_step refresh_step].
  - intros [= <-]. apply may_report.
  - destruct (in_flight s) eqn:Hfl; [done|]. destruct (gate_enabled _ _ _) eqn:Hen; [|done]. intros [= <-].
    destruct (gate_ready _ _ _ Hen) as (r & Hr & Hready). apply (may_ask (contract_of s)); cbn [contract_of outstanding available asked reported active].
    + done.
    + rewrite Hr. by apply is_ready_spec.
    + destruct (decide (noted s = Some (noted_revision (query_record s)))) as [Hn|]; [right|by left].
      rewrite Hn, Hr in Hen. apply gate_same_revision in Hen. by rewrite Hr.
  - destruct (in_flight s) eqn:Hfl; [|done]. intros [= <-]. apply (may_answer (contract_of s)). done.
  - unfold refresh_step. destruct (in_flight s) eqn:Hfl; [done|]. destruct (can_ask _) eqn:Hcan; [|done]. intros [= <-].
    by apply (may_be_told (contract_of s)).
Qed.

(** C2: every revision-gated query refines the polling contract: whatever the
    manager reports, the daemons answer and the user asks for, each run of the
    query is a run of the contract with the same requests. *)
Theorem gates_refine_contract s es s' (Hrun : console_query_run s es = Some s') :
  contract_run (contract_of s) (contract_labels s es) (contract_of s').
Proof.
  revert s Hrun. induction es as [|e es IH]; intros s Hrun; cbn [console_query_run contract_labels] in *.
  - injection Hrun as ->. constructor.
  - destruct (console_query_step s e) as [s1|] eqn:Hs; [|done]. econstructor; [by apply step_refines|by apply IH].
Qed.
End refinement.

(** A failed first lookup, a refresh by the user that fails too, a new
    revision, asked for by itself, and its idle answer. *)
Definition example_console_events : list (console_event SnapshotResult) :=
  let r0 := example_record "a" ready in
  let r1 := {| id := id r0; workspace_root := workspace_root r0; state := ready; daemon := None; daemon_http := None;
               shared_base := None; activity_revision := Some 4 |} in
  [Automatic RequestStarts; Automatic (RequestSettles None); Refresh; Automatic (RequestSettles None);
   Automatic (ManagerRecord (Some r1)); Automatic RequestStarts; Automatic (RequestSettles (Some idle_snapshot))].

Lemma gates_refine_contract_witness : ∃ c,
  contract_run {| asked := None; reported := None; available := true; active := false; outstanding := false |}
    [Asks; Answers false; Told; Answers false; Reports (Some 4) true false; Asks; Answers false] c ∧
  asked c = Some (Some 4).
Proof.
  set (s := initial_query (Data := SnapshotResult) (Some (example_record "a" ready))).
  destruct (console_query_run (G := fleet_snapshot_gate) s example_console_events) as [s'|] eqn:Hrun; [|discriminate Hrun].
  exists (contract_of (G := fleet_snapshot_gate) s'). split.
  - exact (gates_refine_contract (G := fleet_snapshot_gate) s example_console_events s' Hrun).
  - vm_compute in Hrun. by injection Hrun as <-.
Defined.

(** ** What the contract promises *)

Definition asks (es : list contract_event) : nat := length (js_filter (λ e, match e with Asks => true | _ => false end) es).

Fixpoint new_revisions (current : option Z) (es : list contract_event) : nat :=
  match es with
  | [] => 0
  | Reports revision _ _ :: es => (if bool_decide (revision = current) then 0 else 1) + new_revisions revision es
  | _ :: es => new_revisions current es
  end.

Definition shows_none (e : contract_event) : Prop :=
  match e with Reports _ _ shows => shows = false | Answers shows => shows = false | _ => True end.

Definition unasked (c : contract) : nat := if bool_decide (asked c = Some (reported c)) then 0 else 1.

Lemma contract_bound c es c' : contract_run c es c' → active c = false → Forall shows_none es →
  (asks es + unasked c' ≤ unasked c + new_revisions (reported c) es)%nat.
Proof.
  induction 1 as [c|c e d es d' Hstep _ IH]; intros Hidle Hes; [cbn; lia|]. apply Forall_cons in Hes as [He Hes].
  destruct Hstep as [c revision ready shows|c Hout Hav Hwhy|c Hout Hav|c shows Hout]; cbn [shows_none active reported unasked asked] in *.
  - specialize (IH He Hes). change (asks (Reports revision ready shows :: es)) with (asks es). cbn [new_revisions].
    assert (unasked {| asked := asked c; reported := revision; available := ready; active := shows; outstanding := outstanding c |}
      ≤ unasked c + (if bool_decide (revision = reported c) then 0 else 1))%nat; [|lia].
    unfold unasked. cbn [asked reported]. repeat case_bool_decide; first [lia|exfalso; congruence].
  - specialize (IH Hidle Hes). change (asks (Asks :: es)) with (S (asks es)). cbn [new_revisions].
    destruct Hwhy as [Hne|?]; [|congruence]. unfold unasked at 2 in IH. cbn [asked reported] in IH.
    rewrite bool_decide_true in IH by done. unfold unasked at 2. rewrite bool_decide_false by done. lia.
  - specialize (IH Hidle Hes). change (asks (Told :: es)) with (asks es). cbn [new_revisions].
    unfold unasked at 2 in IH. cbn [asked reported] in IH. rewrite bool_decide_true in IH by done. lia.
  - specialize (IH He Hes). exact IH.
Qed.

(** What the contract is for: as long as nothing shows activity, what the
    console asks a daemon by itself is bounded by one request and one more for
    each new revision the manager reports, however often the user refreshes
    and however often the daemon fails. *)
Theorem contract_bounds_requests c es c' (Hrun : contract_run c es c') (Hidle : active c = false) (Hes : Forall shows_none es) :
  (asks es ≤ 1 + new_revisions (reported c) es)%nat.
Proof.
  pose proof (contract_bound c es c' Hrun Hidle Hes). unfold unasked in *. repeat case_bool_decide; lia.
Qed.

(** The run of the example above: one request of its own, and one for the one
    new revision. *)
Lemma contract_bounds_requests_witness :
  (asks [Asks; Answers false; Told; Answers false; Reports (Some 4%Z) true false; Asks; Answers false] ≤ 2)%nat.
Proof.
  set (c := {| asked := None; reported := None; available := true; active := false; outstanding := false |}).
  refine (contract_bounds_requests c _ _ _ _ _); [|reflexivity|repeat constructor].
  repeat (eapply contract_goes; [first [apply may_answer; reflexivity|apply may_report|apply may_be_told; reflexivity
    |apply may_ask; [reflexivity|reflexivity|left; discriminate]]|]). apply contract_stops.
Defined.
