(* ===== verification/ProcessTopology.v ===== *)
(** The process topology query ([web/src/poll/useProcessTopology.ts]): page
    visibility, the manager check after a return to the page, and the options
    of the query. *)
From S2P Require Import Prelude Types Observability Activity Poll RevisionGate.

(** ** Page visibility *)

Record DocumentVisibility := { visible : bool; managerCheckFloor : option Z }.

(** [useState]'s initialiser, from [document.hidden] and [recordUpdatedAt]. *)
Definition initial_visibility (hidden : bool) (recordUpdatedAt : option Z) : DocumentVisibility :=
  {| visible := negb hidden; managerCheckFloor := if hidden then Some (recordUpdatedAt ?? 0) else None |}.

(** The [visibilitychange] handler. *)
Definition update_visibility (current : DocumentVisibility) (hidden : bool) (recordUpdatedAt : option Z)
    : DocumentVisibility :=
  let now_visible := negb hidden in
  if bool_decide (now_visible = visible current) then current
  else {| visible := now_visible;
          managerCheckFloor := if now_visible then Some (recordUpdatedAt ?? 0) else managerCheckFloor current |}.

Definition managerCheckedSinceFocus (v : DocumentVisibility) (recordUpdatedAt : option Z) : bool :=
  match managerCheckFloor v with
  | None => true
  | Some floor => match recordUpdatedAt with Some t => floor <? t | None => false end
  end.

(** ** The hook *)

(** [lastRequest]: the sandbox and revision of the last request. *)
Definition lastRequestedRevision (lastRequest : option (jsstr * option Z)) (sandboxId : jsstr)
    : option (option Z) :=
  match lastRequest with
  | Some (s, revision) => if bool_decide (s = sandboxId) then Some revision else None
  | None => None
  end.

Definition own_record (record : option SandboxRecord) (sandboxId : jsstr) : bool :=
  match record with Some r => bool_decide (id r = sandboxId) | None => false end.

Section hook.
Context (sandboxId : jsstr) (record : option SandboxRecord) (recordUpdatedAt : option Z).

Definition topology_enabled (v : DocumentVisibility) (lastRequest : option (jsstr * option Z))
    (data : option TopologyResult) : bool :=
  visible v && managerCheckedSinceFocus v recordUpdatedAt && negb (bool_decide (sandboxId = [])) &&
  own_record record sandboxId &&
  shouldRequestProcessTopology record data (lastRequestedRevision lastRequest sandboxId).

(** The note made before the request goes out. *)
Definition topology_note : option (jsstr * option Z) := Some (sandboxId, noted_revision record).

Definition topology_interval (v : DocumentVisibility) (data : option TopologyResult) : option Z :=
  if visible v && managerCheckedSinceFocus v recordUpdatedAt && topologyHasActivity (topology <$> data)
  then Some FAST_POLL_MS else None.

Definition canRefresh (v : DocumentVisibility) : bool :=
  visible v && managerCheckedSinceFocus v recordUpdatedAt && own_record record sandboxId &&
  match record with Some r => is_ready r | None => false end.
End hook.

(** ** Facts: a run of the page *)

(** What happens to the page: it is hidden or shown, or the manager's record
    query completes at a later time. *)
Inductive page_event := Visibility (hidden : bool) | ManagerChecked (at_time : Z).

Definition page_step (s : DocumentVisibility * option Z) (e : page_event) : DocumentVisibility * option Z :=
  match e with
  | Visibility hidden => (update_visibility s.1 hidden s.2, s.2)
  | ManagerChecked t => (s.1, Some t)
  end.

Definition page_run (s : DocumentVisibility * option Z) (es : list page_event) : DocumentVisibility * option Z :=
  foldl page_step s es.

(** The times of completed manager queries are positive and increase. *)
Fixpoint times_increase (last : Z) (es : list page_event) : Prop :=
  match es with
  | [] => True
  | ManagerChecked t :: es => last < t ∧ times_increase t es
  | Visibility _ :: es => times_increase last es
  end.

(** The page was not hidden. *)
Definition never_hidden (es : list page_event) : Prop := Forall (λ e, e ≠ Visibility true) es.

(** A manager query completed while the page was shown, which it still is. *)
Definition checked_while_shown (s : DocumentVisibility * option Z) (es : list page_event) : Prop :=
  ∃ es1 t es2, es = es1 ++ ManagerChecked t :: es2 ∧ visible (page_run s es1).1 = true ∧ never_hidden es2.

(** The time of the last completed manager query. *)
Fixpoint last_time (last : Z) (es : list page_event) : Z :=
  match es with
  | [] => last
  | ManagerChecked t :: es => last_time t es
  | Visibility _ :: es => last_time last es
  end.

Lemma times_increase_snoc es : ∀ last e,
  times_increase last (es ++ [e]) ↔
  times_increase last es ∧ match e with ManagerChecked t => last_time last es < t | _ => True end.
Proof. induction es as [|[h|t] es IH]; intros last e; [destruct e; cbn; tauto|apply IH|]. cbn. rewrite IH. tauto. Qed.

Lemma last_time_snoc es : ∀ last e,
  last_time last (es ++ [e]) = match e with ManagerChecked t => t | _ => last_time last es end.
Proof. induction es as [|[h|t] es IH]; intros last e; cbn; auto. Qed.

Lemma checked_while_shown_snoc s es e :
  e ≠ Visibility true → checked_while_shown s es → checked_while_shown s (es ++ [e]).
Proof.
  intros He (es1 & t & es2 & -> & Hv & Hes2). exists es1, t, (es2 ++ [e]).
  split_and!; [by rewrite <- app_assoc|done|]. apply Forall_app. split; [done|]. by constructor.
Qed.

Section run.
Context (hidden : bool) (updated : option Z).
Let s0 := (initial_visibility hidden updated, updated).

Lemma page_run_inv es :
  times_increase (updated ?? 0) es →
  let s := page_run s0 es in
  (s.2 ?? 0) = last_time (updated ?? 0) es ∧
  match managerCheckFloor s.1 with
  | None => visible s.1 = true → hidden = false ∧ never_hidden es
  | Some floor => floor ≤ (s.2 ?? 0) ∧
                  (visible s.1 = true → floor < (s.2 ?? 0) → checked_while_shown s0 es)
  end.
Proof.
  cbv zeta. induction es as [|e es IH] using rev_ind; intros Htimes.
  - split; [done|]. unfold s0, page_run, initial_visibility. cbn. destruct hidden; cbn; [split; [lia|done]|].
    intros _. split; [done|constructor].
  - apply times_increase_snoc in Htimes as [Htimes He]. specialize (IH Htimes) as [Hlast IH].
    rewrite last_time_snoc. unfold page_run. rewrite foldl_snoc. fold (page_run s0 es).
    destruct (page_run s0 es) as [v u] eqn:Hrun. cbn [fst snd] in *.
    destruct e as [h|t]; cbn [page_step fst snd].
    + split; [done|]. unfold update_visibility. destruct (bool_decide_reflect (negb h = visible v)) as [Heq|Hne].
      * destruct (managerCheckFloor v) as [floor|].
        -- destruct IH as [? IH]. split; [done|]. intros Hv Hlt. apply checked_while_shown_snoc; [|auto].
           intros [= ->]. by rewrite Hv in Heq.
        -- intros Hv. destruct (IH Hv) as [? ?]. split; [done|]. apply Forall_app. split; [done|].
           constructor; [|constructor]. intros [= ->]. by rewrite Hv in Heq.
      * cbn [visible managerCheckFloor]. destruct h; cbn [negb] in *.
        -- destruct (managerCheckFloor v); [|done]. by destruct IH as [? _].
        -- split; [lia|]. intros _ ?. lia.
    + split; [done|]. cbn [default from_option]. unfold Datatypes.id. destruct (managerCheckFloor v) as [floor|].
      * destruct IH as [? IH]. split; [lia|]. intros Hv _. exists es, t, [].
        rewrite Hrun. split_and!; [done|done|constructor].
      * intros Hv. destruct (IH Hv) as [? ?]. split; [done|]. apply Forall_app. by repeat constructor.
Qed.
End run.

(** Returning to the page never reuses what the manager said before: in
    any sequence of hiding, showing and completed manager queries, the
    topology request is enabled only if the page is shown and either was
    never hidden or a manager query has completed while it was shown and it
    has not been hidden since; and then only for a ready record of this very
    sandbox. *)
Theorem topology_enabled_after_check hidden updated es sandboxId record lastRequest data
    (Htimes : times_increase (updated ?? 0) es) :
  let s0 := (initial_visibility hidden updated, updated) in
  let '(v, now) := page_run s0 es in
  topology_enabled sandboxId record now v lastRequest data = true →
  visible v = true ∧ ((hidden = false ∧ never_hidden es) ∨ checked_while_shown s0 es) ∧
  ∃ r, record = Some r ∧ id r = sandboxId ∧ state r = ready ∧ canRefresh sandboxId record now v = true.
Proof.
  cbv zeta. pose proof (page_run_inv hidden updated es Htimes) as [_ Hinv].
  destruct (page_run _ es) as [v now]. cbn [fst snd] in Hinv. unfold topology_enabled, canRefresh.
  intros H. bool_to_prop. split; [done|]. split.
  - unfold managerCheckedSinceFocus in *. destruct (managerCheckFloor v) as [floor|]; [|left; auto].
    right. destruct Hinv as [_ Hinv]. apply Hinv; [done|]. destruct now as [t|]; [|done]. cbn. bool_to_prop. done.
  - destruct record as [r|]; [|done]. cbn [own_record] in *. bool_to_prop. subst.
    match goal with H : shouldRequestProcessTopology _ _ _ = true |- _ =>
      destruct (gate_ready (RevisionGate := topology_gate) _ _ _ H) as (r' & [= <-] & Hready) end.
    exists r. rewrite (proj2 (is_ready_spec r)) by done.
    unfold own_record. rewrite bool_decide_true by done.
    split_and!; try done. by repeat match goal with H : _ = true |- _ => rewrite H; clear H end.
Qed.

Lemma topology_enabled_after_check_witness :
  let s0 := (initial_visibility false (Some 10), Some 10) in
  let es := [Visibility true; ManagerChecked 20; Visibility false] in
  let record := Some (example_record "a" ready) in
  topology_enabled (js "a") record (page_run s0 es).2 (page_run s0 es).1 None None = false ∧
  (topology_enabled (js "a") record (page_run s0 (es ++ [ManagerChecked 30])).2
     (page_run s0 (es ++ [ManagerChecked 30])).1 None None = true → checked_while_shown s0 (es ++ [ManagerChecked 30])).
Proof.
  intros s0 es record. split; [reflexivity|]. intros Hen.
  destruct (topology_enabled_after_check false (Some 10) (es ++ [ManagerChecked 30]) (js "a") record None None
    ltac:(cbn; lia) Hen) as (_ & [[_ Hn]|Hc] & _); [|exact Hc].
  apply Forall_cons in Hn as [Hn _]. by destruct Hn.
Defined.
