(* ===== verification/ProcessView.v ===== *)
(** The process page ([web/src/pages/sandbox/observability/CgroupView.tsx]):
    the two effects that turn successive topologies into estimates, and what
    the panel and its workspace cards say. The query that feeds the page is
    in [ProcessTopology]; the estimate itself is in [ProcessEstimates]. *)
From S2P Require Import Prelude JsNumber JsText NumText JsCollections Types Observability ProcessEstimates Format RevisionGate.

(** ** The effects *)

(** What one committed render carries: the sandbox, the topology of the
    query's data with the identity of its object, the time of the data,
    whether it stands in for another key's, and the clock when the effects
    run. *)
Record topology_commit := {
  commit_sandbox : jsstr;
  commit_topology : option (nat * WorkspaceProcessTopology);
  commit_updated_at : Z;
  commit_placeholder : bool;
  commit_now : number;
}.

(** The dependencies of the second effect. *)
Definition commit_deps (c : topology_commit) : option nat * Z * bool * jsstr :=
  (fst <$> commit_topology c, commit_updated_at c, commit_placeholder c, commit_sandbox c).

Record observation := {
  observed_sandbox : jsstr;
  observed_topology : WorkspaceProcessTopology;
  observedAt : number;
}.

(** What a commit observes: an available topology that is the sandbox's own. *)
Definition observes (c : topology_commit) : option observation :=
  match commit_topology c with
  | Some (_, t) => if topology_available t && negb (commit_placeholder c)
                   then Some {| observed_sandbox := commit_sandbox c; observed_topology := t; observedAt := commit_now c |}
                   else None
  | None => None
  end.

Record process_page := {
  estimates : gmap jsstr WorkspaceResourceEstimate;
  previousRef : option observation;
  committed : option topology_commit;
}.

Definition initial_page : process_page := {| estimates := ∅; previousRef := None; committed := None |}.

Definition previous_observation (ref : option observation) (sandboxId : jsstr) : option observation :=
  match ref with Some o => if bool_decide (observed_sandbox o = sandboxId) then Some o else None | None => None end.

(** [estimateWorkspaceResources(previous?.topology, topology, elapsed)]. *)
Definition estimate_observation (previous : option observation) (o : observation) : gmap jsstr WorkspaceResourceEstimate :=
  estimateWorkspaceResources (observed_topology <$> previous) (observed_topology o)
    ((λ p, num_sub (observedAt o) (observedAt p)) <$> previous).

(** The first effect runs when the sandbox is another one, or first. *)
Definition clear_effect (c : topology_commit) (p : process_page) : process_page :=
  if bool_decide ((commit_sandbox <$> committed p) = Some (commit_sandbox c)) then p
  else {| estimates := ∅; previousRef := previousRef p; committed := committed p |}.

(** The second runs when one of its dependencies has changed. *)
Definition observe_effect (c : topology_commit) (p : process_page) : process_page :=
  if bool_decide ((commit_deps <$> committed p) = Some (commit_deps c)) then p
  else match observes c with
       | Some o => {| estimates := estimate_observation (previous_observation (previousRef p) (commit_sandbox c)) o;
                      previousRef := Some o; committed := committed p |}
       | None => p
       end.

Definition page_commit (p : process_page) (c : topology_commit) : process_page :=
  let q := observe_effect c (clear_effect c p) in
  {| estimates := estimates q; previousRef := previousRef q; committed := Some c |}.

Definition page_commits (cs : list topology_commit) : process_page := foldl page_commit initial_page cs.

(** ** What is shown *)

Definition formatKind (k : ProcessKind) : jsstr :=
  match k with namespace_init => js "namespace init" | process_kind => js "process" end.

Definition formatSource (source : option jsstr) : jsstr :=
  if bool_decide (source = Some (js "proc_namespaces")) then js "proc namespaces" else js "unknown source".

Definition formatCpuEstimate (cpu : option number) : jsstr :=
  match cpu with
  | Some v => if isFinite v then to_fixed 1 v ++ js "%" else js "Waiting for next refresh"
  | None => js "Waiting for next refresh"
  end.

Definition formatRssEstimate (estimate : option WorkspaceResourceEstimate) : jsstr :=
  match estimate ≫= residentMemoryBytes with Some b => formatBytes b | None => js "Unavailable" end.

Definition workspaceColor (s : WorkspaceActivity) : jsstr :=
  match s with workspace_active => js "success" | _ => js "neutral" end.

Record workspace_card := {
  card_workspace : jsstr;
  card_color : jsstr;
  card_fields : list (string * jsstr);
  card_rss : jsstr;
  card_cpu : jsstr;
  card_partial : bool;
  card_idle : bool;
  card_processes : list WorkspaceProcess;
}.

Definition hasWorkload (w : WorkspaceProcesses) : bool :=
  js_some (λ p, match kind p with process_kind => true | namespace_init => false end) (processes w).

Definition WorkspaceCard (w : WorkspaceProcesses) (estimate : option WorkspaceResourceEstimate) : workspace_card :=
  {| card_workspace := workspace_id w;
     card_color := workspaceColor (workspace_state w);
     card_fields := [("Holder PID"%string, Z_to_js (holder_pid w));
                     ("PID namespace"%string, pid_namespace w ?? js "unavailable");
                     ("Mount namespace"%string, mount_namespace w ?? js "unavailable")];
     card_rss := formatRssEstimate estimate;
     card_cpu := formatCpuEstimate (estimate ≫= cpuPercent);
     card_partial := bool_decide (workspace_state w = workspace_partial);
     card_idle := negb (hasWorkload w);
     card_processes := processes w |}.

(** The cells of a process, in both layouts, and its memberships. *)
Definition process_cells (p : WorkspaceProcess) : list jsstr :=
  [process_name p; Z_to_js (pid p); Z_to_js (namespace_pid p); process_state p; formatKind (kind p)].

Definition Memberships (p : WorkspaceProcess) : list jsstr :=
  match cgroup_memberships p with [] => [js "Not reported"] | ms => ms end.

(** The panel below its heading: it is loading, or the topology is there, or
    it is not and the alert gives the daemon's reason. *)
Inductive topology_body :=
  | body_pending
  | body_topology (truncated : bool) (warnings : list jsstr) (cards : list workspace_card)
  | body_unavailable (reason : jsstr).

Record topology_panel := { panel_badge : jsstr; panel_badge_color : jsstr; panel_refresh : jsstr; panel_body : topology_body }.

Definition ProcessTopologyPanel (t : option WorkspaceProcessTopology) (pending : bool)
    (es : gmap jsstr WorkspaceResourceEstimate) : topology_panel :=
  let there := match t with Some t => if topology_available t then Some t else None | None => None end in
  {| panel_badge := match there with Some t => formatSource (topology_source t)
                    | None => if pending then js "loading" else js "unavailable" end;
     panel_badge_color := match there with Some _ => js "success" | None => if pending then js "neutral" else js "yellow" end;
     panel_refresh := if topologyHasActivity t then js "auto-refresh active" else js "refreshes on activity";
     panel_body :=
       if pending then body_pending
       else match there with
            | Some t => body_topology (topology_truncated t) (topology_warnings t)
                          ((λ w, WorkspaceCard w (es !! workspace_id w)) <$> topology_workspaces t)
            | None => body_unavailable ((t ≫= topology_error) ?? js "Topology was not reported by this daemon.")
            end |}.

(** The page: whether an alert tells of a failed refresh, and the panel. *)
Definition CgroupView (data : option WorkspaceProcessTopology) (isError : bool) (p : process_page) : bool * topology_panel :=
  (isError, ProcessTopologyPanel data (match data with Some _ => false | None => negb isError end) (estimates p)).

(** ** Facts *)

(** ** What the page has been told

    Told apart from the effects: which commits bring a new answer of the sandbox
    they show, and which was the newest. *)

Definition query_state (c : topology_commit) : option nat * Z * bool * jsstr :=
  (fst <$> commit_topology c, commit_updated_at c, commit_placeholder c, commit_sandbox c).

(** After the commits [pre], [c] brings the topology [t]: the daemon could tell
    it, it does not stand in for an answer that is awaited, and it is not what
    the commit before had. *)
Definition new_answer (pre : list topology_commit) (c : topology_commit) (t : WorkspaceProcessTopology) : Prop :=
  (∃ i, commit_topology c = Some (i, t)) ∧ topology_available t = true ∧ commit_placeholder c = false ∧
  ∀ d, last pre = Some d → query_state d ≠ query_state c.

(** The last of the commits that brought one, what came before it and after. *)
Definition newest (cs pre : list topology_commit) (c : topology_commit) (t : WorkspaceProcessTopology) (post : list topology_commit) : Prop :=
  cs = pre ++ c :: post ∧ new_answer pre c t ∧
  ∀ post1 d post2 t', post = post1 ++ d :: post2 → ¬ new_answer (pre ++ c :: post1) d t'.

Lemma newest_snoc_new cs c t pre d t' post :
  new_answer cs c t → newest (cs ++ [c]) pre d t' post ↔ pre = cs ∧ d = c ∧ t' = t ∧ post = [].
Proof.
  intros Hc. split.
  - intros (Heq & [[i Hd] _] & Hlater). destruct post as [|x post _] using rev_ind.
    + apply app_inj_tail in Heq as [-> ->]. destruct Hc as [[j Hj] _]. rewrite Hj in Hd. by injection Hd as _ ->.
    + rewrite app_comm_cons, app_assoc in Heq. apply app_inj_tail in Heq as [-> ->]. by destruct (Hlater post x [] t).
  - intros (-> & -> & -> & ->). split; [done|]. split; [done|]. by intros [|].
Qed.

Lemma newest_snoc_old cs c pre d t post :
  (∀ t, ¬ new_answer cs c t) → newest (cs ++ [c]) pre d t post ↔ ∃ post', post = post' ++ [c] ∧ newest cs pre d t post'.
Proof.
  intros Hc. split.
  - intros (Heq & Hd & Hlater). destruct post as [|x post _] using rev_ind.
    + apply app_inj_tail in Heq as [-> ->]. by destruct (Hc t).
    + rewrite app_comm_cons, app_assoc in Heq. apply app_inj_tail in Heq as [-> ->]. exists post. split; [done|]. split; [done|].
      split; [done|]. intros post1 e post2 t' ->. apply (Hlater post1 e (post2 ++ [x])). by rewrite <- app_assoc.
  - intros (post' & -> & -> & Hd & Hlater). split; [by rewrite <- app_assoc|]. split; [done|].
    intros post1 e post2 t' Hpost. destruct post2 as [|y post2 _] using rev_ind.
    + apply app_inj_tail in Hpost as [-> ->]. apply Hc.
    + rewrite app_comm_cons, app_assoc in Hpost. apply app_inj_tail in Hpost as [-> _]. by apply (Hlater post1 e post2).
Qed.

Lemma page_commits_snoc cs c : page_commits (cs ++ [c]) = page_commit (page_commits cs) c.
Proof. apply foldl_snoc. Qed.

Lemma page_committed cs : committed (page_commits cs) = last cs.
Proof. destruct cs as [|c cs _] using rev_ind; [done|]. by rewrite page_commits_snoc, last_snoc. Qed.

(** A commit is observed exactly when it brings an answer. *)
Lemma commit_answers cs c :
  (∃ t, new_answer cs c t ∧ (commit_deps <$> last cs) ≠ Some (commit_deps c) ∧
     observes c = Some {| observed_sandbox := commit_sandbox c; observed_topology := t; observedAt := commit_now c |}) ∨
  ((∀ t, ¬ new_answer cs c t) ∧ ((commit_deps <$> last cs) = Some (commit_deps c) ∨ observes c = None)).
Proof.
  destruct (decide ((commit_deps <$> last cs) = Some (commit_deps c))) as [Hsame|Hnew].
  - right. split; [|by left]. intros t (_ & _ & _ & Hd). destruct (last cs) as [d|]; [|done]. injection Hsame as H1 H2 H3 H4.
    apply (Hd d eq_refl). unfold query_state. congruence.
  - unfold observes. destruct (commit_topology c) as [[i t]|] eqn:Ht; [|right; split; [|by right]; intros t [[i Hi] _]; congruence].
    destruct (topology_available t && negb (commit_placeholder c)) eqn:Hb.
    + apply andb_true_iff in Hb as [Ha Hp%negb_true_iff]. left. exists t. split; [|done]. split; [by exists i|]. split_and!; [done..|].
      intros d Hd Hq. apply Hnew. rewrite Hd. cbn. f_equal. exact Hq.
    + right. split; [|by right]. intros t' ([j Hj] & Ha & Hp & _). rewrite Ht in Hj. injection Hj as _ ->. by rewrite Ha, Hp in Hb.
Qed.

(** One commit, with and without an answer. *)
Lemma page_commit_answer cs c t : new_answer cs c t →
  page_commits (cs ++ [c]) =
  {| estimates := estimate_observation (previous_observation (previousRef (page_commits cs)) (commit_sandbox c))
                    {| observed_sandbox := commit_sandbox c; observed_topology := t; observedAt := commit_now c |};
     previousRef := Some {| observed_sandbox := commit_sandbox c; observed_topology := t; observedAt := commit_now c |};
     committed := Some c |}.
Proof.
  intros Hc. destruct (commit_answers cs c) as [(t' & Ht' & Hdeps & Ho)|[Hnone _]]; [|by destruct (Hnone t)].
  assert (t' = t) as -> by (destruct Hc as [[i Hi] _], Ht' as [[j Hj] _]; congruence).
  rewrite page_commits_snoc. unfold page_commit, observe_effect, clear_effect. rewrite Ho.
  destruct (bool_decide ((commit_sandbox <$> committed (page_commits cs)) = Some (commit_sandbox c))); cbn [committed];
    by rewrite page_committed, bool_decide_false.
Qed.

Lemma page_commit_silent cs c : (∀ t, ¬ new_answer cs c t) →
  page_commits (cs ++ [c]) =
  {| estimates := if bool_decide ((commit_sandbox <$> last cs) = Some (commit_sandbox c)) then estimates (page_commits cs) else ∅;
     previousRef := previousRef (page_commits cs); committed := Some c |}.
Proof.
  intros Hc. destruct (commit_answers cs c) as [(t & Ht & _)|[_ Hor]]; [by destruct (Hc t)|].
  rewrite page_commits_snoc. unfold page_commit, observe_effect, clear_effect. rewrite page_committed.
  destruct (bool_decide ((commit_sandbox <$> last cs) = _)); cbn [committed]; rewrite ?page_committed;
    (destruct (bool_decide_reflect ((commit_deps <$> last cs) = Some (commit_deps c))); [done|]); by destruct Hor as [Hor|Hor]; [|rewrite Hor].
Qed.

(** The ref holds the newest answer. *)
Lemma previousRef_newest cs :
  match previousRef (page_commits cs) with
  | Some o => ∃ pre c t post, newest cs pre c t post ∧ o = {| observed_sandbox := commit_sandbox c; observed_topology := t; observedAt := commit_now c |} ∧
                ∀ pre' c' t' post', newest cs pre' c' t' post' → c' = c
  | None => ∀ pre c t post, ¬ newest cs pre c t post
  end.
Proof.
  induction cs as [|c cs IH] using rev_ind; [by intros [|] ? ? ? [? _]|].
  destruct (commit_answers cs c) as [(t & Ht & _)|[Hnone _]].
  - rewrite (page_commit_answer cs c t Ht). cbn [previousRef]. exists cs, c, t, []. split; [by apply (newest_snoc_new cs c t)|]. split; [done|].
    by intros pre' c' t' post' (_ & -> & _)%(newest_snoc_new cs c t).
  - rewrite (page_commit_silent cs c Hnone). cbn [previousRef]. destruct (previousRef (page_commits cs)) as [o|].
    + destruct IH as (pre & d & t & post & Hd & Ho & Huniq). exists pre, d, t, (post ++ [c]). split; [apply (newest_snoc_old cs c); eauto|]. split; [done|].
      intros pre' c' t' post' (p & _ & Hp)%newest_snoc_old; [by eapply Huniq|done].
    + intros pre d t post (p & _ & Hp)%newest_snoc_old; [by eapply IH|done].
Qed.

(** ** Theorems *)

(** C31: The estimates on the page are of the sandbox it shows. In any run of
    renders that ends with one of sandbox [s]: if an answer of [s] has come since
    the page turned to [s], the estimates are those of the newest such answer,
    against the answer that came before it when that was of [s] too, over the
    time between the two, and against nothing when it was of another sandbox;
    and if none has come since, there are no estimates. Only topologies that
    the daemon could tell and that do not stand in for an answer that is awaited
    are used, and each once, however often the page renders. *)
Theorem process_estimates_current cs s (Hs : (commit_sandbox <$> last cs) = Some s) :
  (∃ pre c t post, newest cs pre c t post ∧ Forall (λ d, commit_sandbox d = s) (c :: post) ∧
     ((∃ pre' c' t' post', newest pre pre' c' t' post' ∧ commit_sandbox c' = s ∧
         estimates (page_commits cs) = estimateWorkspaceResources (Some t') t (Some (num_sub (commit_now c) (commit_now c')))) ∨
      ((∀ pre' c' t' post', newest pre pre' c' t' post' → commit_sandbox c' ≠ s) ∧
         estimates (page_commits cs) = estimateWorkspaceResources None t None))) ∨
  ((∀ pre c t post, newest cs pre c t post → ¬ Forall (λ d, commit_sandbox d = s) (c :: post)) ∧
     estimates (page_commits cs) = ∅).
Proof.
  induction cs as [|c cs IH] using rev_ind; [done|]. rewrite last_snoc in Hs. injection Hs as Hs.
  destruct (commit_answers cs c) as [(t & Ht & _)|[Hnone _]].
  - left. exists cs, c, t, []. split; [by apply (newest_snoc_new cs c t)|]. split; [by repeat constructor|].
    rewrite (page_commit_answer cs c t Ht). cbn [estimates]. pose proof (previousRef_newest cs) as Hprev.
    destruct (previousRef (page_commits cs)) as [o|]; [|right; split; [|done]; intros pre' c' t' post' Hn; by apply Hprev in Hn].
    destruct Hprev as (pre' & c' & t' & post' & Hn & -> & Huniq). unfold previous_observation. cbn [observed_sandbox].
    case_bool_decide as Hsame.
    + left. exists pre', c', t', post'. split; [done|]. split; [congruence|]. done.
    + right. split; [|done]. intros ? d ? ? Hd. rewrite (Huniq _ _ _ _ Hd). congruence.
  - rewrite (page_commit_silent cs c Hnone). cbn [estimates]. rewrite Hs. case_bool_decide as Hsame.
    + destruct (IH Hsame) as [(pre & d & t & post & Hd & Hall & Hest)|[Hall Hest]].
      * left. exists pre, d, t, (post ++ [c]). split; [apply (newest_snoc_old cs c); eauto|]. split; [|done].
        change (Forall (λ x, commit_sandbox x = s) ((d :: post) ++ [c])). apply Forall_app. split; [exact Hall|by apply Forall_singleton].
      * right. split; [|done]. intros pre d t post (p & -> & Hp)%newest_snoc_old; [|done].
        change (¬ Forall (λ x, commit_sandbox x = s) ((d :: p) ++ [c])). rewrite Forall_app. intros [? _]. by eapply Hall.
    + right. split; [|done]. intros pre d t post (p & -> & Heq & _)%newest_snoc_old Hall; [|done]. subst cs. apply Hsame.
      change (Forall (λ x, commit_sandbox x = s) ((d :: p) ++ [c])) in Hall. apply Forall_app in Hall as [Hall _]. rewrite last_app. cbn.
      destruct (last (d :: p)) as [x|] eqn:Hl; [|by apply last_None in Hl]. change (last (d :: p) = Some x) in Hl.
      apply last_Some in Hl as [l' Hl]. rewrite Hl in Hall.
      apply Forall_app in Hall as [_ [Hx _]%Forall_cons]. cbn. by rewrite Hx.
Qed.

Definition loading_commit (s : string) (now : Z) : topology_commit :=
  {| commit_sandbox := js s; commit_topology := None; commit_updated_at := 0; commit_placeholder := false; commit_now := num_of_Z now |}.

Definition loaded_commit (s : string) (identity : nat) (cpu updated now : Z) : topology_commit :=
  {| commit_sandbox := js s; commit_topology := Some (identity, example_topology [example_process 7 cpu 100]);
     commit_updated_at := updated; commit_placeholder := false; commit_now := num_of_Z now |}.

(** The topology of "a" stands in for that of "b" until this comes. *)
Definition standing_in : topology_commit :=
  {| commit_sandbox := js "b"; commit_topology := Some (1%nat, example_topology [example_process 7 0 100]);
     commit_updated_at := 0; commit_placeholder := true; commit_now := num_of_Z 50 |}.

Definition example_commits : list topology_commit :=
  [loaded_commit "a" 1 0 0 0; standing_in; loaded_commit "b" 2 0 100 100; loaded_commit "b" 3 500 1100 1100; loading_commit "c" 1200].

Lemma process_estimates_current_witness :
  (∃ pre c t post, newest (take 4 example_commits) pre c t post ∧ commit_sandbox c = js "b") ∧
  estimates (page_commits (take 2 example_commits)) = ∅ ∧
  formatCpuEstimate (estimates (page_commits (take 4 example_commits)) !! js "w" ≫= cpuPercent) = js "0.1%".
Proof.
  split; [|split; [|vm_compute; reflexivity]].
  - destruct (process_estimates_current (take 4 example_commits) (js "b") eq_refl) as [(pre & c & t & post & Hn & Hall & _)|[_ He]].
    + exists pre, c, t, post. split; [exact Hn|]. by apply Forall_cons in Hall as [? _].
    + exfalso. apply (f_equal (λ m : gmap jsstr WorkspaceResourceEstimate, bool_decide (is_Some (m !! js "w")))) in He. vm_compute in He. discriminate He.
  - destruct (process_estimates_current (take 2 example_commits) (js "b") eq_refl) as [(pre & c & t & post & Hn & Hall & _)|[_ He]]; [|exact He].
    exfalso. destruct Hn as (Heq & (_ & _ & Hp & _) & _). apply Forall_cons in Hall as [Hc _].
    destruct pre as [|x [|y [|z pre]]]; try discriminate; injection Heq as <- ?; subst; try discriminate Hc; discriminate Hp.
Defined.

(** What the cards say. When the page has the topology it just observed,
    each workspace has a card, in order; its memory is the sum of what its
    processes report, "Unavailable" when none reports any; and its CPU waits
    for the next refresh when this is the first observation of the sandbox,
    or when no process is known from the one before. *)
Theorem process_cards_show p o previous
    (Hp : estimates p = estimate_observation previous o)
    (Ho : topology_available (observed_topology o) = true)
    (Hids : NoDup (workspace_id <$> topology_workspaces (observed_topology o))) :
  let panel := snd (CgroupView (Some (observed_topology o)) false p) in
  ∃ cards, panel_body panel = body_topology (topology_truncated (observed_topology o)) (topology_warnings (observed_topology o)) cards ∧
    Forall2 (λ w card,
      card_workspace card = workspace_id w ∧ card_processes card = processes w ∧
      card_rss card = match omap (isNonNegativeNumber ∘ resident_memory_bytes) (processes w) with
                      | [] => js "Unavailable"
                      | ms => formatBytes (num_sum ms)
                      end ∧
      (previous = None → card_cpu card = js "Waiting for next refresh") ∧
      (card_idle card = true ↔ Forall (λ q, kind q = namespace_init) (processes w)))
      (topology_workspaces (observed_topology o)) cards.
Proof.
  cbv zeta. unfold CgroupView, ProcessTopologyPanel. cbn [snd panel_body]. rewrite Ho.
  eexists. split; [reflexivity|]. apply Forall2_fmap_r, Forall_Forall2_diag, Forall_forall. intros w Hw.
  unfold compose, WorkspaceCard. cbn [card_workspace card_processes card_rss card_cpu card_idle].
  assert (∃ index ms, estimates p !! workspace_id w = Some (estimate_workspace index ms w) ∧ (previous = None → ms = None))
    as (index & ms & -> & Hms).
  { rewrite Hp. unfold estimate_observation, estimateWorkspaceResources. eexists _, ((λ q, num_sub (observedAt o) (observedAt q)) <$> previous).
    split; [|by intros ->]. apply js_map_NoDup; [by rewrite <- list_fmap_compose|]. apply list_elem_of_fmap. by exists w. }
  rewrite estimate_workspace_eq. cbn [mbind option_bind residentMemoryBytes cpuPercent].
  split_and!; [done|done| |by intros ->%Hms|].
  - unfold formatRssEstimate. cbn [mbind option_bind residentMemoryBytes]. by destruct (omap _ _).
  - unfold hasWorkload. rewrite negb_true_iff, js_some_none, Forall_forall.
    split; intros H q Hq; specialize (H q Hq); by destruct (kind q).
Qed.

Lemma process_cards_show_witness :
  let c := loaded_commit "a" 1 0 0 0 in
  ∃ cards, panel_body (snd (CgroupView (Some (example_topology [example_process 7 0 100])) false (page_commits [c]))) =
    body_topology false [] cards.
Proof.
  intros c. set (t := example_topology [example_process 7 0 100]).
  assert (NoDup (workspace_id <$> topology_workspaces t)) as Hids by decide_closed.
  destruct (process_cards_show (page_commits [c])
    {| observed_sandbox := js "a"; observed_topology := t; observedAt := num_of_Z 0 |} None eq_refl eq_refl Hids) as (cards & H & _).
  exists cards. exact H.
Defined.

(** The clock of an observation is that of the render, not of the request:
    a page reopened on the query cache's topology, fetched a minute ago, and
    refreshed a tenth of a second later shows a process that used one core
    all along as using six hundred and one. *)
Example reopened_page_overstates_cpu :
  let reopened := loaded_commit "a" 1 0 0 60000 in
  let refreshed := loaded_commit "a" 2 60100000 60100 60100 in
  formatCpuEstimate (estimates (page_commits [reopened; refreshed]) !! js "w" ≫= cpuPercent) = js "60100.0%".
Proof. vm_compute. reflexivity. Qed.
