(* ===== verification/FleetPolling.v ===== *)
(** Polling of the sandboxes ([web/src/poll/useSandboxSnapshot.ts],
    [useFleetSnapshots.ts] and [useFleetCurrentUsage.ts]): the options of the
    queries, the notes of requested revisions, and the data the hooks return. *)
From S2P Require Import Prelude JsCollections JsNumber Types Observability Resources Activity Poll RevisionGate.

(** ** One sandbox *)

(** [usePoll]'s options of [useSandboxSnapshot]; the query's data is the
    snapshot result itself. *)
Definition sandbox_snapshot_query_enabled (sandboxId : jsstr) (record : option SandboxRecord)
    (last : option (option Z)) (data : option SnapshotResult) : bool :=
  negb (bool_decide (sandboxId = [])) && sandbox_snapshot_enabled record data last.

Definition sandbox_snapshot_mode (record : option SandboxRecord) (data : option SnapshotResult) : PollMode :=
  match snapshotPollingMode record data with fast => poll_fast | slow => poll_slow end.

Definition sandbox_snapshot_note (record : option SandboxRecord) : option (option Z) :=
  Some (noted_revision record).

(** ** The fleet *)

(** [requestedRevisions.current]. *)
Abbreviation requested_revisions := (gmap jsstr (option Z)) (only parsing).

(** The effect that forgets sandboxes that are gone. *)
Definition prune_requested (requested : requested_revisions) (records : list SandboxRecord) : requested_revisions :=
  filter (λ kv, kv.1 ∈ id <$> records) requested.

Definition note_requested (requested : requested_revisions) (record : SandboxRecord) : requested_revisions :=
  <[id record := activity_revision record]> requested.

Definition fleet_query_enabled (requested : requested_revisions) (record : SandboxRecord)
    (data : option SnapshotResult) : bool :=
  fleet_snapshot_enabled (Some record) data (requested !! id record).

Definition fleet_query_interval (record : SandboxRecord) (data : option SnapshotResult) : option Z :=
  if snapshotHasActivity (Some record) data then Some FAST_POLL_MS else None.

(** [queries.flatMap(query => query.data?.sandboxes ?? [])]. *)
Definition fleet_snapshot_data (queries : list (option SnapshotResult)) : SnapshotResult :=
  {| snapshots := queries ≫= λ q, match q with Some d => snapshots d | None => [] end |}.

(** ** Current usage *)

Definition fleet_usage_enabled (records : list SandboxRecord) : bool := js_some is_ready records.

Definition usage_entry (query : option FleetResourcesResult) (r : SandboxRecord) : option (jsstr * SandboxCurrentUsage) :=
  if negb (is_ready r) then None
  else match query ≫= λ d, fleet_sandboxes d !! id r ≫= current with
       | Some c => Some (id r, currentUsageFromSeries [c])
       | None => None
       end.

Definition useFleetCurrentUsage (records : list SandboxRecord) (query : option FleetResourcesResult)
    : gmap jsstr SandboxCurrentUsage := js_map (omap (usage_entry query) records).

(** ** Facts *)

Lemma prune_lookup requested records i :
  i ∈ id <$> records → prune_requested requested records !! i = requested !! i.
Proof.
  intros Hi. unfold prune_requested. rewrite map_lookup_filter.
  destruct (requested !! i) as [v|]; [|done]. cbn. by rewrite option_guard_True.
Qed.

Lemma prune_gone requested records i :
  i ∉ id <$> records → prune_requested requested records !! i = None.
Proof.
  intros Hi. unfold prune_requested. rewrite map_lookup_filter.
  destruct (requested !! i) as [v|]; [|done]. cbn. by rewrite option_guard_False.
Qed.

(** Sandboxes of the fleet are polled independently: a request for one
    changes the gate of no other, forgetting the sandboxes that are gone
    changes none of those that remain, and after its own request a sandbox
    without activity is not asked again at that revision, whatever the request
    returned. *)
Theorem fleet_polling_isolated requested records a b data :
  (id a ≠ id b → fleet_query_enabled (note_requested requested a) b data = fleet_query_enabled requested b data) ∧
  (b ∈ records → fleet_query_enabled (prune_requested requested records) b data = fleet_query_enabled requested b data) ∧
  (snapshotHasActivity (Some a) data = false → fleet_query_enabled (note_requested requested a) a data = false) ∧
  (∀ i, i ∉ id <$> records → prune_requested requested records !! i = None).
Proof.
  unfold fleet_query_enabled, note_requested. split_and!.
  - intros Hne. by rewrite lookup_insert_ne.
  - intros Hb. by rewrite prune_lookup by (by apply list_elem_of_fmap_2).
  - intros Hidle. rewrite lookup_insert_eq. apply not_true_iff_false. intros H.
    assert (snapshotHasActivity (Some a) data = true) as Hact
      by exact (gate_same_revision (RevisionGate := fleet_snapshot_gate) a data H). congruence.
  - intros i. apply prune_gone.
Qed.

(** The fleet's gauges: a sandbox has an entry exactly when it is listed as
    ready and the manager has a current sample for it, and the entry is that
    sample's usage. *)
Theorem useFleetCurrentUsage_spec records query i usage :
  useFleetCurrentUsage records query !! i = Some usage ↔
  ∃ r d c sample, r ∈ records ∧ id r = i ∧ state r = ready ∧ query = Some d ∧
    fleet_sandboxes d !! i = Some c ∧ current c = Some sample ∧ usage = currentUsageFromSeries [sample].
Proof.
  assert (∀ r u, usage_entry query r = Some (i, u) ↔
    ∃ d c sample, id r = i ∧ state r = ready ∧ query = Some d ∧
      fleet_sandboxes d !! i = Some c ∧ current c = Some sample ∧ u = currentUsageFromSeries [sample]) as Hentry.
  { intros r u. unfold usage_entry. destruct (is_ready r) eqn:Hr; cbn [negb].
    - apply is_ready_spec in Hr. destruct query as [d|]; cbn [mbind option_bind]; [|naive_solver].
      destruct (fleet_sandboxes d !! id r) as [c|] eqn:Hc; cbn [mbind option_bind]; [|naive_solver].
      destruct (current c) as [sample|] eqn:Hs; naive_solver.
    - split; [done|]. intros (_ & _ & _ & _ & Hready & _). by rewrite (proj2 (is_ready_spec r) Hready) in Hr. }
  unfold useFleetCurrentUsage. split.
  - intros (r & Hr & He)%js_map_elem%list_elem_of_omap. apply Hentry in He. naive_solver.
  - intros (r & d & c & sample & Hr & Hi & Hready & Hq & Hc & Hs & ->).
    set (u := currentUsageFromSeries [sample]).
    assert ((i, u) ∈ omap (usage_entry query) records) as Hin.
    { apply list_elem_of_omap. exists r. split; [done|]. apply Hentry. naive_solver. }
    destruct (js_map (omap (usage_entry query) records) !! i) as [u'|] eqn:Hu'.
    + apply js_map_elem, list_elem_of_omap in Hu' as (r' & _ & He'). apply Hentry in He'.
      destruct He' as (d' & c' & sample' & _ & _ & Hq' & Hc' & Hs' & ->).
      unfold u. by simplify_eq.
    + apply js_map_lookup_None in Hu'. destruct Hu'. apply list_elem_of_fmap. by exists (i, u).
Qed.
