(* ===== verification/TranscriptPoll.v ===== *)
(** The transcript poll scheduler
    ([web/src/pages/sandbox/terminal/TranscriptPollProvider.tsx]): one timer
    for every expanded transcript, serving at most four of them a tick in
    round-robin order. *)
From S2P Require Import Prelude.

Definition FAST_TAIL_MS : Z := 400.
Definition SETTLED_TAIL_MS : Z := 2000.
Definition MAX_POLLS_PER_TICK : nat := 4.

(** The registered keys in the order of the [Map], the period of the armed
    timer, whether a round is under way, the cursor, and whether the page is
    hidden. *)
Record scheduler := {
  pollers : list jsstr;
  timer : option Z;
  polling : bool;
  cursor : nat;
  hidden : bool;
}.

Definition initial_scheduler (h : bool) : scheduler :=
  {| pollers := []; timer := None; polling := false; cursor := 0; hidden := h |}.

(** [pollers[(start + index) % pollers.length]] for the first [count] indices. *)
Definition round_robin (ps : list jsstr) (start count : nat) : list jsstr :=
  omap (λ i, ps !! ((start + i) mod length ps)%nat) (seq 0 count).

(** The polls a round starts, and the state while they run. *)
Definition runPoll (s : scheduler) : list jsstr * scheduler :=
  if polling s then ([], s)
  else if bool_decide (pollers s = []) then ([], s)
  else let n := length (pollers s) in
       let count := Nat.min MAX_POLLS_PER_TICK n in
       let start := (cursor s mod n)%nat in
       (round_robin (pollers s) start count,
        {| pollers := pollers s; timer := timer s; polling := true;
           cursor := ((start + count) mod n)%nat; hidden := hidden s |}).

(** [finally]: the round has settled. *)
Definition poll_settled (s : scheduler) : scheduler :=
  {| pollers := pollers s; timer := timer s; polling := false; cursor := cursor s; hidden := hidden s |}.

Definition with_timer (s : scheduler) (t : option Z) : scheduler :=
  {| pollers := pollers s; timer := t; polling := polling s; cursor := cursor s; hidden := hidden s |}.

Definition period (h : bool) : Z := if h then SETTLED_TAIL_MS else FAST_TAIL_MS.

Definition syncTimer (reset : bool) (s : scheduler) : scheduler :=
  let s := if reset then with_timer s None else s in
  if bool_decide (pollers s = []) then with_timer s None
  else match timer s with
       | None => with_timer s (Some (period (hidden s)))
       | Some _ => s
       end.

Definition with_pollers (s : scheduler) (ps : list jsstr) : scheduler :=
  {| pollers := ps; timer := timer s; polling := polling s; cursor := cursor s; hidden := hidden s |}.

(** [Map.set]: a key that is present keeps its place. *)
Definition register (key : jsstr) (s : scheduler) : list jsstr * scheduler :=
  runPoll (syncTimer false
    (with_pollers s (if bool_decide (key ∈ pollers s) then pollers s else pollers s ++ [key]))).

(** What [register] returns: the clean-up. *)
Definition unregister (key : jsstr) (s : scheduler) : scheduler :=
  syncTimer false (with_pollers s (js_filter (λ k, negb (bool_decide (k = key))) (pollers s))).

Definition onFocus (s : scheduler) : list jsstr * scheduler := runPoll s.

Definition onVisibilityChange (h : bool) (s : scheduler) : list jsstr * scheduler :=
  let s := syncTimer true
             {| pollers := pollers s; timer := timer s; polling := polling s; cursor := cursor s; hidden := h |} in
  if h then ([], s) else runPoll s.

(** [useTranscriptPoller]'s effect. *)
Definition useTranscriptPoller (key : jsstr) (enabled : bool) (s : scheduler) : list jsstr * scheduler :=
  if enabled then register key s else ([], s).

(** ** The scheduler as a transition system *)

(** Steps, with the polls each starts. *)
Inductive sched_step : scheduler → list jsstr → scheduler → Prop :=
  | step_register key s : sched_step s (register key s).1 (register key s).2
  | step_unregister key s : sched_step s [] (unregister key s)
  | step_focus s : sched_step s (onFocus s).1 (onFocus s).2
  | step_visibility h s : sched_step s (onVisibilityChange h s).1 (onVisibilityChange h s).2
  | step_tick s : timer s ≠ None → sched_step s (runPoll s).1 (runPoll s).2
  | step_settled s : polling s = true → sched_step s [] (poll_settled s).

(** Reachable states, with the polls that are still running. *)
Inductive reachable : scheduler → list jsstr → Prop :=
  | reachable_init h : reachable (initial_scheduler h) []
  | reachable_step s run started s' :
      reachable s run → sched_step s started s' →
      reachable s' (if polling s' then run ++ started else []).

Record scheduler_ok (s : scheduler) : Prop := {
  ok_NoDup : NoDup (pollers s);
  ok_timer : timer s = if bool_decide (pollers s = []) then None else Some (period (hidden s));
}.

Lemma syncTimer_ok reset s :
  NoDup (pollers s) → (timer s = None ∨ timer s = Some (period (hidden s)) ∨ reset = true) →
  scheduler_ok (syncTimer reset s) ∧ polling (syncTimer reset s) = polling s.
Proof.
  intros Hnd Ht. unfold syncTimer.
  assert (∀ t, t = (if bool_decide (pollers s = []) then None else Some (period (hidden s))) →
            scheduler_ok (with_timer s t) ∧ polling (with_timer s t) = polling s) as Hok by (intros t ->; done).
  destruct reset; cbn [pollers timer with_timer polling].
  - case_bool_decide as Hp; by apply Hok.
  - case_bool_decide as Hp; [by apply Hok|].
    destruct Ht as [-> |[Ht|]]; [by apply Hok| |done].
    rewrite Ht. split; [|done]. split; [done|]. rewrite Ht. by rewrite bool_decide_false.
Qed.

Lemma runPoll_ok s : scheduler_ok s → scheduler_ok (runPoll s).2.
Proof.
  intros Hok. unfold runPoll. destruct (polling s); [done|].
  destruct (bool_decide (pollers s = [])); [done|]. destruct Hok. by split.
Qed.

Lemma ok_period s : scheduler_ok s → timer s = None ∨ timer s = Some (period (hidden s)).
Proof. intros [_ ->]. case_bool_decide; auto. Qed.

Lemma register_prepared_ok key s :
  scheduler_ok s →
  scheduler_ok (syncTimer false (with_pollers s (if bool_decide (key ∈ pollers s) then pollers s else pollers s ++ [key]))).
Proof.
  intros Hok. apply syncTimer_ok; [|destruct (ok_period s Hok); cbn; auto].
  cbn. destruct Hok as [Hnd _]. case_bool_decide; [done|]. apply NoDup_app. split; [done|].
  split; [set_solver|apply NoDup_singleton].
Qed.

Lemma sched_step_ok s started s' : sched_step s started s' → scheduler_ok s → scheduler_ok s'.
Proof.
  intros Hstep Hok. destruct Hstep as [key s|key s|s|h s|s Ht|s Hp].
  - by apply runPoll_ok, register_prepared_ok.
  - apply syncTimer_ok; [|destruct (ok_period s Hok); cbn; auto].
    destruct Hok as [Hnd _]. cbn. eapply sublist_NoDup; [exact Hnd|apply js_filter_sublist].
  - by apply runPoll_ok.
  - unfold onVisibilityChange.
    assert (scheduler_ok (syncTimer true {| pollers := pollers s; timer := timer s; polling := polling s;
              cursor := cursor s; hidden := h |})) as Hs by (apply syncTimer_ok; [apply Hok|auto]).
    destruct h; [exact Hs|by apply runPoll_ok].
  - by apply runPoll_ok.
  - destruct Hok. by split.
Qed.

(** ** Facts: rounds *)

(** The keys a cursor serves from [start] on, going round. *)
Definition turn (ps : list jsstr) (i : nat) : option jsstr := ps !! (i mod length ps)%nat.

Lemma turn_Some ps i : ps ≠ [] → is_Some (turn ps i).
Proof.
  intros Hne. apply lookup_lt_is_Some. apply Nat.mod_upper_bound. by destruct ps.
Qed.

Lemma turns_congruent ps count : ps ≠ [] → ∀ a b,
  (a mod length ps = b mod length ps)%nat → omap (turn ps) (seq a count) = omap (turn ps) (seq b count).
Proof.
  intros Hne. assert (length ps ≠ 0)%nat as Hn by (by destruct ps).
  induction count as [|count IH]; intros a b Hab; [done|]. cbn [seq].
  change (omap (turn ps) (a :: seq (S a) count)) with
    (match turn ps a with Some y => y :: omap (turn ps) (seq (S a) count) | None => omap (turn ps) (seq (S a) count) end).
  change (omap (turn ps) (b :: seq (S b) count)) with
    (match turn ps b with Some y => y :: omap (turn ps) (seq (S b) count) | None => omap (turn ps) (seq (S b) count) end).
  assert (turn ps a = turn ps b) as -> by (unfold turn; by rewrite Hab). rewrite (IH (S a) (S b)); [done|].
  rewrite <- (Nat.add_1_r a), <- (Nat.add_1_r b).
  by rewrite <- Nat.Div0.add_mod_idemp_l, Hab, Nat.Div0.add_mod_idemp_l.
Qed.

Lemma round_robin_turns ps start count :
  round_robin ps start count = omap (turn ps) (seq start count).
Proof.
  replace (seq start count) with (Nat.add start <$> seq 0 count) by (rewrite fmap_add_seq; by rewrite Nat.add_0_r).
  unfold round_robin. generalize (seq 0 count) as l. intros l. induction l as [|i l IH]; [done|].
  change (match turn ps (start + i)%nat with
          | Some y => y :: omap (λ i, ps !! ((start + i) mod length ps)%nat) l
          | None => omap (λ i, ps !! ((start + i) mod length ps)%nat) l end =
          match turn ps (start + i)%nat with
          | Some y => y :: omap (turn ps) (Nat.add start <$> l)
          | None => omap (turn ps) (Nat.add start <$> l) end).
  by rewrite IH.
Qed.

(** Rounds with nothing registered or removed in between. *)
Fixpoint rounds (m : nat) (s : scheduler) : list (list jsstr) * scheduler :=
  match m with
  | O => ([], s)
  | S m => let '(served, s1) := runPoll s in
           let '(rest, s2) := rounds m (poll_settled s1) in (served :: rest, s2)
  end.

Lemma rounds_turns m : ∀ s, pollers s ≠ [] → polling s = false →
  let count := Nat.min MAX_POLLS_PER_TICK (length (pollers s)) in
  concat (rounds m s).1 = omap (turn (pollers s)) (seq (cursor s) (m * count)) ∧
  Forall (λ served, ∃ a, served = omap (turn (pollers s)) (seq a count)) (rounds m s).1.
Proof.
  induction m as [|m IH]; intros s Hne Hp; cbv zeta; [by split|].
  set (count := Nat.min MAX_POLLS_PER_TICK (length (pollers s))). cbn [rounds].
  unfold runPoll. rewrite Hp, bool_decide_false by done. fold count. cbv zeta beta iota.
  set (start := (cursor s mod length (pollers s))%nat).
  set (s1 := poll_settled _). specialize (IH s1 Hne eq_refl) as [Hc Hf]. fold count in Hc, Hf.
  change (pollers s1) with (pollers s) in *. destruct (rounds m s1) as [rest s2]. cbn [fst] in *.
  rewrite round_robin_turns. split; [|constructor; [by eexists|done]].
  cbn [concat]. rewrite Hc. change (cursor s1) with ((start + count) mod length (pollers s))%nat.
  rewrite (turns_congruent (pollers s) _ Hne ((start + count) mod length (pollers s)) (start + count))
    by apply Nat.Div0.mod_mod.
  rewrite <- omap_app, <- seq_app. change (S m * count)%nat with (count + m * count)%nat.
  apply turns_congruent; [done|]. apply Nat.Div0.mod_mod.
Qed.

Lemma omap_turn_NoDup ps a count : NoDup ps → (count ≤ length ps)%nat → NoDup (omap (turn ps) (seq a count)).
Proof.
  intros Hnd. induction count as [|count IH]; intros Hle; [constructor|].
  rewrite seq_S, omap_snoc. destruct (turn ps (a + count)) as [k|] eqn:Hk; [|rewrite app_nil_r; apply IH; lia].
  apply NoDup_app. split; [apply IH; lia|]. split; [|apply NoDup_singleton].
  intros x (i & Hi & Hx)%list_elem_of_omap ->%list_elem_of_singleton. apply elem_of_seq in Hi.
  unfold turn in *. pose proof (NoDup_lookup _ _ _ _ Hnd Hx Hk) as Heq.
  assert (length ps ≠ 0)%nat as Hn by lia.
  pose proof (Nat.div_mod i (length ps) Hn). pose proof (Nat.div_mod (a + count) (length ps) Hn).
  rewrite Heq in *. set (q1 := (i / length ps)%nat) in *. set (q2 := ((a + count) / length ps)%nat) in *.
  assert (q1 < q2)%nat by nia. nia.
Qed.

Lemma turn_surjective ps a k count :
  (length ps ≤ count)%nat → k ∈ ps → k ∈ omap (turn ps) (seq a count).
Proof.
  intros Hle [j Hj]%list_elem_of_lookup. pose proof (lookup_lt_Some _ _ _ Hj) as Hlt.
  assert (length ps ≠ 0)%nat as Hn by lia.
  apply list_elem_of_omap. exists (a + (j + length ps - a mod length ps) mod length ps)%nat. split.
  - apply elem_of_seq. pose proof (Nat.mod_upper_bound (j + length ps - a mod length ps) (length ps) Hn). lia.
  - unfold turn. rewrite Nat.Div0.add_mod_idemp_r, <- Nat.Div0.add_mod_idemp_l.
    pose proof (Nat.mod_upper_bound a (length ps) Hn).
    replace (a mod length ps + (j + length ps - a mod length ps))%nat with (j + 1 * length ps)%nat by lia.
    by rewrite Nat.Div0.mod_add, Nat.mod_small.
Qed.

Lemma rounds_reach_all s m key : pollers s ≠ [] → polling s = false → (length (pollers s) ≤ 4 * m)%nat → key ∈ pollers s →
  key ∈ concat (rounds m s).1.
Proof.
  intros Hne Hidle Hm Hkey. rewrite (proj1 (rounds_turns m s Hne Hidle)). apply turn_surjective; [|done].
  unfold MAX_POLLS_PER_TICK. destruct m; lia || nia.
Qed.

(** No expanded transcript is starved: while nothing is opened or closed,
    every round serves at most four different transcripts, and as many rounds
    as it takes to visit all of them in fours serve each of them, wherever the
    cursor stood. *)
Theorem rounds_fair s m
    (Hok : scheduler_ok s) (Hne : pollers s ≠ []) (Hidle : polling s = false)
    (Hm : (length (pollers s) ≤ 4 * m)%nat) :
  Forall (λ served, (length served ≤ 4)%nat ∧ NoDup served ∧ served ⊆ pollers s) (rounds m s).1 ∧
  (∀ key, key ∈ pollers s → ∃ served, served ∈ (rounds m s).1 ∧ key ∈ served).
Proof.
  destruct (rounds_turns m s Hne Hidle) as [Hc Hf]. cbv zeta in *. split.
  - eapply Forall_impl; [exact Hf|]. intros served [a ->]. split_and!.
    + etrans; [apply length_omap_le|]. rewrite length_seq. unfold MAX_POLLS_PER_TICK. lia.
    + apply omap_turn_NoDup; [apply Hok|lia].
    + intros k (i & _ & Hk)%list_elem_of_omap. unfold turn in Hk. by eapply list_elem_of_lookup_2.
  - intros key Hin%(rounds_reach_all s m); [|done..].
    apply list_elem_of_In, in_concat in Hin as (served & Hs & Hk). exists served. by rewrite !list_elem_of_In.
Qed.

Definition example_scheduler : scheduler :=
  poll_settled (foldl (λ s k, (register (js k) s).2) (initial_scheduler false)
    ["a"; "b"; "c"; "d"; "e"; "f"]%string).

Lemma rounds_fair_witness :
  ∃ served, served ∈ (rounds 2 example_scheduler).1 ∧ js "e" ∈ served.
Proof.
  assert (scheduler_ok example_scheduler) as Hok by (split; [decide_closed|vm_compute; reflexivity]).
  assert (pollers example_scheduler ≠ []) as Hne by (vm_compute; discriminate).
  assert (length (pollers example_scheduler) ≤ 4 * 2)%nat as Hm by decide_closed.
  assert (js "e" ∈ pollers example_scheduler) as He by decide_closed.
  destruct (rounds_fair example_scheduler 2 Hok Hne eq_refl Hm) as [_ H]. exact (H (js "e") He).
Defined.

(** C10: One timer and one round at a time: in every reachable state the timer
    is armed exactly when some transcript is registered, at the period of the
    page's visibility; no transcript is registered twice; and never more than
    four polls are running, all started by the one round under way. *)
Theorem scheduler_invariant s run (Hreach : reachable s run) :
  scheduler_ok s ∧ (length run ≤ 4)%nat ∧ (polling s = false → run = []).
Proof.
  assert (∀ s, polling s = true → runPoll s = ([], s)) as Hbusy by (intros s' Hs; unfold runPoll; by rewrite Hs).
  assert (∀ s, (length (runPoll s).1 ≤ 4)%nat) as Hfour.
  { intros s'. unfold runPoll. destruct (polling s'); [cbn; lia|]. case_bool_decide; [cbn; lia|]. cbn [fst].
    unfold round_robin. etrans; [apply length_omap_le|]. rewrite length_seq. unfold MAX_POLLS_PER_TICK. lia. }
  assert (∀ reset s, polling (syncTimer reset s) = polling s) as Hsync.
  { intros reset s'. unfold syncTimer. destruct reset, (bool_decide _) eqn:?; try done; destruct (timer s'); done. }
  induction Hreach as [h|s run started s' Hreach (Hok & Hlen & Hidle) Hstep].
  { split_and!; [|cbn; lia|done]. split; [constructor|done]. }
  split; [by eapply sched_step_ok|]. split.
  - destruct (polling s') eqn:Hp'; [|cbn; lia]. rewrite length_app.
    destruct (polling s) eqn:Hp.
    + assert (started = []) as ->; [|cbn; lia].
      destruct Hstep as [key s|key s|s|h s|s Ht|s _]; try done.
      * unfold register. by rewrite Hbusy by (by rewrite Hsync).
      * unfold onFocus. by rewrite Hbusy.
      * unfold onVisibilityChange. destruct h; [done|]. by rewrite Hbusy by (by rewrite Hsync).
      * by rewrite Hbusy.
    + rewrite Hidle by done. cbn [length Nat.add].
      destruct Hstep as [key s|key s|s|h s|s Ht|s _]; try (cbn; lia); try apply Hfour.
      unfold onVisibilityChange. destruct h; [cbn; lia|apply Hfour].
  - intros ->. done.
Qed.

Lemma scheduler_invariant_witness :
  scheduler_ok (register (js "a") (initial_scheduler true)).2.
Proof.
  refine (proj1 (scheduler_invariant _ _ (reachable_step _ _ _ _ (reachable_init true) (step_register (js "a") _)))).
Defined.
