(* ===== verification/Traces.v ===== *)
(** The trace view ([web/src/pages/sandbox/observability/TracesView.tsx]): the
    traces discovered from events, the waterfall's rows and the positions of
    spans and events in it. *)
From S2P Require Import Prelude JsCollections JsNumber JsText NumText Observability Uri.

Section traces.
Context {A : Type}.
Notation TraceNode := (TraceNode A).
Notation TraceEvent := (TraceEvent A).

(** ** Discovered traces *)

Definition discover_step (acc : list (jsstr * number) * list jsstr) (e : TraceEvent)
    : list (jsstr * number) * list jsstr :=
  if bool_decide (event_trace e ∈ acc.2) then acc
  else (acc.1 ++ [(event_trace e, event_ts e)], acc.2 ++ [event_trace e]).

(** [b.ts - a.ts] as a comparator: only its sign matters, and [NaN] counts as
    equal. *)
Definition compare_newest (a b : jsstr * number) : Z :=
  if num_ltb a.2 b.2 then 1 else if num_ltb b.2 a.2 then -1 else 0.

Definition knownTraces (es : list TraceEvent) : list (jsstr * number) :=
  js_sort compare_newest (foldl discover_step ([], []) es).1.

(** Where a choice leads. *)
Definition selectTrace (i : jsstr) : option jsstr :=
  if bool_decide (i = js "last") then Some (js "../traces")
  else (λ e, js "../traces/" ++ e) <$> encodeURIComponent i.

Definition traceLink (sandboxId traceId : jsstr) : option jsstr :=
  match encodeURIComponent sandboxId, encodeURIComponent traceId with
  | Some s, Some t => Some (js "/sandboxes/" ++ s ++ js "/observability/traces/" ++ t)
  | _, _ => None
  end.

Definition traceLabel (traceId : jsstr) : jsstr :=
  if (12 <? length traceId)%nat then take 12 traceId ++ [8230] else traceId.

(** ** The rows of the waterfall *)

Record FlatSpan := { depth : Z; node : TraceNode }.

Definition node_children (n : TraceNode) : list TraceNode := let '(TNode _ _ children _) := n in children.
Definition node_span (n : TraceNode) : TraceSpan A := let '(TNode s _ _ _) := n in s.
Definition node_offset (n : TraceNode) : number := let '(TNode _ o _ _) := n in o.
Definition node_events (n : TraceNode) : list (TraceEventNode A) := let '(TNode _ _ _ es) := n in es.

(** The loop over the stack, whose top is the head of the list; [None] when
    the fuel does not suffice. *)
Fixpoint flatten_loop (fuel : nat) (stack flattened : list FlatSpan) : option (list FlatSpan) :=
  match stack with
  | [] => Some flattened
  | row :: stack =>
      match fuel with
      | O => None
      | S fuel => flatten_loop fuel
                    (((λ c, {| depth := depth row + 1; node := c |}) <$> node_children (node row)) ++ stack)
                    (flattened ++ [row])
      end
  end.

Definition flatten (fuel : nat) (nodes : list TraceNode) : option (list FlatSpan) :=
  flatten_loop fuel ((λ n, {| depth := 0; node := n |}) <$> nodes) [].

(** ** Positions *)

Definition span_end (row : FlatSpan) : number :=
  num_add (node_offset (node row)) (dur_ms (node_span (node row)) ?? num_zero).

Definition totalMs (rows : list FlatSpan) : number := foldl num_max (num_of_Z 1) (span_end <$> rows).

Definition HUNDRED : number := num_of_Z 100.

Definition span_left (row : FlatSpan) (total : number) : number :=
  num_mul (num_div (node_offset (node row)) total) HUNDRED.

Definition span_width (row : FlatSpan) (total : number) : number :=
  num_max (num_mul (num_div (dur_ms (node_span (node row)) ?? num_zero) total) HUNDRED) (num_of_ratio false 1 2).

Definition event_left (e : TraceEventNode A) (total : number) : number :=
  num_min (num_max (num_mul (num_div (event_offset_ms e) total) HUNDRED) num_zero) (num_of_Z 99).

(** [openSpans]: a click toggles a span's attributes. *)
Definition toggle_span (i : jsstr) (open : gset jsstr) : gset jsstr :=
  if bool_decide (i ∈ open) then open ∖ {[i]} else open ∪ {[i]}.

(** ** Facts: the loop lists the forest in reading order *)

(** Reference: a span, then its children's spans one level deeper. *)
Fixpoint preorder (d : Z) (n : TraceNode) : list FlatSpan :=
  {| depth := d; node := n |} ::
  (let '(TNode _ _ children _) := n in
   (fix go cs := match cs with [] => [] | c :: cs => preorder (d + 1) c ++ go cs end) children).

Definition forest (d : Z) (ns : list TraceNode) : list FlatSpan := ns ≫= preorder d.

Lemma preorder_unfold d n : preorder d n = {| depth := d; node := n |} :: forest (d + 1) (node_children n).
Proof.
  by destruct n.
Qed.

Definition stack_rows (stack : list FlatSpan) : list FlatSpan := stack ≫= λ r, preorder (depth r) (node r).

Lemma stack_rows_level d ns : stack_rows ((λ n, {| depth := d; node := n |}) <$> ns) = forest d ns.
Proof. induction ns as [|n ns IH]; [done|]. unfold stack_rows, forest in *. cbn. by rewrite IH. Qed.

Lemma flatten_loop_rows fuel : ∀ stack flattened,
  (length (stack_rows stack) ≤ fuel)%nat →
  flatten_loop fuel stack flattened = Some (flattened ++ stack_rows stack).
Proof.
  induction fuel as [|fuel IH]; intros [|row stack] flattened Hfuel; cbn [flatten_loop];
    [by rewrite app_nil_r| |by rewrite app_nil_r|].
  - unfold stack_rows in Hfuel. rewrite bind_cons, preorder_unfold in Hfuel. cbn in Hfuel. lia.
  - assert (stack_rows (row :: stack) = row :: stack_rows
              (((λ c, {| depth := depth row + 1; node := c |}) <$> node_children (node row)) ++ stack)) as Hrows.
    { unfold stack_rows at 1. rewrite bind_cons, preorder_unfold. cbn [app].
      unfold stack_rows. rewrite bind_app. fold (stack_rows stack). fold (stack_rows ((λ c, {| depth := depth row + 1; node := c |}) <$> node_children (node row))).
      rewrite stack_rows_level. by destruct row. }
    rewrite Hrows in Hfuel |- *. rewrite IH by (cbn in Hfuel; lia). by rewrite <- app_assoc.
Qed.
End traces.

Arguments FlatSpan : clear implicits.

(** The waterfall's loop terminates and lists every span of the trace
    exactly once, in reading order: a span, then all below it one level
    deeper, then its next sibling. As many turns as there are spans are
    enough, however deep the tree is. *)
Theorem flatten_preorder {A} (nodes : list (TraceNode A)) fuel
    (Hfuel : (length (forest 0 nodes) ≤ fuel)%nat) :
  flatten fuel nodes = Some (forest 0 nodes).
Proof.
  unfold flatten. rewrite flatten_loop_rows by (by rewrite stack_rows_level). by rewrite stack_rows_level.
Qed.

Definition example_span (n : string) : TraceSpan unit :=
  {| span_ts := num_zero; span_trace := js "t"; span_id := js n; span_name := js n; dur_ms := None;
     span_status := js "completed"; span_attrs := ∅ |}.
Definition example_node (n : string) (cs : list (TraceNode unit)) : TraceNode unit :=
  TNode (example_span n) num_zero cs [].

Lemma flatten_preorder_witness :
  option_map (map (λ r, (depth r, span_id (node_span (node r)))))
    (flatten 4 [example_node "a" [example_node "b" [example_node "c" []]]; example_node "d" []])
  = Some [(0, js "a"); (1, js "b"); (2, js "c"); (0, js "d")].
Proof.
  refine (eq_trans (f_equal _ (flatten_preorder [example_node "a" [example_node "b" [example_node "c" []]]; example_node "d" []] 4 _)) _).
  - cbn. lia.
  - reflexivity.
Defined.

(** ** Facts: discovered traces *)

Lemma discover_fold {A} (es : list (TraceEvent A)) :
  let acc := foldl discover_step ([], []) es in
  acc.2 = acc.1.*1 ∧ NoDup acc.1.*1 ∧ (∀ i, i ∈ acc.1.*1 ↔ i ∈ event_trace <$> es).
Proof.
  cbv zeta. induction es as [|e es IH] using rev_ind; [split_and!; [done|constructor|set_solver]|].
  rewrite foldl_snoc. destruct (foldl _ _ _) as [ordered seen]. cbn [fst snd] in IH.
  destruct IH as (-> & Hnd & Hel). unfold discover_step. cbn [fst snd]. case_bool_decide as Hin; cbn [fst snd].
  - split_and!; [done..|]. intros i. rewrite fmap_app, elem_of_app, Hel. cbn.
    split; [by left|]. intros [?|Hi]; [done|]. apply list_elem_of_singleton in Hi as ->. by apply Hel.
  - rewrite fmap_app. cbn. split_and!; [done| |].
    + apply NoDup_app. split; [done|]. split; [set_solver|apply NoDup_singleton].
    + intros i. rewrite !elem_of_app, fmap_app, elem_of_app, Hel. done.
Qed.

(** The trace picker offers every trace that occurs in the recent events,
    each once. *)
Theorem knownTraces_complete {A} (es : list (TraceEvent A)) :
  NoDup (knownTraces es).*1 ∧ ∀ i, i ∈ (knownTraces es).*1 ↔ i ∈ event_trace <$> es.
Proof.
  destruct (discover_fold es) as (_ & Hnd & Hel). unfold knownTraces.
  pose proof (js_sort_perm compare_newest (foldl discover_step ([], []) es).1) as Hperm.
  split; [by rewrite Hperm|]. intros i. by rewrite Hperm.
Qed.
