(* ===== verification/Terminal.v ===== *)
(** The terminal tab ([web/src/pages/sandbox/terminal/TerminalTab.tsx]): which
    session is selected, and how the command ledger is reconciled with the
    commands the daemon reports in flight. *)
From S2P Require Import Prelude JsNumber JsText Json Types Observability Activity Rpc Ledger.

(** ** Selection *)

Inductive TerminalMode := mode_quick | mode_session | mode_all.

#[export] Instance TerminalMode_eq_dec : EqDecision TerminalMode.
Proof. solve_decision. Defined.

(** The search parameters [session] and [view]. *)
Record search_params := { param_session : option jsstr; param_view : option jsstr }.

Definition terminal_workspaces (snapshot : option SnapshotResult) (sandboxId : jsstr) : list WorkspaceSnapshot :=
  match snapshotForSandbox snapshot sandboxId with Some s => workspaces s | None => [] end.

(** [workspaces.find(w => w.workspace_id === session)]; [null] equals none. *)
Definition workspace_of (ws : list WorkspaceSnapshot) (session : option jsstr) : option WorkspaceSnapshot :=
  js_find (λ w, bool_decide (Some (snapshot_workspace_id w) = session)) ws.

Section selection.
Context (snapshot : option SnapshotResult) (sandboxId : jsstr) (params : search_params)
        (optimisticSessionIds finalizationFailedIds : gset jsstr).
Let ws := terminal_workspaces snapshot sandboxId.

Definition selectedSessionMissing : bool :=
  match param_session params with
  | None => false
  | Some s => bool_decide (snapshotForSandbox snapshot sandboxId ≠ None) &&
              bool_decide (workspace_of ws (Some s) = None) &&
              bool_decide (s ∉ optimisticSessionIds)
  end.

Definition selectedSession : option jsstr := if selectedSessionMissing then None else param_session params.

(** A truthy string. *)
Definition truthy_text (o : option jsstr) : bool := bool_decide (o ?? [] ≠ []).

Definition terminal_mode : TerminalMode :=
  if selectedSessionMissing then mode_quick
  else if truthy_text selectedSession then mode_session
  else if bool_decide (param_view params = Some (js "all")) then mode_all
  else mode_quick.

Definition selectedFinalizationState : option WorkspaceFinalizationState :=
  if truthy_text selectedSession && bool_decide (selectedSession ?? [] ∈ finalizationFailedIds)
  then Some finalize_failed
  else finalization_state <$> workspace_of ws selectedSession.

(** What is shown below the ledger. *)
Inductive terminal_footer := footer_choose | footer_unavailable (cleanup : bool) | footer_composer (session : option jsstr).

Definition footer : terminal_footer :=
  match terminal_mode with
  | mode_all => footer_choose
  | mode_session =>
      match selectedFinalizationState with
      | Some finalize_failed => footer_unavailable true
      | Some finalizing => footer_unavailable false
      | _ => footer_composer selectedSession
      end
  | mode_quick => footer_composer None
  end.

Definition visibleLedger (ledger : list LedgerEntry) : list LedgerEntry :=
  match terminal_mode with
  | mode_session => js_filter (λ e, bool_decide (workspaceSessionId e = selectedSession)) ledger
  | mode_quick => js_filter autoPublish ledger
  | mode_all => ledger
  end.

(** The effect that drops a session that is gone from the address. *)
Definition clear_missing : search_params :=
  if selectedSessionMissing then {| param_session := None; param_view := None |} else params.

(** The effect that drops optimistic sessions once they are observed. *)
Definition prune_optimistic : gset jsstr :=
  filter (λ i, i ∉ snapshot_workspace_id <$> ws) optimisticSessionIds.

(** [onSelect] of the sidebar. *)
Definition onSelect (nextMode : TerminalMode) (sessionId : option jsstr) : search_params * gset jsstr :=
  if bool_decide (nextMode = mode_session) && truthy_text sessionId then
    ({| param_session := sessionId; param_view := None |},
     if js_some (λ w, bool_decide (Some (snapshot_workspace_id w) = sessionId)) ws
     then optimisticSessionIds else {[sessionId ?? []]} ∪ optimisticSessionIds)
  else ({| param_session := None; param_view := if bool_decide (nextMode = mode_all) then Some (js "all") else None |},
        optimisticSessionIds).
End selection.

(** ** Reconciling the ledger *)

(** The commands in flight, keyed by command session, in the order of the
    [Map]: setting a present key keeps its place. *)
Definition flight := (jsstr * (jsstr * option jsstr))%type.

Fixpoint flight_set (f : flight) (fs : list flight) : list flight :=
  match fs with
  | [] => [f]
  | g :: fs => if bool_decide (g.1 = f.1) then f :: fs else g :: flight_set f fs
  end.

Definition flight_get (i : jsstr) (fs : list flight) : option (jsstr * option jsstr) :=
  snd <$> js_find (λ f, bool_decide (f.1 = i)) fs.

Definition inFlight (ws : list WorkspaceSnapshot) : list flight :=
  foldl (λ fs w, foldl (λ fs e, flight_set (namespace_execution_id e, (snapshot_workspace_id w, execution_command e)) fs)
                   fs (active_namespace_executions w)) [] ws.

Definition with_cmd (e : LedgerEntry) (c : jsstr) : LedgerEntry :=
  {| localId := localId e; commandSessionId := commandSessionId e; cmd := c;
     workspaceSessionId := workspaceSessionId e; autoPublish := autoPublish e; startedAt := startedAt e;
     entry_status := entry_status e; entry_exitCode := entry_exitCode e; endedAt := endedAt e;
     inlineOutput := inlineOutput e; entry_publishRejected := entry_publishRejected e;
     entry_publishRejectClass := entry_publishRejectClass e |}.

(** The command text of the snapshot, when it says something else than the
    entry. *)
Definition better_command (fs : list flight) (e : LedgerEntry) : option jsstr :=
  match commandSessionId e with
  | Some i => if bool_decide (i = []) then None
              else match flight_get i fs with
                   | Some (_, Some c) => if bool_decide (c = []) || bool_decide (c = cmd e) then None else Some c
                   | _ => None
                   end
  | None => None
  end.

Definition reconcile_entry (fs : list flight) (e : LedgerEntry) : LedgerEntry :=
  match better_command fs e with Some c => with_cmd e c | None => e end.

Definition known_commands (l : list LedgerEntry) : list jsstr := omap commandSessionId l.

(** The new entries. [uuid] and [now] are what [crypto.randomUUID()] and
    [Date.now()] give for each. *)
Definition additions (uuid : jsstr → jsstr) (now : Z) (known : list jsstr) (fs : list flight) : list LedgerEntry :=
  (λ f, entryFromSnapshot (uuid f.1) now f.1 f.2.1 f.2.2) <$> js_filter (λ f, negb (bool_decide (f.1 ∈ known))) fs.

(** The updater of the effect; [None]: the very same array is returned and
    nothing renders again. *)
Definition reconcile (uuid : jsstr → jsstr) (now : Z) (fs : list flight) (current : list LedgerEntry)
    : option (list LedgerEntry) :=
  let reconciled := reconcile_entry fs <$> current in
  let added := additions uuid now (known_commands reconciled) fs in
  let changed := js_some (λ e, bool_decide (better_command fs e ≠ None)) current in
  if negb (bool_decide (added = [])) || changed then Some (reconciled ++ added) else None.

Definition reconciled_ledger (uuid : jsstr → jsstr) (now : Z) (fs : list flight) (current : list LedgerEntry)
    : list LedgerEntry := reconcile uuid now fs current ?? current.

(** ** Settling commands that left the snapshot *)

(** The entries to ask about, and the set of commands being asked about. *)
Definition settle_step (fs : list flight) (acc : list (jsstr * jsstr) * gset jsstr) (e : LedgerEntry)
    : list (jsstr * jsstr) * gset jsstr :=
  match commandSessionId e with
  | Some i =>
      if negb (bool_decide (entry_status e = running)) || bool_decide (i = []) ||
         bool_decide (flight_get i fs ≠ None) || bool_decide (i ∈ acc.2)
      then acc
      else (acc.1 ++ [(localId e, i)], {[i]} ∪ acc.2)
  | None => acc
  end.

Definition settle_requests (fs : list flight) (finalizing : gset jsstr) (ledger : list LedgerEntry)
    : list (jsstr * jsstr) * gset jsstr := foldl (settle_step fs) ([], finalizing) ledger.

(** The request for one of them. *)
Definition settle_request (fetch : jsstr → jsstr → fetched) (sandboxId commandId : jsstr) : outcome RpcError json :=
  rpc fetch (js "read_command_lines") (sandboxScope sandboxId)
    [(js "command_session_id", JStr commandId); (js "start_offset", JNum (num_of_Z 0)); (js "limit", JNum (num_of_Z 1))].

Definition patchEntry (i : jsstr) (patch : LedgerEntry → LedgerEntry) (current : list LedgerEntry) : list LedgerEntry :=
  (λ e, if bool_decide (localId e = i) then patch e else e) <$> current.

(** What the answer does to the entry; [now] is [Date.now()]. *)
Definition settled_patch (out : CommandOutput) (now : Z) (e : LedgerEntry) : LedgerEntry :=
  {| localId := localId e; commandSessionId := commandSessionId e; cmd := cmd e;
     workspaceSessionId := workspaceSessionId e; autoPublish := autoPublish e; startedAt := startedAt e;
     entry_status := out_status out; entry_exitCode := out_exit_code out; endedAt := Some now;
     inlineOutput := inlineOutput e;
     entry_publishRejected := bool_decide (publish_rejected out = Some true);
     entry_publishRejectClass := publish_reject_class out |}.

Definition settle_answer (out : CommandOutput) (now : Z) (i : jsstr) (ledger : list LedgerEntry) : list LedgerEntry :=
  if bool_decide (out_status out = running) then ledger else patchEntry i (settled_patch out now) ledger.

(** [onLaunched]: the entry is appended and expanded. *)
Definition onLaunched (entry : LedgerEntry) (ledger : list LedgerEntry) (expanded : gset jsstr)
    : list LedgerEntry * gset jsstr := (ledger ++ [entry], {[localId entry]} ∪ expanded).

(** ** Facts: finding a workspace *)

Lemma workspace_of_some ws i w : workspace_of ws (Some i) = Some w → w ∈ ws ∧ snapshot_workspace_id w = i.
Proof.
  unfold workspace_of. intros (l1 & l2 & -> & Heq & _)%js_find_Some. apply bool_decide_eq_true in Heq.
  split; [set_solver|congruence].
Qed.

Lemma workspace_of_unique ws w : NoDup (snapshot_workspace_id <$> ws) → w ∈ ws → workspace_of ws (Some (snapshot_workspace_id w)) = Some w.
Proof.
  intros Hnd Hw. unfold workspace_of. destruct (js_find _ ws) as [u|] eqn:Hu.
  - apply js_find_Some in Hu as (l1 & l2 & -> & Heq & _). apply bool_decide_eq_true in Heq. injection Heq as Heq.
    f_equal. rewrite fmap_app, fmap_cons in Hnd. apply NoDup_app in Hnd as (_ & Hn1 & Hn2).
    apply NoDup_cons in Hn2 as [Hn2 _]. apply elem_of_app in Hw as [Hw|[->|Hw]%elem_of_cons]; [| done |].
    + exfalso. apply (Hn1 (snapshot_workspace_id w)); [by apply list_elem_of_fmap_2|]. rewrite <- Heq. set_solver.
    + exfalso. apply Hn2. rewrite Heq. by apply list_elem_of_fmap_2.
  - apply js_find_None in Hu. rewrite Forall_forall in Hu. specialize (Hu w Hw). by rewrite bool_decide_true in Hu.
Qed.

Lemma workspace_of_none ws : workspace_of ws None = None.
Proof.
  unfold workspace_of. destruct (js_find _ ws) as [w|] eqn:Hw; [|done]. apply js_find_Some in Hw as (l1 & l2 & _ & H & _).
  by apply bool_decide_eq_true in H.
Qed.

(** ** Facts: reconciling *)

Lemma flight_set_keys f fs i : i ∈ (flight_set f fs).*1 ↔ i = f.1 ∨ i ∈ fs.*1.
Proof.
  induction fs as [|g fs IH]; cbn [flight_set]; [set_solver|]. case_bool_decide as Hg; [set_solver|].
  rewrite !fmap_cons, !elem_of_cons, IH. tauto.
Qed.

Lemma flight_set_NoDup f fs : NoDup fs.*1 → NoDup (flight_set f fs).*1.
Proof.
  induction fs as [|g fs IH]; cbn [flight_set]; [intros _; apply NoDup_singleton|].
  rewrite fmap_cons, NoDup_cons. intros [Hg Hfs]. case_bool_decide as Heq.
  - rewrite fmap_cons, NoDup_cons, <- Heq. done.
  - rewrite fmap_cons, NoDup_cons, flight_set_keys. split; [|by apply IH]. naive_solver.
Qed.

Lemma inFlight_NoDup ws : NoDup (inFlight ws).*1.
Proof.
  unfold inFlight. apply (foldl_invariant (λ fs : list flight, NoDup fs.*1)); [|constructor].
  intros fs w Hfs. apply (foldl_invariant (λ fs : list flight, NoDup fs.*1)); [|done].
  intros fs' e. apply flight_set_NoDup.
Qed.

Lemma flight_get_NoDup fs f : NoDup fs.*1 → f ∈ fs → flight_get f.1 fs = Some f.2.
Proof.
  intros Hnd Hf. unfold flight_get. destruct (js_find _ fs) as [g|] eqn:Hg.
  - apply js_find_Some in Hg as (l1 & l2 & -> & Heq & _). apply bool_decide_eq_true in Heq.
    assert (g = f) as ->; [|done]. apply list_elem_of_lookup in Hf as [j Hj].
    assert ((l1 ++ g :: l2).*1 !! length l1 = Some f.1) as H1.
    { rewrite list_lookup_fmap, lookup_app_r, Nat.sub_diag by lia. cbn. by rewrite Heq. }
    assert ((l1 ++ g :: l2).*1 !! j = Some f.1) as H2 by (rewrite list_lookup_fmap, Hj; done).
    pose proof (NoDup_lookup _ _ _ _ Hnd H1 H2) as <-. rewrite lookup_app_r, Nat.sub_diag in Hj by lia.
    by injection Hj.
  - apply js_find_None in Hg. rewrite Forall_forall in Hg. specialize (Hg f Hf).
    by apply bool_decide_eq_false in Hg.
Qed.

Lemma reconcile_entry_same fs e :
  localId (reconcile_entry fs e) = localId e ∧ commandSessionId (reconcile_entry fs e) = commandSessionId e ∧
  with_cmd (reconcile_entry fs e) (cmd e) = e.
Proof. unfold reconcile_entry. destruct (better_command fs e); by destruct e. Qed.

Lemma reconcile_entry_settled fs e : better_command fs (reconcile_entry fs e) = None.
Proof.
  unfold reconcile_entry. destruct (better_command fs e) as [c|] eqn:Hb; [|done].
  revert Hb. unfold better_command. cbn [with_cmd commandSessionId cmd].
  destruct (commandSessionId e) as [i|]; [|done]. case_bool_decide; [done|].
  destruct (flight_get i fs) as [[w [c'|]]|]; [|done..].
  destruct (_ || _); [done|]. intros [= ->]. rewrite (bool_decide_true (c = c)) by done. by rewrite orb_true_r.
Qed.

Lemma added_settled uuid now fs f :
  NoDup fs.*1 → f ∈ fs → better_command fs (entryFromSnapshot (uuid f.1) now f.1 f.2.1 f.2.2) = None.
Proof.
  intros Hnd Hf. unfold better_command. cbn [entryFromSnapshot commandSessionId cmd]. case_bool_decide; [done|].
  rewrite flight_get_NoDup by done. destruct f as [i [w [c|]]]; [|done]. cbn [fst snd default from_option].
  unfold Datatypes.id. case_bool_decide; [done|]. by rewrite bool_decide_true.
Qed.

Lemma known_reconciled fs l : known_commands (reconcile_entry fs <$> l) = known_commands l.
Proof.
  unfold known_commands. induction l as [|e l IH]; [done|].
  change (match commandSessionId (reconcile_entry fs e) with
          | Some y => y :: omap commandSessionId (reconcile_entry fs <$> l)
          | None => omap commandSessionId (reconcile_entry fs <$> l) end =
          match commandSessionId e with Some y => y :: omap commandSessionId l | None => omap commandSessionId l end).
  destruct (reconcile_entry_same fs e) as (_ & -> & _). by rewrite IH.
Qed.

Lemma known_additions uuid now known fs :
  known_commands (additions uuid now known fs) = (js_filter (λ f, negb (bool_decide (f.1 ∈ known))) fs).*1.
Proof.
  assert (∀ l : list flight, omap commandSessionId
    ((λ f, entryFromSnapshot (uuid f.1) now f.1 f.2.1 f.2.2) <$> l) = l.*1) as H; [|apply H].
  intros l. induction l as [|f l IH]; [done|]. cbn. f_equal. exact IH.
Qed.

(** The ledger after the effect, whether it changed or not. *)
Lemma reconciled_ledger_eq uuid now fs current :
  reconciled_ledger uuid now fs current =
  (reconcile_entry fs <$> current) ++ additions uuid now (known_commands current) fs.
Proof.
  unfold reconciled_ledger, reconcile. rewrite known_reconciled.
  destruct (bool_decide_reflect (additions uuid now (known_commands current) fs = [])) as [->|?]; [|done]. cbn [negb orb].
  destruct (js_some _ current) eqn:Hc; [done|]. cbn [default from_option]. rewrite app_nil_r.
  rewrite js_some_none in Hc. symmetry.
  induction current as [|e l IH]; [done|]. cbn [fmap list_fmap]. rewrite IH by (intros; apply Hc; set_solver).
  f_equal. unfold reconcile_entry. specialize (Hc e ltac:(set_solver)). apply bool_decide_eq_false in Hc.
  destruct (better_command fs e); [|done]. by destruct Hc.
Qed.

Lemma additions_known uuid now current fs i :
  i ∈ known_commands (additions uuid now (known_commands current) fs) ↔ i ∈ fs.*1 ∧ i ∉ known_commands current.
Proof.
  rewrite known_additions, !list_elem_of_fmap. setoid_rewrite js_filter_elem.
  setoid_rewrite negb_true_iff. setoid_rewrite bool_decide_eq_false. naive_solver.
Qed.

Lemma reconcile_twice uuid now uuid' now' fs current : NoDup fs.*1 →
  reconcile uuid' now' fs ((reconcile_entry fs <$> current) ++ additions uuid now (known_commands current) fs) = None.
Proof.
  intros Hnd. set (after := _ ++ _).
  assert (∀ i, i ∈ fs.*1 → i ∈ known_commands after) as Hall.
  { intros i Hi. unfold after, known_commands at 1. rewrite omap_app, elem_of_app. fold (known_commands (reconcile_entry fs <$> current)).
    fold (known_commands (additions uuid now (known_commands current) fs)). rewrite known_reconciled, additions_known.
    destruct (decide (i ∈ known_commands current)); auto. }
  unfold reconcile. rewrite known_reconciled. assert (additions uuid' now' (known_commands after) fs = []) as ->.
  { apply elem_of_nil_inv. intros e (f & _ & [Hf Hn]%js_filter_elem)%list_elem_of_fmap.
    apply negb_true_iff, bool_decide_eq_false in Hn. by apply Hn, Hall, list_elem_of_fmap_2. }
  rewrite bool_decide_true by done. cbn [negb orb]. replace (js_some _ after) with false; [done|]. symmetry. apply js_some_none.
  intros e He. apply bool_decide_eq_false. intros H. apply H. apply elem_of_app in He as [He|He].
  - apply list_elem_of_fmap in He as (e' & -> & _). apply reconcile_entry_settled.
  - unfold additions in He. apply list_elem_of_fmap in He as (f & -> & [Hf _]%js_filter_elem). by apply added_settled.
Qed.

(** What the snapshot reports in flight, in its order; of a command reported
    more than once the last report counts. *)
Definition reports (ws : list WorkspaceSnapshot) : list flight :=
  w ← ws; (λ e, (namespace_execution_id e, (snapshot_workspace_id w, execution_command e))) <$> active_namespace_executions w.

Definition last_report (ws : list WorkspaceSnapshot) (i : jsstr) : option (jsstr * option jsstr) :=
  snd <$> last (js_filter (λ f, bool_decide (f.1 = i)) (reports ws)).

(** The text of a command: what the snapshot says, if it says something. *)
Definition reported_text (ws : list WorkspaceSnapshot) (e : LedgerEntry) : jsstr :=
  match commandSessionId e with
  | Some (u :: i) => match last_report ws (u :: i) with Some (_, Some (v :: c)) => v :: c | _ => cmd e end
  | _ => cmd e
  end.

Lemma inFlight_reports ws : inFlight ws = foldl (λ fs f, flight_set f fs) [] (reports ws).
Proof.
  unfold inFlight, reports. generalize ([] : list flight). induction ws as [|w ws IH]; intros fs; [done|].
  cbn [foldl mbind list_bind]. rewrite foldl_app, IH. f_equal.
  generalize (active_namespace_executions w) fs. induction l as [|e l IHl]; intros fs'; [done|apply IHl].
Qed.

Lemma flight_get_set f fs i : flight_get i (flight_set f fs) = if bool_decide (f.1 = i) then Some f.2 else flight_get i fs.
Proof.
  unfold flight_get, js_find. induction fs as [|g fs IH]; cbn [flight_set List.find fmap option_fmap option_map].
  - by destruct (bool_decide (f.1 = i)).
  - destruct (bool_decide_reflect (g.1 = f.1)) as [Hg|Hg]; cbn [List.find].
    + rewrite Hg. by destruct (bool_decide (f.1 = i)).
    + destruct (bool_decide_reflect (g.1 = i)) as [Hi|Hi]; [|exact IH].
      rewrite bool_decide_false by congruence. done.
Qed.

Lemma flight_get_inFlight ws i : flight_get i (inFlight ws) = last_report ws i.
Proof.
  rewrite inFlight_reports. unfold last_report. induction (reports ws) as [|f fs IH] using rev_ind; [done|].
  rewrite foldl_app, js_filter_app. cbn [foldl List.filter]. rewrite flight_get_set, IH.
  case_bool_decide; [by rewrite last_snoc|by rewrite app_nil_r].
Qed.

Lemma inFlight_keys ws i : i ∈ (inFlight ws).*1 ↔ i ∈ (reports ws).*1.
Proof.
  rewrite inFlight_reports. induction (reports ws) as [|f fs IH] using rev_ind; [done|].
  rewrite foldl_app, fmap_app, elem_of_app, <- IH. cbn [foldl fmap list_fmap]. rewrite flight_set_keys, list_elem_of_singleton. tauto.
Qed.

Lemma reconcile_entry_text ws e : reconcile_entry (inFlight ws) e = with_cmd e (reported_text ws e).
Proof.
  unfold reconcile_entry, better_command, reported_text. assert (with_cmd e (cmd e) = e) as Hsame by by destruct e.
  destruct (commandSessionId e) as [[|u i]|]; [done| |done]. rewrite bool_decide_false, flight_get_inFlight by done.
  destruct (last_report ws (u :: i)) as [[w [[|v c]|]]|]; [done| |done..]. cbn [orb].
  rewrite (bool_decide_false (v :: c = [])) by done. cbn [orb]. case_bool_decide as Hc; [by rewrite Hc|done].
Qed.

(** C32: The ledger follows the snapshot without losing history: existing
    entries stay, in order and with nothing changed but their command text,
    which is what the snapshot reports for their command, if it reports a text;
    every command in flight that had no entry gets exactly one, after them,
    that is running, in the workspace and with the text reported; and
    reconciling again with the same snapshot changes nothing, so the effect
    does not loop. *)
Theorem reconcile_spec uuid now uuid' now' ws current :
  let after := reconciled_ledger uuid now (inFlight ws) current in
  (∃ added, after = ((λ e, with_cmd e (reported_text ws e)) <$> current) ++ added ∧
     NoDup (known_commands added) ∧
     (∀ i, i ∈ known_commands added ↔ i ∈ (reports ws).*1 ∧ i ∉ known_commands current) ∧
     (∀ e, e ∈ added → ∃ i w c, last_report ws i = Some (w, c) ∧ commandSessionId e = Some i ∧ localId e = uuid i ∧
        workspaceSessionId e = Some w ∧ entry_status e = running ∧ autoPublish e = false ∧ startedAt e = now ∧
        (∀ t, c = Some t → t ≠ [] → cmd e = t))) ∧
  reconcile uuid' now' (inFlight ws) after = None.
Proof.
  cbv zeta. set (fs := inFlight ws). assert (NoDup fs.*1) as Hnd by apply inFlight_NoDup.
  assert (∀ i, i ∈ fs.*1 ↔ i ∈ (reports ws).*1) as Hkeys by apply inFlight_keys.
  rewrite reconciled_ledger_eq. split.
  - exists (additions uuid now (known_commands current) fs). split_and!.
    + f_equal. apply list_fmap_ext. intros _ e _. apply reconcile_entry_text.
    + rewrite known_additions. eapply sublist_NoDup; [exact Hnd|]. apply fmap_sublist, js_filter_sublist.
    + intros i. by rewrite additions_known, Hkeys.
    + intros e (f & -> & [Hf _]%js_filter_elem)%list_elem_of_fmap. exists f.1, f.2.1, f.2.2.
      pose proof (flight_get_NoDup fs f Hnd Hf) as Hget. unfold fs in Hget. rewrite flight_get_inFlight in Hget.
      rewrite Hget. split; [by destruct f as [? []]|].
      cbn. split_and!; try done. intros t -> Ht. cbn. by rewrite bool_decide_false.
  - by apply reconcile_twice.
Qed.

(** ** Facts: the selection *)

(** A composer with a session targets the selected one, which is not being
    finalized. *)
Lemma footer_composer_spec snapshot sandboxId params optimistic failedIds target :
  footer snapshot sandboxId params optimistic failedIds = footer_composer (Some target) →
  selectedSession snapshot sandboxId params optimistic = Some target ∧ target ∉ failedIds ∧
  (∀ w, workspace_of (terminal_workspaces snapshot sandboxId) (Some target) = Some w → finalization_state w = finalization_active) ∧
  terminal_mode snapshot sandboxId params optimistic = mode_session.
Proof.
  unfold footer. destruct (terminal_mode _ _ _ _) eqn:Hmode; [done| |done].
  set (session := selectedSession snapshot sandboxId params optimistic) in *.
  assert (truthy_text session = true) as Ht.
  { unfold terminal_mode in Hmode. fold session in Hmode. destruct (selectedSessionMissing _ _ _ _); [done|].
    destruct (truthy_text session); [done|]. by destruct (bool_decide (param_view params = Some (js "all"))). }
  destruct (selectedFinalizationState _ _ _ _ _) as [[]|] eqn:Hfin; try done; intros [= Hs].
  all: unfold selectedFinalizationState in Hfin; fold session in Hfin; rewrite Ht, Hs in Hfin; cbn [default from_option andb] in Hfin.
  all: unfold Datatypes.id in Hfin; destruct (bool_decide_reflect (target ∈ failedIds)); [done|].
  all: split_and!; try done; intros w Hw; rewrite Hw in Hfin; cbn in Hfin; congruence.
Qed.

(** The terminal never targets a session that is gone: once the sandbox's
    snapshot is known, a selected session is in it or was just created here; a
    requested session that is neither falls back to quick runs and is dropped
    from the address; the ledger shown and the composer's target are those of
    the selected session; and no command can be composed in a session that is
    being finalized. *)
Theorem terminal_selection snapshot sandboxId params optimistic failedIds ledger :
  let ws := terminal_workspaces snapshot sandboxId in
  let session := selectedSession snapshot sandboxId params optimistic in
  (∀ s, session = Some s →
     snapshotForSandbox snapshot sandboxId = None ∨ s ∈ optimistic ∨
     ∃ w, w ∈ ws ∧ snapshot_workspace_id w = s) ∧
  (session ≠ param_session params →
     terminal_mode snapshot sandboxId params optimistic = mode_quick ∧
     param_session (clear_missing snapshot sandboxId params optimistic) = None) ∧
  (∀ target, footer snapshot sandboxId params optimistic failedIds = footer_composer (Some target) →
     session = Some target ∧ target ∉ failedIds ∧
     (∀ w, workspace_of ws (Some target) = Some w → finalization_state w = finalization_active) ∧
     visibleLedger snapshot sandboxId params optimistic ledger =
       js_filter (λ e, bool_decide (workspaceSessionId e = Some target)) ledger).
Proof.
  cbv zeta. split_and!.
  - intros s. unfold selectedSession. destruct (selectedSessionMissing _ _ _ _) eqn:Hm; [done|].
    unfold selectedSessionMissing in Hm. intros Hs. rewrite Hs in Hm.
    apply andb_false_iff in Hm as [Hm|Hm]; [apply andb_false_iff in Hm as [Hm|Hm]|].
    + left. apply bool_decide_eq_false in Hm. by apply dec_stable.
    + right; right. apply bool_decide_eq_false in Hm. unfold workspace_of in Hm.
      destruct (js_find _ _) as [w|] eqn:Hw; [|done].
      apply js_find_Some in Hw as (l1 & l2 & -> & Heq & _). apply bool_decide_eq_true in Heq.
      exists w. split; [set_solver|congruence].
    + right; left. apply bool_decide_eq_false in Hm. by apply dec_stable.
  - unfold selectedSession, terminal_mode, clear_missing.
    destruct (selectedSessionMissing _ _ _ _); [done|]. done.
  - intros target (Hsel & Hfailed & Hw & Hmode)%footer_composer_spec. split_and!; try done.
    unfold visibleLedger. by rewrite Hmode, Hsel.
Qed.
