(* ===== verification/SessionActions.v ===== *)
(** What happens when a workspace session is closed
    ([web/src/pages/sandbox/terminal/WorkspaceSessionActions.tsx] and
    [closeProblem] of [SessionSidebar.tsx]): the classification of a failed
    publication by the details the daemon sends with it, and the buttons and
    notices of a session's row. *)
From S2P Require Import Prelude JsNumber JsText Json Types Rpc.

(** A value a [catch] receives: an [RpcError], another [Error], or anything
    else, with the text [String(error)] gives. *)
Inductive thrown := ThrownRpc (e : RpcError) | ThrownError (message : jsstr) | ThrownOther (text : jsstr).

(** [error instanceof Error ? error.message : String(error)]. *)
Definition thrown_message (e : thrown) : json :=
  match e with ThrownRpc e => err_message e | ThrownError m => JStr m | ThrownOther t => JStr t end.

(** ** Problems *)

Record protected_guidance := { guided_path : option jsstr; guided_reason : jsstr; guidance : jsstr }.

(** The union's members; [retained_message] and [retained_title] are the texts
    shown, [retained_active] is [None] when the field is absent. *)
Inductive WorkspaceSessionProblem :=
  | problem_retained (title message : jsstr) (path reason : option jsstr)
      (protectedDrop : option protected_guidance) (active : option (list jsstr)) (conflict : bool)
  | problem_cleanup (publish : json)
  | problem_failed (title message : json).

Definition isRecord (v : json) : bool := match v with JObj _ => true | _ => false end.

Definition protectedDropGuidance (reason : jsstr) : jsstr :=
  if bool_decide (reason = js "unsupported_special_file")
  then js "Remove or replace this unsupported special file before retrying."
  else if bool_decide (reason = js "invalid_layer_path")
  then js "Rename or remove this invalid LayerStack path before retrying."
  else if bool_decide (reason = js "command_scratch_path")
  then js "Move the change outside the command scratch path before retrying."
  else js "Resolve this blocked change before retrying the publish.".

(** [isRecord(o) ? o : null]. *)
Definition as_record (o : option json) : option json :=
  match o with Some v => if isRecord v then Some v else None | None => None end.

(** [typeof o === "string" ? o : undefined]. *)
Definition text_of (o : option json) : option jsstr :=
  match o with Some (JStr s) => Some s | _ => None end.

(** [v.filter((id): id is string => typeof id === "string")] of an array. *)
Definition string_items (o : option json) : list jsstr :=
  match o with Some (JArr l) => omap (λ v, text_of (Some v)) l | _ => [] end.

(** The condition under which the publication itself went through. *)
Definition publish_went_through (details : json) : bool :=
  bool_decide (text_of (get "stage" details) = Some (js "destroy")) &&
  match get "publish_completed" details with Some (JBool true) => true | _ => false end &&
  match as_record (get "publish" details) with
  | Some p => bool_decide (as_record (get "revision" p) ≠ None) && bool_decide (as_record (get "route_summary" p) ≠ None)
  | None => false
  end.

Definition NOT_STARTED : jsstr := js "Publishing did not start. The complete session delta was retained.".
Definition NOTHING_COMMITTED : jsstr :=
  js "No LayerStack changes were committed. The complete unpublished delta remains available in this session.".

(** The report of a rejection ([None]: the details carry none). *)
Definition rejected_problem (rejection : option json) : WorkspaceSessionProblem :=
  let sourceConflict := as_record (rejection ≫= get "source_conflict") in
  let protectedDrop := as_record (rejection ≫= get "protected_drop") in
  let protectedDropPath := text_of (protectedDrop ≫= get "path") in
  let protectedDropReason := text_of (protectedDrop ≫= get "reason") in
  let reason := text_of (rejection ≫= get "reason") in
  let path := match text_of (rejection ≫= get "path") with
              | Some p => Some p
              | None => match text_of (sourceConflict ≫= get "path") with
                        | Some p => Some p
                        | None => protectedDropPath
                        end
              end in
  let conflict := bool_decide (reason = Some (js "source_conflict")) in
  problem_retained
    (if conflict then js "Publish conflict; session retained" else js "Publish rejected; session retained")
    NOTHING_COMMITTED path reason
    match protectedDropReason with
    | Some r => if bool_decide (r = []) then None
                else Some {| guided_path := protectedDropPath; guided_reason := r; guidance := protectedDropGuidance r |}
    | None => None
    end None conflict.

Definition closeProblem (error : thrown) : WorkspaceSessionProblem :=
  match error with
  | ThrownRpc e =>
      let details := err_details e in
      if negb (isRecord details) then problem_failed (JStr (js "Publish could not be completed")) (err_message e)
      else if publish_went_through details then problem_cleanup (get "publish" details ?? JNull)
      else
        let activeCommandSessionIds := string_items (get "active_command_session_ids" details) in
        if bool_decide (activeCommandSessionIds ≠ [])
        then problem_retained (js "Stop active commands first") NOT_STARTED None None None
               (Some activeCommandSessionIds) false
        else
          let rejection := as_record (get "publish_rejection" details) in
          let retained := match get "session_retained" details with Some (JBool true) => true | _ => false end in
          if retained || bool_decide (rejection ≠ None) then rejected_problem rejection
          else problem_failed (err_kind e) (err_message e)
  | _ => problem_failed (JStr (js "Publish could not be completed")) (thrown_message error)
  end.

(** ** Buttons of a row *)

Inductive WorkspaceSessionAction := action_publish | action_discard.

#[export] Instance WorkspaceSessionAction_eq_dec : EqDecision WorkspaceSessionAction.
Proof. solve_decision. Defined.

Inductive row_button := button_cleanup | button_keep | button_confirm | button_publish | button_discard.

#[export] Instance row_button_eq_dec : EqDecision row_button.
Proof. solve_decision. Defined.

(** The buttons shown, with whether they can be pressed. *)
Definition action_buttons (cleanupRequired discardConfirmation mutationBusy : bool) (disabledReason : option jsstr)
    : list (row_button * bool) :=
  let disabled := mutationBusy || bool_decide (disabledReason ≠ None) in
  if cleanupRequired then [(button_cleanup, negb disabled)]
  else if discardConfirmation then [(button_keep, negb mutationBusy); (button_confirm, negb disabled)]
  else [(button_publish, negb disabled); (button_discard, negb disabled)].

(** Which of them shows that its action is under way. *)
Definition button_loading (busyAction : option WorkspaceSessionAction) (b : row_button) : bool :=
  match b with
  | button_cleanup | button_confirm => bool_decide (busyAction = Some action_discard)
  | button_publish => bool_decide (busyAction = Some action_publish)
  | button_keep | button_discard => false
  end.

(** The title of a button. *)
Definition button_title (id : jsstr) (disabledReason : option jsstr) (b : row_button) : jsstr :=
  match b with
  | button_cleanup => disabledReason ?? js "Finish cleanup for " ++ id
  | button_keep => js "Keep workspace session"
  | button_confirm => disabledReason ?? js "Confirm discard and close"
  | button_publish => disabledReason ?? js "Publish " ++ id ++ js " to LayerStack and close it"
  | button_discard => disabledReason ?? js "Discard unpublished changes in " ++ id
  end.

(** ** Notices of a row *)

Inductive notice := notice_confirm | notice_reason (text : jsstr) | notice_cleanup (publish : option json)
  | notice_problem (p : WorkspaceSessionProblem).

Definition is_cleanup (p : option WorkspaceSessionProblem) : option json :=
  match p with Some (problem_cleanup publish) => Some publish | _ => None end.

Definition feedback (cleanupRequired discardConfirmation : bool) (disabledReason : option jsstr)
    (problem : option WorkspaceSessionProblem) : list notice :=
  (if discardConfirmation then [notice_confirm] else []) ++
  match disabledReason with Some r => if bool_decide (r = []) then [] else [notice_reason r] | None => [] end ++
  (if cleanupRequired || bool_decide (is_cleanup problem ≠ None) then [notice_cleanup (is_cleanup problem)] else []) ++
  match problem with
  | Some (problem_cleanup _) | None => []
  | Some p => [notice_problem p]
  end.

(** ** The details on the wire

    The shapes the two interfaces of [types.ts] give the details; the states
    of a conflicting path, which nothing reads, are [states]. *)

Definition null_or {A} (f : A → json) (o : option A) : json := match o with Some a => f a | None => JNull end.

Definition rejection_reason_string (r : WorkspaceSessionPublishRejectionReason) : jsstr :=
  match r with
  | invalid_base_revision => js "invalid_base_revision"
  | protected_path => js "protected_path"
  | source_conflict_reason => js "source_conflict"
  | opaque_dir_protected_descendant => js "opaque_dir_protected_descendant"
  | opaque_dir_mixed_routes => js "opaque_dir_mixed_routes"
  | opaque_dir_expansion_limit => js "opaque_dir_expansion_limit"
  | route_preparation_failed => js "route_preparation_failed"
  end.

Definition drop_reason_string (r : WorkspaceSessionProtectedDropReason) : jsstr :=
  match r with
  | unsupported_special_file => js "unsupported_special_file"
  | invalid_layer_path => js "invalid_layer_path"
  | command_scratch_path => js "command_scratch_path"
  end.

Section wire.
Context (states : json * json).

Definition conflict_json (c : SourceConflict) : json :=
  JObj [(js "path", JStr (conflict_path c)); (js "expected", states.1); (js "actual", states.2)].

Definition drop_json (d : ProtectedDrop) : json :=
  JObj (match drop_path d with Some p => [(js "path", JStr p)] | None => [] end ++
        [(js "reason", JStr (drop_reason_string (drop_reason d)))]).

Definition rejection_json (r : WorkspaceSessionPublishRejection) : json :=
  JObj [(js "path", null_or JStr (rejection_path r));
        (js "reason", JStr (rejection_reason_string (rejection_reason r)));
        (js "source_conflict", null_or conflict_json (source_conflict r));
        (js "protected_drop", null_or drop_json (protected_drop r));
        (js "message", null_or JStr (rejection_message r))].

Definition retained_json (d : WorkspaceSessionPublishRetainedDetails) : json :=
  JObj ([(js "workspace_session_id", JStr (retained_session_id d));
         (js "stage", JStr (match retained_stage d with stage_capture => js "capture" | stage_publish => js "publish" end));
         (js "session_retained", JBool true)] ++
        match publish_rejection d with Some r => [(js "publish_rejection", rejection_json r)] | None => [] end ++
        match active_command_session_ids d with
        | Some ids => [(js "active_command_session_ids", JArr (JStr <$> ids))]
        | None => []
        end).

Definition summary_json (s : WorkspaceSessionPublishSummary) : json :=
  JObj [(js "no_op", JBool (no_op s));
        (js "revision", JObj [(js "manifest_version", JNum (num_of_Z (revision_manifest_version (revision s))));
                              (js "root_hash", JStr (revision_root_hash (revision s)));
                              (js "layer_count", JNum (num_of_Z (revision_layer_count (revision s))))]);
        (js "route_summary", JObj [(js "source_count", JNum (num_of_Z (source_count (route_summary s))));
                                   (js "ignored_count", JNum (num_of_Z (ignored_count (route_summary s))))])].

Definition cleanup_json (d : WorkspaceSessionPublishCleanupDetails) : json :=
  JObj [(js "workspace_session_id", JStr (cleanup_session_id d)); (js "stage", JStr (js "destroy"));
        (js "publish_completed", JBool true); (js "layer_committed", JBool (layer_committed d));
        (js "publish", summary_json (cleanup_publish d)); (js "destroyed", JBool false);
        (js "session_state", JStr (js "finalize_failed"));
        (js "recovery_operation", JStr (js "destroy_workspace_session"))].
End wire.

(** ** Facts *)

Lemma string_items_strings ids : string_items (Some (JArr (JStr <$> ids))) = ids.
Proof. cbn. induction ids as [|i ids IH]; [done|]. cbn. f_equal. exact IH. Qed.

(** The path a report names, and the guidance of a blocked change. *)
Definition reported_path (r : WorkspaceSessionPublishRejection) : option jsstr :=
  match rejection_path r, source_conflict r, protected_drop r with
  | Some p, _, _ => Some p
  | None, Some c, _ => Some (conflict_path c)
  | None, None, Some d => drop_path d
  | None, None, None => None
  end.

Definition reported_drop (d : ProtectedDrop) : protected_guidance :=
  {| guided_path := drop_path d; guided_reason := drop_reason_string (drop_reason d);
     guidance := protectedDropGuidance (drop_reason_string (drop_reason d)) |}.

Definition reported_conflict (r : WorkspaceSessionPublishRejection) : bool :=
  match rejection_reason r with source_conflict_reason => true | _ => false end.

Definition reported (r : option WorkspaceSessionPublishRejection) : WorkspaceSessionProblem :=
  let conflict := match r with Some r => reported_conflict r | None => false end in
  problem_retained
    (if conflict then js "Publish conflict; session retained" else js "Publish rejected; session retained")
    NOTHING_COMMITTED (r ≫= reported_path) (rejection_reason_string <$> (rejection_reason <$> r))
    (reported_drop <$> (r ≫= protected_drop)) None conflict.

Lemma drop_fields states r :
  as_record (get "protected_drop" (rejection_json states r)) = drop_json <$> protected_drop r ∧
  (∀ d, text_of (get "path" (drop_json d)) = drop_path d) ∧
  (∀ d, text_of (get "reason" (drop_json d)) = Some (drop_reason_string (drop_reason d))).
Proof.
  split_and!.
  - by destruct r as [? ? ? [d|] ?]; vm_compute.
  - by intros [[p|] reason]; vm_compute.
  - by intros [[p|] []]; vm_compute.
Qed.

Lemma rejection_fields states r :
  text_of (get "path" (rejection_json states r)) = rejection_path r ∧
  text_of (get "reason" (rejection_json states r)) = Some (rejection_reason_string (rejection_reason r)) ∧
  text_of (as_record (get "source_conflict" (rejection_json states r)) ≫= get "path") = conflict_path <$> source_conflict r.
Proof.
  split_and!.
  - by destruct r as [[p|] ? ? ? ?]; vm_compute.
  - by destruct r as [? reason ? ? ?]; vm_compute.
  - by destruct r as [? ? [[c]|] ? ?]; vm_compute.
Qed.

Lemma rejected_problem_wire states r :
  rejected_problem (as_record (rejection_json states <$> r)) = reported r.
Proof.
  destruct r as [r|]; [|done]. unfold rejected_problem, reported. cbn [as_record fmap option_fmap option_map isRecord rejection_json].
  change (Some (JObj _)) with (Some (rejection_json states r)). cbn [mbind option_bind].
  destruct (drop_fields states r) as (-> & Hdp & Hdr), (rejection_fields states r) as (-> & -> & ->).
  unfold reported_path, reported_conflict. 
  replace (bool_decide (Some (rejection_reason_string (rejection_reason r)) = Some (js "source_conflict")))
    with (match rejection_reason r with source_conflict_reason => true | _ => false end)
    by (by destruct (rejection_reason r)).
  assert (∀ d, bool_decide (drop_reason_string (drop_reason d) = []) = false) as Hd by (by intros [? []]).
  destruct (source_conflict r) as [c|], (protected_drop r) as [d|], (rejection_path r) as [p|];
    cbn [fmap option_fmap option_map mbind option_bind]; rewrite ?Hdp, ?Hdr, ?Hd; reflexivity.
Qed.

Lemma retained_fields states d :
  publish_went_through (retained_json states d) = false ∧
  string_items (get "active_command_session_ids" (retained_json states d)) = active_command_session_ids d ?? [] ∧
  as_record (get "publish_rejection" (retained_json states d)) = as_record (rejection_json states <$> publish_rejection d) ∧
  get "session_retained" (retained_json states d) = Some (JBool true).
Proof.
  assert (get "active_command_session_ids" (retained_json states d) =
          JArr <$> (fmap JStr <$> active_command_session_ids d)) as ->.
  { by destruct d as [i [] [r|] [ids|]]; vm_compute. }
  split_and!.
  - by destruct d as [i [] [r|] [ids|]]; vm_compute.
  - destruct (active_command_session_ids d) as [ids|]; [apply string_items_strings|done].
  - by destruct d as [i [] [r|] [ids|]]; vm_compute.
  - by destruct d as [i [] [r|] [ids|]]; vm_compute.
Qed.

Lemma publish_went_through_spec details :
  publish_went_through details = true →
  get "stage" details = Some (JStr (js "destroy")) ∧ get "publish_completed" details = Some (JBool true) ∧
  get "publish" details ≠ None.
Proof.
  unfold publish_went_through. rewrite !andb_true_iff, bool_decide_eq_true. intros [[Hs Hc] Hp]. repeat split.
  - destruct (get "stage" details) as [[| | |x| |]|]; try done. by injection Hs as ->.
  - by destruct (get "publish_completed" details) as [[|[]| | | |]|].
  - intros H. by rewrite H in Hp.
Qed.

(** The outcome of the classification, by cases of the details. *)
Lemma closeProblem_cases e p :
  closeProblem e = p →
  (∃ title message, p = problem_failed title message) ∨
  (∃ r, e = ThrownRpc r ∧ publish_went_through (err_details r) = true ∧
        p = problem_cleanup (get "publish" (err_details r) ?? JNull)) ∨
  (∃ title active, p = problem_retained title NOT_STARTED None None None (Some active) false) ∨
  (∃ r, e = ThrownRpc r ∧ p = rejected_problem (as_record (get "publish_rejection" (err_details r))) ∧
     (get "session_retained" (err_details r) = Some (JBool true) ∨ as_record (get "publish_rejection" (err_details r)) ≠ None)).
Proof.
  intros <-. destruct e as [r|m|text]; [|left; by repeat eexists..]. unfold closeProblem.
  destruct (negb _); [left; by repeat eexists|]. destruct (publish_went_through _) eqn:Hw; [right; left; by exists r|].
  case_bool_decide; [right; right; left; by repeat eexists|].
  destruct (_ || _) eqn:Hr; [|left; by repeat eexists]. right; right; right. exists r. split_and!; [done..|].
  apply orb_true_iff in Hr as [Hr|Hr]; [left|right; by apply bool_decide_eq_true in Hr].
  by destruct (get "session_retained" (err_details r)) as [[|[]| | | |]|].
Qed.

(** A failed publication is reported as the daemon described it. The
    details of a publication that went through but could not be cleaned up
    become a cleanup report with exactly that publication; details of a
    retained session name the commands to stop, exactly those listed, or else
    the first path known of the rejection, its reason and, for a blocked
    change, the guidance, and it is called a conflict exactly when the reason
    is one. Conversely no other error is taken for a publication that went
    through, and that nothing was committed is said only when the details say
    so themselves. *)
Theorem closeProblem_wire states k m t st :
  let failure details := ThrownRpc (new_RpcError k m (Some details) t st) in
  (∀ d, closeProblem (failure (cleanup_json d)) = problem_cleanup (summary_json (cleanup_publish d))) ∧
  (∀ d, closeProblem (failure (retained_json states d)) =
     match active_command_session_ids d with
     | Some (i :: ids) =>
         problem_retained (js "Stop active commands first") NOT_STARTED None None None (Some (i :: ids)) false
     | _ => reported (publish_rejection d)
     end) ∧
  (∀ e p, closeProblem e = problem_cleanup p → ∃ r, e = ThrownRpc r ∧
     get "stage" (err_details r) = Some (JStr (js "destroy")) ∧
     get "publish_completed" (err_details r) = Some (JBool true) ∧ get "publish" (err_details r) = Some p) ∧
  (∀ e title path reason drop active conflict,
     closeProblem e = problem_retained title NOTHING_COMMITTED path reason drop active conflict → ∃ r, e = ThrownRpc r ∧
       (get "session_retained" (err_details r) = Some (JBool true) ∨ as_record (get "publish_rejection" (err_details r)) ≠ None)).
Proof.
  cbv zeta. split_and!.
  - reflexivity.
  - intros d. destruct (retained_fields states d) as (Hw & Ha & Hr & Hs). unfold closeProblem.
    change (err_details _) with (retained_json states d). rewrite Hw, Ha, Hr, Hs, rejected_problem_wire. cbn [isRecord retained_json negb orb].
    destruct (active_command_session_ids d) as [[|a ids]|]; reflexivity.
  - intros e p [(? & ? & ?)|[(r & -> & Hw & [= ->])|[(? & ? & ?)|(r & _ & ? & _)]]]%closeProblem_cases; try done.
    exists r. apply publish_went_through_spec in Hw as (? & ? & ?).
    split_and!; try done. by destruct (get "publish" (err_details r)).
  - intros e title path reason drop active conflict
      [(? & ? & ?)|[(r & _ & _ & ?)|[(? & ? & [=])|(r & -> & _ & Hr)]]]%closeProblem_cases; try done. by exists r.
Qed.

(** The row never offers more than the session allows: a disabled reason
    or a mutation under way leaves nothing to press that sends a request, the
    buttons of the three situations never mix, and a publication or a discard
    starts from no other place. *)
Lemma action_buttons_spec cleanup confirm busy reason b :
  (b, true) ∈ action_buttons cleanup confirm busy reason ↔
  busy = false ∧
  match b with
  | button_cleanup => cleanup = true ∧ reason = None
  | button_keep => cleanup = false ∧ confirm = true
  | button_confirm => cleanup = false ∧ confirm = true ∧ reason = None
  | button_publish | button_discard => cleanup = false ∧ confirm = false ∧ reason = None
  end.
Proof.
  unfold action_buttons. destruct (bool_decide_reflect (reason ≠ None)) as [Hr|Hr%dec_stable];
    destruct b, cleanup, confirm, busy; cbn [orb negb]; rewrite ?elem_of_cons, elem_of_nil; intuition congruence.
Qed.
