(* ===== verification/Actions.v ===== *)
(** The actions around a single call, and how failures are reported
    ([web/src/components/DestroyAction.tsx], [SquashDialog.tsx],
    [RemoveClusterAction.tsx], [ErrorToast.tsx], and the toast of
    [SandboxDetail.tsx]). *)
From S2P Require Import Prelude JsNumber JsText NumText Json Rpc WebStorage SandboxClusters SessionActions.

(** ** Notifications of errors *)

(** [String(value)]; [None]: an object whose [toString] is a member of its
    own cannot be converted, which throws. *)
Fixpoint json_text (v : json) : option jsstr :=
  match v with
  | JNull => Some (js "null")
  | JBool b => Some (if b then js "true" else js "false")
  | JNum n => Some (num_to_js n)
  | JStr s => Some s
  | JArr l =>
      join [44] <$>
        (fix texts (l : list json) : option (list jsstr) :=
           match l with
           | [] => Some []
           | x :: l => match (match x with JNull => Some [] | _ => json_text x end), texts l with
                       | Some t, Some ts => Some (t :: ts)
                       | _, _ => None
                       end
           end) l
  | JObj l => match obj_get (js "toString") l with Some _ => None | None => Some (js "[object Object]") end
  end.

Record ErrorNotification := { toast_kind : json; toast_message : json; toast_details : option jsstr }.

(** The details of an [RpcError] are never [null]: its constructor puts an
    empty object. [None]: the kind cannot be converted to text. *)
Definition toErrorNotification (error : thrown) : option ErrorNotification :=
  match error with
  | ThrownRpc e =>
      let details := stringify (err_details e) in
      let made kind :=
        {| toast_kind := kind; toast_message := err_message e;
           toast_details := if bool_decide (details = js "{}") then None else Some details |} in
      if transport e then (λ kind, made (JStr (kind ++ js " (transport)"))) <$> json_text (err_kind e)
      else Some (made (err_kind e))
  | ThrownError message => Some {| toast_kind := JStr (js "client_error"); toast_message := JStr message; toast_details := None |}
  | ThrownOther text => Some {| toast_kind := JStr (js "client_error"); toast_message := JStr text; toast_details := None |}
  end.

(** The notifications shown, each with its identifier. *)
Record toasts := { nextNotificationId : Z; notified : list (jsstr * ErrorNotification) }.

Definition initial_toasts : toasts := {| nextNotificationId := 1; notified := [] |}.

Definition showNormalizedError (error : thrown) (t : toasts) : toasts :=
  match toErrorNotification error with
  | Some entry => {| nextNotificationId := nextNotificationId t + 1;
                     notified := notified t ++ [(js "error-" ++ Z_to_js (nextNotificationId t), entry)] |}
  | None => t
  end.

(** The effect of the sandbox page: one toast per period of failures. *)
Definition toast_effect (s : bool * toasts) (error : option thrown) : bool * toasts :=
  match error with
  | Some e => (true, if s.1 then s.2 else showNormalizedError e s.2)
  | None => (false, s.2)
  end.

(** ** Squashing the layer stack *)

Record squash_dialog := {
  squash_open : bool;
  squash_busy : bool;
  squash_logs : list json;
  squash_result : option json;
}.

Definition initial_squash : squash_dialog :=
  {| squash_open := false; squash_busy := false; squash_logs := []; squash_result := None |}.

Definition openDialog (s : squash_dialog) : squash_dialog :=
  if squash_busy s then s else {| squash_open := true; squash_busy := false; squash_logs := []; squash_result := None |}.

(** Both ways to close it are refused while busy. *)
Definition closeDialog (s : squash_dialog) : squash_dialog :=
  if squash_busy s then s
  else {| squash_open := false; squash_busy := false; squash_logs := squash_logs s; squash_result := squash_result s |}.

Definition squash_starts (s : squash_dialog) : squash_dialog :=
  {| squash_open := squash_open s; squash_busy := true; squash_logs := []; squash_result := None |}.

Definition squash_line (s : squash_dialog) (line : json) : squash_dialog :=
  {| squash_open := squash_open s; squash_busy := squash_busy s; squash_logs := squash_logs s ++ [line];
     squash_result := squash_result s |}.

Definition squash_settles (r : outcome stream_error json) (s : squash_dialog) : squash_dialog :=
  match r with
  | Returns v => {| squash_open := squash_open s; squash_busy := false; squash_logs := squash_logs s; squash_result := Some v |}
  | Throws _ => {| squash_open := false; squash_busy := false; squash_logs := squash_logs s; squash_result := squash_result s |}
  end.

Definition squash_args (sandboxId : jsstr) : list (jsstr * json) := [(js "sandbox_id", JStr sandboxId)].

(** A whole run, nothing else happening in between. *)
Definition squash_runs (fetch : jsstr → jsstr → fetched_stream) (sandboxId : jsstr) (s : squash_dialog) : squash_dialog :=
  let '(lines, r) := rpcStream fetch (js "squash_layerstacks") systemScope (squash_args sandboxId) in
  squash_settles r (foldl squash_line (squash_starts s) lines).

(** The dialog and the streams of the runs it has started; a run that is under
    way has not settled. *)
Record squash_run := { run_lines : list json; run_settled : option (outcome stream_error json) }.

Record squash_world := { dialog : squash_dialog; runs : list squash_run }.

Inductive dialog_step : squash_world → squash_world → Prop :=
  | squash_opens w : dialog_step w {| dialog := openDialog (dialog w); runs := runs w |}
  | squash_closes w : dialog_step w {| dialog := closeDialog (dialog w); runs := runs w |}
  | squash_presses w : squash_open (dialog w) = true → squash_busy (dialog w) = false →
      dialog_step w {| dialog := squash_starts (dialog w); runs := runs w ++ [{| run_lines := []; run_settled := None |}] |}
  | squash_streams w i ls line : runs w !! i = Some {| run_lines := ls; run_settled := None |} →
      dialog_step w {| dialog := squash_line (dialog w) line;
                       runs := <[i := {| run_lines := ls ++ [line]; run_settled := None |}]> (runs w) |}
  | squash_ends w i ls r : runs w !! i = Some {| run_lines := ls; run_settled := None |} →
      dialog_step w {| dialog := squash_settles r (dialog w);
                       runs := <[i := {| run_lines := ls; run_settled := Some r |}]> (runs w) |}.

Inductive reachable_squash : squash_world → Prop :=
  | squash_init : reachable_squash {| dialog := initial_squash; runs := [] |}
  | squash_next w w' : reachable_squash w → dialog_step w w' → reachable_squash w'.

(** ** Destroying a sandbox *)

(** A request under way: its sandbox, the button pressed, and the page the
    button was rendered on when it was pressed. *)
Record destruction := { destroyed : jsstr; from_button : nat; from_path : jsstr }.

(** The page the user is on, the button mounted there, and the requests; a
    button that is mounted anew has another number. *)
Record destroy_world := {
  pathname : jsstr;
  button : nat;
  button_sandbox : jsstr;
  button_busy : bool;
  destructions : list destruction;
  destroy_requests : list jsstr;
}.

Definition destroy_presses (w : destroy_world) : destroy_world :=
  if button_busy w then w
  else {| pathname := pathname w; button := button w; button_sandbox := button_sandbox w; button_busy := true;
          destructions := destructions w ++ [{| destroyed := button_sandbox w; from_button := button w; from_path := pathname w |}];
          destroy_requests := destroy_requests w ++ [button_sandbox w] |}.

(** The user goes to a page that mounts another button. *)
Definition visits (path sandbox : jsstr) (w : destroy_world) : destroy_world :=
  {| pathname := path; button := S (button w); button_sandbox := sandbox; button_busy := false;
     destructions := destructions w; destroy_requests := destroy_requests w |}.

(** The page of another sandbox keeps the button, with another sandbox. *)
Definition switches (path sandbox : jsstr) (w : destroy_world) : destroy_world :=
  {| pathname := path; button := button w; button_sandbox := sandbox; button_busy := button_busy w;
     destructions := destructions w; destroy_requests := destroy_requests w |}.

Definition HOME : jsstr := js "/".

(** The answer of a request; a success leaves the page unless the button was
    pressed on the dashboard. *)
Definition destroy_settles (d : destruction) (rest : list destruction) (ok : bool) (w : destroy_world) : destroy_world :=
  let w := {| pathname := pathname w; button := button w; button_sandbox := button_sandbox w;
              button_busy := if (from_button d =? button w)%nat then false else button_busy w;
              destructions := rest; destroy_requests := destroy_requests w |} in
  if ok && negb (bool_decide (from_path d = HOME)) && negb (bool_decide (pathname w = HOME))
  then visits HOME (button_sandbox w) w else w.

Inductive destroy_step : destroy_world → destroy_world → Prop :=
  | destroy_press w : destroy_step w (destroy_presses w)
  | destroy_visit w path sandbox : destroy_step w (visits path sandbox w)
  | destroy_switch w path sandbox : destroy_step w (switches path sandbox w)
  | destroy_settle w before d after ok : destructions w = before ++ d :: after →
      destroy_step w (destroy_settles d (before ++ after) ok w).

Definition sandbox_page (path sandbox : jsstr) : destroy_world :=
  {| pathname := path; button := 0%nat; button_sandbox := sandbox; button_busy := false; destructions := []; destroy_requests := [] |}.

Inductive reachable_destroy (path sandbox : jsstr) : destroy_world → Prop :=
  | destroy_init : reachable_destroy path sandbox (sandbox_page path sandbox)
  | destroy_next w w' : reachable_destroy path sandbox w → destroy_step w w' → reachable_destroy path sandbox w'.

(** ** Dissolving a cluster *)

Record remove_dialog := { remove_open : bool; remove_busy : bool }.

Definition remove_close (d : remove_dialog) : remove_dialog := if remove_busy d then d else {| remove_open := false; remove_busy := false |}.

(** The whole removal: the dialog, the storage, and the notice of success or
    the failure reported. *)
Definition remove_cluster (fits : gmap jsstr jsstr → bool) (clusterId : jsstr) (memberCount : nat) (store : Storage) (reply : cluster_reply)
    (d : remove_dialog) : remove_dialog * Storage * option jsstr :=
  let d := {| remove_open := remove_open d; remove_busy := true |} in
  match removeSandboxCluster fits store clusterId reply with
  | Returns store' => ({| remove_open := false; remove_busy := false |}, store',
                       Some (Z_to_js (Z.of_nat memberCount) ++ js " sandboxes are still running as individuals."))
  | Throws _ => ({| remove_open := remove_open d; remove_busy := false |}, store, None)
  end.

(** ** Theorems: squashing *)

Definition last_run (w : squash_world) : option squash_run := last (runs w).

(** What is true of the dialog at every moment: a run that is under way is
    the latest one; the dialog is busy exactly then, and open, and shows the
    lines of that run; otherwise it is clear or shows the latest run. *)
Record squash_ok (w : squash_world) : Prop := {
  sq_last : ∀ i r, runs w !! i = Some r → run_settled r = None → S i = length (runs w);
  sq_busy : squash_busy (dialog w) = true ↔ ∃ r, last_run w = Some r ∧ run_settled r = None;
  sq_running : squash_busy (dialog w) = true →
    squash_open (dialog w) = true ∧ squash_result (dialog w) = None ∧ ∃ r, last_run w = Some r ∧ squash_logs (dialog w) = run_lines r;
  sq_shown : squash_logs (dialog w) = [] ∧ squash_result (dialog w) = None ∨
    ∃ r, last_run w = Some r ∧ squash_logs (dialog w) = run_lines r ∧
         ∀ v, squash_result (dialog w) = Some v → run_settled r = Some (Returns v);
}.

Lemma last_insert {A} (l : list A) i x : S i = length l → last (<[i:=x]> l) = Some x.
Proof.
  intros Hi. rewrite last_lookup, length_insert, <- Hi. cbn [Nat.pred]. apply list_lookup_insert_eq. lia.
Qed.

(** A run that is under way is the latest, and the dialog is busy with it. *)
Lemma squash_pending w i r : squash_ok w → runs w !! i = Some r → run_settled r = None →
  S i = length (runs w) ∧ last_run w = Some r ∧ squash_busy (dialog w) = true.
Proof.
  intros Hok Hr Hn. pose proof (sq_last w Hok i r Hr Hn) as Hi.
  assert (last_run w = Some r) as Hl by (unfold last_run; by rewrite last_lookup, <- Hi).
  split_and!; [done..|]. apply (sq_busy w Hok). eauto.
Qed.

(** The dialog changes without a run being touched. *)
Lemma squash_frame w d : squash_ok w → squash_busy (dialog w) = false → squash_busy d = false →
  (squash_logs d = [] ∧ squash_result d = None ∨
   squash_logs d = squash_logs (dialog w) ∧ squash_result d = squash_result (dialog w)) →
  squash_ok {| dialog := d; runs := runs w |}.
Proof.
  intros Hok Hb Hb' Hd. constructor; cbn [dialog runs]; unfold last_run; cbn [runs].
  - apply Hok.
  - rewrite Hb', <- Hb. apply Hok.
  - congruence.
  - destruct Hd as [?|[-> ->]]; [by left|]. apply Hok.
Qed.

(** The run under way goes on or settles. *)
Lemma squash_advances w i ls d r' : squash_ok w → runs w !! i = Some {| run_lines := ls; run_settled := None |} →
  squash_logs d = run_lines r' → (∀ v, squash_result d = Some v → run_settled r' = Some (Returns v)) →
  (if squash_busy d then run_settled r' = None ∧ squash_open d = true ∧ squash_result d = None else run_settled r' ≠ None) →
  squash_ok {| dialog := d; runs := <[i := r']> (runs w) |}.
Proof.
  intros Hok Hr Hlogs Hres Hd. destruct (squash_pending w i _ Hok Hr eq_refl) as (Hi & _ & _).
  constructor; cbn [dialog runs]; unfold last_run; cbn [runs]; rewrite ?last_insert by done.
  - intros j r Hj Hn. rewrite length_insert. destruct (decide (j = i)) as [->|Hne]; [done|].
    rewrite list_lookup_insert_ne in Hj by done. by eapply Hok.
  - destruct (squash_busy d); split; [naive_solver|done| |]; [done|]. intros (r & [= <-] & Hn). tauto.
  - intros Hb. rewrite Hb in Hd. destruct_and! Hd. eauto.
  - right. eauto.
Qed.

Lemma dialog_step_ok w w' : squash_ok w → dialog_step w w' → squash_ok w'.
Proof.
  intros Hok. destruct 1 as [w|w|w Hopen Hbusy|w i ls line Hr|w i ls r Hr].
  - unfold openDialog. destruct (squash_busy (dialog w)) eqn:Hb; [by destruct w|]. apply squash_frame; [done..|by left].
  - unfold closeDialog. destruct (squash_busy (dialog w)) eqn:Hb; [by destruct w|]. apply squash_frame; [done..|by right].
  - constructor; cbn [dialog runs]; unfold last_run; cbn [runs]; rewrite ?last_snoc.
    + intros i r Hi Hn. rewrite length_app. cbn [length]. destruct (decide (i < length (runs w))%nat) as [Hlt|Hge].
      * rewrite lookup_app_l in Hi by done. destruct (squash_pending w i r Hok Hi Hn) as (_ & _ & ?). congruence.
      * apply lookup_lt_Some in Hi. rewrite length_app in Hi. cbn [length] in Hi. lia.
    + split; [intros _; eauto|done].
    + intros _. cbn. eauto.
    + by left.
  - destruct (squash_pending w i _ Hok Hr eq_refl) as (_ & Hl & Hb). destruct (sq_running w Hok Hb) as (Ho & Hres & r & Hr' & Hlogs).
    rewrite Hl in Hr'. injection Hr' as <-. eapply squash_advances; [done..| | |]; cbn.
    + by rewrite Hlogs.
    + by rewrite Hres.
    + rewrite Hb. eauto.
  - destruct (squash_pending w i _ Hok Hr eq_refl) as (_ & Hl & Hb). destruct (sq_running w Hok Hb) as (Ho & Hres & r' & Hr' & Hlogs).
    rewrite Hl in Hr'. injection Hr' as <-. eapply squash_advances; [done..| | |]; cbn.
    + by destruct r.
    + destruct r; cbn; [congruence|by rewrite Hres].
    + by destruct r.
Qed.

Lemma reachable_squash_ok w : reachable_squash w → squash_ok w.
Proof.
  induction 1 as [|w w' _ IH Hstep]; [|by eapply dialog_step_ok]. constructor; cbn; [done| |done|by left].
  split; [done|by intros (? & ? & _)].
Qed.

(** The squash dialog tells the truth about its run whatever the user
    presses and whenever the stream delivers: at most one run is under way,
    the dialog is busy exactly then and cannot be closed, its log is what that
    run has streamed so far, and a result shown is what the latest run
    returned, under that run's complete log. *)
Theorem squash_dialog_truthful w (Hreach : reachable_squash w) :
  (∀ i j r r', runs w !! i = Some r → run_settled r = None → runs w !! j = Some r' → run_settled r' = None → i = j) ∧
  (squash_busy (dialog w) = true ↔ ∃ r, r ∈ runs w ∧ run_settled r = None) ∧
  (squash_busy (dialog w) = true → squash_open (dialog w) = true ∧ closeDialog (dialog w) = dialog w ∧
     ∃ r, last_run w = Some r ∧ squash_logs (dialog w) = run_lines r) ∧
  (∀ v, squash_result (dialog w) = Some v → squash_busy (dialog w) = false ∧
     ∃ r, last_run w = Some r ∧ run_settled r = Some (Returns v) ∧ squash_logs (dialog w) = run_lines r).
Proof.
  pose proof (reachable_squash_ok w Hreach) as Hok. split_and!.
  - intros i j r r' Hi Hn Hj Hn'. pose proof (sq_last w Hok i r Hi Hn). pose proof (sq_last w Hok j r' Hj Hn'). lia.
  - rewrite (sq_busy w Hok). split; intros (r & Hr & Hn); exists r; (split; [|done]).
    + by eapply last_Some_elem_of.
    + apply list_elem_of_lookup in Hr as [i Hi]. by apply (squash_pending w i r).
  - intros Hb. destruct (sq_running w Hok Hb) as (Ho & _ & Hlogs). split_and!; [done| |done]. unfold closeDialog. by rewrite Hb.
  - intros v Hv. destruct (squash_busy (dialog w)) eqn:Hb.
    { destruct (sq_running w Hok Hb) as (_ & Hn & _). congruence. }
    split; [done|]. destruct (sq_shown w Hok) as [[_ Hn]|(r & Hl & Hlogs & Hres)]; [congruence|]. eauto.
Qed.

Definition example_squashing : squash_world :=
  {| dialog := squash_line (squash_starts (openDialog initial_squash)) (JStr (js "remounting"));
     runs := [{| run_lines := [JStr (js "remounting")]; run_settled := None |}] |}.

Lemma example_squashing_reachable : reachable_squash example_squashing.
Proof.
  eapply squash_next; [eapply squash_next; [eapply squash_next; [apply squash_init|apply squash_opens]|by apply squash_presses]|].
  by refine (squash_streams {| dialog := squash_starts (openDialog initial_squash); runs := [{| run_lines := []; run_settled := None |}] |}
    0%nat [] (JStr (js "remounting")) _).
Qed.

Lemma squash_dialog_truthful_witness : closeDialog (dialog example_squashing) = dialog example_squashing.
Proof. exact (proj1 (proj2 (proj1 (proj2 (proj2 (squash_dialog_truthful _ example_squashing_reachable))) eq_refl))). Defined.

Lemma squash_lines_go ls s : foldl squash_line s ls =
  {| squash_open := squash_open s; squash_busy := squash_busy s; squash_logs := squash_logs s ++ ls; squash_result := squash_result s |}.
Proof.
  revert s. induction ls as [|l ls IH]; intros s; cbn [foldl]; [rewrite app_nil_r; by destruct s|]. rewrite IH. cbn. by rewrite <- app_assoc.
Qed.

(** The dialog composed with the stream client and the server's encoding:
    for a run whose progress and result the server encodes as events, cut into
    reads in any way, the dialog ends idle with exactly these lines and the
    result; for a server that cannot be reached or refuses, it ends closed,
    idle and without a result. *)
Theorem squash_shows_stream sandboxId s lines result texts
    (Hlines : Forall wf_str lines) (Hresult : plain (JObj result)) (Herror : error_member (JObj result) = None)
    (Htexts : concat texts = concat (log_event <$> lines) ++ sse_event "result" (JObj result)) :
  squash_runs (λ _ _, StreamResponse 200 None (Some (Chunk <$> texts))) sandboxId s =
    {| squash_open := squash_open s; squash_busy := false; squash_logs := JStr <$> lines; squash_result := Some (JObj result) |} ∧
  (∀ reason, squash_runs (λ _ _, StreamRejected reason) sandboxId s =
    {| squash_open := false; squash_busy := false; squash_logs := []; squash_result := None |}) ∧
  (∀ status text reads, ¬ (200 ≤ status ≤ 299) → squash_runs (λ _ _, StreamResponse status text reads) sandboxId s =
    {| squash_open := false; squash_busy := false; squash_logs := []; squash_result := None |}).
Proof.
  split_and!.
  - unfold squash_runs. rewrite (rpcStream_events _ _ _ lines result) by done. rewrite squash_lines_go. done.
  - done.
  - intros status text reads Hstatus. unfold squash_runs, rpcStream. destruct (response_ok status) eqn:Hok; [|by destruct reads].
    unfold response_ok in Hok. bool_to_prop. lia.
Qed.

Lemma squash_shows_stream_witness :
  squash_runs (λ _ _, StreamResponse 200 None (Some (Chunk <$> [log_event (js "x"); sse_event "result" (JObj [(js "layers_after", JNum (num_of_Z 1))])])))
    (js "a") initial_squash
  = {| squash_open := false; squash_busy := false; squash_logs := [JStr (js "x")];
       squash_result := Some (JObj [(js "layers_after", JNum (num_of_Z 1))]) |}.
Proof.
  refine (proj1 (squash_shows_stream (js "a") initial_squash [js "x"] [(js "layers_after", JNum (num_of_Z 1))] _ _ _ _ _)).
  - repeat constructor; lia.
  - constructor; [decide_closed|]. repeat constructor; lia.
  - reflexivity.
  - vm_compute. reflexivity.
Defined.

(** ** Theorems: destroying *)

Record destroy_ok (w : destroy_world) : Prop := {
  de_busy : button_busy w = true ↔ button w ∈ from_button <$> destructions w;
  de_once : NoDup (from_button <$> destructions w);
  de_bound : Forall (λ d, (from_button d ≤ button w)%nat) (destructions w);
}.

(** A button that is mounted anew has no request. *)
Lemma visits_ok path sandbox w : destroy_ok w → destroy_ok (visits path sandbox w).
Proof.
  intros Hok. pose proof (de_bound w Hok) as Hb. rewrite Forall_forall in Hb. constructor; cbn; [|apply Hok|].
  - split; [done|]. intros (d & Hd & ?%Hb)%list_elem_of_fmap. lia.
  - apply Forall_forall. intros d ?%Hb. lia.
Qed.

Lemma destroy_step_ok w w' : destroy_ok w → destroy_step w w' → destroy_ok w'.
Proof.
  intros Hok. destruct 1 as [w|w path sandbox|w path sandbox|w before d after ok Hd].
  - unfold destroy_presses. destruct (button_busy w) eqn:Hb; [done|].
    assert (button w ∉ from_button <$> destructions w) as Hnew by (rewrite <- (de_busy w Hok), Hb; done).
    constructor; cbn; rewrite ?fmap_app; cbn.
    + split; [intros _; set_solver|done].
    + apply NoDup_app. split_and!; [apply Hok|set_solver|apply NoDup_singleton].
    + apply Forall_app. split; [apply Hok|]. by constructor.
  - by apply visits_ok.
  - destruct Hok. by constructor.
  - destruct Hok as [Hbusy Honce Hbound]. rewrite Hd in *. rewrite fmap_app, fmap_cons in *.
    apply NoDup_app in Honce as (H1 & H12 & [Hd1 H2]%NoDup_cons). apply Forall_app in Hbound as [Hb1 [Hbd Hb2]%Forall_cons].
    assert (destroy_ok {| pathname := pathname w; button := button w; button_sandbox := button_sandbox w;
              button_busy := if (from_button d =? button w)%nat then false else button_busy w;
              destructions := before ++ after; destroy_requests := destroy_requests w |}) as Hok.
    { constructor; cbn; rewrite ?fmap_app.
      - destruct (Nat.eqb_spec (from_button d) (button w)) as [<-|Hne]; [|rewrite Hbusy; set_solver].
        split; [done|]. rewrite elem_of_app. intros [Hin|]; [|done]. exfalso. apply (H12 _ Hin). set_solver.
      - apply NoDup_app. split_and!; [done| |done]. set_solver.
      - by apply Forall_app. }
    unfold destroy_settles. cbv zeta. destruct (_ && _ && _); [by apply visits_ok|done].
Qed.

(** A button destroys once: whatever the user presses and wherever they
    go, a button never has two requests under way, it is disabled exactly
    while its own request is, and pressing it then does nothing. *)
Theorem destroy_once path sandbox w (Hreach : reachable_destroy path sandbox w) :
  NoDup (from_button <$> destructions w) ∧
  (button_busy w = true ↔ button w ∈ from_button <$> destructions w) ∧
  (button w ∈ from_button <$> destructions w → destroy_presses w = w) ∧
  (button_busy w = false → destroy_requests (destroy_presses w) = destroy_requests w ++ [button_sandbox w]).
Proof.
  assert (destroy_ok w) as Hok.
  { induction Hreach as [|w w' _ IH Hstep]; [|by eapply destroy_step_ok]. by constructor; cbn; [split; [|intros ?%not_elem_of_nil]|constructor|constructor]. }
  split_and!; [apply Hok..| |].
  - intros Hin%Hok. unfold destroy_presses. by rewrite Hin.
  - unfold destroy_presses. by intros ->.
Qed.

Lemma destroy_once_witness : NoDup (from_button <$> destructions (destroy_presses (sandbox_page (js "/sandboxes/a") (js "a")))).
Proof.
  refine (proj1 (destroy_once (js "/sandboxes/a") (js "a") _ _)). eapply destroy_next; [apply destroy_init|apply destroy_press].
Defined.

(** A request that ends late takes the user away: after Destroy was
    pressed on one sandbox's page the user may have gone to another sandbox;
    when the request succeeds, they are sent to the dashboard from there. One
    press on the button is all that is asked for: there is no confirmation. *)
Theorem destroy_leaves_other_page path_a a path_b b (Ha : path_a ≠ HOME) (Hb : path_b ≠ HOME) :
  destroy_requests (destroy_presses (sandbox_page path_a a)) = [a] ∧
  ∃ w w', reachable_destroy path_a a w ∧ pathname w = path_b ∧ button_sandbox w = b ∧
    destroyed <$> destructions w = [a] ∧ destroy_step w w' ∧ pathname w' = HOME.
Proof.
  split; [done|]. set (w0 := destroy_presses (sandbox_page path_a a)).
  set (d := {| destroyed := a; from_button := 0%nat; from_path := path_a |}).
  set (w := visits path_b b (visits HOME a w0)). exists w, (destroy_settles d ([] ++ []) true w).
  split_and!; [|done..|by apply destroy_settle|].
  - repeat (eapply destroy_next; [|apply destroy_visit]). eapply destroy_next; [apply destroy_init|apply destroy_press].
  - unfold destroy_settles. cbn. by rewrite !bool_decide_false.
Qed.

Lemma destroy_leaves_other_page_witness :
  destroy_requests (destroy_presses (sandbox_page (js "/sandboxes/a") (js "a"))) = [js "a"].
Proof. refine (proj1 (destroy_leaves_other_page (js "/sandboxes/a") (js "a") (js "/sandboxes/b") (js "b") _ _)); decide_closed. Defined.

(** ** Theorems: failures *)

(** The error of a render, if there is one. *)
Definition failure_at (errors : list (option thrown)) (i : nat) : option thrown := mjoin (errors !! i).

(** The errors that come after a render without one. *)
Definition failure_starts (errors : list (option thrown)) : list thrown :=
  omap (λ i, match i with
             | O => failure_at errors O
             | S j => match failure_at errors j with Some _ => None | None => failure_at errors i end
             end) (seq 0 (length errors)).

Lemma toast_effect_snoc errors e s : foldl toast_effect s (errors ++ [e]) = toast_effect (foldl toast_effect s errors) e.
Proof. apply foldl_snoc. Qed.

Lemma failure_starts_snoc errors e :
  failure_starts (errors ++ [e]) = failure_starts errors ++
    option_list (match errors with [] => e | _ => match failure_at errors (length errors - 1) with Some _ => None | None => e end end).
Proof.
  unfold failure_starts. rewrite length_app, seq_app, omap_app. cbn [length seq].
  assert (∀ i, (i < length errors)%nat → failure_at (errors ++ [e]) i = failure_at errors i) as Hold
    by (intros i Hi; unfold failure_at; by rewrite lookup_app_l).
  assert (failure_at (errors ++ [e]) (length errors) = e) as Hnew
    by (unfold failure_at; rewrite lookup_app_r, Nat.sub_diag by lia; done).
  f_equal.
  - apply list_omap_ext, Forall2_same_length_lookup_2; [done|]. intros i x y Hx Hy. rewrite Hx in Hy. injection Hy as <-.
    apply lookup_seq in Hx as [-> Hi]. cbn [Nat.add]. destruct i; [by apply Hold|]. rewrite !Hold by lia. done.
  - cbn [Nat.add omap list_omap]. destruct errors as [|x errors]; [by rewrite Hnew; destruct e|].
    cbn [length] in *. rewrite Nat.sub_succ, Nat.sub_0_r, Hnew, Hold by lia. by destruct (failure_at _ _), e.
Qed.

Definition toast_ids_ok (t : toasts) : Prop :=
  (notified t).*1 = (λ i, js "error-" ++ Z_to_js (Z.of_nat i)) <$> seq 1 (length (notified t)) ∧
  nextNotificationId t = Z.of_nat (S (length (notified t))).

Lemma show_ids_ok e t : toast_ids_ok t → toast_ids_ok (showNormalizedError e t).
Proof.
  intros [Hids Hnext]. unfold showNormalizedError. destruct (toErrorNotification e); [|done].
  split; cbn [notified nextNotificationId]; rewrite length_app; cbn [length].
  - rewrite seq_app, !fmap_app, Hids, Hnext. done.
  - lia.
Qed.

Lemma toast_run errors :
  let s := foldl toast_effect (false, initial_toasts) errors in
  (s.1 = true ↔ errors ≠ [] ∧ failure_at errors (length errors - 1) ≠ None) ∧
  (notified s.2).*2 = omap toErrorNotification (failure_starts errors) ∧ toast_ids_ok s.2.
Proof.
  induction errors as [|e errors (Hs & Hnot & Hids)] using rev_ind; [by cbn; split_and!; [naive_solver|..]|].
  rewrite toast_effect_snoc. destruct (foldl _ _ errors) as [b t]. cbn [fst snd] in *.
  assert (failure_at (errors ++ [e]) (length (errors ++ [e]) - 1) = e) as Hlast.
  { unfold failure_at. rewrite length_app, lookup_app_r by (cbn; lia). cbn [length].
    replace (length errors + 1 - 1 - length errors)%nat with 0%nat by lia. done. }
  rewrite Hlast, failure_starts_snoc, omap_app, <- Hnot. unfold toast_effect. cbn [fst snd].
  assert (errors ++ [e] ≠ []) as Hne by (by destruct errors). split_and!.
  - destruct e; naive_solver.
  - destruct errors as [|x errors].
    { assert (b = false) as -> by (destruct b; naive_solver). destruct e as [e|]; cbn [option_list]; [|by rewrite app_nil_r].
      unfold showNormalizedError. cbn. destruct (toErrorNotification e); cbn; rewrite ?fmap_app, ?app_nil_r; done. }
    destruct (failure_at _ _) eqn:Hf.
    + assert (b = true) as -> by naive_solver. destruct e; cbn; by rewrite app_nil_r.
    + assert (b = false) as -> by (destruct b; naive_solver). destruct e as [e|]; cbn [option_list]; [|by rewrite app_nil_r].
      unfold showNormalizedError. cbn. destruct (toErrorNotification e); cbn; rewrite ?fmap_app, ?app_nil_r; done.
  - destruct e; [|done]. destruct b; [done|by apply show_ids_ok].
Qed.

(** While a sandbox cannot be inspected there is one notification per
    period of failures, for the failure that began it; notifications have
    distinct identifiers, so that none replaces another. *)
Theorem failures_notified_once errors :
  let t := (foldl toast_effect (false, initial_toasts) errors).2 in
  (notified t).*2 = omap toErrorNotification (failure_starts errors) ∧ NoDup (notified t).*1.
Proof.
  destruct (toast_run errors) as (_ & Hnot & Hids & _). split; [done|]. cbv zeta. rewrite Hids.
  apply NoDup_fmap_2_strong; [|apply NoDup_seq]. intros i j _ _ H%app_inv_head%Z_to_js_inj. lia.
Qed.

Lemma stringify_members kv kvs : stringify (JObj (kv :: kvs)) ≠ js "{}".
Proof.
  change (stringify (JObj (kv :: kvs))) with (123 :: join [44] (map member_text (kv :: kvs)) ++ [125]). cbn [map]. intros H.
  destruct (map member_text kvs); cbn [join member_text quote app] in H; discriminate.
Qed.

(** What a failed call says. A server that cannot be reached, an answer
    that is not one of success and says nothing, and an error the server
    reports with its kind and message are each shown as such; only failures of
    the transport are marked as such; and every failure whose kind is a text
    is shown. *)
Theorem failed_call_notified op scope args :
  (∀ reason e, rpc (λ _ _, FetchRejected reason) op scope args = Throws e →
     toErrorNotification (ThrownRpc e) =
     Some {| toast_kind := JStr (js "network_error (transport)"); toast_message := JStr (js "console unreachable: " ++ reason);
             toast_details := None |}) ∧
  (∀ status e, rpc (λ _ _, FetchResponse status None) op scope args = Throws e →
     toErrorNotification (ThrownRpc e) =
     Some {| toast_kind := JStr (js "transport_error (transport)");
             toast_message := JStr (js "console answered HTTP " ++ Z_to_js status); toast_details := None |}) ∧
  (∀ status body kind message details e, 200 ≤ status ≤ 299 →
     body_json body = JObj [(js "error", JObj [(js "kind", JStr kind); (js "message", JStr message); (js "details", JObj details)])] →
     rpc (λ _ _, FetchResponse status body) op scope args = Throws e →
     toErrorNotification (ThrownRpc e) =
     Some {| toast_kind := JStr kind; toast_message := JStr message;
             toast_details := match details with [] => None | _ => Some (stringify (JObj details)) end |}) ∧
  (∀ e kind, err_kind e = JStr kind → toErrorNotification (ThrownRpc e) ≠ None).
Proof.
  split_and!.
  - by intros reason e [= <-].
  - intros status e. unfold rpc, rpc_settle, body_json. cbn [mbind option_bind default]. 
    destruct (response_ok status); [done|]. by intros [= <-].
  - intros status body kind message details e Hstatus Hbody. unfold rpc, rpc_settle. rewrite Hbody.
    assert (response_ok status = true) as -> by (unfold response_ok; apply andb_true_iff; split; apply Z.leb_le; lia).
    intros [= <-]. destruct details as [|kv kvs]; [done|]. pose proof (stringify_members kv kvs) as Hne.
    unfold toErrorNotification. cbv zeta. change (err_details _) with (JObj (kv :: kvs)). by rewrite bool_decide_false.
  - intros e kind Hk. unfold toErrorNotification. rewrite Hk. by destruct (transport e).
Qed.
