(* ===== verification/Sessions.v ===== *)
(** The session sidebar of the terminal
    ([web/src/pages/sandbox/terminal/SessionSidebar.tsx]): creating,
    publishing and discarding workspace sessions, composed with the selection
    of the terminal tab (Terminal).

    A handler is a function on the component's state; what it does outside
    that state is a list of [side_effect]s. A call to the daemon is a
    [flight]: it carries the props of the render whose button was pressed,
    since the continuation of the handler still sees those when the answer
    arrives. [term_step] interleaves everything that can happen. *)
From S2P Require Import Prelude JsNumber JsText Json Types Observability Activity Rpc Terminal SessionActions.

(** ** State *)

Record CreatedSession := { created_id : jsstr; created_profile : NetworkProfile }.

Record action_problem := { problem_session : jsstr; problem : WorkspaceSessionProblem }.

Record sidebar := {
  createdSession : option CreatedSession;
  createBusy : bool;
  busySessionId : option jsstr;
  busyAction : option WorkspaceSessionAction;
  discardConfirmId : option jsstr;
  actionProblem : option action_problem;
  closedSessionIds : gset jsstr;
  cleanupRequiredIds : gset jsstr;
}.

Definition initial_sidebar : sidebar :=
  {| createdSession := None; createBusy := false; busySessionId := None; busyAction := None;
     discardConfirmId := None; actionProblem := None; closedSessionIds := ∅; cleanupRequiredIds := ∅ |}.

Definition with_created (c : option CreatedSession) (s : sidebar) : sidebar :=
  {| createdSession := c; createBusy := createBusy s; busySessionId := busySessionId s; busyAction := busyAction s;
     discardConfirmId := discardConfirmId s; actionProblem := actionProblem s;
     closedSessionIds := closedSessionIds s; cleanupRequiredIds := cleanupRequiredIds s |}.

Definition with_createBusy (b : bool) (s : sidebar) : sidebar :=
  {| createdSession := createdSession s; createBusy := b; busySessionId := busySessionId s; busyAction := busyAction s;
     discardConfirmId := discardConfirmId s; actionProblem := actionProblem s;
     closedSessionIds := closedSessionIds s; cleanupRequiredIds := cleanupRequiredIds s |}.

Definition with_busy (b : option (jsstr * WorkspaceSessionAction)) (s : sidebar) : sidebar :=
  {| createdSession := createdSession s; createBusy := createBusy s; busySessionId := fst <$> b; busyAction := snd <$> b;
     discardConfirmId := discardConfirmId s; actionProblem := actionProblem s;
     closedSessionIds := closedSessionIds s; cleanupRequiredIds := cleanupRequiredIds s |}.

Definition with_confirm (c : option jsstr) (s : sidebar) : sidebar :=
  {| createdSession := createdSession s; createBusy := createBusy s; busySessionId := busySessionId s; busyAction := busyAction s;
     discardConfirmId := c; actionProblem := actionProblem s;
     closedSessionIds := closedSessionIds s; cleanupRequiredIds := cleanupRequiredIds s |}.

Definition with_problem (p : option action_problem) (s : sidebar) : sidebar :=
  {| createdSession := createdSession s; createBusy := createBusy s; busySessionId := busySessionId s; busyAction := busyAction s;
     discardConfirmId := discardConfirmId s; actionProblem := p;
     closedSessionIds := closedSessionIds s; cleanupRequiredIds := cleanupRequiredIds s |}.

Definition with_ids (closed cleanup : gset jsstr) (s : sidebar) : sidebar :=
  {| createdSession := createdSession s; createBusy := createBusy s; busySessionId := busySessionId s; busyAction := busyAction s;
     discardConfirmId := discardConfirmId s; actionProblem := actionProblem s;
     closedSessionIds := closed; cleanupRequiredIds := cleanup |}.

(** The props of a render. *)
Record side_props := {
  sp_workspaces : list WorkspaceSnapshot;
  sp_mode : TerminalMode;
  sp_selected : option jsstr;
  sp_narrow : bool;
}.

Inductive side_effect :=
  | Select (m : TerminalMode) (session : option jsstr)
  | FinalizationFailed (session : jsstr)
  | CloseDrawer
  | RefreshSnapshot
  | RefreshPublishedState
  | RefreshRejectedSnapshot
  | Notify (color title message : jsstr)
  | ShowError (e : thrown).

(** What a handler has done when the answer arrived: the state, the effects,
    and, when it waits for the snapshot to be fetched before it is finished,
    the notices that follow then. *)
Record answered := { ans_state : sidebar; ans_effects : list side_effect; ans_waits : option (list side_effect) }.

(** ** Creating *)

Definition dot : jsstr := [32; 183; 32].

Definition profile_of (n : SessionNetwork) : NetworkProfile :=
  match n with session_shared => shared | session_isolated => isolated end.

Definition NetworkProfile_string (n : NetworkProfile) : jsstr :=
  match n with shared => js "shared" | isolated => js "isolated" end.

Definition mutationBusy (s : sidebar) : bool := createBusy s || bool_decide (busyAction s ≠ None).

(** [None]: the handler returns at once. *)
Definition createSession (s : sidebar) : option sidebar :=
  if createBusy s || bool_decide (busyAction s ≠ None) then None else Some (with_createBusy true s).

Definition createSession_answers (r : outcome thrown WorkspaceSessionCreated) (s : sidebar) : answered :=
  match r with
  | Returns out =>
      let target := {| created_id := created_session_id out; created_profile := profile_of (created_network out) |} in
      {| ans_state := with_createBusy false (with_created (Some target) s);
         ans_effects := [Select mode_session (Some (created_id target)); RefreshSnapshot;
           Notify (js "success") (js "Workspace session created")
             (created_id target ++ dot ++ NetworkProfile_string (created_profile target))];
         ans_waits := None |}
  | Throws e => {| ans_state := with_createBusy false s; ans_effects := [ShowError e]; ans_waits := None |}
  end.

(** ** Closing *)

Definition closeSuccessfulSession (p : side_props) (i : jsstr) (s : sidebar) : sidebar * list side_effect :=
  (with_problem (match actionProblem s with
                 | Some q => if bool_decide (problem_session q = i) then None else Some q
                 | None => None
                 end)
     (with_confirm None (with_ids ({[i]} ∪ closedSessionIds s) (cleanupRequiredIds s ∖ {[i]}) s)),
   (if bool_decide (sp_mode p = mode_session) && bool_decide (sp_selected p = Some i) then [Select mode_quick None] else []) ++
   (if sp_narrow p then [CloseDrawer] else [])).

Definition layers_text (n : Z) : jsstr := Z_to_js n ++ [32] ++ if n =? 1 then js "layer" else js "layers".

(** The notice of a publication. *)
Definition published_notice (out : WorkspaceSessionPublished) : side_effect :=
  if no_op (publish out)
  then Notify (js "success") (js "No changes to publish; session closed") (published_session_id out)
  else Notify (js "success") (js "Workspace session published")
         (published_session_id out ++ dot ++ js "manifest v" ++ Z_to_js (revision_manifest_version (revision (publish out))) ++
          dot ++ layers_text (revision_layer_count (revision (publish out)))).

Definition publishSession (p : side_props) (i : jsstr) (s : sidebar) : option sidebar :=
  match workspace_of (sp_workspaces p) (Some i) with
  | None => None
  | Some target =>
      match finalization_state target with
      | finalization_active =>
          if createBusy s || bool_decide (busyAction s ≠ None) ||
             (0 <? length (active_namespace_executions target))%nat
          then None
          else Some (with_problem None (with_confirm None (with_busy (Some (i, action_publish)) s)))
      | _ => None
      end
  end.

Definition publishSession_answers (p : side_props) (i : jsstr) (r : outcome thrown WorkspaceSessionPublished)
    (s : sidebar) : answered :=
  match r with
  | Returns out =>
      let '(s, effects) := closeSuccessfulSession p i s in
      {| ans_state := s; ans_effects := effects ++ [RefreshPublishedState]; ans_waits := Some [published_notice out] |}
  | Throws e =>
      let nextProblem := closeProblem e in
      let s := with_problem (Some {| problem_session := i; problem := nextProblem |}) s in
      match nextProblem with
      | problem_cleanup _ =>
          {| ans_state := with_ids (closedSessionIds s) ({[i]} ∪ cleanupRequiredIds s) s;
             ans_effects := [FinalizationFailed i; RefreshPublishedState];
             ans_waits := Some [Notify (js "yellow") (js "Published; cleanup required")
                                  (i ++ dot ++ js "use Finish cleanup to close the session")] |}
      | problem_retained _ _ _ _ _ _ _ =>
          {| ans_state := s; ans_effects := [RefreshRejectedSnapshot]; ans_waits := Some [] |}
      | problem_failed _ _ => {| ans_state := with_busy None s; ans_effects := [ShowError e]; ans_waits := None |}
      end
  end.

(** Whether closing the session finishes a cleanup. *)
Definition cleanup_required (s : sidebar) (i : jsstr) (fs : option WorkspaceFinalizationState) : bool :=
  bool_decide (i ∈ cleanupRequiredIds s) || match fs with Some finalize_failed => true | _ => false end.

(** With the state, whether it is a cleanup. *)
Definition destroySession (p : side_props) (i : jsstr) (s : sidebar) : option (sidebar * bool) :=
  let target := workspace_of (sp_workspaces p) (Some i) in
  let cleanupRequired := cleanup_required s i (finalization_state <$> target) in
  match target with
  | None => None
  | Some target =>
      if createBusy s || bool_decide (busyAction s ≠ None) ||
         (negb cleanupRequired && negb match finalization_state target with finalization_active => true | _ => false end) ||
         (0 <? length (active_namespace_executions target))%nat
      then None
      else Some (with_problem None (with_busy (Some (i, action_discard)) s), cleanupRequired)
  end.

Definition destroySession_answers (p : side_props) (i : jsstr) (cleanupRequired : bool)
    (r : outcome thrown WorkspaceSessionDestroyed) (s : sidebar) : answered :=
  match r with
  | Returns out =>
      let '(s, effects) := closeSuccessfulSession p i s in
      {| ans_state := s; ans_effects := effects ++ [RefreshSnapshot];
         ans_waits := Some [Notify (js "success")
           (if cleanupRequired then js "Workspace session cleanup complete" else js "Workspace session discarded")
           (destroyed_session_id out ++ dot ++ Z_to_js (destroyed_upperdir_bytes out) ++ js " bytes evicted")] |}
  | Throws e =>
      {| ans_state := with_busy None (with_problem (Some {| problem_session := i;
           problem := problem_failed (JStr (js "Session could not be closed")) (thrown_message e) |}) s);
         ans_effects := [ShowError e]; ans_waits := None |}
  end.

(** ** Rows *)

Record session_row := {
  row_session : jsstr;
  row_profile : NetworkProfile;
  row_layers : Z;
  row_active : nat;
  row_state : WorkspaceFinalizationState;
  persisted : bool;
}.

Definition listed_row (w : WorkspaceSnapshot) : session_row :=
  {| row_session := snapshot_workspace_id w; row_profile := network_profile w; row_layers := workspace_layer_count w;
     row_active := length (active_namespace_executions w); row_state := finalization_state w; persisted := true |}.

Definition created_row (c : CreatedSession) : session_row :=
  {| row_session := created_id c; row_profile := created_profile c; row_layers := 0; row_active := 0%nat;
     row_state := finalization_active; persisted := false |}.

Definition session_rows (ws : list WorkspaceSnapshot) (s : sidebar) : list session_row :=
  let rows := listed_row <$> js_filter (λ w, negb (bool_decide (snapshot_workspace_id w ∈ closedSessionIds s))) ws in
  match createdSession s with
  | Some c => if js_some (λ r, bool_decide (row_session r = created_id c)) rows then rows else rows ++ [created_row c]
  | None => rows
  end.

Definition row_cleanup (s : sidebar) (r : session_row) : bool := cleanup_required s (row_session r) (Some (row_state r)).

Definition rowBusyAction (s : sidebar) (r : session_row) : option WorkspaceSessionAction :=
  if bool_decide (busySessionId s = Some (row_session r)) then busyAction s else None.

Definition disabledReason (s : sidebar) (r : session_row) : option jsstr :=
  if (0 <? row_active r)%nat
  then Some (js "Stop " ++ (if (row_active r =? 1)%nat then js "the active command"
                            else Z_to_js (Z.of_nat (row_active r)) ++ js " active commands") ++
             js " before publishing or discarding.")
  else match row_state r with
       | finalizing => Some (js "This workspace session is finalizing.")
       | _ => if createBusy s then Some (js "A workspace session is being created.")
              else if bool_decide (busyAction s ≠ None) && bool_decide (rowBusyAction s r = None)
              then Some (js "Another workspace session action is in progress.")
              else None
       end.

Definition row_description (s : sidebar) (r : session_row) : jsstr :=
  join dot (NetworkProfile_string (row_profile r) :: layers_text (row_layers r) ::
    (if (0 <? row_active r)%nat
     then [Z_to_js (Z.of_nat (row_active r)) ++ js " active " ++ (if (row_active r =? 1)%nat then js "command" else js "commands")]
     else []) ++
    match row_state r with finalizing => [js "finalizing"] | _ => [] end ++
    (if row_cleanup s r then [js "cleanup required"] else [])).

Definition confirming (s : sidebar) (r : session_row) : bool := bool_decide (discardConfirmId s = Some (row_session r)).

(** The unsaved row has no buttons. *)
Definition row_buttons (s : sidebar) (r : session_row) : list (row_button * bool) :=
  if persisted r then action_buttons (row_cleanup s r) (confirming s r) (mutationBusy s) (disabledReason s r) else [].

Definition row_feedback (s : sidebar) (r : session_row) : list notice :=
  if persisted r
  then feedback (row_cleanup s r) (confirming s r) (disabledReason s r)
         match actionProblem s with
         | Some q => if bool_decide (problem_session q = row_session r) then Some (problem q) else None
         | None => None
         end
  else [].

(** ** The sidebar in the terminal tab *)

Inductive session_op := op_create (n : NetworkProfile) | op_publish (i : jsstr) | op_discard (i : jsstr) (cleanup : bool).

(** A call under way ([fl_waits = None]), or answered and waiting for the
    snapshot. The callbacks it will use are those of the render [fl_props]
    and of the snapshot then shown. *)
Record flight_op := {
  fl_op : session_op;
  fl_props : side_props;
  fl_snapshot : option SnapshotResult;
  fl_waits : option (list side_effect);
}.

Record term := {
  side : sidebar;
  t_snapshot : option SnapshotResult;
  t_params : search_params;
  t_optimistic : gset jsstr;
  t_failed : gset jsstr;
  t_open : bool;
  t_narrow : bool;
  t_flights : list flight_op;
  (** the calls sent so far *)
  t_sent : list session_op;
}.

Definition with_side (s : sidebar) (v : term) : term :=
  {| side := s; t_snapshot := t_snapshot v; t_params := t_params v; t_optimistic := t_optimistic v; t_failed := t_failed v;
     t_open := t_open v; t_narrow := t_narrow v; t_flights := t_flights v; t_sent := t_sent v |}.

Definition with_flights (fs : list flight_op) (sent : list session_op) (v : term) : term :=
  {| side := side v; t_snapshot := t_snapshot v; t_params := t_params v; t_optimistic := t_optimistic v; t_failed := t_failed v;
     t_open := t_open v; t_narrow := t_narrow v; t_flights := fs; t_sent := sent |}.

Definition with_address (params : search_params) (optimistic : gset jsstr) (open : bool) (v : term) : term :=
  {| side := side v; t_snapshot := t_snapshot v; t_params := params; t_optimistic := optimistic; t_failed := t_failed v;
     t_open := open; t_narrow := t_narrow v; t_flights := t_flights v; t_sent := t_sent v |}.

Definition with_failed (failed : gset jsstr) (v : term) : term :=
  {| side := side v; t_snapshot := t_snapshot v; t_params := t_params v; t_optimistic := t_optimistic v; t_failed := failed;
     t_open := t_open v; t_narrow := t_narrow v; t_flights := t_flights v; t_sent := t_sent v |}.

Definition with_snapshot (snapshot : option SnapshotResult) (v : term) : term :=
  {| side := side v; t_snapshot := snapshot; t_params := t_params v; t_optimistic := t_optimistic v; t_failed := t_failed v;
     t_open := t_open v; t_narrow := t_narrow v; t_flights := t_flights v; t_sent := t_sent v |}.

Section terminal.
Context (sandboxId : jsstr).

Definition t_workspaces (v : term) : list WorkspaceSnapshot := terminal_workspaces (t_snapshot v) sandboxId.

Definition props_of (v : term) : side_props :=
  {| sp_workspaces := t_workspaces v;
     sp_mode := terminal_mode (t_snapshot v) sandboxId (t_params v) (t_optimistic v);
     sp_selected := selectedSession (t_snapshot v) sandboxId (t_params v) (t_optimistic v);
     sp_narrow := t_narrow v |}.

(** The callbacks of the tab; [snapshot] is that of the render they belong to. *)
Definition run_effect (snapshot : option SnapshotResult) (v : term) (e : side_effect) : term :=
  match e with
  | Select m i => let '(params, optimistic) := onSelect snapshot sandboxId (t_optimistic v) m i in
                  with_address params optimistic false v
  | FinalizationFailed i => with_failed ({[i]} ∪ t_failed v) v
  | CloseDrawer => with_address (t_params v) (t_optimistic v) false v
  | _ => v
  end.

Definition run_effects (snapshot : option SnapshotResult) (es : list side_effect) (v : term) : term :=
  foldl (run_effect snapshot) v es.

(** The effects of the sidebar and of the tab that follow every change. *)
Definition drop_created (ws : list WorkspaceSnapshot) (s : sidebar) : sidebar :=
  match createdSession s with
  | Some c => if js_some (λ w, bool_decide (snapshot_workspace_id w = created_id c)) ws then with_created None s else s
  | None => s
  end.

Definition drop_stale (ws : list WorkspaceSnapshot) (s : sidebar) : sidebar :=
  let live := snapshot_workspace_id <$> ws in
  let s := match discardConfirmId s with
           | Some i => if truthy_text (Some i) && bool_decide (i ∉ live) then with_confirm None s else s
           | None => s
           end in
  match actionProblem s with
  | Some q => if bool_decide (problem_session q ∉ live) then with_problem None s else s
  | None => s
  end.

Definition settle (v : term) : term :=
  with_address (clear_missing (t_snapshot v) sandboxId (t_params v) (t_optimistic v))
    (prune_optimistic (t_snapshot v) sandboxId (t_optimistic v)) (t_open v)
    (with_side (drop_stale (t_workspaces v) (drop_created (t_workspaces v) (side v))) v).

(** The effect of new workspaces. *)
Definition failed_ids (ws : list WorkspaceSnapshot) : gset jsstr :=
  list_to_set (snapshot_workspace_id <$>
    js_filter (λ w, match finalization_state w with finalize_failed => true | _ => false end) ws).

Definition mark_failed (v : term) : term :=
  let ids := failed_ids (t_workspaces v) in
  with_failed (ids ∪ t_failed v)
    (with_side (with_ids (closedSessionIds (side v)) (ids ∪ cleanupRequiredIds (side v)) (side v)) v).

Definition observe (snapshot : option SnapshotResult) (v : term) : term := settle (mark_failed (with_snapshot snapshot v)).

(** A call is sent. *)
Definition send (op : session_op) (s : sidebar) (v : term) : term :=
  with_flights (t_flights v ++ [{| fl_op := op; fl_props := props_of v; fl_snapshot := t_snapshot v; fl_waits := None |}])
    (t_sent v ++ [op]) (with_side s v).

Definition onDiscard (i : jsstr) (v : term) : term :=
  match destroySession (props_of v) i (side v) with
  | Some (s, cleanup) => send (op_discard i cleanup) s v
  | None => v
  end.

Definition press (i : jsstr) (b : row_button) (v : term) : term :=
  match b with
  | button_cleanup | button_confirm => onDiscard i v
  | button_keep => with_side (with_confirm None (side v)) v
  | button_publish => match publishSession (props_of v) i (side v) with Some s => send (op_publish i) s v | None => v end
  | button_discard => with_side (with_confirm (Some i) (with_problem None (side v))) v
  end.

Definition onCreate (n : NetworkProfile) (v : term) : term :=
  match createSession (side v) with Some s => send (op_create n) s v | None => v end.

(** The answer of the [k]-th call under way, and the end of its wait. *)
Definition deliver (before : list flight_op) (f : flight_op) (after : list flight_op) (a : answered) (v : term) : term :=
  run_effects (fl_snapshot f) (ans_effects a)
    (with_flights (before ++ match ans_waits a with
                             | None => []
                             | Some notes => [{| fl_op := fl_op f; fl_props := fl_props f; fl_snapshot := fl_snapshot f;
                                                 fl_waits := Some notes |}]
                             end ++ after) (t_sent v)
       (with_side (ans_state a) v)).

Definition refreshed (before : list flight_op) (f : flight_op) (after : list flight_op) (notes : list side_effect)
    (v : term) : term :=
  run_effects (fl_snapshot f) notes (with_flights (before ++ after) (t_sent v) (with_side (with_busy None (side v)) v)).

(** The drawer is closed by the user. *)
Definition close_drawer (v : term) : term :=
  with_address (t_params v) (t_optimistic v) false (with_side (with_confirm None (side v)) v).

Definition resize (narrow : bool) (v : term) : term :=
  {| side := side v; t_snapshot := t_snapshot v; t_params := t_params v; t_optimistic := t_optimistic v; t_failed := t_failed v;
     t_open := t_open v; t_narrow := narrow; t_flights := t_flights v; t_sent := t_sent v |}.

(** What a call can be answered with. *)
Inductive answers (f : flight_op) (s : sidebar) : answered → Prop :=
  | answer_created n r : fl_op f = op_create n → answers f s (createSession_answers r s)
  | answer_published i r : fl_op f = op_publish i → answers f s (publishSession_answers (fl_props f) i r s)
  | answer_destroyed i c r : fl_op f = op_discard i c → answers f s (destroySession_answers (fl_props f) i c r s).

(** A poll may deliver the workspaces already shown (then no effect runs);
    buttons can be pressed when they are shown and enabled; the address also
    changes with the browser's own navigation. *)
Inductive term_step : term → term → Prop :=
  | step_observe v snapshot : terminal_workspaces snapshot sandboxId ≠ t_workspaces v → term_step v (observe snapshot v)
  | step_same v snapshot : terminal_workspaces snapshot sandboxId = t_workspaces v → term_step v (settle (with_snapshot snapshot v))
  | step_press v r b : r ∈ session_rows (t_workspaces v) (side v) → (b, true) ∈ row_buttons (side v) r →
      term_step v (settle (press (row_session r) b v))
  | step_create v n : mutationBusy (side v) = false → term_step v (settle (onCreate n v))
  | step_answer v before f after a : t_flights v = before ++ f :: after → fl_waits f = None → answers f (side v) a →
      term_step v (settle (deliver before f after a v))
  | step_refreshed v before f after notes : t_flights v = before ++ f :: after → fl_waits f = Some notes →
      term_step v (settle (refreshed before f after notes v))
  | step_select v m i : term_step v (settle (run_effect (t_snapshot v) v (Select m i)))
  | step_address v params : term_step v (settle (with_address params (t_optimistic v) (t_open v) v))
  | step_open v : term_step v (settle (with_address (t_params v) (t_optimistic v) true v))
  | step_close v : term_step v (settle (close_drawer v))
  | step_resize v narrow : term_step v (settle (resize narrow v)).

Inductive reachable_term (v0 : term) : term → Prop :=
  | term_init : reachable_term v0 v0
  | term_next v v' : reachable_term v0 v → term_step v v' → reachable_term v0 v'.
End terminal.

Definition initial_term (params : search_params) (narrow : bool) : term :=
  {| side := initial_sidebar; t_snapshot := None; t_params := params; t_optimistic := ∅; t_failed := ∅;
     t_open := false; t_narrow := narrow; t_flights := []; t_sent := [] |}.

(** ** The specification: one mutation at a time, of sessions that allow it *)

Record lifecycle := { shown : list WorkspaceSnapshot; under_way : option session_op }.

Definition permitted (ws : list WorkspaceSnapshot) (op : session_op) : Prop :=
  match op with
  | op_create _ => True
  | op_publish i => ∃ w, w ∈ ws ∧ snapshot_workspace_id w = i ∧ finalization_state w = finalization_active ∧
      active_namespace_executions w = []
  | op_discard i cleanup => ∃ w, w ∈ ws ∧ snapshot_workspace_id w = i ∧ active_namespace_executions w = [] ∧
      (cleanup = false → finalization_state w = finalization_active)
  end.

(** The label is the call that is sent. *)
Inductive lifecycle_step : lifecycle → option session_op → lifecycle → Prop :=
  | lifecycle_begins ws op : permitted ws op →
      lifecycle_step {| shown := ws; under_way := None |} (Some op) {| shown := ws; under_way := Some op |}
  | lifecycle_ends ws op :
      lifecycle_step {| shown := ws; under_way := Some op |} None {| shown := ws; under_way := None |}
  | lifecycle_observes ws ws' op : lifecycle_step {| shown := ws; under_way := op |} None {| shown := ws'; under_way := op |}.

Definition lifecycle_of (sandboxId : jsstr) (v : term) : lifecycle :=
  {| shown := t_workspaces sandboxId v; under_way := fl_op <$> head (t_flights v) |}.

(** ** The invariant *)

(** The flags the guards read say what is really under way. *)
Definition busy_flags (fs : list flight_op) (s : sidebar) : Prop :=
  match fs with
  | [] => createBusy s = false ∧ busyAction s = None ∧ busySessionId s = None
  | [f] =>
      match fl_op f with
      | op_create _ => createBusy s = true ∧ busyAction s = None ∧ busySessionId s = None ∧ fl_waits f = None
      | op_publish i => createBusy s = false ∧ busyAction s = Some action_publish ∧ busySessionId s = Some i
      | op_discard i _ => createBusy s = false ∧ busyAction s = Some action_discard ∧ busySessionId s = Some i
      end
  | _ => False
  end.

Record term_core (v : term) : Prop := {
  core_busy : busy_flags (t_flights v) (side v);
  core_cleanup : cleanupRequiredIds (side v) ⊆ t_failed v;
}.

Record term_ok (sandboxId : jsstr) (v : term) : Prop := {
  ok_core :> term_core v;
  ok_confirm i : discardConfirmId (side v) = Some i → i ≠ [] → i ∈ snapshot_workspace_id <$> t_workspaces sandboxId v;
  ok_problem q : actionProblem (side v) = Some q → problem_session q ∈ snapshot_workspace_id <$> t_workspaces sandboxId v;
  ok_created c : createdSession (side v) = Some c → created_id c ∉ snapshot_workspace_id <$> t_workspaces sandboxId v;
}.

Section facts.
Context (sandboxId : jsstr).
Implicit Types (v : term) (s : sidebar).

Lemma drop_created_spec ws s :
  (∀ fs, busy_flags fs (drop_created ws s) = busy_flags fs s) ∧
  cleanupRequiredIds (drop_created ws s) = cleanupRequiredIds s ∧
  discardConfirmId (drop_created ws s) = discardConfirmId s ∧ actionProblem (drop_created ws s) = actionProblem s ∧
  (∀ c, createdSession (drop_created ws s) = Some c → created_id c ∉ snapshot_workspace_id <$> ws).
Proof.
  unfold drop_created. destruct (createdSession s) as [c|] eqn:Hc; [|split_and!; try done; by rewrite Hc].
  destruct (js_some _ ws) eqn:Hs; split_and!; try done. rewrite Hc. intros c' [= <-] (w & Heq & Hw)%list_elem_of_fmap.
  rewrite js_some_none in Hs. specialize (Hs w Hw). by rewrite bool_decide_true in Hs.
Qed.

Lemma drop_stale_spec ws s :
  (∀ fs, busy_flags fs (drop_stale ws s) = busy_flags fs s) ∧
  cleanupRequiredIds (drop_stale ws s) = cleanupRequiredIds s ∧
  createdSession (drop_stale ws s) = createdSession s ∧
  (∀ i, discardConfirmId (drop_stale ws s) = Some i → i ≠ [] → i ∈ snapshot_workspace_id <$> ws) ∧
  (∀ q, actionProblem (drop_stale ws s) = Some q → problem_session q ∈ snapshot_workspace_id <$> ws).
Proof.
  unfold drop_stale. 
  set (s1 := match discardConfirmId s with Some i => _ | None => s end).
  assert ((∀ fs, busy_flags fs s1 = busy_flags fs s) ∧ cleanupRequiredIds s1 = cleanupRequiredIds s ∧
          createdSession s1 = createdSession s ∧
          (∀ i, discardConfirmId s1 = Some i → i ≠ [] → i ∈ snapshot_workspace_id <$> ws)) as (Hb & Hc & Hcr & Hd).
  { unfold s1, truthy_text. destruct (discardConfirmId s) as [i|] eqn:Hi; [|by split_and!; try done; rewrite Hi].
    cbn [default from_option]. unfold Datatypes.id. destruct (decide (i = [])) as [->|Hne].
    - rewrite bool_decide_false by (by intros H; apply H). cbn [andb]. split_and!; try done. rewrite Hi. by intros i [= <-].
    - rewrite (bool_decide_true (i ≠ [])) by done. cbn [andb]. destruct (bool_decide_reflect (i ∉ snapshot_workspace_id <$> ws)) as [?|H].
      + by split_and!.
      + split_and!; try done. rewrite Hi. intros i' [= <-] _. by apply dec_stable in H. }
  clearbody s1. destruct (actionProblem s1) as [q|] eqn:Hq; [|split_and!; try done; by rewrite Hq].
  case_bool_decide as Hin; split_and!; try done. rewrite Hq. by intros q' [= <-].
Qed.

Lemma settle_ok v : term_core v → term_ok sandboxId (settle sandboxId v).
Proof.
  intros [Hb Hc]. set (ws := t_workspaces sandboxId v).
  destruct (drop_created_spec ws (side v)) as (Hb1 & Hc1 & _ & _ & Hcr1).
  destruct (drop_stale_spec ws (drop_created ws (side v))) as (Hb2 & Hc2 & Hcr2 & Hd & Hp).
  subst ws. constructor; [constructor|..]; cbn.
  - by rewrite Hb2, Hb1.
  - by rewrite Hc2, Hc1.
  - apply Hd.
  - apply Hp.
  - intros c. rewrite Hcr2. apply Hcr1.
Qed.

(** Callbacks leave the sidebar and the calls alone. *)
Lemma run_effects_frame snap es v :
  side (run_effects sandboxId snap es v) = side v ∧ t_flights (run_effects sandboxId snap es v) = t_flights v ∧
  t_sent (run_effects sandboxId snap es v) = t_sent v ∧ t_snapshot (run_effects sandboxId snap es v) = t_snapshot v ∧
  t_failed v ⊆ t_failed (run_effects sandboxId snap es v) ∧
  (∀ i, FinalizationFailed i ∈ es → i ∈ t_failed (run_effects sandboxId snap es v)).
Proof.
  unfold run_effects. revert v. induction es as [|e es IH]; intros v; cbn [foldl]; [split_and!; try done; set_solver|].
  destruct (IH (run_effect sandboxId snap v e)) as (-> & -> & -> & -> & Hf & Hin).
  assert (side (run_effect sandboxId snap v e) = side v ∧ t_flights (run_effect sandboxId snap v e) = t_flights v ∧
          t_sent (run_effect sandboxId snap v e) = t_sent v ∧ t_snapshot (run_effect sandboxId snap v e) = t_snapshot v ∧
          t_failed v ⊆ t_failed (run_effect sandboxId snap v e) ∧
          (∀ i, e = FinalizationFailed i → i ∈ t_failed (run_effect sandboxId snap v e))) as (-> & -> & -> & -> & Hs & He).
  { destruct e; cbn; try (split_and!; try done; by intros); [by destruct (onSelect _ _ _ _ _)|].
    split_and!; try done; [set_solver|]. intros i [= ->]. set_solver. }
  split_and!; try done; [set_solver|]. intros i [Heq|Hi]%elem_of_cons; [|by apply Hin]. by apply Hf, He.
Qed.

Lemma idle fs s : busy_flags fs s → createBusy s = false → busyAction s = None → fs = [].
Proof. destruct fs as [|f [|? ?]]; cbn; [done| |done]. destruct (fl_op f); naive_solver congruence. Qed.

Lemma no_commands {A} (l : list A) : (0 <? length l)%nat = false → l = [].
Proof. destruct l; [done|]. cbn. discriminate. Qed.

(** What the guards of the three calls establish, and the flags they set. *)
Lemma createSession_spec s s' :
  createSession s = Some s' → createBusy s = false ∧ busyAction s = None ∧ s' = with_createBusy true s.
Proof.
  unfold createSession. destruct (createBusy s); [done|]. cbn [orb]. case_bool_decide as H; [done|]. intros [= <-]. done.
Qed.

Lemma publishSession_spec p i s s' :
  publishSession p i s = Some s' →
  createBusy s = false ∧ busyAction s = None ∧ permitted (sp_workspaces p) (op_publish i) ∧
  s' = with_problem None (with_confirm None (with_busy (Some (i, action_publish)) s)).
Proof.
  unfold publishSession. destruct (workspace_of _ _) as [w|] eqn:Hw; [|done]. apply workspace_of_some in Hw as [Hw Hi].
  destruct (finalization_state w) eqn:Hf; [|done..]. destruct (createBusy s); [done|]. cbn [orb].
  case_bool_decide as Hb; [done|]. cbn [orb]. destruct (0 <? _)%nat eqn:Hn; [done|]. intros [= <-].
  apply no_commands in Hn. split_and!; try done. by exists w.
Qed.

Lemma destroySession_spec p i s s' cleanup :
  destroySession p i s = Some (s', cleanup) →
  createBusy s = false ∧ busyAction s = None ∧ permitted (sp_workspaces p) (op_discard i cleanup) ∧
  s' = with_problem None (with_busy (Some (i, action_discard)) s) ∧
  cleanup = cleanup_required s i (finalization_state <$> workspace_of (sp_workspaces p) (Some i)).
Proof.
  unfold destroySession. destruct (workspace_of _ _) as [w|] eqn:Hw; [|done]. apply workspace_of_some in Hw as [Hw Hi].
  cbn [fmap option_fmap option_map]. set (c := cleanup_required _ _ _).
  destruct (createBusy s); [done|]. cbn [orb]. case_bool_decide as Hb; [done|]. cbn [orb].
  destruct (negb c && _) eqn:Hc; [done|]. cbn [orb]. destruct (0 <? _)%nat eqn:Hn; [done|]. intros [= <- <-].
  apply no_commands in Hn. split_and!; try done. exists w. split_and!; try done. intros Hcf. rewrite Hcf in Hc.
  by destruct (finalization_state w).
Qed.

(** An answer leaves the flags of a call that is finished or still waiting. *)
Lemma answers_spec f s a :
  answers f s a → busy_flags [f] s →
  busy_flags match ans_waits a with
             | None => []
             | Some notes => [{| fl_op := fl_op f; fl_props := fl_props f; fl_snapshot := fl_snapshot f; fl_waits := Some notes |}]
             end (ans_state a) ∧
  (∀ i, i ∈ cleanupRequiredIds (ans_state a) → i ∈ cleanupRequiredIds s ∨ FinalizationFailed i ∈ ans_effects a).
Proof.
  intros Ha. cbn [busy_flags]. destruct Ha as [n r Hop|i r Hop|i c r Hop]; rewrite Hop; intros Hflags.
  - destruct r; cbn; naive_solver.
  - destruct r as [out|e]; cbn; [split; [naive_solver|set_solver]|].
    unfold publishSession_answers. destruct (closeProblem e); cbn; (split; [naive_solver|set_solver]).
  - destruct r as [out|e]; cbn; (split; [naive_solver|set_solver]).
Qed.

(** A call in the list of those under way is the only one. *)
Lemma single_flight before f after s : busy_flags (before ++ f :: after) s → before = [] ∧ after = [] ∧ busy_flags [f] s.
Proof. destruct before as [|? [|]]; [destruct after|..]; done. Qed.

(** The specification's view of the next state, and the call sent if any. *)
Definition follows v v' (l : option session_op) : Prop :=
  (lifecycle_of sandboxId v' = lifecycle_of sandboxId v ∧ l = None ∨
   lifecycle_step (lifecycle_of sandboxId v) l (lifecycle_of sandboxId v')) ∧
  t_sent v' = t_sent v ++ option_list l.

(** A change of neither the calls nor the workspaces. *)
Lemma quiet_follows v v' :
  t_flights v' = t_flights v → t_sent v' = t_sent v → t_workspaces sandboxId v' = t_workspaces sandboxId v →
  follows v v' None.
Proof. intros Hf Hs Hw. split; [left; unfold lifecycle_of; by rewrite Hf, Hw|cbn; by rewrite Hs, app_nil_r]. Qed.

Lemma send_follows op s v :
  term_core v → t_flights v = [] → permitted (t_workspaces sandboxId v) op → cleanupRequiredIds s = cleanupRequiredIds (side v) →
  busy_flags [{| fl_op := op; fl_props := props_of sandboxId v; fl_snapshot := t_snapshot v; fl_waits := None |}] s →
  term_core (send sandboxId op s v) ∧ follows v (send sandboxId op s v) (Some op).
Proof.
  intros [_ Hc] Hf Hp Hcl Hb. unfold send. rewrite Hf. split; [constructor; [exact Hb|cbn; by rewrite Hcl]|].
  split; [right|done]. unfold lifecycle_of. rewrite Hf. by constructor.
Qed.

(** The handlers of buttons and of the menu. *)
Lemma press_follows i b v :
  term_core v → term_core (press sandboxId i b v) ∧ ∃ l, follows v (press sandboxId i b v) l ∧
    (∀ op, l = Some op → t_flights v = [] ∧
       match b with
       | button_publish => op = op_publish i
       | button_cleanup | button_confirm => ∃ c, op = op_discard i c ∧
           c = cleanup_required (side v) i (finalization_state <$> workspace_of (t_workspaces sandboxId v) (Some i))
       | _ => False
       end).
Proof.
  intros Hcore. assert (Hquiet : ∀ s, busy_flags (t_flights v) s → cleanupRequiredIds s = cleanupRequiredIds (side v) →
    term_core (with_side s v)).
  { intros s Hb Hc. constructor; [exact Hb|cbn; rewrite Hc; apply Hcore]. }
  assert (∀ P : session_op → Prop, term_core v ∧ ∃ l, follows v v l ∧ (∀ op, l = Some op → t_flights v = [] ∧ P op)) as Hsame
    by (intros P; split; [done|]; exists None; split; [by apply quiet_follows|done]).
  assert (term_core (onDiscard sandboxId i v) ∧ ∃ l, follows v (onDiscard sandboxId i v) l ∧
    (∀ op, l = Some op → t_flights v = [] ∧ ∃ c, op = op_discard i c ∧
       c = cleanup_required (side v) i (finalization_state <$> workspace_of (t_workspaces sandboxId v) (Some i)))) as Hdiscard.
  { unfold onDiscard. destruct (destroySession _ _ _) as [[s c]|] eqn:Hd; [|apply Hsame].
    apply destroySession_spec in Hd as (Hcb & Hba & Hp & -> & Hcl). pose proof (idle _ _ (core_busy _ Hcore) Hcb Hba) as Hf.
    destruct (send_follows (op_discard i c) (with_problem None (with_busy (Some (i, action_discard)) (side v))) v
      Hcore Hf Hp eq_refl) as [Hc Hfo]; [cbn; by rewrite Hcb|].
    split; [exact Hc|]. eexists. split; [exact Hfo|]. intros op [= <-]. split; [done|]. by exists c. }
  destruct b; cbn [press]; try exact Hdiscard.
  - split; [apply Hquiet; [apply Hcore|done]|]. exists None. split; [by apply quiet_follows|done].
  - destruct (publishSession _ _ _) as [s|] eqn:Hd; [|apply Hsame].
    apply publishSession_spec in Hd as (Hcb & Hba & Hp & ->). pose proof (idle _ _ (core_busy _ Hcore) Hcb Hba) as Hf.
    destruct (send_follows (op_publish i) (with_problem None (with_confirm None (with_busy (Some (i, action_publish)) (side v)))) v
      Hcore Hf Hp eq_refl) as [Hc Hfo]; [cbn; by rewrite Hcb|].
    split; [exact Hc|]. eexists. split; [exact Hfo|]. by intros op [= <-].
  - split; [apply Hquiet; [apply Hcore|done]|]. exists None. split; [by apply quiet_follows|done].
Qed.

Lemma create_follows n v :
  term_core v → term_core (onCreate sandboxId n v) ∧ ∃ l, follows v (onCreate sandboxId n v) l ∧
    (∀ op, l = Some op → t_flights v = [] ∧ op = op_create n).
Proof.
  intros Hcore. unfold onCreate. destruct (createSession _) as [s|] eqn:Hc.
  - apply createSession_spec in Hc as (Hcb & Hba & ->). pose proof (idle _ _ (core_busy _ Hcore) Hcb Hba) as Hf.
    assert (busySessionId (side v) = None) as Hid by (pose proof (core_busy _ Hcore) as H; rewrite Hf in H; apply H).
    destruct (send_follows (op_create n) (with_createBusy true (side v)) v Hcore Hf I eq_refl) as [Hc Hfo];
      [cbn; by rewrite Hba|].
    split; [exact Hc|]. eexists. split; [exact Hfo|]. by intros op [= <-].
  - split; [done|]. exists None. split; [by apply quiet_follows|done].
Qed.

(** An answer, and the end of the wait. *)
Lemma deliver_follows v before f after a :
  term_core v → t_flights v = before ++ f :: after → answers f (side v) a →
  term_core (deliver sandboxId before f after a v) ∧ follows v (deliver sandboxId before f after a v) None.
Proof.
  intros [Hb Hc] Hf Ha. rewrite Hf in Hb. apply single_flight in Hb as (-> & -> & Hb).
  destruct (answers_spec f (side v) a Ha Hb) as [Hb' Hcl]. unfold deliver.
  match goal with |- context [run_effects _ ?snap ?es ?w] =>
    destruct (run_effects_frame snap es w) as (Hs & Hfl & Hse & Hsn & Hfa & Hin) end.
  split; [constructor|split].
  - rewrite Hs, Hfl. cbn. by rewrite app_nil_r.
  - rewrite Hs. cbn in *. set_solver.
  - unfold lifecycle_of, t_workspaces. rewrite Hfl, Hsn, Hf. cbn. rewrite app_nil_r.
    destruct (ans_waits a); [left; split; reflexivity|right; constructor].
  - rewrite Hse. symmetry. apply app_nil_r.
Qed.

Lemma refreshed_follows v before f after notes :
  term_core v → t_flights v = before ++ f :: after → fl_waits f = Some notes →
  term_core (refreshed sandboxId before f after notes v) ∧ follows v (refreshed sandboxId before f after notes v) None.
Proof.
  intros [Hb Hc] Hf Hw. rewrite Hf in Hb. apply single_flight in Hb as (-> & -> & Hb). unfold refreshed.
  match goal with |- context [run_effects _ ?snap ?es ?w] =>
    destruct (run_effects_frame snap es w) as (Hs & Hfl & Hse & Hsn & Hfa & Hin) end.
  split; [constructor|split].
  - rewrite Hs, Hfl. cbn in Hb |- *. destruct (fl_op f); naive_solver congruence.
  - rewrite Hs. cbn in *. set_solver.
  - unfold lifecycle_of, t_workspaces. rewrite Hfl, Hsn, Hf. right. constructor.
  - rewrite Hse. symmetry. apply app_nil_r.
Qed.
End facts.

Section facts.
Context (sandboxId : jsstr).
Implicit Types v : term.

(** One step from a good state. *)
Lemma step_ok v v' :
  term_ok sandboxId v → term_step sandboxId v v' → term_ok sandboxId v' ∧ ∃ l, follows sandboxId v v' l.
Proof.
  intros Hok Hstep. pose proof (ok_core _ _ Hok) as Hcore.
  assert (∀ w l, term_core w ∧ follows sandboxId v w l → term_ok sandboxId (settle sandboxId w) ∧ ∃ l, follows sandboxId v (settle sandboxId w) l)
    as Hsettle by (intros w l [Hc Hf]; split; [by apply settle_ok|exists l; exact Hf]).
  assert (∀ w, t_flights w = t_flights v → side w = side v ∨ (busy_flags (t_flights v) (side w) ∧ cleanupRequiredIds (side w) = cleanupRequiredIds (side v)) →
     t_sent w = t_sent v → t_failed v ⊆ t_failed w → t_workspaces sandboxId w = t_workspaces sandboxId v →
     term_ok sandboxId (settle sandboxId w) ∧ ∃ l, follows sandboxId v (settle sandboxId w) l) as Hquiet.
  { intros w Hf Hs Hse Hfa Hw. apply (Hsettle w None). split; [|by apply quiet_follows].
    destruct Hcore as [Hb Hc]. destruct Hs as [Hs|[Hb' Hs]]; constructor; rewrite ?Hf, ?Hs; try done; set_solver. }
  destruct Hstep as [v snap Hne|v snap Heq|v r b Hr Hb|v n Hb|v before f after a Hf Hw Ha|v before f after notes Hf Hw|v m i|v params|v|v|v narrow].
  - apply (Hsettle _ None). split; [|split; [right; constructor|symmetry; apply app_nil_r]].
    destruct Hcore as [Hbusy Hc]. constructor; [exact Hbusy|cbn; set_solver].
  - by apply Hquiet; [..|left|done|done|].
  - destruct (press_follows sandboxId (row_session r) b v Hcore) as [Hc (l & Hl & _)]. by apply (Hsettle _ l).
  - destruct (create_follows sandboxId n v Hcore) as [Hc (l & Hl & _)]. by apply (Hsettle _ l).
  - apply (Hsettle _ None). by apply deliver_follows.
  - apply (Hsettle _ None). by apply refreshed_follows.
  - assert (Hrun := run_effects_frame sandboxId (t_snapshot v) [Select m i] v). cbn [run_effects foldl] in Hrun.
    destruct Hrun as (Hs & Hfl & Hse & Hsn & Hfa & _). apply Hquiet; try done; [by left|]. unfold t_workspaces. by rewrite Hsn.
  - by apply Hquiet; [..|left|done|done|].
  - by apply Hquiet; [..|left|done|done|].
  - by apply Hquiet; [..|right; split; [apply Hcore|]|done|done|].
  - by apply Hquiet; [..|left|done|done|].
Qed.

(** Where a call comes from. *)
Lemma step_sends v v' op :
  term_ok sandboxId v → term_step sandboxId v v' → t_sent v' = t_sent v ++ [op] →
  (∃ n, op = op_create n) ∨
  ∃ r b, r ∈ session_rows (t_workspaces sandboxId v) (side v) ∧ (b, true) ∈ row_buttons (side v) r ∧
    match b with
    | button_publish => op = op_publish (row_session r)
    | button_cleanup | button_confirm => ∃ c, op = op_discard (row_session r) c ∧
        c = cleanup_required (side v) (row_session r)
              (finalization_state <$> workspace_of (t_workspaces sandboxId v) (Some (row_session r)))
    | _ => False
    end.
Proof.
  intros Hok Hstep Hsent. pose proof (ok_core _ _ Hok) as Hcore.
  assert (∀ w l, follows sandboxId v w l → t_sent w = t_sent v ++ [op] → l = Some op) as Hop.
  { intros w l [_ Hs] H. rewrite H in Hs. apply app_inv_head in Hs. destruct l as [x|]; [by injection Hs as ->|done]. }
  assert (∀ w, follows sandboxId v w None → t_sent w = t_sent v ++ [op] → False) as Hno
    by (intros w Hf H; specialize (Hop w None Hf H); discriminate).
  assert (t_sent v = t_sent v ++ [op] → False) as Hself.
  { intros H. apply (f_equal length) in H. rewrite length_app in H. cbn in H. lia. }
  destruct Hstep as [v snap _|v snap _|v r b Hr Hb|v n _|v before f after a Hf _ Ha|v before f after notes Hf Hw|v m i|v params|v|v|v narrow].
  all: try (exfalso; exact (Hself Hsent)).
  - destruct (press_follows sandboxId (row_session r) b v Hcore) as [_ (l & Hl & Hfrom)].
    right. exists r, b. split_and!; try done. exact (proj2 (Hfrom op (Hop _ l Hl Hsent))).
  - destruct (create_follows sandboxId n v Hcore) as [_ (l & Hl & Hfrom)].
    left. exists n. exact (proj2 (Hfrom op (Hop _ l Hl Hsent))).
  - exfalso. apply (Hno (deliver sandboxId before f after a v)); [by apply deliver_follows|exact Hsent].
  - exfalso. apply (Hno (refreshed sandboxId before f after notes v)); [by apply refreshed_follows|exact Hsent].
  - exfalso. apply (Hno (run_effect sandboxId (t_snapshot v) v (Select m i))); [|exact Hsent].
    destruct (run_effects_frame sandboxId (t_snapshot v) [Select m i] v) as (_ & Hfl & Hse & Hsn & _).
    apply quiet_follows; [done..|]. unfold t_workspaces. cbn [run_effects foldl] in Hsn. by rewrite Hsn.
Qed.

Lemma reachable_ok params narrow v : reachable_term sandboxId (initial_term params narrow) v → term_ok sandboxId v.
Proof.
  induction 1 as [|v v' _ IH Hstep]; [|by eapply step_ok]. by repeat constructor.
Qed.

Lemma one_flight_busy fs s : busy_flags fs s → (length fs ≤ 1)%nat.
Proof. destruct fs as [|? [|? ?]]; cbn; [lia|lia|done]. Qed.

Lemma mutationBusy_flags fs s : busy_flags fs s → (fs ≠ [] ↔ mutationBusy s = true).
Proof.
  unfold mutationBusy. destruct fs as [|f [|? ?]]; cbn; [intros (-> & -> & _); naive_solver| |done].
  destruct (fl_op f); [intros (-> & _)|intros (-> & -> & _)..]; naive_solver.
Qed.

Lemma mutationBusy_idle fs s : busy_flags fs s → fs = [] → mutationBusy s = false.
Proof. intros Hb%mutationBusy_flags ->. destruct (mutationBusy s); [|done]. by destruct (proj2 Hb). Qed.

Lemma deliver_flights before f after a v :
  t_flights (settle sandboxId (deliver sandboxId before f after a v)) =
  before ++ match ans_waits a with
            | None => []
            | Some notes => [{| fl_op := fl_op f; fl_props := fl_props f; fl_snapshot := fl_snapshot f; fl_waits := Some notes |}]
            end ++ after.
Proof.
  change (t_flights (settle _ ?w)) with (t_flights w). unfold deliver.
  match goal with |- context [run_effects _ ?snap ?es ?u] =>
    by destruct (run_effects_frame sandboxId snap es u) as (_ & -> & _) end.
Qed.

Lemma refreshed_flights before f after notes v :
  t_flights (settle sandboxId (refreshed sandboxId before f after notes v)) = before ++ after.
Proof.
  change (t_flights (settle _ ?w)) with (t_flights w). unfold refreshed.
  match goal with |- context [run_effects _ ?snap ?es ?u] =>
    by destruct (run_effects_frame sandboxId snap es u) as (_ & -> & _) end.
Qed.

(** A row with buttons is that of a listed session. *)
Lemma persisted_row ws s r :
  r ∈ session_rows ws s → persisted r = true →
  ∃ w, w ∈ ws ∧ r = listed_row w ∧ snapshot_workspace_id w ∉ closedSessionIds s.
Proof.
  unfold session_rows. set (rows := listed_row <$> _). intros Hr Hp.
  assert (r ∈ rows) as Hin.
  { destruct (createdSession s) as [c|]; [|done]. destruct (js_some _ rows); [done|].
    apply elem_of_app in Hr as [Hr| ->%list_elem_of_singleton]; done. }
  apply list_elem_of_fmap in Hin as (w & -> & [Hw Hc]%js_filter_elem). exists w. split_and!; try done.
  by apply negb_true_iff, bool_decide_eq_false in Hc.
Qed.

Lemma row_buttons_spec s r b :
  (b, true) ∈ row_buttons s r → persisted r = true ∧ mutationBusy s = false ∧
  match b with
  | button_cleanup => row_cleanup s r = true ∧ disabledReason s r = None
  | button_keep => row_cleanup s r = false ∧ confirming s r = true
  | button_confirm => row_cleanup s r = false ∧ confirming s r = true ∧ disabledReason s r = None
  | button_publish | button_discard => row_cleanup s r = false ∧ confirming s r = false ∧ disabledReason s r = None
  end.
Proof.
  unfold row_buttons. destruct (persisted r); [|by intros ?%not_elem_of_nil]. by intros ?%action_buttons_spec.
Qed.

End facts.

(** ** Theorems *)

(** C7: the sidebar refines one mutation at a time. Whatever order clicks,
    answers, fetched snapshots, changes of the address and of the window come
    in, every step of the sidebar in the terminal tab is a step of the
    specification or changes nothing of it: a call is sent only when none is
    under way, for a session that the shown snapshot permits it for (a
    publication of an active session without commands, a discard of one
    without commands that is active or needs cleanup), exactly the calls of
    the specification are sent, and at most one is under way. *)
Theorem sessions_refine_lifecycle sandboxId params narrow v v'
    (Hreach : reachable_term sandboxId (initial_term params narrow) v) (Hstep : term_step sandboxId v v') :
  ∃ l, (lifecycle_of sandboxId v' = lifecycle_of sandboxId v ∧ l = None ∨
        lifecycle_step (lifecycle_of sandboxId v) l (lifecycle_of sandboxId v')) ∧
       t_sent v' = t_sent v ++ option_list l ∧ (length (t_flights v') ≤ 1)%nat.
Proof.
  destruct (step_ok sandboxId v v') as [Hok (l & Hl & Hs)]; [by eapply reachable_ok|done|].
  exists l. split_and!; [done..|]. eapply one_flight_busy, Hok.
Qed.

(** C21: nothing is discarded by accident. With the workspaces' identifiers
    distinct, a discard that is not a cleanup is sent only for the session
    whose confirmation is shown and that is active, by pressing the confirming
    button, while a cleanup is sent without one only for a session the daemon
    or a failed publication reported as needing it; a publication is sent only
    for a session that needs no cleanup and is not being confirmed. *)
Theorem discard_needs_confirmation sandboxId params narrow v v' op
    (Hreach : reachable_term sandboxId (initial_term params narrow) v) (Hstep : term_step sandboxId v v')
    (Hnd : NoDup (snapshot_workspace_id <$> t_workspaces sandboxId v)) (Hsent : t_sent v' = t_sent v ++ [op]) :
  match op with
  | op_create _ => True
  | op_publish i => i ∉ cleanupRequiredIds (side v) ∧ discardConfirmId (side v) ≠ Some i ∧ i ∉ closedSessionIds (side v)
  | op_discard i true => i ∉ closedSessionIds (side v) ∧ (i ∈ cleanupRequiredIds (side v) ∨
      ∃ w, w ∈ t_workspaces sandboxId v ∧ snapshot_workspace_id w = i ∧ finalization_state w = finalize_failed)
  | op_discard i false => i ∉ closedSessionIds (side v) ∧ discardConfirmId (side v) = Some i ∧
      i ∉ cleanupRequiredIds (side v)
  end.
Proof.
  destruct (step_sends sandboxId v v' op) as [[n ->]|(r & b & Hr & Hb & Hop)];
    [by eapply reachable_ok|done|done|done|].
  apply row_buttons_spec in Hb as (Hp & _ & Hb). apply persisted_row in Hr as (w & Hw & -> & Hcl); [|done].
  cbn [row_session listed_row] in Hop. destruct b; try done.
  - destruct Hop as (c & -> & ->). destruct Hb as [Hb _]. rewrite workspace_of_unique by done.
    change (cleanup_required _ _ _) with (row_cleanup (side v) (listed_row w)). rewrite Hb. split; [done|].
    apply orb_true_iff in Hb as [Hb%bool_decide_eq_true|Hb]; [by left|right; exists w]. cbn in Hb.
    by destruct (finalization_state w).
  - destruct Hop as (c & -> & ->). destruct Hb as (Hb & Hconf & _). rewrite workspace_of_unique by done.
    change (cleanup_required _ _ _) with (row_cleanup (side v) (listed_row w)). rewrite Hb.
    apply bool_decide_eq_true in Hconf. apply orb_false_iff in Hb as [Hb%bool_decide_eq_false _]. done.
  - subst op. destruct Hb as (Hb & Hconf & _). apply bool_decide_eq_false in Hconf.
    apply orb_false_iff in Hb as [Hb%bool_decide_eq_false _]. done.
Qed.

(** C20: what the sidebar shows is safe to use. In every reachable state of the
    terminal tab: while a call is under way no button of any row can be
    pressed and none can be created; rows with buttons are those of listed
    sessions that were not closed here, and a problem is shown only for a
    listed session; and commands cannot be composed in a session that needs
    cleanup. *)
Theorem sidebar_shows sandboxId params narrow v (Hreach : reachable_term sandboxId (initial_term params narrow) v) :
  (t_flights v ≠ [] ↔ mutationBusy (side v) = true) ∧
  (∀ r b, r ∈ session_rows (t_workspaces sandboxId v) (side v) → (b, true) ∈ row_buttons (side v) r →
     t_flights v = [] ∧ row_session r ∉ closedSessionIds (side v) ∧
     row_session r ∈ snapshot_workspace_id <$> t_workspaces sandboxId v) ∧
  (∀ q, actionProblem (side v) = Some q → problem_session q ∈ snapshot_workspace_id <$> t_workspaces sandboxId v) ∧
  (∀ target, footer (t_snapshot v) sandboxId (t_params v) (t_optimistic v) (t_failed v) = footer_composer (Some target) →
     target ∉ cleanupRequiredIds (side v)).
Proof.
  pose proof (reachable_ok _ _ _ _ Hreach) as Hok. destruct (ok_core _ _ Hok) as [Hb Hc].
  pose proof (mutationBusy_flags _ _ Hb) as Hbusy.
  split_and!; [done| |apply Hok|].
  - intros r b Hr Hbut. apply row_buttons_spec in Hbut as (Hp & Hm & _). apply persisted_row in Hr as (w & Hw & -> & Hcl); [|done].
    cbn [row_session listed_row]. split_and!; [|done|by apply list_elem_of_fmap_2]. destruct (t_flights v); [done|]. destruct Hbusy as [Hbusy _].
    by rewrite Hbusy in Hm.
  - intros target (_ & Hf & _)%footer_composer_spec Hin. by apply Hf, Hc.
Qed.

(** The sidebar is never stuck: whatever a call under way is answered
    with, success or any error, the buttons are released at once or as soon
    as the snapshot it then waits for has been fetched or has failed to be. *)
Theorem mutation_ends sandboxId params narrow v f (Hreach : reachable_term sandboxId (initial_term params narrow) v)
    (Hf : t_flights v = [f]) :
  let idle_again w := mutationBusy (side w) = false ∧ t_flights w = [] in
  let ends w g := ∀ notes, fl_waits g = Some notes → idle_again (settle sandboxId (refreshed sandboxId [] g [] notes w)) in
  ends v f ∧
  (fl_waits f = None → ∀ a, answers f (side v) a →
     let w := settle sandboxId (deliver sandboxId [] f [] a v) in
     idle_again w ∨ ∃ g notes, t_flights w = [g] ∧ fl_waits g = Some notes ∧ fl_op g = fl_op f ∧ ends w g).
Proof.
  pose proof (ok_core _ _ (reachable_ok _ _ _ _ Hreach)) as Hcore. cbv zeta.
  assert (∀ w g notes, term_core w → t_flights w = [g] → fl_waits g = Some notes →
    let w' := settle sandboxId (refreshed sandboxId [] g [] notes w) in mutationBusy (side w') = false ∧ t_flights w' = []) as Hends.
  { intros w g notes Hw Hg Hn. destruct (refreshed_follows sandboxId w [] g [] notes) as [Hw' _]; [done..|].
    apply settle_ok with (sandboxId := sandboxId) in Hw'. cbv zeta. set (w' := settle _ _) in *.
    assert (t_flights w' = []) as Hf' by apply refreshed_flights.
    split; [|done]. exact (mutationBusy_idle _ _ (core_busy _ (ok_core _ _ Hw')) Hf'). }
  split; [intros notes Hn; by apply Hends|]. intros Hw a Ha.
  destruct (deliver_follows sandboxId v [] f [] a) as [Hd _]; [done..|].
  pose proof (settle_ok sandboxId _ Hd) as Hok. set (w := settle _ _) in *.
  assert (t_flights w = match ans_waits a with
                        | None => []
                        | Some notes => [{| fl_op := fl_op f; fl_props := fl_props f; fl_snapshot := fl_snapshot f; fl_waits := Some notes |}]
                        end) as Hfl.
  { unfold w. rewrite deliver_flights. apply app_nil_r. }
  destruct (ans_waits a) as [notes|].
  - right. eexists _, notes. split_and!; [exact Hfl|done..|]. intros notes' [= <-]. by apply Hends; [apply Hok|..].
  - left. split; [|done]. exact (mutationBusy_idle _ _ (core_busy _ (ok_core _ _ Hok)) Hfl).
Qed.

(** A publication gives the user another selection than the one made
    while it was under way. If its session was selected when the button was
    pressed, its success leaves the terminal on quick runs, whichever session
    was selected since: the handler still compares with the props of the
    render in which it was pressed. *)
Theorem publish_drops_later_selection sandboxId v f i out
    (Hf : t_flights v = [f]) (Hmode : sp_mode (fl_props f) = mode_session) (Hsel : sp_selected (fl_props f) = Some i) :
  let w := settle sandboxId (deliver sandboxId [] f [] (publishSession_answers (fl_props f) i (Returns out) (side v)) v) in
  param_session (t_params w) = None ∧ terminal_mode (t_snapshot w) sandboxId (t_params w) (t_optimistic w) = mode_quick.
Proof.
  cbv zeta. unfold publishSession_answers, closeSuccessfulSession. rewrite Hmode, Hsel, !bool_decide_true by done.
  by destruct (sp_narrow (fl_props f)).
Qed.

(** ** A run *)

Definition example_workspace (i : string) : WorkspaceSnapshot :=
  {| snapshot_workspace_id := js i; workspace_lifecycle_state := js "active"; finalization_state := finalization_active;
     network_profile := shared; base_root_hash := []; workspace_layer_count := 1; namespace_fd_count := 0;
     workspace_resources := {| latest := None; history := [] |}; active_namespace_executions := [] |}.

Definition example_view : SnapshotResult :=
  {| snapshots := [{| sandbox_id := js "a"; snapshot_lifecycle_state := js "ready"; availability := js "available";
       snapshot_sampled_at := 0; snapshot_errors := []; snapshot_daemon := None;
       snapshot_resources := {| latest := None; history := [] |};
       workspaces := [example_workspace "s1"; example_workspace "s2"];
       stack := {| layer_count := 1; layers_bytes := 0; active_leases := 0 |} |}] |}.

Definition example_start : term := initial_term {| param_session := None; param_view := None |} false.
Definition run_listed : term := observe (js "a") (Some example_view) example_start.
Definition run_select (i : string) (v : term) : term :=
  settle (js "a") (run_effect (js "a") (t_snapshot v) v (Select mode_session (Some (js i)))).
Definition run_press (b : row_button) (v : term) : term := settle (js "a") (press (js "a") (js "s1") b v).

Lemma run_press_step b v :
  listed_row (example_workspace "s1") ∈ session_rows (t_workspaces (js "a") v) (side v) →
  (b, true) ∈ row_buttons (side v) (listed_row (example_workspace "s1")) → term_step (js "a") v (run_press b v).
Proof. intros Hr Hb. exact (step_press (js "a") v _ b Hr Hb). Qed.

Lemma run_listed_reachable : reachable_term (js "a") example_start run_listed.
Proof. eapply term_next; [apply term_init|]. apply step_observe. by vm_compute. Qed.

Lemma run_press_enabled v n b :
  session_rows (t_workspaces (js "a") v) (side v) !! 0%nat = Some (listed_row (example_workspace "s1")) →
  row_buttons (side v) (listed_row (example_workspace "s1")) !! n = Some (b, true) → term_step (js "a") v (run_press b v).
Proof. intros Hr Hb. apply run_press_step; by eapply list_elem_of_lookup_2. Qed.

Definition run_selected : term := run_select "s1" run_listed.
Definition run_publishing : term := run_press button_publish run_selected.

Lemma run_selected_reachable : reachable_term (js "a") example_start run_selected.
Proof. eapply term_next; [apply run_listed_reachable|apply step_select]. Qed.

Lemma run_publishing_step : term_step (js "a") run_selected run_publishing.
Proof. by apply (run_press_enabled _ 0). Qed.

Lemma run_publishing_reachable : reachable_term (js "a") example_start run_publishing.
Proof. eapply term_next; [apply run_selected_reachable|apply run_publishing_step]. Qed.

Lemma sessions_refine_lifecycle_witness :
  ∃ l, t_sent run_publishing = t_sent run_selected ++ option_list l ∧ (length (t_flights run_publishing) ≤ 1)%nat.
Proof.
  destruct (sessions_refine_lifecycle (js "a") _ _ _ _ run_selected_reachable run_publishing_step) as (l & _ & H).
  exact (ex_intro _ l H).
Defined.

(** A session is discarded in two presses. *)
Definition run_asked : term := run_press button_discard run_listed.

Lemma run_asked_reachable : reachable_term (js "a") example_start run_asked.
Proof. eapply term_next; [apply run_listed_reachable|]. by apply (run_press_enabled _ 1). Qed.

Lemma discard_needs_confirmation_witness : discardConfirmId (side run_asked) = Some (js "s1").
Proof.
  refine (proj1 (proj2 (discard_needs_confirmation (js "a") _ _ run_asked (run_press button_confirm run_asked)
    (op_discard (js "s1") false) run_asked_reachable _ _ _))).
  - by apply (run_press_enabled _ 1).
  - decide_closed.
  - by vm_compute.
Defined.

Lemma sidebar_shows_witness :
  t_flights run_publishing ≠ [] ∧ (t_flights run_publishing ≠ [] ↔ mutationBusy (side run_publishing) = true).
Proof.
  refine (conj _ (proj1 (sidebar_shows (js "a") _ _ run_publishing run_publishing_reachable))). by vm_compute.
Defined.

Definition example_flight : flight_op :=
  {| fl_op := op_publish (js "s1"); fl_props := props_of (js "a") run_selected; fl_snapshot := Some example_view; fl_waits := None |}.

Definition example_published : WorkspaceSessionPublished :=
  {| published_session_id := js "s1";
     publish := {| no_op := false;
       revision := {| revision_manifest_version := 2; revision_root_hash := []; revision_layer_count := 2 |};
       route_summary := {| source_count := 1; ignored_count := 0 |} |};
     published_upperdir_bytes := 10 |}.

Lemma mutation_ends_witness :
  let w := settle (js "a") (deliver (js "a") [] example_flight []
    (publishSession_answers (fl_props example_flight) (js "s1") (Returns example_published) (side run_publishing)) run_publishing) in
  (mutationBusy (side w) = false ∧ t_flights w = []) ∨ ∃ g notes, t_flights w = [g] ∧ fl_waits g = Some notes.
Proof.
  destruct (proj2 (mutation_ends (js "a") _ _ run_publishing example_flight run_publishing_reachable eq_refl) eq_refl
    _ (answer_published example_flight _ (js "s1") (Returns example_published) eq_refl)) as [H|(g & notes & Hg & Hn & _)].
  - exact (or_introl H).
  - exact (or_intror (ex_intro _ g (ex_intro _ notes (conj Hg Hn)))).
Defined.

(** The second session is selected while the first is being published. *)
Definition run_other : term := run_select "s2" run_publishing.

Lemma run_other_reachable :
  reachable_term (js "a") example_start run_other ∧
  selectedSession (t_snapshot run_other) (js "a") (t_params run_other) (t_optimistic run_other) = Some (js "s2").
Proof. split; [eapply term_next; [apply run_publishing_reachable|apply step_select]|by vm_compute]. Qed.

Lemma publish_drops_later_selection_witness :
  let w := settle (js "a") (deliver (js "a") [] example_flight []
    (publishSession_answers (fl_props example_flight) (js "s1") (Returns example_published) (side run_other)) run_other) in
  t_flights run_other = [example_flight] ∧ param_session (t_params run_other) = Some (js "s2") ∧ param_session (t_params w) = None.
Proof.
  refine (conj eq_refl (conj eq_refl (proj1 (publish_drops_later_selection (js "a") run_other example_flight (js "s1")
    example_published eq_refl _ _)))); by vm_compute.
Defined.
