(* ===== verification/Composer.v ===== *)
(** The command composer of the terminal
    ([web/src/pages/sandbox/terminal/CommandComposer.tsx]): what may be
    submitted, the request it becomes, and what happens to it. *)
From S2P Require Import Prelude JsNumber JsText NumText Json Types Observability Rpc Ledger Terminal SessionActions Sessions.

Record composer := { command_text : jsstr; timeoutSeconds : jsstr; composer_busy : bool }.

Definition initial_composer : composer :=
  {| command_text := []; timeoutSeconds := js "300"; composer_busy := false |}.

(** [Number.isInteger]. *)
Definition isInteger (x : number) : bool := bool_decide (num_to_Z x ≠ None).

Definition MAX_TIMEOUT_SECONDS : Z := 86400.

Definition timeout_of (s : composer) : number := Number (timeoutSeconds s).

Definition timeoutError (s : composer) : option jsstr :=
  let timeout := timeout_of s in
  if negb (isInteger timeout) || num_ltb timeout (num_of_Z 1) || num_ltb (num_of_Z MAX_TIMEOUT_SECONDS) timeout
  then Some (js "Enter 1" ++ [8211] ++ js "86400 seconds.") else None.

Definition contextLabel (session : option jsstr) : jsstr :=
  if truthy_text session then js "Command in " ++ (session ?? []) else js "Quick run".

Definition contextDescription (session : option jsstr) (workspace : option WorkspaceSnapshot) : jsstr :=
  if truthy_text session then
    match workspace with
    | Some w => NetworkProfile_string (network_profile w) ++ dot ++ layers_text (workspace_layer_count w)
    | None => js "retained session"
    end
  else js "shared" ++ dot ++ js "auto-publish".

(** The run button. *)
Definition run_disabled (s : composer) : bool :=
  composer_busy s || bool_decide (trim (command_text s) = []) || bool_decide (timeoutError s ≠ None).

(** ** Submission *)

Definition with_composer_busy (b : bool) (s : composer) : composer :=
  {| command_text := command_text s; timeoutSeconds := timeoutSeconds s; composer_busy := b |}.

Definition exec_args (session : option jsstr) (s : composer) : list (jsstr * json) :=
  [(js "cmd", JStr (trim (command_text s))); (js "timeout_ms", JNum (num_mul (timeout_of s) (num_of_Z 1000)));
   (js "yield_time_ms", JNum (num_of_Z 0))] ++
  (if truthy_text session then [(js "workspace_session_id", JStr (session ?? []))] else []).

(** The state while the request is under way, with the request; [None]: the
    handler returns at once. *)
Definition composer_submits (session : option jsstr) (s : composer) : option (composer * list (jsstr * json)) :=
  if bool_decide (trim (command_text s) = []) || composer_busy s || bool_decide (timeoutError s ≠ None) then None
  else Some (with_composer_busy true s, exec_args session s).

(** The answer; with what [onLaunched] is called with. *)
Definition composer_settles (text : jsstr) (session : option jsstr) (r : outcome thrown CommandOutput) (s : composer)
    : composer * option (jsstr * option jsstr * CommandOutput) :=
  match r with
  | Returns out => ({| command_text := []; timeoutSeconds := timeoutSeconds s; composer_busy := false |}, Some (text, session, out))
  | Throws _ => (with_composer_busy false s, None)
  end.

(** ** The composer in the terminal tab

    The tab shows the composer or something else in its place
    ([Terminal.footer]): a composer that is not shown any more is unmounted, and
    its state is gone, but the calls it made are answered all the same. *)

(** Whether the composer that made a launch is still the one in the tab, or
    only the tab is still there, or neither. *)
Inductive launch_origin := from_here | from_tab | from_left.

#[export] Instance launch_origin_eq_dec : EqDecision launch_origin.
Proof. solve_decision. Defined.

Record launch := { launch_text : jsstr; launch_session : option jsstr; sent : list (jsstr * json); launch_from : launch_origin }.

Definition with_origin (o : launch_origin) (l : launch) : launch :=
  {| launch_text := launch_text l; launch_session := launch_session l; sent := sent l; launch_from := o |}.

(** The composer is gone, the tab is not. *)
Definition loses_composer (l : launch) : launch :=
  match launch_from l with from_here => with_origin from_tab l | _ => l end.

Record console := {
  comp : option composer;
  tab_open : bool;
  target : option jsstr;
  launches : list launch;
  entries : list LedgerEntry;
}.

Definition closed_console : console := {| comp := None; tab_open := false; target := None; launches := []; entries := [] |}.

(** The tab mounts, with the ledger it loads; what is below it is rendered
    next. *)
Definition console_opens (restored : list LedgerEntry) (c : console) : console :=
  {| comp := None; tab_open := true; target := None; launches := launches c; entries := restored |}.

(** The tab renders what is below the ledger. *)
Definition console_shows (f : terminal_footer) (c : console) : console :=
  match f with
  | footer_composer session =>
      {| comp := Some (default initial_composer (comp c)); tab_open := tab_open c; target := session;
         launches := launches c; entries := entries c |}
  | _ =>
      {| comp := None; tab_open := tab_open c; target := None;
         launches := loses_composer <$> launches c; entries := entries c |}
  end.

Definition console_leaves (c : console) : console :=
  {| comp := None; tab_open := false; target := None; launches := with_origin from_left <$> launches c; entries := [] |}.

Definition console_types (text timeout : jsstr) (s : composer) (c : console) : console :=
  {| comp := Some {| command_text := text; timeoutSeconds := timeout; composer_busy := composer_busy s |};
     tab_open := tab_open c; target := target c; launches := launches c; entries := entries c |}.

Definition console_submits (s : composer) (c : console) : console :=
  match composer_submits (target c) s with
  | Some (s', args) =>
      {| comp := Some s'; tab_open := tab_open c; target := target c;
         launches := launches c ++
           [{| launch_text := trim (command_text s); launch_session := target c; sent := args; launch_from := from_here |}];
         entries := entries c |}
  | None => c
  end.

(** The answer to a launch: setting the state of a composer or of a tab that
    is unmounted does nothing. [uuid], [now] and [later] are what the ledger
    entry reads. *)
Definition console_answer (before : list launch) (l : launch) (after : list launch) (r : outcome thrown CommandOutput)
    (uuid : jsstr) (now later : Z) (c : console) : console :=
  let '(s, launched) := composer_settles (launch_text l) (launch_session l) r (default initial_composer (comp c)) in
  {| comp := match launch_from l with from_here => (λ _, s) <$> comp c | _ => comp c end;
     tab_open := tab_open c; target := target c; launches := before ++ after;
     entries := match launched, launch_from l with
                | Some _, from_left | None, _ => entries c
                | Some (text, session, out), _ => entries c ++ [entryFromExec uuid now later text session out]
                end |}.

(** [step_ledger]: whatever else the tab does with its ledger ([Terminal]),
    taking that of another sandbox included, for which it keeps the composer
    ([TerminalPage]). *)
Inductive console_step : console → console → Prop :=
  | step_opens c restored : tab_open c = false → console_step c (console_opens restored c)
  | step_shows c f : tab_open c = true → console_step c (console_shows f c)
  | step_leaves c : tab_open c = true → console_step c (console_leaves c)
  | step_types c s text timeout : comp c = Some s → console_step c (console_types text timeout s c)
  | step_submits c s : comp c = Some s → console_step c (console_submits s c)
  | step_answer c before l after r uuid now later : launches c = before ++ l :: after →
      console_step c (console_answer before l after r uuid now later c)
  | step_ledger c es : tab_open c = true →
      console_step c {| comp := comp c; tab_open := tab_open c; target := target c; launches := launches c; entries := es |}.

Inductive reachable_console : console → Prop :=
  | console_init : reachable_console closed_console
  | console_next c c' : reachable_console c → console_step c c' → reachable_console c'.

(** ** Theorems *)

Lemma timeoutError_Z s n :
  0 ≤ n < 2 ^ 53 → timeoutSeconds s = Z_to_js n →
  (timeoutError s = None ↔ 1 ≤ n ≤ MAX_TIMEOUT_SECONDS) ∧ timeout_of s = num_of_Z n.
Proof.
  intros Hn Ht. unfold timeoutError, timeout_of. rewrite Ht, Number_Z by lia. split; [|done].
  unfold isInteger, MAX_TIMEOUT_SECONDS. rewrite num_to_Z_of_Z by lia. rewrite bool_decide_true by done.
  rewrite !num_ltb_of_Z by lia. cbn [negb orb]. destruct (Z.ltb_spec n 1), (Z.ltb_spec 86400 n); cbn [orb]; split; (done || lia).
Qed.

Lemma composer_submits_disabled session s : composer_submits session s = None ↔ run_disabled s = true.
Proof.
  unfold composer_submits, run_disabled. destruct (bool_decide (trim _ = [])), (composer_busy s), (bool_decide (timeoutError s ≠ None)); done.
Qed.

(** The time limit of a command. Whatever whole number of seconds is
    typed, a request goes out exactly when it is between one second and a day,
    a command is written and none is under way, which is also when the button
    can be pressed; it carries the number of milliseconds without any rounding
    ([1000 * n] at most [86400000]), the trimmed command and the session
    commands are composed in, and marks the composer busy. *)
Theorem composer_time_limit session s n (Hn : 0 ≤ n < 2 ^ 53) (Htext : timeoutSeconds s = Z_to_js n) :
  (run_disabled s = false ↔ 1 ≤ n ≤ MAX_TIMEOUT_SECONDS ∧ composer_busy s = false ∧ trim (command_text s) ≠ []) ∧
  match composer_submits session s with
  | None => run_disabled s = true
  | Some (s', args) =>
      run_disabled s = false ∧ composer_busy s' = true ∧ command_text s' = command_text s ∧
      obj_get (js "cmd") args = Some (JStr (trim (command_text s))) ∧
      obj_get (js "timeout_ms") args = Some (JNum (num_of_Z (n * 1000))) ∧ num_to_Z (num_of_Z (n * 1000)) = Some (n * 1000) ∧
      obj_get (js "workspace_session_id") args = (if truthy_text session then JStr <$> session else None)
  end.
Proof.
  destruct (timeoutError_Z s n Hn Htext) as [Herr Hnum]. split.
  - unfold run_disabled. destruct (composer_busy s); [cbn; naive_solver|]. cbn [orb].
    destruct (decide (trim (command_text s) = [])) as [He|He];
      [rewrite bool_decide_true by done; naive_solver|rewrite bool_decide_false by done]. cbn [orb].
    rewrite bool_decide_eq_false. rewrite <- Herr. destruct (timeoutError s); naive_solver.
  - destruct (composer_submits session s) as [[s' args]|] eqn:Hs; [|by apply composer_submits_disabled in Hs].
    assert (run_disabled s = false) as Hen.
    { destruct (run_disabled s) eqn:Hd; [|done]. apply (composer_submits_disabled session) in Hd. congruence. }
    assert (timeoutError s = None) as He.
    { unfold run_disabled in Hen. apply orb_false_iff in Hen as [_ Hen]. apply bool_decide_eq_false in Hen. by apply dec_stable. }
    apply Herr in He. unfold MAX_TIMEOUT_SECONDS in He. unfold composer_submits in Hs. destruct (_ || _); [done|]. injection Hs as <- <-.
    assert (num_mul (timeout_of s) (num_of_Z 1000) = num_of_Z (n * 1000)) as Hms by (rewrite Hnum; apply num_mul_of_Z; lia).
    split_and!; try done.
    + unfold exec_args. rewrite Hms. reflexivity.
    + apply num_to_Z_of_Z. lia.
    + unfold exec_args. destruct session as [[|u i]|]; reflexivity.
Qed.

Definition example_composer : composer :=
  {| command_text := js " ls "; timeoutSeconds := js "86400"; composer_busy := false |}.

Lemma composer_time_limit_witness :
  obj_get (js "timeout_ms") (exec_args None example_composer) = Some (JNum (num_of_Z (86400 * 1000))).
Proof.
  pose proof (proj2 (composer_time_limit None example_composer 86400 ltac:(lia) ltac:(by vm_compute))) as H.
  exact (proj1 (proj2 (proj2 (proj2 (proj2 H))))).
Defined.

(** *** One at a time *)

Definition is_here (l : launch) : Prop := launch_from l = from_here.

#[export] Instance is_here_dec l : Decision (is_here l).
Proof. unfold is_here. apply _. Defined.

(** The launches of the composer that is in the tab. *)
Definition own_launches (c : console) : list launch := filter is_here (launches c).

(** A launch went out with a command, and is remembered as it went out. *)
Definition well_sent (l : launch) : Prop :=
  launch_text l ≠ [] ∧ obj_get (js "cmd") (sent l) = Some (JStr (launch_text l)) ∧
  obj_get (js "workspace_session_id") (sent l) = (if truthy_text (launch_session l) then JStr <$> launch_session l else None).

Definition busy_launches (c : console) : nat := if composer_busy <$> comp c is Some true then 1 else 0.

Record console_ok (c : console) : Prop := {
  ok_own : length (own_launches c) = busy_launches c;
  ok_sent : Forall well_sent (launches c);
  ok_closed : tab_open c = false → comp c = None;
}.

Lemma no_own_launches (g : launch → launch) ls : (∀ l, ¬ is_here (g l)) → filter is_here (g <$> ls) = [].
Proof. intros Hg. induction ls as [|l ls IH]; [done|]. rewrite fmap_cons, filter_cons_False by apply Hg. done. Qed.

Lemma loses_composer_elsewhere l : ¬ is_here (loses_composer l).
Proof. unfold is_here, loses_composer. by destruct l as [? ? ? []]. Qed.

Lemma well_sent_fmap (g : launch → launch) ls : (∀ l, well_sent l → well_sent (g l)) → Forall well_sent ls → Forall well_sent (g <$> ls).
Proof. intros Hg. rewrite Forall_fmap. intros Hall. exact (Forall_impl _ _ _ Hall Hg). Qed.

Lemma submits_ok session s s' args : composer_submits session s = Some (s', args) →
  composer_busy s = false ∧ composer_busy s' = true ∧
  well_sent {| launch_text := trim (command_text s); launch_session := session; sent := args; launch_from := from_here |}.
Proof.
  unfold composer_submits. destruct (bool_decide_reflect (trim (command_text s) = [])) as [|Hne]; [done|].
  destruct (composer_busy s); [done|]. destruct (bool_decide (timeoutError _ ≠ None)); [done|]. intros [= <- <-].
  split_and!; try done. split; [done|]. unfold exec_args. destruct session as [[|u i]|]; split; reflexivity.
Qed.

Lemma own_answered c before l after : console_ok c → launches c = before ++ l :: after → is_here l →
  filter is_here (before ++ after) = [] ∧ ∃ s, comp c = Some s ∧ composer_busy s = true.
Proof.
  intros [Hown _ _] Hl Hhere. unfold own_launches, busy_launches in Hown.
  rewrite Hl, filter_app, filter_cons_True, length_app in Hown by done. cbn [length] in Hown.
  destruct (comp c) as [s|]; [|cbn in Hown; lia]. cbn [fmap option_fmap option_map] in Hown.
  destruct (composer_busy s) eqn:Hb; [|lia]. split; [|by exists s].
  rewrite filter_app. apply nil_length_inv. rewrite length_app. lia.
Qed.

Lemma console_answer_ok c before l after r uuid now later : console_ok c → launches c = before ++ l :: after →
  console_ok (console_answer before l after r uuid now later c).
Proof.
  intros Hok Hl. destruct (Hok) as [Hown Hsent Hclosed].
  assert (Forall well_sent (before ++ after)) as Hs.
  { rewrite Hl in Hsent. apply Forall_app in Hsent as [? [_ ?]%Forall_cons]. by apply Forall_app. }
  unfold console_answer. destruct (composer_settles _ _ _ _) as [s launched] eqn:He. split; [|done|].
  2: { cbn. intros Hf. rewrite (Hclosed Hf). by destruct (launch_from l). }
  unfold own_launches, busy_launches. cbn [launches comp].
  assert (composer_busy s = false) as Hb by (destruct r; cbn in He; by injection He as <- _).
  destruct (decide (is_here l)) as [Hh|Hh].
  - destruct (own_answered c before l after Hok Hl Hh) as (-> & s0 & -> & _). rewrite Hh. cbn. by rewrite Hb.
  - unfold own_launches, busy_launches in Hown. rewrite Hl, filter_app, filter_cons_False in Hown by done.
    rewrite filter_app. unfold is_here in Hh. by destruct (launch_from l).
Qed.

Lemma console_shows_ok f c : console_ok c → tab_open c = true → console_ok (console_shows f c).
Proof.
  intros [Hown Hsent _] Hopen. unfold own_launches, busy_launches in Hown.
  destruct f as [| |session]; split; unfold own_launches, busy_launches; cbn [launches comp console_shows tab_open]; try congruence.
  1,3: by rewrite no_own_launches by apply loses_composer_elsewhere.
  1,2: apply well_sent_fmap; [by intros [? ? ? []]|done].
  rewrite Hown. by destruct (comp c).
Qed.

Lemma console_submits_ok s c : console_ok c → comp c = Some s → console_ok (console_submits s c).
Proof.
  intros [Hown Hsent Hclosed] Hs. unfold console_submits. destruct (composer_submits (target c) s) as [[s' args]|] eqn:He; [|done].
  destruct (submits_ok _ _ _ _ He) as (Hb & Hb' & Hw). unfold own_launches, busy_launches in Hown. rewrite Hs in Hown. cbn in Hown. rewrite Hb in Hown.
  split; cbn [launches tab_open comp].
  - unfold own_launches, busy_launches. cbn [launches comp]. rewrite filter_app, length_app, Hown. cbn. by rewrite Hb'.
  - apply Forall_app. split; [done|]. by constructor.
  - intros Hf. by rewrite (Hclosed Hf) in Hs.
Qed.

Lemma console_step_ok c c' : console_ok c → console_step c c' → console_ok c'.
Proof.
  intros Hok Hstep. destruct (Hok) as [Hown Hsent Hclosed]. unfold own_launches, busy_launches in Hown.
  destruct Hstep as [c restored Hshut|c f Hopen|c Hopen|c s text timeout Hs|c s Hs|c before l after r uuid now later Hl|c es].
  - split; [|done|done]. unfold own_launches, busy_launches. cbn [launches comp console_opens]. by rewrite Hown, (Hclosed Hshut).
  - by apply console_shows_ok.
  - split; unfold own_launches, busy_launches; cbn [launches comp console_leaves]; [by rewrite no_own_launches|by apply well_sent_fmap|done].
  - rewrite Hs in Hown. split; [done|done|]. cbn. intros Hf. by rewrite (Hclosed Hf) in Hs.
  - by apply console_submits_ok.
  - by apply console_answer_ok.
  - by split.
Qed.

Lemma reachable_console_ok c : reachable_console c → console_ok c.
Proof. induction 1 as [|c c' _ IH Hstep]; [by split; [|by apply Forall_nil|]|]. by apply (console_step_ok c). Qed.

(** C30: commands are sent one at a time by a composer and recorded as they were
    sent, in every reachable state of a sandbox's terminal tab, whatever is typed,
    submitted, shown below the ledger, left, reopened and answered in whatever
    order: the composer that is shown has one launch under way when it is busy,
    and then submits nothing, and none when it is not; each launch has a command
    and the request that went out names that command and the session it was sent
    to. The answer of a launch frees the composer that sent it, if it is still
    shown, keeping what was typed on a failure and clearing it on a success, and
    touches no other composer; a success appends one entry with the command and
    the session that were sent to the ledger the tab then has, whichever session
    is shown by then, unless the tab was left; a failure appends none. (A composer that was replaced in the
    meantime has its launch under way besides: [second_composer_launches].) *)
Theorem composer_one_at_a_time c (Hreach : reachable_console c) :
  length (filter (λ l, launch_from l = from_here) (launches c)) = (if composer_busy <$> comp c is Some true then 1 else 0)%nat ∧
  (∀ s, comp c = Some s → composer_busy s = true → console_submits s c = c ∧ run_disabled s = true) ∧
  (∀ l, l ∈ launches c → launch_text l ≠ [] ∧ obj_get (js "cmd") (sent l) = Some (JStr (launch_text l)) ∧
     obj_get (js "workspace_session_id") (sent l) = (if truthy_text (launch_session l) then JStr <$> launch_session l else None)) ∧
  (∀ before l after r uuid now later, launches c = before ++ l :: after →
     let c' := console_answer before l after r uuid now later c in
     launches c' = before ++ after ∧
     (launch_from l ≠ from_here → comp c' = comp c) ∧
     (launch_from l = from_here → ∃ s s', comp c = Some s ∧ comp c' = Some s' ∧
        composer_busy s' = false ∧ timeoutSeconds s' = timeoutSeconds s ∧
        command_text s' = match r with Returns _ => [] | Throws _ => command_text s end) ∧
     match r with
     | Throws _ => entries c' = entries c
     | Returns out =>
         if decide (launch_from l = from_left) then entries c' = entries c
         else ∃ e, entries c' = entries c ++ [e] ∧ localId e = uuid ∧ cmd e = launch_text l ∧
           autoPublish e = bool_decide (launch_session l = None) ∧ commandSessionId e = command_session_id out ∧
           workspaceSessionId e = match workspace_session_id out with Some w => Some w | None => launch_session l end
     end).
Proof.
  pose proof (reachable_console_ok c Hreach) as Hok. destruct (Hok) as [Hown Hsent _]. split; [exact Hown|].
  split; [|split].
  - intros s _ Hb. unfold console_submits, composer_submits, run_disabled. rewrite Hb. by destruct (bool_decide (trim _ = [])).
  - intros l Hl. by apply (proj1 (Forall_forall _ _) Hsent).
  - intros before l after r uuid now later Hl c'. subst c'. unfold console_answer. split; [by destruct r|]. split; [|split].
    + intros Hne. by destruct r, (launch_from l).
    + intros Hh. destruct (own_answered c before l after Hok Hl Hh) as (_ & s & Hs & _). rewrite Hh, Hs.
      exists s. by destruct r; eexists; split_and!.
    + destruct r as [out|]; [|done]. destruct (launch_from l); cbn; try done; eexists; split_and!; reflexivity.
Qed.

(** *** A tab that submits a command, and a second one *)

Definition example_typed : composer := {| command_text := js " ls "; timeoutSeconds := js "300"; composer_busy := false |}.

(** Typing the example command in an idle composer and submitting it. *)
Definition submit_example (c : console) : console := console_submits example_typed (console_types (js " ls ") (js "300") initial_composer c).

Definition example_opened : console := console_shows (footer_composer None) (console_opens [] closed_console).
Definition example_submitting : console := submit_example example_opened.

(** All commands are shown and then the quick runs again, while the launch is
    under way; and the example is submitted once more. *)
Definition example_shown_again : console := console_shows (footer_composer None) (console_shows footer_choose example_submitting).
Definition example_twice : console := submit_example example_shown_again.

Definition example_launch : launch :=
  {| launch_text := js "ls"; launch_session := None; sent := exec_args None example_typed; launch_from := from_here |}.

Lemma example_launches : launches example_submitting = [example_launch] ∧
  launches example_twice = [with_origin from_tab example_launch; example_launch].
Proof. split; vm_compute; reflexivity. Qed.

Lemma submit_example_reachable c : reachable_console c → comp c = Some initial_composer → reachable_console (submit_example c).
Proof.
  intros Hc Hcomp. eapply console_next; [eapply console_next; [exact Hc|exact (step_types c _ (js " ls ") (js "300") Hcomp)]|].
  exact (step_submits (console_types (js " ls ") (js "300") initial_composer c) example_typed eq_refl).
Qed.

Lemma example_submitting_reachable : reachable_console example_submitting.
Proof.
  apply submit_example_reachable; [|reflexivity]. eapply console_next; [|apply (step_shows _ (footer_composer None)); reflexivity].
  eapply console_next; [exact console_init|]. exact (step_opens closed_console [] eq_refl).
Qed.

Lemma example_twice_reachable : reachable_console example_twice.
Proof.
  apply submit_example_reachable; [|reflexivity]. eapply console_next; [|apply (step_shows _ (footer_composer None)); reflexivity].
  eapply console_next; [exact example_submitting_reachable|]. exact (step_shows example_submitting footer_choose eq_refl).
Qed.

Lemma composer_one_at_a_time_witness :
  length (filter (λ l, launch_from l = from_here) (launches example_twice)) = 1%nat ∧
  ∀ r uuid now later, launches (console_answer [] example_launch [] r uuid now later example_submitting) = [].
Proof.
  split.
  - exact (proj1 (composer_one_at_a_time example_twice example_twice_reachable)).
  - intros r uuid now later.
    exact (proj1 (proj2 (proj2 (proj2 (composer_one_at_a_time example_submitting example_submitting_reachable)))
      [] example_launch [] r uuid now later (proj1 example_launches))).
Defined.

(** The busy flag is the composer's own: showing all commands and then the quick
    runs again, or leaving the tab and coming back, while a command is being sent
    mounts another composer, which is idle, and a second command can be sent
    while the first is under way. *)
Theorem second_composer_launches : ∃ c before,
  reachable_console before ∧ launches before = [with_origin from_tab example_launch] ∧ comp before = Some initial_composer ∧
  reachable_console c ∧ length (launches c) = 2%nat ∧ Forall (λ l, launch_text l = js "ls") (launches c).
Proof.
  exists example_twice, example_shown_again. split; [|split; [vm_compute; reflexivity|split; [reflexivity|split; [exact example_twice_reachable|]]]].
  - eapply console_next; [|apply (step_shows _ (footer_composer None)); reflexivity].
    eapply console_next; [exact example_submitting_reachable|]. exact (step_shows example_submitting footer_choose eq_refl).
  - rewrite (proj2 example_launches). split; [done|]. by repeat constructor.
Qed.

(** What is typed while a command is being sent is lost when it succeeds. *)
Example typed_during_launch_lost out :
  let s := {| command_text := js "next"; timeoutSeconds := js "300"; composer_busy := true |} in
  command_text (composer_settles (js "ls") None (Returns out) s).1 = [].
Proof. reflexivity. Qed.
