(* ===== verification/FileView.v ===== *)
(** The file viewer and editor
    ([web/src/pages/sandbox/files/FileView.tsx]): loading and paging a file,
    editing a whole file, saving with a check for concurrent changes, and the
    synchronisation of the CodeMirror document, whose text is all that is
    modelled of the editor. The library keeps the lines of a text and not how
    they ended; what text a document makes of a string is a parameter
    ([DocumentText]), with what its documentation says of it. *)
From S2P Require Import Prelude JsText Json Rpc Uri Files.

Definition WINDOW_LINES : Z := 2000.
Definition EDIT_SIZE_LIMIT_BYTES : Z := 1024 * 1024.

Inductive Mode :=
  | Viewing
  | Editing (original draft : jsstr)
  | Conflict (draft server : jsstr) (serverTotalLines serverTotalBytes : Z).

Record LoadedText := {
  loaded_content : jsstr;
  startLine : Z;
  endLine : Z;
  totalLines : Z;
  totalBytes : Z;
  nextOffset : option Z;
  binary : bool;
}.

(** The component's state; [doc] is the editor's document. *)
Record file_view := {
  loaded : option LoadedText;
  loadError : option jsstr;
  loading : bool;
  mode : Mode;
  busy : bool;
  doc : jsstr;
}.

Definition initial_view : file_view :=
  {| loaded := None; loadError := None; loading := true; mode := Viewing; busy := false; doc := [] |}.

(** ** Updates *)

Definition set_loaded (v : file_view) (l : option LoadedText) : file_view :=
  {| loaded := l; loadError := loadError v; loading := loading v; mode := mode v; busy := busy v; doc := doc v |}.
Definition set_mode (v : file_view) (m : Mode) : file_view :=
  {| loaded := loaded v; loadError := loadError v; loading := loading v; mode := m; busy := busy v; doc := doc v |}.
Definition set_busy (v : file_view) (b : bool) : file_view :=
  {| loaded := loaded v; loadError := loadError v; loading := loading v; mode := mode v; busy := b; doc := doc v |}.
Definition set_loading (v : file_view) (l : bool) (e : option jsstr) : file_view :=
  {| loaded := loaded v; loadError := e; loading := l; mode := mode v; busy := busy v; doc := doc v |}.
Definition set_doc (v : file_view) (d : jsstr) : file_view :=
  {| loaded := loaded v; loadError := loadError v; loading := loading v; mode := mode v; busy := busy v; doc := d |}.

(** ** The editor's document *)

(** The text of a document made of a string, or of a string inserted in one:
    [EditorState.create({ doc })] and [dispatch({ changes: { insert } })] split a
    string at CR LF, CR and LF, and [doc.toString()] joins the lines with LF. *)
Definition CR : Z := 13.

Class DocumentText := {
  doc_text : jsstr → jsstr;
  doc_text_nil : doc_text [] = [];
  doc_text_no_cr s : CR ∉ doc_text s;
  doc_text_app p s : CR ∉ p → doc_text (p ++ s) = p ++ doc_text s;
}.

(** The effect that keeps the document in step: [previous] is the mode it saw
    last ([None] before the editor exists). *)
Definition is_draft (m : Mode) : bool := match m with Viewing => false | _ => true end.

Definition nextDocument (previous : option Mode) (v : file_view) (l : LoadedText) : jsstr :=
  match previous with
  | Some p => if is_draft (mode v) && is_draft p then doc v
              else match mode v with Viewing => loaded_content l | Editing _ d => d | Conflict d _ _ _ => d end
  | None => match mode v with Viewing => loaded_content l | Editing _ d => d | Conflict d _ _ _ => d end
  end.

(** The change dispatched: an insertion at the end when the new document
    extends the current one, a replacement otherwise. *)
Record doc_change := { change_from : nat; change_to : nat; change_insert : jsstr }.

Definition document_change (currentDocument next : jsstr) : doc_change :=
  if startsWith currentDocument next
  then {| change_from := length currentDocument; change_to := length currentDocument;
          change_insert := drop (length currentDocument) next |}
  else {| change_from := 0; change_to := length currentDocument; change_insert := next |}.

Section document.
Context {D : DocumentText}.

Definition apply_change (d : jsstr) (c : doc_change) : jsstr :=
  take (change_from c) d ++ doc_text (change_insert c) ++ drop (change_to c) d.

(** What the effect dispatches: nothing when the document is the text. *)
Definition dispatch_document (currentDocument next : jsstr) : jsstr :=
  if bool_decide (currentDocument = next) then currentDocument
  else apply_change currentDocument (document_change currentDocument next).

Definition sync_document (previous : option Mode) (v : file_view) : file_view :=
  match loaded v with
  | Some l => if binary l then v
              else set_doc v (dispatch_document (doc v) (nextDocument previous v l))
  | None => v
  end.

(** A state change followed by the effect that synchronises the document. *)
Definition commit_view (before after : file_view) : file_view := sync_document (Some (mode before)) after.

End document.

(** ** Loading *)

Definition load_starts (v : file_view) : file_view := set_mode (set_loading v true None) Viewing.

Definition window_text (w : FileReadWindow) : LoadedText :=
  {| loaded_content := content w; startLine := window_start_line w;
     endLine := window_start_line w + num_lines w - 1; totalLines := window_total_lines w;
     totalBytes := window_total_bytes w; nextOffset := next_offset w; binary := false |}.

Definition binary_text : LoadedText :=
  {| loaded_content := []; startLine := 1; endLine := 0; totalLines := 0; totalBytes := 0; nextOffset := None; binary := true |}.

(** [message] is [error.message]; what [fileRead] throws is always an [RpcError]. *)
Definition load_settles (r : outcome jsstr FileReadWindow) (v : file_view) : file_view :=
  match r with
  | Returns w => set_loading (set_loaded v (Some (window_text w))) false (loadError v)
  | Throws message =>
      if includes (js "UTF-8") message then set_loading (set_loaded v (Some binary_text)) false (loadError v)
      else set_loading v false (Some message)
  end.

(** The window that "Load next" asks for. *)
Definition more_offset (v : file_view) : option Z := loaded v ≫= nextOffset.

Definition more_settles (r : outcome jsstr FileReadWindow) (v : file_view) : file_view :=
  match r, loaded v with
  | Returns w, Some l =>
      set_busy (set_loaded v (Some {| loaded_content := loaded_content l ++ 10 :: content w; startLine := startLine l;
                                      endLine := window_start_line w + num_lines w - 1;
                                      totalLines := window_total_lines w; totalBytes := window_total_bytes w;
                                      nextOffset := next_offset w; binary := false |})) false
  | _, _ => set_busy v false
  end.

(** ** Editing *)

Definition whole_text (l : LoadedText) (text : jsstr) (lines bytes : Z) : LoadedText :=
  {| loaded_content := text; startLine := startLine l; endLine := lines; totalLines := lines; totalBytes := bytes;
     nextOffset := None; binary := binary l |}.

Definition edit_settles (r : outcome jsstr WholeFile) (v : file_view) : file_view :=
  match r with
  | Returns whole =>
      if EDIT_SIZE_LIMIT_BYTES <? whole_totalBytes whole then set_busy v false
      else set_busy (set_mode (set_loaded v
             ((λ l, whole_text l (whole_content whole) (whole_totalLines whole) (whole_totalBytes whole)) <$> loaded v))
             (Editing (whole_content whole) (whole_content whole))) false
  | Throws _ => set_busy v false
  end.

(** Saving, after the file was read again: the view, and the text to write. *)
Definition save_reads (original edited : jsstr) (r : outcome jsstr WholeFile) (v : file_view)
    : file_view * option jsstr :=
  match r with
  | Throws _ => (set_busy v false, None)
  | Returns current =>
      if bool_decide (whole_content current ≠ original)
      then (set_busy (set_mode v (Conflict edited (whole_content current)
                                    (whole_totalLines current) (whole_totalBytes current))) false, None)
      else (v, Some edited)
  end.

(** After the write: reload, or report and stay. *)
Definition save_writes (written : bool) (v : file_view) : file_view :=
  if written then load_starts v else set_busy v false.

Definition keepEditingLocalDraft (v : file_view) : file_view :=
  match mode v with
  | Conflict draft server lines bytes =>
      set_mode (set_loaded v ((λ l, whole_text l server lines bytes) <$> loaded v)) (Editing server draft)
  | _ => v
  end.

(** ** Links of blame owners; [None] of the encoding is a [URIError] *)

Definition owner_target (sandboxId owner : jsstr) : option (option jsstr) :=
  let target (prefix : string) (middle : string) :=
    match encodeURIComponent sandboxId, encodeURIComponent (drop (String.length prefix) owner) with
    | Some s, Some o => Some (Some (js "/sandboxes/" ++ s ++ js middle ++ o))
    | _, _ => None
    end in
  if startsWith (js "workspace_session:") owner then target "workspace_session:"%string "/terminal?session="%string
  else if startsWith (js "operation:") owner then target "operation:"%string "/observability/traces/"%string
  else Some None.

(** ** The editor and the server's file *)

(** What an asynchronous operation under way will do when it goes on. A save
    keeps the text it took from the editor, a write also the content it was
    checked against; the reload after a write ends the save. *)
Inductive pending_op :=
  | PendingLoad
  | PendingMore
  | PendingEdit
  | PendingSaveRead (original edited : jsstr)
  | PendingWrite (checked edited : jsstr)
  | PendingReload.

(** The view, the server's file, the operations under way, the text the user
    typed since editing began ([None]: nothing), and the server contents that
    whole-file reads returned. *)
Record editor_world := {
  view : file_view;
  server : jsstr;
  pending : list pending_op;
  typed : option jsstr;
  seen : list jsstr;
}.

Definition editor_state (v : file_view) (f : jsstr) (p : list pending_op) (t : option jsstr) (s : list jsstr) : editor_world :=
  {| view := v; server := f; pending := p; typed := t; seen := s |}.

Section editor.
Context {D : DocumentText}.

(** Buttons are disabled while [busy], except those of the conflict banner;
    the editor itself accepts text whenever the mode is [Editing]. A read of
    the whole file returns what the server holds. Typing (and pasting) makes
    whatever document it likes. *)
Inductive editor_step : editor_world → editor_world → Prop :=
  | editor_types d o dr w :
      mode (view w) = Editing o dr →
      editor_step w (editor_state (set_doc (view w) (doc_text d)) (server w) (pending w) (Some (doc_text d)) (seen w))
  | editor_external f w :
      editor_step w (editor_state (view w) f (pending w) (typed w) (seen w))
  | editor_load w :
      busy (view w) = false →
      editor_step w (editor_state (commit_view (view w) (load_starts (view w))) (server w) (PendingLoad :: pending w) None (seen w))
  | editor_loaded r p1 p2 w :
      pending w = p1 ++ PendingLoad :: p2 →
      editor_step w (editor_state (commit_view (view w) (load_settles r (view w))) (server w) (p1 ++ p2) (typed w) (seen w))
  | editor_reloaded r p1 p2 w :
      pending w = p1 ++ PendingReload :: p2 →
      editor_step w (editor_state (commit_view (view w) (set_busy (load_settles r (view w)) false)) (server w) (p1 ++ p2) (typed w) (seen w))
  | editor_more o w :
      busy (view w) = false → mode (view w) = Viewing → more_offset (view w) = Some o →
      editor_step w (editor_state (set_busy (view w) true) (server w) (PendingMore :: pending w) (typed w) (seen w))
  | editor_more_settles r p1 p2 w :
      pending w = p1 ++ PendingMore :: p2 →
      editor_step w (editor_state (commit_view (view w) (more_settles r (view w))) (server w) (p1 ++ p2) (typed w) (seen w))
  | editor_edit w :
      busy (view w) = false → mode (view w) = Viewing →
      editor_step w (editor_state (set_busy (view w) true) (server w) (PendingEdit :: pending w) (typed w) (seen w))
  | editor_edit_fails m p1 p2 w :
      pending w = p1 ++ PendingEdit :: p2 →
      editor_step w (editor_state (edit_settles (Throws m) (view w)) (server w) (p1 ++ p2) (typed w) (seen w))
  | editor_edit_settles whole p1 p2 w :
      pending w = p1 ++ PendingEdit :: p2 → whole_content whole = server w →
      editor_step w (editor_state (commit_view (view w) (edit_settles (Returns whole) (view w))) (server w) (p1 ++ p2)
                       (typed w) (server w :: seen w))
  | editor_save o dr w :
      busy (view w) = false → mode (view w) = Editing o dr →
      editor_step w (editor_state (set_busy (view w) true) (server w) (PendingSaveRead o (doc (view w)) :: pending w) (typed w) (seen w))
  | editor_save_fails m o edited p1 p2 w :
      pending w = p1 ++ PendingSaveRead o edited :: p2 →
      editor_step w (editor_state (save_reads o edited (Throws m) (view w)).1 (server w) (p1 ++ p2) (typed w) (seen w))
  | editor_save_reads whole o edited v' write p1 p2 w :
      pending w = p1 ++ PendingSaveRead o edited :: p2 → whole_content whole = server w →
      save_reads o edited (Returns whole) (view w) = (v', write) →
      editor_step w (editor_state (commit_view (view w) v') (server w)
                       (match write with Some text => PendingWrite (server w) text :: p1 ++ p2 | None => p1 ++ p2 end)
                       (typed w) (server w :: seen w))
  | editor_write_fails checked edited p1 p2 w :
      pending w = p1 ++ PendingWrite checked edited :: p2 →
      editor_step w (editor_state (save_writes false (view w)) (server w) (p1 ++ p2) (typed w) (seen w))
  | editor_writes checked edited p1 p2 w :
      pending w = p1 ++ PendingWrite checked edited :: p2 →
      editor_step w (editor_state (commit_view (view w) (save_writes true (view w))) edited (PendingReload :: p1 ++ p2) None (seen w))
  | editor_keep w :
      is_draft (mode (view w)) = true →
      editor_step w (editor_state (commit_view (view w) (keepEditingLocalDraft (view w))) (server w) (pending w) (typed w) (seen w)).

Inductive editor_reachable (f : jsstr) : editor_world → Prop :=
  | editor_init : editor_reachable f (editor_state initial_view f [PendingLoad] None [])
  | editor_next w w' : editor_reachable f w → editor_step w w' → editor_reachable f w'.

(** ** Facts: the document *)

Lemma doc_text_plain s : CR ∉ s → doc_text s = s.
Proof. intros Hs. rewrite <- (app_nil_r s) at 1. by rewrite doc_text_app, doc_text_nil, app_nil_r. Qed.

Lemma dispatch_text d next : CR ∉ d → dispatch_document d next = doc_text next.
Proof.
  intros Hd. unfold dispatch_document, document_change, apply_change. destruct (bool_decide_reflect (d = next)) as [->|]; [by rewrite doc_text_plain|].
  destruct (startsWith d next) eqn:Hs; cbn [change_from change_to change_insert].
  - apply startsWith_spec in Hs as [k ->]. by rewrite firstn_all, skipn_all, drop_app_length, app_nil_r, doc_text_app.
  - by rewrite skipn_all, app_nil_r.
Qed.

Lemma sync_mode previous v : mode (sync_document previous v) = mode v.
Proof. unfold sync_document. destruct (loaded v) as [l|]; [|done]. by destruct (binary l). Qed.

Lemma sync_busy previous v : busy (sync_document previous v) = busy v.
Proof. unfold sync_document. destruct (loaded v) as [l|]; [|done]. by destruct (binary l). Qed.

(** A draft keeps its text as long as the mode is a draft. *)
Lemma sync_draft p v : is_draft p = true → is_draft (mode v) = true → doc (sync_document (Some p) v) = doc v.
Proof.
  intros Hp Hv. unfold sync_document. destruct (loaded v) as [l|]; [|done]. destruct (binary l); [done|].
  cbn [doc set_doc]. unfold nextDocument, dispatch_document. rewrite Hp, Hv. by rewrite bool_decide_true.
Qed.

Lemma sync_no_cr p v : CR ∉ doc v → CR ∉ doc (sync_document p v).
Proof.
  intros Hd. unfold sync_document. destruct (loaded v) as [l|]; [|done]. destruct (binary l); [done|].
  cbn [doc set_doc]. rewrite dispatch_text by done. apply doc_text_no_cr.
Qed.

(** The loads leave the mode and the document to the effect. *)
Lemma load_settles_mode r v : mode (load_settles r v) = mode v ∧ doc (load_settles r v) = doc v ∧ busy (load_settles r v) = busy v.
Proof. unfold load_settles. destruct r; [done|]. by destruct (includes _ _). Qed.

Lemma more_settles_mode r v : mode (more_settles r v) = mode v ∧ doc (more_settles r v) = doc v ∧ busy (more_settles r v) = false.
Proof. unfold more_settles. destruct r, (loaded v); done. Qed.

(** ** Facts: the invariant of the editor *)

(** What a draft is based on is a content that a whole read returned, and an
    operation is one of the mode that started it. *)
Definition mode_ok (m : Mode) (s : list jsstr) : Prop :=
  match m with Viewing => True | Editing o _ => o ∈ s | Conflict _ f _ _ => f ∈ s end.
Definition op_ok (op : pending_op) (m : Mode) : Prop :=
  match op with
  | PendingEdit => m = Viewing
  | PendingSaveRead o _ | PendingWrite o _ => ∃ dr, m = Editing o dr
  | _ => True
  end.

(** An operation that keeps the buttons disabled. *)
Definition busy_op (op : pending_op) : bool := match op with PendingLoad => false | _ => true end.

Record editor_ok (w : editor_world) : Prop := {
  ok_mode : mode_ok (mode (view w)) (seen w);
  ok_ops : ∀ op, op ∈ pending w → op_ok op (mode (view w));
  ok_busy : length (js_filter busy_op (pending w)) = (if busy (view w) then 1 else 0)%nat;
  ok_typed : ∀ t, typed w = Some t → is_draft (mode (view w)) = true ∧ doc (view w) = t;
}.

Lemma busy_split p1 op p2 :
  length (js_filter busy_op (p1 ++ op :: p2)) =
  (length (js_filter busy_op (p1 ++ p2)) + if busy_op op then 1 else 0)%nat.
Proof.
  rewrite !js_filter_app, !length_app. cbn [List.filter]. destruct (busy_op op); cbn [length]; lia.
Qed.

(** With the buttons enabled nothing depends on the mode. *)
Lemma idle_op_ok p op m : length (js_filter busy_op p) = 0%nat → op ∈ p → op_ok op m.
Proof.
  intros Hlen Hin. destruct (busy_op op) eqn:Hop; [|by destruct op].
  assert (op ∈ js_filter busy_op p) as Hf by by apply js_filter_elem.
  destruct (js_filter busy_op p); [by apply not_elem_of_nil in Hf|done].
Qed.

Lemma mode_ok_seen m s s' : mode_ok m s → s ⊆ s' → mode_ok m s'.
Proof. destruct m; cbn; auto. Qed.

Lemma commit_mode v v' : mode (commit_view v v') = mode v'.
Proof. apply sync_mode. Qed.

Lemma commit_busy v v' : busy (commit_view v v') = busy v'.
Proof. apply sync_busy. Qed.

(** The text a user typed survives a change between draft modes. *)
Lemma typed_kept w v' t :
  editor_ok w → typed w = Some t → (is_draft (mode (view w)) = true → is_draft (mode v') = true ∧ doc v' = doc (view w)) →
  is_draft (mode (commit_view (view w) v')) = true ∧ doc (commit_view (view w) v') = t.
Proof.
  intros Hok Ht Hv'. destruct (ok_typed w Hok t Ht) as [Hd Hdoc]. destruct (Hv' Hd) as [Hd' Hdoc'].
  unfold commit_view. rewrite sync_mode, sync_draft by done. split; [done|congruence].
Qed.

(** Nothing is typed while the mode is [Viewing]. *)
Lemma viewing_untyped w : editor_ok w → mode (view w) = Viewing → typed w = None.
Proof.
  intros Hok Hv. destruct (typed w) as [t|] eqn:Htt; [|done].
  destruct (ok_typed w Hok t Htt) as [Hd _]. by rewrite Hv in Hd.
Qed.

(** An operation that ends lets the buttons go; at most the new view's mode,
    document and flag matter. *)
Lemma editor_ok_settles w v' f p1 op p2 s' :
  editor_ok w → pending w = p1 ++ op :: p2 → busy_op op = true →
  busy v' = false → mode_ok (mode v') s' →
  (∀ t, typed w = Some t → is_draft (mode v') = true ∧ doc v' = t) →
  editor_ok (editor_state v' f (p1 ++ p2) (typed w) s').
Proof.
  intros [Hm Ho Hb Ht] Hp Hop Hv Hmode Htyped. rewrite Hp, busy_split, Hop in Hb.
  assert (length (js_filter busy_op (p1 ++ p2)) = 0%nat) as Hzero by (destruct (busy (view w)); lia).
  split; cbn [view pending seen typed editor_state]; [done| |by rewrite Hv|done].
  intros op' Hin. by eapply idle_op_ok.
Qed.

(** An operation that goes on to another one keeps the buttons disabled. *)
Lemma editor_ok_continues w v' f p1 op op' p2 s' t' :
  editor_ok w → pending w = p1 ++ op :: p2 → busy_op op = true → busy_op op' = true →
  busy v' = busy (view w) → mode_ok (mode v') s' → op_ok op' (mode v') →
  (∀ t, t' = Some t → is_draft (mode v') = true ∧ doc v' = t) →
  editor_ok (editor_state v' f (op' :: p1 ++ p2) t' s').
Proof.
  intros [Hm Ho Hb Ht] Hp Hop Hop' Hv Hmode Hok' Htyped. rewrite Hp, busy_split, Hop in Hb.
  assert (length (js_filter busy_op (p1 ++ p2)) = 0%nat) as Hzero by (destruct (busy (view w)); lia).
  split; cbn [view pending seen typed editor_state]; [done| | |done].
  - intros op'' [-> |Hin]%elem_of_cons; [done|by eapply idle_op_ok].
  - cbn [js_filter List.filter]. rewrite Hop', Hv. cbn [length]. by rewrite <- Hb, Nat.add_1_r.
Qed.

(** Starting an operation that disables the buttons. *)
Lemma editor_ok_starts w op :
  editor_ok w → busy (view w) = false → busy_op op = true → op_ok op (mode (view w)) →
  editor_ok (editor_state (set_busy (view w) true) (server w) (op :: pending w) (typed w) (seen w)).
Proof.
  intros [Hm Ho Hb Ht] Hbusy Hop Hok. rewrite Hbusy in Hb.
  split; cbn [view pending seen typed editor_state set_busy mode busy doc]; try done.
  - intros op' [-> |Hin]%elem_of_cons; auto.
  - cbn [js_filter List.filter]. rewrite Hop. cbn [length]. by rewrite Hb.
Qed.

Lemma editor_loads_ok w r p1 p2 op :
  editor_ok w → pending w = p1 ++ op :: p2 → (op = PendingLoad ∨ op = PendingReload) →
  let v' := if busy_op op then set_busy (load_settles r (view w)) false else load_settles r (view w) in
  editor_ok (editor_state (commit_view (view w) v') (server w) (p1 ++ p2) (typed w) (seen w)).
Proof.
  intros Hok Hp Hop v'. destruct (load_settles_mode r (view w)) as (Hmode & Hdoc & Hbusy).
  assert (mode v' = mode (view w) ∧ doc v' = doc (view w)) as [Hm' Hd'] by (unfold v'; by destruct (busy_op op)).
  assert (∀ t, typed w = Some t → is_draft (mode (commit_view (view w) v')) = true ∧ doc (commit_view (view w) v') = t) as Htyped.
  { intros t Ht. apply typed_kept; [done..|]. by rewrite Hm', Hd'. }
  pose proof Hok as [Hm Ho Hb Ht]. destruct Hop as [-> | ->].
  - rewrite Hp, busy_split in Hb. cbn [busy_op] in Hb. rewrite Nat.add_0_r in Hb.
    split; cbn [view pending seen typed editor_state]; rewrite ?commit_mode, ?commit_busy, ?Hm'; try done.
    + intros op' Hin. apply Ho. rewrite Hp. set_solver.
    + unfold v'. cbn [busy_op]. by rewrite Hbusy.
    + intros t Htt. destruct (Htyped t Htt) as [_ Hdoc']. by destruct (Ht t Htt).
  - eapply editor_ok_settles; [done..|by rewrite commit_busy| |done]. by rewrite commit_mode, Hm'.
Qed.

(** Keeping the local draft of a conflict. *)
Lemma keepEditing_ok v s :
  is_draft (mode v) = true → mode_ok (mode v) s →
  mode_ok (mode (keepEditingLocalDraft v)) s ∧ is_draft (mode (keepEditingLocalDraft v)) = true ∧
  doc (keepEditingLocalDraft v) = doc v ∧ busy (keepEditingLocalDraft v) = busy v.
Proof. unfold keepEditingLocalDraft. intros Hd Hm. by destruct (mode v) eqn:Hmode; rewrite ?Hmode. Qed.

Lemma editor_saves_ok w whole o edited v' write p1 p2 :
  editor_ok w → pending w = p1 ++ PendingSaveRead o edited :: p2 → whole_content whole = server w →
  save_reads o edited (Returns whole) (view w) = (v', write) →
  editor_ok (editor_state (commit_view (view w) v') (server w)
    (match write with Some text => PendingWrite (server w) text :: p1 ++ p2 | None => p1 ++ p2 end)
    (typed w) (server w :: seen w)).
Proof.
  intros Hok Hp Hwhole Hread. destruct (ok_ops w Hok (PendingSaveRead o edited)) as [dr Hmode]; [rewrite Hp; set_solver|].
  pose proof (ok_mode w Hok) as Hm. rewrite Hmode in Hm.
  cbn [save_reads] in Hread. rewrite Hwhole in Hread. case_bool_decide as Hsame; injection Hread as <- <-.
  - eapply editor_ok_settles; [done..|by rewrite commit_busy| |].
    + rewrite commit_mode. cbn. set_solver.
    + intros t Htt. by apply typed_kept.
  - rewrite Hsame. (* the file is what the draft began from *)
    eapply editor_ok_continues; [done..|by rewrite commit_busy| | |].
    + rewrite commit_mode, Hmode. cbn. set_solver.
    + rewrite commit_mode, Hmode. by exists dr.
    + intros t Htt. by apply typed_kept.
Qed.

Lemma editor_step_ok w w' : editor_step w w' → editor_ok w → editor_ok w'.
Proof.
  intros Hstep Hok. pose proof Hok as [Hm Ho Hb Ht]. destruct Hstep.
  - split; cbn; try done. intros t [= <-]. by rewrite H.
  - by split.
  - split; cbn [view pending seen typed editor_state]; rewrite ?commit_mode, ?commit_busy; try done.
    rewrite H in Hb. intros op [-> |Hin]%elem_of_cons; [done|by eapply idle_op_ok].
  - by apply (editor_loads_ok w r p1 p2 PendingLoad); [| |left].
  - by apply (editor_loads_ok w r p1 p2 PendingReload); [| |right].
  - by apply editor_ok_starts.
  - destruct (more_settles_mode r (view w)) as (Hmode & Hdoc & Hbusy).
    eapply editor_ok_settles; [done..|by rewrite commit_busy|by rewrite commit_mode, Hmode|].
    intros t Htt. apply typed_kept; [done..|]. by rewrite Hmode, Hdoc.
  - by apply editor_ok_starts.
  - eapply editor_ok_settles; done.
  - assert (mode (view w) = Viewing) as Hview by (apply (Ho PendingEdit); rewrite H; set_solver).
    pose proof (viewing_untyped w Hok Hview) as Hnone.
    eapply editor_ok_settles; [done..| | |by rewrite Hnone]; rewrite ?commit_busy, ?commit_mode;
      cbn [edit_settles]; destruct (_ <? _); cbn [mode set_busy set_mode]; rewrite ?Hview; try done.
    cbn. rewrite H0. set_solver.
  - apply editor_ok_starts; [done..|]. by exists dr.
  - eapply editor_ok_settles; done.
  - by eapply editor_saves_ok.
  - eapply editor_ok_settles; done.
  - eapply editor_ok_continues; [done..|by rewrite commit_busy|by rewrite commit_mode|done|done].
  - destruct (keepEditing_ok (view w) (seen w) H Hm) as (Hk1 & Hk2 & Hk3 & Hk4).
    split; cbn [view pending seen typed editor_state]; rewrite ?commit_mode, ?commit_busy, ?Hk4; try done.
    + intros op Hin. specialize (Ho op Hin). unfold keepEditingLocalDraft.
      destruct op; try done; cbn in Ho |- *; [by rewrite Ho in H|..]; destruct Ho as [x Ho]; rewrite !Ho; by exists x.
    + intros t Htt. rewrite <- (commit_mode (view w)). apply typed_kept; [done..|]. by rewrite Hk2, Hk3.
Qed.

Lemma editor_reachable_ok f w : editor_reachable f w → editor_ok w.
Proof.
  induction 1 as [|w w' _ IH Hstep]; [|by eapply editor_step_ok].
  split; cbn; try done. by intros op ->%list_elem_of_singleton.
Qed.

(** While viewing, the document is that of the text that was loaded. *)
Definition shows_loaded (v : file_view) : Prop :=
  CR ∉ doc v ∧ (mode v = Viewing → ∀ l, loaded v = Some l → binary l = false → doc v = doc_text (loaded_content l)).

Lemma commit_shows v v' : CR ∉ doc v' → shows_loaded (commit_view v v').
Proof.
  intros Hd. split; [by apply sync_no_cr|]. unfold commit_view, sync_document. intros Hmode l Hl Hb.
  destruct (loaded v') as [l'|] eqn:Hl'; [|congruence]. destruct (binary l') eqn:Hb'; [congruence|].
  cbn [mode loaded doc set_doc] in *. rewrite Hl' in Hl. injection Hl as <-.
  rewrite dispatch_text by done. unfold nextDocument. by rewrite Hmode.
Qed.

(** No operation touches the document itself. *)
Lemma edit_settles_doc r v : doc (edit_settles r v) = doc v.
Proof. unfold edit_settles. destruct r; [|done]. by destruct (_ <? _). Qed.

Lemma save_reads_doc o e r v : doc (save_reads o e r v).1 = doc v.
Proof. unfold save_reads. destruct r; [|done]. by destruct (bool_decide _). Qed.

Lemma shows_step w w' : editor_step w w' → shows_loaded (view w) → shows_loaded (view w').
Proof.
  intros Hstep Hw. destruct Hstep; try exact Hw; try (apply commit_shows; cbn [doc set_busy]).
  - split; [apply doc_text_no_cr|]. intros Hv. cbn in Hv. congruence.
  - apply Hw.
  - rewrite (proj1 (proj2 (load_settles_mode r (view w)))). apply Hw.
  - rewrite (proj1 (proj2 (load_settles_mode r (view w)))). apply Hw.
  - rewrite (proj1 (proj2 (more_settles_mode r (view w)))). apply Hw.
  - rewrite edit_settles_doc. apply Hw.
  - pose proof (save_reads_doc o edited (Returns whole) (view w)) as Hd. rewrite H1 in Hd. cbn in Hd. rewrite Hd. apply Hw.
  - apply Hw.
  - unfold keepEditingLocalDraft. destruct (mode (view w)); apply Hw.
Qed.

Lemma editor_reachable_shows f w : editor_reachable f w → shows_loaded (view w).
Proof.
  induction 1 as [|w w' _ IH Hstep]; [|by eapply shows_step]. split; [by apply not_elem_of_nil|by intros _ l].
Qed.

Lemma busy_single op p : length (js_filter busy_op p) = 1%nat → busy_op op = true → op ∈ p → js_filter busy_op p = [op].
Proof.
  intros Hlen Hop Hin. assert (op ∈ js_filter busy_op p) as Hf by by apply js_filter_elem.
  destruct (js_filter busy_op p) as [|x [|]]; [done| |done]. by apply list_elem_of_singleton in Hf as ->.
Qed.

(** ** Theorems *)

Definition example_window (text : jsstr) : FileReadWindow :=
  {| window_path := js "f"; content := text; window_start_line := 1; num_lines := 1; window_total_lines := 1;
     bytes_read := 1; window_total_bytes := 1; next_offset := None; window_truncated := false |}.
Definition example_whole (text : jsstr) : WholeFile :=
  {| whole_content := text; whole_totalLines := 1; whole_totalBytes := 1 |}.

Definition example_text (text : jsstr) : LoadedText := window_text (example_window text).

(** C5: a save overwrites only what its draft was based on: in every
    interleaving of typing, loads, paging, saves and changes by others, while
    a write is under way the view is still editing the very text that the
    file was read to hold just before, a whole read returned that text, the
    buttons are disabled and no other operation that disables them is under
    way. *)
Theorem editor_write_checked f w c e (Hw : editor_reachable f w) (He : PendingWrite c e ∈ pending w) :
  (∃ dr, mode (view w) = Editing c dr) ∧ c ∈ seen w ∧ busy (view w) = true ∧
  js_filter busy_op (pending w) = [PendingWrite c e].
Proof.
  destruct (editor_reachable_ok f w Hw) as [Hm Ho Hb _]. destruct (Ho _ He) as [dr Hmode]. rewrite Hmode in Hm.
  assert (length (js_filter busy_op (pending w)) ≠ 0%nat) as Hne.
  { assert (PendingWrite c e ∈ js_filter busy_op (pending w)) as Hf by by apply js_filter_elem.
    destruct (js_filter busy_op (pending w)); [by apply not_elem_of_nil in Hf|done]. }
  destruct (busy (view w)); [|done].
  split; [by exists dr|]. split; [done|]. split; [done|]. by apply busy_single.
Qed.

(** C6: the editor keeps what the user typed and shows what was loaded: in
    every reachable state the document that typing made since editing began is
    the editor's document and the mode is a draft's (editing, or the conflict
    that a change by others raised), through failed reads, failed writes,
    conflicts and "keep editing"; while viewing the document is the one the
    library makes of the loaded text, which is the loaded text itself when
    that has no carriage return; and no document has a carriage return, whatever
    the file has ([save_rewrites_line_ends]). *)
Theorem editor_document f w (Hw : editor_reachable f w) :
  (∀ t, typed w = Some t → is_draft (mode (view w)) = true ∧ doc (view w) = t) ∧
  (mode (view w) = Viewing → ∀ l, loaded (view w) = Some l → binary l = false →
     doc (view w) = doc_text (loaded_content l) ∧ (CR ∉ loaded_content l → doc (view w) = loaded_content l)) ∧
  CR ∉ doc (view w).
Proof.
  destruct (editor_reachable_shows f w Hw) as [Hcr Hshows]. split; [apply ok_typed, (editor_reachable_ok f w Hw)|]. split; [|done].
  intros Hv l Hl Hb. rewrite (Hshows Hv l Hl Hb). split; [done|]. apply doc_text_plain.
Qed.

(** *** Editing a file and saving it with nothing typed *)

Definition loaded_view (f : jsstr) : file_view := commit_view initial_view (load_settles (Returns (example_window f)) initial_view).
Definition editing_view (f : jsstr) : file_view :=
  commit_view (set_busy (loaded_view f) true) (edit_settles (Returns (example_whole f)) (set_busy (loaded_view f) true)).
Definition untouched_save (f : jsstr) : editor_world :=
  editor_state (commit_view (set_busy (editing_view f) true) (set_busy (editing_view f) true)) f
    [PendingWrite f (doc (editing_view f))] None [f; f].

Lemma editing_view_spec f : mode (editing_view f) = Editing f f ∧ busy (editing_view f) = false ∧ doc (editing_view f) = doc_text f.
Proof.
  unfold editing_view. rewrite commit_mode, commit_busy. split; [done|]. split; [done|].
  assert (CR ∉ doc (loaded_view f)) as Hcr by (apply sync_no_cr, not_elem_of_nil).
  unfold commit_view, sync_document. cbn. by apply dispatch_text.
Qed.

Lemma untouched_save_reachable f : editor_reachable f (untouched_save f).
Proof.
  destruct (editing_view_spec f) as (Hmode & Hbusy & _). unfold untouched_save.
  set (saving := editor_state (set_busy (editing_view f) true) f [PendingSaveRead f (doc (editing_view f))] None [f]).
  eapply editor_next; [|refine (editor_save_reads (example_whole f) f _ _ (Some (doc (editing_view f))) [] [] saving eq_refl eq_refl _);
    cbn; by rewrite bool_decide_false by (intros Hne; by apply Hne)].
  eapply editor_next; [|exact (editor_save f f (editor_state (editing_view f) f [] None [f]) Hbusy Hmode)].
  eapply editor_next; [|exact (editor_edit_settles (example_whole f) [] []
    (editor_state (set_busy (loaded_view f) true) f [PendingEdit] None []) eq_refl eq_refl)].
  eapply editor_next; [|exact (editor_edit (editor_state (loaded_view f) f [] None []) eq_refl eq_refl)].
  eapply editor_next; [|exact (editor_loaded (Returns (example_window f)) [] [] (editor_state initial_view f [PendingLoad] None []) eq_refl)].
  exact (editor_init f).
Qed.

(** A file with carriage returns is written back without them: editing it and
    saving, with nothing typed, overwrites it with the text of the editor's
    document, which is another one. The check for concurrent changes does not
    see it: it compares what was read with what was read before. *)
Theorem save_rewrites_line_ends f (Hcr : CR ∈ f) :
  ∃ w w', editor_reachable f w ∧ typed w = None ∧ server w = f ∧ editor_step w w' ∧ server w' = doc_text f ∧ server w' ≠ f.
Proof.
  destruct (editing_view_spec f) as (_ & _ & Hdoc). exists (untouched_save f). eexists.
  split; [apply untouched_save_reachable|]. split; [done|]. split; [done|].
  split; [exact (editor_writes f (doc (editing_view f)) [] [] (untouched_save f) eq_refl)|]. cbn [server editor_state]. rewrite Hdoc.
  split; [done|]. intros Heq. by apply (doc_text_no_cr f); rewrite Heq.
Qed.

End editor.

(** ** An editing session *)

(** The documents of the editor library, as documented. *)
Fixpoint lf_lines (s : jsstr) : jsstr :=
  match s with
  | [] => []
  | u :: s' =>
      if u =? CR then 10 :: match s' with v :: s'' => if v =? 10 then lf_lines s'' else lf_lines s' | [] => [] end
      else u :: lf_lines s'
  end.

Lemma lf_lines_no_cr s : CR ∉ lf_lines s.
Proof.
  induction s as [s IH] using (induction_ltof1 _ (@length Z)). unfold ltof in IH. destruct s as [|u s]; [by apply not_elem_of_nil|]. cbn.
  destruct (Z.eqb_spec u CR) as [Hu|Hu]; apply not_elem_of_cons; (split; [done|]); [|by apply IH; cbn; lia].
  destruct s as [|v s]; [by apply not_elem_of_nil|]. destruct (v =? 10); [apply IH; cbn; lia|exact (IH (v :: s) ltac:(cbn; lia))].
Qed.

Lemma lf_lines_app p s : CR ∉ p → lf_lines (p ++ s) = p ++ lf_lines s.
Proof.
  induction p as [|u p IH]; [done|]. intros [Hu Hp]%not_elem_of_cons. cbn. destruct (Z.eqb_spec u CR); [congruence|]. by rewrite IH.
Qed.

Definition lf_text : DocumentText :=
  {| doc_text := lf_lines; doc_text_nil := eq_refl; doc_text_no_cr := lf_lines_no_cr; doc_text_app := lf_lines_app |}.

#[local] Existing Instance lf_text.

(** The user edits "a" to "b" and saves, and goes on to "c". *)
Definition example_editing (t : jsstr) (b : bool) (p : list pending_op) (s : list jsstr) : editor_world :=
  editor_state {| loaded := Some (example_text (js "a")); loadError := None; loading := false;
                  mode := Editing (js "a") (js "a"); busy := b; doc := t |} (js "a") p (Some t) s.

Definition example_saving : editor_world :=
  example_editing (js "b") true [PendingWrite (js "a") (js "b")] [js "a"; js "a"].
Definition example_typing : editor_world :=
  example_editing (js "c") true [PendingWrite (js "a") (js "b")] [js "a"; js "a"].

Lemma example_saving_reachable : editor_reachable (js "a") example_saving.
Proof.
  eapply editor_next; [|exact (editor_save_reads (example_whole (js "a")) (js "a") (js "b") _ (Some (js "b")) [] []
    (example_editing (js "b") true [PendingSaveRead (js "a") (js "b")] [js "a"]) eq_refl eq_refl eq_refl)].
  eapply editor_next; [|exact (editor_save (js "a") (js "a") (example_editing (js "b") false [] [js "a"]) eq_refl eq_refl)].
  eapply editor_next; [|exact (editor_types (js "b") (js "a") (js "a") (editor_state (view (example_editing (js "a") false [] []))
    (js "a") [] None [js "a"]) eq_refl)].
  eapply editor_next; [|exact (editor_edit_settles (example_whole (js "a")) [] [] (editor_state
    {| loaded := Some (example_text (js "a")); loadError := None; loading := false; mode := Viewing; busy := true; doc := js "a" |}
    (js "a") [PendingEdit] None []) eq_refl eq_refl)].
  eapply editor_next; [|exact (editor_edit (editor_state
    {| loaded := Some (example_text (js "a")); loadError := None; loading := false; mode := Viewing; busy := false; doc := js "a" |}
    (js "a") [] None []) eq_refl eq_refl)].
  eapply editor_next; [|exact (editor_loaded (Returns (example_window (js "a"))) [] []
    (editor_state initial_view (js "a") [PendingLoad] None []) eq_refl)].
  exact (editor_init (js "a")).
Qed.

Lemma example_typing_reachable : editor_reachable (js "a") example_typing.
Proof.
  eapply editor_next; [apply example_saving_reachable|].
  exact (editor_types (js "c") (js "a") (js "a") example_saving eq_refl).
Qed.

Lemma editor_write_checked_witness :
  PendingWrite (js "a") (js "b") ∈ pending example_saving ∧ js "a" ∈ seen example_saving.
Proof.
  assert (PendingWrite (js "a") (js "b") ∈ pending example_saving) as Hin by by apply list_elem_of_singleton.
  split; [done|]. exact (proj1 (proj2 (editor_write_checked _ _ _ _ example_saving_reachable Hin))).
Defined.

Lemma editor_document_witness : typed example_typing = Some (js "c") ∧ doc (view example_typing) = js "c".
Proof.
  split; [done|]. exact (proj2 (proj1 (editor_document _ _ example_typing_reachable) _ eq_refl)).
Defined.

Lemma save_rewrites_line_ends_witness : ∃ w w', editor_reachable (js "a" ++ [CR; 10] ++ js "b") w ∧ typed w = None ∧
  editor_step w w' ∧ server w' = js "a" ++ [10] ++ js "b".
Proof.
  destruct (save_rewrites_line_ends (js "a" ++ [CR; 10] ++ js "b")) as (w & w' & Hw & Ht & _ & Hstep & Hs & _); [decide_closed|].
  exists w, w'. split; [exact Hw|]. split; [exact Ht|]. split; [exact Hstep|exact Hs].
Defined.

(** Text typed while a save is under way is lost when the save succeeds:
    the editor stays editable during the save (only the buttons are
    disabled), the save writes the text it took when it began, and leaves
    editing, so the document goes back to a loaded text. *)
Theorem save_discards_later_typing :
  ∃ w', editor_reachable (js "a") example_typing ∧ typed example_typing = Some (js "c") ∧
    editor_step example_typing w' ∧ server w' = js "b" ∧ typed w' = None ∧
    mode (view w') = Viewing ∧ doc (view w') = js "a".
Proof.
  eexists. split; [apply example_typing_reachable|]. split; [done|].
  split; [exact (editor_writes (js "a") (js "b") [] [] example_typing eq_refl)|]. by vm_compute.
Qed.
