(* ===== verification/FileTree.v ===== *)
(** The file tree ([web/src/pages/sandbox/files/FileTree.tsx]): the rows shown
    for the expanded directories, and their keyboard navigation. *)
From S2P Require Import Prelude JsCollections JsText Files.

Definition SLASH : Z := 47.
Definition TYPEAHEAD_DELAY_MS : Z := 700.

Inductive row_tone := ToneDimmed | ToneDanger | ToneWarning.

Record TreeEntryRow := { entry : FileListEntry; path : jsstr; parentPath : jsstr; depth : Z }.
Record TreeStatusRow := { status_key : jsstr; status_depth : Z; message : jsstr; tone : row_tone }.

Inductive TreeRow := EntryRow (r : TreeEntryRow) | StatusRow (r : TreeStatusRow).

(** [UseQueryResult]: what the query of one directory holds; a failure keeps
    the data of an earlier success. *)
Inductive listing := ListingPending | ListingError (m : jsstr) (kept : option FileListResult) | Listing (data : FileListResult).

Definition listing_data (l : listing) : option FileListResult :=
  match l with ListingPending => None | ListingError _ kept => kept | Listing data => Some data end.

Definition is_directory (e : FileListEntry) : bool := match entry_kind e with entry_directory => true | _ => false end.
Definition is_file (e : FileListEntry) : bool := match entry_kind e with entry_file => true | _ => false end.

Definition actionable (e : FileListEntry) : bool := is_directory e || is_file e.

Definition child_path (dirPath : jsstr) (e : FileListEntry) : jsstr :=
  if bool_decide (dirPath = []) then entry_name e else dirPath ++ SLASH :: entry_name e.

Definition status_row (dirPath : jsstr) (suffix : string) (depth : Z) (m : jsstr) (t : row_tone) : TreeRow :=
  StatusRow {| status_key := dirPath ++ js suffix; status_depth := depth; message := m; tone := t |}.

Definition TRUNCATED_MESSAGE : jsstr := js "Showing the first 2,000 entries returned by this directory.".

Section tree.
(** [String.prototype.localeCompare] and [toLocaleLowerCase], which depend on
    the browser's locale. *)
Context (localeCompare : jsstr → jsstr → Z) (toLocaleLowerCase : jsstr → jsstr).

(** ** The rows *)

Definition dirRank (e : FileListEntry) : Z := if is_directory e then 0 else 1.

Definition compare_entries (a b : FileListEntry) : Z :=
  let rank := dirRank a - dirRank b in
  if rank =? 0 then localeCompare (entry_name a) (entry_name b) else rank.

Section rows.
Context (expanded : gset jsstr) (listingsByPath : gmap jsstr listing).

(** The rows of one entry; [deeper] lists the directory it opens. *)
Definition entry_rows (deeper : jsstr → option (list TreeRow)) (dirPath : jsstr) (depth : Z) (e : FileListEntry)
    : option (list TreeRow) :=
  let p := child_path dirPath e in
  let row := EntryRow {| entry := e; path := p; parentPath := dirPath; depth := depth |} in
  if is_directory e && bool_decide (p ∈ expanded) then (λ rows, row :: rows) <$> deeper p else Some [row].

Definition closing_rows (dirPath : jsstr) (depth : Z) (data : FileListResult) : list TreeRow :=
  (if bool_decide (list_entries data = []) then [status_row dirPath ":empty" depth (js "empty directory") ToneDimmed] else []) ++
  (if list_truncated data then [status_row dirPath ":truncated" depth TRUNCATED_MESSAGE ToneWarning] else []).

(** [None] when the recursion is cut off. *)
Fixpoint flattenRows (fuel : nat) (dirPath : jsstr) (depth : Z) : option (list TreeRow) :=
  match fuel with
  | O => None
  | S fuel =>
      match listingsByPath !! dirPath with
      | None | Some ListingPending => Some [status_row dirPath ":loading" depth (js "loading" ++ [8230]) ToneDimmed]
      | Some (ListingError m _) => Some [status_row dirPath ":error" depth m ToneDanger]
      | Some (Listing data) =>
          rows ← mapM (entry_rows (λ p, flattenRows fuel p (depth + 1)) dirPath depth)
                      (js_sort compare_entries (list_entries data));
          Some (concat rows ++ closing_rows dirPath depth data)
      end
  end.

(** The component's rows: a directory is entered below an expanded one only,
    so that many levels suffice. *)
Definition tree_rows : option (list TreeRow) := flattenRows (S (size expanded)) [] 0.
End rows.

Definition entry_row (r : TreeRow) : option TreeEntryRow := match r with EntryRow r => Some r | StatusRow _ => None end.

Definition tree_entries (rows : list TreeRow) : list TreeEntryRow := omap entry_row rows.

Definition row_key (r : TreeRow) : jsstr := match r with EntryRow r => path r | StatusRow r => status_key r end.

(** [new Map(l.map((x, index) => [key(x), index]))]. *)
Definition index_by {A} (key : A → jsstr) (l : list A) : gmap jsstr nat :=
  js_map (imap (λ i x, (key x, i)) l).

Definition rowIndexByPath (rows : list TreeRow) : gmap jsstr nat := index_by row_key rows.
Definition entryIndexByPath (es : list TreeEntryRow) : gmap jsstr nat := index_by path es.

(** ** State *)

(** [domFocus] is the row that holds the browser's focus; [mounted] tells
    which rows the virtualizer has rendered. *)
Record tree_state := {
  expandedDirs : gset jsstr;
  focusedPath : jsstr;
  pendingChildFocus : option jsstr;
  typeahead : jsstr;
  domFocus : option jsstr;
}.

Definition initial_tree : tree_state :=
  {| expandedDirs := {[ [] ]}; focusedPath := []; pendingChildFocus := None; typeahead := []; domFocus := None |}.

(** The effect of another sandbox or session. *)
Definition reset_tree (s : tree_state) : tree_state :=
  {| expandedDirs := {[ [] ]}; focusedPath := []; pendingChildFocus := pendingChildFocus s;
     typeahead := typeahead s; domFocus := domFocus s |}.

Definition set_focus (s : tree_state) (p : jsstr) (pending dom : option jsstr) : tree_state :=
  {| expandedDirs := expandedDirs s; focusedPath := p; pendingChildFocus := pending;
     typeahead := typeahead s; domFocus := dom |}.

Definition set_expanded (s : tree_state) (x : gset jsstr) (pending : option jsstr) : tree_state :=
  {| expandedDirs := x; focusedPath := focusedPath s; pendingChildFocus := pending;
     typeahead := typeahead s; domFocus := domFocus s |}.

Definition set_typeahead (s : tree_state) (t : jsstr) : tree_state :=
  {| expandedDirs := expandedDirs s; focusedPath := focusedPath s; pendingChildFocus := pendingChildFocus s;
     typeahead := t; domFocus := domFocus s |}.

Section events.
Context (rows : list TreeRow) (mounted : jsstr → bool).
Notation es := (tree_entries rows).

(** [element.focus()] of the row's button, which does nothing while the
    button is disabled: that of a link or of anything else that is neither a
    directory nor a file. *)
Definition element_focus (p : jsstr) (s : tree_state) : option jsstr :=
  if js_some (λ r, bool_decide (path r = p) && actionable (entry r)) es then Some p else domFocus s.

Definition focusPath (p : jsstr) (s : tree_state) : tree_state :=
  match rowIndexByPath rows !! p with
  | None => s
  | Some _ => if mounted p then set_focus s p None (element_focus p s) else set_focus s p (Some p) (domFocus s)
  end.

(** The effect of new rows. *)
Definition focus_child (s : tree_state) : tree_state :=
  match pendingChildFocus s with
  | None => s
  | Some parent =>
      match js_find (λ e, bool_decide (parentPath e = parent)) es with
      | None => s
      | Some child => focusPath (path child) (set_focus s (focusedPath s) None (domFocus s))
      end
  end.

(** The [ref] callback of a row that is rendered. *)
Definition row_mounts (p : jsstr) (s : tree_state) : tree_state :=
  if bool_decide (pendingChildFocus s = Some p) then set_focus s (focusedPath s) None (element_focus p s) else s.

Definition toggle_set (p : jsstr) (x : gset jsstr) : gset jsstr :=
  if bool_decide (p ∈ x) then x ∖ {[p]} else x ∪ {[p]}.

Definition toggleDirectory (p : jsstr) (focusFirstChild : bool) (s : tree_state) : tree_state :=
  set_expanded s (toggle_set p (expandedDirs s))
    (if bool_decide (p ∉ expandedDirs s) && focusFirstChild then Some p else pendingChildFocus s).

(** The state and the file that [onSelect] is called with. *)
Definition activate (row : TreeEntryRow) (s : tree_state) : tree_state * option jsstr :=
  let s := set_focus s (path row) (pendingChildFocus s) (domFocus s) in
  if is_directory (entry row) then (toggleDirectory (path row) false s, None)
  else (s, if is_file (entry row) then Some (path row) else None).

(** [entries[i]?.path ?? row.path]. *)
Definition path_at (i : Z) (row : TreeEntryRow) : jsstr :=
  if i <? 0 then path row else (path <$> es !! Z.to_nat i) ?? path row.

Record key_event := { key : jsstr; metaKey : bool; ctrlKey : bool; altKey : bool }.

Definition typeahead_match (i : nat) (prefix : jsstr) : option TreeEntryRow :=
  js_find (λ e, startsWith prefix (toLocaleLowerCase (entry_name (entry e)))) (drop (S i) es ++ take (S i) es).

Definition type_key (ev : key_event) (i : nat) (s : tree_state) : tree_state :=
  if bool_decide (length (key ev) ≠ 1%nat) || metaKey ev || ctrlKey ev || altKey ev then s
  else
    let nextValue := toLocaleLowerCase (typeahead s ++ key ev) in
    let s := set_typeahead s nextValue in
    match typeahead_match i nextValue with Some e => focusPath (path e) s | None => s end.

(** When the delay after the last key is over. *)
Definition typeahead_expires (s : tree_state) : tree_state := set_typeahead s [].

Definition onTreeKeyDown (ev : key_event) (row : TreeEntryRow) (s : tree_state) : tree_state * option jsstr :=
  let currentIndex := entryIndexByPath es !! path row ?? 0%nat in
  let k := key ev in
  if bool_decide (k = js "ArrowDown") then
    (focusPath (path_at (Z.min (Z.of_nat (length es) - 1) (Z.of_nat currentIndex + 1)) row) s, None)
  else if bool_decide (k = js "ArrowUp") then
    (focusPath (path_at (Z.max 0 (Z.of_nat currentIndex - 1)) row) s, None)
  else if bool_decide (k = js "Home") then (focusPath (path_at 0 row) s, None)
  else if bool_decide (k = js "End") then (focusPath ((path <$> last es) ?? path row) s, None)
  else if bool_decide (k = js "ArrowRight") then
    if is_directory (entry row) then
      if bool_decide (path row ∉ expandedDirs s) then (toggleDirectory (path row) true s, None)
      else match js_find (λ e, bool_decide (parentPath e = path row)) es with
           | Some child => (focusPath (path child) s, None)
           | None => (s, None)
           end
    else (s, None)
  else if bool_decide (k = js "ArrowLeft") then
    if is_directory (entry row) && bool_decide (path row ∈ expandedDirs s)
    then (toggleDirectory (path row) false s, None)
    else if bool_decide (parentPath row = []) then (s, None) else (focusPath (parentPath row) s, None)
  else if bool_decide (k = js "Enter") || bool_decide (k = js " ") then activate row s
  else (type_key ev currentIndex s, None).
End events.

(** ** Facts: paths *)

(** Names of a directory: not empty, without a slash. *)
Definition name_ok (e : FileListEntry) : Prop := entry_name e ≠ [] ∧ SLASH ∉ entry_name e.

Definition dir_prefix (dirPath : jsstr) : jsstr := if bool_decide (dirPath = []) then [] else dirPath ++ [SLASH].

Lemma child_path_prefix dirPath e : child_path dirPath e = dir_prefix dirPath ++ entry_name e.
Proof. unfold child_path, dir_prefix. case_bool_decide; [done|]. by rewrite <- app_assoc. Qed.

Lemma child_path_longer dirPath e : name_ok e → (length dirPath < length (child_path dirPath e))%nat.
Proof.
  intros [Hne _]. rewrite child_path_prefix, length_app. unfold dir_prefix.
  destruct (entry_name e) as [|u n]; [done|]. case_bool_decide as Hd; [subst; cbn; lia|].
  rewrite length_app. cbn. lia.
Qed.

(** [y] is [x] or below the directory [x]. *)
Definition under (x y : jsstr) : Prop := y = x ∨ (x ++ [SLASH]) `prefix_of` y.

Definition segment : jsstr → jsstr := fix go s := match s with [] => [] | u :: s => if u =? SLASH then [] else u :: go s end.

Lemma segment_app n rest : SLASH ∉ n → segment (n ++ SLASH :: rest) = n ∧ segment n = n.
Proof.
  induction n as [|u n IH]; [done|]. intros [Hu Hn]%not_elem_of_cons. cbn.
  destruct (u =? SLASH) eqn:He; bool_to_prop; [by subst|]. by destruct (IH Hn) as [-> ->].
Qed.

Lemma under_name base n n' y : SLASH ∉ n → SLASH ∉ n' → under (base ++ n) y → under (base ++ n') y → n = n'.
Proof.
  intros Hn Hn' Hy Hy'. assert (∀ m, SLASH ∉ m → under (base ++ m) y → segment (drop (length base) y) = m) as Hseg.
  { intros m Hm [-> |[k ->]]; [rewrite drop_app_length; by apply (segment_app m [])|].
    rewrite <- !app_assoc, drop_app_length. by apply (segment_app m k). }
  by rewrite <- (Hseg n), <- (Hseg n').
Qed.

Lemma under_child q e y : q ≠ [] → under (child_path q e) y → (q ++ [SLASH]) `prefix_of` y.
Proof.
  intros Hq. rewrite child_path_prefix. unfold dir_prefix. rewrite bool_decide_false by done.
  intros [-> |[k ->]]; [by exists (entry_name e)|]. eexists. by rewrite <- !app_assoc.
Qed.

Lemma tree_entries_app l k : tree_entries (l ++ k) = tree_entries l ++ tree_entries k.
Proof. apply omap_app. Qed.

Lemma tree_entries_elem rows r : r ∈ tree_entries rows ↔ EntryRow r ∈ rows.
Proof.
  unfold tree_entries. rewrite list_elem_of_omap. split; [|by exists (EntryRow r)].
  intros ([r'|] & Hin & Hr); [|done]. by injection Hr as ->.
Qed.

(** ** Facts: the rows *)

Section row_facts.
Context (expanded : gset jsstr) (listingsByPath : gmap jsstr listing).
Context (Hnames : ∀ p data, listingsByPath !! p = Some (Listing data) →
  Forall name_ok (list_entries data) ∧ NoDup (entry_name <$> list_entries data)).

Notation flatten := (flattenRows expanded listingsByPath).

Definition opens (e : FileListEntry) (p : jsstr) : Prop := is_directory e = true ∧ p ∈ expanded.

Lemma entry_rows_cases deeper p d e rows :
  entry_rows expanded deeper p d e = Some rows →
  let row := {| entry := e; path := child_path p e; parentPath := p; depth := d |} in
  (opens e (child_path p e) ∧ ∃ sub, deeper (child_path p e) = Some sub ∧ rows = EntryRow row :: sub) ∨
  (¬ opens e (child_path p e) ∧ rows = [EntryRow row]).
Proof.
  unfold entry_rows, opens. intros Hr. destruct (is_directory e); cbn [andb] in Hr;
    [|right; injection Hr as <-; split; [by intros [? _]|done]].
  case_bool_decide as Hx; [|right; split; [by intros [_ ?]|by injection Hr as <-]].
  left. split; [done|]. apply fmap_Some in Hr as (sub & Hsub & ->). by exists sub.
Qed.

(** One level of the recursion: the rows are those of the sorted entries, then
    the closing rows. *)
Lemma flattenRows_level fuel p d rows :
  flatten fuel p d = Some rows →
  ∃ f, fuel = S f ∧
  ((tree_entries rows = [] ∧ ∀ data, listingsByPath !! p ≠ Some (Listing data)) ∨
   ∃ data parts, listingsByPath !! p = Some (Listing data) ∧
     Forall2 (λ e part, entry_rows expanded (λ q, flatten f q (d + 1)) p d e = Some part)
       (js_sort compare_entries (list_entries data)) parts ∧
     rows = concat parts ++ closing_rows p d data).
Proof.
  destruct fuel as [|f]; [done|]. intros Hr. exists f. split; [done|]. cbn [flattenRows] in Hr.
  destruct (listingsByPath !! p) as [[|m kept|data]|].
  1,2,4: injection Hr as <-; by left.
  right. apply bind_Some in Hr as (parts & Hparts & Hr). injection Hr as <-. exists data, parts.
  split; [done|]. split; [|done]. by apply mapM_Some_1.
Qed.

Lemma closing_entries p d data : tree_entries (closing_rows p d data) = [].
Proof. unfold closing_rows. case_bool_decide; by destruct (list_truncated data). Qed.

Lemma sorted_names p data e :
  listingsByPath !! p = Some (Listing data) → e ∈ js_sort compare_entries (list_entries data) → name_ok e.
Proof.
  intros Hp He. rewrite js_sort_perm in He. destruct (Hnames p data Hp) as [Hok _].
  rewrite Forall_forall in Hok. by apply Hok.
Qed.

(** Enough fuel: the expanded paths that are longer than the directory's. *)
Lemma flattenRows_total fuel : ∀ p d,
  (size (filter (λ q, length p < length q)%nat expanded) < fuel)%nat → is_Some (flatten fuel p d).
Proof.
  induction fuel as [|f IH]; intros p d Hsize; [lia|]. cbn [flattenRows].
  destruct (listingsByPath !! p) as [[|m kept|data]|] eqn:Hp; try by eexists.
  assert (is_Some (mapM (entry_rows expanded (λ q, flatten f q (d + 1)) p d) (js_sort compare_entries (list_entries data))))
    as [rows ->]; [|by eexists].
  apply mapM_is_Some_2, Forall_forall. intros e He. pose proof (sorted_names p data e Hp He) as Hok.
  unfold entry_rows; cbn. destruct (is_directory e); cbn [andb]; [|by eexists].
  case_bool_decide as Hx; [|by eexists]. apply fmap_is_Some, IH.
  apply Nat.lt_le_trans with (size (filter (λ q, length p < length q)%nat expanded)); [|lia].
  apply subset_size. pose proof (child_path_longer p e Hok). split.
  - intros q. rewrite !elem_of_filter. intros [? ?]. split; [lia|done].
  - intros Hsub. specialize (Hsub (child_path p e)). rewrite !elem_of_filter in Hsub.
    destruct Hsub as [Hlt _]; [done|lia].
Qed.

Definition row_of (p : jsstr) (d : Z) (e : FileListEntry) : TreeEntryRow :=
  {| entry := e; path := child_path p e; parentPath := p; depth := d |}.

(** Induction over the levels, on the entry rows. *)
Lemma flattenRows_ind (P : jsstr → Z → list TreeEntryRow → Prop) :
  (∀ p d, (∀ data, listingsByPath !! p ≠ Some (Listing data)) → P p d []) →
  (∀ p d data parts, listingsByPath !! p = Some (Listing data) →
     Forall2 (λ e part, (¬ opens e (child_path p e) ∧ part = [row_of p d e]) ∨
                        (opens e (child_path p e) ∧ ∃ sub, P (child_path p e) (d + 1) sub ∧ part = row_of p d e :: sub))
       (js_sort compare_entries (list_entries data)) parts →
     P p d (concat parts)) →
  ∀ fuel p d rows, flatten fuel p d = Some rows → P p d (tree_entries rows).
Proof.
  intros Hnone Hsome fuel. induction fuel as [|f IH]; intros p d rows Hrows; [done|].
  apply flattenRows_level in Hrows as (f' & [= <-] & [[-> Hp]|(data & parts & Hp & Hparts & ->)]); [by apply Hnone|].
  assert (tree_entries (concat parts ++ closing_rows p d data) = concat (tree_entries <$> parts)) as ->.
  { rewrite tree_entries_app, closing_entries, app_nil_r. clear. induction parts as [|part parts IHp]; [done|].
    cbn [concat fmap list_fmap]. by rewrite tree_entries_app, IHp. }
  apply (Hsome p d data); [done|]. apply Forall2_fmap_r. eapply Forall2_impl; [exact Hparts|].
  intros e part Hpart. apply entry_rows_cases in Hpart as [(Ho & sub & Hsub & ->)|(Ho & ->)]; [right|by left].
  split; [done|]. exists (tree_entries sub). split; [by apply IH in Hsub|done].
Qed.

Lemma concat_elem {A} (parts : list (list A)) x : x ∈ concat parts ↔ ∃ part, part ∈ parts ∧ x ∈ part.
Proof.
  induction parts as [|part parts IH]; cbn [concat]; [split; [by intros ?%not_elem_of_nil|intros (? & ?%not_elem_of_nil & _); done]|].
  rewrite elem_of_app, IH. split; [intros [?|(k & ? & ?)]; eexists; split; [left|done|right; done|done]|].
  intros (k & [-> |Hk]%elem_of_cons & Hx); [by left|right; by exists k].
Qed.

Lemma parts_NoDup p es parts :
  NoDup (entry_name <$> es) → Forall name_ok es →
  Forall2 (λ e part, NoDup (path <$> part) ∧ ∀ r, r ∈ part → under (child_path p e) (path r)) es parts →
  NoDup (path <$> concat parts).
Proof.
  intros Hnd Hok Hparts. induction Hparts as [|e part es parts [Hpart Hunder] Hparts IH]; [constructor|].
  cbn [concat]. rewrite fmap_app. apply NoDup_cons in Hnd as [He Hnd]. apply Forall_cons in Hok as [Hoke Hok].
  apply NoDup_app. split; [done|]. split; [|by apply IH].
  intros y Hy Hy'. apply list_elem_of_fmap in Hy as (r & -> & Hr). apply list_elem_of_fmap in Hy' as (r' & Hrr & Hr').
  apply concat_elem in Hr' as (part' & Hpart' & Hr'). apply list_elem_of_lookup_1 in Hpart' as [i Hi].
  eapply Forall2_lookup_r in Hparts as (e' & He' & _ & Hunder'); [|exact Hi].
  apply Hunder in Hr. apply Hunder' in Hr'. rewrite <- Hrr in Hr'. apply list_elem_of_lookup_2 in He'.
  rewrite Forall_forall in Hok. rewrite child_path_prefix in Hr, Hr'.
  apply He. rewrite (under_name (dir_prefix p) (entry_name e) (entry_name e') (path r)); [|apply Hoke|by apply Hok|done|done].
  by apply list_elem_of_fmap_2.
Qed.

(** The rows of a subtree have distinct paths, below the directory. *)
Lemma rows_NoDup fuel p d rows :
  flatten fuel p d = Some rows →
  NoDup (path <$> tree_entries rows) ∧ ∀ r, r ∈ tree_entries rows → p ≠ [] → (p ++ [SLASH]) `prefix_of` path r.
Proof.
  intros Hrows. pattern p, d, (tree_entries rows). revert fuel p d rows Hrows. apply flattenRows_ind.
  { intros p d _. split; [constructor|by intros r ?%not_elem_of_nil]. }
  intros p d data parts Hp Hparts. destruct (Hnames p data Hp) as [Hok Hnd].
  assert (Forall2 (λ e part, NoDup (path <$> part) ∧ ∀ r, r ∈ part → under (child_path p e) (path r))
    (js_sort compare_entries (list_entries data)) parts) as Hunder.
  { apply Forall2_same_length_lookup_2; [by eapply Forall2_length|]. intros i e part He Hi.
    pose proof (Forall2_lookup_lr _ _ _ _ _ _ Hparts He Hi) as Hpart.
    assert (child_path p e ≠ []) as Hne.
    { apply list_elem_of_lookup_2 in He. pose proof (child_path_longer p e (sorted_names p data e Hp He)).
      by destruct (child_path p e); [cbn in *; lia|]. }
    destruct Hpart as [[_ ->]|(_ & sub & [Hsub Hbelow] & ->)].
    - split; [apply NoDup_singleton|]. intros r ->%list_elem_of_singleton. by left.
    - split.
      + cbn. apply NoDup_cons. split; [|done]. intros (r & Hr & Hin)%list_elem_of_fmap.
        destruct (Hbelow r Hin Hne) as [k Hk]. rewrite <- Hr in Hk. cbn in Hk.
        apply (f_equal length) in Hk. rewrite !length_app in Hk. cbn in Hk. lia.
      + intros r [-> |Hr]%elem_of_cons; [by left|]. right. by apply Hbelow. }
  split.
  - eapply parts_NoDup; [| |exact Hunder]; by rewrite js_sort_perm.
  - intros r Hr Hne. apply concat_elem in Hr as (part & Hpart & Hr).
    apply list_elem_of_lookup_1 in Hpart as [i Hi]. eapply Forall2_lookup_r in Hunder as (e & _ & _ & Hu); [|exact Hi].
    apply (under_child p e); auto.
Qed.

(** A directory is shown when every directory on the way is expanded. *)
Inductive shown : jsstr → Z → jsstr → Z → Prop :=
  | shown_here p d : shown p d p d
  | shown_in p d data e q k :
      listingsByPath !! p = Some (Listing data) → e ∈ list_entries data → opens e (child_path p e) →
      shown (child_path p e) (d + 1) q k → shown p d q k.

Definition shows (p : jsstr) (d : Z) (r : TreeEntryRow) : Prop :=
  ∃ data, shown p d (parentPath r) (depth r) ∧ listingsByPath !! parentPath r = Some (Listing data) ∧
    entry r ∈ list_entries data ∧ path r = child_path (parentPath r) (entry r).

Lemma rows_shown fuel p d rows : flatten fuel p d = Some rows → ∀ r, r ∈ tree_entries rows ↔ shows p d r.
Proof.
  intros Hrows. pattern p, d, (tree_entries rows). revert fuel p d rows Hrows. apply flattenRows_ind.
  { intros p d Hp r. split; [by intros ?%not_elem_of_nil|]. intros (data & Hs & Hl & _).
    destruct Hs; [by destruct (Hp data)|by destruct (Hp data0)]. }
  intros p d data parts Hp Hparts r. rewrite concat_elem. split.
  - intros (part & Hpart & Hr). apply list_elem_of_lookup_1 in Hpart as [i Hi].
    eapply Forall2_lookup_r in Hparts as (e & He & Hpart); [|exact Hi].
    apply list_elem_of_lookup_2 in He. rewrite js_sort_perm in He.
    assert (r = row_of p d e → shows p d r) as Hself by (intros ->; exists data; repeat split; [constructor|done..]).
    destruct Hpart as [[_ ->]|(Ho & sub & IH & ->)]; [by apply Hself, list_elem_of_singleton|].
    apply elem_of_cons in Hr as [?|Hr]; [by apply Hself|]. apply IH in Hr as (data' & Hs & Hrest).
    exists data'. split; [by eapply shown_in|done].
  - intros (data' & Hs & Hl & Hin & Hpath). inversion Hs; subst.
    + rewrite Hp in Hl. injection Hl as <-. rewrite <- (js_sort_perm compare_entries) in Hin.
      apply list_elem_of_lookup_1 in Hin as [i Hi]. eapply Forall2_lookup_l in Hparts as (part & Hpart & Hcase); [|exact Hi].
      exists part. split; [by eapply list_elem_of_lookup_2|].
      assert (r = row_of (parentPath r) (depth r) (entry r)) as Hr by (destruct r; cbn in *; by subst).
      destruct Hcase as [[_ ->]|(_ & sub & _ & ->)]; rewrite Hr at 1; [by left|by left].
    + rewrite Hp in H. injection H as <-. rewrite <- (js_sort_perm compare_entries) in H0.
      apply list_elem_of_lookup_1 in H0 as [i Hi]. eapply Forall2_lookup_l in Hparts as (part & Hpart & Hcase); [|exact Hi].
      exists part. split; [by eapply list_elem_of_lookup_2|].
      destruct Hcase as [[Hno _]|(_ & sub & IH & ->)]; [done|]. right. apply IH. by exists data'.
Qed.

(** The directory of a row comes before it, opened, one level up. *)
Definition parents_first (p : jsstr) (d : Z) (es : list TreeEntryRow) : Prop :=
  ∀ before r after, es = before ++ r :: after →
    (parentPath r = p ∧ depth r = d) ∨
    ∃ q, q ∈ before ∧ path q = parentPath r ∧ opens (entry q) (path q) ∧ depth r = depth q + 1.

Lemma parents_first_app p d es es' : parents_first p d es → parents_first p d es' → parents_first p d (es ++ es').
Proof.
  intros H H' before r after Heq. apply app_eq_inv in Heq as [(k & -> & Hk)|(k & -> & Hk)].
  - destruct k as [|x k]; cbn in Hk.
    + destruct (H' [] r after) as [?|(q & Hq & _)]; [done|by left|by apply not_elem_of_nil in Hq].
    + injection Hk as <- ->. exact (H before r k eq_refl).
  - destruct (H' k r after) as [?|(q & Hq & Hrest)]; [done|by left|]. right. exists q. split; [set_solver|done].
Qed.

Lemma rows_parents fuel p d rows : flatten fuel p d = Some rows → parents_first p d (tree_entries rows).
Proof.
  intros Hrows. pattern p, d, (tree_entries rows). revert fuel p d rows Hrows. apply flattenRows_ind.
  { by intros p d _ [|] r after. }
  intros p d data parts _ Hparts. induction Hparts as [|e part es parts Hpart _ IH]; [by intros [|] r after|].
  cbn [concat]. apply parents_first_app; [|done]. destruct Hpart as [[_ ->]|(Ho & sub & Hsub & ->)].
  - intros [|x [|]] r after; [|done..]. intros [= <- _]. by left.
  - intros [|x before] r after; [intros [= <- _]; by left|]. intros [= <- ->]. right.
    destruct (Hsub before r after eq_refl) as [[-> ->]|(q & Hq & Hrest)].
    + exists (row_of p d e). split; [by left|done].
    + exists q. split; [by right|done].
Qed.
End row_facts.

(** ** Facts: the keyboard *)

Lemma index_by_keys {A} (f : A → jsstr) (l : list A) : (imap (λ i x, (f x, i)) l).*1 = f <$> l.
Proof. by rewrite fmap_imap, <- imap_const. Qed.

Lemma index_by_Some {A} (f : A → jsstr) (l : list A) x : x ∈ l → is_Some (index_by f l !! f x).
Proof.
  intros Hx. destruct (index_by f l !! f x) eqn:Hi; [done|]. apply js_map_lookup_None in Hi.
  rewrite index_by_keys in Hi. destruct Hi. by apply list_elem_of_fmap_2.
Qed.

Lemma index_by_lookup {A} (f : A → jsstr) (l : list A) i x : NoDup (f <$> l) → l !! i = Some x → index_by f l !! f x = Some i.
Proof.
  intros Hnd Hi. apply js_map_NoDup; [by rewrite index_by_keys|].
  apply list_elem_of_lookup. exists i. by rewrite list_lookup_imap, Hi.
Qed.

Lemma focusPath_entry rows mounted r s : r ∈ tree_entries rows → focusedPath (focusPath rows mounted (path r) s) = path r.
Proof.
  intros Hr%tree_entries_elem. unfold focusPath, rowIndexByPath.
  destruct (index_by_Some row_key rows (EntryRow r) Hr) as [i Hi]. cbn [row_key] in Hi. rewrite Hi. by destruct (mounted _).
Qed.

(** The tree goes to the row [r]: this is the row marked, and the browser's
    focus is on its button, now or when the row is rendered, unless the button
    is disabled; then the focus stays where it was. *)
Definition goes_to (rows : list TreeRow) (mounted : jsstr → bool) (r : TreeEntryRow) (s s' : tree_state) : Prop :=
  let there := if mounted (path r) then s' else row_mounts rows (path r) s' in
  focusedPath s' = path r ∧ expandedDirs s' = expandedDirs s ∧
  domFocus there = (if actionable (entry r) then Some (path r) else domFocus s) ∧ pendingChildFocus there = None.

Lemma element_focus_row rows r s : NoDup (path <$> tree_entries rows) → r ∈ tree_entries rows →
  element_focus rows (path r) s = if actionable (entry r) then Some (path r) else domFocus s.
Proof.
  intros Hnd Hr. unfold element_focus. destruct (actionable (entry r)) eqn:Ha.
  - replace (js_some _ _) with true; [done|]. symmetry. apply js_some_exists. exists r. split; [done|]. by rewrite bool_decide_true.
  - replace (js_some _ _) with false; [done|]. symmetry. apply js_some_none. intros q Hq.
    destruct (bool_decide_reflect (path q = path r)) as [Hp|]; [|done]. cbn.
    apply list_elem_of_lookup in Hq as [j Hq], Hr as [k Hr]. assert (j = k) as ->; [|congruence].
    eapply (NoDup_lookup (path <$> tree_entries rows)); [done| |]; rewrite list_lookup_fmap; [by rewrite Hq|]. cbn. rewrite Hr. cbn. congruence.
Qed.

Lemma focusPath_goes rows mounted r s : NoDup (path <$> tree_entries rows) → r ∈ tree_entries rows →
  goes_to rows mounted r s (focusPath rows mounted (path r) s).
Proof.
  intros Hnd Hin. assert (EntryRow r ∈ rows) as Hr by by apply tree_entries_elem. unfold goes_to, focusPath, rowIndexByPath.
  destruct (index_by_Some row_key rows (EntryRow r) Hr) as [i Hi]. cbn [row_key] in Hi. rewrite Hi.
  destruct (mounted (path r)).
  - split; [done|]. split; [done|]. split; [by apply element_focus_row|done].
  - split; [done|]. split; [done|]. unfold row_mounts. cbn [pendingChildFocus set_focus]. rewrite bool_decide_true by done.
    split; [|done]. cbn [domFocus set_focus]. rewrite element_focus_row by done. by destruct (actionable _).
Qed.

(** Pressing a key in the row at [i] when the rows are those of the tree. *)
Section keys.
Context (rows : list TreeRow) (mounted : jsstr → bool) (i : nat) (row : TreeEntryRow).
Notation es := (tree_entries rows).
Context (Hnd : NoDup (path <$> es)) (Hi : es !! i = Some row).
Notation press ev s := (onTreeKeyDown rows mounted ev row s).1.

Lemma current_index : entryIndexByPath es !! path row = Some i.
Proof. by apply index_by_lookup. Qed.

Lemma path_at_row (k : nat) r : es !! k = Some r → path_at rows (Z.of_nat k) row = path r.
Proof. intros Hk. unfold path_at. rewrite (proj2 (Z.ltb_ge _ _)) by lia. by rewrite Nat2Z.id, Hk. Qed.

Lemma goes_by_index (k : nat) r s : es !! k = Some r → goes_to rows mounted r s (focusPath rows mounted (path r) s).
Proof. intros Hk. apply focusPath_goes; [done|]. by eapply list_elem_of_lookup_2. Qed.

Lemma press_vertical ev s :
  (key ev = js "ArrowDown" → ∃ r, es !! Nat.min (length es - 1) (S i) = Some r ∧ goes_to rows mounted r s (press ev s)) ∧
  (key ev = js "ArrowUp" → ∃ r, es !! pred i = Some r ∧ goes_to rows mounted r s (press ev s)) ∧
  (key ev = js "Home" → ∃ r, head es = Some r ∧ goes_to rows mounted r s (press ev s)) ∧
  (key ev = js "End" → ∃ r, last es = Some r ∧ goes_to rows mounted r s (press ev s)).
Proof.
  pose proof (lookup_lt_Some _ _ _ Hi) as Hlt.
  assert (∀ k : nat, (k < length es)%nat → ∃ r, es !! k = Some r) as Hex by (intros k Hk; by apply lookup_lt_is_Some_2).
  repeat apply conj; intros Hk; unfold onTreeKeyDown; rewrite Hk, current_index;
    repeat (rewrite bool_decide_false by done); rewrite bool_decide_true by done; cbn [fst default from_option].
  - unfold Datatypes.id. replace (Z.min _ _) with (Z.of_nat (Nat.min (length es - 1) (S i))) by lia.
    destruct (Hex (Nat.min (length es - 1) (S i))) as [r Hr]; [lia|]. exists r. split; [done|]. rewrite (path_at_row _ r Hr). by eapply goes_by_index.
  - unfold Datatypes.id. replace (Z.max _ _) with (Z.of_nat (pred i)) by lia.
    destruct (Hex (pred i)) as [r Hr]; [lia|]. exists r. split; [done|]. rewrite (path_at_row _ r Hr). by eapply goes_by_index.
  - destruct (Hex 0%nat) as [r Hr]; [lia|]. exists r. rewrite head_lookup. split; [done|].
    change 0 with (Z.of_nat 0). rewrite (path_at_row 0 r Hr). by eapply goes_by_index.
  - rewrite last_lookup. destruct (Hex (pred (length es))) as [r Hr]; [lia|]. exists r. split; [done|].
    rewrite Hr. cbn [fmap option_fmap option_map default from_option]. unfold Datatypes.id. by eapply goes_by_index.
Qed.

Lemma press_left expanded d ev s :
  parents_first expanded [] d es → key ev = js "ArrowLeft" → parentPath row ≠ [] →
  ¬ (is_directory (entry row) = true ∧ path row ∈ expandedDirs s) →
  ∃ j q, (j < i)%nat ∧ es !! j = Some q ∧ path q = parentPath row ∧ goes_to rows mounted q s (press ev s).
Proof.
  intros Hfirst Hk Hne Hclosed. destruct (Hfirst (take i es) row (drop (S i) es)) as [[? _]|(q & Hq & Hpath & _)];
    [symmetry; by apply take_drop_middle|done|].
  apply elem_of_take in Hq as (j & Hj & Hlt). exists j, q. split; [done|]. split; [done|]. split; [done|].
  unfold onTreeKeyDown. rewrite Hk. repeat (rewrite bool_decide_false by done). rewrite bool_decide_true by done.
  assert (is_directory (entry row) && bool_decide (path row ∈ expandedDirs s) = false) as ->.
  { destruct (is_directory (entry row)); [|done]. apply bool_decide_false. tauto. }
  rewrite bool_decide_false by done. cbn [fst]. rewrite <- Hpath. by eapply goes_by_index.
Qed.

Lemma press_right expanded d ev s c :
  parents_first expanded [] d es → key ev = js "ArrowRight" → is_directory (entry row) = true → path row ∈ expandedDirs s →
  path row ≠ [] → es !! S i = Some c → parentPath c = path row → goes_to rows mounted c s (press ev s).
Proof.
  intros Hfirst Hk Hdir Hopen Hne Hc Hpar. unfold onTreeKeyDown. rewrite Hk, Hdir.
  repeat (rewrite bool_decide_false by done). rewrite bool_decide_true by done. rewrite bool_decide_false by (by intros ?).
  assert (js_find (λ e, bool_decide (parentPath e = path row)) es = Some c) as ->; [|by eapply goes_by_index].
  apply js_find_Some. exists (take (S i) es), (drop (S (S i)) es).
  split; [symmetry; by apply take_drop_middle|]. split; [by apply bool_decide_true|].
  apply Forall_forall. intros r (j & Hj & Hlt)%elem_of_take. apply bool_decide_false. intros Hr.
  destruct (Hfirst (take j es) r (drop (S j) es)) as [[Hroot _]|(q & Hq & Hpath & _)];
    [symmetry; by apply take_drop_middle|congruence|].
  apply elem_of_take in Hq as (k & Hk' & Hlt'). assert (k = i) as ->; [|lia].
  eapply (NoDup_lookup (path <$> es)); [done| |]; rewrite list_lookup_fmap; [by rewrite Hk'|]. cbn. rewrite Hi. cbn. congruence.
Qed.

(** Opening and closing leave the focus where it is. *)
Lemma press_opens ev s : is_directory (entry row) = true →
  (key ev = js "ArrowRight" → path row ∉ expandedDirs s →
   press ev s = set_expanded s (expandedDirs s ∪ {[path row]}) (Some (path row))) ∧
  (key ev = js "ArrowLeft" → path row ∈ expandedDirs s →
   press ev s = set_expanded s (expandedDirs s ∖ {[path row]}) (pendingChildFocus s)).
Proof.
  intros Hdir. split; intros Hk Hin; unfold onTreeKeyDown; rewrite Hk, Hdir; repeat (rewrite bool_decide_false by done).
  - rewrite !bool_decide_true by done. unfold toggleDirectory, toggle_set. by rewrite bool_decide_false, bool_decide_true.
  - rewrite !bool_decide_true by done. cbn [andb fst]. unfold toggleDirectory, toggle_set. by rewrite bool_decide_true, andb_false_r.
Qed.
End keys.
End tree.

(** ** Example *)

Definition example_entry (n : string) (k : FileEntryKind) : FileListEntry := {| entry_name := js n; entry_kind := k; entry_size := None |}.

Definition example_listing (p : string) (es : list FileListEntry) : listing :=
  Listing {| list_path := js p; list_entries := es; list_truncated := false |}.

(** A comparison by length, then by the first units. *)
Definition example_compare (a b : jsstr) : Z := Z.of_nat (length a) - Z.of_nat (length b).

Definition example_expanded : gset jsstr := {[ []; js "src" ]}.
Definition example_listings : gmap jsstr listing :=
  {[ [] := example_listing "" [example_entry "a.md" entry_file; example_entry "src" entry_directory];
     js "src" := example_listing "src" [example_entry "b.ts" entry_file] ]}.

Definition names_ok (listingsByPath : gmap jsstr listing) : Prop :=
  ∀ p data, listingsByPath !! p = Some (Listing data) →
  Forall name_ok (list_entries data) ∧ NoDup (entry_name <$> list_entries data).

Lemma example_names_ok : names_ok example_listings.
Proof.
  intros p data. unfold example_listings. rewrite lookup_insert_Some, lookup_singleton_Some.
  intros [[_ [= <-]]|[_ [_ [= <-]]]]; decide_closed.
Qed.

Definition example_rows : list TreeRow := tree_rows example_compare example_expanded example_listings ?? [].

(** ** Theorems *)

(** C23: the file tree's rows are the tree: when the names in each listing are
    distinct, not empty and without slashes, the recursion ends, the entry
    rows are exactly the entries of the directories that are reached through
    expanded ones, each at its depth and path, no path appears twice, and
    every row comes after the opened directory that holds it. *)
Theorem tree_rows_spec localeCompare expanded listingsByPath (Hnames : names_ok listingsByPath) :
  ∃ rows, tree_rows localeCompare expanded listingsByPath = Some rows ∧
    (∀ r, EntryRow r ∈ rows ↔ shows expanded listingsByPath [] 0 r) ∧
    NoDup (path <$> tree_entries rows) ∧
    parents_first expanded [] 0 (tree_entries rows).
Proof.
  destruct (flattenRows_total localeCompare expanded listingsByPath Hnames (S (size expanded)) [] 0) as [rows Hrows].
  { apply Nat.lt_succ_r, subseteq_size. intros q. rewrite elem_of_filter. tauto. }
  exists rows. split; [done|]. split; [|split].
  - intros r. rewrite <- tree_entries_elem. by eapply rows_shown.
  - by eapply rows_NoDup.
  - by eapply rows_parents.
Qed.

Lemma tree_rows_spec_witness :
  path <$> tree_entries example_rows = [js "src"; js "src/b.ts"; js "a.md"] ∧
  ∃ rows, tree_rows example_compare example_expanded example_listings = Some rows ∧ NoDup (path <$> tree_entries rows).
Proof.
  split; [by vm_compute|].
  destruct (tree_rows_spec example_compare example_expanded example_listings example_names_ok) as (rows & Hrows & _ & Hnd & _).
  exact (ex_intro _ rows (conj Hrows Hnd)).
Defined.


Definition example_state : tree_state :=
  {| expandedDirs := example_expanded; focusedPath := js "src"; pendingChildFocus := None; typeahead := []; domFocus := None |}.
Definition example_row : TreeEntryRow := row_of [] 0 (example_entry "src" entry_directory).
Definition example_key (k : string) : key_event := {| key := js k; metaKey := false; ctrlKey := false; altKey := false |}.


(** The keys of the rows are not always distinct: the status row of an
    empty directory "a" has the same key as a file "a:empty" beside it, so
    that two siblings of the rendered list share one React key and the map
    from keys to row indices has one entry for both. *)
Theorem row_keys_collide :
  let listingsByPath := {[ [] := example_listing "" [example_entry "a" entry_directory; example_entry "a:empty" entry_file];
                           js "a" := example_listing "a" [] ]} in
  names_ok listingsByPath ∧
  ∃ rows, tree_rows example_compare {[ []; js "a" ]} listingsByPath = Some rows ∧
    row_key <$> rows = [js "a"; js "a:empty"; js "a:empty"] ∧
    size (rowIndexByPath rows) = 2%nat.
Proof.
  intros listingsByPath. split.
  - intros p data. unfold listingsByPath. rewrite lookup_insert_Some, lookup_singleton_Some.
    intros [[_ [= <-]]|[_ [_ [= <-]]]]; decide_closed.
  - eexists. split; [by vm_compute|]. split; by vm_compute.
Qed.
