(* ===== verification/FileTreeView.v ===== *)
(** What the file tree shows and where the keyboard finds it
    ([web/src/pages/sandbox/files/FileTree.tsx]): the items with their tab
    stops, the notices, and the rows the arrow keys cannot get past; and the
    listings as queries: which are asked for when, and the memoised map. *)
From S2P Require Import Prelude JsCollections JsNumber JsText Json Rpc Format Files FileTree.

(** ** Items *)

Inductive node_icon := icon_folder | icon_file | icon_link | icon_help.

Definition NodeIcon (k : FileEntryKind) : node_icon :=
  match k with entry_directory => icon_folder | entry_file => icon_file | entry_symlink => icon_link | _ => icon_help end.

(** [item_expanded] is absent for what is not a directory. *)
Record tree_item := {
  item_path : jsstr;
  item_expanded : option bool;
  item_level : Z;
  item_selected : bool;
  item_disabled : bool;
  tabIndex : Z;
  item_icon : node_icon;
  item_name : jsstr;
  item_size : option jsstr;
}.

Inductive tree_line := ItemLine (i : tree_item) | StatusLine (m : jsstr) (t : row_tone).

Section view.
Context (rows : list TreeRow) (listingsByPath : gmap jsstr listing) (selectedPath : jsstr) (s : tree_state).
Notation es := (tree_entries rows).

(** The [focused] property: the first entry takes it while nothing was focused. *)
Definition item_focused (r : TreeEntryRow) : bool :=
  bool_decide (focusedPath s = path r) ||
  (bool_decide (focusedPath s = []) && bool_decide (path <$> head es = Some (path r))).

Definition TreeItem (r : TreeEntryRow) : tree_item :=
  {| item_path := path r;
     item_expanded := if is_directory (entry r) then Some (bool_decide (path r ∈ expandedDirs s)) else None;
     item_level := depth r + 1;
     item_selected := bool_decide (selectedPath = path r);
     item_disabled := negb (actionable (entry r));
     tabIndex := if item_focused r then 0 else -1;
     item_icon := NodeIcon (entry_kind (entry r));
     item_name := entry_name (entry r);
     item_size := (λ n, formatBytes (num_of_Z n)) <$> entry_size (entry r) |}.

Definition tree_line_of (row : TreeRow) : tree_line :=
  match row with EntryRow r => ItemLine (TreeItem r) | StatusRow r => StatusLine (message r) (tone r) end.

Definition rootTruncated : bool :=
  match listingsByPath !! [] ≫= listing_data with Some data => list_truncated data | None => false end.

(** A spinner, or the notice over the rows and the rows. *)
Inductive tree_view := TreeLoading | TreeShown (notice : option jsstr) (lines : list tree_line).

Definition FileTree : tree_view :=
  if bool_decide (rows = []) then TreeLoading
  else TreeShown (if rootTruncated then Some TRUNCATED_MESSAGE else None) (tree_line_of <$> rows).

(** What the Tab key can reach: an enabled item with tab index 0. *)
Definition tab_stops : list jsstr :=
  item_path <$> js_filter (λ i, (tabIndex i =? 0) && negb (item_disabled i)) (TreeItem <$> es).
End view.

(** ** The listings as queries *)

Definition COLON : Z := 58.
Definition BAR : Z := 124.

(** What identifies the query of a directory, and what it calls. *)
Record listing_query := { q_sandbox : jsstr; q_session : option jsstr; q_dir : jsstr }.

Definition queryKey (q : listing_query) : list jsstr :=
  [js "files"; q_sandbox q; q_session q ?? []; js "list"; q_dir q].

Definition queryFn (fetch : jsstr → jsstr → fetched) (q : listing_query) : option (outcome RpcError json) :=
  fileList fetch (q_sandbox q) (q_dir q) (q_session q).

Definition expandedPaths (expanded : gset jsstr) : list jsstr := js_sort compare_units (elements expanded).

(** The sandbox and the session that the tree is given. *)
Record tree_scope := { in_sandbox : jsstr; in_session : option jsstr }.

Definition listing_queries (sc : tree_scope) (expanded : gset jsstr) : list listing_query :=
  (λ d, {| q_sandbox := in_sandbox sc; q_session := in_session sc; q_dir := d |}) <$> expandedPaths expanded.

(** [UseQueryResult]: its value and when it was last fetched and last failed. *)
Record listing_result := { result : listing; dataUpdatedAt : Z; errorUpdatedAt : Z }.

Definition listing_status (l : listing) : jsstr :=
  match l with ListingPending => js "pending" | ListingError _ _ => js "error" | Listing _ => js "success" end.

Definition result_key (r : listing_result) : jsstr :=
  listing_status (result r) ++ COLON :: Z_to_js (dataUpdatedAt r) ++ COLON :: Z_to_js (errorUpdatedAt r).

Definition listingStateKey (listings : list listing_result) : jsstr := join [BAR] (result_key <$> listings).

Definition listings_map (paths : list jsstr) (listings : list listing_result) : gmap jsstr listing :=
  js_map (zip paths (result <$> listings)).

(** A render: the set of expanded directories with its identity, of which the
    memoised [expandedPaths] has the same, and the results of their queries. *)
Record tree_render := { set_id : nat; set_dirs : gset jsstr; set_results : list listing_result }.

Record listings_memo := { memo_set : nat; memo_key : jsstr; memo_map : gmap jsstr listing }.

(** [useMemo]: the map of the last render with the same set and the same key. *)
Definition listingsByPath (m : option listings_memo) (r : tree_render) : listings_memo :=
  let fresh := {| memo_set := set_id r; memo_key := listingStateKey (set_results r);
                  memo_map := listings_map (expandedPaths (set_dirs r)) (set_results r) |} in
  match m with
  | Some m => if bool_decide (memo_set m = memo_set fresh) && bool_decide (memo_key m = memo_key fresh) then m else fresh
  | None => fresh
  end.

Definition tree_renders (rs : list tree_render) : option listings_memo := foldl (λ m r, Some (listingsByPath m r)) None rs.

(** The tree with the queries it observes and those it has sent. *)
Record tree_client := { scope : tree_scope; tree : tree_state; observed : list listing_query; asked : list listing_query }.

(** The effect of [useQueries] after a render: a query that was not observed
    before is sent when what the cache has for its key is [stale]. *)
Definition commit_queries (stale : list jsstr → bool) (c : tree_client) : tree_client :=
  let queries := listing_queries (scope c) (expandedDirs (tree c)) in
  {| scope := scope c; tree := tree c; observed := queries;
     asked := asked c ++ js_filter (λ q, bool_decide (queryKey q ∉ queryKey <$> observed c) && stale (queryKey q)) queries |}.

(** A directory is toggled, or the tree is given a scope; with what the cache
    has when the queries change, the second time after the reset. *)
Inductive client_event :=
  | Toggle (dir : jsstr) (focusFirstChild : bool) (stale : list jsstr → bool)
  | Rescope (sc : tree_scope) (stale later : list jsstr → bool).

#[global] Instance tree_scope_eq_dec : EqDecision tree_scope.
Proof. solve_decision. Defined.

(** Another scope is rendered with the directories that are still expanded:
    the effect that resets them runs after that render, and so does the effect
    of [useQueries], before the render of the reset. *)
Definition client_step (c : tree_client) (e : client_event) : tree_client :=
  match e with
  | Toggle dir focusFirstChild stale =>
      commit_queries stale {| scope := scope c; tree := toggleDirectory dir focusFirstChild (tree c);
                              observed := observed c; asked := asked c |}
  | Rescope sc stale later =>
      if bool_decide (sc = scope c) then c
      else
        let c := commit_queries stale {| scope := sc; tree := tree c; observed := observed c; asked := asked c |} in
        commit_queries later {| scope := sc; tree := reset_tree (tree c); observed := observed c; asked := asked c |}
  end.

Definition client_mount (sc : tree_scope) (stale : list jsstr → bool) : tree_client :=
  commit_queries stale {| scope := sc; tree := initial_tree; observed := []; asked := [] |}.

Definition client_run (sc : tree_scope) (stale : list jsstr → bool) (es : list client_event) : tree_client :=
  foldl client_step (client_mount sc stale) es.

(** ** Facts *)

Lemma concat_nonempty {A} (parts : list (list A)) : parts ≠ [] → Forall (λ p, p ≠ []) parts → concat parts ≠ [].
Proof. destruct parts as [|[|x p] parts]; [done| |done]. intros _ Hp. by apply Forall_cons in Hp as [? _]. Qed.

Lemma flattenRows_nonempty localeCompare expanded listingsByPath fuel p d rows :
  flattenRows localeCompare expanded listingsByPath fuel p d = Some rows → rows ≠ [].
Proof.
  destruct fuel as [|fuel]; [done|]. cbn [flattenRows]. destruct (listingsByPath !! p) as [[|m kept|data]|]; [by intros [= <-]..| |by intros [= <-]].
  destruct (mapM _ _) as [parts|] eqn:Hm; [|done]. intros [= <-].
  apply mapM_Some in Hm. destruct (decide (list_entries data = [])) as [He|He].
  { intros [_ Hc]%app_eq_nil. unfold closing_rows in Hc. by rewrite bool_decide_true in Hc. }
  intros [Hc _]%app_eq_nil. revert Hc. apply concat_nonempty.
  - intros ->. apply Forall2_nil_inv_r in Hm. apply He.
    pose proof (js_sort_perm (compare_entries localeCompare) (list_entries data)) as Hp. rewrite Hm in Hp.
    by apply Permutation_nil_l in Hp || apply Permutation_nil_r in Hp.
  - eapply Forall2_Forall_r; [exact Hm|]. apply Forall_forall. intros e _ part. unfold entry_rows. destruct (_ && _).
    + by destruct (flattenRows _ _ _ _ _ _); [intros [= <-]|].
    + by intros [= <-].
Qed.

Section stops.
Context (rows : list TreeRow) (selectedPath : jsstr) (s : tree_state).
Notation es := (tree_entries rows).

Lemma focused_item_iff r : item_focused rows s r = true ↔
  focusedPath s = path r ∨ (focusedPath s = [] ∧ path <$> head es = Some (path r)).
Proof. unfold item_focused. rewrite orb_true_iff, andb_true_iff, !bool_decide_eq_true. done. Qed.

Lemma tab_stops_elem p : p ∈ tab_stops rows selectedPath s ↔ ∃ r, r ∈ es ∧ path r = p ∧ item_focused rows s r = true ∧ actionable (entry r) = true.
Proof.
  unfold tab_stops. rewrite list_elem_of_fmap. setoid_rewrite js_filter_elem. setoid_rewrite list_elem_of_fmap.
  setoid_rewrite andb_true_iff. split.
  - intros (i & -> & (r & -> & Hr) & Ht & Hd). exists r. cbn in *. rewrite negb_involutive in Hd.
    destruct (item_focused rows s r); [|done]. done.
  - intros (r & Hr & <- & Hf & Ha). exists (TreeItem rows selectedPath s r). cbn. rewrite Hf, Ha. split; [done|]. split; [by exists r|done].
Qed.
End stops.

Section keyboard.
Context (rows : list TreeRow) (mounted : jsstr → bool) (toLocaleLowerCase : jsstr → jsstr).
Notation es := (tree_entries rows).
Context (Hnd : NoDup (path <$> es)).

Lemma entry_unique r r' : r ∈ es → r' ∈ es → path r = path r' → r = r'.
Proof using Hnd.
  intros [i Hi]%list_elem_of_lookup [j Hj]%list_elem_of_lookup Heq. assert (i = j) as ->; [|congruence].
  eapply (NoDup_lookup (path <$> es)); [done| |]; rewrite list_lookup_fmap; [by rewrite Hi|by rewrite Hj, Heq].
Qed.

(** Focus cannot move to a disabled row. *)
Lemma element_focus_disabled r s : r ∈ es → actionable (entry r) = false → element_focus rows (path r) s = domFocus s.
Proof using Hnd.
  intros Hr Hno. unfold element_focus. destruct (js_some _ es) eqn:Hsome; [|done].
  apply js_some_exists in Hsome as (r' & Hr' & [Hp Ha]%andb_true_iff). apply bool_decide_eq_true in Hp.
  rewrite (entry_unique r' r) in Ha by done. congruence.
Qed.

Lemma focusPath_disabled r s : r ∈ es → actionable (entry r) = false →
  focusedPath (focusPath rows mounted (path r) s) = path r ∧ domFocus (focusPath rows mounted (path r) s) = domFocus s.
Proof using Hnd.
  intros Hr Hno. split; [by apply focusPath_entry|]. unfold focusPath. destruct (rowIndexByPath rows !! path r); [|done].
  destruct (mounted _); [|done]. by apply element_focus_disabled.
Qed.

Lemma press_down i row r ev s : es !! i = Some row → es !! S i = Some r → key ev = js "ArrowDown" →
  (onTreeKeyDown toLocaleLowerCase rows mounted ev row s).1 = focusPath rows mounted (path r) s.
Proof using Hnd.
  intros Hi Hr Hk. unfold onTreeKeyDown. rewrite Hk, (current_index rows i row Hnd Hi), bool_decide_true by done.
  cbn [fst default from_option]. pose proof (lookup_lt_Some _ _ _ Hr). unfold Datatypes.id.
  replace (Z.min _ _) with (Z.of_nat (S i)) by lia. unfold path_at.
  rewrite (proj2 (Z.ltb_ge _ _)), Nat2Z.id, Hr by lia. done.
Qed.
End keyboard.

(** ** Facts: the queries *)

Lemma expandedPaths_elem x p : p ∈ expandedPaths x ↔ p ∈ x.
Proof. unfold expandedPaths. by rewrite js_sort_perm, elem_of_elements. Qed.

Lemma listing_queries_elem sc x q :
  q ∈ listing_queries sc x ↔ q = {| q_sandbox := in_sandbox sc; q_session := in_session sc; q_dir := q_dir q |} ∧ q_dir q ∈ x.
Proof.
  unfold listing_queries. rewrite list_elem_of_fmap. setoid_rewrite expandedPaths_elem. split.
  - by intros (d & -> & Hd).
  - intros [Hq Hd]. by exists (q_dir q).
Qed.

Lemma result_key_parts r : BAR ∉ result_key r ∧ ∀ r', result_key r = result_key r' →
  listing_status (result r) = listing_status (result r') ∧
  dataUpdatedAt r = dataUpdatedAt r' ∧ errorUpdatedAt r = errorUpdatedAt r'.
Proof.
  assert (∀ z, COLON ∉ Z_to_js z ∧ BAR ∉ Z_to_js z) as Hz.
  { intros z. split; intros [|]%Z_to_js_units; unfold COLON, BAR in *; lia. }
  assert (∀ l, COLON ∉ listing_status l ∧ BAR ∉ listing_status l) as Hl by (intros [| |]; split; decide_closed).
  split.
  - unfold result_key. destruct (Hl (result r)), (Hz (dataUpdatedAt r)), (Hz (errorUpdatedAt r)).
    rewrite !elem_of_app, !elem_of_cons, !elem_of_app, !elem_of_cons. unfold COLON, BAR in *. naive_solver.
  - intros r' [Hs Hrest]%separator_inj; try apply Hl.
    apply separator_inj in Hrest as [Hd He]; try apply Hz. split_and!; [done|by apply Z_to_js_inj..].
Qed.

(** Two lists of as many results have the same key only when each result has
    the same status and the same times. *)
Lemma listingStateKey_inj rs rs' : length rs = length rs' → listingStateKey rs = listingStateKey rs' →
  result_key <$> rs = result_key <$> rs'.
Proof.
  intros Hlen Hk. destruct rs as [|r rs], rs' as [|r' rs']; [done..|].
  assert (∀ l, Forall (λ p, BAR ∉ p) (result_key <$> l)) as Hbar.
  { intros l. apply Forall_fmap, Forall_forall. intros x _. apply result_key_parts. }
  rewrite <- (split_join BAR (result_key <$> r :: rs)), <- (split_join BAR (result_key <$> r' :: rs')) by done.
  unfold listingStateKey in Hk. by rewrite Hk.
Qed.

Section memo.
Context (rs : list tree_render).

(** One identity is one set, each render has a result for each directory, and
    a result with the same status and times, of the same directory while the
    set stays, is the same result. *)
Record renders_ok : Prop := {
  same_set a b : a ∈ rs → b ∈ rs → set_id a = set_id b → set_dirs a = set_dirs b;
  all_results a : a ∈ rs → length (set_results a) = size (set_dirs a);
  stamped a b i x y : a ∈ rs → b ∈ rs → set_id a = set_id b → set_results a !! i = Some x → set_results b !! i = Some y →
    listing_status (result x) = listing_status (result y) → dataUpdatedAt x = dataUpdatedAt y →
    errorUpdatedAt x = errorUpdatedAt y → result x = result y;
}.

Lemma same_key_same_map a b : renders_ok → a ∈ rs → b ∈ rs → set_id a = set_id b →
  listingStateKey (set_results a) = listingStateKey (set_results b) →
  listings_map (expandedPaths (set_dirs a)) (set_results a) = listings_map (expandedPaths (set_dirs b)) (set_results b).
Proof.
  intros [Hset Hall Hst] Ha Hb Hid Hk. pose proof (Hset a b Ha Hb Hid) as Hdirs.
  assert (length (set_results a) = length (set_results b)) as Hlen by (rewrite !Hall; congruence).
  pose proof (listingStateKey_inj _ _ Hlen Hk) as Hkeys. unfold listings_map. rewrite Hdirs. do 2 f_equal.
  apply list_eq_Forall2, Forall2_fmap, Forall2_same_length_lookup_2; [done|]. intros i x y Hx Hy.
  assert (result_key x = result_key y) as Heq.
  { apply (f_equal (.!! i)) in Hkeys. rewrite !list_lookup_fmap, Hx, Hy in Hkeys. by apply (inj Some) in Hkeys. }
  apply result_key_parts in Heq as (? & ? & ?). by eapply (Hst a b i).
Qed.
End memo.

(** The memo after some renders is that of one of them. *)
Lemma memo_of_render rs m : tree_renders rs = Some m → ∃ a, a ∈ rs ∧ set_id a = memo_set m ∧
  listingStateKey (set_results a) = memo_key m ∧
  listings_map (expandedPaths (set_dirs a)) (set_results a) = memo_map m.
Proof.
  revert m. induction rs as [|r rs IH] using rev_ind; intros m; [done|].
  unfold tree_renders in *. rewrite foldl_app. cbn [foldl]. intros Hm. apply (inj Some) in Hm as <-.
  unfold listingsByPath. destruct (foldl _ None rs) as [m|] eqn:Hr; [destruct (_ && _)|].
  - destruct (IH m eq_refl) as (a & Ha & Hrest). exists a. split; [apply elem_of_app; by left|done].
  - exists r. split; [apply elem_of_app; right; by left|done].
  - exists r. split; [apply elem_of_app; right; by left|done].
Qed.

(** The queries observed are those of the expanded directories in the scope. *)
Definition in_scope (c : tree_client) : Prop := observed c = listing_queries (scope c) (expandedDirs (tree c)).

Lemma client_step_in_scope c e : in_scope c → in_scope (client_step c e).
Proof. intros Hc. destruct e as [dir f stale|sc stale later]; cbn [client_step]; [done|]. by case_bool_decide. Qed.

Lemma commit_asks stale c q : q ∈ asked (commit_queries stale c) →
  q ∈ asked c ∨ q ∈ listing_queries (scope c) (expandedDirs (tree c)).
Proof. cbn. rewrite elem_of_app. intros [|[? _]%js_filter_elem]; auto. Qed.

(** The directories a run of events has opened. *)
Definition opened (es : list client_event) (d : jsstr) : Prop := d = [] ∨ ∃ f stale, Toggle d f stale ∈ es.

Lemma opened_snoc es e d : opened es d → opened (es ++ [e]) d.
Proof. intros [?|(f & stale & ?)]; [by left|right]. exists f, stale. apply elem_of_app. by left. Qed.

Lemma client_opened sc stale es : let c := client_run sc stale es in
  (∀ d, d ∈ expandedDirs (tree c) → opened es d) ∧ (∀ q, q ∈ asked c → opened es (q_dir q)).
Proof.
  cbv zeta. induction es as [|e es [IHx IHa]] using rev_ind.
  - assert (∀ d, d ∈ ({[ [] ]} : gset jsstr) → opened [] d) as Hroot by (intros d ->%elem_of_singleton; by left).
    split; [done|]. intros q [?%elem_of_nil|[_ Hd]%listing_queries_elem]%commit_asks; [done|by apply Hroot].
  - unfold client_run in *. rewrite foldl_app. cbn [foldl]. set (c := foldl _ _ es) in *. clearbody c.
    destruct e as [dir f st|sc' st later]; cbn [client_step].
    + assert (∀ d, d ∈ toggle_set dir (expandedDirs (tree c)) → opened (es ++ [Toggle dir f st]) d) as Hx.
      { intros d. unfold toggle_set. case_bool_decide; [rewrite elem_of_difference; intros [? _]; by apply opened_snoc, IHx|].
        rewrite elem_of_union, elem_of_singleton. intros [?| ->]; [by apply opened_snoc, IHx|].
        right. exists f, st. apply elem_of_app. right. by left. }
      split; [done|]. intros q [?|[_ Hd]%listing_queries_elem]%commit_asks; [by apply opened_snoc, IHa|by apply Hx].
    + case_bool_decide; [split; intros; apply opened_snoc; auto|].
      assert (∀ d, d ∈ ({[ [] ]} : gset jsstr) → opened (es ++ [Rescope sc' st later]) d) as Hroot
        by (intros d ->%elem_of_singleton; by left).
      split; [done|]. intros q [[?|[_ Hd]%listing_queries_elem]%commit_asks|[_ Hd]%listing_queries_elem]%commit_asks.
      * by apply opened_snoc, IHa.
      * by apply opened_snoc, IHx.
      * by apply Hroot.
Qed.

(** ** Theorems *)

(** The tree is never blank: whatever the listings hold, the root's loading,
    failure, emptiness or entries make a line, so that the spinner for no rows
    is never shown, and each entry row is one item, with its depth as its
    level from one on. The notice stands exactly when the root's last data was
    truncated, also over the error that a later failure shows instead. *)
Theorem tree_never_blank localeCompare expanded listingsByPath selectedPath s rows
    (Hrows : tree_rows localeCompare expanded listingsByPath = Some rows) :
  ∃ notice, FileTree rows listingsByPath selectedPath s = TreeShown notice (tree_line_of rows selectedPath s <$> rows) ∧
    (notice ≠ None ↔ ∃ data, listingsByPath !! [] ≫= listing_data = Some data ∧ list_truncated data = true).
Proof.
  unfold FileTree. rewrite bool_decide_false by (by eapply flattenRows_nonempty). eexists. split; [done|].
  unfold rootTruncated. destruct (listingsByPath !! [] ≫= listing_data) as [data|]; [|split; [done|by intros (d & [=] & _)]].
  destruct (list_truncated data) eqn:Ht; (split; [|]); try done.
  - intros _. by exists data.
  - intros (d & [= <-] & H). congruence.
Qed.

Lemma tree_never_blank_witness : ∃ notice lines,
  FileTree example_rows example_listings [] initial_tree = TreeShown notice lines.
Proof.
  destruct (tree_never_blank example_compare example_expanded example_listings [] initial_tree example_rows) as (notice & H & _);
    [by vm_compute|]. by eexists _, _.
Defined.

(** The Tab key finds the tree at exactly one row, the focused one, or the
    first while nothing was focused, as long as the tree holds directories and
    files only and the focused row is still there. *)
Theorem tree_one_tab_stop localeCompare expanded listingsByPath selectedPath s rows
    (Hnames : names_ok listingsByPath) (Hrows : tree_rows localeCompare expanded listingsByPath = Some rows)
    (Hact : Forall (λ r, actionable (entry r) = true) (tree_entries rows)) (Hne : tree_entries rows ≠ [])
    (Hfocus : focusedPath s = [] ∨ focusedPath s ∈ path <$> tree_entries rows) :
  ∃ r, r ∈ tree_entries rows ∧ tab_stops rows selectedPath s = [path r] ∧
    (focusedPath s ≠ [] → focusedPath s = path r) ∧ (focusedPath s = [] → head (tree_entries rows) = Some r).
Proof.
  destruct (rows_NoDup localeCompare expanded listingsByPath Hnames _ _ _ _ Hrows) as [Hnd _].
  assert (∀ r, r ∈ tree_entries rows → path r ≠ []) as Hpath.
  { intros r Hr. eapply rows_shown in Hr as (data & _ & Hl & He & ->); [|exact Hrows].
    destruct (Hnames _ _ Hl) as [Hok _]. rewrite Forall_forall in Hok.
    pose proof (child_path_longer (parentPath r) _ (Hok _ He)). cbn. by destruct (child_path _ _); [cbn in *; lia|]. }
  rewrite Forall_forall in Hact.
  assert (∃ r, r ∈ tree_entries rows ∧ (∀ r', r' ∈ tree_entries rows → item_focused rows s r' = true ↔ r' = r) ∧
    (focusedPath s ≠ [] → focusedPath s = path r) ∧ (focusedPath s = [] → head (tree_entries rows) = Some r)) as (r & Hr & Hu & H1 & H2).
  { destruct (decide (focusedPath s = [])) as [Hnil|Hsome].
    - destruct (tree_entries rows) as [|r es] eqn:Hes; [done|]. exists r. split; [by left|]. split; [|by split].
      intros r' Hr'. rewrite focused_item_iff, Hes, Hnil. cbn. split; [|intros ->; by right].
      intros [Hp|[_ [= Hp]]]; [by destruct (Hpath r' Hr')|]. eapply (entry_unique rows); rewrite ?Hes; [done|done|by left|done].
    - destruct Hfocus as [?|(r & Hp & Hr)%list_elem_of_fmap]; [done|]. exists r. split; [done|]. split; [|by split].
      intros r' Hr'. rewrite focused_item_iff. split; [|intros ->; by left].
      intros [Hp'|[? _]]; [|done]. eapply (entry_unique rows); [done..|congruence]. }
  exists r. split; [done|]. split; [|by split]. apply Permutation_singleton_r, NoDup_Permutation.
  - eapply sublist_NoDup; [exact Hnd|]. unfold tab_stops.
    replace (path <$> tree_entries rows) with (item_path <$> (TreeItem rows selectedPath s <$> tree_entries rows)) by (by rewrite <- list_fmap_compose).
    apply fmap_sublist, js_filter_sublist.
  - apply NoDup_singleton.
  - intros p. rewrite tab_stops_elem, list_elem_of_singleton. split.
    + intros (r' & Hr' & <- & Hf & _). by rewrite (proj1 (Hu r' Hr') Hf).
    + intros ->. exists r. split; [done|]. split; [done|]. split; [by apply Hu|by apply Hact].
Qed.

Lemma tree_one_tab_stop_witness : ∃ p, tab_stops example_rows [] example_state = [p].
Proof.
  destruct (tree_one_tab_stop example_compare example_expanded example_listings [] example_state example_rows example_names_ok) as (r & _ & H & _).
  - by vm_compute.
  - decide_closed.
  - by vm_compute.
  - right. decide_closed.
  - by exists (path r).
Defined.

(** The arrow keys do not get past a link: with the row above it focused, no
    number of presses of the down key moves the browser's focus, since the
    link's button is disabled; and from the first press on the Tab key finds
    no row of the tree at all. *)
Theorem tree_keys_stop_at_link rows mounted toLocaleLowerCase selectedPath i row r ev s n
    (Hnd : NoDup (path <$> tree_entries rows)) (Hi : tree_entries rows !! i = Some row) (Hr : tree_entries rows !! S i = Some r)
    (Hlink : actionable (entry r) = false) (Hpath : path r ≠ []) (Hk : key ev = js "ArrowDown") :
  let press s := (onTreeKeyDown toLocaleLowerCase rows mounted ev row s).1 in
  domFocus (Nat.iter n press s) = domFocus s ∧ tab_stops rows selectedPath (Nat.iter (S n) press s) = [].
Proof.
  intros press. pose proof (list_elem_of_lookup_2 _ _ _ Hr) as Hin.
  assert (∀ t, focusedPath (press t) = path r ∧ domFocus (press t) = domFocus t) as Hpress.
  { intros t. unfold press. rewrite (press_down rows mounted toLocaleLowerCase Hnd i row r ev t Hi Hr Hk). by apply focusPath_disabled. }
  clearbody press. split.
  - induction n as [|n IH]; [done|]. rewrite Nat.iter_succ. by rewrite (proj2 (Hpress _)).
  - apply elem_of_nil_inv. intros p (r' & Hr' & <- & Hf & Ha)%tab_stops_elem.
    apply focused_item_iff in Hf. rewrite Nat.iter_succ, (proj1 (Hpress _)) in Hf. destruct Hf as [Hp|[Hp _]]; [|done].
    rewrite (entry_unique rows Hnd r' r) in Ha by done. congruence.
Qed.

Definition example_link_rows : list TreeRow :=
  EntryRow <$> [row_of [] 0 (example_entry "a.md" entry_file); row_of [] 0 (example_entry "link" entry_symlink);
                row_of [] 0 (example_entry "z.md" entry_file)].

Lemma tree_keys_stop_at_link_witness :
  domFocus (Nat.iter 5 (λ s, (onTreeKeyDown (λ n, n) example_link_rows (λ _, true) (example_key "ArrowDown")
    (row_of [] 0 (example_entry "a.md" entry_file)) s).1) initial_tree) = None.
Proof.
  refine (proj1 (tree_keys_stop_at_link example_link_rows (λ _, true) (λ n, n) [] 0 (row_of [] 0 (example_entry "a.md" entry_file))
    (row_of [] 0 (example_entry "link" entry_symlink)) (example_key "ArrowDown") initial_tree 5 _ _ _ _ _ _));
    [decide_closed|reflexivity|reflexivity|reflexivity|discriminate|reflexivity].
Defined.

(** Nor does it when the focused entry has gone, since nothing resets the
    focused path but another sandbox or session. *)
Theorem tree_focus_lost rows selectedPath s (Hgone : focusedPath s ≠ [] ∧ focusedPath s ∉ path <$> tree_entries rows) :
  tab_stops rows selectedPath s = [].
Proof.
  destruct Hgone as [Hne Hno]. apply elem_of_nil_inv. intros p (r & Hr & <- & [Hf|[? _]]%focused_item_iff & _)%tab_stops_elem; [|done].
  apply Hno. rewrite Hf. by apply list_elem_of_fmap_2.
Qed.

Lemma tree_focus_lost_witness :
  tab_stops example_link_rows [] (set_focus initial_tree (js "gone") None None) = [].
Proof. apply tree_focus_lost. split; [discriminate|decide_closed]. Defined.

(** The memoised map is the map of the present results: over every sequence of
    renders, although it is made again only for another set of directories or
    another [listingStateKey], which is a text put together by hand. *)
Theorem listing_map_current rs r (Hok : renders_ok (rs ++ [r])) :
  memo_map <$> tree_renders (rs ++ [r]) = Some (listings_map (expandedPaths (set_dirs r)) (set_results r)).
Proof.
  unfold tree_renders. rewrite foldl_app. cbn [foldl fmap option_fmap option_map]. f_equal. unfold listingsByPath.
  destruct (foldl _ None rs) as [m|] eqn:Hm; [|done]. destruct (_ && _) eqn:Hhit; [|done].
  apply andb_true_iff in Hhit as [Hid Hk]. apply bool_decide_eq_true in Hid, Hk. cbn [memo_set memo_key] in *.
  apply memo_of_render in Hm as (a & Ha & Haid & Hak & <-).
  apply (same_key_same_map (rs ++ [r])); [done|apply elem_of_app; by left|apply elem_of_app; right; by left|congruence..].
Qed.

Definition example_render (time : Z) (l : listing) : tree_render :=
  {| set_id := 0; set_dirs := {[ [] ]}; set_results := [{| result := l; dataUpdatedAt := time; errorUpdatedAt := 0 |}] |}.

Definition example_renders : list tree_render :=
  [example_render 0 ListingPending; example_render 7 (example_listing "" [example_entry "a.md" entry_file]);
   example_render 7 (example_listing "" [example_entry "a.md" entry_file])].

Lemma listing_map_current_witness :
  memo_map <$> tree_renders (example_renders ++ [example_render 9 (example_listing "" [])]) =
  Some (listings_map (expandedPaths {[ [] ]}) (set_results (example_render 9 (example_listing "" [])))).
Proof.
  apply listing_map_current. assert (∀ a, a ∈ example_renders ++ [example_render 9 (example_listing "" [])] →
    a = example_render 0 ListingPending ∨ a = example_render 7 (example_listing "" [example_entry "a.md" entry_file]) ∨
    a = example_render 9 (example_listing "" [])) as Hin by (intros a; cbn; rewrite !elem_of_cons, elem_of_nil; naive_solver).
  split.
  - by intros a b [-> |[-> | ->]]%Hin [-> |[-> | ->]]%Hin.
  - by intros a [-> |[-> | ->]]%Hin.
  - intros a b [|i] x y [-> |[-> | ->]]%Hin [-> |[-> | ->]]%Hin _ [= <-] [= <-]; cbn; done.
Defined.

(** Requests follow what is opened: whatever directories are toggled and
    whatever scopes the tree is given, the queries it observes are those of the
    expanded directories in the present scope, each with a key of its own, two
    queries with the same key make the same request, and what was asked for
    was opened by then, or is the root. *)
Theorem tree_queries_follow fetch sc stale es : let c := client_run sc stale es in
  (∀ q, q ∈ observed c ↔ q = {| q_sandbox := in_sandbox (scope c); q_session := in_session (scope c); q_dir := q_dir q |} ∧
                         q_dir q ∈ expandedDirs (tree c)) ∧
  NoDup (queryKey <$> observed c) ∧
  (∀ q, q ∈ asked c → opened es (q_dir q)) ∧
  (∀ q q', queryKey q = queryKey q' → queryFn fetch q = queryFn fetch q').
Proof.
  intros c. assert (observed c = listing_queries (scope c) (expandedDirs (tree c))) as Hobs.
  { apply (foldl_invariant in_scope); [|done]. apply client_step_in_scope. }
  split_and!.
  - intros q. rewrite Hobs. apply listing_queries_elem.
  - rewrite Hobs. unfold listing_queries. rewrite <- list_fmap_compose. apply NoDup_fmap_2; [|].
    + intros d d' Heq. unfold queryKey in Heq. cbn in Heq. congruence.
    + unfold expandedPaths. rewrite js_sort_perm. apply NoDup_elements.
  - apply client_opened.
  - intros q q' Heq. unfold queryKey in Heq. assert (q_sandbox q = q_sandbox q' ∧ q_session q ?? [] = q_session q' ?? [] ∧ q_dir q = q_dir q') as (Hs & Hw & Hd)
      by (split_and!; congruence).
    unfold queryFn, fileList. assert (session_arg (q_session q) = session_arg (q_session q')) as -> by
      (destruct (q_session q) as [[]|], (q_session q') as [[]|]; cbn in Hw |- *; by simplify_eq).
    by rewrite Hs, Hd.
Qed.

(** Given another sandbox or session, the tree asks there for every directory
    that was expanded here and that the cache does not have, before it forgets
    them: the rows are the root's again, and nobody opened the others there. *)
Theorem rescope_asks_expanded sc0 stale0 es sc stale later p
    (Hother : let c := client_run sc0 stale0 es in scope c ≠ sc ∧ p ∈ expandedDirs (tree c))
    (Hnew : queryKey {| q_sandbox := in_sandbox sc; q_session := in_session sc; q_dir := p |} ∉ queryKey <$> observed (client_run sc0 stale0 es))
    (Hstale : stale (queryKey {| q_sandbox := in_sandbox sc; q_session := in_session sc; q_dir := p |}) = true) :
  let c := client_run sc0 stale0 (es ++ [Rescope sc stale later]) in
  {| q_sandbox := in_sandbox sc; q_session := in_session sc; q_dir := p |} ∈ asked c ∧
  scope c = sc ∧ expandedDirs (tree c) = {[ [] ]}.
Proof.
  unfold client_run in *. rewrite foldl_app. cbn [foldl]. set (c := foldl _ _ es) in *. clearbody c. cbv zeta in Hother.
  destruct Hother as [Hsc Hp]. cbn [client_step]. rewrite bool_decide_false by done. split; [|done].
  cbn. rewrite !elem_of_app. left; right. rewrite js_filter_elem, andb_true_iff, bool_decide_eq_true, listing_queries_elem. done.
Qed.

Definition example_scope (session : option jsstr) : tree_scope := {| in_sandbox := js "sb"; in_session := session |}.

Lemma rescope_asks_expanded_witness :
  {| q_sandbox := js "sb"; q_session := Some (js "w1"); q_dir := js "src" |} ∈
    asked (client_run (example_scope None) (λ _, true)
      ([Toggle (js "src") false (λ _, true)] ++ [Rescope (example_scope (Some (js "w1"))) (λ _, true) (λ _, true)])).
Proof.
  refine (proj1 (rescope_asks_expanded (example_scope None) (λ _, true) [Toggle (js "src") false (λ _, true)]
    (example_scope (Some (js "w1"))) (λ _, true) (λ _, true) (js "src") _ _ _)); [|decide_closed|done].
  split; [discriminate|decide_closed].
Defined.
