(* ===== verification/FilesTab.v ===== *)
(** The files tab ([web/src/pages/sandbox/files/FilesTab.tsx]): the file and
    the session shown are those of the address, as far as the sandbox has them. *)
From S2P Require Import Prelude JsCollections JsText Types Observability Terminal Uri.

Definition PUBLISHED : jsstr := js "__published__".

Definition PATH : jsstr := js "path".
Definition SESSION : jsstr := js "session".

Definition is_active (w : WorkspaceSnapshot) : bool :=
  match finalization_state w with finalization_active => true | _ => false end.

(** [snapshot?.sandboxes[0]?.workspaces ?? []]. *)
Definition files_workspaces (snapshot : option SnapshotResult) : list WorkspaceSnapshot :=
  match snapshot with
  | Some r => match snapshots r with s :: _ => workspaces s | [] => [] end
  | None => []
  end.

Section files.
Context (snapshot : option SnapshotResult).

Definition files_path (params : url_params) : jsstr := param_get PATH params ?? [].

Definition files_session (params : url_params) : option jsstr :=
  match workspace_of (files_workspaces snapshot) (param_get SESSION params) with
  | Some w => if is_active w then param_get SESSION params else None
  | None => None
  end.

Definition fileWorkspaces : list WorkspaceSnapshot := js_filter is_active (files_workspaces snapshot).

(** A changed field ([None]: left alone), where [null] and the empty text
    delete the parameter. *)
Definition put_field (k : jsstr) (next : option (option jsstr)) (params : url_params) : url_params :=
  match next with
  | None => params
  | Some v => param_put k (v ?? []) params
  end.

Definition apply_address (path session : option (option jsstr)) (params : url_params) : url_params :=
  put_field SESSION session (put_field PATH path params).

(** The effect that drops a session that cannot be shown. *)
Definition clear_session (params : url_params) : url_params :=
  if bool_decide (snapshot = None) || negb (truthy_text (param_get SESSION params)) ||
     bool_decide (param_get SESSION params = files_session params)
  then params else param_delete SESSION params.

(** The options of the scope, and what choosing one does. *)
Definition scope_options : list jsstr := PUBLISHED :: (snapshot_workspace_id <$> fileWorkspaces).

Definition scope_value (params : url_params) : jsstr := files_session params ?? PUBLISHED.

Definition onScopeChange (value : option jsstr) (params : url_params) : url_params :=
  apply_address None (Some (if bool_decide (value = Some PUBLISHED) then None else value)) params.

Definition onSelectFile (selected : jsstr) (params : url_params) : url_params := apply_address (Some (Some selected)) None params.

(** The file shown: with its blame only in the published snapshot, and with
    the identity that separates one file's viewer from another's. *)
Record shown_file := { shown_path : jsstr; shown_session : option jsstr; blameOn : bool; view_key : jsstr }.

Definition file_key (session : option jsstr) (path : jsstr) : jsstr := (session ?? js "published") ++ 58 :: path.

Definition shown (params : url_params) : option shown_file :=
  let path := files_path params in
  if bool_decide (path = []) then None
  else Some {| shown_path := path; shown_session := files_session params;
               blameOn := bool_decide (files_session params = None); view_key := file_key (files_session params) path |}.

(** The segments of the breadcrumb. *)
Definition path_segments (params : url_params) : list jsstr :=
  js_filter (λ s, negb (bool_decide (s = []))) (split 47 (files_path params)).
End files.

(** ** Facts *)

Lemma path_session : PATH ≠ SESSION.
Proof. decide_closed. Qed.

Lemma files_session_some snapshot params s :
  files_session snapshot params = Some s ↔
  param_get SESSION params = Some s ∧ ∃ w, workspace_of (files_workspaces snapshot) (Some s) = Some w ∧ finalization_state w = finalization_active.
Proof.
  unfold files_session, is_active. split.
  - destruct (workspace_of _ _) as [w|] eqn:Hw; [|done]. destruct (finalization_state w) eqn:Hf; [|done..]. intros Hs.
    split; [done|]. rewrite Hs in Hw. by exists w.
  - intros (Hs & w & Hw & Hf). by rewrite Hs, Hw, Hf.
Qed.

Lemma files_path_scope v params : files_path (onScopeChange v params) = files_path params.
Proof.
  unfold files_path, onScopeChange, apply_address, put_field. rewrite param_get_put.
  by rewrite bool_decide_false by apply path_session.
Qed.

(** A session that is asked for is the requested one unless it is blank. *)
Lemma requested_after_scope v params :
  param_get SESSION (onScopeChange v params) =
  (if bool_decide (v = Some PUBLISHED) then None else if bool_decide (v ?? [] = []) then None else v).
Proof.
  unfold onScopeChange, apply_address, put_field, param_put.
  destruct (decide (v = Some PUBLISHED)) as [->|Hp]; [by rewrite !bool_decide_true, param_get_delete, bool_decide_true|].
  rewrite !(bool_decide_false (v = Some PUBLISHED)) by done.
  destruct (decide (v ?? [] = [])) as [He|He]; [rewrite !(bool_decide_true (v ?? [] = [])) by done|rewrite !(bool_decide_false (v ?? [] = [])) by done].
  - by rewrite param_get_delete, bool_decide_true.
  - rewrite param_get_set, bool_decide_true by done. by destruct v.
Qed.

(** Dropping the session leaves the file and what is shown of it. *)
Lemma clear_session_path snapshot params : files_path (clear_session snapshot params) = files_path params.
Proof.
  unfold clear_session. destruct (_ || _); [done|]. unfold files_path. rewrite param_get_delete. by rewrite bool_decide_false by apply path_session.
Qed.

Lemma clear_session_session snapshot params : files_session snapshot (clear_session snapshot params) = files_session snapshot params.
Proof.
  unfold clear_session. destruct (_ || _) eqn:Hc; [done|]. apply orb_false_iff in Hc as [_ Hc]. apply bool_decide_eq_false in Hc.
  destruct (files_session snapshot params) as [s|] eqn:Hs; [apply files_session_some in Hs as [? _]; congruence|].
  unfold files_session. rewrite param_get_delete, bool_decide_true by done. by rewrite workspace_of_none.
Qed.

Lemma clear_session_shown snapshot params : shown snapshot (clear_session snapshot params) = shown snapshot params.
Proof. unfold shown. by rewrite clear_session_path, clear_session_session. Qed.

(** ** Theorems *)

(** The files tab never shows the files of a session that cannot be
    edited. A session that is shown is the one of the address, is listed, and
    is active, and then it is also offered as the current scope; otherwise
    the published files are shown, with their blame. A requested session that
    is not shown is dropped from the address once the sandbox is known, the
    file is kept, and the effect then does nothing more. *)
Theorem files_scope snapshot params :
  let after := clear_session snapshot params in
  (∀ s, files_session snapshot params = Some s → param_get SESSION params = Some s ∧ s ∈ scope_options snapshot ∧
     ∃ w, w ∈ files_workspaces snapshot ∧ snapshot_workspace_id w = s ∧ finalization_state w = finalization_active) ∧
  (∀ f, shown snapshot params = Some f → shown_path f = files_path params ∧ shown_path f ≠ [] ∧
     (blameOn f = true ↔ shown_session f = None) ∧ shown_session f = files_session snapshot params) ∧
  files_path after = files_path params ∧ files_session snapshot after = files_session snapshot params ∧
  clear_session snapshot after = after ∧
  (snapshot ≠ None → truthy_text (param_get SESSION after) = true → files_session snapshot after = param_get SESSION after).
Proof.
  cbv zeta. assert (∀ s, files_session snapshot params = Some s → param_get SESSION params = Some s ∧
     ∃ w, w ∈ files_workspaces snapshot ∧ snapshot_workspace_id w = s ∧ finalization_state w = finalization_active) as Hlisted.
  { intros s (Hs & w & Hw & Hf)%files_session_some. split; [done|]. exists w.
    by apply workspace_of_some in Hw as [? ?]. }
  split_and!.
  - intros s Hs. destruct (Hlisted s Hs) as (Hp & w & Hw & Hid & Hf). split_and!; [done| |by exists w].
    apply list_elem_of_further, list_elem_of_fmap. exists w. split; [done|]. apply js_filter_elem. split; [done|].
    unfold is_active. by rewrite Hf.
  - intros f. unfold shown. case_bool_decide as Hp; [done|]. intros [= <-]. cbn. split_and!; try done. by rewrite bool_decide_eq_true.
  - apply clear_session_path.
  - apply clear_session_session.
  - destruct (bool_decide (snapshot = None) || negb (truthy_text (param_get SESSION params)) ||
              bool_decide (param_get SESSION params = files_session snapshot params)) eqn:Hc;
      unfold clear_session at 2 3; rewrite Hc; [unfold clear_session; by rewrite Hc|].
    unfold clear_session. rewrite param_get_delete, !(bool_decide_true (SESSION = SESSION)) by done. 
    change (truthy_text None) with false. cbn [negb]. by rewrite orb_true_r.
  - intros Hsn. unfold clear_session. rewrite (bool_decide_false (snapshot = None)) by done. cbn [orb].
    destruct (truthy_text (param_get SESSION params)) eqn:Ht; cbn [negb orb]; [|by rewrite Ht].
    case_bool_decide as Heq; [done|]. rewrite param_get_delete, bool_decide_true by done. done.
Qed.

(** Choosing a scope shows it. With the workspaces' identifiers distinct,
    not blank and not that of the published files, every option of the scope
    becomes the one shown, and the file stays; and with no colon in them (nor
    called "published") two different files, or one file in two scopes, never
    share a viewer, so no draft passes from one to another. *)
Theorem scope_options_work snapshot params v
    (Hnd : NoDup (snapshot_workspace_id <$> files_workspaces snapshot))
    (Hids : ∀ w, w ∈ files_workspaces snapshot → snapshot_workspace_id w ≠ [] ∧ snapshot_workspace_id w ≠ PUBLISHED ∧
       58 ∉ snapshot_workspace_id w ∧ snapshot_workspace_id w ≠ js "published")
    (Hv : v ∈ scope_options snapshot) :
  scope_value snapshot (onScopeChange (Some v) params) = v ∧ files_path (onScopeChange (Some v) params) = files_path params ∧
  (∀ params' f f', shown snapshot params = Some f → shown snapshot params' = Some f' → view_key f = view_key f' → f = f').
Proof.
  split_and!; [|apply files_path_scope|].
  - unfold scope_value, files_session. rewrite requested_after_scope. apply elem_of_cons in Hv as [->|Hv].
    + by rewrite bool_decide_true, workspace_of_none.
    + apply list_elem_of_fmap in Hv as (w & -> & [Hw Ha]%js_filter_elem). destruct (Hids w Hw) as (H1 & H2 & _).
      rewrite bool_decide_false by congruence. cbn [default from_option]. unfold Datatypes.id. rewrite bool_decide_false by done.
      by rewrite workspace_of_unique, Ha.
  - assert (∀ params f, shown snapshot params = Some f → f = {| shown_path := shown_path f; shown_session := shown_session f;
        blameOn := bool_decide (shown_session f = None); view_key := file_key (shown_session f) (shown_path f) |} ∧
        58 ∉ (shown_session f ?? js "published") ∧ shown_session f ≠ Some (js "published")) as Hshown.
    { intros q f. unfold shown. case_bool_decide; [done|]. intros [= <-]. cbn [shown_path shown_session].
      destruct (files_session snapshot q) as [s|] eqn:Hs; [|split_and!; [done|decide_closed|done]].
      apply files_session_some in Hs as (_ & w & [Hw <-]%workspace_of_some & _).
      destruct (Hids w Hw) as (_ & _ & ? & ?). split_and!; [done..|congruence]. }
    intros params' f f' Hf Hf' Hkey. destruct (Hshown _ _ Hf) as (He & Hc & Hn), (Hshown _ _ Hf') as (He' & Hc' & Hn').
    rewrite He, He' in Hkey. cbn [view_key] in Hkey. apply separator_inj in Hkey as [Hs Hp]; [|done..]. rewrite He, He'.
    assert (shown_session f = shown_session f') as Hss; [|by rewrite Hss, Hp].
    destruct (shown_session f) as [s|], (shown_session f') as [s'|]; cbn [default from_option] in Hs; unfold Datatypes.id in Hs; congruence.
Qed.

Definition example_files : SnapshotResult :=
  {| snapshots := [{| sandbox_id := js "a"; snapshot_lifecycle_state := js "ready"; availability := js "available";
       snapshot_sampled_at := 0; snapshot_errors := []; snapshot_daemon := None;
       snapshot_resources := {| latest := None; history := [] |};
       workspaces := [{| snapshot_workspace_id := js "s1"; workspace_lifecycle_state := js "active";
         finalization_state := finalization_active; network_profile := shared; base_root_hash := []; workspace_layer_count := 1;
         namespace_fd_count := 0; workspace_resources := {| latest := None; history := [] |}; active_namespace_executions := [] |}];
       stack := {| layer_count := 1; layers_bytes := 0; active_leases := 0 |} |}] |}.

Lemma scope_options_work_witness :
  scope_value (Some example_files) (onScopeChange (Some (js "s1")) [(PATH, js "a.txt")]) = js "s1".
Proof.
  refine (proj1 (scope_options_work (Some example_files) [(PATH, js "a.txt")] (js "s1") _ _ _)).
  - apply NoDup_singleton.
  - intros w Hw. apply list_elem_of_singleton in Hw as ->. decide_closed.
  - apply list_elem_of_further. apply (list_elem_of_lookup_2 _ 0). by vm_compute.
Defined.
