(* ===== verification/FilePage.v ===== *)
(** The page of a file ([web/src/pages/sandbox/files/FileView.tsx]): its
    toolbar, the blame it fetches beside the text, and what happens to both
    when the page is reused for another sandbox. *)
From S2P Require Import Prelude JsCollections JsText Json Rpc Uri Files Blame FileView.

(** ** What is shown *)

Record blame_entry := { entry_owner : jsstr; entry_color : jsstr }.

(** The buttons of the toolbar and of the banner. *)
Inductive file_action := LoadNext | BeginEdit | CancelEdit | SaveEdit (saving : bool) | KeepDraft | CopyDraft | ReloadServer.

Record file_toolbar := {
  toolbar_lines : Z * Z * Z;
  toolbar_truncated : bool;
  toolbar_buttons : list (file_action * bool);
  toolbar_alert : option jsstr;
  toolbar_banner : list file_action;
  toolbar_legend : option (list blame_entry);
  toolbar_spinner : bool;
}.

Inductive file_page := FileUnavailable (m : jsstr) | FileLoading | FileBinary | FileText (t : file_toolbar).

Definition BlameLegend (owners : list jsstr) : list blame_entry :=
  (λ o, {| entry_owner := o; entry_color := color (ownerInfo o) |}) <$> owners.

Definition blame_legend (blameOn : bool) (session : option jsstr) (blame : option (list BlameRange)) : option (list blame_entry) :=
  match blame with
  | Some ranges => if blameOn && bool_decide (session = None) then Some (BlameLegend (ownersOf ranges)) else None
  | None => None
  end.

(** Each button with whether it is enabled. *)
Definition toolbar_buttons_of (l : LoadedText) (v : file_view) : list (file_action * bool) :=
  (if bool_decide (nextOffset l ≠ None) && negb (is_draft (mode v)) then [(LoadNext, negb (busy v))] else []) ++
  match mode v with
  | Viewing => [(BeginEdit, negb (busy v))]
  | Editing _ _ => [(CancelEdit, negb (busy v)); (SaveEdit (busy v), negb (busy v))]
  | Conflict _ _ _ _ => []
  end.

Definition banner_of (v : file_view) : list file_action :=
  match mode v with Conflict _ _ _ _ => [KeepDraft; CopyDraft; ReloadServer] | _ => [] end.

Definition FileView (blameOn : bool) (session : option jsstr) (blame : option (list BlameRange)) (v : file_view) : file_page :=
  match loaded v with
  | None => match loadError v with
            | Some (u :: m) => FileUnavailable (u :: m)
            | _ => FileLoading
            end
  | Some l =>
      if binary l then FileBinary
      else FileText {|
        toolbar_lines := (startLine l, endLine l, totalLines l);
        toolbar_truncated := bool_decide (nextOffset l ≠ None);
        toolbar_buttons := toolbar_buttons_of l v;
        toolbar_alert := match loadError v with Some (u :: m) => Some (u :: m) | _ => None end;
        toolbar_banner := banner_of v;
        toolbar_legend := blame_legend blameOn session blame;
        toolbar_spinner := loading v |}
  end.

(** [copyLocalDraft]: the text written to the clipboard. *)
Definition copyLocalDraft (v : file_view) : option jsstr :=
  match mode v with Conflict draft _ _ _ => Some draft | _ => None end.

(** ** Blame *)

(** A request for the blame of a path in a sandbox; [cancelled] by the clean-up
    of the effect that sent it. *)
Record blame_request := { blame_of : jsstr * jsstr; cancelled : bool }.

(** The file of the last effect that asked ([None] when it did not ask), the
    ranges shown, the requests out in the order they were sent, and how many
    failures were notified. *)
Record blame_state := {
  blame_target : option (jsstr * jsstr);
  blame : option (list BlameRange);
  blame_requests : list blame_request;
  blame_failures : nat;
}.

Definition initial_blame : blame_state := {| blame_target := None; blame := None; blame_requests := []; blame_failures := 0 |}.

Definition cancel (r : blame_request) : blame_request := {| blame_of := blame_of r; cancelled := true |}.

(** The effect, after the clean-up of the one before. *)
Definition blame_effect (blameOn : bool) (sandboxId path : jsstr) (session : option jsstr) (b : blame_state) : blame_state :=
  let requests := cancel <$> blame_requests b in
  if negb blameOn || bool_decide (session ≠ None)
  then {| blame_target := None; blame := None; blame_requests := requests; blame_failures := blame_failures b |}
  else {| blame_target := Some (sandboxId, path); blame := None;
          blame_requests := requests ++ [{| blame_of := (sandboxId, path); cancelled := false |}];
          blame_failures := blame_failures b |}.

(** The request at [i] is answered; a failure is notified even when the
    request was cancelled. *)
Definition blame_settles (i : nat) (r : outcome unit BlameResult) (b : blame_state) : blame_state :=
  match blame_requests b !! i with
  | None => b
  | Some q =>
      let rest := take i (blame_requests b) ++ drop (S i) (blame_requests b) in
      match r with
      | Returns result =>
          {| blame_target := blame_target b;
             blame := if cancelled q then blame b else Some (ranges result);
             blame_requests := rest; blame_failures := blame_failures b |}
      | Throws _ => {| blame_target := blame_target b; blame := blame b; blame_requests := rest; blame_failures := S (blame_failures b) |}
      end
  end.

(** The answers come from [serve]: the blame of each file. *)
Inductive blame_step (serve : jsstr * jsstr → list BlameRange) : blame_state → blame_state → Prop :=
  | blame_changes on sandboxId path session b : blame_step serve b (blame_effect on sandboxId path session b)
  | blame_fails i b : blame_step serve b (blame_settles i (Throws tt) b)
  | blame_answers i q p b : blame_requests b !! i = Some q →
      blame_step serve b (blame_settles i (Returns {| blame_path := p; ranges := serve (blame_of q) |}) b).

Inductive blame_reachable (serve : jsstr * jsstr → list BlameRange) : blame_state → Prop :=
  | blame_init : blame_reachable serve initial_blame
  | blame_next b b' : blame_reachable serve b → blame_step serve b b' → blame_reachable serve b'.

(** ** One page, several sandboxes *)

(** The page is reused when the address names the same path in another
    sandbox: its key holds the session and the path. *)
Definition page_key (session : option jsstr) (path : jsstr) : jsstr := (session ?? js "published") ++ 58 :: path.

(** [load] of the sandbox at the time it was called; [loads] are those out. *)
Record file_tab := { tab_of : jsstr; tab_view : file_view; loads : list jsstr }.

Section tab.
Context {D : DocumentText}.

Definition open_sandbox (sandboxId : jsstr) (t : file_tab) : file_tab :=
  if bool_decide (sandboxId = tab_of t) then t
  else {| tab_of := sandboxId; tab_view := commit_view (tab_view t) (load_starts (tab_view t)); loads := loads t ++ [sandboxId] |}.

(** The load at [i] ends. *)
Definition load_ends (i : nat) (r : outcome jsstr FileReadWindow) (t : file_tab) : file_tab :=
  {| tab_of := tab_of t; tab_view := commit_view (tab_view t) (load_settles r (tab_view t));
     loads := take i (loads t) ++ drop (S i) (loads t) |}.

End tab.

(** ** Theorems *)

(** The page offers what can be done: an enabled button of the toolbar needs an
    idle page, the mode its operation needs and, for the next lines, an offset
    to read from; while an operation is under way none is enabled; a conflict
    offers its three ways out and nothing else; and text that is shown is
    never that of a binary file. *)
Theorem file_actions blameOn session ranges v t
    (Ht : FileView blameOn session ranges v = FileText t) :
  (∃ l, loaded v = Some l ∧ binary l = false ∧ toolbar_lines t = (startLine l, endLine l, totalLines l)) ∧
  (∀ a, (a, true) ∈ toolbar_buttons t → busy v = false ∧
     match a with
     | LoadNext => mode v = Viewing ∧ is_Some (more_offset v)
     | BeginEdit => mode v = Viewing
     | CancelEdit | SaveEdit _ => ∃ original draft, mode v = Editing original draft
     | _ => False
     end) ∧
  (toolbar_banner t ≠ [] ↔ is_Some (copyLocalDraft v)) ∧
  (is_Some (copyLocalDraft v) → toolbar_buttons t = []) ∧
  (toolbar_legend t ≠ None → session = None ∧ ranges ≠ None).
Proof.
  unfold FileView in Ht. destruct (loaded v) as [l|] eqn:Hl; [|by destruct (loadError v) as [[]|]].
  destruct (binary l) eqn:Hb; [done|]. injection Ht as <-. cbn [toolbar_lines toolbar_buttons toolbar_banner toolbar_legend].
  split; [by exists l|]. split; [|split; [|split]].
  - intros a. unfold toolbar_buttons_of, more_offset. rewrite Hl, elem_of_app. intros [Ha|Ha].
    + destruct (bool_decide_reflect (nextOffset l ≠ None)) as [Hn|]; [|by apply not_elem_of_nil in Ha].
      destruct (mode v) eqn:Hm; cbn in Ha; [|by apply not_elem_of_nil in Ha..].
      apply list_elem_of_singleton in Ha as [= -> Hbusy]. split; [by destruct (busy v)|]. split; [done|].
      cbn. destruct (nextOffset l); [by eexists|done].
    + destruct (mode v) as [|o d|] eqn:Hm; [| |by apply not_elem_of_nil in Ha].
      * apply list_elem_of_singleton in Ha as [= -> Hbusy]. split; [by destruct (busy v)|done].
      * apply elem_of_cons in Ha as [[= -> Hbusy]|Ha%list_elem_of_singleton]; [split; [by destruct (busy v)|eauto]|].
        injection Ha as -> Hbusy. split; [by destruct (busy v)|eauto].
  - unfold banner_of, copyLocalDraft. destruct (mode v); split; try done; by intros [? [=]].
  - unfold toolbar_buttons_of, copyLocalDraft. destruct (mode v) eqn:Hm; [by intros [? [=]]..|]. intros _.
    cbn [is_draft negb]. by rewrite andb_false_r.
  - unfold blame_legend. destruct ranges as [rs|]; [|done]. destruct blameOn; [|done]. cbn [andb]. intros H. split; [|done].
    destruct (bool_decide_reflect (session = None)); [done|]. by destruct H.
Qed.

#[local] Existing Instance lf_text.

Lemma file_actions_witness : ∃ t, FileView true None None (view example_typing) = FileText t ∧
  ((CancelEdit, true) ∈ toolbar_buttons t → busy (view example_typing) = false).
Proof.
  destruct (FileView true None None (view example_typing)) as [| | |t] eqn:Ht; try (vm_compute in Ht; discriminate Ht).
  exists t. split; [reflexivity|]. intros Ha.
  exact (proj1 (proj1 (proj2 (file_actions true None None (view example_typing) t Ht)) CancelEdit Ha)).
Defined.

(** At most one request is not cancelled, the last one, for the file of the
    last effect. *)
Record blame_ok (serve : jsstr * jsstr → list BlameRange) (b : blame_state) : Prop := {
  blame_live : ∀ q, q ∈ blame_requests b → cancelled q = false → blame_target b = Some (blame_of q);
  blame_from : ∀ rs, blame b = Some rs → ∃ f, blame_target b = Some f ∧ rs = serve f;
  blame_single : (length (js_filter (λ q, negb (cancelled q)) (blame_requests b)) ≤ 1)%nat;
}.

Lemma cancel_all (l : list blame_request) : js_filter (λ q, negb (cancelled q)) (cancel <$> l) = [].
Proof. induction l as [|q l IH]; [done|]. exact IH. Qed.

Lemma blame_effect_ok serve on sandboxId path session b : blame_ok serve (blame_effect on sandboxId path session b).
Proof.
  unfold blame_effect. destruct (_ || _); constructor; cbn [blame_requests blame_target blame]; try done.
  - intros q (q' & -> & _)%list_elem_of_fmap. done.
  - rewrite cancel_all. cbn. lia.
  - intros q [(q' & -> & _)%list_elem_of_fmap| ->%list_elem_of_singleton]%elem_of_app; done.
  - rewrite js_filter_app, cancel_all. cbn. lia.
Qed.

Lemma blame_settles_ok serve i r b : (∀ q result, blame_requests b !! i = Some q → r = Returns result → ranges result = serve (blame_of q)) →
  blame_ok serve b → blame_ok serve (blame_settles i r b).
Proof.
  intros Hserve [Hlive Hfrom Hone]. unfold blame_settles. destruct (blame_requests b !! i) as [q|] eqn:Hq; [|done].
  assert (length (js_filter (λ q, negb (cancelled q)) (take i (blame_requests b) ++ drop (S i) (blame_requests b))) ≤ 1)%nat as Hone'.
  { etrans; [|exact Hone]. apply sublist_length. rewrite <- (take_drop_middle _ _ _ Hq) at 3. rewrite !js_filter_app.
    apply sublist_app; [done|]. cbn. destruct (negb _); [by constructor|done]. }
  destruct r as [result|[]]; constructor; cbn [blame_requests blame_target blame]; try done.
  - intros q' Hq'%elem_of_drop_one. by apply Hlive.
  - destruct (cancelled q) eqn:Hc; [done|]. intros rs [= <-]. exists (blame_of q).
    split; [apply Hlive; [by eapply list_elem_of_lookup_2|done]|by eapply Hserve].
  - intros q' Hq'%elem_of_drop_one. by apply Hlive.
Qed.

(** The blame shown is that of the file shown: whatever files are opened
    in whatever order and however late the answers come, there are ranges only
    while blame is wanted for a published file, they are the ones its daemon
    gave for exactly that sandbox and path, and at most one request out can
    still change them. *)
Theorem blame_current serve b (Hreach : blame_reachable serve b) :
  (∀ rs, blame b = Some rs → ∃ f, blame_target b = Some f ∧ rs = serve f) ∧
  (∀ q, q ∈ blame_requests b → cancelled q = false → blame_target b = Some (blame_of q)) ∧
  (length (js_filter (λ q, negb (cancelled q)) (blame_requests b)) ≤ 1)%nat.
Proof.
  assert (blame_ok serve b) as [H1 H2 H3]; [|by split_and!].
  induction Hreach as [|b b' _ IH Hstep]; [constructor; cbn; [by intros q ?%not_elem_of_nil|done|lia]|].
  destruct Hstep as [on sandboxId path session b|i b|i q p b Hq].
  - apply blame_effect_ok.
  - apply blame_settles_ok; [done|done].
  - apply blame_settles_ok; [|done]. intros q' result Hq' [= <-]. by assert (q' = q) as -> by congruence.
Qed.

(** Two files opened one after the other, answered in the other order. *)
Definition example_serve (f : jsstr * jsstr) : list BlameRange := [{| start_line := 1; line_count := 9; owner := f.2 |}].

Definition example_asked : blame_state :=
  blame_effect true (js "s") (js "b") None (blame_effect true (js "s") (js "a") None initial_blame).

Definition example_answered : blame_state :=
  blame_settles 1 (Returns {| blame_path := js "b"; ranges := example_serve (js "s", js "b") |}) example_asked.

Definition example_blamed : blame_state :=
  blame_settles 0 (Returns {| blame_path := js "a"; ranges := example_serve (js "s", js "a") |}) example_answered.

Lemma example_blamed_reachable : blame_reachable example_serve example_blamed.
Proof.
  refine (blame_next _ example_answered _ (blame_next _ example_asked _
    (blame_next _ _ _ (blame_next _ _ _ (blame_init _) (blame_changes _ true (js "s") (js "a") None _))
      (blame_changes _ true (js "s") (js "b") None _)) _) _).
  - exact (blame_answers example_serve 1 {| blame_of := (js "s", js "b"); cancelled := false |} (js "b") example_asked eq_refl).
  - exact (blame_answers example_serve 0 {| blame_of := (js "s", js "a"); cancelled := true |} (js "a") example_answered eq_refl).
Qed.

Lemma blame_current_witness : ∃ f, blame_target example_blamed = Some f ∧ example_serve (js "s", js "b") = example_serve f.
Proof. exact (proj1 (blame_current example_serve example_blamed example_blamed_reachable) _ eq_refl). Defined.

(** The text of another sandbox: when the address changes to the same path in
    another sandbox, the page is kept, and a load of the sandbox left that
    ends after the one of the sandbox opened replaces its text. *)
Theorem file_of_other_sandbox {D : DocumentText} a b v w1 w2 (Hab : b ≠ a) :
  let t := load_ends 0 (Returns w1) (load_ends 1 (Returns w2) (open_sandbox b {| tab_of := a; tab_view := v; loads := [a] |})) in
  tab_of t = b ∧ loads t = [] ∧ loaded (tab_view t) = Some (window_text w1).
Proof.
  unfold open_sandbox. cbn [tab_of loads tab_view]. rewrite bool_decide_false by done. cbn [load_ends tab_of loads tab_view].
  split; [done|]. split; [done|]. unfold commit_view, sync_document. cbn. by repeat case_match.
Qed.

Lemma file_of_other_sandbox_witness :
  loaded (tab_view (load_ends 0 (Returns (example_window (js "old")))
    (load_ends 1 (Returns (example_window (js "new")))
      (open_sandbox (js "b") {| tab_of := js "a"; tab_view := initial_view; loads := [js "a"] |}))))
  = Some (example_text (js "old")).
Proof.
  refine (proj2 (proj2 (file_of_other_sandbox (js "a") (js "b") initial_view (example_window (js "old")) (example_window (js "new")) _))).
  discriminate.
Defined.
