(* ===== verification/FilesPage.v ===== *)
(** The files tab over time ([web/src/pages/sandbox/files/FilesTab.tsx]): the
    navigator and the scope around the file shown, and the editors of the files
    that are opened and left, which share the files of the sandbox.

    A file is known by the key of its viewer; [FilesTab.scope_options_work]
    says when keys tell files apart. *)
From S2P Require Import Prelude JsCollections JsText Types Observability Terminal Uri FilesTab Files FileView.

(** ** What is shown *)

Inductive navigator_place := Aside | NavigatorDrawer (opened : bool).

Record files_shown := {
  place : navigator_place;
  files_button : bool;
  files_trail : list (jsstr * bool);
  scope_choices : list (jsstr * jsstr);
  scope_chosen : jsstr;
  files_pane : shown_file + jsstr;
}.

Definition live (session : jsstr) : jsstr := js "live " ++ [183; 32] ++ session.

(** The trail, each part with whether it is dimmed. *)
Definition trail_of (session : option jsstr) (segments : list jsstr) : list (jsstr * bool) :=
  [(js "Files", false); (match session with Some s => if bool_decide (s = []) then js "published snapshot" else live s
                         | None => js "published snapshot" end, true)] ++
  imap (λ i s, (s, negb (bool_decide (i = length segments - 1)%nat))) segments.

Definition scope_choices_of (snapshot : option SnapshotResult) : list (jsstr * jsstr) :=
  (PUBLISHED, js "published snapshot") ::
  ((λ w, (snapshot_workspace_id w, live (snapshot_workspace_id w))) <$> fileWorkspaces snapshot).

Definition pick_hint (session : option jsstr) : jsstr :=
  js "Browse the " ++ (if truthy_text session then js "live session workspace" else js "published snapshot") ++
  js " from the file navigator. Published files show blame automatically.".

(** ** The page *)

(** An editor, of the viewer on the page or of one that was left. *)
Record open_file := { open_key : jsstr; mounted : bool; editor : editor_world }.

Record files_page := {
  page_params : url_params;
  page_snapshot : option SnapshotResult;
  narrow : bool;
  navigatorOpen : bool;
  contents : gmap jsstr jsstr;
  editors : list open_file;
}.

Definition FilesTab (p : files_page) : files_shown :=
  let session := files_session (page_snapshot p) (page_params p) in
  {| place := if narrow p then NavigatorDrawer (navigatorOpen p) else Aside;
     files_button := narrow p;
     files_trail := trail_of session (path_segments (page_params p));
     scope_choices := scope_choices_of (page_snapshot p);
     scope_chosen := scope_value (page_snapshot p) (page_params p);
     files_pane := match shown (page_snapshot p) (page_params p) with Some f => inl f | None => inr (pick_hint session) end |}.

Definition content_of (k : jsstr) (contents : gmap jsstr jsstr) : jsstr := contents !! k ?? [].

Definition leave_editor (o : open_file) : open_file := {| open_key := open_key o; mounted := false; editor := editor o |}.

Definition new_editor (k : jsstr) (contents : gmap jsstr jsstr) : open_file :=
  {| open_key := k; mounted := true; editor := editor_state initial_view (content_of k contents) [PendingLoad] None [] |}.

Definition is_shown (k : jsstr) (o : open_file) : bool := mounted o && bool_decide (open_key o = k).

(** The viewer of the file shown: the one mounted, when its key is the same. *)
Definition show_file (target : option shown_file) (contents : gmap jsstr jsstr) (es : list open_file) : list open_file :=
  match target with
  | None => leave_editor <$> es
  | Some f => if js_some (is_shown (view_key f)) es then es else (leave_editor <$> es) ++ [new_editor (view_key f) contents]
  end.

Definition at_files_address (params : url_params) (p : files_page) : files_page :=
  {| page_params := params; page_snapshot := page_snapshot p; narrow := narrow p; navigatorOpen := navigatorOpen p;
     contents := contents p; editors := show_file (shown (page_snapshot p) params) (contents p) (editors p) |}.

(** A render, the effect that drops a session that cannot be shown, and the
    render that follows it. *)
Definition files_commit (p : files_page) : files_page :=
  let p := at_files_address (page_params p) p in at_files_address (clear_session (page_snapshot p) (page_params p)) p.

Inductive files_event :=
  | SelectFile (selected : jsstr)
  | ChangeScope (value : option jsstr)
  | GoToAddress (params : url_params)
  | SnapshotArrives (snapshot : option SnapshotResult)
  | SetNavigator (opened : bool)
  | Resize (is_narrow : bool).

Definition files_update (e : files_event) (p : files_page) : files_page :=
  let set params snapshot is_narrow opened :=
    {| page_params := params; page_snapshot := snapshot; narrow := is_narrow; navigatorOpen := opened; contents := contents p; editors := editors p |} in
  match e with
  | SelectFile selected => set (onSelectFile selected (page_params p)) (page_snapshot p) (narrow p) false
  | ChangeScope value => set (onScopeChange value (page_params p)) (page_snapshot p) (narrow p) (navigatorOpen p)
  | GoToAddress params => set params (page_snapshot p) (narrow p) (navigatorOpen p)
  | SnapshotArrives snapshot => set (page_params p) snapshot (narrow p) (navigatorOpen p)
  | SetNavigator opened => set (page_params p) (page_snapshot p) (narrow p) opened
  | Resize is_narrow => set (page_params p) (page_snapshot p) is_narrow (navigatorOpen p)
  end.

Definition files_step (e : files_event) (p : files_page) : files_page := files_commit (files_update e p).

(** The file of a key becomes [f], for whoever has it open. *)
Definition serve_file (k f : jsstr) (o : open_file) : open_file :=
  if bool_decide (open_key o = k)
  then {| open_key := open_key o; mounted := mounted o;
          editor := editor_state (view (editor o)) f (pending (editor o)) (typed (editor o)) (seen (editor o)) |}
  else o.

Definition file_becomes (k f : jsstr) (p : files_page) : files_page :=
  {| page_params := page_params p; page_snapshot := page_snapshot p; narrow := narrow p; navigatorOpen := navigatorOpen p;
     contents := <[k := f]> (contents p); editors := serve_file k f <$> editors p |}.

Definition set_editor (i : nat) (o : open_file) (w : editor_world) (p : files_page) : files_page :=
  {| page_params := page_params p; page_snapshot := page_snapshot p; narrow := narrow p; navigatorOpen := navigatorOpen p;
     contents := contents p; editors := <[i := {| open_key := open_key o; mounted := mounted o; editor := w |}]> (editors p) |}.

(** What goes on without its viewer: an operation under way. *)
Definition settles (w w' : editor_world) : Prop := pending w' ≠ pending w ∧ (length (pending w') ≤ length (pending w))%nat.

Section files.
Context {D : DocumentText}.

Inductive files_moves : files_page → files_page → Prop :=
  | files_event_step e p : files_moves p (files_step e p)
  | files_external k f p : files_moves p (file_becomes k f p)
  | files_edits i o w p :
      editors p !! i = Some o → editor_step (editor o) w → mounted o = true ∨ settles (editor o) w →
      files_moves p (file_becomes (open_key o) (server w) (set_editor i o w p)).

Definition opened_at (params : url_params) (snapshot : option SnapshotResult) (is_narrow : bool) (files : gmap jsstr jsstr) : files_page :=
  files_commit {| page_params := params; page_snapshot := snapshot; narrow := is_narrow; navigatorOpen := false; contents := files; editors := [] |}.

Inductive files_reachable : files_page → Prop :=
  | files_init params snapshot is_narrow files : files_reachable (opened_at params snapshot is_narrow files)
  | files_next p p' : files_reachable p → files_moves p p' → files_reachable p'.

(** ** Facts *)

Definition mounts (es : list open_file) : nat := length (js_filter mounted es).

Lemma mounts_left es : mounts (leave_editor <$> es) = 0%nat.
Proof. unfold mounts. induction es as [|o es IH]; [done|exact IH]. Qed.

Lemma mounts_app es es' : mounts (es ++ es') = (mounts es + mounts es')%nat.
Proof. unfold mounts. by rewrite js_filter_app, length_app. Qed.

(** The invariant: one viewer, of the file shown, and editors that follow the
    code of the editor on the files the sandbox has. *)
Record files_ok (p : files_page) : Prop := {
  ok_mounted : ∀ o, o ∈ editors p → mounted o = true → ∃ f, shown (page_snapshot p) (page_params p) = Some f ∧ view_key f = open_key o;
  ok_one : mounts (editors p) = if bool_decide (shown (page_snapshot p) (page_params p) = None) then 0%nat else 1%nat;
  ok_server : ∀ o, o ∈ editors p → server (editor o) = content_of (open_key o) (contents p);
  ok_editor : ∀ o, o ∈ editors p → ∃ f, editor_reachable f (editor o);
}.

Lemma one_mounted es o o' : (mounts es ≤ 1)%nat → o ∈ es → o' ∈ es → mounted o = true → mounted o' = true → o = o'.
Proof.
  intros Hone Ho Ho' Hm Hm'. unfold mounts in Hone.
  assert (o ∈ js_filter mounted es) as Hin by (by apply js_filter_elem). assert (o' ∈ js_filter mounted es) as Hin' by (by apply js_filter_elem).
  destruct (js_filter mounted es) as [|x [|y l]]; [by apply not_elem_of_nil in Hin| |cbn in Hone; lia].
  apply list_elem_of_singleton in Hin as ->. by apply list_elem_of_singleton in Hin'.
Qed.

Lemma left_in o (es : list open_file) : o ∈ leave_editor <$> es → ∃ o', o' ∈ es ∧ o = leave_editor o'.
Proof. intros (o' & -> & Ho)%list_elem_of_fmap. by exists o'. Qed.

Section show_file.
Context (files : gmap jsstr jsstr).
Let good (o : open_file) : Prop := server (editor o) = content_of (open_key o) files ∧ ∃ f, editor_reachable f (editor o).

Lemma new_editor_good k : good (new_editor k files).
Proof. split; [done|]. eexists. constructor. Qed.

Lemma show_file_ok target es :
  (mounts es ≤ 1)%nat → (∀ o, o ∈ es → good o) →
  let es' := show_file target files es in
  (∀ o, o ∈ es' → mounted o = true → ∃ f, target = Some f ∧ view_key f = open_key o) ∧
  mounts es' = (if bool_decide (target = None) then 0 else 1)%nat ∧ (∀ o, o ∈ es' → good o).
Proof.
  intros Hone Hgood es'. subst es'. assert (∀ o, o ∈ leave_editor <$> es → mounted o = false ∧ good o) as Hleft.
  { intros o (o' & Ho & ->)%left_in. split; [done|by apply (Hgood o')]. }
  destruct target as [f|]; cbn [show_file]; [|split_and!].
  - rewrite bool_decide_false by done. destruct (js_some _ es) eqn:Hsome.
    + apply js_some_exists in Hsome as (o & Ho & [Hm Hk%bool_decide_eq_true]%andb_true_iff). split_and!; [| |done].
      * intros o' Ho' Hm'. exists f. split; [done|]. by rewrite (one_mounted es o' o Hone).
      * unfold mounts in *. assert (o ∈ js_filter mounted es) as Hin by (by apply js_filter_elem).
        destruct (js_filter mounted es) as [|x [|y l]]; [by apply not_elem_of_nil in Hin|done|cbn in Hone; lia].
    + split_and!; [| |].
      * intros o [Ho|Ho]%elem_of_app Hm; [by destruct (Hleft o Ho); congruence|]. apply list_elem_of_singleton in Ho as ->. by exists f.
      * by rewrite mounts_app, mounts_left.
      * intros o [Ho|Ho]%elem_of_app; [by apply Hleft|]. apply list_elem_of_singleton in Ho as ->. apply new_editor_good.
  - intros o Ho Hm. by destruct (Hleft o Ho); congruence.
  - by rewrite mounts_left, bool_decide_true.
  - intros o Ho. by apply Hleft.
Qed.
End show_file.

Lemma at_address_ok params p :
  (mounts (editors p) ≤ 1)%nat →
  (∀ o, o ∈ editors p → server (editor o) = content_of (open_key o) (contents p) ∧ ∃ f, editor_reachable f (editor o)) →
  files_ok (at_files_address params p).
Proof.
  intros Hone Hgood. destruct (show_file_ok (contents p) (shown (page_snapshot p) params) (editors p) Hone Hgood) as (H1 & H2 & H3).
  constructor; [exact H1|exact H2| |]; intros o Ho; by apply H3.
Qed.

Lemma ok_at_most_one p : files_ok p → (mounts (editors p) ≤ 1)%nat.
Proof. intros Hp. rewrite (ok_one p Hp). destruct (bool_decide _); lia. Qed.

Lemma files_commit_ok p :
  (mounts (editors p) ≤ 1)%nat →
  (∀ o, o ∈ editors p → server (editor o) = content_of (open_key o) (contents p) ∧ ∃ f, editor_reachable f (editor o)) →
  files_ok (files_commit p).
Proof.
  intros Hone Hgood. pose proof (at_address_ok (page_params p) p Hone Hgood) as Hp. apply at_address_ok; [by apply ok_at_most_one|].
  intros o Ho. split; [by apply Hp|by apply Hp].
Qed.

Lemma opened_ok params snapshot is_narrow files : files_ok (opened_at params snapshot is_narrow files).
Proof. apply files_commit_ok; [cbn; lia|]. intros o Ho. by apply not_elem_of_nil in Ho. Qed.

(** A change of one file reaches every editor of it, as a change by others. *)
Lemma serve_ok (k f : jsstr) (es : list open_file) (files : gmap jsstr jsstr) :
  (∀ o, o ∈ es → (open_key o ≠ k → server (editor o) = content_of (open_key o) files) ∧ ∃ f, editor_reachable f (editor o)) →
  ∀ o, o ∈ serve_file k f <$> es → server (editor o) = content_of (open_key o) (<[k := f]> files) ∧ ∃ f, editor_reachable f (editor o).
Proof.
  intros Hes o (o' & -> & Ho)%list_elem_of_fmap. destruct (Hes o' Ho) as [Hs [f0 He]]. unfold serve_file, content_of.
  destruct (bool_decide_reflect (open_key o' = k)) as [Hk|Hk]; cbn [open_key editor].
  - rewrite Hk, lookup_insert_eq. split; [done|]. exists f0. eapply editor_next; [exact He|]. apply editor_external.
  - rewrite lookup_insert_ne by done. split; [by apply Hs|by exists f0].
Qed.

Lemma serve_mounts (k f : jsstr) (es : list open_file) : mounts (serve_file k f <$> es) = mounts es.
Proof.
  unfold mounts. induction es as [|o es IH]; [done|]. cbn [fmap list_fmap List.filter]. unfold serve_file at 1.
  destruct (bool_decide (open_key o = k)); cbn [mounted]; by destruct (mounted o); cbn [length]; rewrite IH.
Qed.

Lemma serve_shape k f o : open_key (serve_file k f o) = open_key o ∧ mounted (serve_file k f o) = mounted o.
Proof. unfold serve_file. by destruct (bool_decide _). Qed.

Lemma set_mounts i o o' (es : list open_file) : es !! i = Some o → mounted o' = mounted o → mounts (<[i := o']> es) = mounts es.
Proof.
  unfold mounts. revert i. induction es as [|x es IH]; intros [|i] Hi Hm; try done.
  - injection Hi as ->. change (<[0%nat := o']> (o :: es)) with (o' :: es). cbn [List.filter]. by rewrite Hm; destruct (mounted o).
  - change (<[S i := o']> (x :: es)) with (x :: <[i := o']> es). cbn [List.filter]. destruct (mounted x); cbn [length]; by rewrite (IH i).
Qed.

Lemma moves_ok p p' : files_ok p → files_moves p p' → files_ok p'.
Proof.
  intros Hp Hm. revert Hp. destruct Hm as [e p0|k f p0|i o w p0 Hi Hw Hgo]; intros Hp.
  - unfold files_step. apply files_commit_ok; [destruct e; cbn [files_update editors]; by apply ok_at_most_one|].
    intros o Ho. assert (o ∈ editors p0) as Ho' by (by destruct e). assert (contents (files_update e p0) = contents p0) as -> by (by destruct e).
    split; by apply Hp.
  - constructor; cbn [page_snapshot page_params editors contents file_becomes].
    + intros o (o' & -> & Ho)%list_elem_of_fmap. destruct (serve_shape k f o') as [-> ->]. by apply Hp.
    + rewrite serve_mounts. apply Hp.
    + intros o Ho. apply (serve_ok k f (editors p0) (contents p0)); [|done]. intros x Hx. split; [intros _|]; by apply Hp.
    + intros o Ho. apply (serve_ok k f (editors p0) (contents p0)); [|done]. intros x Hx. split; [intros _|]; by apply Hp.
  - assert (o ∈ editors p0) as Hin by (by apply list_elem_of_lookup_2 in Hi).
    set (o' := {| open_key := open_key o; mounted := mounted o; editor := w |}).
    assert (∀ x, x ∈ <[i := o']> (editors p0) → x = o' ∨ x ∈ editors p0) as Hset.
    { intros x (j & Hj)%list_elem_of_lookup. destruct (decide (i = j)) as [<-|Hne].
      - rewrite list_lookup_insert_eq in Hj by (by eapply lookup_lt_Some). left. by injection Hj.
      - rewrite list_lookup_insert_ne in Hj by done. right. by eapply list_elem_of_lookup_2. }
    assert (∀ x, x ∈ <[i := o']> (editors p0) → (open_key x ≠ open_key o → server (editor x) = content_of (open_key x) (contents p0)) ∧
      ∃ f, editor_reachable f (editor x)) as Hgood.
    { intros x [->|Hx]%Hset; [|split; [intros _|]; by apply Hp]. split; [done|]. destruct (ok_editor p0 Hp o Hin) as [f0 Hr].
      exists f0. by eapply editor_next. }
    constructor; cbn [page_snapshot page_params editors contents file_becomes set_editor]; fold o'.
    + intros x (y & -> & Hy)%list_elem_of_fmap. destruct (serve_shape (open_key o) (server w) y) as [-> ->].
      destruct (Hset y Hy) as [->|Hy']; [exact (ok_mounted p0 Hp o Hin)|exact (ok_mounted p0 Hp y Hy')].
    + rewrite serve_mounts, (set_mounts i o o') by done. apply Hp.
    + intros x Hx. by apply (serve_ok (open_key o) (server w) _ (contents p0) Hgood x Hx).
    + intros x Hx. by apply (serve_ok (open_key o) (server w) _ (contents p0) Hgood x Hx).
Qed.

Lemma files_reachable_ok p : files_reachable p → files_ok p.
Proof. induction 1 as [params snapshot is_narrow files|p p' _ IH Hm]; [apply opened_ok|by apply (moves_ok p)]. Qed.

(** ** Theorems *)

(** Every editor keeps to its own file. Whatever files and scopes are opened
    and left, whatever snapshots arrive, whoever else changes files, and with
    the operations of editors that were left still going on: exactly one
    viewer is on the page, of the file shown, when one is; each editor, left or
    not, works on what its own file holds; and each write on its way is of an
    editor that read the file whole and found the text its draft was based
    on. *)
Theorem editors_keep_to_files p (Hp : files_reachable p) :
  (∀ o, o ∈ editors p → mounted o = true → ∃ f, shown (page_snapshot p) (page_params p) = Some f ∧ view_key f = open_key o) ∧
  length (js_filter mounted (editors p)) = (if bool_decide (shown (page_snapshot p) (page_params p) = None) then 0 else 1)%nat ∧
  (∀ o, o ∈ editors p → server (editor o) = content_of (open_key o) (contents p)) ∧
  (∀ o c e, o ∈ editors p → PendingWrite c e ∈ pending (editor o) → c ∈ seen (editor o) ∧ ∃ dr, mode (view (editor o)) = Editing c dr).
Proof.
  pose proof (files_reachable_ok p Hp) as [H1 H2 H3 H4]. split_and!; [done..|].
  intros o c e Ho Hw. destruct (H4 o Ho) as [f Hr]. destruct (editor_reachable_ok f _ Hr) as [Hm Hops _ _].
  destruct (Hops _ Hw) as [dr Hmode]. rewrite Hmode in Hm. split; [exact Hm|by exists dr].
Qed.

Lemma files_commit_target p : shown (page_snapshot (files_commit p)) (page_params (files_commit p)) = shown (page_snapshot p) (page_params p).
Proof. apply clear_session_shown. Qed.

Lemma files_commit_shows p f :
  shown (page_snapshot p) (page_params p) = Some f → (∀ o, o ∈ editors p → is_shown (view_key f) o = false) →
  editors (files_commit p) = (leave_editor <$> editors p) ++ [new_editor (view_key f) (contents p)].
Proof.
  intros Hf Hnone. unfold files_commit. cbn [at_files_address editors page_snapshot page_params contents].
  rewrite clear_session_shown, Hf. cbn [show_file]. apply js_some_none in Hnone. rewrite Hnone.
  replace (js_some _ (_ ++ _)) with true; [done|]. symmetry. apply js_some_exists. exists (new_editor (view_key f) (contents p)).
  split; [apply elem_of_app; right; by left|]. unfold is_shown. cbn. by rewrite bool_decide_true.
Qed.

Lemma show_keeps target files es o : o ∈ es → ∃ o', o' ∈ show_file target files es ∧ open_key o' = open_key o ∧ editor o' = editor o.
Proof.
  intros Ho. assert (leave_editor o ∈ leave_editor <$> es) as Hl by (apply list_elem_of_fmap; by exists o).
  destruct target as [f|]; cbn [show_file]; [|by exists (leave_editor o)].
  destruct (js_some _ es); [by exists o|]. exists (leave_editor o). split; [|done]. apply elem_of_app. by left.
Qed.

Lemma commit_keeps p o : o ∈ editors p → ∃ o', o' ∈ editors (files_commit p) ∧ open_key o' = open_key o ∧ editor o' = editor o.
Proof.
  intros Ho. destruct (show_keeps (shown (page_snapshot p) (page_params p)) (contents p) _ _ Ho) as (o1 & Ho1 & <- & <-).
  by apply show_keeps.
Qed.

(** Leaving a file gives up its draft. When the page goes from a file to
    another, to the same one in another scope, or to none, and back, whatever
    was typed in its editor is gone from the page: the editor there is a new
    one, which loads the file as it was; nothing was asked nor written, and the
    draft stays with an editor that is no longer shown. *)
Theorem left_draft_lost p e e' f (Hp : files_reachable p)
    (Hleft : ∀ f', shown (page_snapshot (files_step e p)) (page_params (files_step e p)) = Some f' → view_key f' ≠ view_key f)
    (Hback : shown (page_snapshot (files_step e' (files_step e p))) (page_params (files_step e' (files_step e p))) = Some f) :
  let back := files_step e' (files_step e p) in
  js_filter mounted (editors back) = [new_editor (view_key f) (contents p)] ∧ contents back = contents p ∧
  (∀ o, o ∈ editors p → ∃ o', o' ∈ editors back ∧ open_key o' = open_key o ∧ editor o' = editor o).
Proof.
  assert (∀ e p, contents (files_step e p) = contents p) as Hcontents by (by intros []).
  assert (∀ e p, editors (files_update e p) = editors p) as Heditors by (by intros []).
  pose proof (moves_ok p _ (files_reachable_ok p Hp) (files_event_step e p)) as Hok. set (p1 := files_step e p) in *.
  unfold files_step in Hback. rewrite files_commit_target in Hback.
  assert (editors (files_step e' p1) = (leave_editor <$> editors p1) ++ [new_editor (view_key f) (contents p)]) as Hes.
  { unfold files_step. rewrite (files_commit_shows _ f Hback), Heditors.
    - assert (contents (files_update e' p1) = contents p) as ->; [|done]. transitivity (contents p1); [by destruct e'|apply Hcontents].
    - intros o Ho. rewrite Heditors in Ho. unfold is_shown. destruct (mounted o) eqn:Hm; [|done].
      destruct (ok_mounted p1 Hok o Ho Hm) as (f' & Hf' & Hk). apply bool_decide_eq_false. specialize (Hleft f' Hf'). congruence. }
  intros back. subst back. rewrite Hes. split_and!; [|by rewrite Hcontents; apply Hcontents|].
  - rewrite js_filter_app. replace (js_filter mounted (leave_editor <$> editors p1)) with (@nil open_file); [done|].
    symmetry. apply nil_length_inv. apply mounts_left.
  - intros o Ho. destruct (commit_keeps (files_update e p) o) as (o1 & Ho1 & Hk1 & He1); [by rewrite Heditors|].
    exists (leave_editor o1). split; [|done]. apply elem_of_app. left. apply list_elem_of_fmap. by exists o1.
Qed.

End files.

#[local] Existing Instance lf_text.

(** A file of a session, opened, edited and typed in. *)
Definition example_files_page : files_page :=
  opened_at [(PATH, js "a.txt"); (SESSION, js "s1")] (Some example_files) false {[ js "s1:a.txt" := js "one" ]}.

Definition edit_first (f : editor_world → editor_world) (p : files_page) : files_page :=
  match editors p with
  | o :: _ => file_becomes (open_key o) (server (f (editor o))) (set_editor 0 o (f (editor o)) p)
  | [] => p
  end.

Definition example_read_whole : WholeFile := example_whole (js "one").

Definition begins_edit (w : editor_world) : editor_world :=
  editor_state (set_busy (view w) true) (server w) (PendingEdit :: pending w) (typed w) (seen w).
Definition reads_whole (w : editor_world) : editor_world :=
  editor_state (commit_view (view w) (edit_settles (Returns example_read_whole) (view w))) (server w) (tail (pending w)) (typed w) (server w :: seen w).
Definition types_two (w : editor_world) : editor_world :=
  editor_state (set_doc (view w) (doc_text (js "two"))) (server w) (pending w) (Some (doc_text (js "two"))) (seen w).

Definition example_drafted : files_page := edit_first types_two (edit_first reads_whole (edit_first begins_edit example_files_page)).

Lemma edit_first_reachable f p o os :
  files_reachable p → editors p = o :: os → mounted o = true → editor_step (editor o) (f (editor o)) → files_reachable (edit_first f p).
Proof.
  intros Hp Hes Hm Hstep. unfold edit_first. rewrite Hes. eapply files_next; [exact Hp|].
  apply (files_edits 0 o); [by rewrite Hes|done|by left].
Qed.

Lemma example_drafted_reachable : files_reachable example_drafted.
Proof.
  eapply edit_first_reachable; [eapply edit_first_reachable; [eapply edit_first_reachable; [apply files_init|reflexivity|done|]|reflexivity|done|]|reflexivity|done|].
  - by apply editor_edit.
  - by apply (editor_edit_settles example_read_whole []).
  - by eapply (editor_types (js "two")).
Qed.

Lemma editors_keep_to_files_witness :
  ∃ o, o ∈ editors example_drafted ∧ mounted o = true ∧ typed (editor o) = Some (js "two") ∧ server (editor o) = js "one".
Proof.
  destruct (editors example_drafted) as [|o os] eqn:Hes; [by vm_compute in Hes|]. exists o.
  assert (o ∈ editors example_drafted) as Ho by (rewrite Hes; by left).
  pose proof (proj1 (proj2 (proj2 (editors_keep_to_files example_drafted example_drafted_reachable))) o Ho) as Hserver.
  rewrite Hserver. clear Hserver. split; [by left|]. vm_compute in Hes. injection Hes as <- _. split_and!; by vm_compute.
Defined.

Lemma left_draft_lost_witness :
  js_filter mounted (editors (files_step (SelectFile (js "a.txt")) (files_step (SelectFile (js "b.txt")) example_drafted))) =
    [new_editor (js "s1:a.txt") {[ js "s1:a.txt" := js "one" ]}].
Proof.
  refine (proj1 (left_draft_lost example_drafted (SelectFile (js "b.txt")) (SelectFile (js "a.txt"))
    {| shown_path := js "a.txt"; shown_session := Some (js "s1"); blameOn := false; view_key := js "s1:a.txt" |}
    example_drafted_reachable _ _)).
  - intros f' Hf'. vm_compute in Hf'. injection Hf' as <-. decide_closed.
  - by vm_compute.
Defined.
