(* ===== verification/EditorPane.v ===== *)
(** The editor of a file ([web/src/pages/sandbox/files/FileView.tsx], with the
    gutter of [blame.ts]): the one view of the editor library that the page
    makes, where it stands on the page, and how the effect keeps its text, its
    line numbers, its editability and its gutter in step.

    The library's view is the record of what it was configured with; [parent] is
    the element it was made in. *)
From S2P Require Import Prelude JsText Uri Files Blame FileView.

#[export] Instance BlameRange_eq_dec : EqDecision BlameRange.
Proof. solve_decision. Defined.

(** ** The view *)

(** [blameGutter(ranges, windowStart, onOwnerClick)], where the callback is of
    the sandbox of the render that made it. *)
Record blame_gutter := { gutter_ranges : list BlameRange; gutter_first : Z; gutter_sandbox : jsstr }.

Record code_editor := {
  code_text : jsstr;
  first_line : Z;
  is_editable : bool;
  code_gutter : option blame_gutter;
  parent : nat;
}.

(** [lineNumbers], and the chip and the click of a line of the document. *)
Definition formatNumber (c : code_editor) (line : Z) : Z := line + first_line c - 1.

Definition line_chip (c : code_editor) (line : Z) : option BlameOwnerInfo :=
  code_gutter c ≫= λ g, lineMarker (gutter_ranges g) (gutter_first g) line.

Definition chip_click (c : code_editor) (line : Z) : option (option jsstr) :=
  code_gutter c ≫= λ g, (gutter_click (gutter_ranges g) (gutter_first g) line).1 ≫= owner_target (gutter_sandbox g).

(** ** The page around it *)

(** What a render is made of. *)
Record editor_props := {
  props_view : file_view;
  props_blame : option (list BlameRange);
  props_blameOn : bool;
  props_session : option jsstr;
  props_sandbox : jsstr;
}.

(** The text shown; a binary file and one that is not loaded have none, and no
    element for the editor. *)
Definition text_shown (r : editor_props) : option LoadedText :=
  match loaded (props_view r) with Some l => if binary l then None else Some l | None => None end.

Definition editable_of (r : editor_props) : bool := match mode (props_view r) with Editing _ _ => true | _ => false end.

(** [blameKey]: the ranges of the gutter, which their JSON text tells apart. *)
Definition blame_key (r : editor_props) : option (list BlameRange) :=
  if props_blameOn r && bool_decide (props_session r = None) then props_blame r else None.

Definition gutter_of (r : editor_props) (l : LoadedText) : option blame_gutter :=
  (λ ranges, {| gutter_ranges := ranges; gutter_first := startLine l; gutter_sandbox := props_sandbox r |}) <$> blame_key r.

Record EditorMeta := { meta_startLine : Z; meta_editable : bool; meta_blameKey : option (list BlameRange); meta_mode : Mode }.

(** The element of the editor, numbered anew when it is put on the page again;
    the view; and what the effect last gave it. *)
Record editor_pane := { host : option nat; hosts : nat; code : option code_editor; meta : option EditorMeta }.

Definition initial_editor_pane : editor_pane := {| host := None; hosts := 0; code := None; meta := None |}.

Definition place_host (r : editor_props) (p : editor_pane) : editor_pane :=
  match text_shown r, host p with
  | None, _ => {| host := None; hosts := hosts p; code := code p; meta := meta p |}
  | Some _, Some _ => p
  | Some _, None => {| host := Some (hosts p); hosts := S (hosts p); code := code p; meta := meta p |}
  end.

Definition meta_of (r : editor_props) (l : LoadedText) : EditorMeta :=
  {| meta_startLine := startLine l; meta_editable := editable_of r; meta_blameKey := blame_key r; meta_mode := mode (props_view r) |}.

Section pane.
Context {D : DocumentText}.

Definition make_editor (h : nat) (r : editor_props) (l : LoadedText) : code_editor :=
  {| code_text := doc_text (nextDocument None (props_view r) l); first_line := startLine l; is_editable := editable_of r;
     code_gutter := gutter_of r l; parent := h |}.

(** The compartments whose setting changed are reconfigured. *)
Definition update_editor (m : EditorMeta) (r : editor_props) (l : LoadedText) (c : code_editor) : code_editor :=
  let next := nextDocument (Some (meta_mode m)) (set_doc (props_view r) (code_text c)) l in
  {| code_text := dispatch_document (code_text c) next;
     first_line := if meta_startLine m =? startLine l then first_line c else startLine l;
     is_editable := if Bool.eqb (meta_editable m) (editable_of r) then is_editable c else editable_of r;
     code_gutter := if bool_decide (meta_blameKey m = blame_key r) then code_gutter c else gutter_of r l;
     parent := parent c |}.

Definition editor_effect (r : editor_props) (p : editor_pane) : editor_pane :=
  match host p, text_shown r with
  | Some h, Some l =>
      {| host := host p; hosts := hosts p;
         code := Some (match code p, meta p with Some c, Some m => update_editor m r l c | _, _ => make_editor h r l end);
         meta := Some (meta_of r l) |}
  | _, _ => p
  end.

Definition editor_commit (r : editor_props) (p : editor_pane) : editor_pane := editor_effect r (place_host r p).

(** ** The pane over time *)

Record editor_page := { props : editor_props; pane : editor_pane }.

Inductive editor_event :=
  | ViewChanges (v : file_view)
  | OpensFile (sandbox : jsstr) (session : option jsstr) (on : bool)
  | BlameArrives (ranges : list BlameRange)
  | TypesText (t : jsstr).

Definition commit_props (r : editor_props) (p : editor_page) : editor_page := {| props := r; pane := editor_commit r (pane p) |}.

Definition with_blame (b : option (list BlameRange)) (r : editor_props) : editor_props :=
  {| props_view := props_view r; props_blame := b; props_blameOn := props_blameOn r; props_session := props_session r;
     props_sandbox := props_sandbox r |}.

(** The file of another sandbox, session or scope is first rendered with the
    blame held; the effect of the blame then drops it, which renders again. *)
Definition editor_page_step (p : editor_page) (e : editor_event) : editor_page :=
  let r := props p in
  match e with
  | ViewChanges v =>
      commit_props {| props_view := v; props_blame := props_blame r; props_blameOn := props_blameOn r; props_session := props_session r;
                      props_sandbox := props_sandbox r |} p
  | OpensFile sandbox session on =>
      let r := {| props_view := props_view r; props_blame := props_blame r; props_blameOn := on; props_session := session;
                  props_sandbox := sandbox |} in
      commit_props (with_blame None r) (commit_props r p)
  | BlameArrives ranges => commit_props (with_blame (Some ranges) r) p
  | TypesText t =>
      match code (pane p) with
      | Some c => if is_editable c
                  then {| props := r;
                          pane := {| host := host (pane p); hosts := hosts (pane p);
                                     code := Some {| code_text := doc_text t; first_line := first_line c; is_editable := is_editable c;
                                                     code_gutter := code_gutter c; parent := parent c |};
                                     meta := meta (pane p) |} |}
                  else p
      | None => p
      end
  end.

Definition opened_editor (sandbox : jsstr) (session : option jsstr) (on : bool) : editor_page :=
  commit_props {| props_view := initial_view; props_blame := None; props_blameOn := on; props_session := session; props_sandbox := sandbox |}
    {| props := {| props_view := initial_view; props_blame := None; props_blameOn := on; props_session := session; props_sandbox := sandbox |};
       pane := initial_editor_pane |}.

Definition editor_run (sandbox : jsstr) (session : option jsstr) (on : bool) (es : list editor_event) : editor_page :=
  foldl editor_page_step (opened_editor sandbox session on) es.

(** ** Facts *)

(** The events of a page whose first windows begin at line one. *)
Definition from_line_one (e : editor_event) : Prop :=
  match e with ViewChanges v => ∀ l, loaded v = Some l → startLine l = 1 | _ => True end.

Definition never_binary (e : editor_event) : Prop :=
  match e with ViewChanges v => ∃ l, loaded v = Some l ∧ binary l = false | _ => True end.

(** What is configured is what the render asks for, when it shows a text; the
    meta is what is configured; the elements made are numbered in order. *)
Record editor_page_ok (p : editor_page) : Prop := {
  po_line : ∀ l, loaded (props_view (props p)) = Some l → startLine l = 1;
  po_meta : ∀ m, meta (pane p) = Some m → meta_startLine m = 1 ∧ ∃ c, code (pane p) = Some c ∧ first_line c = 1 ∧ is_editable c = meta_editable m ∧
              gutter_ranges <$> code_gutter c = meta_blameKey m ∧ (∀ g, code_gutter c = Some g → gutter_first g = 1);
  po_shown : ∀ l, text_shown (props p) = Some l → meta (pane p) = Some (meta_of (props p) l) ∧ ∃ h, host (pane p) = Some h;
  po_none : text_shown (props p) = None → host (pane p) = None;
  po_code : meta (pane p) = None → code (pane p) = None;
  po_hosts : ∀ h, host (pane p) = Some h → (h < hosts (pane p))%nat;
  po_parent : ∀ c, code (pane p) = Some c → (parent c < hosts (pane p))%nat;
}.

Lemma effect_code h r p l :
  host p = Some h → text_shown r = Some l → startLine l = 1 →
  (meta p = None → code p = None) →
  (∀ m, meta p = Some m → meta_startLine m = 1 ∧ ∃ c, code p = Some c ∧ first_line c = 1 ∧ is_editable c = meta_editable m ∧
     gutter_ranges <$> code_gutter c = meta_blameKey m ∧ (∀ g, code_gutter c = Some g → gutter_first g = 1)) →
  ∃ c, code (editor_effect r p) = Some c ∧ first_line c = 1 ∧ is_editable c = editable_of r ∧
    gutter_ranges <$> code_gutter c = blame_key r ∧ (∀ g, code_gutter c = Some g → gutter_first g = 1).
Proof.
  intros Hh Hl H1 Hnone Hmeta. unfold editor_effect. rewrite Hh, Hl. cbn [code]. destruct (meta p) as [m|] eqn:Hm.
  - destruct (Hmeta m eq_refl) as (Hm1 & c & -> & Hf & He & Hg & Hgf). eexists. split; [done|]. unfold update_editor.
    cbn [first_line is_editable code_gutter]. rewrite Hm1, H1, Z.eqb_refl. split_and!; [done| | |].
    + destruct (Bool.eqb _ _) eqn:Heq; [|done]. apply eqb_prop in Heq. congruence.
    + destruct (bool_decide_reflect (meta_blameKey m = blame_key r)); [congruence|]. unfold gutter_of. by destruct (blame_key r).
    + destruct (bool_decide_reflect (meta_blameKey m = blame_key r)); [done|]. unfold gutter_of. rewrite H1.
      destruct (blame_key r); cbn; [|done]. by intros g [= <-].
  - rewrite Hnone by done. eexists. split; [done|]. unfold make_editor, gutter_of. cbn. rewrite H1. split_and!; [done|done|by destruct (blame_key r)|].
    destruct (blame_key r); cbn; [|done]. by intros g [= <-].
Qed.

Lemma editor_commit_ok r p :
  editor_page_ok p → (∀ l, loaded (props_view r) = Some l → startLine l = 1) → editor_page_ok (commit_props r p).
Proof.
  intros Hp Hone. destruct (text_shown r) as [l|] eqn:Hl.
  - assert (∃ h, host (place_host r (pane p)) = Some h ∧ (h < hosts (place_host r (pane p)))%nat ∧
      code (place_host r (pane p)) = code (pane p) ∧ meta (place_host r (pane p)) = meta (pane p) ∧
      (hosts (pane p) ≤ hosts (place_host r (pane p)))%nat) as (h & Hh & Hlt & Hcode & Hmeta & Hle).
    { unfold place_host. rewrite Hl. destruct (host (pane p)) as [h|] eqn:Hh.
      - exists h. split_and!; try done. by apply Hp.
      - exists (hosts (pane p)). cbn. split_and!; try done; lia. }
    assert (startLine l = 1) as H1.
    { unfold text_shown in Hl. destruct (loaded (props_view r)) as [l'|] eqn:Hl'; [|done]. destruct (binary l'); [done|]. injection Hl as ->. by apply Hone. }
    destruct (effect_code h r (place_host r (pane p)) l Hh Hl H1) as (c & Hc & Hf & He & Hg & Hgf).
    { rewrite Hcode, Hmeta. apply Hp. }
    { rewrite Hcode, Hmeta. apply Hp. }
    assert (meta (editor_commit r (pane p)) = Some (meta_of r l) ∧ host (editor_commit r (pane p)) = Some h ∧
      hosts (editor_commit r (pane p)) = hosts (place_host r (pane p))) as (Hm & Hh' & Hhs).
    { unfold editor_commit, editor_effect. by rewrite Hh, Hl. }
    constructor; cbn [commit_props props pane]; [done| | | | | |].
    + rewrite Hm. intros m [= <-]. cbn. split; [done|]. by exists c.
    + rewrite Hl. intros l' [= <-]. split; [exact Hm|]. by exists h.
    + by rewrite Hl.
    + by rewrite Hm.
    + rewrite Hh', Hhs. by intros h' [= <-].
    + rewrite Hhs. unfold editor_commit, editor_effect. rewrite Hh, Hl. cbn [code]. rewrite Hcode, Hmeta. intros c'.
      destruct (code (pane p)) as [c0|] eqn:Hc0, (meta (pane p)); intros [= <-]; cbn [parent update_editor make_editor]; [|done..].
      pose proof (po_parent p Hp c0 Hc0). lia.
  - assert (editor_commit r (pane p) = {| host := None; hosts := hosts (pane p); code := code (pane p); meta := meta (pane p) |}) as Heq.
    { unfold editor_commit, editor_effect, place_host. rewrite Hl. reflexivity. }
    constructor; cbn [commit_props props pane]; rewrite ?Heq; cbn [host hosts code meta]; [done|apply Hp|by rewrite Hl|done|apply Hp|done|apply Hp].
Qed.

Lemma editor_page_step_ok p e : editor_page_ok p → from_line_one e → editor_page_ok (editor_page_step p e).
Proof.
  intros Hp He. destruct e as [v|sandbox session on|ranges|t]; cbn [editor_page_step].
  - by apply editor_commit_ok.
  - apply editor_commit_ok; [apply editor_commit_ok; [done|]|]; cbn; apply Hp.
  - apply editor_commit_ok; [done|]. cbn. apply Hp.
  - destruct (code (pane p)) as [c|] eqn:Hc; [|done]. destruct (is_editable c) eqn:Hed; [|done].
    pose proof (po_parent p Hp c Hc) as Hpar. constructor; cbn [props pane host hosts code meta]; try apply Hp.
    + intros m Hm. destruct (po_meta p Hp m Hm) as (Hm1 & c' & Hc' & H'). split; [done|]. rewrite Hc in Hc'. injection Hc' as <-.
      eexists. split; [done|]. cbn. by rewrite Hed in H'.
    + intros Hm. apply Hp in Hm. congruence.
    + by intros c' [= <-].
Qed.

Lemma opened_editor_ok sandbox session on : editor_page_ok (opened_editor sandbox session on).
Proof. by constructor. Qed.

Lemma editor_run_ok sandbox session on es : Forall from_line_one es → editor_page_ok (editor_run sandbox session on es).
Proof.
  intros Hes. unfold editor_run. generalize (opened_editor_ok sandbox session on). generalize (opened_editor sandbox session on).
  induction Hes as [|e es He _ IH]; intros p Hp; [done|]. apply IH. by apply editor_page_step_ok.
Qed.

(** While no binary file is shown the editor stands on the page, and its gutter
    leads where the page is. *)
Record standing (p : editor_page) : Prop := {
  st_host : ∀ c, code (pane p) = Some c → host (pane p) = Some (parent c);
  st_text : is_Some (code (pane p)) → is_Some (text_shown (props p));
}.

Definition leads_here (p : editor_page) : Prop :=
  ∀ c g, code (pane p) = Some c → code_gutter c = Some g → gutter_sandbox g = props_sandbox (props p).

Lemma place_host_text r p l :
  text_shown r = Some l → ∃ h, host (place_host r p) = Some h ∧ code (place_host r p) = code p ∧ meta (place_host r p) = meta p ∧
    (∀ h', host p = Some h' → h = h').
Proof.
  intros Hl. unfold place_host. rewrite Hl. destruct (host p) as [h|] eqn:Hh; [exists h; rewrite Hh; by split_and!; [..|intros h' [= <-]]|].
  by exists (hosts p).
Qed.

Lemma commit_shape r p :
  editor_page_ok p → standing p → (is_Some (code (pane p)) → is_Some (text_shown r)) →
  standing (commit_props r p) ∧
  ∀ c g, code (editor_commit r (pane p)) = Some c → code_gutter c = Some g →
    blame_key r ≠ None ∧ (gutter_sandbox g = props_sandbox r ∨ ∃ c0, code (pane p) = Some c0 ∧ code_gutter c0 = Some g).
Proof.
  intros Hok [Hhost Htext] Hkeep. destruct (text_shown r) as [l|] eqn:Hl.
  2: { assert (code (pane p) = None) as Hnone. { destruct (code (pane p)); [|done]. by destruct (Hkeep (ex_intro _ _ eq_refl)). }
       split; [split|]; unfold commit_props, editor_commit, editor_effect, place_host; cbn [pane props]; rewrite Hl; cbn; rewrite Hnone;
         [done|by intros []|done]. }
  destruct (place_host_text r (pane p) l Hl) as (h & Hh & Hcode & Hmeta & Hsame).
  assert (∀ c, code (editor_commit r (pane p)) = Some c → parent c = h ∧ ∀ g, code_gutter c = Some g →
    blame_key r ≠ None ∧ (gutter_sandbox g = props_sandbox r ∨ ∃ c0, code (pane p) = Some c0 ∧ code_gutter c0 = Some g)) as Hc.
  { unfold editor_commit, editor_effect. rewrite Hh, Hl, Hcode, Hmeta. cbn [code]. intros c [= <-].
    destruct (code (pane p)) as [c0|] eqn:Hc0, (meta (pane p)) as [m|] eqn:Hm.
    - cbn [update_editor parent code_gutter]. specialize (Hhost c0 eq_refl). split; [specialize (Hsame _ Hhost); congruence|].
      destruct (po_meta p Hok m Hm) as (_ & c1 & Hc1 & _ & _ & Hr & _). rewrite Hc0 in Hc1. injection Hc1 as <-.
      destruct (bool_decide_reflect (meta_blameKey m = blame_key r)) as [Hk|Hk]; intros g Hg.
      + split; [rewrite <- Hk, <- Hr, Hg; done|]. right. by exists c0.
      + unfold gutter_of in Hg. destruct (blame_key r); [|done]. injection Hg as <-. split; [done|by left].
    - pose proof (po_code p Hok Hm). congruence.
    - destruct (po_meta p Hok m Hm) as (_ & c1 & Hc1 & _). congruence.
    - split; [done|]. unfold make_editor, gutter_of. cbn [code_gutter]. intros g Hg. destruct (blame_key r); [|done]. injection Hg as <-.
      split; [done|by left]. }
  split; [split|].
  - intros c H. destruct (Hc c H) as [-> _]. unfold commit_props, editor_commit, editor_effect. cbn [pane]. by rewrite Hh, Hl.
  - intros _. by exists l.
  - intros c g H Hg. destruct (Hc c H) as [_ Hgut]. by apply Hgut.
Qed.

Lemma never_binary_text e p : never_binary e → standing p → is_Some (code (pane p)) → is_Some (text_shown (props (editor_page_step p e))).
Proof.
  intros He Hp Hc. destruct e as [v| | |t]; cbn [editor_page_step commit_props props]; [|by apply Hp..|].
  - destruct He as (l & Hl & Hb). unfold text_shown. cbn. by rewrite Hl, Hb.
  - destruct (code (pane p)) as [c|] eqn:Hcode; [destruct (is_editable c)|]; cbn [props]; apply Hp; by rewrite Hcode.
Qed.

Lemma standing_step p e :
  editor_page_ok p → from_line_one e → never_binary e → standing p ∧ leads_here p →
  standing (editor_page_step p e) ∧ leads_here (editor_page_step p e).
Proof.
  intros Hok He Hnb [Hst Hhere]. pose proof (never_binary_text e p Hnb Hst) as Htext. destruct e as [v|sandbox session on|ranges|t].
  - destruct (commit_shape _ p Hok Hst Htext) as [Hst' Hg]. split; [exact Hst'|]. intros c g Hc Hcg.
    destruct (Hg c g Hc Hcg) as [_ [?|(c0 & Hc0 & Hg0)]]; [done|]. by apply (Hhere c0 g).
  - cbn [editor_page_step]. set (r := {| props_view := _; props_blame := _ |}).
    destruct (commit_shape r p Hok Hst) as [Hst' _]; [apply Hst|].
    destruct (commit_shape (with_blame None r) (commit_props r p)) as [Hst2 Hg]; [apply editor_commit_ok; [done|apply Hok]|done|apply Hst'|].
    split; [exact Hst2|]. intros c g Hc Hcg. destruct (Hg c g Hc Hcg) as [Hkey _]. destruct Hkey. unfold blame_key. cbn. by destruct (_ && _).
  - destruct (commit_shape (with_blame (Some ranges) (props p)) p Hok Hst Htext) as [Hst' Hg]. split; [exact Hst'|]. intros c g Hc Hcg.
    destruct (Hg c g Hc Hcg) as [_ [?|(c0 & Hc0 & Hg0)]]; [done|]. by apply (Hhere c0 g).
  - cbn [editor_page_step]. destruct (code (pane p)) as [c|] eqn:Hc; [|done]. destruct (is_editable c); [|done]. split; [split|].
    + cbn. intros c' [= <-]. cbn. by apply Hst.
    + intros _. apply Hst. by rewrite Hc.
    + intros c' g. cbn. intros [= <-] Hg. by apply (Hhere c g).
Qed.

Lemma run_standing sandbox session on es :
  Forall from_line_one es → Forall never_binary es → standing (editor_run sandbox session on es) ∧ leads_here (editor_run sandbox session on es).
Proof.
  intros Hes Hnb. unfold editor_run. assert (editor_page_ok (opened_editor sandbox session on) ∧ standing (opened_editor sandbox session on) ∧
    leads_here (opened_editor sandbox session on)) as (Hok & Hst & Hh).
  { split; [apply opened_editor_ok|]. split; [split; [done|by intros []]|done]. }
  revert Hok Hst Hh. generalize (opened_editor sandbox session on). induction Hes as [|e es He _ IH]; intros p Hok Hst Hh; [done|].
  apply Forall_cons in Hnb as [Hb Hnb]. destruct (standing_step p e Hok He Hb (conj Hst Hh)) as [Hst' Hh'].
  apply (IH Hnb); [by apply editor_page_step_ok|done|done].
Qed.

(** The editor stands in an element that is no longer the page's. *)
Definition detached (p : editor_page) : Prop := ∃ c h, code (pane p) = Some c ∧ host (pane p) = Some h ∧ h ≠ parent c.

Lemma commit_keeps_code r p c :
  editor_page_ok p → code (pane p) = Some c → ∃ c', code (editor_commit r (pane p)) = Some c' ∧ parent c' = parent c.
Proof.
  intros Hok Hc. assert (code (place_host r (pane p)) = Some c ∧ meta (place_host r (pane p)) = meta (pane p)) as [Hc' Hm'].
  { unfold place_host. by destruct (text_shown r), (host (pane p)). }
  unfold editor_commit, editor_effect. rewrite Hc', Hm'. destruct (host _), (text_shown r); cbn; rewrite ?Hc'; eauto.
  destruct (meta (pane p)) eqn:Hm; [by eexists|]. pose proof (po_code p Hok Hm). congruence.
Qed.

Lemma commit_detached r p : editor_page_ok p → is_Some (text_shown r) → detached p → detached (commit_props r p).
Proof.
  intros Hok [l Hl] (c & h & Hc & Hh & Hne). destruct (commit_keeps_code r p c Hok Hc) as (c' & Hc' & Hpar).
  exists c', h. split_and!; [done| |by rewrite Hpar]. unfold commit_props, editor_commit, editor_effect, place_host. cbn [pane].
  rewrite Hl, Hh. by rewrite Hh.
Qed.

Lemma detached_step p e :
  editor_page_ok p → from_line_one e → never_binary e → is_Some (text_shown (props p)) → detached p →
  is_Some (text_shown (props (editor_page_step p e))) ∧ detached (editor_page_step p e).
Proof.
  intros Hok He Hnb Htext Hd. destruct e as [v|sandbox session on|ranges|t]; cbn [editor_page_step].
  - destruct Hnb as (l & Hl & Hb). assert (∀ r, props_view r = v → is_Some (text_shown r)) as Hv.
    { intros r <-. unfold text_shown. by rewrite Hl, Hb. }
    split; [by apply Hv|]. apply commit_detached; [done|by apply Hv|done].
  - split; [exact Htext|]. apply commit_detached; [|exact Htext|by apply commit_detached]. apply editor_commit_ok; [done|apply Hok].
  - split; [exact Htext|]. by apply commit_detached.
  - destruct Hd as (c & h & Hc & Hh & Hne). rewrite Hc. destruct (is_editable c); (split; [exact Htext|]); [|by exists c, h].
    by eexists _, h.
Qed.

(** ** Theorems *)

(** C14: The editor is set up as the page says. However the file is loaded, paged,
    edited, saved and found in conflict, whatever is typed, whatever blame
    arrives, and whatever sandboxes the page is reused for: when a text is
    shown, the editor accepts typing exactly in the editing mode, numbers the
    lines as the file does, and has a gutter exactly when the blame is shown;
    and as long as no binary file came between, it stands on the page, the chip
    of each line is that of the line's owner in the blame held, and a click on
    it leads to a page of the sandbox shown. *)
Theorem editor_set_up sandbox session on es l (Hes : Forall from_line_one es)
    (Hl : text_shown (props (editor_run sandbox session on es)) = Some l) :
  let p := editor_run sandbox session on es in
  ∃ c, code (pane p) = Some c ∧ is_editable c = editable_of (props p) ∧ (∀ line, formatNumber c line = startLine l + line - 1) ∧
    gutter_ranges <$> code_gutter c = blame_key (props p) ∧
    (Forall never_binary es →
     host (pane p) = Some (parent c) ∧
     (∀ line, line_chip c line = blame_key (props p) ≫= λ ranges, lineMarker ranges (startLine l) line) ∧
     (∀ line, chip_click c line = blame_key (props p) ≫= λ ranges,
        (gutter_click ranges (startLine l) line).1 ≫= owner_target (props_sandbox (props p)))).
Proof.
  cbv zeta. pose proof (editor_run_ok sandbox session on es Hes) as Hok. set (p := editor_run sandbox session on es) in *.
  destruct (po_shown p Hok l Hl) as [Hm _]. destruct (po_meta p Hok _ Hm) as (H1 & c & Hc & Hf & He & Hg & Hgf). cbn in H1, He, Hg.
  exists c. split; [done|]. split; [done|]. split; [intros line; unfold formatNumber; lia|]. split; [done|]. intros Hnb.
  destruct (run_standing sandbox session on es Hes Hnb) as [[Hhost _] Hhere]. fold p in Hhost, Hhere. split; [by apply Hhost|].
  unfold line_chip, chip_click. rewrite <- Hg, H1. destruct (code_gutter c) as [g|] eqn:Hcg; [|done]. cbn.
  rewrite (Hgf g eq_refl), (Hhere c g Hc Hcg). done.
Qed.

(** After a binary file the pane is empty. The page that is reused for a
    binary file takes the editor's element away, and keeps the editor; reused
    for a text again it makes a new element, and goes on configuring the editor
    that stands in the old one: nothing is shown of the text, and nothing that
    happens later, short of leaving the file, changes that. *)
Theorem text_after_binary_blank sandbox session on es binary_view text_view es' l
    (Hes : Forall from_line_one es) (Hes' : Forall from_line_one es') (Hnb : Forall never_binary es')
    (Hb : text_shown (props (editor_page_step (editor_run sandbox session on es) (ViewChanges binary_view))) = None)
    (Hshown : is_Some (code (pane (editor_run sandbox session on es))))
    (Hbl : from_line_one (ViewChanges binary_view)) (Ht : loaded text_view = Some l) (Htext : binary l = false) (H1 : startLine l = 1) :
  let p := editor_run sandbox session on (es ++ ViewChanges binary_view :: ViewChanges text_view :: es') in
  ∃ c h, code (pane p) = Some c ∧ host (pane p) = Some h ∧ h ≠ parent c.
Proof.
  pose proof (editor_run_ok sandbox session on es Hes) as Hok. cbv zeta. unfold editor_run. rewrite foldl_app. fold (editor_run sandbox session on es).
  set (p0 := editor_run sandbox session on es) in *. cbn [foldl]. pose proof (editor_page_step_ok p0 _ Hok Hbl) as Hok1.
  destruct Hshown as [c Hc]. set (p1 := editor_page_step p0 (ViewChanges binary_view)) in *.
  destruct (commit_keeps_code _ p0 c Hok Hc : ∃ c', code (pane p1) = Some c' ∧ parent c' = parent c) as (c1 & Hc1 & _).
  assert (from_line_one (ViewChanges text_view)) as Hone by (intros l'; cbn; congruence).
  pose proof (editor_page_step_ok p1 _ Hok1 Hone) as Hok2.
  assert (is_Some (text_shown (props (editor_page_step p1 (ViewChanges text_view)))) ∧ detached (editor_page_step p1 (ViewChanges text_view))) as [Htext2 Hd].
  { assert (∀ r, props_view r = text_view → text_shown r = Some l) as Hv by (intros r <-; unfold text_shown; by rewrite Ht, Htext).
    split; [by exists l; apply Hv|]. cbn [editor_page_step]. set (r := {| props_view := text_view |}).
    destruct (commit_keeps_code r p1 c1 Hok1 Hc1) as (c2 & Hc2 & Hpar). exists c2, (hosts (pane p1)). split_and!; [exact Hc2| |].
    - unfold commit_props, editor_commit, editor_effect, place_host. cbn [pane]. rewrite (Hv r eq_refl), (po_none p1 Hok1 Hb). done.
    - rewrite Hpar. pose proof (po_parent p1 Hok1 c1 Hc1). lia. }
  revert Hok2 Htext2 Hd. generalize (editor_page_step p1 (ViewChanges text_view)). clear - Hes' Hnb.
  induction Hes' as [|e es He _ IH]; intros p Hok Htext Hd; [done|]. apply Forall_cons in Hnb as [Hb Hnb].
  destruct (detached_step p e Hok He Hb Htext Hd) as [? ?]. apply (IH Hnb); [by apply editor_page_step_ok|done|done].
Qed.

End pane.

(** ** Examples *)

#[local] Existing Instance lf_text.

Definition example_text_view (t : jsstr) : file_view := set_loaded initial_view (Some (example_text t)).
Definition example_binary_view : file_view := set_loaded initial_view (Some binary_text).
Definition example_editor_events : list editor_event :=
  [ViewChanges (example_text_view (js "a")); BlameArrives [{| start_line := 1; line_count := 1; owner := js "workspace_session:s" |}]].

Lemma editor_set_up_witness :
  ∃ c, code (pane (editor_run (js "box") None true example_editor_events)) = Some c ∧ is_editable c = false ∧
    chip_click c 1 = Some (Some (js "/sandboxes/box/terminal?session=s")).
Proof.
  destruct (editor_set_up (js "box") None true example_editor_events (example_text (js "a"))) as (c & Hc & He & _ & _ & Hst).
  - repeat constructor; try done. intros l [= <-]. reflexivity.
  - reflexivity.
  - exists c. split; [exact Hc|]. split; [rewrite He; reflexivity|]. destruct Hst as (_ & _ & Hclick).
    { repeat constructor; try done. by eexists. }
    rewrite Hclick. by vm_compute.
Defined.

Lemma text_after_binary_blank_witness :
  ∃ c h, code (pane (editor_run (js "box") None true [ViewChanges (example_text_view (js "a")); ViewChanges example_binary_view; ViewChanges (example_text_view (js "b"))])) = Some c ∧
    host (pane (editor_run (js "box") None true [ViewChanges (example_text_view (js "a")); ViewChanges example_binary_view; ViewChanges (example_text_view (js "b"))])) = Some h ∧
    h ≠ parent c.
Proof.
  apply (text_after_binary_blank (js "box") None true [ViewChanges (example_text_view (js "a"))] example_binary_view (example_text_view (js "b")) [] (example_text (js "b"))).
  - repeat constructor. intros l [= <-]. reflexivity.
  - constructor.
  - constructor.
  - reflexivity.
  - by eexists.
  - intros l [= <-]. reflexivity.
  - reflexivity.
  - reflexivity.
  - reflexivity.
Defined.
