(* ===== verification/Charts.v ===== *)
(** The charts of the observability pages
    ([web/src/pages/sandbox/observability/ResourcesView.tsx],
    [DaemonCharts.tsx], [web/src/components/ResourceSparkline.tsx]): the
    columns given to the plotting library and the figures shown under them.

    [toLocaleString] is the browser's, by the number of fraction digits it is
    limited to; the drawing itself is the plotting library's. *)
From S2P Require Import Prelude JsNumber JsText NumText Types Observability Resources DaemonMetrics CaptureStore DaemonCapture Format Uri FilesTab.

(** ** Resource charts *)

Definition metric_number (v : option metric_value) : option number :=
  match v with Some (MNumber n) => Some n | _ => None end.

Definition MILLION : number := num_of_Z 1000000.

Definition cpu_value (s : ResourceSample) : option number :=
  let period := sample_delta_ms s ?? num_of_Z 1000 in
  match deltas s !! js "cpu_usec" with
  | Some delta => if num_ltb num_zero period then Some (num_div delta (num_mul period (num_of_Z 1000))) else None
  | None => None
  end.

Definition memory_value (s : ResourceSample) : option number :=
  (λ m, num_div m MILLION) <$> metric_number (metrics s !! js "mem_cur").

Definition io_value (s : ResourceSample) : option number :=
  match deltas s !! js "io_rbytes", deltas s !! js "io_wbytes" with
  | None, None => None
  | r, w => Some (num_add (r ?? num_zero) (w ?? num_zero))
  end.

Definition disk_value (s : ResourceSample) : option number := metric_number (metrics s !! js "disk_bytes").

Definition RESOURCE_CHARTS : list (jsstr * (ResourceSample → option number)) :=
  [(js "CPU (" ++ [916] ++ js " cpu_usec / s)", cpu_value); (js "Memory (MB)", memory_value);
   (js "IO (" ++ [916] ++ js " read+write bytes)", io_value); (js "Disk upperdir (bytes)", disk_value)].

(** The loop over the samples: one without a value has no place on either axis. *)
Definition chart_step (value : ResourceSample → option number) (acc : list number * list number) (s : ResourceSample)
    : list number * list number :=
  match value s with
  | None => acc
  | Some y => (acc.1 ++ [num_div (ts s) (num_of_Z 1000)], acc.2 ++ [y])
  end.

Definition chart_data (value : ResourceSample → option number) (samples : list ResourceSample) : list number * list number :=
  foldl (chart_step value) ([], []) samples.

Definition chart_hasData (data : list number * list number) : bool := (1 <? length data.1)%nat.

Record chart_summary := { summary_latest : number; summary_min : number; summary_max : number }.

Definition chart_values (value : ResourceSample → option number) (samples : list ResourceSample) : list number :=
  foldl (λ vs s, match value s with Some v => vs ++ [v] | None => vs end) [] samples.

Definition summary (value : ResourceSample → option number) (samples : list ResourceSample) : option chart_summary :=
  let values := chart_values value samples in
  match last values with
  | None => None
  | Some l => Some {| summary_latest := l; summary_min := math_min values; summary_max := math_max values |}
  end.

(** ** The page of the resource charts *)

Definition WINDOWS : list (string * Z) := [("60s", 60000); ("300s", 300000); ("600s (max)", 600000)]%string.

Definition SANDBOX_SCOPE : jsstr := js "sandbox".

Definition resource_scope (params : url_params) : jsstr := param_get (js "scope") params ?? SANDBOX_SCOPE.
Definition windowMs (params : url_params) : number := Number (param_get (js "window") params ?? js "60000").

(** Which request is made. *)
Inductive resource_request := request_resources (window : number) | request_cgroup (scope : jsstr) (window : number).

Definition resources_request (params : url_params) : resource_request :=
  if bool_decide (resource_scope params = SANDBOX_SCOPE) then request_resources (windowMs params)
  else request_cgroup (resource_scope params) (windowMs params).

(** Every sample of a workspace says that its cgroup is not available. *)
Definition cgroup_unavailable (scope : jsstr) (samples : list ResourceSample) : bool :=
  negb (bool_decide (scope = SANDBOX_SCOPE)) && negb (bool_decide (length samples = 0%nat)) &&
  js_every (λ s, match metrics s !! js "cgroup_available" with Some (MBool false) => true | _ => false end) samples.

Definition apply_resources (scope : option jsstr) (window : option number) (params : url_params) : url_params :=
  let params := match scope with Some v => param_set (js "scope") v params | None => params end in
  match window with Some w => param_set (js "window") (num_to_js w) params | None => params end.

Definition scope_of_choice (value : option jsstr) : jsstr := value ?? SANDBOX_SCOPE.
Definition window_of_choice (value : option jsstr) : number := Number (value ?? js "60000").

Definition resource_scopes (snapshot : option SnapshotResult) : list jsstr :=
  SANDBOX_SCOPE :: (snapshot_workspace_id <$> files_workspaces snapshot).

(** ** Sparklines *)

(** [max - min || 1]. *)
Definition spark_range (lo hi : number) : number :=
  match num_sub hi lo with S754_zero _ | S754_nan => num_of_Z 1 | r => r end.

Definition spark_point (width height lo range stepX : number) (index : nat) (value : number) : jsstr :=
  let x := num_add (num_of_Z 1) (num_mul (num_of_Z (Z.of_nat index)) stepX) in
  let y := num_sub (num_sub height (num_of_Z 2)) (num_mul (num_div (num_sub value lo) range) (num_sub height (num_of_Z 4))) in
  to_fixed 1 x ++ [44] ++ to_fixed 1 y.

(** The points of the line, for a box whose sides are not negative. *)
Definition spark_points (values : list number) (width height : number) : list jsstr :=
  let lo := math_min values in
  let range := spark_range lo (math_max values) in
  let stepX := num_div (num_sub width (num_of_Z 2)) (num_of_Z (Z.of_nat (length values) - 1)) in
  imap (spark_point width height lo range stepX) values.

Definition sparklinePoints (values : list number) (width height : number) : option jsstr :=
  if (length values <? 2)%nat then None else Some (join [32] (spark_points values width height)).

Example sparkline_example :
  sparklinePoints (num_of_Z <$> [3; 5; 4]) (num_of_Z 72) (num_of_Z 18) = Some (js "1.0,16.0 36.0,2.0 71.0,9.0").
Proof. vm_compute. done. Qed.

(** ** The charts of the daemon *)

Section daemon.
Context (toLocaleString : nat → number → jsstr).

Definition formatCompact (value : number) : jsstr :=
  toLocaleString (if num_ltb value (num_of_Z 10) then 1 else 0)%nat value.

Definition perSecond (value : number) : jsstr := formatCompact value ++ js "/s".
Definition percent_text (value : number) : jsstr := to_fixed 1 value ++ js "%".

Record ChartSeries := { series_label : jsstr; series_value : DaemonMetricPoint → option number; series_format : number → jsstr }.

Record ChartDefinition := { chart_title : jsstr; chart_series : list ChartSeries; chart_axis : number → jsstr }.

(** A counter or a size of the sample, as a number. *)
Definition of_sample (f : DaemonProcessMetrics → option Z) (p : DaemonMetricPoint) : option number := num_of_Z <$> f (sample p).

Definition series (name : string) (value : DaemonMetricPoint → option number) (format : number → jsstr) : ChartSeries :=
  {| series_label := js name; series_value := value; series_format := format |}.

Definition bytes_series (name : string) (f : DaemonProcessMetrics → option Z) : ChartSeries := series name (of_sample f) formatBytes.
Definition bytes_rate (value : number) : jsstr := formatBytes value ++ js "/s".

Definition DAEMON_CHARTS : list ChartDefinition :=
  [{| chart_title := js "Memory footprint"; chart_axis := formatBytes;
      chart_series := [bytes_series "RSS" daemon_resident_memory_bytes; bytes_series "PSS" proportional_set_size_bytes;
                       bytes_series "USS" unique_set_size_bytes] |};
   {| chart_title := js "Resident composition"; chart_axis := formatBytes;
      chart_series := [bytes_series "Anonymous" anonymous_memory_bytes; bytes_series "File" file_memory_bytes;
                       bytes_series "Shared" shared_memory_bytes; bytes_series "Swap" swap_bytes] |};
   {| chart_title := js "CPU"; chart_axis := λ v, formatCompact v ++ js "%"; chart_series := [series "CPU" cpu_percent percent_text] |};
   {| chart_title := js "Storage I/O"; chart_axis := formatBytes;
      chart_series := [series "Read" io_read_bytes_per_second bytes_rate; series "Write" io_write_bytes_per_second bytes_rate] |};
   {| chart_title := js "Runtime handles"; chart_axis := formatCompact;
      chart_series := [series "Threads" (of_sample thread_count) formatCompact; series "FDs" (of_sample file_descriptor_count) formatCompact] |};
   {| chart_title := js "Context switching"; chart_axis := formatCompact;
      chart_series := [series "Switches" context_switches_per_second perSecond] |}].

Section chart.
Context (chart : ChartDefinition) (history : list DaemonMetricPoint).

(** The columns of the plot: the times in seconds, then one for each series. *)
Definition daemon_timestamps : list number := (λ p, num_div (num_of_Z (sampled_at_unix_ms (sample p))) thousand) <$> history.
Definition daemon_columns : list (list (option number)) := (λ s, series_value s <$> history) <$> chart_series chart.

Definition daemon_hasData : bool :=
  (1 <? length history)%nat && js_some (λ values, js_some (λ v, bool_decide (is_Some v)) values) daemon_columns.

(** [latestValue]: the loop from the newest point down. *)
Definition latestValue (s : ChartSeries) : option number := last_result (series_value s) history.

Definition series_text (s : ChartSeries) : jsstr :=
  match latestValue s with Some v => series_format s v | None => js "Unavailable" end.

(** The plot exists exactly while there is something to plot: it is made with
    the columns when there first is, given the columns of every later render,
    and destroyed when there no longer is. *)
Definition daemon_plot : option (list number * list (list (option number))) :=
  if daemon_hasData then Some (daemon_timestamps, daemon_columns) else None.
End chart.
End daemon.

(** ** Facts *)

Lemma chart_data_spec value samples :
  chart_data value samples = ((λ s, num_div (ts s) (num_of_Z 1000)) <$> js_filter (λ s, bool_decide (is_Some (value s))) samples, omap value samples).
Proof.
  unfold chart_data. induction samples as [|s samples IH] using rev_ind; [done|]. rewrite foldl_snoc, IH. unfold chart_step.
  rewrite js_filter_app, fmap_app, omap_snoc. cbn [List.filter].
  destruct (value s) as [y|]; [by rewrite bool_decide_true by eauto|].
  rewrite bool_decide_false by by intros []. by rewrite !app_nil_r.
Qed.

Lemma chart_values_spec value samples : chart_values value samples = omap value samples.
Proof.
  unfold chart_values. induction samples as [|s samples IH] using rev_ind; [done|]. rewrite foldl_snoc, IH, omap_snoc.
  destruct (value s); by rewrite ?app_nil_r.
Qed.

Lemma last_result_omap {A B} (f : A → option B) l : last_result f l = last (omap f l).
Proof.
  induction l as [|x l IH]; [done|]. cbn [last_result omap list_omap]. rewrite IH. fold (omap f l).
  destruct (f x), (omap f l) as [|y ys] eqn:Hys; cbn; rewrite ?Hys; try done.
  all: destruct (last (y :: ys)) eqn:Hl; [done|]; by apply last_None in Hl.
Qed.

Lemma zip_pairs {A B C} (g : A → B) (value : A → option C) (l : list A) :
  zip (g <$> js_filter (λ s, bool_decide (is_Some (value s))) l) (omap value l) = omap (λ s, (λ y, (g s, y)) <$> value s) l ∧
  length (js_filter (λ s, bool_decide (is_Some (value s))) l) = length (omap value l).
Proof.
  induction l as [|s l [IHz IHl]]; [done|]. cbn [List.filter omap list_omap].
  destruct (value s) as [y|]; [rewrite bool_decide_true by eauto|by rewrite bool_decide_false by by intros []].
  cbn [fmap list_fmap option_fmap option_map length zip zip_with]. split; f_equal; done.
Qed.

(** ** Theorems *)

(** A chart plots what was measured: one point for each sample that has
    the value, in order, at the sample's time, and none for the others; it is
    drawn from two points on. The figures under it are of the same values: the
    latest is that of the newest sample with one, and when every value is a
    number the minimum and the maximum are values of the chart that bound all
    of them. *)
Theorem chart_plots_samples value samples :
  let data := chart_data value samples in
  length data.1 = length data.2 ∧
  zip data.1 data.2 = omap (λ s, (λ y, (num_div (ts s) (num_of_Z 1000), y)) <$> value s) samples ∧
  (chart_hasData data = true ↔ (2 ≤ length (omap value samples))%nat) ∧
  (summary value samples = None ↔ omap value samples = []) ∧
  ∀ f, summary value samples = Some f →
    last_result value samples = Some (summary_latest f) ∧
    (Forall (λ y, is_nan y = false) data.2 →
     summary_min f ∈ data.2 ∧ summary_max f ∈ data.2 ∧
     Forall (λ y, num_leb (summary_min f) y = true ∧ num_leb y (summary_max f) = true) data.2).
Proof.
  cbv zeta. rewrite chart_data_spec. cbn [fst snd]. destruct (zip_pairs (λ s, num_div (ts s) (num_of_Z 1000)) value samples) as [Hzip Hlen].
  set (ys := omap value samples) in *. unfold chart_hasData. cbn [fst]. rewrite length_fmap, Hlen.
  split_and!; [done|done|rewrite Nat.ltb_lt; lia| |].
  - unfold summary. rewrite chart_values_spec. fold ys. destruct (last ys) eqn:Hl; [|by apply last_None in Hl].
    split; [done|]. intros Hys. by rewrite Hys in Hl.
  - unfold summary. rewrite chart_values_spec. fold ys. intros f Hf. rewrite last_result_omap. fold ys.
    destruct (last ys) as [y|] eqn:Hlast; [|done]. injection Hf as <-. cbn [summary_latest summary_min summary_max]. split; [done|].
    assert (ys ≠ []) as Hne by by intros Hys; rewrite Hys in Hlast. intros Hnan.
    destruct (math_min_spec ys Hne Hnan) as [? Hmin], (math_max_spec ys Hne Hnan) as [? Hmax].
    split_and!; [done..|]. rewrite Forall_forall in *. auto.
Qed.

(** The daemon's charts plot the newest stored points and nothing else, while
    the capture view is in step with the store ([in_step_or_overtaken] says when
    it is): every column of every chart has one entry for each of the at most 300
    points the capture view shows, which are the newest on disk, in the order
    they are stored in; a chart is drawn exactly when there are two points and a
    value; and the figure under a series is its newest known value. *)
Theorem daemon_charts_in_step {DB} `{IndexedStore DB} (w : world DB) chart
    (Hin : in_step w) (Hmounted : mounted w = true) (Hready : ready (view w) = true)
    (Hbetween : ∀ j q, queue w = j :: q → waiting (job_next j)) :
  let h := history (view w) in
  h = slice_last 300 (db_points (store w) (view_sandbox (view w))) ∧
  (length (daemon_timestamps h) ≤ 300)%nat ∧
  Forall (λ c, length c = length (daemon_timestamps h)) (daemon_columns chart h) ∧
  length (daemon_columns chart h) = length (chart_series chart) ∧
  (daemon_plot chart h ≠ None ↔ (2 ≤ length h)%nat ∧ ∃ x p, x ∈ chart_series chart ∧ p ∈ h ∧ is_Some (series_value x p)) ∧
  (∀ x v, latestValue h x = Some v ↔
     ∃ older p newer, h = older ++ p :: newer ∧ series_value x p = Some v ∧ Forall (λ q, series_value x q = None) newer).
Proof.
  destruct (in_step_between w Hin Hmounted Hready Hbetween) as [Hh _]. cbv zeta. rewrite Hh.
  set (h := slice_last 300 _). assert (length h ≤ 300)%nat as Hlen by (unfold h; rewrite slice_last_length; lia).
  unfold daemon_timestamps, daemon_columns, latestValue. rewrite !length_fmap. split_and!; [done..| | | |].
  - apply Forall_forall. intros c (x & -> & _)%list_elem_of_fmap. by rewrite length_fmap.
  - done.
  - unfold daemon_plot, daemon_hasData, daemon_columns. destruct (Nat.ltb_spec 1 (length h)) as [Hl|Hl]; cbn [andb]; [|split; [done|lia]].
    assert (js_some (λ values, js_some (λ v, bool_decide (is_Some v)) values) ((λ x, series_value x <$> h) <$> chart_series chart) = true ↔
      ∃ x p, x ∈ chart_series chart ∧ p ∈ h ∧ is_Some (series_value x p)) as Hiff.
    { rewrite js_some_exists. split.
      - intros (c & (x & -> & Hx)%list_elem_of_fmap & Hc). apply js_some_exists in Hc as (v & (p & -> & Hp)%list_elem_of_fmap & Hv).
        bool_to_prop. eauto.
      - intros (x & p & Hx & Hp & Hv). exists (series_value x <$> h). split; [apply list_elem_of_fmap; by exists x|].
        apply js_some_exists. exists (series_value x p). split; [apply list_elem_of_fmap; by exists p|by apply bool_decide_eq_true]. }
    destruct (js_some _ _); [|split; [done|intros [_ Hex]; by apply Hiff in Hex]]. split; [intros _; split; [lia|by apply Hiff]|done].
  - intros x v. apply last_result_Some.
Qed.

Lemma daemon_charts_in_step_witness :
  (length (daemon_timestamps (history (view example_loaded))) ≤ 300)%nat.
Proof.
  refine (proj1 (proj2 (daemon_charts_in_step example_loaded
    {| chart_title := []; chart_series := []; chart_axis := λ _, [] |} _ _ _ _))).
  - intros _ _. vm_compute. by split.
  - reflexivity.
  - reflexivity.
  - done.
Defined.
