(* ===== verification/DaemonView.v ===== *)
(** The daemon page ([web/src/pages/sandbox/observability/DaemonView.tsx]):
    when it asks the daemon, which notices it shows, and what its cards say.

    [locale] is the browser's number formatting, by the number of fraction
    digits it is limited to, if any; the JSON text and the download of an
    export are the browser's. *)
From S2P Require Import Prelude JsNumber JsText NumText Types Observability DaemonMetrics CaptureStore DaemonCapture Format Poll Charts.

Definition RESOURCE_WINDOW_MS : Z := 60000.
Definition IDLE_MEMORY_TARGET_BYTES : Z := 2 * 1024 * 1024.

(** ** Capturing *)

Inductive CaptureCadence := cadence_standard | cadence_close.

Record capture_control := { capturing : bool; cadence : CaptureCadence }.

Definition initial_control : capture_control := {| capturing := true; cadence := cadence_standard |}.

Definition toggle_capture (c : capture_control) : capture_control := {| capturing := negb (capturing c); cadence := cadence c |}.
Definition choose_cadence (d : CaptureCadence) (c : capture_control) : capture_control := {| capturing := capturing c; cadence := d |}.

(** The effects: another sandbox starts capturing, a failed store stops it. *)
Definition sandbox_effect (c : capture_control) : capture_control := {| capturing := true; cadence := cadence c |}.
Definition storage_effect (storageError : bool) (c : capture_control) : capture_control :=
  if storageError then {| capturing := false; cadence := cadence c |} else c.

Definition poll_mode (c : capture_control) : PollMode := match cadence c with cadence_close => poll_fast | cadence_standard => poll_slow end.

(** Whether the daemon is asked; the hook's [error] is its failure. *)
Definition poll_enabled (c : capture_control) (v : capture_view) : bool := capturing c && ready v && negb (failed v).

(** ** What an answer carries *)

(** [daemon] of the answer: missing (an older backend), [null], or there. *)
Inductive daemon_field := daemon_missing | daemon_null | daemon_metrics (d : DaemonProcessMetrics).

Record daemon_answer := { answer_daemon : daemon_field; answer_series : list ResourceSample }.

(** The samples given to [recordSample] by the effect of an answer. *)
Definition recorded_sample (answer : option daemon_answer) (placeholder : bool) : option DaemonProcessMetrics :=
  match answer with
  | Some a => match answer_daemon a with daemon_metrics d => if placeholder then None else Some d | _ => None end
  | None => None
  end.

Record daemon_activity := { activity_label : jsstr; activity_color : jsstr; targetEligible : bool }.

Definition daemonActivity (d : DaemonProcessMetrics) : daemon_activity :=
  let activeCommands := match runtime_usage d with Some (Some n) => n | _ => 0 end in
  if 0 <? activeCommands
  then {| activity_label := Z_to_js activeCommands ++ js " active commands"; activity_color := js "blue"; targetEligible := false |}
  else let openWorkspaces := ownership d ?? 0 in
       if 0 <? openWorkspaces
       then {| activity_label := Z_to_js openWorkspaces ++ js " idle namespaces"; activity_color := js "yellow"; targetEligible := false |}
       else {| activity_label := js "no managed namespaces"; activity_color := js "success"; targetEligible := true |}.

(** The activity of a render; a thrown [TypeError] is [None]: only a missing
    daemon is checked for, and a [null] one is read. *)
Definition shown_activity (answer : option daemon_answer) : option (option daemon_activity) :=
  match answer with
  | None => Some None
  | Some a => match answer_daemon a with
              | daemon_missing => Some None
              | daemon_null => None
              | daemon_metrics d => Some (Some (daemonActivity d))
              end
  end.

Definition latestContainerMemory (s : list ResourceSample) : option number := metric_number (last s ≫= λ s, metrics s !! js "mem_cur").

(** ** Formatting *)

Section format.
Context (locale : option nat → number → jsstr).

Definition unavailable : jsstr := js "Unavailable".

Definition formatNullableBytes (value : option number) : jsstr := match value with Some v => formatBytes v | None => unavailable end.
Definition formatNullableCount (value : option Z) : jsstr := match value with Some v => locale None (num_of_Z v) | None => unavailable end.
Definition formatPercent (value : option number) : jsstr := match value with Some v => to_fixed 1 v ++ js "%" | None => js "Waiting" end.

Definition formatMicroseconds (value : option Z) : jsstr :=
  match value with Some v => locale (Some 2%nat) (num_div (num_of_Z v) MILLION) ++ js "s" | None => unavailable end.

(** [Math.round] of a non-negative quotient, and its first decimal. *)
Definition formatSpan (milliseconds : Z) : jsstr :=
  if milliseconds <? 1000 then Z_to_js milliseconds ++ js " ms"
  else if milliseconds <? 60000 then num_to_js (math_round (num_div (num_of_Z milliseconds) (num_of_Z 1000))) ++ js " s"
  else to_fixed 1 (num_div (num_of_Z milliseconds) (num_of_Z 60000)) ++ js " min".

Definition budgetValue (eligible : bool) (excess : option Z) : jsstr :=
  if negb eligible then js "Not evaluated"
  else match excess with
       | None => unavailable
       | Some e => if e <=? 0 then js "Within target" else js "+" ++ formatBytes (num_of_Z e)
       end.

(** ** The summary cards *)

Record metric_card := { metric_label : string; metric_text : jsstr; metric_detail : jsstr; metric_danger : bool }.

Definition resident (p : DaemonMetricPoint) : option Z := daemon_resident_memory_bytes (sample p).

(** [Math.max(containerMemory - resident, 0)]. *)
Definition memory_gap (containerMemory : option number) (p : DaemonMetricPoint) : option number :=
  match containerMemory, resident p with
  | Some c, Some r => Some (num_max (num_sub c (num_of_Z r)) num_zero)
  | _, _ => None
  end.

Definition budget_memory (p : DaemonMetricPoint) : option Z :=
  match proportional_set_size_bytes (sample p) with Some b => Some b | None => resident p end.

Definition budget_excess (p : DaemonMetricPoint) : option Z := (λ b, b - IDLE_MEMORY_TARGET_BYTES) <$> budget_memory p.

Definition budget_danger (eligible : bool) (excess : option Z) : bool :=
  eligible && match excess with Some e => 0 <? e | None => false end.

Definition SummaryGrid (p : DaemonMetricPoint) (containerMemory : option number) (eligible : bool) : list metric_card :=
  let s := sample p in
  let card label value detail := {| metric_label := label; metric_text := value; metric_detail := detail; metric_danger := false |} in
  [card "Container memory"%string (formatNullableBytes containerMemory)
     (match memory_gap containerMemory p with Some g => formatBytes g ++ js " outside daemon RSS" | None => js "Manager cgroup total" end);
   card "Daemon RSS"%string (formatNullableBytes (num_of_Z <$> resident p)) (js "Resident pages mapped by the process");
   card "Daemon PSS"%string (formatNullableBytes (num_of_Z <$> proportional_set_size_bytes s)) (js "Shared pages divided proportionally");
   card "Daemon USS"%string (formatNullableBytes (num_of_Z <$> unique_set_size_bytes s)) (js "Private clean + dirty pages");
   card "CPU"%string (formatPercent (cpu_percent p)) (js "100% equals one fully used core");
   card "Threads"%string (formatNullableCount (thread_count s)) (js "State " ++ (daemon_state s ?? js "unavailable"));
   card "Open FDs"%string (formatNullableCount (file_descriptor_count s)) (js "Swap " ++ formatNullableBytes (num_of_Z <$> swap_bytes s));
   {| metric_label := "Idle 2 MiB target"; metric_text := budgetValue eligible (budget_excess p);
      metric_detail := if eligible then js "Compared using PSS, then RSS" else js "Evaluated only with no managed namespaces";
      metric_danger := budget_danger eligible (budget_excess p) |}].

(** The rows of the raw diagnostics: a name and its value. *)
Definition diagnostic_rows (p : DaemonMetricPoint) : list (string * jsstr) :=
  let s := sample p in
  let bytes f := formatNullableBytes (num_of_Z <$> f s) in
  let count f := formatNullableCount (f s) in
  [("Process"%string, (daemon_name s ?? js "unknown") ++ [32; 183; 32] ++ js "PID " ++ Z_to_js (daemon_pid s));
   ("Virtual memory"%string, bytes virtual_memory_bytes); ("Data mappings"%string, bytes data_memory_bytes);
   ("Peak RSS"%string, bytes peak_resident_memory_bytes); ("CPU time"%string, formatMicroseconds (daemon_cpu_time_us s));
   ("Physical I/O"%string, bytes io_read_bytes ++ js " read" ++ [32; 183; 32] ++ bytes io_write_bytes ++ js " written");
   ("I/O syscalls"%string, count read_syscalls ++ js " read" ++ [32; 183; 32] ++ count write_syscalls ++ js " write");
   ("Context switches"%string, count voluntary_context_switches ++ js " voluntary" ++ [32; 183; 32] ++
      count involuntary_context_switches ++ js " involuntary")].

Definition warnings_badge (p : DaemonMetricPoint) : jsstr :=
  match daemon_warnings (sample p) with
  | [] => js "complete sample"
  | ws => Z_to_js (Z.of_nat (length ws)) ++ js " warnings"
  end.
End format.

(** ** The page *)

(** The state of the query: its last data, and whether it has failed. *)
Record daemon_query := { query_data : option daemon_answer; query_failed : bool }.

Inductive daemon_notice :=
  | notice_storage            (* Disk capture unavailable *)
  | notice_refresh_failed     (* Daemon refresh failed *)
  | notice_unavailable        (* Daemon metrics unavailable *)
  | notice_waiting            (* Waiting for the first sample *)
  | notice_opening            (* Opening the store *)
  | notice_unsupported        (* Daemon self-metrics are not supported *)
  | notice_procfs.            (* Daemon procfs collection failed *)

Definition daemon_notices (v : capture_view) (q : daemon_query) : list daemon_notice :=
  (if failed v then [notice_storage] else []) ++
  (if query_failed q then [if query_data q is Some _ then notice_refresh_failed else notice_unavailable] else []) ++
  (if negb (query_failed q) && ((if query_data q is Some _ then false else true) || negb (ready v))
   then [if ready v then notice_waiting else notice_opening] else []) ++
  (match query_data q with
   | Some a => match answer_daemon a with
               | daemon_missing => [notice_unsupported]
               | daemon_null => []
               | daemon_metrics d => if available d then [] else [notice_procfs]
               end
   | None => []
   end).

(** The newest point shown, the span of the history, and the facts line. *)
Definition current_point (v : capture_view) : option DaemonMetricPoint := last (history v).

Definition buffer_span (v : capture_view) : Z :=
  match head (history v), last (history v) with
  | Some a, Some b => if (length (history v) <? 2)%nat then 0 else point_time b - point_time a
  | _, _ => 0
  end.

Definition capture_facts (c : capture_control) (v : capture_view) : list (string * jsstr) :=
  [("Sample interval"%string, match cadence c with cadence_close => js "400 ms" | cadence_standard => js "2 s" end);
   ("Captured on disk"%string, Z_to_js (storedCount v) ++ js " / " ++ Z_to_js DAEMON_HISTORY_LIMIT);
   ("Rendered window"%string, Z_to_js (Z.of_nat (length (history v))) ++ js " / " ++ Z_to_js DAEMON_VISIBLE_HISTORY_LIMIT);
   ("Buffer span"%string, formatSpan (buffer_span v));
   ("PID"%string, match current_point v with Some p => Z_to_js (daemon_pid (sample p)) | None => js "Unknown" end)].

(** The page: [None] when rendering throws; otherwise the notices and, when
    there is a point, its summary. *)
Definition DaemonView (locale : option nat → number → jsstr) (v : capture_view) (q : daemon_query)
    : option (list daemon_notice * option (list metric_card)) :=
  match shown_activity (query_data q) with
  | None => None
  | Some activity =>
      let eligible := match activity with Some a => targetEligible a | None => false end in
      let containerMemory := latestContainerMemory (match query_data q with Some a => answer_series a | None => [] end) in
      Some (daemon_notices v q, (λ p, SummaryGrid locale p containerMemory eligible) <$> current_point v)
  end.

(** The name of an exported capture: the time with its colons replaced. *)
Definition replace_colons (s : jsstr) : jsstr := (λ u, if u =? 58 then 45 else u) <$> s.

Definition capture_file_name (sandboxId exportedAt : jsstr) : jsstr :=
  js "daemon-capture-" ++ sandboxId ++ js "-" ++ replace_colons exportedAt ++ js ".json".

(** ** Theorems *)

(** The page always says where it stands. Rendering succeeds unless the
    answer carries a [null] daemon; a page that shows neither a notice nor a
    summary has just received an available sample, which it is about to
    record; a failed store, a failed query and a daemon that could not read
    its own process are each always announced, and the summary is that of the
    newest point. *)
Theorem daemon_page_speaks locale v q :
  (DaemonView locale v q = None ↔ ∃ a, query_data q = Some a ∧ answer_daemon a = daemon_null) ∧
  ∀ notices cards, DaemonView locale v q = Some (notices, cards) →
    (notices = [] → cards = None →
       failed v = false ∧ query_failed q = false ∧ ready v = true ∧
       ∃ d, recorded_sample (query_data q) false = Some d ∧ available d = true) ∧
    (failed v = true → notice_storage ∈ notices) ∧
    (query_failed q = true → notice_unavailable ∈ notices ∨ notice_refresh_failed ∈ notices) ∧
    (∀ a d, query_data q = Some a → answer_daemon a = daemon_metrics d → available d = false → notice_procfs ∈ notices) ∧
    (cards = None ↔ history v = []).
Proof.
  unfold DaemonView, daemon_notices, current_point, shown_activity, recorded_sample.
  destruct q as [[a|] failed_q]; cbn [query_data query_failed]; [destruct (answer_daemon a) as [| |d] eqn:Hd|].
  all: split; [split; [try done; intros; by exists a|intros (b & [= <-] & ?); congruence]|].
  all: intros notices cards Heq; simplify_eq.
  all: split_and!; rewrite ?fmap_None, ?last_None; try done.
  all: destruct (failed v) eqn:Hf, failed_q, (ready v) eqn:Hr; cbn [app negb andb orb]; try done.
  all: try (destruct (available d) eqn:Hav); cbn [app].
  all: first [set_solver | naive_solver | intros ? ? [= <-] Hd'; rewrite Hd in Hd'; simplify_eq; first [congruence | set_solver]].
Qed.

(** Whether the activity counts as idle. *)
Lemma targetEligible_iff d :
  targetEligible (daemonActivity d) = true ↔
  match runtime_usage d with Some (Some n) => n ≤ 0 | _ => True end ∧ (ownership d ?? 0) ≤ 0.
Proof.
  unfold daemonActivity.
  destruct (Z.ltb_spec 0 (match runtime_usage d with Some (Some n) => n | _ => 0 end)) as [H|H];
    [|destruct (Z.ltb_spec 0 (ownership d ?? 0))]; cbn; destruct (runtime_usage d) as [[n|]|]; lia.
Qed.

(** "Within target" is said only of a daemon with no running command and
    no open workspace, and then exactly when what it holds, the proportional
    set size or else the resident size, is at most two mebibytes; a card
    marked as a danger says by how much the target is exceeded. *)
Theorem budget_within_target d p e :
  budget_excess p = Some e →
  (budgetValue (targetEligible (daemonActivity d)) (Some e) = js "Within target" ↔
     match runtime_usage d with Some (Some n) => n ≤ 0 | _ => True end ∧
     (ownership d ?? 0) ≤ 0 ∧
     ∃ b, budget_memory p = Some b ∧ b ≤ 2097152) ∧
  (budget_danger (targetEligible (daemonActivity d)) (Some e) = true →
     0 < e ∧ budgetValue (targetEligible (daemonActivity d)) (Some e) = js "+" ++ formatBytes (num_of_Z e)).
Proof.
  unfold budget_excess. intros (b & -> & Hb)%fmap_Some. pose proof (targetEligible_iff d) as Hel.
  assert (e = b - 2097152) as -> by exact Hb. clear Hb.
  unfold budgetValue, budget_danger. destruct (targetEligible (daemonActivity d)); cbn [negb andb].
  - destruct Hel as [[Hc Ho] _]; [done|]. destruct (Z.leb_spec (b - 2097152) 0) as [Hle|Hgt]; split.
    + split; [|done]. intros _. split_and!; [done..|]. exists b. split; [done|lia].
    + intros ?%Z.ltb_lt. lia.
    + split; [intros H; apply (f_equal head) in H; done|]. intros (_ & _ & b' & [= <-] & ?). lia.
    + intros ?%Z.ltb_lt. split; [lia|done].
  - split; [|done]. split; [intros H; apply (f_equal head) in H; done|].
    intros (Hc & Ho & _). destruct Hel as [_ Hel]. by discriminate Hel.
Qed.

Lemma budget_within_target_witness :
  let d := example_sample_with (Some 2097152) 1 1000 50 in
  budgetValue (targetEligible (daemonActivity d)) (Some 0) = js "Within target".
Proof.
  intros d. apply (proj1 (budget_within_target d (deriveDaemonMetric None d) 0 eq_refl)).
  split; [done|]. split; [done|]. by exists 2097152.
Defined.
