(* ===== verification/Events.v ===== *)
(** The event table ([web/src/pages/sandbox/observability/EventsView.tsx]):
    its filters in the address, and the sorting with its cache.

    The cache is keyed by the identity of the fetched array; an array is its
    index in the list of those allocated so far. *)
From S2P Require Import Prelude JsCollections JsNumber JsText NumText Json Observability Uri.

(** ** Comparing *)

(** [a > b] of strings: by code units. *)
Fixpoint text_gtb (a b : jsstr) : bool :=
  match a, b with
  | [], _ => false
  | _ :: _, [] => true
  | u :: a, v :: b => if u =? v then text_gtb a b else v <? u
  end.

Section events.
Context {A : Type}.
Notation TraceEvent := (TraceEvent A).

Definition compare_text (a b : jsstr) : Z := if bool_decide (a = b) then 0 else if text_gtb a b then 1 else -1.

Definition compare_number (a b : number) : Z := if num_eqb a b then 0 else if num_ltb b a then 1 else -1.

Definition compareEvents (column : jsstr) (left right : TraceEvent) : Z :=
  if bool_decide (column = js "ts") then compare_number (event_ts left) (event_ts right)
  else if bool_decide (column = js "name") then compare_text (event_name left) (event_name right)
  else compare_text (event_trace left) (event_trace right).

Definition eventKey (e : TraceEvent) : jsstr :=
  event_trace e ++ [45] ++ num_to_js (event_ts e) ++ [45] ++ event_name e.

Record column_sort := { sort_id : jsstr; sort_desc : bool }.

Definition sortKey (sorting : list column_sort) : jsstr :=
  match sorting with
  | c :: _ => sort_id c ++ [58] ++ (if sort_desc c then js "desc" else js "asc")
  | [] => js "none"
  end.

(** ** Sorting *)

(** The rows of a key: its part before the colon names the column, the part
    after it the direction. *)
Definition sorted_rows (key : jsstr) (data : list TraceEvent) : list TraceEvent :=
  let parts := split 58 key in
  let sorted := js_sort (compareEvents (parts !! 0%nat ?? [])) data in
  if bool_decide (parts !! 1%nat = Some (js "desc")) then reverse sorted else sorted.

Record sort_cache := { cache_data : nat; cache_values : gmap jsstr (list TraceEvent) }.

(** One render: the cache it leaves and the rows it shows. *)
Definition render_rows (arrays : list (list TraceEvent)) (data : nat) (sorting : list column_sort) (cache : option sort_cache)
    : sort_cache * list TraceEvent :=
  let eventData := arrays !! data ?? [] in
  let cache := match cache with
               | Some c => if (cache_data c =? data)%nat then c
                           else {| cache_data := data; cache_values := {[ js "none" := eventData ]} |}
               | None => {| cache_data := data; cache_values := {[ js "none" := eventData ]} |}
               end in
  let key := sortKey sorting in
  match cache_values cache !! key with
  | Some rows => (cache, rows)
  | None =>
      let rows := sorted_rows key eventData in
      ({| cache_data := cache_data cache; cache_values := <[key := rows]> (cache_values cache) |}, rows)
  end.

Record events_view := {
  arrays : list (list TraceEvent);
  current : nat;
  sorting : list column_sort;
  cache : option sort_cache;
}.

(** At first there is no answer: a fresh empty array, newest first. *)
Definition initial_events : events_view :=
  {| arrays := [[]]; current := 0%nat; sorting := [{| sort_id := js "ts"; sort_desc := true |}]; cache := None |}.

(** An answer (or no data) is a new array; an earlier answer may be shown
    again; columns are clicked; the table renders. *)
Inductive events_step : events_view → events_view → Prop :=
  | events_answer s data :
      events_step s {| arrays := arrays s ++ [data]; current := length (arrays s); sorting := sorting s; cache := cache s |}
  | events_again s d : (d < length (arrays s))%nat →
      events_step s {| arrays := arrays s; current := d; sorting := sorting s; cache := cache s |}
  | events_sort s sorting' :
      events_step s {| arrays := arrays s; current := current s; sorting := sorting'; cache := cache s |}
  | events_render s :
      events_step s {| arrays := arrays s; current := current s; sorting := sorting s;
                       cache := Some (render_rows (arrays s) (current s) (sorting s) (cache s)).1 |}.

Inductive reachable_events : events_view → Prop :=
  | events_init : reachable_events initial_events
  | events_next s s' : reachable_events s → events_step s s' → reachable_events s'.

(** The rows without a cache. *)
Definition fresh_rows (data : list TraceEvent) (sorting : list column_sort) : list TraceEvent :=
  match sorting with
  | [] => data
  | _ => sorted_rows (sortKey sorting) data
  end.

(** ** What the order is

    Told apart from how the table computes it: by time, or by code units of the
    name or the trace. *)

Definition text_before (a b : jsstr) : Prop :=
  ∃ p, (∃ v k, a = p ∧ b = p ++ v :: k) ∨ (∃ u v k k', a = p ++ u :: k ∧ b = p ++ v :: k' ∧ u < v).

Definition time_before (a b : number) : Prop :=
  ∃ x y, a = num_of_Z x ∧ b = num_of_Z y ∧ Z.abs x < 2 ^ 53 ∧ Z.abs y < 2 ^ 53 ∧ x < y.

Inductive sortable := by_ts | by_name | by_trace.

Definition column_id (c : sortable) : jsstr := match c with by_ts => js "ts" | by_name => js "name" | by_trace => js "trace" end.

Definition event_before (c : sortable) (x y : TraceEvent) : Prop :=
  match c with
  | by_ts => time_before (event_ts x) (event_ts y)
  | by_name => text_before (event_name x) (event_name y)
  | by_trace => text_before (event_trace x) (event_trace y)
  end.

Definition level_with (c : sortable) (x y : TraceEvent) : bool :=
  match c with
  | by_ts => bool_decide (event_ts x = event_ts y)
  | by_name => bool_decide (event_name x = event_name y)
  | by_trace => bool_decide (event_trace x = event_trace y)
  end.

(** ** The filters in the address *)

Definition SINCE_CHOICES : list (string * Z) := [("any time", 0); ("last 5m", 300000); ("last 15m", 900000); ("last 1h", 3600000)]%string.

Definition filter_name_of (params : url_params) : jsstr := param_get (js "name") params ?? [].
Definition sinceMs_of (params : url_params) : number := Number (param_get (js "since") params ?? js "0").
Definition lastN_of (params : url_params) : number := Number (param_get (js "last") params ?? js "200").

(** What is asked of the daemon, at the time [now]. *)
Definition event_request (now : number) (params : url_params) : option jsstr * option number * number :=
  (if bool_decide (filter_name_of params = []) then None else Some (filter_name_of params),
   if num_ltb num_zero (sinceMs_of params) then Some (num_sub now (sinceMs_of params)) else None,
   lastN_of params).

Definition apply_filters (name : option jsstr) (since last : option number) (params : url_params) : url_params :=
  let params := match name with Some v => param_put (js "name") v params | None => params end in
  let params := match since with
                | Some v => if num_ltb num_zero v then param_set (js "since") (num_to_js v) params else param_delete (js "since") params
                | None => params
                end in
  match last with Some v => param_set (js "last") (num_to_js v) params | None => params end.

(** Typing into the last-N field: only a positive number is taken. *)
Definition type_last (text : jsstr) (params : url_params) : url_params :=
  let parsed := Number text in
  if isFinite parsed && num_ltb num_zero parsed then apply_filters None None (Some parsed) params else params.

(** ** Facts *)

Lemma text_gtb_irrefl a : text_gtb a a = false.
Proof. induction a as [|u a IH]; [done|]. cbn. by rewrite Z.eqb_refl. Qed.

Lemma text_gtb_total a b : a ≠ b → text_gtb a b = negb (text_gtb b a).
Proof.
  revert b. induction a as [|u a IH]; intros [|v b] Hne; try done. cbn. destruct (Z.eqb_spec u v) as [->|Huv].
  - rewrite Z.eqb_refl. apply IH. congruence.
  - destruct (Z.eqb_spec v u); [congruence|]. destruct (Z.ltb_spec v u), (Z.ltb_spec u v); (done || lia).
Qed.

Lemma text_gtb_trans a b c : text_gtb a b = true → text_gtb b c = true → text_gtb a c = true.
Proof.
  revert b c. induction a as [|u a IH]; intros [|v b] [|w c]; try done. cbn.
  destruct (Z.eqb_spec u v) as [->|Huv], (Z.eqb_spec v w) as [->|Hvw]; cbn.
  - apply IH.
  - done.
  - intros H _. by destruct (Z.eqb_spec u w).
  - intros H1%Z.ltb_lt H2%Z.ltb_lt. destruct (Z.eqb_spec u w); [lia|]. apply Z.ltb_lt. lia.
Qed.

Lemma compare_text_preorder : preorder_on compare_text (λ _, True).
Proof.
  assert (∀ a b, compare_text a b ≤ 0 ↔ text_gtb a b = false) as Hle.
  { intros a b. unfold compare_text. case_bool_decide as H; [subst; by rewrite text_gtb_irrefl|].
    destruct (text_gtb a b); split; (done || lia). }
  split.
  - intros a b _ _. rewrite !Hle. destruct (decide (a = b)) as [->|Hne]; [left; apply text_gtb_irrefl|].
    rewrite (text_gtb_total a b) by done. destruct (text_gtb b a); auto.
  - intros a b c _ _ _. rewrite !Hle. intros H1 H2. destruct (text_gtb a c) eqn:H; [|done].
    destruct (decide (a = b)) as [->|Hne]; [congruence|]. destruct (decide (b = c)) as [->|Hne']; [congruence|].
    rewrite text_gtb_total in H1, H2 by done. apply negb_false_iff in H1, H2.
    pose proof (text_gtb_trans _ _ _ H2 H1) as H3.
    destruct (decide (a = c)) as [->|Hne3]; [by rewrite text_gtb_irrefl in H|].
    rewrite text_gtb_total, H3 in H by done. done.
Qed.

(** Safe integers as timestamps. *)
Definition dated (e : TraceEvent) : Prop := ∃ z, Z.abs z < 2 ^ 53 ∧ event_ts e = num_of_Z z.

Lemma compare_number_Z a b :
  Z.abs a < 2 ^ 53 → Z.abs b < 2 ^ 53 → compare_number (num_of_Z a) (num_of_Z b) ≤ 0 ↔ a ≤ b.
Proof.
  intros Ha Hb. unfold compare_number. rewrite num_eqb_of_Z, num_ltb_of_Z by done.
  destruct (Z.eqb_spec a b), (Z.ltb_spec b a); lia.
Qed.

Lemma compareEvents_preorder column : preorder_on (compareEvents column) dated.
Proof.
  unfold compareEvents. case_bool_decide; [|case_bool_decide]; split.
  - intros x y (a & Ha & ->) (b & Hb & ->). rewrite !compare_number_Z by done. lia.
  - intros x y z (a & Ha & ->) (b & Hb & ->) (c & Hc & ->). rewrite !compare_number_Z by done. lia.
  - intros x y _ _. by apply (preorder_total _ _ compare_text_preorder).
  - intros x y z _ _ _. by apply (preorder_trans _ _ compare_text_preorder).
  - intros x y _ _. by apply (preorder_total _ _ compare_text_preorder).
  - intros x y z _ _ _. by apply (preorder_trans _ _ compare_text_preorder).
Qed.

Lemma sortKey_none sorting : sortKey sorting = js "none" ↔ sorting = [].
Proof.
  destruct sorting as [|c sorting]; [done|]. split; [|done]. unfold sortKey. intros H.
  assert (58 ∈ js "none") as H58 by (rewrite <- H; set_solver). exfalso. revert H58. decide_closed.
Qed.

(** Everything in the cache is what sorting afresh would give, and the
    unsorted rows are in it. *)
Definition values_ok (data : list TraceEvent) (values : gmap jsstr (list TraceEvent)) : Prop :=
  values !! js "none" = Some data ∧ ∀ k rows, values !! k = Some rows → k = js "none" ∨ rows = sorted_rows k data.

Definition cache_ok (s : events_view) : Prop :=
  (current s < length (arrays s))%nat ∧
  match cache s with
  | None => True
  | Some c => (cache_data c < length (arrays s))%nat ∧ values_ok (arrays s !! cache_data c ?? []) (cache_values c)
  end.

Lemma values_ok_fresh data : values_ok data {[ js "none" := data ]}.
Proof. split; [apply lookup_singleton_eq|]. intros k rows [<- _]%lookup_singleton_Some. by left. Qed.

Lemma render_rows_spec s :
  cache_ok s →
  let '(c, rows) := render_rows (arrays s) (current s) (sorting s) (cache s) in
  rows = fresh_rows (arrays s !! current s ?? []) (sorting s) ∧ cache_data c = current s ∧
  values_ok (arrays s !! current s ?? []) (cache_values c).
Proof.
  intros [Hcur Hok]. unfold render_rows. set (data := arrays s !! current s ?? []).
  set (c0 := match cache s with Some c => _ | None => _ end).
  assert (cache_data c0 = current s ∧ values_ok data (cache_values c0)) as [Hd [Hnone Hv]].
  { unfold c0. destruct (cache s) as [c|]; [|split; [done|apply values_ok_fresh]]. destruct Hok as [_ Hc].
    destruct (Nat.eqb_spec (cache_data c) (current s)) as [Heq|]; [|split; [done|apply values_ok_fresh]].
    split; [done|]. by rewrite Heq in Hc. }
  clearbody c0. destruct (cache_values c0 !! sortKey (sorting s)) as [rows|] eqn:Hrows.
  - split_and!; [|done|by split]. unfold fresh_rows. destruct (sorting s) as [|c l] eqn:Hs; [cbn [sortKey] in Hrows; congruence|].
    destruct (Hv _ _ Hrows) as [Hk|Hk]; [|done]. by apply sortKey_none in Hk.
  - assert (sorting s ≠ []) as Hne by (intros H; rewrite H in Hrows; cbn [sortKey] in Hrows; congruence).
    assert (sortKey (sorting s) ≠ js "none") as Hk by (by rewrite sortKey_none).
    split_and!; [by destruct (sorting s)|done|]. cbn [cache_values]. split; [by rewrite lookup_insert_ne|].
    intros k rows'. destruct (decide (k = sortKey (sorting s))) as [->|Hk'].
    + rewrite lookup_insert_eq. intros [= <-]. by right.
    + rewrite lookup_insert_ne by done. apply Hv.
Qed.

Lemma events_step_ok s s' : cache_ok s → events_step s s' → cache_ok s'.
Proof.
  intros Hok Hstep. pose proof Hok as [Hcur Hc].
  destruct Hstep as [s data|s d Hd|s so|s]; unfold cache_ok; cbn [arrays current cache]; try done.
  - rewrite length_app. cbn [length]. split; [lia|]. destruct (cache s) as [c|]; [|done]. destruct Hc as [Hlt Hv].
    split; [lia|]. by rewrite lookup_app_l.
  - split; [done|]. pose proof (render_rows_spec s Hok) as H. destruct (render_rows _ _ _ _) as [c rows].
    destruct H as (_ & Hd & Hv). cbn [fst]. rewrite Hd. done.
Qed.

Lemma reachable_cache_ok s : reachable_events s → cache_ok s.
Proof. induction 1 as [|s s' _ IH Hstep]; [split; [cbn; lia|done]|by eapply events_step_ok]. Qed.

(** ** Theorems *)

Lemma StronglySorted_reverse {B} (R : B → B → Prop) l : StronglySorted R l → StronglySorted (flip R) (reverse l).
Proof.
  induction 1 as [|x l Hs IH Hx]; [constructor|]. rewrite reverse_cons.
  assert (∀ l1 l2, StronglySorted (flip R) l1 → StronglySorted (flip R) l2 → (∀ a b, a ∈ l1 → b ∈ l2 → R b a) →
            StronglySorted (flip R) (l1 ++ l2)) as Happ.
  { induction 1 as [|a l1 Hl1 IHl Ha]; intros Hl2 Hab; [done|]. cbn. constructor; [apply IHl; set_solver|].
    apply Forall_app. split; [done|]. apply Forall_forall. intros b Hb. apply Hab; set_solver. }
  apply Happ; [done|repeat constructor|]. intros a b Ha ->%list_elem_of_singleton.
  rewrite Forall_forall in Hx. apply Hx. by apply elem_of_reverse.
Qed.

Lemma text_before_gtb a b : text_before a b → text_gtb b a = true.
Proof.
  intros [p [(v & k & -> & ->)|(u & v & k & k' & -> & -> & Huv)]]; induction p as [|w p IH]; cbn; rewrite ?Z.eqb_refl; try done.
  destruct (Z.eqb_spec v u); [lia|]. by apply Z.ltb_lt.
Qed.

Lemma num_ltb_irrefl a : num_ltb a a = false.
Proof.
  unfold num_ltb, SFltb. destruct a as [|[]| |[] m e]; try done; cbn [SFcompare]; rewrite Z.compare_refl;
    by rewrite POrderedType.Positive_as_OT.compare_cont_refl || by rewrite Pos.compare_cont_refl.
Qed.

Lemma StronglySorted_weaken {B} (R S : B → B → Prop) l : (∀ x y, R x y → S x y) → StronglySorted R l → StronglySorted S l.
Proof. intros HRS. induction 1 as [|x l _ IH Hx]; constructor; [done|]. eapply Forall_impl; [exact Hx|]. auto. Qed.

(** What the comparator puts in order is not the other way round. *)
Lemma compare_not_before c x y : compareEvents (column_id c) x y ≤ 0 → ¬ event_before c y x.
Proof.
  assert (∀ a b, compare_text a b ≤ 0 → ¬ text_before b a) as Htext.
  { intros a b Hle Hb. apply text_before_gtb in Hb. unfold compare_text in Hle.
    case_bool_decide as H; [subst; by rewrite text_gtb_irrefl in Hb|]. rewrite Hb in Hle. lia. }
  unfold compareEvents. destruct c; cbn [column_id event_before].
  - rewrite bool_decide_true by done. intros Hle (a & b & Ha & Hb & ? & ? & Hlt). rewrite Ha, Hb in Hle.
    rewrite compare_number_Z in Hle by done. lia.
  - rewrite bool_decide_false, bool_decide_true by (done || decide_closed). apply Htext.
  - rewrite !bool_decide_false by decide_closed. apply Htext.
Qed.

Lemma compare_level c x y z : level_with c z x = true → level_with c z y = true → compareEvents (column_id c) x y ≤ 0.
Proof.
  assert (∀ a, compare_number a a ≤ 0) as Hnum by (intros a; unfold compare_number; destruct (num_eqb a a); [done|]; rewrite num_ltb_irrefl; done).
  assert (∀ a, compare_text a a ≤ 0) as Htext by (intros a; unfold compare_text; by rewrite bool_decide_true).
  unfold compareEvents. destruct c; cbn [column_id level_with]; rewrite !bool_decide_eq_true; intros H1 H2.
  - rewrite bool_decide_true, <- H1, <- H2 by done. apply Hnum.
  - rewrite bool_decide_false, bool_decide_true, <- H1, <- H2 by (done || decide_closed). apply Htext.
  - rewrite !bool_decide_false, <- H1, <- H2 by decide_closed. apply Htext.
Qed.

Lemma fresh_rows_column c desc l data :
  fresh_rows data ({| sort_id := column_id c; sort_desc := desc |} :: l) =
  if desc then reverse (js_sort (compareEvents (column_id c)) data) else js_sort (compareEvents (column_id c)) data.
Proof.
  unfold fresh_rows, sorted_rows, sortKey. cbn [sort_id sort_desc app].
  rewrite split_app, split_none by (done || (destruct desc, c; decide_closed)). by destruct desc.
Qed.

Lemma filter_reverse (f : TraceEvent → bool) l : js_filter f (reverse l) = reverse (js_filter f l).
Proof. unfold reverse. rewrite <- !rev_alt. apply filter_rev. Qed.

(** Sorting afresh by a column gives the events in the column's order. *)
Lemma fresh_rows_order c (desc : bool) l data (Hdated : Forall dated data) :
  let rows := fresh_rows data ({| sort_id := column_id c; sort_desc := desc |} :: l) in
  rows ≡ₚ data ∧
  StronglySorted (λ x y, ¬ if desc then event_before c x y else event_before c y x) rows ∧
  (∀ x, js_filter (level_with c x) rows = (if desc then reverse else Datatypes.id) (js_filter (level_with c x) data)).
Proof.
  cbv zeta. rewrite fresh_rows_column.
  pose proof (js_sort_in_order _ _ _ (compareEvents_preorder (column_id c)) Hdated : StronglySorted _ _) as Hs.
  assert (∀ x, js_filter (level_with c x) (js_sort (compareEvents (column_id c)) data) = js_filter (level_with c x) data) as Hstable.
  { intros x. apply js_sort_stable. intros y z. apply compare_level. }
  destruct desc; split_and!.
  - rewrite reverse_Permutation. apply js_sort_perm.
  - apply StronglySorted_reverse in Hs. eapply StronglySorted_weaken; [|exact Hs]. intros x y. apply compare_not_before.
  - intros x. by rewrite filter_reverse, Hstable.
  - apply js_sort_perm.
  - eapply StronglySorted_weaken; [|exact Hs]. intros x y. apply compare_not_before.
  - exact Hstable.
Qed.

(** C28: The rows shown are the answer shown, in the order asked for, whatever the
    cache has been through: whatever answers come or are shown again, and
    however often columns are clicked and the table renders in between, with no
    column clicked the rows are the events in the daemon's order; otherwise they
    are the same events, none before another that its column puts after it in
    the direction shown (times as numbers, names and traces by code units), and
    events alike in that column are in the daemon's order, or in its reverse
    when descending. Times are safe integers. *)
Theorem events_cache_exact s (Hreach : reachable_events s) (Hdated : Forall dated (arrays s !! current s ?? [])) :
  let data := arrays s !! current s ?? [] in
  let rows := (render_rows (arrays s) (current s) (sorting s) (cache s)).2 in
  match sorting s with
  | [] => rows = data
  | first :: _ => ∀ c, sort_id first = column_id c →
      rows ≡ₚ data ∧
      StronglySorted (λ x y, ¬ if sort_desc first then event_before c x y else event_before c y x) rows ∧
      (∀ x, js_filter (level_with c x) rows = (if sort_desc first then reverse else Datatypes.id) (js_filter (level_with c x) data))
  end.
Proof.
  cbv zeta. pose proof (render_rows_spec s (reachable_cache_ok s Hreach)) as H. destruct (render_rows _ _ _ _) as [cache rows].
  destruct H as [-> _]. destruct (sorting s) as [|[column desc] l]; [done|]. cbn [sort_id sort_desc snd]. intros c ->.
  by apply fresh_rows_order.
Qed.

(** The rows of a column are all the events, arranged by that column in
    the direction shown: by time as a number, by name and trace by code
    units; clicking through to no column restores the daemon's order. *)
Theorem event_rows_sorted data column (desc : bool) (Hcolumn : 58 ∉ column) (Hdated : Forall dated data) :
  let rows := fresh_rows data [{| sort_id := column; sort_desc := desc |}] in
  rows ≡ₚ data ∧ fresh_rows data [] = data ∧
  StronglySorted (λ x y, (if desc then compareEvents column y x else compareEvents column x y) ≤ 0) rows ∧
  (column = js "ts" → ∀ x y a b, dated x → dated y → num_to_Z (event_ts x) = Some a → num_to_Z (event_ts y) = Some b →
     compareEvents column x y ≤ 0 ↔ a ≤ b).
Proof.
  assert (fresh_rows data [{| sort_id := column; sort_desc := desc |}] =
          if desc then reverse (js_sort (compareEvents column) data) else js_sort (compareEvents column) data) as Hrows.
  { unfold fresh_rows, sorted_rows, sortKey. cbn [sort_id sort_desc app].
    rewrite split_app, split_none by (done || (destruct desc; decide_closed)). by destruct desc. }
  cbv zeta. rewrite Hrows. pose proof (js_sort_in_order _ _ _ (compareEvents_preorder column) Hdated) as Hs. split_and!; [|done| |].
  - destruct desc; [rewrite reverse_Permutation|]; apply js_sort_perm.
  - destruct desc; [|exact Hs]. apply StronglySorted_reverse in Hs. exact Hs.
  - intros -> x y a b (a' & Ha & Hx) (b' & Hb & Hy). rewrite Hx, Hy, !num_to_Z_of_Z by done. intros [= ->] [= ->].
    unfold compareEvents. rewrite bool_decide_true by done. rewrite Hx, Hy. by apply compare_number_Z.
Qed.

(** The filters survive the address: a period or a number of events that
    is chosen is the one the next request uses, other filters are kept, and
    a last-N that is not a positive number changes nothing. *)
Theorem filters_round_trip params n (Hn : 0 ≤ n < 2 ^ 53) :
  sinceMs_of (apply_filters None (Some (num_of_Z n)) None params) = num_of_Z n ∧
  lastN_of (apply_filters None (Some (num_of_Z n)) None params) = lastN_of params ∧
  (∀ name, filter_name_of (apply_filters (Some name) None None params) = name) ∧
  (if 0 <? n then lastN_of (type_last (Z_to_js n) params) = num_of_Z n ∧
                  sinceMs_of (type_last (Z_to_js n) params) = sinceMs_of params
   else type_last (Z_to_js n) params = params).
Proof.
  assert (num_ltb num_zero (num_of_Z n) = (0 <? n)) as Hlt by (apply (num_ltb_of_Z 0 n); lia).
  assert (js "since" ≠ js "last" ∧ js "last" ≠ js "since") as [Hne Hne'] by decide_closed. split_and!.
  - unfold sinceMs_of, apply_filters. rewrite Hlt. destruct (Z.ltb_spec 0 n).
    + rewrite param_get_set, bool_decide_true by done. cbn [default from_option]. unfold Datatypes.id.
      rewrite num_to_js_Z by lia. apply Number_Z. lia.
    + rewrite param_get_delete, bool_decide_true by done. replace n with 0 by lia. done.
  - unfold lastN_of, apply_filters. destruct (num_ltb _ _); [rewrite param_get_set|rewrite param_get_delete]; by rewrite bool_decide_false.
  - intros name. unfold filter_name_of, apply_filters. rewrite param_get_put. by rewrite bool_decide_true.
  - unfold type_last. rewrite Number_Z, Hlt, num_of_Z_finite by lia. cbn [andb]. destruct (0 <? n); [|done].
    unfold lastN_of, sinceMs_of, apply_filters. rewrite !param_get_set, bool_decide_true, bool_decide_false by done.
    split; [|done]. cbn [default from_option]. unfold Datatypes.id. rewrite num_to_js_Z by lia. apply Number_Z. lia.
Qed.
End events.

Definition example_event (ts : Z) (name : string) : TraceEvent unit :=
  {| event_ts := num_of_Z ts; event_trace := js "t"; event_parent := None; event_name := js name; event_attrs := ∅ |}.

(** A table that was rendered by time, then by name upwards, and downwards. *)
Definition example_arrays : list (list (TraceEvent unit)) := [[]; [example_event 1 "b"; example_event 2 "a"; example_event 3 "b"]].
Definition example_rendered (sorting : list column_sort) (c : option (sort_cache (A := unit))) : events_view :=
  {| arrays := example_arrays; current := 1; sorting := sorting; cache := Some (render_rows example_arrays 1 sorting c).1 |}.
Definition example_by_time : events_view := example_rendered [{| sort_id := js "ts"; sort_desc := true |}] None.
Definition example_by_name (desc : bool) : events_view :=
  example_rendered [{| sort_id := js "name"; sort_desc := desc |}] (cache (if desc then example_rendered [{| sort_id := js "name"; sort_desc := false |}] (cache example_by_time) else example_by_time)).

Lemma example_by_name_reachable desc : reachable_events (example_by_name desc).
Proof.
  assert (reachable_events example_by_time) as Htime.
  { refine (events_next _ _ (events_next _ _ events_init (events_answer initial_events [example_event 1 "b"; example_event 2 "a"; example_event 3 "b"])) (events_render _)). }
  assert (reachable_events (example_by_name false)) as Hup by exact (events_next _ _ (events_next _ _ Htime (events_sort _ [{| sort_id := js "name"; sort_desc := false |}])) (events_render _)).
  destruct desc; [|exact Hup]. exact (events_next _ _ (events_next _ _ Hup (events_sort _ [{| sort_id := js "name"; sort_desc := true |}])) (events_render _)).
Qed.

Lemma example_dated : Forall dated [example_event 1 "b"; example_event 2 "a"; example_event 3 "b"].
Proof. repeat constructor; [by exists 1|by exists 2|by exists 3]. Qed.

Lemma events_cache_exact_witness :
  let rows := (render_rows example_arrays 1 (sorting (example_by_name true)) (cache (example_by_name true))).2 in
  rows ≡ₚ [example_event 1 "b"; example_event 2 "a"; example_event 3 "b"] ∧
  js_filter (level_with by_name (example_event 1 "b")) rows = [example_event 3 "b"; example_event 1 "b"].
Proof.
  destruct (events_cache_exact (example_by_name true) (example_by_name_reachable true) example_dated by_name eq_refl) as (Hperm & _ & Hstable).
  split; [exact Hperm|]. exact (Hstable (example_event 1 "b")).
Defined.

Lemma event_rows_sorted_witness :
  fresh_rows [example_event 1 "b"; example_event 2 "a"] [{| sort_id := js "name"; sort_desc := false |}]
  ≡ₚ [example_event 1 "b"; example_event 2 "a"].
Proof.
  refine (proj1 (event_rows_sorted [example_event 1 "b"; example_event 2 "a"] (js "name") false _ _)).
  - decide_closed.
  - constructor; [by exists 1|constructor; [by exists 2|constructor]].
Defined.

Lemma filters_round_trip_witness : sinceMs_of (apply_filters None (Some (num_of_Z 300000)) None []) = num_of_Z 300000.
Proof. exact (proj1 (filters_round_trip [] 300000 ltac:(lia))). Defined.
