(* ===== verification/LayerStack.v ===== *)
(** The layer stack view ([web/src/pages/sandbox/observability/LayerStackView.tsx]):
    the runs of layers that can be squashed, the trend of the depth, and the
    selection. *)
From S2P Require Import Prelude JsNumber JsText Observability FilesTab.

(** ** Runs that can be squashed *)

(** [layer.leased_by_workspaces > 0 || layer.booked_by.length > 0]. *)
Definition leased (l : StackLayer) : bool := (0 <? leased_by_workspaces l) || bool_decide (booked_by l ≠ []).

Section squash.
Context (stack : list StackLayer).

Definition is_free (index : nat) (l : StackLayer) : bool :=
  negb (index =? length stack - 1)%nat && (leased_by_workspaces l =? 0) && bool_decide (booked_by l = []).

(** The marks and the start of the run the loop is in. *)
Definition squash_state := (gset nat * option nat)%type.

Definition flush_run (stop : nat) (s : squash_state) : squash_state :=
  match s.2 with
  | Some start => (if (2 <=? stop - start)%nat then s.1 ∪ list_to_set (seq start (stop - start)) else s.1, None)
  | None => (s.1, None)
  end.

Definition squash_step (s : squash_state) (entry : nat * StackLayer) : squash_state :=
  let free := is_free entry.1 entry.2 in
  let s := if free && bool_decide (s.2 = None) then (s.1, Some entry.1) else s in
  if free then s else flush_run entry.1 s.

Definition squashRuns : gset nat :=
  (flush_run (length stack) (foldl squash_step (∅, None) (imap pair stack))).1.
End squash.

(** ** The trend of the depth, per sandbox *)

Definition DEPTH_RING : nat := 24%nat.

Definition push_depth (ring : list Z) (depth : Z) : list Z :=
  if bool_decide (last ring = Some depth) then ring
  else let ring := ring ++ [depth] in if (DEPTH_RING <? length ring)%nat then drop 1 ring else ring.

(** The rings after the call, and the copy it returns. *)
Definition recordDepth (rings : gmap jsstr (list Z)) (sandboxId : jsstr) (depth : Z) : gmap jsstr (list Z) * list Z :=
  let ring := push_depth (rings !! sandboxId ?? []) depth in (<[sandboxId := ring]> rings, ring).

(** ** The selection *)

Definition ALL_WORKSPACES : jsstr := js "__all__".

Record stack_selection := { workspace_choice : jsstr; selectedLayerId : option jsstr }.

Definition initial_selection : stack_selection := {| workspace_choice := ALL_WORKSPACES; selectedLayerId := None |}.

Section selection.
Context (ws : list WorkspaceSnapshot) (stack : list StackLayer).

(** The two effects. *)
Definition follow_workspaces (s : stack_selection) : stack_selection :=
  if negb (bool_decide (workspace_choice s = ALL_WORKSPACES)) &&
     negb (js_some (λ w, bool_decide (snapshot_workspace_id w = workspace_choice s)) ws)
  then {| workspace_choice := ALL_WORKSPACES; selectedLayerId := selectedLayerId s |} else s.

Definition follow_layers (s : stack_selection) : stack_selection :=
  match stack with
  | [] => {| workspace_choice := workspace_choice s; selectedLayerId := None |}
  | l :: _ =>
      if bool_decide (selectedLayerId s ?? [] = []) ||
         negb (js_some (λ l, bool_decide (Some (layer_id l) = selectedLayerId s)) stack)
      then {| workspace_choice := workspace_choice s; selectedLayerId := Some (layer_id l) |} else s
  end.

Definition follow (s : stack_selection) : stack_selection := follow_layers (follow_workspaces s).

Definition selectedLayer (s : stack_selection) : option StackLayer :=
  js_find (λ l, bool_decide (Some (layer_id l) = selectedLayerId s)) stack.
End selection.

(** The details of a query are shown only for what is selected. *)
Definition workspace_data (s : stack_selection) (data : option LayerStackWorkspaceResult) : option LayerStackWorkspaceResult :=
  match data with
  | Some d => if bool_decide (stack_workspace d = workspace_choice s) then Some d else None
  | None => None
  end.

Definition layer_data (s : stack_selection) (data : option LayerStackLayerResult) : option LayerStackLayerResult :=
  match data with
  | Some d => if bool_decide (Some (layer_result_id d) = selectedLayerId s) then Some d else None
  | None => None
  end.

(** ** Rows and panels *)

(** [Math.max(1, ...layers.map(l => l.bytes))]. *)
Definition maxBytes (stack : list StackLayer) : Z := foldl (λ m l, Z.max m (layer_bytes l)) 1 stack.

Definition level_label (index total : nat) : jsstr :=
  if (index =? total - 1)%nat then js "base" else js "L" ++ Z_to_js (Z.of_nat total - Z.of_nat index - 1).

Definition leases_label (l : StackLayer) : jsstr :=
  Z_to_js (leased_by_workspaces l) ++ js " leases" ++
  (if bool_decide (booked_by l ≠ []) then js " +" ++ Z_to_js (Z.of_nat (length (booked_by l))) ++ js "b" else []).

Definition leases_tooltip (l : StackLayer) : jsstr :=
  Z_to_js (leased_by_workspaces l) ++ js " workspace lease(s)" ++
  (if bool_decide (booked_by l ≠ []) then [32; 183; 32] ++ js "booked by " ++ join (js ", ") (booked_by l) else []).

Definition entryKindLabel (k : LayerStackLayerEntryKind) : jsstr :=
  match k with
  | layer_directory => js "dir"
  | layer_opaque_dir => js "opaque"
  | layer_symlink => js "link"
  | layer_file => js "file"
  | layer_delete => js "delete"
  end.

Definition entryKindColor (k : LayerStackLayerEntryKind) : jsstr :=
  match k with
  | layer_delete => js "red"
  | layer_directory => js "blue"
  | layer_opaque_dir => js "yellow"
  | _ => js "gray"
  end.

(** What a panel shows of a query: its error, that it is loading, its data, or
    that there is nothing selected. *)
Inductive panel (D : Type) := panel_count (n : nat) | panel_error | panel_loading | panel_data (d : D) | panel_none.
Arguments panel_count {D} n.
Arguments panel_error {D}.
Arguments panel_loading {D}.
Arguments panel_data {D} d.
Arguments panel_none {D}.

Definition panel_of {D} (isError isFetching : bool) (data : option D) : panel D :=
  if isError then panel_error else if isFetching then panel_loading
  else match data with Some d => panel_data d | None => panel_none end.

(** [isError] and [isFetching] are those of the query. *)
Definition delta_panel (s : stack_selection) (isError isFetching : bool) (data : option LayerStackLayerResult) : panel LayerStackLayerResult :=
  let d := layer_data s data in
  panel_of (isError && bool_decide (d = None)) (isFetching && bool_decide (d = None)) d.

Definition workspace_panel (ws : list WorkspaceSnapshot) (s : stack_selection) (isError isFetching : bool)
    (data : option LayerStackWorkspaceResult) : panel LayerStackWorkspaceResult :=
  if bool_decide (workspace_choice s = ALL_WORKSPACES) then panel_count (length ws)
  else let d := workspace_data s data in
       panel_of (isError && bool_decide (d = None)) (isFetching && bool_decide (d = None)) d.

(** ** Facts: runs *)

Section runs.
Context (stack : list StackLayer).

(** The [i]-th layer is free. *)
Definition free_at (i : nat) : bool :=
  match stack !! i with Some l => is_free stack i l | None => false end.

(** It has a free neighbour as well. *)
Definition in_run (i : nat) : Prop :=
  free_at i = true ∧ (free_at (S i) = true ∨ ∃ j, i = S j ∧ free_at j = true).

Definition run_inv (k : nat) (s : squash_state) : Prop :=
  (∀ i, i ∈ s.1 ↔ (i < s.2 ?? k)%nat ∧ in_run i) ∧
  match s.2 with
  | Some start => (start < k)%nat ∧ (∀ j, (start ≤ j < k)%nat → free_at j = true) ∧ (∀ j, start = S j → free_at j = false)
  | None => ∀ j, k = S j → free_at j = false
  end.

Lemma flush_inv k s : run_inv k s → free_at k = false → run_inv (S k) (flush_run k s).
Proof.
  intros [Hm Hs] Hk. unfold flush_run. destruct s as [marks [start|]]; cbn [fst snd default from_option] in *; unfold Datatypes.id in *.
  - destruct Hs as (Hlt & Hfree & Hprev). split; [|cbn; by intros j [= <-]]. cbn [fst snd]. intros i.
    destruct (Nat.leb_spec 2 (k - start)) as [H2|H2].
    + rewrite elem_of_union, elem_of_list_to_set, elem_of_seq, Hm. cbn. unfold Datatypes.id. split.
      * intros [[? ?]|[H3 H4]]; [split; [lia|done]|]. split; [lia|]. split; [apply Hfree; lia|].
        destruct (decide (S i < k)%nat); [left; apply Hfree; lia|]. right. exists (i - 1)%nat. split; [lia|]. apply Hfree. lia.
      * intros [Hi Hr]. destruct (decide (i < start)%nat); [by left|]. right.
        assert (i ≠ k) by (intros ->; destruct Hr; congruence). lia.
    + rewrite Hm. cbn. unfold Datatypes.id. split; [intros [? ?]; split; [lia|done]|]. intros [Hi Hr]. split; [|done].
      assert (i ≠ k) by (intros ->; destruct Hr; congruence).
      destruct (decide (i = start)) as [->|]; [|lia]. exfalso. destruct Hr as [_ [Hr|(j & -> & Hr)]].
      * replace (S start) with k in Hr by lia. congruence.
      * rewrite (Hprev j) in Hr by done. done.
  - split; [|cbn; by intros j [= <-]]. cbn. unfold Datatypes.id. intros i. rewrite Hm. split; [intros [? ?]; split; [lia|done]|].
    intros [Hi Hr]. split; [|done]. assert (i ≠ k) by (intros ->; destruct Hr; congruence). lia.
Qed.

Lemma step_inv k l s : stack !! k = Some l → run_inv k s → run_inv (S k) (squash_step stack s (k, l)).
Proof.
  intros Hl Hs. assert (free_at k = is_free stack k l) as Hk by (unfold free_at; by rewrite Hl).
  unfold squash_step. cbn [fst snd]. destruct (is_free stack k l) eqn:Hf; cbn [andb]; [|by apply flush_inv].
  destruct Hs as [Hm Hs]. destruct s as [marks [start|]]; cbn [fst snd default from_option] in *; unfold Datatypes.id in *.
  - rewrite bool_decide_false by done. destruct Hs as (Hlt & Hfree & Hprev). split; [done|]. cbn. split_and!; [lia| |done].
    intros j Hj. destruct (decide (j = k)) as [->|]; [done|]. apply Hfree. lia.
  - rewrite bool_decide_true by done. split; [done|]. cbn. split_and!; [lia| |done].
    intros j Hj. by replace j with k by lia.
Qed.

Lemma loop_inv l k s :
  drop k stack = l → run_inv k s → run_inv (k + length l) (foldl (squash_step stack) s (imap (λ i, pair (k + i)%nat) l)).
Proof.
  revert k s. induction l as [|x l IH]; intros k s Hd Hs; [by rewrite Nat.add_0_r|].
  assert (stack !! k = Some x) as Hx by (rewrite <- (Nat.add_0_r k), <- lookup_drop, Hd; done).
  cbn [imap foldl length]. rewrite Nat.add_0_r, <- Nat.add_succ_comm.
  assert (imap ((λ i, pair (k + i)%nat) ∘ S) l = imap (λ i, pair (S k + i)%nat) l) as ->
    by (apply imap_ext; intros; cbn; f_equal; lia).
  apply IH; [|by apply step_inv]. rewrite <- Nat.add_1_r, <- drop_drop, Hd. done.
Qed.

Lemma squashRuns_elem i : i ∈ squashRuns stack ↔ in_run i.
Proof.
  assert (run_inv 0 (∅, None)) as H0 by (split; [intros j; cbn; set_solver by lia|cbn; lia]).
  pose proof (loop_inv stack 0 (∅, None) eq_refl H0) as Hloop. cbn [plus] in Hloop.
  apply flush_inv in Hloop; [|unfold free_at; by rewrite lookup_ge_None_2].
  unfold squashRuns. destruct Hloop as [Hm _]. rewrite Hm. split; [by intros [_ ?]|]. intros Hr. split; [|done].
  assert (i < length stack)%nat.
  { destruct Hr as [Hr _]. unfold free_at in Hr. destruct (stack !! i) as [l|] eqn:Hl; [|done]. by apply lookup_lt_Some in Hl. }
  assert (∀ s, (flush_run (length stack) s).2 = None) as -> by (intros [m [?|]]; done). cbn. unfold Datatypes.id. lia.
Qed.
End runs.

(** ** Theorems *)

(** C29: a layer is marked as squashable exactly when squashing it changes
    anything and harms nobody: it is not the base, no workspace leases it,
    nothing is booked on it, and the layer above or below it is so as well. *)
Theorem squashRuns_spec stack i :
  let free j := ∃ l, stack !! j = Some l ∧ (j + 1 < length stack)%nat ∧ leased_by_workspaces l = 0 ∧ booked_by l = [] in
  i ∈ squashRuns stack ↔ free i ∧ (free (S i) ∨ ∃ j, i = S j ∧ free j).
Proof.
  cbv zeta. assert (∀ j, free_at stack j = true ↔
    ∃ l, stack !! j = Some l ∧ (j + 1 < length stack)%nat ∧ leased_by_workspaces l = 0 ∧ booked_by l = []) as Hfree.
  { intros j. unfold free_at, is_free. destruct (stack !! j) as [l|] eqn:Hl; [|naive_solver].
    apply lookup_lt_Some in Hl. rewrite !andb_true_iff, negb_true_iff, Nat.eqb_neq, Z.eqb_eq, bool_decide_eq_true.
    split; [intros [[? ?] ?]; exists l; split_and!; try done; lia|]. intros (l' & [= <-] & ? & ? & ?). split_and!; try done; lia. }
  rewrite squashRuns_elem. unfold in_run. rewrite !Hfree. split; intros [H1 [H2|(j & -> & H2)]]; split; try done; auto.
  - right. exists j. by rewrite <- Hfree.
  - right. exists j. by rewrite Hfree.
Qed.

(** The depths without repetitions. *)
Definition add_change (l : list Z) (d : Z) : list Z := if bool_decide (last l = Some d) then l else l ++ [d].
Definition depth_changes (ds : list Z) : list Z := foldl add_change [] ds.

Lemma last_slice_last_any {A} n (l : list A) : (0 < n)%nat → last (slice_last n l) = last l.
Proof.
  intros Hn. destruct l as [|x l _] using rev_ind; [by destruct n|]. by rewrite last_slice_last, last_snoc.
Qed.

Lemma push_depth_slice l d : push_depth (slice_last DEPTH_RING l) d = slice_last DEPTH_RING (add_change l d).
Proof.
  unfold push_depth, add_change. rewrite last_slice_last_any by (unfold DEPTH_RING; lia). case_bool_decide; [done|].
  unfold slice_last, DEPTH_RING. rewrite !length_app, !length_drop. cbn [length].
  destruct (Nat.ltb_spec 24 (length l - (length l - 24) + 1)).
  - rewrite (drop_app_le _ _ 1) by (rewrite length_drop; lia). rewrite drop_drop, drop_app_le by lia. do 2 f_equal. lia.
  - rewrite drop_app_le by lia. do 2 f_equal. lia.
Qed.

(** The rings after a sequence of renders. *)
Definition record_depths (rings : gmap jsstr (list Z)) (sandboxId : jsstr) (ds : list Z) : gmap jsstr (list Z) :=
  foldl (λ r d, (recordDepth r sandboxId d).1) rings ds.

Lemma record_depths_lookup rings sandboxId ds :
  rings !! sandboxId = None →
  record_depths rings sandboxId ds !! sandboxId ?? [] = slice_last DEPTH_RING (depth_changes ds) ∧
  (ds ≠ [] → record_depths rings sandboxId ds !! sandboxId = Some (slice_last DEPTH_RING (depth_changes ds))).
Proof.
  intros Hnone. induction ds as [|d ds [IH _]] using rev_ind; [split; [cbn; by rewrite Hnone|done]|].
  assert (record_depths rings sandboxId (ds ++ [d]) !! sandboxId = Some (slice_last DEPTH_RING (depth_changes (ds ++ [d])))) as ->; [|done].
  unfold record_depths, depth_changes. rewrite !foldl_snoc. fold (record_depths rings sandboxId ds) (depth_changes ds).
  cbn [recordDepth fst]. by rewrite lookup_insert_eq, IH, push_depth_slice.
Qed.

(** The trend of a stack's depth is a bounded history of its changes:
    after any sequence of renders it is the last 24 changes of the depth, so
    it never grows past 24 values, ends with the depth shown, and rendering
    again (as often as React likes) records nothing; other sandboxes' trends
    are left alone. *)
Theorem depth_trend ds sandboxId rings :
  let after := record_depths (delete sandboxId rings) sandboxId ds in
  (ds ≠ [] → after !! sandboxId = Some (slice_last DEPTH_RING (depth_changes ds))) ∧
  (∀ d, let r := recordDepth after sandboxId d in
     r.2 = slice_last DEPTH_RING (depth_changes (ds ++ [d])) ∧ (length r.2 ≤ DEPTH_RING)%nat ∧ last r.2 = Some d ∧
     (recordDepth r.1 sandboxId d).2 = r.2 ∧ (∀ other, other ≠ sandboxId → r.1 !! other = after !! other)).
Proof.
  cbv zeta. assert (delete sandboxId rings !! sandboxId = None) as Hnone by apply lookup_delete_eq.
  destruct (record_depths_lookup _ _ ds Hnone) as [Hring Hsome]. set (after := record_depths _ sandboxId ds) in *.
  split; [exact Hsome|]. intros d.
  assert ((recordDepth after sandboxId d).2 = slice_last DEPTH_RING (depth_changes (ds ++ [d]))) as Hr.
  { cbn [recordDepth snd]. rewrite Hring, push_depth_slice. unfold depth_changes. by rewrite foldl_snoc. }
  assert (last (depth_changes (ds ++ [d])) = Some d) as Hlast.
  { unfold depth_changes. rewrite foldl_snoc. unfold add_change. case_bool_decide; [done|apply last_snoc]. }
  split_and!; [exact Hr|rewrite Hr, slice_last_length by (unfold DEPTH_RING; lia); lia|..].
  - rewrite Hr, last_slice_last_any by (unfold DEPTH_RING; lia). done.
  - assert ((recordDepth (recordDepth after sandboxId d).1 sandboxId d).2 = push_depth (recordDepth after sandboxId d).2 d) as ->
      by (cbn [recordDepth fst snd]; by rewrite lookup_insert_eq).
    rewrite Hr, push_depth_slice. f_equal. unfold add_change. by rewrite bool_decide_true.
  - intros other Ho. cbn [recordDepth fst]. by rewrite lookup_insert_ne.
Qed.

Lemma selection_ext a b : workspace_choice a = workspace_choice b → selectedLayerId a = selectedLayerId b → a = b.
Proof. destruct a, b. by cbn; intros -> ->. Qed.

Lemma listed_choice ws s :
  js_some (λ w, bool_decide (snapshot_workspace_id w = workspace_choice s)) ws = true ↔ workspace_choice s ∈ snapshot_workspace_id <$> ws.
Proof. rewrite js_some_exists, list_elem_of_fmap. setoid_rewrite bool_decide_eq_true. naive_solver. Qed.

Lemma listed_layer stack s :
  js_some (λ l, bool_decide (Some (layer_id l) = selectedLayerId s)) stack = true ↔ selectedLayer stack s ≠ None.
Proof.
  unfold selectedLayer. rewrite js_some_exists. destruct (js_find _ stack) as [l|] eqn:Hl.
  - apply js_find_Some in Hl as (l1 & l2 & -> & Hl & _). split; [done|]. intros _. exists l. set_solver.
  - apply js_find_None in Hl. rewrite Forall_forall in Hl. split; [|done]. intros (l & Hin & Heq). by rewrite (Hl l Hin) in Heq.
Qed.

Lemma follow_workspaces_spec ws s :
  let after := follow_workspaces ws s in
  selectedLayerId after = selectedLayerId s ∧
  workspace_choice after = (if bool_decide (workspace_choice s ∈ snapshot_workspace_id <$> ws) then workspace_choice s else ALL_WORKSPACES).
Proof.
  unfold follow_workspaces. cbv zeta. pose proof (listed_choice ws s) as H.
  destruct (js_some _ ws); cbn [negb]; [rewrite andb_false_r, bool_decide_true by naive_solver; done|].
  rewrite andb_true_r, (bool_decide_false (_ ∈ _)) by naive_solver. case_bool_decide as Hc; cbn [negb]; done.
Qed.

(** A layer with a blank identifier could never be found selected. *)
Lemma follow_layers_spec stack s :
  Forall (λ l, layer_id l ≠ []) stack →
  let after := follow_layers stack s in
  workspace_choice after = workspace_choice s ∧
  selectedLayerId after = (if bool_decide (selectedLayer stack s ≠ None) then selectedLayerId s else layer_id <$> head stack).
Proof.
  intros Hids. unfold follow_layers. cbv zeta. pose proof (listed_layer stack s) as H.
  destruct stack as [|l stack]; [by rewrite bool_decide_false by (intros Hn; by apply Hn)|].
  destruct (js_some _ _) eqn:Hs; cbn [negb].
  - rewrite (bool_decide_true (selectedLayer _ _ ≠ None)) by naive_solver. rewrite orb_false_r, bool_decide_false; [done|].
    apply js_some_exists in Hs as (l' & Hl' & Heq). apply bool_decide_eq_true in Heq. rewrite <- Heq. cbn.
    rewrite Forall_forall in Hids. by apply Hids.
  - rewrite orb_true_r, (bool_decide_false (selectedLayer _ _ ≠ None)) by naive_solver. done.
Qed.

(** The selection follows what there is. After the effects the chosen
    workspace is listed (or it is all of them) and the selected layer is in
    the stack, the first one when there was none or it went away; a choice
    that is still there is kept, the effects then do nothing more, and the
    details shown are those of the selection, never of an earlier one. *)
Theorem selection_follows ws stack s (Hids : Forall (λ l, layer_id l ≠ []) stack) :
  let after := follow ws stack s in
  (workspace_choice after = ALL_WORKSPACES ∨ workspace_choice after ∈ snapshot_workspace_id <$> ws) ∧
  (workspace_choice s ∈ snapshot_workspace_id <$> ws → workspace_choice after = workspace_choice s) ∧
  (selectedLayer stack after ≠ None ↔ stack ≠ []) ∧
  (selectedLayer stack s ≠ None → selectedLayerId after = selectedLayerId s) ∧
  (selectedLayer stack s = None → selectedLayerId after = layer_id <$> head stack) ∧
  follow ws stack after = after ∧
  (∀ data d, workspace_data after data = Some d → stack_workspace d = workspace_choice after) ∧
  (∀ data d, layer_data after data = Some d → selectedLayerId after = Some (layer_result_id d)).
Proof.
  cbv zeta. unfold follow. destruct (follow_workspaces_spec ws s) as [Hsel1 Hch1]. set (s1 := follow_workspaces ws s) in *.
  destruct (follow_layers_spec stack s1 Hids) as [Hch2 Hsel2]. set (s2 := follow_layers stack s1) in *.
  assert (selectedLayer stack s1 = selectedLayer stack s) as Hsame by (unfold selectedLayer; by rewrite Hsel1).
  rewrite Hsame, Hsel1 in Hsel2. rewrite Hch1 in Hch2.
  assert (selectedLayer stack s2 ≠ None ↔ stack ≠ []) as Hin.
  { rewrite <- listed_layer, Hsel2, js_some_exists. case_bool_decide as H.
    - apply listed_layer, js_some_exists in H. split; [intros _ ->; destruct H as (? & ?%not_elem_of_nil & _); done|done].
    - destruct stack as [|l stack']; [|split; [done|]; intros _; exists l; split; [set_solver|by apply bool_decide_eq_true]].
      split; [intros (? & ?%not_elem_of_nil & _); done|done]. }
  split_and!; [..|exact Hin| | | | |].
  - rewrite Hch2. destruct (bool_decide_reflect (workspace_choice s ∈ snapshot_workspace_id <$> ws)); auto.
  - intros Hw. by rewrite Hch2, bool_decide_true.
  - intros H. by rewrite Hsel2, bool_decide_true.
  - intros H. rewrite Hsel2, bool_decide_false by (intros Hn; by apply Hn). done.
  - destruct (follow_workspaces_spec ws s2) as [Hs3 Hc3]. set (s3 := follow_workspaces ws s2) in *.
    destruct (follow_layers_spec stack s3 Hids) as [Hc4 Hs4]. set (s4 := follow_layers stack s3) in *.
    assert (workspace_choice s4 = workspace_choice s2) as H1.
    { rewrite Hc4, Hc3, Hch2. destruct (bool_decide_reflect (workspace_choice s ∈ snapshot_workspace_id <$> ws));
        [by rewrite bool_decide_true|by destruct (bool_decide (ALL_WORKSPACES ∈ snapshot_workspace_id <$> ws))]. }
    assert (selectedLayerId s4 = selectedLayerId s2) as H2.
    { rewrite Hs4, Hs3. replace (selectedLayer stack s3) with (selectedLayer stack s2) by (unfold selectedLayer; by rewrite Hs3).
      destruct (bool_decide_reflect (selectedLayer stack s2 ≠ None)) as [|H]; [done|].
      destruct stack; [|by destruct H; apply Hin]. by rewrite Hsel2, bool_decide_false by (intros Hn; by apply Hn). }
    by apply selection_ext.
  - intros data d. unfold workspace_data. destruct data as [x|]; [|done].
    destruct (bool_decide_reflect (stack_workspace x = workspace_choice s2)); [|done]. by intros [= <-].
  - intros data d. unfold layer_data. destruct data as [x|]; [|done].
    destruct (bool_decide_reflect (Some (layer_result_id x) = selectedLayerId s2)); [|done]. by intros [= <-].
Qed.

Definition example_layer (i : string) (leases : Z) : StackLayer :=
  {| layer_id := js i; layer_bytes := 10; leased_by_workspaces := leases; booked_by := [] |}.

Lemma selection_follows_witness :
  selectedLayerId (follow [] [example_layer "b" 0; example_layer "a" 0] initial_selection) = Some (js "b").
Proof.
  refine (proj1 (proj2 (proj2 (proj2 (proj2 (selection_follows [] [example_layer "b" 0; example_layer "a" 0] initial_selection _)))))
    eq_refl).
  repeat constructor; decide_closed.
Defined.
