(* ===== verification/Preview.v ===== *)
(** Previews of servers in a sandbox
    ([web/src/pages/sandbox/preview/PreviewTab.tsx],
    [web/src/components/PortPreview.tsx], [previewScopes] of
    [SandboxHeader.tsx]): which port is valid, the address of the proxied
    page, and the launcher that fills it in. *)
From S2P Require Import Prelude JsNumber JsText NumText Observability Uri FilesTab Sessions.

Record preview_scope := { scope_id : jsstr; scope_label : jsstr; scope_isolated : bool }.

Definition SHARED : jsstr := js "shared".

Definition is_isolated (w : WorkspaceSnapshot) : bool := match network_profile w with isolated => true | shared => false end.

Definition previewScopes (snapshot : option SnapshotResult) : list preview_scope :=
  {| scope_id := SHARED; scope_label := js "shared network"; scope_isolated := false |} ::
  ((λ w, {| scope_id := snapshot_workspace_id w; scope_label := js "isolated" ++ dot ++ snapshot_workspace_id w; scope_isolated := true |})
     <$> js_filter is_isolated (files_workspaces snapshot)).

(** [/^\d+$/.test(port) && Number(port) >= 1 && Number(port) <= 65535]. *)
Definition portValid (port : jsstr) : bool :=
  bool_decide (port ≠ []) && forallb is_digit port &&
  num_leb (num_of_Z 1) (Number port) && num_leb (Number port) (num_of_Z 65535).

(** ** The tab *)

Record preview := { preview_scope_param : jsstr; preview_port : jsstr; preview_path : jsstr }.

Definition preview_of (params : url_params) : preview :=
  {| preview_scope_param := param_get (js "scope") params ?? SHARED;
     preview_port := param_get (js "port") params ?? [];
     preview_path := param_get (js "path") params ?? js "/" |}.

Definition scope_segment (scope : jsstr) : jsstr := if bool_decide (scope = SHARED) then SHARED else js "isolated=" ++ scope.

Definition cleanPath (path : jsstr) : jsstr := match path with 47 :: rest => rest | _ => path end.

(** [None]: no preview, or the identifier cannot be encoded. *)
Definition previewUrl (sandboxId : jsstr) (p : preview) : option jsstr :=
  if portValid (preview_port p) then
    (λ enc, js "/s/" ++ enc ++ [47] ++ scope_segment (preview_scope_param p) ++ [47] ++ preview_port p ++ [47] ++
            cleanPath (preview_path p)) <$> encodeURIComponent sandboxId
  else None.

Definition apply_preview (scope port path : option jsstr) (params : url_params) : url_params :=
  let put k v params := match v with Some v => param_set (js k) v params | None => params end in
  put "path"%string path (put "port"%string port (put "scope"%string scope params)).

(** The forms. *)
Definition submit_port (draft : jsstr) (params : url_params) : url_params := apply_preview None (Some (trim draft)) None params.

Definition submit_path (draft : jsstr) (params : url_params) : url_params :=
  apply_preview None None (Some (if bool_decide (trim draft = []) then js "/" else trim draft)) params.

(** The options of the scope: one that is not known is still shown. *)
Definition scope_choices (snapshot : option SnapshotResult) (scope : jsstr) : list (jsstr * jsstr) :=
  ((λ s, (scope_id s, scope_label s)) <$> previewScopes snapshot) ++
  (if js_some (λ s, bool_decide (scope_id s = scope)) (previewScopes snapshot) || bool_decide (scope = SHARED) then []
   else [(scope, js "isolated" ++ dot ++ scope)]).

(** ** The launcher *)

(** Where the launcher leads: the path, and the parameters of its query. *)
Definition previewPath (sandboxId scope port path : jsstr) : option (jsstr * url_params) :=
  (λ enc, (js "/sandboxes/" ++ enc ++ js "/preview", [(js "scope", scope); (js "port", port); (js "path", path)]))
    <$> encodeURIComponent sandboxId.

(** [None]: the launcher stays where it is. *)
Definition openPreview (sandboxId scope port : jsstr) : option (jsstr * url_params) :=
  if portValid port then previewPath sandboxId scope port (js "/") else None.

(** ** Facts *)

Lemma portValid_spec port :
  portValid port = true ↔ port ≠ [] ∧ Forall (λ u, is_digit u = true) port ∧ 1 ≤ undec 0 port ≤ 65535.
Proof.
  assert (port ≠ [] → Forall (λ u, is_digit u = true) port →
    num_leb (num_of_Z 1) (Number port) = (1 <=? undec 0 port) ∧ num_leb (Number port) (num_of_Z 65535) = (undec 0 port <=? 65535)) as Hnum.
  { intros Hne Hd. rewrite Number_digits by done. pose proof (undec_nonneg port Hd).
    exact (conj (proj2 (num_leb_of_Z _ 1 H ltac:(done))) (proj1 (num_leb_of_Z _ 65535 H ltac:(done)))). }
  unfold portValid. rewrite !andb_true_iff, bool_decide_eq_true, js_every_forall, <- Forall_forall. split.
  - intros [[[Hne Hd] H1] H2]. destruct (Hnum Hne Hd) as [Hn1 Hn2]. rewrite Hn1 in H1. rewrite Hn2 in H2. bool_to_prop.
    split_and!; (done || lia).
  - intros (Hne & Hd & H1 & H2). destruct (Hnum Hne Hd) as [-> ->]. rewrite !Z.leb_le. done.
Qed.

Lemma scope_segment_inj a b : scope_segment a = scope_segment b → a = b.
Proof. unfold scope_segment. repeat case_bool_decide; subst; intros H'; try done. by injection H'. Qed.

Lemma scope_segment_slash a : 47 ∉ a → 47 ∉ scope_segment a.
Proof.
  intros Ha. unfold scope_segment. case_bool_decide; [decide_closed|]. rewrite elem_of_app. intros [H'|?]; [|done].
  revert H'. decide_closed.
Qed.

Lemma digits_slash port : Forall (λ u, is_digit u = true) port → 47 ∉ port.
Proof. rewrite Forall_forall. by intros H H'%H. Qed.

Lemma encoded_slash s enc : Forall (λ u, 0 ≤ u < 65536) s → encodeURIComponent s = Some enc → 47 ∉ enc.
Proof.
  intros Hs He H. pose proof (encodeURIComponent_safe _ s enc (le_n _) Hs He) as Hsafe.
  rewrite Forall_forall in Hsafe. by destruct (Hsafe _ H).
Qed.

Lemma preview_apply params scope port path :
  let p := preview_of (apply_preview scope port path params) in
  preview_scope_param p = scope ?? preview_scope_param (preview_of params) ∧
  preview_port p = port ?? preview_port (preview_of params) ∧
  preview_path p = path ?? preview_path (preview_of params).
Proof.
  assert (NoDup [js "scope"; js "port"; js "path"]) as Hnd by decide_closed.
  assert (js "scope" ≠ js "port" ∧ js "scope" ≠ js "path" ∧ js "port" ≠ js "path" ∧
          js "port" ≠ js "scope" ∧ js "path" ≠ js "scope" ∧ js "path" ≠ js "port") as (? & ? & ? & ? & ? & ?) by decide_closed.
  unfold preview_of, apply_preview. cbn [preview_scope_param preview_port preview_path].
  destruct scope, port, path; rewrite ?param_get_set; rewrite ?(bool_decide_true (_ = _)), ?bool_decide_false by done; done.
Qed.

Lemma is_digit_range port : Forall (λ u, is_digit u = true) port ↔ Forall (λ u, 48 ≤ u ≤ 57) port.
Proof. apply Forall_iff. intros u. unfold is_digit. lia. Qed.

Lemma portValid_digits port :
  portValid port = true ↔ port ≠ [] ∧ Forall (λ u, 48 ≤ u ≤ 57) port ∧ 1 ≤ undec 0 port ≤ 65535.
Proof. by rewrite portValid_spec, is_digit_range. Qed.

(** The text of a number is a port exactly when the number is one, whatever
    zeros are before it. *)
Lemma portValid_number n zeros : 0 ≤ n → portValid (replicate zeros 48 ++ Z_to_js n) = true ↔ 1 ≤ n ≤ 65535.
Proof.
  intros Hn. destruct (dec_spec n Hn) as (Hv & Hne & Hd & _). rewrite portValid_spec.
  assert (Z_to_js n = dec n) as -> by (unfold Z_to_js; rewrite (proj2 (Z.ltb_ge n 0)) by lia; done).
  assert (undec 0 (replicate zeros 48 ++ dec n) = n) as -> by (by induction zeros).
  assert (replicate zeros 48 ++ dec n ≠ []) as Hne' by (by destruct zeros).
  assert (Forall (λ u, is_digit u = true) (replicate zeros 48 ++ dec n)) as Hd'.
  { apply Forall_app. split; [by apply Forall_replicate|done]. }
  naive_solver.
Qed.

(** ** Theorems *)

(** C40: a preview shows the server it names. A port is accepted exactly when
    it is written in digits and its value is between 1 and 65535, however many
    zeros are typed before it; and there is an address exactly when the port is
    accepted and the sandbox can be written in one. Two previews with the same
    address, of scopes without a slash, are of the same sandbox, scope and port,
    and of the same page, so that one sandbox's server is never shown as
    another's. *)
Theorem preview_addresses id p url
    (Hid : Forall (λ u, 0 ≤ u < 65536) id) (Hscope : 47 ∉ preview_scope_param p) (Hurl : previewUrl id p = Some url) :
  (∀ port, portValid port = true ↔ port ≠ [] ∧ Forall (λ u, 48 ≤ u ≤ 57) port ∧ 1 ≤ undec 0 port ≤ 65535) ∧
  (∀ n zeros, 0 ≤ n → portValid (replicate zeros 48 ++ Z_to_js n) = true ↔ 1 ≤ n ≤ 65535) ∧
  (∀ id' p', is_Some (previewUrl id' p') ↔ portValid (preview_port p') = true ∧ is_Some (encodeURIComponent id')) ∧
  ∀ id' p', Forall (λ u, 0 ≤ u < 65536) id' → 47 ∉ preview_scope_param p' → previewUrl id' p' = Some url →
    id = id' ∧ preview_scope_param p = preview_scope_param p' ∧ preview_port p = preview_port p' ∧
    cleanPath (preview_path p) = cleanPath (preview_path p').
Proof.
  split; [apply portValid_digits|]. split; [apply portValid_number|]. unfold previewUrl in *. split.
  { intros id' p'. destruct (portValid (preview_port p')); [|split; [by intros []|by intros [? _]]].
    rewrite fmap_is_Some. naive_solver. }
  destruct (portValid (preview_port p)) eqn:Hport; [|done]. apply portValid_spec in Hport.
  apply fmap_Some in Hurl as (enc & Henc & ->).
  intros id' p' Hid' Hscope' Hurl'. destruct (portValid (preview_port p')) eqn:Hport'; [|done].
  apply portValid_spec in Hport'. apply fmap_Some in Hurl' as (enc' & Henc' & Heq). apply app_inv_head in Heq. cbn [app] in Heq.
  apply separator_inj in Heq as [-> Heq]; [|by apply (encoded_slash id)|by apply (encoded_slash id')].
  apply separator_inj in Heq as [Hseg Heq]; [|by apply scope_segment_slash..].
  apply separator_inj in Heq as [Hp ->]; [|by apply digits_slash; apply Hport|by apply digits_slash; apply Hport'].
  pose proof (decode_encode id enc' Hid Henc) as Hd. pose proof (decode_encode id' enc' Hid' Henc') as Hd'.
  split_and!; [congruence|by apply scope_segment_inj|done..].
Qed.

Lemma preview_addresses_witness :
  portValid (js "65536") = false ∧ portValid (js "065535") = true ∧
  ∀ p', 47 ∉ preview_scope_param p' → previewUrl (js "a/b") p' = Some (js "/s/a%2Fb/isolated=w1/5173/x") → preview_scope_param p' = js "w1".
Proof.
  destruct (preview_addresses (js "a/b") {| preview_scope_param := js "w1"; preview_port := js "5173"; preview_path := js "/x" |}
    (js "/s/a%2Fb/isolated=w1/5173/x")) as (_ & Hport & _ & Hinj); [decide_closed|decide_closed|by vm_compute|]. split; [|split].
  - apply not_true_is_false. intros H. apply (Hport 65536 0%nat ltac:(lia)) in H. lia.
  - apply (Hport 65535 1%nat ltac:(lia)). lia.
  - intros p' Hp' Hurl. destruct (Hinj (js "a/b") p' ltac:(decide_closed) Hp' Hurl) as (_ & Hs & _). symmetry. exact Hs.
Defined.

(** The launcher opens the preview it was filled in for: what it
    navigates to is read back by the tab as the same scope and port with the
    path [/], which has an address; with a port that is not valid it stays. *)
Theorem launcher_opens id scope port to params (Hopen : openPreview id scope port = Some (to, params)) :
  preview_of params = {| preview_scope_param := scope; preview_port := port; preview_path := js "/" |} ∧
  (∃ enc, encodeURIComponent id = Some enc ∧ to = js "/sandboxes/" ++ enc ++ js "/preview" ∧
     previewUrl id (preview_of params) = Some (js "/s/" ++ enc ++ [47] ++ scope_segment scope ++ [47] ++ port ++ [47])) ∧
  ∀ draft, let p := preview_of (submit_port draft params) in
    preview_port p = trim draft ∧ preview_scope_param p = scope ∧ preview_path p = js "/".
Proof.
  unfold openPreview, previewPath in Hopen. destruct (portValid port) eqn:Hport; [|done].
  apply fmap_Some in Hopen as (enc & Henc & [= -> ->]).
  assert (∀ v : jsstr, preview_of [(js "scope", scope); (js "port", v); (js "path", js "/")] =
    {| preview_scope_param := scope; preview_port := v; preview_path := js "/" |}) as Hread by reflexivity.
  rewrite Hread. split; [done|split].
  - exists enc. split_and!; [done..|]. unfold previewUrl. cbn [preview_port preview_scope_param preview_path]. by rewrite Hport, Henc.
  - intros draft p. destruct (preview_apply [(js "scope", scope); (js "port", port); (js "path", js "/")] None (Some (trim draft)) None)
      as (Hs & Hp & Hpath). by rewrite Hread in Hs, Hp, Hpath.
Qed.

Lemma launcher_opens_witness :
  preview_of [(js "scope", js "w1"); (js "port", js "5173"); (js "path", js "/")] =
  {| preview_scope_param := js "w1"; preview_port := js "5173"; preview_path := js "/" |}.
Proof.
  refine (proj1 (launcher_opens (js "a/b") (js "w1") (js "5173") (js "/sandboxes/a%2Fb/preview") _ _)).
  by vm_compute.
Defined.
