(* ===== verification/Transcript.v ===== *)
(** The transcript of a command and its input
    ([web/src/pages/sandbox/terminal/TranscriptViewer.tsx], [StdinBar.tsx],
    [CommandCard.tsx]): catching up page by page, following the tail, and the
    control keys. *)
From S2P Require Import Prelude JsText Json Types TerminalText Ledger Terminal.

Definition PAGE_LIMIT : Z := 1000.

(** ** Catching up *)

(** The viewer of one command. [requested] is the offset of the call under way
    ([fetchingRef] holds while there is one); [told] lists the outputs that
    [onTerminal] was called with. *)
Record viewer := { transcript : TranscriptState; requested : option Z; told : list CommandOutput }.

Definition set_error (st : TranscriptState) (e : option jsstr) : TranscriptState :=
  {| lines := lines st; fetchedTo := fetchedTo st; totalLines := totalLines st; status := status st;
     exitCode := exitCode st; publishRejected := publishRejected st; publishRejectClass := publishRejectClass st;
     transcript_error := e; tailPinned := tailPinned st |}.

Definition set_tailPinned (st : TranscriptState) (b : bool) : TranscriptState :=
  {| lines := lines st; fetchedTo := fetchedTo st; totalLines := totalLines st; status := status st;
     exitCode := exitCode st; publishRejected := publishRejected st; publishRejectClass := publishRejectClass st;
     transcript_error := transcript_error st; tailPinned := Some b |}.

(** The call of [fetchPages], up to its first request. *)
Definition fetchPages (v : viewer) : viewer :=
  match requested v with
  | Some _ => v
  | None => {| transcript := transcript v; requested := Some (fetchedTo (transcript v)); told := told v |}
  end.

(** One turn of the loop; an error carries its [message], if it is an
    [Error]. *)
Definition page_arrives (r : outcome (option jsstr) CommandOutput) (v : viewer) : viewer :=
  match r with
  | Throws m =>
      {| transcript := set_error (transcript v) (Some (m ?? js "Transcript refresh failed.")); requested := None; told := told v |}
  | Returns out =>
      let state := absorbOutput (transcript v) out in
      let told := if bool_decide (out_status out ≠ running) then told v ++ [out] else told v in
      if fetchedTo state <? totalLines state
      then {| transcript := state; requested := Some (fetchedTo state); told := told |}
      else {| transcript := set_error state None; requested := None; told := told |}
  end.

(** The turns while calls are under way; [serve n o] answers the [n]-th call,
    for the offset [o]. *)
Fixpoint fetch_loop (serve : nat → Z → outcome (option jsstr) CommandOutput) (fuel n : nat) (v : viewer) : viewer :=
  match fuel, requested v with
  | S fuel, Some o => fetch_loop serve fuel (S n) (page_arrives (serve n o) v)
  | _, _ => v
  end.

(** ** Following the tail *)

(** The scroll position settled: less than 40 pixels above the end. *)
Definition scroll_settles (scrollHeight scrollTop clientHeight : Z) (st : TranscriptState) : TranscriptState :=
  let pinned := scrollHeight - scrollTop - clientHeight <? 40 in
  if bool_decide (tailPinned st = Some pinned) then st else set_tailPinned st pinned.

(** The effect of new lines: the row to scroll to. *)
Definition follow_tail (st : TranscriptState) : option nat :=
  if bool_decide (tailPinned st ≠ Some false) && (0 <? length (lines st))%nat
  then Some (length (lines st) - 1)%nat else None.

(** ** Input *)

Definition CTRL_C : jsstr := [3].
Definition CTRL_D : jsstr := [4].

Record key_press := { press_key : jsstr; press_ctrl : bool; press_repeat : bool }.

(** The line being typed and the two [controlPendingRef]s, of the input and of
    the frame around it. *)
Record stdin_state := { text : jsstr; input_pending : bool; frame_pending : bool }.

(** The state and the texts written. *)
Definition submitLine (s : stdin_state) : stdin_state * list jsstr :=
  ({| text := []; input_pending := input_pending s; frame_pending := frame_pending s |}, [text s ++ [10]]).

Definition sendControl (control : jsstr) (s : stdin_state) : stdin_state * list jsstr :=
  if input_pending s then (s, [])
  else ({| text := text s; input_pending := true; frame_pending := frame_pending s |}, [control]).

(** A write of the input, or of the frame, has been answered. *)
Definition input_settles (s : stdin_state) : stdin_state :=
  {| text := text s; input_pending := false; frame_pending := frame_pending s |}.
Definition frame_settles (s : stdin_state) : stdin_state :=
  {| text := text s; input_pending := input_pending s; frame_pending := false |}.

(** The input's handler; the flag tells that the event stops there. *)
Definition input_keydown (ev : key_press) (s : stdin_state) : (stdin_state * list jsstr) * bool :=
  if bool_decide (press_key ev = js "Enter") then (submitLine s, false)
  else if bool_decide (press_key ev = js "c") && press_ctrl ev then
    (if press_repeat ev then (s, []) else sendControl CTRL_C s, true)
  else if bool_decide (press_key ev = js "d") && press_ctrl ev then
    (if press_repeat ev then (s, []) else sendControl CTRL_D s, true)
  else ((s, []), false).

Definition frameKeyDown (is_running : bool) (session : option jsstr) (selecting : bool) (ev : key_press) (s : stdin_state)
    : stdin_state * list jsstr :=
  if negb is_running || negb (truthy_text session) || press_repeat ev then (s, [])
  else if selecting then (s, [])
  else if press_ctrl ev && (bool_decide (press_key ev = js "c") || bool_decide (press_key ev = js "d")) then
    if frame_pending s then (s, [])
    else ({| text := text s; input_pending := input_pending s; frame_pending := true |},
          [if bool_decide (press_key ev = js "c") then CTRL_C else CTRL_D])
  else (s, []).

(** A key pressed in the input: the input's handler, then the frame's unless
    the event was stopped. *)
Definition key_in_input (is_running : bool) (session : option jsstr) (selecting : bool) (ev : key_press) (s : stdin_state)
    : stdin_state * list jsstr :=
  let '((s, writes), halted) := input_keydown ev s in
  if halted then (s, writes)
  else let '(s, writes') := frameKeyDown is_running session selecting ev s in (s, writes ++ writes').

(** ** The card *)

(** [onTerminal] of the card: the patch of an entry that was running. *)
Definition onTerminal (out : CommandOutput) (now : Z) (e : LedgerEntry) : LedgerEntry :=
  if bool_decide (entry_status e = running) && bool_decide (out_status out ≠ running)
  then settled_patch out now e else e.

(** The preview scope chosen at first. *)
Definition defaultScope (e : LedgerEntry) (previewScopes : list jsstr) : jsstr :=
  if autoPublish e || negb (truthy_text (workspaceSessionId e)) then js "shared"
  else js_find (λ i, bool_decide (Some i = workspaceSessionId e)) previewScopes ?? js "shared".

(** What the frame shows. *)
Inductive card_body := body_transcript (session : jsstr) (stdin : bool) | body_inline (out : jsstr).

Definition card_shows (e : LedgerEntry) : card_body :=
  match commandSessionId e with
  | Some (u :: s) => body_transcript (u :: s) (bool_decide (entry_status e = running))
  | _ => body_inline (inlineOutput e ?? [])
  end.

(** ** Facts *)

(** A server that holds the lines [full] and serves pages of at most
    [PAGE_LIMIT] of them. *)
Definition page_output (full : list jsstr) (s : CommandStatus) (o : Z) : CommandOutput :=
  let stop := Z.min (o + PAGE_LIMIT) (Z.of_nat (length full)) in
  {| out_status := s; out_exit_code := None; wall_time_seconds := 0; command_total_time_seconds := 0;
     start_offset := o; end_offset := stop; total_lines := Z.of_nat (length full); original_token_count := 0;
     output := join [10] (drop (Z.to_nat o) (take (Z.to_nat stop) full)); command_session_id := None;
     workspace_session_id := None; publish_rejected := None; publish_reject_class := None |}.

Definition page_server (full : list jsstr) (s : CommandStatus) : nat → Z → outcome (option jsstr) CommandOutput :=
  λ _ o, Returns (page_output full s o).

(** The transcript holds the first [n] lines. *)
Record caught_up (full : list jsstr) (n : Z) (st : TranscriptState) : Prop := {
  caught_lines : lines st = Some <$> take (Z.to_nat n) full;
  caught_to : fetchedTo st = n;
}.

Lemma join_nil ls : join [10] ls = [] → ls = [] ∨ ls = [[]].
Proof.
  destruct ls as [|l [|l' ls]]; [by left| |].
  - cbn. intros ->. by right.
  - rewrite join_cons by done. by destruct l.
Qed.

Lemma page_output_page full s o :
  0 ≤ o < Z.of_nat (length full) → last full ≠ Some [] → page_of full (page_output full s o).
Proof.
  intros Ho Hlast. unfold page_of, page_output, PAGE_LIMIT. cbn.
  split; [lia|]. split; [lia|]. split; [done|]. intros [Hnil|Hone]%join_nil.
  - apply (f_equal length) in Hnil. rewrite length_drop, length_take in Hnil. cbn in Hnil. lia.
  - pose proof (f_equal length Hone) as Hlen. rewrite length_drop, length_take in Hlen. cbn in Hlen.
    apply Hlast. rewrite last_lookup. apply (f_equal (λ l, l !! 0%nat)) in Hone. cbn in Hone.
    rewrite lookup_drop, Nat.add_0_r in Hone. rewrite <- Hone, lookup_take_lt by lia. f_equal. lia.
Qed.

(** A page in the middle asks for the next, the last one ends the loop. *)
Lemma page_turn full shown s n v :
  Forall2 terminal_line full shown → last full ≠ Some [] → 0 ≤ n ≤ Z.of_nat (length full) → caught_up shown n (transcript v) →
  let stop := Z.min (n + PAGE_LIMIT) (Z.of_nat (length full)) in
  let v' := page_arrives (Returns (page_output full s n)) v in
  caught_up shown stop (transcript v') ∧ status (transcript v') = s ∧
  requested v' = (if stop <? Z.of_nat (length full) then Some stop else None) ∧
  (Z.of_nat (length full) ≤ stop → transcript_error (transcript v') = None) ∧
  (s ≠ running → ∃ out, last (told v') = Some out ∧ out_status out = s).
Proof.
  intros Hshown Hlast Hn [Hlines Hto] stop v'.
  assert (caught_up shown stop (absorbOutput (transcript v) (page_output full s n))) as Hcaught.
  { destruct (decide (n = Z.of_nat (length full))) as [Heq|Hne].
    - assert (stop = n) as -> by (unfold stop, PAGE_LIMIT; lia).
      unfold absorbOutput. rewrite (proj2 (Z.ltb_ge _ _)) by (cbn; unfold PAGE_LIMIT; lia). cbn [andb].
      by split.
    - assert (page_of full (page_output full s n)) as Hpage by (apply page_output_page; [lia|done]).
      destruct (absorb_page full shown (transcript v) _ n Hshown Hpage) as [Hl Ht]; [cbn; lia|lia|done|done|].
      assert (n `max` end_offset (page_output full s n) = stop) as Hstop.
      { unfold stop, page_output, PAGE_LIMIT. cbn. lia. }
      split; [by rewrite Hl, Hstop|by rewrite Ht]. }
  unfold v', page_arrives. rewrite (caught_to _ _ _ Hcaught). cbn [totalLines absorbOutput total_lines page_output].
  destruct (stop <? Z.of_nat (length full)) eqn:Hmore; bool_to_prop; cbn [transcript requested told].
  - split; [done|]. split; [done|]. split; [done|]. split; [lia|]. intros Hs.
    rewrite bool_decide_true by done. by rewrite last_snoc; eexists.
  - split; [by destruct Hcaught|]. split; [done|]. split; [done|]. split; [done|]. intros Hs.
    rewrite bool_decide_true by done. by rewrite last_snoc; eexists.
Qed.

Lemma fetch_loop_idle serve fuel n v : requested v = None → fetch_loop serve fuel n v = v.
Proof. destruct fuel; [done|]. by intros H; cbn; rewrite H. Qed.

Lemma fetch_loop_completes full shown s fuel :
  Forall2 terminal_line full shown → last full ≠ Some [] →
  ∀ k n v, 0 ≤ n ≤ Z.of_nat (length full) → caught_up shown n (transcript v) → requested v = Some n →
  Z.of_nat (length full) - n < PAGE_LIMIT * Z.of_nat fuel →
  let v' := fetch_loop (page_server full s) fuel k v in
  requested v' = None ∧ caught_up shown (Z.of_nat (length full)) (transcript v') ∧ transcript_error (transcript v') = None ∧
  status (transcript v') = s ∧ (s ≠ running → ∃ out, last (told v') = Some out ∧ out_status out = s).
Proof.
  intros Hshown Hlast. induction fuel as [|fuel IH]; intros k n v Hn Hcaught Hreq Hfuel; [lia|].
  cbn [fetch_loop]. rewrite Hreq. change (page_server full s k n) with (Returns (E := option jsstr) (page_output full s n)).
  destruct (page_turn full shown s n v Hshown Hlast Hn Hcaught) as (Hc & Hs & Hr & He & Ht).
  unfold PAGE_LIMIT in *. destruct (Z.ltb_spec (Z.min (n + 1000) (Z.of_nat (length full))) (Z.of_nat (length full))) as [Hlt|Hge].
  - eapply IH; [|exact Hc|exact Hr|]; lia.
  - rewrite !(fetch_loop_idle _ _ _ _ Hr). split; [done|]. replace (Z.min _ _) with (Z.of_nat (length full)) in Hc by lia.
    split; [exact Hc|]. split; [by apply He|]. by split.
Qed.

(** ** Theorems *)

(** C16: catching up ends with the whole transcript: a viewer that holds what
    the first [n] lines of a text show, asking a server that serves the text in
    pages, makes at most one call for every thousand missing lines and one more,
    and then holds exactly what every line shows, in order, without an error,
    with the command's status, and has reported a command that ended. What a
    line shows is its text without the control sequences in it, provided that
    each of these ends within its line and is of a kind that [terminal_line]
    lists: a page is stripped as one text, and of other output
    [strip_loses_text_between_commands] shows that whole lines are lost. And the
    last line must not be blank: see [blank_line_never_arrives]. *)
Theorem fetchPages_completes full shown s fuel k n v
    (Hshown : Forall2 terminal_line full shown) (Hlast : last full ≠ Some [])
    (Hn : 0 ≤ n ≤ Z.of_nat (length full)) (Hcaught : caught_up shown n (transcript v)) (Hidle : requested v = None)
    (Hfuel : Z.of_nat (length full) - n < PAGE_LIMIT * Z.of_nat fuel) :
  let v' := fetch_loop (page_server full s) fuel k (fetchPages v) in
  requested v' = None ∧ lines (transcript v') = Some <$> shown ∧ fetchedTo (transcript v') = Z.of_nat (length full) ∧
  transcript_error (transcript v') = None ∧ status (transcript v') = s ∧
  (s ≠ running → ∃ out, last (told v') = Some out ∧ out_status out = s).
Proof.
  intros v'. destruct (fetch_loop_completes full shown s fuel Hshown Hlast k n (fetchPages v)) as (Hr & [Hl Hto] & Hrest);
    [done| | |done|].
  - unfold fetchPages. by rewrite Hidle.
  - unfold fetchPages. rewrite Hidle. cbn. f_equal. apply Hcaught.
  - split; [done|]. split; [|by split]. fold v' in Hl. by rewrite Hl, (Forall2_length _ _ _ Hshown), Nat2Z.id, firstn_all.
Qed.

Definition example_viewer : viewer := {| transcript := fresh_transcript; requested := None; told := [] |}.

Lemma fetchPages_completes_witness :
  lines (transcript (fetch_loop (page_server [example_red; []; js "b"] ok) 1 0 (fetchPages example_viewer)))
  = [Some (js "a"); Some []; Some (js "b")].
Proof.
  refine (proj1 (proj2 (fetchPages_completes [example_red; []; js "b"] [js "a"; []; js "b"] ok 1 0 0 example_viewer _ _ _ _ eq_refl _))).
  - constructor; [apply example_red_line|]. apply plain_lines. decide_closed.
  - done.
  - cbn; lia.
  - by split.
  - cbn; unfold PAGE_LIMIT; lia.
Defined.

(** A blank last line never arrives, and the viewer asks for it again and
    again without a pause: its page is the empty text, which is taken for no
    output, so the offset stays where it was while the total says that a line
    is missing. *)
Theorem blank_line_never_arrives full s fuel k v
    (Hcaught : caught_up (full ++ [[]]) (Z.of_nat (length full)) (transcript v))
    (Hreq : requested v = Some (Z.of_nat (length full))) :
  let v' := fetch_loop (page_server (full ++ [[]]) s) fuel k v in
  requested v' = Some (Z.of_nat (length full)) ∧ lines (transcript v') = Some <$> full.
Proof.
  revert k v Hcaught Hreq. induction fuel as [|fuel IH]; intros k v Hcaught Hreq; cbn [fetch_loop].
  { split; [done|]. rewrite (caught_lines _ _ _ Hcaught), Nat2Z.id. by rewrite take_app_length. }
  rewrite Hreq. assert (output (page_output (full ++ [[]]) s (Z.of_nat (length full))) = []) as Hout.
  { unfold page_output, PAGE_LIMIT. cbn [output]. rewrite length_app. cbn [length].
    replace (Z.to_nat (Z.min _ _)) with (length (full ++ [[]])) by (rewrite length_app; cbn [length]; lia).
    rewrite firstn_all, Nat2Z.id, drop_app_length. done. }
  destruct Hcaught as [Hlines Hto]. unfold page_server at 2 4, page_arrives, absorbOutput. rewrite Hout, andb_false_r.
  cbn [fetchedTo totalLines total_lines page_output]. rewrite Hto, length_app, (proj2 (Z.ltb_lt _ _)) by (cbn [length]; lia).
  apply IH; [by split|]. cbn. done.
Qed.

Definition example_blank : viewer :=
  {| transcript := absorbOutput fresh_transcript (page_output [js "a"] running 0); requested := Some 1; told := [] |}.

Lemma blank_line_never_arrives_witness :
  requested (fetch_loop (page_server [js "a"; []] running) 50 0 example_blank) = Some 1.
Proof.
  refine (proj1 (blank_line_never_arrives [js "a"] running 50 0 example_blank _ eq_refl)). by split.
Defined.

(** What the keys write to a running command: Enter writes the typed line
    with a line break and clears it; Ctrl-C and Ctrl-D write their control
    unit once, not when the key repeats nor while an earlier control is on its
    way, and never through the frame as well; every other key writes nothing. *)
Theorem stdin_keys is_running session selecting ev s :
  let r := key_in_input is_running session selecting ev s in
  (press_key ev = js "Enter" → r.2 = [text s ++ [10]] ∧ text r.1 = []) ∧
  (press_ctrl ev = true → press_key ev = js "c" ∨ press_key ev = js "d" →
   r.2 = (if press_repeat ev || input_pending s then [] else [if bool_decide (press_key ev = js "c") then [3] else [4]]) ∧
   text r.1 = text s ∧ frame_pending r.1 = frame_pending s ∧
   input_pending r.1 = input_pending s || negb (press_repeat ev)) ∧
  (press_key ev ≠ js "Enter" → press_ctrl ev = false ∨ (press_key ev ≠ js "c" ∧ press_key ev ≠ js "d") → r = (s, [])).
Proof.
  unfold key_in_input, input_keydown. split; [|split].
  - intros Hk. rewrite Hk, bool_decide_true by done. cbn [submitLine].
    unfold frameKeyDown. rewrite Hk. destruct (_ || _ || _), selecting, (press_ctrl ev); done.
  - intros Hc Hk. rewrite Hc, bool_decide_false by (destruct Hk as [-> | ->]; done).
    destruct s as [line pending frame]. destruct Hk as [Hk|Hk]; rewrite Hk;
      rewrite ?(bool_decide_true (js "c" = js "c")), ?(bool_decide_false (js "d" = js "c")), ?(bool_decide_true (js "d" = js "d")) by done;
      unfold sendControl; by destruct (press_repeat ev), pending.
  - intros Hne Hk. rewrite bool_decide_false by done.
    assert (∀ x, x = js "c" ∨ x = js "d" → bool_decide (press_key ev = x) && press_ctrl ev = false) as Hno.
    { intros x Hx. destruct Hk as [-> |[? ?]]; [apply andb_false_r|]. rewrite bool_decide_false; [done|].
      destruct Hx as [-> | ->]; done. }
    rewrite !Hno by auto. unfold frameKeyDown. destruct (_ || _ || _), selecting; [done..|].
    rewrite andb_orb_distrib_r, !(andb_comm (press_ctrl ev)), !Hno by auto. done.
Qed.
