(* ===== verification/TerminalPage.v ===== *)
(** The terminal tab as it lives
    ([web/src/pages/sandbox/terminal/TerminalTab.tsx]): its renders and the
    effects that follow them in their order, the ledger that is loaded, saved,
    reconciled with the snapshot and settled, and what becomes of it when
    another sandbox is opened or a command is launched. *)
From S2P Require Import Prelude JsNumber JsText Json Types TerminalText WebStorage Observability Activity Ledger Terminal Transcript.

(** ** Reading entries back *)

(** The elements [loadLedger] casts to entries. Elements that [saveLedger] has
    not written are outside the model, and dropped. *)
Definition status_named (s : jsstr) : option CommandStatus :=
  js_find (λ c, bool_decide (CommandStatus_string c = s)) [running; ok; error; timed_out; cancelled].

Definition field_text (v : option json) : option jsstr := match v with Some (JStr s) => Some s | _ => None end.
Definition field_opt_text (v : option json) : option (option jsstr) :=
  match v with Some JNull => Some None | Some (JStr s) => Some (Some s) | _ => None end.
Definition field_bool (v : option json) : option bool := match v with Some (JBool b) => Some b | _ => None end.
Definition field_int (v : option json) : option Z := match v with Some (JNum n) => num_to_Z n | _ => None end.
Definition field_opt_int (v : option json) : option (option Z) :=
  match v with Some JNull => Some None | Some (JNum n) => Some <$> num_to_Z n | _ => None end.

Definition entry_of_json (v : json) : option LedgerEntry :=
  i ← field_text (get "localId" v);
  command ← field_opt_text (get "commandSessionId" v);
  c ← field_text (get "cmd" v);
  session ← field_opt_text (get "workspaceSessionId" v);
  auto ← field_bool (get "autoPublish" v);
  started ← field_int (get "startedAt" v);
  s ← field_text (get "status" v) ≫= status_named;
  code ← field_opt_int (get "exitCode" v);
  ended ← field_opt_int (get "endedAt" v);
  inline ← field_opt_text (get "inlineOutput" v);
  rejected ← field_bool (get "publishRejected" v);
  class ← field_opt_text (get "publishRejectClass" v);
  Some {| localId := i; commandSessionId := command; cmd := c; workspaceSessionId := session; autoPublish := auto;
          startedAt := started; entry_status := s; entry_exitCode := code; endedAt := ended; inlineOutput := inline;
          entry_publishRejected := rejected; entry_publishRejectClass := class |}.

Definition entries_of (l : list json) : list LedgerEntry := omap entry_of_json l.

(** ** The tab *)

(** A request of the settling effect: the sandbox asked, the entry it was for
    and the command. *)
Record asking := { asked_sandbox : jsstr; asked_entry : jsstr; asked_command : jsstr }.

(** [rendered] is the ledger of the last render and [queued] what the updates
    queued since make of it; [dirty] tells that this is another array, so that
    the next render has a new ledger. [finalizing] is [finalizingRef]. *)
Record tab := {
  tab_sandbox : jsstr;
  tab_snapshot : option SnapshotResult;
  rendered : list LedgerEntry;
  queued : list LedgerEntry;
  dirty : bool;
  expandedIds : gset jsstr;
  optimisticIds : gset jsstr;
  finalizing : gset jsstr;
  settling : list asking;
  storage : Storage;
}.

Definition with_ledger (t : tab) (l : list LedgerEntry) : tab :=
  {| tab_sandbox := tab_sandbox t; tab_snapshot := tab_snapshot t; rendered := rendered t; queued := l; dirty := true;
     expandedIds := expandedIds t; optimisticIds := optimisticIds t; finalizing := finalizing t; settling := settling t;
     storage := storage t |}.

Definition with_storage (t : tab) (s : Storage) : tab :=
  {| tab_sandbox := tab_sandbox t; tab_snapshot := tab_snapshot t; rendered := rendered t; queued := queued t;
     dirty := dirty t; expandedIds := expandedIds t; optimisticIds := optimisticIds t; finalizing := finalizing t;
     settling := settling t; storage := s |}.

Definition with_sets (t : tab) (expanded optimistic : gset jsstr) : tab :=
  {| tab_sandbox := tab_sandbox t; tab_snapshot := tab_snapshot t; rendered := rendered t; queued := queued t;
     dirty := dirty t; expandedIds := expanded; optimisticIds := optimistic; finalizing := finalizing t;
     settling := settling t; storage := storage t |}.

Definition with_settling (t : tab) (f : gset jsstr) (l : list asking) : tab :=
  {| tab_sandbox := tab_sandbox t; tab_snapshot := tab_snapshot t; rendered := rendered t; queued := queued t;
     dirty := dirty t; expandedIds := expandedIds t; optimisticIds := optimisticIds t; finalizing := f;
     settling := l; storage := storage t |}.

(** ** The effects *)

Section effects.
(** The browser's quota, [crypto.randomUUID()] for a command, and the clock. *)
Context (fits : gmap jsstr jsstr → bool) (uuid : jsstr → jsstr) (now : Z).

(** Another sandbox: its ledger is loaded. *)
Definition load_effect (sandbox_changed : bool) (t : tab) : tab :=
  if sandbox_changed then with_sets (with_ledger t (entries_of (loadLedger (storage t) (tab_sandbox t)))) ∅ ∅ else t.

Definition save_effect (changed : bool) (t : tab) : tab :=
  if changed then with_storage t (saveLedger fits (storage t) (tab_sandbox t) (rendered t)) else t.

Definition prune_effect (t : tab) : tab :=
  if bool_decide (optimisticIds t = ∅) then t
  else with_sets t (expandedIds t) (prune_optimistic (tab_snapshot t) (tab_sandbox t) (optimisticIds t)).

Definition flights (t : tab) : list flight := inFlight (terminal_workspaces (tab_snapshot t) (tab_sandbox t)).

Definition reconcile_effect (changed : bool) (t : tab) : tab :=
  if changed && bool_decide (tab_snapshot t ≠ None)
  then match reconcile uuid now (flights t) (queued t) with Some l => with_ledger t l | None => t end
  else t.

(** It looks at the ledger as rendered. *)
Definition settle_effect (changed : bool) (t : tab) : tab :=
  if changed && bool_decide (tab_snapshot t ≠ None)
  then let '(requests, f) := settle_requests (flights t) (finalizing t) (rendered t) in
       with_settling t f (settling t ++ ((λ r, {| asked_sandbox := tab_sandbox t; asked_entry := r.1; asked_command := r.2 |}) <$> requests))
  else t.

(** A render with these props, and the effects whose dependencies changed, in
    the order of the source. [new_snapshot]: the snapshot is another object
    than at the last render. Without an entry for the sandbox the fallback
    [[]] makes new workspaces in every render. *)
Definition render (sandboxId : jsstr) (snapshot : option SnapshotResult) (new_snapshot : bool) (t : tab) : tab :=
  let sandbox_changed := bool_decide (sandboxId ≠ tab_sandbox t) in
  let ledger_changed := dirty t in
  let workspaces_changed := sandbox_changed || new_snapshot || bool_decide (snapshotForSandbox snapshot sandboxId = None) in
  let t := {| tab_sandbox := sandboxId; tab_snapshot := snapshot; rendered := queued t; queued := queued t; dirty := false;
              expandedIds := expandedIds t; optimisticIds := optimisticIds t; finalizing := finalizing t;
              settling := settling t; storage := storage t |} in
  settle_effect (sandbox_changed || ledger_changed || workspaces_changed)
    (reconcile_effect workspaces_changed
      (prune_effect (save_effect (sandbox_changed || ledger_changed) (load_effect sandbox_changed t)))).

(** Mounting: the ledger is loaded for the first render, and the effects all
    run, the loading one included. *)
Definition mount_tab (sandboxId : jsstr) (snapshot : option SnapshotResult) (s : Storage) : tab :=
  let l := entries_of (loadLedger s sandboxId) in
  let t := {| tab_sandbox := sandboxId; tab_snapshot := snapshot; rendered := l; queued := l; dirty := false;
              expandedIds := ∅; optimisticIds := ∅; finalizing := ∅; settling := []; storage := s |} in
  settle_effect true (reconcile_effect true (prune_effect (save_effect true (load_effect true t)))).
End effects.

(** ** What happens to it *)

(** An answer of the settling effect; a failure changes nothing but the set. *)
Definition settled (a : asking) (r : option CommandOutput) (now : Z) (t : tab) : tab :=
  let t := match r with
           | Some out => if bool_decide (out_status out = running) then t
                         else with_ledger t (settle_answer out now (asked_entry a) (queued t))
           | None => t
           end in
  with_settling t (finalizing t ∖ {[asked_command a]}) (js_filter (λ b, negb (bool_decide (asked_command b = asked_command a))) (settling t)).

(** [onUpdate] of the card of an entry, when its transcript reports the end;
    the card compares with the entry as rendered. *)
Definition card_settles (i : jsstr) (out : CommandOutput) (now : Z) (t : tab) : tab :=
  match js_find (λ e, bool_decide (localId e = i)) (rendered t) with
  | Some e => if bool_decide (entry_status e = running) && bool_decide (out_status out ≠ running)
              then with_ledger t (patchEntry i (settled_patch out now) (queued t)) else t
  | None => t
  end.

(** [onLaunched], for the answer of a command. *)
Definition launched (entry : LedgerEntry) (t : tab) : tab :=
  let '(l, expanded) := onLaunched entry (queued t) (expandedIds t) in with_sets (with_ledger t l) expanded (optimisticIds t).

Definition toggle (i : jsstr) (t : tab) : tab :=
  with_sets t (if bool_decide (i ∈ expandedIds t) then expandedIds t ∖ {[i]} else {[i]} ∪ expandedIds t) (optimisticIds t).

(** The effect of an address that names a command. *)
Definition hash_effect (command : jsstr) (t : tab) : tab :=
  match js_find (λ e, bool_decide (commandSessionId e = Some command)) (rendered t) with
  | Some e => with_sets t ({[localId e]} ∪ expandedIds t) (optimisticIds t)
  | None => t
  end.

(** [uuid], [now] and [later] are what the browser gives at that event. *)
Inductive tab_event : tab → tab → Prop :=
  | tab_settled a r now t : a ∈ settling t → tab_event t (settled a r now t)
  | tab_card_settles i out now t : tab_event t (card_settles i out now t)
  | tab_launched uuid now later command session out t :
      tab_event t (launched (entryFromExec uuid now later command session out) t)
  | tab_toggles i t : tab_event t (toggle i t)
  | tab_addressed command t : tab_event t (hash_effect command t).

Section steps.
Context (fits : gmap jsstr jsstr → bool).

Inductive tab_step : tab → tab → Prop :=
  | tab_renders sandboxId snapshot new_snapshot uuid now t :
      tab_step t (render fits uuid now sandboxId snapshot new_snapshot t)
  | tab_happens t t' : tab_event t t' → tab_step t t'.

Inductive tab_reachable : tab → Prop :=
  | tab_mounts uuid now sandboxId snapshot s :
      WebStorage.available s = true → tab_reachable (mount_tab fits uuid now sandboxId snapshot s)
  | tab_goes t t' : tab_reachable t → tab_step t t' → tab_reachable t'.
End steps.

(** ** Facts: entries read back *)

Lemma entry_fields v1 v2 v3 v4 v5 v6 v7 v8 v9 v10 v11 v12 :
  let v := JObj [(js "localId", v1); (js "commandSessionId", v2); (js "cmd", v3); (js "workspaceSessionId", v4);
    (js "autoPublish", v5); (js "startedAt", v6); (js "status", v7); (js "exitCode", v8); (js "endedAt", v9);
    (js "inlineOutput", v10); (js "publishRejected", v11); (js "publishRejectClass", v12)] in
  get "localId" v = Some v1 ∧ get "commandSessionId" v = Some v2 ∧ get "cmd" v = Some v3 ∧ get "workspaceSessionId" v = Some v4 ∧
  get "autoPublish" v = Some v5 ∧ get "startedAt" v = Some v6 ∧ get "status" v = Some v7 ∧ get "exitCode" v = Some v8 ∧
  get "endedAt" v = Some v9 ∧ get "inlineOutput" v = Some v10 ∧ get "publishRejected" v = Some v11 ∧ get "publishRejectClass" v = Some v12.
Proof. vm_compute. split_and!; reflexivity. Qed.

Lemma field_opt_text_json o : field_opt_text (Some (json_opt_str o)) = Some o.
Proof. by destruct o. Qed.

Lemma field_int_json z : safe_int z → field_int (Some (JNum (num_of_Z z))) = Some z.
Proof. apply num_to_Z_of_Z. Qed.

Lemma field_opt_int_json o : safe_opt_int o → field_opt_int (Some (json_opt_int o)) = Some o.
Proof. destruct o as [z|]; [|done]. intros Hz. unfold json_opt_int, field_opt_int. by rewrite num_to_Z_of_Z by (by apply Hz). Qed.

Lemma status_named_string s : status_named (CommandStatus_string s) = Some s.
Proof. by destruct s; vm_compute. Qed.

Lemma entry_read_back e : wf_entry e → entry_of_json (entry_json e) = Some e.
Proof.
  intros []. unfold entry_json, entry_of_json.
  pose proof (entry_fields (JStr (localId e)) (json_opt_str (commandSessionId e)) (JStr (cmd e)) (json_opt_str (workspaceSessionId e))
    (JBool (autoPublish e)) (JNum (num_of_Z (startedAt e))) (JStr (CommandStatus_string (entry_status e)))
    (json_opt_int (entry_exitCode e)) (json_opt_int (endedAt e)) (json_opt_str (inlineOutput e))
    (JBool (entry_publishRejected e)) (json_opt_str (entry_publishRejectClass e))) as H.
  cbv zeta in H. destruct H as (-> & -> & -> & -> & -> & -> & -> & -> & -> & -> & -> & ->).
  rewrite !field_opt_text_json, field_int_json, !field_opt_int_json by done. cbn [field_text field_bool mbind option_bind].
  rewrite status_named_string. cbn [mbind option_bind]. by destruct e.
Qed.

Lemma entries_read_back l : Forall wf_entry l → entries_of (entry_json <$> l) = l.
Proof.
  induction 1 as [|e l He _ IH]; [done|]. unfold entries_of in *. rewrite fmap_cons.
  change (match entry_of_json (entry_json e) with Some y => y :: omap entry_of_json (entry_json <$> l) | None => omap entry_of_json (entry_json <$> l) end = e :: l).
  by rewrite entry_read_back, IH.
Qed.

(** ** Facts: the stored text *)

Definition saved_text (l : list LedgerEntry) : jsstr := stringify (JArr (entry_json <$> slice_last LEDGER_CAP l)).

Definition stored (s : Storage) (sandboxId : jsstr) : option jsstr := items s !! storageKey sandboxId.

Lemma saveLedger_stored fits s sandboxId l (Hfits : ∀ m, fits m = true) (Hs : WebStorage.available s = true) :
  let s' := saveLedger fits s sandboxId l in
  WebStorage.available s' = true ∧ stored s' sandboxId = Some (saved_text l) ∧
  (∀ other, other ≠ sandboxId → stored s' other = stored s other).
Proof.
  unfold saveLedger, setItem. rewrite Hs, Hfits. cbn. unfold stored. cbn. split_and!; [done|by rewrite lookup_insert_eq|].
  intros other Hne. apply lookup_insert_ne. intros Heq%storageKey_inj. congruence.
Qed.

Lemma loadLedger_stored s sandboxId l : WebStorage.available s = true → Forall wf_entry l →
  stored s sandboxId = Some (saved_text l) → entries_of (loadLedger s sandboxId) = slice_last LEDGER_CAP l.
Proof.
  intros Hs Hwf Ht. unfold loadLedger. rewrite getItem_available by done. unfold stored in Ht. rewrite Ht.
  assert (Forall wf_entry (slice_last LEDGER_CAP l)) as Hwf'.
  { destruct (slice_last_suffix LEDGER_CAP l) as [k Hk]. rewrite Hk in Hwf. by apply Forall_app in Hwf as [_ ?]. }
  unfold saved_text. rewrite bool_decide_false by apply stringify_array_nonempty. rewrite parse_stringify.
  - by apply entries_read_back.
  - constructor. apply Forall_fmap. eapply Forall_impl; [exact Hwf'|apply entry_json_plain].
Qed.

(** ** Facts: a render *)

Lemma settle_effect_frame c t : let t' := settle_effect c t in
  tab_sandbox t' = tab_sandbox t ∧ tab_snapshot t' = tab_snapshot t ∧ rendered t' = rendered t ∧ queued t' = queued t ∧
  dirty t' = dirty t ∧ storage t' = storage t ∧ expandedIds t' = expandedIds t ∧ optimisticIds t' = optimisticIds t.
Proof. unfold settle_effect. destruct (_ && _); [|done]. by destruct (settle_requests _ _ _). Qed.

Lemma reconcile_effect_frame uuid now c t : let t' := reconcile_effect uuid now c t in
  tab_sandbox t' = tab_sandbox t ∧ tab_snapshot t' = tab_snapshot t ∧ rendered t' = rendered t ∧ storage t' = storage t ∧
  expandedIds t' = expandedIds t ∧ finalizing t' = finalizing t ∧ settling t' = settling t ∧
  (t' = t ∨ dirty t' = true) ∧
  queued t' = (if c && bool_decide (tab_snapshot t ≠ None) then reconciled_ledger uuid now (flights t) (queued t) else queued t).
Proof.
  unfold reconcile_effect, reconciled_ledger. destruct (c && _); [|by auto 10].
  destruct (reconcile uuid now (flights t) (queued t)); cbn; by auto 10.
Qed.

Lemma prune_effect_frame t : let t' := prune_effect t in
  tab_sandbox t' = tab_sandbox t ∧ tab_snapshot t' = tab_snapshot t ∧ rendered t' = rendered t ∧ queued t' = queued t ∧
  dirty t' = dirty t ∧ storage t' = storage t ∧ expandedIds t' = expandedIds t ∧ finalizing t' = finalizing t ∧ settling t' = settling t.
Proof. unfold prune_effect. by destruct (bool_decide _). Qed.

(** The ledger that the effects of a render start from. *)
Definition loaded (sandboxId : jsstr) (t : tab) : list LedgerEntry :=
  if bool_decide (sandboxId ≠ tab_sandbox t) then entries_of (loadLedger (storage t) sandboxId) else queued t.

(** What a render does, but for the settling requests. *)
Lemma render_spec fits uuid now sandboxId snapshot new t :
  let t' := render fits uuid now sandboxId snapshot new t in
  let fs := inFlight (terminal_workspaces snapshot sandboxId) in
  let changed := bool_decide (sandboxId ≠ tab_sandbox t) in
  tab_sandbox t' = sandboxId ∧ tab_snapshot t' = snapshot ∧ rendered t' = queued t ∧
  storage t' = (if changed || dirty t then saveLedger fits (storage t) sandboxId (queued t) else storage t) ∧
  queued t' = (if (changed || new || bool_decide (snapshotForSandbox snapshot sandboxId = None)) && bool_decide (snapshot ≠ None)
               then reconciled_ledger uuid now fs (loaded sandboxId t) else loaded sandboxId t) ∧
  (dirty t' = false → queued t' = rendered t') ∧
  expandedIds t' = (if changed then ∅ else expandedIds t).
Proof.
  cbv zeta. unfold render. set (t0 := Build_tab _ _ _ _ _ _ _ _ _ _). set (changed := bool_decide (sandboxId ≠ tab_sandbox t)).
  set (ws_changed := changed || new || _). set (t1 := load_effect changed t0).
  set (t2 := save_effect fits (changed || dirty t) t1).
  destruct (settle_effect_frame (changed || dirty t || ws_changed) (reconcile_effect uuid now ws_changed (prune_effect t2)))
    as (-> & -> & -> & -> & -> & -> & -> & _).
  destruct (reconcile_effect_frame uuid now ws_changed (prune_effect t2)) as (-> & -> & -> & -> & -> & _ & _ & Hdirty & ->).
  destruct (prune_effect_frame t2) as (Hs & Hsnap & Hr & Hq & Hd & Hst & Hex & _ & _).
  assert (tab_sandbox t2 = sandboxId ∧ tab_snapshot t2 = snapshot ∧ rendered t2 = queued t ∧ queued t2 = loaded sandboxId t ∧
          (dirty t2 = false → queued t2 = rendered t2) ∧ expandedIds t2 = (if changed then ∅ else expandedIds t) ∧
          storage t2 = (if changed || dirty t then saveLedger fits (storage t) sandboxId (queued t) else storage t))
    as (H1 & H2 & H3 & H4 & H5 & H6 & H7).
  { unfold t2, save_effect, t1, load_effect, loaded. fold changed. destruct changed, (dirty t); done. }
  unfold flights. rewrite Hs, Hsnap, Hr, Hq, Hst, Hex, H1, H2, H3, H4, H6, H7.
  split_and!; try done. destruct Hdirty as [Heq|Hd'].
  - rewrite Heq, Hd. intros Hfalse. rewrite <- H3, <- H5, H4 by done.
    pose proof (f_equal queued Heq) as Hqq.
    destruct (reconcile_effect_frame uuid now ws_changed (prune_effect t2)) as (_ & _ & _ & _ & _ & _ & _ & _ & Hval).
    rewrite Hval in Hqq. unfold flights in Hqq. by rewrite Hs, Hsnap, Hq, H1, H2, H4 in Hqq.
  - rewrite Hd'. done.
Qed.

(** ** The history is kept *)

Lemma reconciled_prefix uuid now fs l : localId <$> l `prefix_of` localId <$> reconciled_ledger uuid now fs l.
Proof.
  rewrite reconciled_ledger_eq, fmap_app. apply prefix_app_r. rewrite <- list_fmap_compose.
  replace (localId ∘ reconcile_entry fs <$> l) with (localId <$> l); [done|].
  apply list_fmap_ext. intros i e _. cbn. symmetry. apply reconcile_entry_same.
Qed.

Lemma patchEntry_ids i patch l : (∀ e, localId (patch e) = localId e) → localId <$> patchEntry i patch l = localId <$> l.
Proof.
  intros Hp. unfold patchEntry. rewrite <- list_fmap_compose. apply list_fmap_ext. intros j e _. cbn.
  by destruct (bool_decide _).
Qed.

(** No command is ever dropped from the terminal while its sandbox is
    open: whatever is rendered, launched, answered or clicked, the entries
    stay where they are, in order, and new ones come after them. *)
Theorem tab_keeps_history fits t t' (Hstep : tab_step fits t t') (Hsame : tab_sandbox t' = tab_sandbox t) :
  localId <$> queued t `prefix_of` localId <$> queued t'.
Proof.
  destruct Hstep as [sandboxId snapshot new uuid now t|? ? [a r now t _|i out now t|uuid now later command session out t|i t|command t]].
  - destruct (render_spec fits uuid now sandboxId snapshot new t) as (Hs & _ & _ & _ & -> & _). cbv zeta in *.
    rewrite Hs in Hsame. subst sandboxId. unfold loaded. rewrite bool_decide_false by naive_solver.
    destruct (_ && _); [apply reconciled_prefix|done].
  - unfold settled. cbn. destruct r as [out|]; [|done]. destruct (bool_decide _) eqn:Hrun; [done|]. cbn.
    unfold settle_answer. rewrite Hrun. by rewrite patchEntry_ids.
  - unfold card_settles. destruct (js_find _ _); [|done]. destruct (_ && _); [|done]. cbn. by rewrite patchEntry_ids.
  - cbn. rewrite fmap_app. by apply prefix_app_r.
  - done.
  - unfold hash_effect. by destruct (js_find _ _).
Qed.

(** ** What is stored *)

Record tab_saved (t : tab) : Prop := {
  saved_available : WebStorage.available (storage t) = true;
  saved_current : stored (storage t) (tab_sandbox t) = Some (saved_text (rendered t));
  saved_clean : dirty t = false → queued t = rendered t;
}.

Lemma mount_saved fits uuid now sandboxId snapshot s : (∀ m, fits m = true) → WebStorage.available s = true →
  tab_saved (mount_tab fits uuid now sandboxId snapshot s).
Proof.
  intros Hfits Hs. unfold mount_tab. set (l := entries_of _). set (t0 := Build_tab _ _ _ _ _ _ _ _ _ _).
  set (t1 := save_effect fits true (load_effect true t0)).
  destruct (settle_effect_frame true (reconcile_effect uuid now true (prune_effect t1))) as (Es & _ & Er & Eq & Ed & Est & _).
  destruct (reconcile_effect_frame uuid now true (prune_effect t1)) as (Es' & _ & Er' & Est' & _ & _ & _ & Hd & _).
  destruct (prune_effect_frame t1) as (Es'' & _ & Er'' & _ & Ed'' & Est'' & _).
  destruct (saveLedger_stored fits s sandboxId l Hfits Hs) as (Ha & Hc & _).
  assert (dirty t1 = true) as Hdirty by done.
  constructor.
  - rewrite Est, Est', Est''. exact Ha.
  - rewrite Es, Es', Es'', Est, Est', Est'', Er, Er', Er''. exact Hc.
  - rewrite Ed. destruct Hd as [-> |Hd]; [|by rewrite Hd]. by rewrite Ed'', Hdirty.
Qed.

Lemma tab_step_saved fits t t' : (∀ m, fits m = true) → tab_step fits t t' → tab_saved t →
  tab_saved t' ∧ (∀ other, other ≠ tab_sandbox t' → stored (storage t') other = stored (storage t) other).
Proof.
  intros Hfits Hstep [Ha Hc Hq].
  destruct Hstep as [sandboxId snapshot new uuid now t|? ? [a r now t _|i out now t|uuid now later command session out t|i t|command t]].
  - destruct (render_spec fits uuid now sandboxId snapshot new t) as (Hs & _ & Hr & Hst & _ & Hclean & _). cbv zeta in *.
    set (t' := render _ _ _ _ _ _ _) in *.
    destruct (saveLedger_stored fits (storage t) sandboxId (queued t) Hfits Ha) as (Ha' & Hc' & Ho').
    destruct (bool_decide (sandboxId ≠ tab_sandbox t) || dirty t) eqn:Hch; rewrite Hst in *.
    + split; [by constructor; [rewrite Hst|rewrite Hst, Hs, Hr|]|]. rewrite Hs. exact Ho'.
    + apply orb_false_iff in Hch as [Hsame%bool_decide_eq_false Hd]. apply dec_stable in Hsame. rewrite Hsame in *.
      split; [|done]. constructor; [by rewrite Hst|rewrite Hst, Hs, Hr; by rewrite Hq|done].
  - split; [|unfold settled; destruct r as [out|]; [destruct (bool_decide _)|]; done].
    unfold settled. destruct r as [out|]; [destruct (bool_decide _)|]; by constructor.
  - unfold card_settles. destruct (js_find _ _); [|done]. destruct (_ && _); [|done]. split; [by constructor|done].
  - split; [by constructor|done].
  - split; [by constructor|done].
  - unfold hash_effect. destruct (js_find _ _); (split; [by constructor|done]).
Qed.

(** What the terminal shows is what it will find again: while the browser
    takes the writes, in every state the stored ledger of the open sandbox is
    the last 200 entries of the rendered one, there is nothing unsaved unless
    another render is due, and no step touches the stored ledger of any
    sandbox but the one it opens or has open. *)
Theorem tab_ledger_saved fits t (Hfits : ∀ m, fits m = true) (Hreach : tab_reachable fits t) :
  stored (storage t) (tab_sandbox t) = Some (saved_text (rendered t)) ∧
  (dirty t = false → queued t = rendered t) ∧
  (∀ t' other, tab_step fits t t' → other ≠ tab_sandbox t' → stored (storage t') other = stored (storage t) other).
Proof.
  assert (tab_saved t) as Hsaved.
  { induction Hreach as [uuid now sandboxId snapshot s Hs|t t' _ IH Hstep]; [by apply mount_saved|].
    by apply (tab_step_saved fits t t'). }
  split; [apply Hsaved|]. split; [apply Hsaved|]. intros t' other Hstep. by apply (tab_step_saved fits t t').
Qed.

(** C4: Opening another sandbox and coming to rest there shows exactly the
    ledger stored for it, followed by what its daemon reports in flight, with
    nothing expanded; the ledger of the sandbox left stays as it was, and the
    other one is stored as it is shown. On the way, until the second render,
    the store holds the entries of the sandbox left under the name of the one
    opened. *)
Theorem tab_switch fits uuid now uuid' now' sandboxId snapshot t l
    (Hfits : ∀ m, fits m = true) (Hsaved : tab_saved t) (Hdirty : dirty t = false) (Hne : sandboxId ≠ tab_sandbox t)
    (Hstored : stored (storage t) sandboxId = Some (saved_text l)) (Hl : Forall wf_entry l) :
  let t1 := render fits uuid now sandboxId snapshot true t in
  let t2 := render fits uuid' now' sandboxId snapshot false t1 in
  let shown := if bool_decide (snapshot ≠ None)
               then reconciled_ledger uuid now (inFlight (terminal_workspaces snapshot sandboxId)) (slice_last LEDGER_CAP l)
               else slice_last LEDGER_CAP l in
  stored (storage t1) sandboxId = Some (saved_text (rendered t)) ∧
  rendered t2 = shown ∧ expandedIds t2 = ∅ ∧
  stored (storage t2) sandboxId = Some (saved_text shown) ∧
  stored (storage t2) (tab_sandbox t) = Some (saved_text (rendered t)).
Proof.
  cbv zeta. set (t1 := render fits uuid now sandboxId snapshot true t). set (t2 := render fits uuid' now' sandboxId snapshot false t1).
  pose proof (tab_renders fits sandboxId snapshot true uuid now t) as Hstep1. fold t1 in Hstep1.
  pose proof (tab_renders fits sandboxId snapshot false uuid' now' t1) as Hstep2. fold t2 in Hstep2.
  destruct (tab_step_saved fits t t1 Hfits Hstep1 Hsaved) as [Hsaved1 Hother1].
  destruct (tab_step_saved fits t1 t2 Hfits Hstep2 Hsaved1) as [Hsaved2 Hother2].
  pose proof (render_spec fits uuid now sandboxId snapshot true t) as R1. cbv zeta in R1. fold t1 in R1.
  destruct R1 as (Hs1 & _ & Hr1 & _ & Hq1 & _ & Hex1).
  pose proof (render_spec fits uuid' now' sandboxId snapshot false t1) as R2. cbv zeta in R2. fold t2 in R2.
  destruct R2 as (Hs2 & _ & Hr2 & _ & _ & _ & Hex2).
  unfold loaded in Hq1. rewrite bool_decide_true, orb_true_l, andb_true_l in Hq1 by done.
  rewrite (loadLedger_stored _ _ l) in Hq1 by (done || apply Hsaved).
  rewrite bool_decide_true in Hex1 by done. rewrite Hs1, bool_decide_false in Hex2 by naive_solver.
  split_and!.
  - pose proof (saved_current _ Hsaved1) as Hc. rewrite Hs1, Hr1 in Hc. by rewrite <- (saved_clean _ Hsaved Hdirty).
  - by rewrite Hr2, Hq1.
  - by rewrite Hex2, Hex1.
  - pose proof (saved_current _ Hsaved2) as Hc. by rewrite Hs2, Hr2, Hq1 in Hc.
  - rewrite Hother2, Hother1 by (rewrite ?Hs1, ?Hs2; done). apply Hsaved.
Qed.

(** ** Settling *)

(** A command the tab shows running although the daemon does not report it. *)
Definition overdue (fs : list flight) (l : list LedgerEntry) (c : jsstr) : Prop :=
  c ≠ [] ∧ flight_get c fs = None ∧ ∃ e, e ∈ l ∧ entry_status e = running ∧ commandSessionId e = Some c.

Record settle_acc_ok (fs : list flight) (finalizing : gset jsstr) (l : list LedgerEntry) (acc : list (jsstr * jsstr) * gset jsstr) : Prop := {
  acc_set : acc.2 = list_to_set acc.1.*2 ∪ finalizing;
  acc_NoDup : NoDup acc.1.*2;
  acc_fresh : ∀ c, c ∈ acc.1.*2 → c ∉ finalizing;
  acc_overdue : ∀ c, c ∈ acc.1.*2 → overdue fs l c;
  acc_complete : ∀ c, overdue fs l c → c ∈ acc.2;
}.

Lemma overdue_snoc fs l e c : overdue fs (l ++ [e]) c ↔
  overdue fs l c ∨ (c ≠ [] ∧ flight_get c fs = None ∧ entry_status e = running ∧ commandSessionId e = Some c).
Proof.
  unfold overdue. setoid_rewrite elem_of_app. setoid_rewrite list_elem_of_singleton. naive_solver.
Qed.

Lemma settle_step_ok fs finalizing l acc e : settle_acc_ok fs finalizing l acc →
  settle_acc_ok fs finalizing (l ++ [e]) (settle_step fs acc e).
Proof.
  intros [Hset Hnd Hfresh Hover Hcomp]. unfold settle_step.
  destruct (commandSessionId e) as [i|] eqn:Hi.
  2: { constructor; try done; intros c; rewrite overdue_snoc; [by left; apply Hover|]. intros [?|?]; [by apply Hcomp|naive_solver]. }
  destruct (negb _ || _ || _ || _) eqn:Hskip.
  - assert (overdue fs (l ++ [e]) i → i ∈ acc.2) as Hi'.
    { rewrite overdue_snoc. intros [?|(Hne & Hfl & Hrun & _)]; [by apply Hcomp|].
      rewrite Hrun, Hfl, !bool_decide_eq_true_2, (bool_decide_eq_false_2 (i = [])) in Hskip by done.
      cbn [negb orb] in Hskip. rewrite bool_decide_eq_false_2 in Hskip by naive_solver. by apply bool_decide_eq_true in Hskip. }
    constructor; try done; intros c; [rewrite overdue_snoc; by left; apply Hover|].
    intros Hc. pose proof Hc as Hc'. rewrite overdue_snoc in Hc'. destruct Hc' as [?|(_ & _ & _ & Heq)]; [by apply Hcomp|].
    assert (c = i) as -> by congruence. by apply Hi'.
  - rewrite !orb_false_iff, negb_false_iff, bool_decide_eq_true, !bool_decide_eq_false in Hskip.
    destruct Hskip as [[[Hrun Hne] Hfl] Hnew]. apply dec_stable in Hfl.
    assert (overdue fs (l ++ [e]) i) as Hov by (rewrite overdue_snoc; by right).
    constructor; cbn [fst snd]; rewrite ?fmap_app; cbn [fmap list_fmap snd].
    + rewrite Hset, list_to_set_app_L. cbn. set_solver.
    + apply NoDup_app. split; [done|]. split; [|apply NoDup_singleton]. intros c Hc ->%list_elem_of_singleton.
      apply Hnew. rewrite Hset. set_solver.
    + intros c [Hc| ->%list_elem_of_singleton]%elem_of_app; [by apply Hfresh|]. rewrite Hset in Hnew. set_solver.
    + intros c [Hc| ->%list_elem_of_singleton]%elem_of_app; [|done]. rewrite overdue_snoc. left. by apply Hover.
    + intros c. rewrite overdue_snoc. intros [Hc|(_ & _ & _ & Heq)]; [apply Hcomp in Hc; set_solver|].
      assert (c = i) as -> by congruence. set_solver.
Qed.

Lemma settle_requests_ok fs finalizing l : settle_acc_ok fs finalizing l (settle_requests fs finalizing l).
Proof.
  unfold settle_requests. induction l as [|e l IH] using rev_ind.
  - constructor; cbn; try (intros; by apply not_elem_of_nil in H); [set_solver|constructor|].
    intros c (_ & _ & e & He & _). by apply not_elem_of_nil in He.
  - rewrite foldl_app. by apply settle_step_ok.
Qed.

(** The set of commands being asked about is that of the requests out. *)
Record settling_ok (t : tab) : Prop := {
  settling_set : finalizing t = list_to_set (asked_command <$> settling t);
  settling_NoDup : NoDup (asked_command <$> settling t);
}.

Lemma settle_effect_ok c t : settling_ok t → settling_ok (settle_effect c t).
Proof.
  intros [Hset Hnd]. unfold settle_effect. destruct (_ && _); [|done].
  pose proof (settle_requests_ok (flights t) (finalizing t) (rendered t)) as [Hacc Hreq Hfresh _ _].
  destruct (settle_requests _ _ _) as [requests f]. cbn [fst snd] in *.
  constructor; cbn [finalizing settling with_settling]; rewrite fmap_app, <- list_fmap_compose;
    change (asked_command ∘ _) with (snd : jsstr * jsstr → jsstr).
  - rewrite list_to_set_app_L, Hacc, Hset. apply union_comm_L.
  - apply NoDup_app. split; [done|]. split; [|done]. intros c' Hc Hc'. apply (Hfresh c' Hc'). rewrite Hset. by apply elem_of_list_to_set.
Qed.

Lemma settling_ok_same t t' : finalizing t' = finalizing t → settling t' = settling t → settling_ok t → settling_ok t'.
Proof. intros Hf Hs [H1 H2]. constructor; by rewrite ?Hf, ?Hs. Qed.

Lemma effects_settling fits uuid now c1 c2 c3 t :
  let t' := reconcile_effect uuid now c3 (prune_effect (save_effect fits c2 (load_effect c1 t))) in
  finalizing t' = finalizing t ∧ settling t' = settling t.
Proof.
  cbv zeta. destruct (reconcile_effect_frame uuid now c3 (prune_effect (save_effect fits c2 (load_effect c1 t))))
    as (_ & _ & _ & _ & _ & -> & -> & _).
  destruct (prune_effect_frame (save_effect fits c2 (load_effect c1 t))) as (_ & _ & _ & _ & _ & _ & _ & -> & ->).
  unfold save_effect, load_effect. by destruct c1, c2.
Qed.

Lemma filter_commands a (l : list asking) : NoDup (asked_command <$> l) →
  NoDup (asked_command <$> js_filter (λ b, negb (bool_decide (asked_command b = asked_command a))) l) ∧
  (list_to_set (asked_command <$> js_filter (λ b, negb (bool_decide (asked_command b = asked_command a))) l) : gset jsstr)
  = list_to_set (asked_command <$> l) ∖ {[asked_command a]}.
Proof.
  intros Hnd. split; [eapply sublist_NoDup; [exact Hnd|]; apply fmap_sublist, js_filter_sublist|].
  apply set_eq. intros c. rewrite elem_of_difference, elem_of_singleton, !elem_of_list_to_set, !list_elem_of_fmap.
  setoid_rewrite js_filter_elem. setoid_rewrite negb_true_iff. setoid_rewrite bool_decide_eq_false. naive_solver.
Qed.

Lemma tab_step_settling fits t t' : tab_step fits t t' → settling_ok t → settling_ok t'.
Proof.
  intros Hstep Hok.
  destruct Hstep as [sandboxId snapshot new uuid now t|? ? [a r now t _|i out now t|uuid now later command session out t|i t|command t]].
  - apply settle_effect_ok.
    destruct (effects_settling fits uuid now (bool_decide (sandboxId ≠ tab_sandbox t)) (bool_decide (sandboxId ≠ tab_sandbox t) || dirty t)
      (bool_decide (sandboxId ≠ tab_sandbox t) || new || bool_decide (snapshotForSandbox snapshot sandboxId = None))
      {| tab_sandbox := sandboxId; tab_snapshot := snapshot; rendered := queued t; queued := queued t; dirty := false;
         expandedIds := expandedIds t; optimisticIds := optimisticIds t; finalizing := finalizing t;
         settling := settling t; storage := storage t |}) as [Hf Hs].
    by apply (settling_ok_same t).
  - destruct Hok as [Hset Hnd]. destruct (filter_commands a _ Hnd) as [Hnd' Hset'].
    unfold settled. destruct r as [out|]; [destruct (bool_decide _)|]; constructor; cbn; rewrite ?Hset'; by rewrite ?Hset.
  - unfold card_settles. destruct (js_find _ _); [|done]. destruct (_ && _); [|done]. by apply (settling_ok_same t).
  - by apply (settling_ok_same t).
  - by apply (settling_ok_same t).
  - unfold hash_effect. destruct (js_find _ _); [|done]. by apply (settling_ok_same t).
Qed.

(** What a render with a new snapshot asks. *)
Lemma render_settling fits uuid now sandboxId snapshot t : snapshot ≠ None →
  let t' := render fits uuid now sandboxId snapshot true t in
  let fs := inFlight (terminal_workspaces snapshot sandboxId) in
  (∀ c, overdue fs (rendered t') c → c ∈ finalizing t') ∧
  ∃ asked, settling t' = settling t ++ asked ∧
    finalizing t' = list_to_set (asked_command <$> asked) ∪ finalizing t ∧
    ∀ a, a ∈ asked → asked_sandbox a = sandboxId ∧ overdue fs (rendered t') (asked_command a).
Proof.
  intros Hsnap. cbv zeta.
  destruct (render_spec fits uuid now sandboxId snapshot true t) as (_ & _ & Hr & _). cbv zeta in Hr. rewrite Hr.
  unfold render. rewrite !orb_true_r, !orb_true_l.
  set (t0 := Build_tab _ _ _ _ _ _ _ _ _ _). set (c1 := bool_decide (sandboxId ≠ tab_sandbox t)).
  set (t1 := reconcile_effect uuid now true (prune_effect (save_effect fits (c1 || dirty t) (load_effect c1 t0)))).
  destruct (effects_settling fits uuid now c1 (c1 || dirty t) true t0) as [Hf Hs].
  destruct (reconcile_effect_frame uuid now true (prune_effect (save_effect fits (c1 || dirty t) (load_effect c1 t0)))) as (E1 & E2 & E3 & _).
  destruct (prune_effect_frame (save_effect fits (c1 || dirty t) (load_effect c1 t0))) as (F1 & F2 & F3 & _).
  fold t1 in E1, E2, E3, Hf, Hs.
  assert (tab_sandbox t1 = sandboxId ∧ tab_snapshot t1 = snapshot ∧ rendered t1 = queued t) as (G1 & G2 & G3).
  { rewrite E1, E2, E3, F1, F2, F3. unfold save_effect, load_effect. by destruct c1, (dirty t). }
  unfold settle_effect, flights. rewrite G1, G2, G3, bool_decide_true by done. cbn [andb].
  pose proof (settle_requests_ok (inFlight (terminal_workspaces snapshot sandboxId)) (finalizing t1) (queued t)) as [Hset _ _ Hover Hcomp].
  destruct (settle_requests _ _ _) as [requests f]. cbn [fst snd finalizing settling with_settling] in *. split; [done|].
  eexists. rewrite Hs. split; [done|]. rewrite <- list_fmap_compose. change (asked_command ∘ _) with (snd : jsstr * jsstr → jsstr).
  split; [by rewrite Hset, Hf|]. intros a (r & -> & Hr')%list_elem_of_fmap. cbn. split; [done|].
  apply Hover. by apply list_elem_of_fmap_2.
Qed.

Lemma reachable_settling fits t : tab_reachable fits t → settling_ok t.
Proof.
  induction 1 as [uuid now sandboxId snapshot s Hs|t t' _ IH Hstep]; [|by apply (tab_step_settling fits t t')].
  apply settle_effect_ok. destruct (effects_settling fits uuid now true true true
    {| tab_sandbox := sandboxId; tab_snapshot := snapshot; rendered := entries_of (loadLedger s sandboxId);
       queued := entries_of (loadLedger s sandboxId); dirty := false; expandedIds := ∅; optimisticIds := ∅;
       finalizing := ∅; settling := []; storage := s |}) as [Hf Hset].
  constructor; rewrite ?Hf, ?Hset; [done|constructor].
Qed.

(** A command that is shown running but that its daemon no longer reports
    is asked about once: in every state the requests out are for different
    commands, exactly those of the set that holds back further ones; after a
    render with a new snapshot every such command is being asked about; and
    nothing else was asked. *)
Theorem tab_settles_overdue fits t (Hreach : tab_reachable fits t) :
  NoDup (asked_command <$> settling t) ∧ finalizing t = list_to_set (asked_command <$> settling t) ∧
  (∀ sandboxId snapshot uuid now, snapshot ≠ None →
     let t' := render fits uuid now sandboxId snapshot true t in
     let fs := inFlight (terminal_workspaces snapshot sandboxId) in
     (∀ c, overdue fs (rendered t') c → c ∈ asked_command <$> settling t') ∧
     ∃ asked, settling t' = settling t ++ asked ∧
       ∀ a, a ∈ asked → asked_sandbox a = sandboxId ∧ overdue fs (rendered t') (asked_command a)).
Proof.
  pose proof (reachable_settling fits t Hreach) as Hok. split; [apply Hok|]. split; [apply Hok|].
  intros sandboxId snapshot uuid now Hsnap. cbv zeta.
  destruct (render_settling fits uuid now sandboxId snapshot t Hsnap) as (Hcomp & asked & Hset & _ & Hasked).
  destruct (tab_step_settling fits t _ (tab_renders fits sandboxId snapshot true uuid now t) Hok) as [Hset' _].
  split; [|eauto]. intros c Hc%Hcomp. rewrite Hset' in Hc. by apply elem_of_list_to_set in Hc.
Qed.

(** ** Where the tab crosses sandboxes *)

(** The render that opens another sandbox still has the entries of the one
    left, and asks the daemon of the sandbox opened about them: each command
    that was running there, and was not being asked about, is asked of the
    wrong daemon. (The snapshot is that of the sandbox left until the one
    opened has answered, so it reports none of them in flight.) *)
Theorem tab_switch_asks_wrong_daemon fits uuid now sandboxId snapshot t e c
    (Hsnap : snapshotForSandbox snapshot sandboxId = None) (Hsome : snapshot ≠ None)
    (He : e ∈ queued t) (Hrun : entry_status e = running) (Hc : commandSessionId e = Some c) (Hc' : c ≠ [])
    (Hnew : c ∉ finalizing t) :
  ∃ a, a ∈ settling (render fits uuid now sandboxId snapshot true t) ∧ asked_command a = c ∧ asked_sandbox a = sandboxId.
Proof.
  destruct (render_settling fits uuid now sandboxId snapshot t Hsome) as (Hcomp & asked & Hset & Hfin & Hasked).
  destruct (render_spec fits uuid now sandboxId snapshot true t) as (_ & _ & Hr & _). cbv zeta in *.
  assert (c ∈ finalizing (render fits uuid now sandboxId snapshot true t)) as Hin.
  { apply Hcomp. rewrite Hr. split; [done|]. split; [|by exists e]. unfold terminal_workspaces. by rewrite Hsnap. }
  rewrite Hfin, elem_of_union, elem_of_list_to_set, list_elem_of_fmap in Hin.
  destruct Hin as [(a & -> & Ha)|?]; [|done]. exists a. rewrite Hset, elem_of_app.
  split; [by right|]. split; [done|]. by apply Hasked.
Qed.

(** A command launched in one sandbox, and answered when another has been
    opened, joins the ledger of the other: it is shown there, as an entry that
    no snapshot of that sandbox will ever settle, and stored there, and is
    missing from the ledger of the sandbox it runs in. *)
Theorem tab_launch_lands_elsewhere fits uuid now uuid' now' sandboxId snapshot t e
    (Hfits : ∀ m, fits m = true) (Hsaved : tab_saved t) (Hne : sandboxId ≠ tab_sandbox t) :
  let t' := render fits uuid' now' sandboxId snapshot false (launched e (render fits uuid now sandboxId snapshot true t)) in
  last (rendered t') = Some e ∧ stored (storage t') sandboxId = Some (saved_text (rendered t')) ∧
  stored (storage t') (tab_sandbox t) = stored (storage t) (tab_sandbox t).
Proof.
  cbv zeta. set (t1 := render fits uuid now sandboxId snapshot true t). set (t2 := launched e t1).
  set (t3 := render fits uuid' now' sandboxId snapshot false t2).
  destruct (tab_step_saved fits t t1 Hfits (tab_renders _ _ _ _ _ _ _) Hsaved) as [Hsaved1 Hother1].
  assert (tab_saved t2) as Hsaved2 by (destruct Hsaved1; by constructor).
  destruct (tab_step_saved fits t2 t3 Hfits (tab_renders _ _ _ _ _ _ _) Hsaved2) as [Hsaved3 Hother3].
  pose proof (render_spec fits uuid now sandboxId snapshot true t) as R1. cbv zeta in R1. fold t1 in R1. destruct R1 as (Hs1 & _).
  pose proof (render_spec fits uuid' now' sandboxId snapshot false t2) as R3. cbv zeta in R3. fold t3 in R3.
  destruct R3 as (Hs3 & _ & Hr3 & _). split; [rewrite Hr3; apply last_snoc|]. split.
  - pose proof (saved_current _ Hsaved3) as Hc. by rewrite Hs3 in Hc.
  - rewrite Hother3 by (rewrite Hs3; congruence). change (storage t2) with (storage t1).
    apply Hother1. rewrite Hs1. congruence.
Qed.

(** A command that a snapshot has reported before its launch is answered has
    two entries afterwards: one from the snapshot, and one from the launch. *)
Theorem tab_launch_duplicates t e f c
    (He : commandSessionId e = Some c) (Hf : f ∈ queued t) (Hfc : commandSessionId f = Some c) :
  ∃ l, known_commands (queued (launched e t)) = l ++ [c] ∧ c ∈ l.
Proof.
  exists (known_commands (queued t)). cbn. unfold known_commands. rewrite omap_snoc, He. split; [done|].
  apply list_elem_of_omap. by exists f.
Qed.

(** ** Examples *)

Definition example_exec (c : string) : CommandOutput :=
  {| out_status := running; out_exit_code := None; wall_time_seconds := 0; command_total_time_seconds := 0;
     start_offset := 0; end_offset := 0; total_lines := 0; original_token_count := 0; output := [];
     command_session_id := Some (js c); workspace_session_id := None; publish_rejected := None; publish_reject_class := None |}.

(** Two sandboxes, each with a command stored as running. *)
Definition example_stored (c : string) : list LedgerEntry :=
  [entryFromSnapshot (js "entry-" ++ js c) 1700000000000 (js c) (js "ws") None].

Definition example_store : Storage :=
  {| WebStorage.available := true;
     items := {[storageKey (js "a") := saved_text (example_stored "c1"); storageKey (js "b") := saved_text (example_stored "c2")]} |}.

Definition example_mount : tab := mount_tab (λ _, true) (λ i, i) 1700000000001 (js "a") (Some {| snapshots := [] |}) example_store.

(** The tab of the first sandbox, at rest. *)
Definition example_tab : tab := render (λ _, true) (λ i, i) 1700000000002 (js "a") (Some {| snapshots := [] |}) false example_mount.

Lemma example_tab_reachable : tab_reachable (λ _, true) example_tab.
Proof. exact (tab_goes _ _ _ (tab_mounts _ _ _ _ _ example_store eq_refl) (tab_renders _ _ _ _ _ _ _)). Qed.

Lemma example_tab_saved : tab_saved example_tab ∧ dirty example_tab = false ∧
  settling example_tab = [{| asked_sandbox := js "a"; asked_entry := js "entry-c1"; asked_command := js "c1" |}] ∧
  rendered example_tab = example_stored "c1".
Proof. split; [|vm_compute; split_and!; reflexivity]. split; vm_compute; reflexivity. Qed.

Lemma tab_keeps_history_witness :
  localId <$> queued example_tab `prefix_of` localId <$> queued (toggle (js "entry-c1") example_tab).
Proof. exact (tab_keeps_history (λ _, true) _ _ (tab_happens _ _ _ (tab_toggles (js "entry-c1") example_tab)) eq_refl). Defined.

Lemma tab_ledger_saved_witness : stored (storage example_tab) (js "a") = Some (saved_text (example_stored "c1")).
Proof.
  refine (eq_trans (proj1 (tab_ledger_saved (λ _, true) example_tab (λ _, eq_refl) example_tab_reachable)) _).
  vm_compute. reflexivity.
Defined.

Lemma example_stored_wf : Forall wf_entry (example_stored "c2").
Proof. constructor; [|constructor]. constructor; try (intros ? [=]; subst); try decide_closed; discriminate. Qed.

(** The other sandbox is opened: its command is shown. *)
Lemma tab_switch_witness :
  rendered (render (λ _, true) (λ i, i) 0 (js "b") None false (render (λ _, true) (λ i, i) 0 (js "b") None true example_tab))
  = example_stored "c2".
Proof.
  destruct example_tab_saved as (Hsaved & Hdirty & _).
  refine (eq_trans (proj1 (proj2 (tab_switch (λ _, true) (λ i, i) 0 (λ i, i) 0 (js "b") None example_tab (example_stored "c2")
    (λ _, eq_refl) Hsaved Hdirty _ _ example_stored_wf))) _).
  - vm_compute. discriminate.
  - vm_compute. reflexivity.
  - vm_compute. reflexivity.
Defined.

Lemma tab_settles_overdue_witness : finalizing example_tab = {[js "c1"]}.
Proof.
  refine (eq_trans (proj1 (proj2 (tab_settles_overdue (λ _, true) example_tab example_tab_reachable))) _).
  vm_compute. reflexivity.
Defined.

(** With the answer for its own daemon in, the command is asked of the other
    sandbox's daemon as that sandbox opens. *)
Lemma tab_switch_asks_wrong_daemon_witness :
  ∃ a, asked_command a = js "c1" ∧ asked_sandbox a = js "b".
Proof.
  set (t := settled {| asked_sandbox := js "a"; asked_entry := js "entry-c1"; asked_command := js "c1" |} None 0 example_tab).
  assert (queued t = example_stored "c1") as Hq by (vm_compute; reflexivity).
  destruct (tab_switch_asks_wrong_daemon (λ _, true) (λ i, i) 0 (js "b") (Some {| snapshots := [] |}) t
    (entryFromSnapshot (js "entry-c1") 1700000000000 (js "c1") (js "ws") None) (js "c1")) as (a & _ & Hc & Hs).
  - reflexivity.
  - discriminate.
  - rewrite Hq. apply list_elem_of_here.
  - reflexivity.
  - reflexivity.
  - vm_compute. discriminate.
  - decide_closed.
  - exact (ex_intro _ a (conj Hc Hs)).
Defined.

Lemma tab_launch_lands_elsewhere_witness :
  last (rendered (render (λ _, true) (λ i, i) 0 (js "b") None false
    (launched (entryFromExec (js "e") 0 0 (js "make") None (example_exec "c3"))
      (render (λ _, true) (λ i, i) 0 (js "b") None true example_tab))))
  = Some (entryFromExec (js "e") 0 0 (js "make") None (example_exec "c3")).
Proof.
  refine (proj1 (tab_launch_lands_elsewhere (λ _, true) (λ i, i) 0 (λ i, i) 0 (js "b") None example_tab _ (λ _, eq_refl)
    (proj1 example_tab_saved) _)).
  vm_compute. discriminate.
Defined.

Lemma tab_launch_duplicates_witness : ∃ l,
  known_commands (queued (launched (entryFromExec (js "e") 0 0 (js "make") None (example_exec "c1")) example_tab)) = l ++ [js "c1"] ∧ js "c1" ∈ l.
Proof.
  assert (queued example_tab = example_stored "c1") as Hq by (vm_compute; reflexivity).
  refine (tab_launch_duplicates example_tab (entryFromExec (js "e") 0 0 (js "make") None (example_exec "c1"))
    (entryFromSnapshot (js "entry-c1") 1700000000000 (js "c1") (js "ws") None) (js "c1") eq_refl _ eq_refl).
  rewrite Hq. apply list_elem_of_here.
Defined.
