(* ===== verification/TerminalPolling.v ===== *)
(** The terminal tab and the transcript scheduler together
    ([TerminalTab.tsx], [CommandCard.tsx], [TranscriptViewer.tsx] and
    [TranscriptPollProvider.tsx] of [web/src/pages/sandbox/terminal]): the
    cards a render mounts register their transcripts and take them back, and
    the rounds of the scheduler catch every one of them up. *)
From S2P Require Import Prelude JsText Json Types TerminalText WebStorage Observability Activity Ledger TranscriptPoll Terminal Transcript TerminalPage.

(** ** Registrations *)

(** [`${sandboxId}:${commandSessionId}`]. *)
Definition poll_key (sandboxId command : jsstr) : jsstr := sandboxId ++ 58 :: command.

(** The card of an entry mounts a transcript that polls when it is expanded,
    has a command and is running: the card and its key. *)
Definition viewer_key (sandboxId : jsstr) (expanded : gset jsstr) (e : LedgerEntry) : option (jsstr * jsstr) :=
  match commandSessionId e with
  | Some c => if bool_decide (localId e ∈ expanded) && negb (bool_decide (c = [])) && bool_decide (entry_status e = running)
              then Some (localId e, poll_key sandboxId c) else None
  | None => None
  end.

Definition subscriptions (sandboxId : jsstr) (expanded : gset jsstr) (cards : list LedgerEntry) : list (jsstr * jsstr) :=
  omap (viewer_key sandboxId expanded) cards.

(** A commit: the clean-ups of the effects that are gone or have another key
    run first, then the effects that are new. *)
Definition unsubscribe (gone : list (jsstr * jsstr)) (s : scheduler) : scheduler := foldl (λ s p, unregister p.2 s) s gone.
Definition subscribe (new : list (jsstr * jsstr)) (s : scheduler) : scheduler := foldl (λ s p, (register p.2 s).2) s new.

Definition commit_cards (old new : list (jsstr * jsstr)) (s : scheduler) : scheduler :=
  subscribe (js_filter (λ p, negb (bool_decide (p ∈ old))) new)
    (unsubscribe (js_filter (λ p, negb (bool_decide (p ∈ new))) old) s).

(** ** The system *)

Record terminal := { page : tab; subs : list (jsstr * jsstr); sched : scheduler }.

Definition with_page (w : terminal) (t : tab) : terminal := {| page := t; subs := subs w; sched := sched w |}.
Definition with_sched (w : terminal) (s : scheduler) : terminal := {| page := page w; subs := subs w; sched := s |}.

Section system.
Context (fits : gmap jsstr jsstr → bool).

(** The entries a render shows: the address chooses among them. *)
Definition shown_entries (params : search_params) (sandboxId : jsstr) (snapshot : option SnapshotResult) (t : tab) : list LedgerEntry :=
  visibleLedger snapshot sandboxId params (optimisticIds t) (queued t).

(** A render of the tab with the effects of the cards (children first) and its
    own. *)
Definition terminal_render (uuid : jsstr → jsstr) (now : Z) (params : search_params) (sandboxId : jsstr)
    (snapshot : option SnapshotResult) (new_snapshot : bool) (w : terminal) : terminal :=
  let new := subscriptions sandboxId (expandedIds (page w)) (shown_entries params sandboxId snapshot (page w)) in
  {| page := render fits uuid now sandboxId snapshot new_snapshot (page w); subs := new;
     sched := commit_cards (subs w) new (sched w) |}.

Inductive terminal_step : terminal → terminal → Prop :=
  | terminal_renders uuid now params sandboxId snapshot new_snapshot w :
      terminal_step w (terminal_render uuid now params sandboxId snapshot new_snapshot w)
  | terminal_page w t : tab_event (page w) t → terminal_step w (with_page w t)
  | terminal_focus w : terminal_step w (with_sched w (onFocus (sched w)).2)
  | terminal_visibility h w : terminal_step w (with_sched w (onVisibilityChange h (sched w)).2)
  | terminal_tick w : timer (sched w) ≠ None → terminal_step w (with_sched w (runPoll (sched w)).2)
  | terminal_settled w : polling (sched w) = true → terminal_step w (with_sched w (poll_settled (sched w))).

Definition terminal_init (uuid : jsstr → jsstr) (now : Z) (sandboxId : jsstr) (snapshot : option SnapshotResult) (s : Storage) (h : bool) : terminal :=
  {| page := mount_tab fits uuid now sandboxId snapshot s; subs := []; sched := initial_scheduler h |}.

Inductive terminal_reachable : terminal → Prop :=
  | terminal_starts uuid now sandboxId snapshot s h :
      WebStorage.available s = true → terminal_reachable (terminal_init uuid now sandboxId snapshot s h)
  | terminal_goes w w' : terminal_reachable w → terminal_step w w' → terminal_reachable w'.
End system.

(** ** Facts: registrations *)

Lemma syncTimer_pollers reset s : pollers (syncTimer reset s) = pollers s.
Proof. unfold syncTimer. destruct reset, (bool_decide _) eqn:?; try done; by destruct (timer s). Qed.

Lemma syncTimer_polling reset s : polling (syncTimer reset s) = polling s.
Proof. unfold syncTimer. destruct reset, (bool_decide _) eqn:?; try done; by destruct (timer s). Qed.

Lemma runPoll_pollers s : pollers (runPoll s).2 = pollers s.
Proof. unfold runPoll. destruct (polling s); [done|]. by destruct (bool_decide _). Qed.

Lemma unregister_elem k key s : k ∈ pollers (unregister key s) ↔ k ∈ pollers s ∧ k ≠ key.
Proof.
  unfold unregister. rewrite syncTimer_pollers. cbn. rewrite js_filter_elem, negb_true_iff, bool_decide_eq_false. done.
Qed.

Lemma register_elem k key s : k ∈ pollers (register key s).2 ↔ k ∈ pollers s ∨ k = key.
Proof.
  unfold register. rewrite runPoll_pollers, syncTimer_pollers. cbn. destruct (bool_decide_reflect (key ∈ pollers s)) as [Hin|Hin].
  - split; [by left|]. intros [?| ->]; done.
  - rewrite elem_of_app, list_elem_of_singleton. done.
Qed.

Lemma unsubscribe_elem k gone s : k ∈ pollers (unsubscribe gone s) ↔ k ∈ pollers s ∧ k ∉ gone.*2.
Proof.
  revert s. induction gone as [|p gone IH]; intros s; [cbn; rewrite elem_of_nil; naive_solver|].
  change (unsubscribe (p :: gone) s) with (unsubscribe gone (unregister p.2 s)).
  rewrite IH, unregister_elem, fmap_cons, not_elem_of_cons. naive_solver.
Qed.

Lemma subscribe_elem k new s : k ∈ pollers (subscribe new s) ↔ k ∈ pollers s ∨ k ∈ new.*2.
Proof.
  revert s. induction new as [|p new IH]; intros s; [cbn; rewrite elem_of_nil; naive_solver|].
  change (subscribe (p :: new) s) with (subscribe new (register p.2 s).2).
  rewrite IH, register_elem, fmap_cons, elem_of_cons. naive_solver.
Qed.

(** What is registered after a commit. *)
Lemma commit_elem k old new s : k ∈ pollers (commit_cards old new s) ↔
  (k ∈ pollers s ∧ (∀ i, (i, k) ∈ old → (i, k) ∈ new)) ∨ (∃ i, (i, k) ∈ new ∧ (i, k) ∉ old).
Proof.
  unfold commit_cards. rewrite subscribe_elem, unsubscribe_elem, !list_elem_of_fmap.
  setoid_rewrite js_filter_elem. setoid_rewrite negb_true_iff. setoid_rewrite bool_decide_eq_false. split.
  - intros [[Hk Hn]|([i k'] & -> & ? & ?)]; [left|right; eauto]. split; [done|]. intros i Hi.
    apply dec_stable. intros Hni. apply Hn. by exists (i, k).
  - intros [[Hk Hn]|(i & ? & ?)]; [left|right; by exists (i, k)]. split; [done|]. intros ([i k'] & -> & Hi & Hni). by apply Hni, Hn.
Qed.

Lemma commit_ok old new s : scheduler_ok s → scheduler_ok (commit_cards old new s).
Proof.
  assert (∀ gone s, scheduler_ok s → scheduler_ok (unsubscribe gone s)) as Hun.
  { induction gone as [|p gone IH]; [done|]. intros s' Hs. cbn. apply IH. eapply sched_step_ok; [apply step_unregister|done]. }
  assert (∀ new s, scheduler_ok s → scheduler_ok (subscribe new s)) as Hsub.
  { induction new0 as [|p new0 IH]; [done|]. intros s' Hs. cbn. apply IH. eapply sched_step_ok; [apply step_register|done]. }
  intros Hs. by apply Hsub, Hun.
Qed.

(** Nothing is polled but what a card shows. *)
Lemma commit_within old new s : (∀ k, k ∈ pollers s → k ∈ old.*2) → ∀ k, k ∈ pollers (commit_cards old new s) → k ∈ new.*2.
Proof.
  intros Hold k [[Hk Hn]|(i & Hi & _)]%commit_elem; [|apply list_elem_of_fmap; by exists (i, k)].
  apply Hold in Hk. apply list_elem_of_fmap in Hk as ([i k'] & -> & Hi). apply list_elem_of_fmap. exists (i, k'). auto.
Qed.

Lemma fst_of_NoDup (l : list (jsstr * jsstr)) i j k : NoDup l.*2 → (i, k) ∈ l → (j, k) ∈ l → i = j.
Proof.
  intros Hnd [a Ha]%list_elem_of_lookup [b Hb]%list_elem_of_lookup.
  assert (a = b) as ->; [|congruence].
  eapply (NoDup_lookup _ _ _ k Hnd); rewrite list_lookup_fmap; [by rewrite Ha|by rewrite Hb].
Qed.

(** And all of it, when no two cards are for the same command. *)
Lemma commit_exact old new s : scheduler_ok s → pollers s ≡ₚ old.*2 → NoDup new.*2 → pollers (commit_cards old new s) ≡ₚ new.*2.
Proof.
  intros Hok Hold Hnew. assert (NoDup old.*2) as Hnd by (rewrite <- Hold; apply Hok).
  apply NoDup_Permutation; [apply (commit_ok old new s Hok)|done|]. intros k. split.
  - apply commit_within. intros k'. by rewrite Hold.
  - intros ([i k'] & -> & Hi)%list_elem_of_fmap. apply commit_elem. cbn [snd].
    destruct (decide ((i, k') ∈ old)) as [Ho|Ho]; [left|right; eauto]. split.
    + rewrite Hold. apply list_elem_of_fmap. by exists (i, k').
    + intros j Hj. by rewrite (fst_of_NoDup old j i k' Hnd).
Qed.

Lemma poll_key_inj sandboxId c c' : poll_key sandboxId c = poll_key sandboxId c' → c = c'.
Proof. unfold poll_key. intros H%app_inv_head. congruence. Qed.

(** Distinct commands have distinct keys. *)
Lemma subscriptions_NoDup sandboxId expanded cards : NoDup (known_commands cards) → NoDup (subscriptions sandboxId expanded cards).*2.
Proof.
  intros Hnd. assert ((subscriptions sandboxId expanded cards).*2 `sublist_of` poll_key sandboxId <$> known_commands cards) as Hsub.
  { clear Hnd. induction cards as [|e cards IH]; [constructor|]. unfold subscriptions, known_commands in *.
    change (omap commandSessionId (e :: cards)) with
      (match commandSessionId e with Some y => y :: omap commandSessionId cards | None => omap commandSessionId cards end).
    change (omap (viewer_key sandboxId expanded) (e :: cards)) with
      (match viewer_key sandboxId expanded e with Some y => y :: omap (viewer_key sandboxId expanded) cards | None => omap (viewer_key sandboxId expanded) cards end).
    unfold viewer_key at 1. destruct (commandSessionId e) as [c|]; [|done].
    destruct (_ && _); cbn; [by constructor|by constructor]. }
  eapply sublist_NoDup; [|exact Hsub]. apply NoDup_fmap_2_strong; [|done]. intros c c' _ _. apply poll_key_inj.
Qed.

Lemma known_filter (P : LedgerEntry → bool) l : known_commands (js_filter P l) `sublist_of` known_commands l.
Proof.
  unfold known_commands. induction l as [|e l IH]; [constructor|].
  change (omap commandSessionId (e :: l)) with
    (match commandSessionId e with Some y => y :: omap commandSessionId l | None => omap commandSessionId l end).
  cbn [js_filter]. destruct (P e).
  - change (omap commandSessionId (e :: js_filter P l)) with
      (match commandSessionId e with Some y => y :: omap commandSessionId (js_filter P l) | None => omap commandSessionId (js_filter P l) end).
    by destruct (commandSessionId e); [constructor|].
  - destruct (commandSessionId e); [by constructor|done].
Qed.

Lemma shown_NoDup params sandboxId snapshot t :
  NoDup (known_commands (queued t)) → NoDup (known_commands (shown_entries params sandboxId snapshot t)).
Proof.
  intros Hnd. unfold shown_entries, visibleLedger. destruct (terminal_mode _ _ _ _); [| |done].
  all: eapply sublist_NoDup; [exact Hnd|apply known_filter].
Qed.

Section theorems.
Context (fits : gmap jsstr jsstr → bool).

(** A step of the terminal is a commit or a step of the scheduler. *)
Lemma terminal_step_cases w w' : terminal_step fits w w' →
  (∃ uuid now params sandboxId snapshot new, w' = terminal_render fits uuid now params sandboxId snapshot new w) ∨
  (subs w' = subs w ∧ pollers (sched w') = pollers (sched w) ∧ (scheduler_ok (sched w) → scheduler_ok (sched w'))).
Proof.
  intros [uuid now params sandboxId snapshot new v|v t _|v|h v|v Ht|v Hp]; [left; by eauto 10|right..]; (split; [done|]).
  - done.
  - split; [apply runPoll_pollers|]. intros Hok. eapply sched_step_ok; [apply step_focus|done].
  - split; [|intros Hok; eapply sched_step_ok; [apply (step_visibility h)|done]].
    cbn. unfold onVisibilityChange. destruct h; cbn; rewrite ?runPoll_pollers, syncTimer_pollers; done.
  - split; [apply runPoll_pollers|]. intros Hok. eapply sched_step_ok; [by apply step_tick|done].
  - split; [done|]. intros Hok. eapply sched_step_ok; [by apply step_settled|done].
Qed.

(** Closing is final: in every state of the terminal, whatever was opened,
    closed, launched or duplicated, the scheduler polls nothing but transcripts
    of cards that are expanded and running, none twice, and its timer runs
    only while there is one. *)
Theorem terminal_polls_only_shown w (Hreach : terminal_reachable fits w) :
  NoDup (pollers (sched w)) ∧ (∀ k, k ∈ pollers (sched w) → k ∈ (subs w).*2) ∧ (subs w = [] → timer (sched w) = None).
Proof.
  assert (scheduler_ok (sched w) ∧ (∀ k, k ∈ pollers (sched w) → k ∈ (subs w).*2)) as [Hok Hin].
  { induction Hreach as [uuid now sandboxId snapshot s h _|w w' _ [Hok Hin] Hstep].
    - split; [by split; [constructor|]|]. intros k Hk. by apply not_elem_of_nil in Hk.
    - apply terminal_step_cases in Hstep as [(uuid & now & params & sandboxId & snapshot & new & ->)|(Hsub & Hp & Hok')].
      + split; [by apply commit_ok|]. by apply commit_within.
      + split; [by apply Hok'|]. intros k. rewrite Hp, Hsub. apply Hin. }
  split; [apply Hok|]. split; [done|]. intros Hnil. rewrite (ok_timer _ Hok). rewrite bool_decide_true; [done|].
  apply elem_of_nil_inv. intros k Hk%Hin. rewrite Hnil in Hk. by apply not_elem_of_nil in Hk.
Qed.

(** The renders of a run see no command twice. *)
Definition distinct_step (w w' : terminal) : Prop := terminal_step fits w w' ∧ NoDup (known_commands (queued (page w))).

Lemma distinct_run_polls w w' : scheduler_ok (sched w) → pollers (sched w) ≡ₚ (subs w).*2 → rtc distinct_step w w' →
  scheduler_ok (sched w') ∧ pollers (sched w') ≡ₚ (subs w').*2.
Proof.
  intros Hok Hp Hrun. revert Hok Hp. induction Hrun as [|w w1 w2 [Hstep Hnd] _ IH]; intros Hok Hp; [done|]. apply IH.
  - apply terminal_step_cases in Hstep as [(uuid & now & params & sandboxId & snapshot & new & ->)|(_ & _ & Hok')]; [|by apply Hok'].
    by apply commit_ok.
  - apply terminal_step_cases in Hstep as [(uuid & now & params & sandboxId & snapshot & new & ->)|(Hsub & Hpo & _)].
    + apply commit_exact; [done|done|]. apply subscriptions_NoDup, shown_NoDup, Hnd.
    + by rewrite Hpo, Hsub.
Qed.
End theorems.

(** ** Rounds that catch up *)

(** A round of polls: each catches its transcript up with what the daemons
    hold, [texts] with the command's status. *)
Definition serve_poll (texts : jsstr → list jsstr * CommandStatus) (fuel : nat) (key : jsstr) (vs : gmap jsstr viewer) : gmap jsstr viewer :=
  alter (λ v, fetch_loop (page_server (texts key).1 (texts key).2) fuel 0 (fetchPages v)) key vs.

Definition serve_rounds (texts : jsstr → list jsstr * CommandStatus) (fuel : nat) (served : list jsstr) (vs : gmap jsstr viewer) : gmap jsstr viewer :=
  foldl (λ vs key, serve_poll texts fuel key vs) vs served.

(** What the text of a key shows: its control sequences end within their lines,
    and its last line is not blank. *)
Definition shows_as (texts : jsstr → list jsstr * CommandStatus) (shown : jsstr → list jsstr) (key : jsstr) : Prop :=
  Forall2 terminal_line (texts key).1 (shown key) ∧ last (texts key).1 ≠ Some [].

(** A transcript that holds the first lines of its text, between polls, with
    the fuel for the rest. *)
Definition resting (texts : jsstr → list jsstr * CommandStatus) (shown : jsstr → list jsstr) (fuel : nat) (key : jsstr) (n : Z) (v : viewer) : Prop :=
  0 ≤ n ≤ Z.of_nat (length (texts key).1) ∧
  caught_up (shown key) n (transcript v) ∧ requested v = None ∧ Z.of_nat (length (texts key).1) - n < PAGE_LIMIT * Z.of_nat fuel.

Definition complete (texts : jsstr → list jsstr * CommandStatus) (shown : jsstr → list jsstr) (key : jsstr) (v : viewer) : Prop :=
  lines (transcript v) = Some <$> shown key ∧ transcript_error (transcript v) = None ∧ status (transcript v) = (texts key).2.

Lemma poll_completes texts shown fuel key n v : shows_as texts shown key → resting texts shown fuel key n v →
  let v' := fetch_loop (page_server (texts key).1 (texts key).2) fuel 0 (fetchPages v) in
  complete texts shown key v' ∧ resting texts shown fuel key (Z.of_nat (length (texts key).1)) v'.
Proof.
  intros [Hshown Hlast] (Hn & Hcaught & Hidle & Hfuel). cbv zeta.
  assert (requested (fetchPages v) = Some n) as Hreq by (unfold fetchPages; rewrite Hidle; cbn; f_equal; apply Hcaught).
  assert (caught_up (shown key) n (transcript (fetchPages v))) as Hcaught' by (unfold fetchPages; by rewrite Hidle).
  destruct (fetch_loop_completes (texts key).1 (shown key) (texts key).2 fuel Hshown Hlast 0 n (fetchPages v) Hn Hcaught' Hreq Hfuel)
    as (Hr & Hc & He & Hs & _).
  split; [split_and!; [|done|done]|split_and!; try done; lia].
  rewrite (caught_lines _ _ _ Hc), Nat2Z.id, (Forall2_length _ _ _ Hshown). by rewrite firstn_all.
Qed.

Lemma rounds_catch_up texts shown fuel served : ∀ vs : gmap jsstr viewer,
  (∀ k v, vs !! k = Some v → shows_as texts shown k ∧ ∃ n, resting texts shown fuel k n v) →
  ∀ k v, vs !! k = Some v → ∃ v' n, serve_rounds texts fuel served vs !! k = Some v' ∧ resting texts shown fuel k n v' ∧
    (k ∈ served ∨ complete texts shown k v → complete texts shown k v').
Proof.
  induction served as [|key served IH]; intros vs Hvs k v Hk.
  - destruct (Hvs k v Hk) as [_ [n Hn]]. exists v, n. split; [done|]. split; [done|]. intros [?%not_elem_of_nil|?]; done.
  - change (serve_rounds texts fuel (key :: served) vs) with (serve_rounds texts fuel served (serve_poll texts fuel key vs)).
    assert (∀ k v, serve_poll texts fuel key vs !! k = Some v → shows_as texts shown k ∧ ∃ n, resting texts shown fuel k n v) as Hvs'.
    { intros k' v'. unfold serve_poll. destruct (decide (k' = key)) as [-> |Hne].
      - rewrite lookup_alter_eq. destruct (vs !! key) as [u|] eqn:Hu; [|done]. intros [= <-].
        destruct (Hvs key u Hu) as [Hs [n Hn]]. split; [done|]. eexists. by apply (poll_completes _ _ _ _ n).
      - rewrite lookup_alter_ne by done. apply Hvs. }
    unfold serve_poll in IH, Hvs' |- *. destruct (decide (k = key)) as [-> |Hne].
    + destruct (Hvs key v Hk) as [Hs [n Hn]]. destruct (poll_completes _ _ _ _ n v Hs Hn) as [Hc _].
      destruct (IH _ Hvs' key _ ltac:(by rewrite lookup_alter_eq, Hk)) as (v' & n' & Hv' & Hr & Hdone).
      exists v', n'. split; [done|]. split; [done|]. intros _. apply Hdone. by right.
    + destruct (IH _ Hvs' k v ltac:(by rewrite lookup_alter_ne)) as (v' & n' & Hv' & Hr & Hdone).
      exists v', n'. split; [done|]. split; [done|]. rewrite elem_of_cons. naive_solver.
Qed.

(** C3: Every expanded, running transcript of the terminal catches up: from
    any state with nothing registered, after any run of renders, launches,
    clicks and rounds in which no ledger has two entries for a command, the
    scheduler polls exactly the expanded, running cards; and as many rounds as
    it takes to visit them in fours bring each of their transcripts to what the
    whole text its daemon holds shows, without an error. The texts are those
    whose control sequences end within their lines ([terminal_line]; of others
    text is lost) and whose last line is not blank (such a line never arrives,
    [blank_line_never_arrives], and its poll never ends); a transcript may begin
    with any number of first lines, while it is not being fetched. *)
Theorem terminal_catches_up fits w0 w texts shown fuel vs m
    (Hok : scheduler_ok (sched w0)) (Hnone : subs w0 = []) (Hidle0 : pollers (sched w0) = [])
    (Hrun : rtc (distinct_step fits) w0 w) (Hidle : polling (sched w) = false) (Hm : (length (subs w) ≤ 4 * m)%nat)
    (Hshown : ∀ k, is_Some (vs !! k) → shows_as texts shown k)
    (Hvs : ∀ k v, vs !! k = Some v → ∃ n, resting texts shown fuel k n v) :
  pollers (sched w) ≡ₚ (subs w).*2 ∧
  ∀ i k v, (i, k) ∈ subs w → vs !! k = Some v →
    ∃ v', serve_rounds texts fuel (concat (rounds m (sched w)).1) vs !! k = Some v' ∧ complete texts shown k v'.
Proof.
  destruct (distinct_run_polls fits w0 w Hok) as [Hok' Hpoll]; [by rewrite Hidle0, Hnone|done|]. split; [done|].
  assert (∀ k v, vs !! k = Some v → shows_as texts shown k ∧ ∃ n, resting texts shown fuel k n v) as Hall by (intros k v Hk; split; auto).
  intros i k v Hi Hv. destruct (rounds_catch_up texts shown fuel (concat (rounds m (sched w)).1) vs Hall k v Hv) as (v' & n & Hv' & _ & Hdone).
  exists v'. split; [done|]. apply Hdone. left.
  assert (k ∈ pollers (sched w)) as Hk by (rewrite Hpoll; apply list_elem_of_fmap; by exists (i, k)).
  apply rounds_reach_all; [intros Hnil; rewrite Hnil in Hk; by apply not_elem_of_nil in Hk|done| |done].
  rewrite Hpoll, length_fmap. done.
Qed.

(** Two cards for one command, as a launch that a snapshot overtook leaves
    them ([tab_launch_duplicates]): collapsing one of them takes back the
    registration of both, and the other, still expanded and running, is not
    polled any more. *)
Theorem twin_card_starves old i j k s
    (Hi : (i, k) ∈ old) (Hj : (j, k) ∈ old) (Hne : i ≠ j) :
  let new := js_filter (λ p, negb (bool_decide (p = (i, k)))) old in
  (j, k) ∈ new ∧ k ∉ pollers (commit_cards old new s).
Proof.
  cbv zeta. assert (∀ p, p ∈ js_filter (λ p, negb (bool_decide (p = (i, k)))) old ↔ p ∈ old ∧ p ≠ (i, k)) as Hnew.
  { intros p. by rewrite js_filter_elem, negb_true_iff, bool_decide_eq_false. }
  split; [apply Hnew; split; [done|congruence]|].
  intros [[_ Hk]|(l & Hl & Hl')]%commit_elem.
  - by apply Hk, Hnew in Hi as [_ ?].
  - by apply Hnew in Hl as [? _].
Qed.

(** ** Examples *)

(** The tab of [example_tab], its command expanded and rendered, and the first
    round over. *)
Definition example_closed : terminal := {| page := example_tab; subs := []; sched := initial_scheduler false |}.
Definition example_toggled : terminal := with_page example_closed (toggle (js "entry-c1") example_tab).
Definition all_commands : search_params := {| param_session := None; param_view := Some (js "all") |}.
Definition example_expanded : terminal :=
  terminal_render (λ _, true) (λ i, i) 0 all_commands (js "a") (Some {| snapshots := [] |}) false example_toggled.
Definition example_polled : terminal := with_sched example_expanded (poll_settled (sched example_expanded)).

Definition example_texts (key : jsstr) : list jsstr * CommandStatus := ([example_red; js "done"], running).
Definition example_shown (key : jsstr) : list jsstr := [js "a"; js "done"].

Lemma example_terminal : subs example_polled = [(js "entry-c1", poll_key (js "a") (js "c1"))] ∧
  polling (sched example_expanded) = true ∧ polling (sched example_polled) = false.
Proof. vm_compute. split_and!; reflexivity. Qed.

Lemma example_run : rtc (distinct_step (λ _, true)) example_closed example_polled.
Proof.
  eapply rtc_l; [split; [exact (terminal_page _ example_closed _ (tab_toggles (js "entry-c1") example_tab))|decide_closed]|].
  eapply rtc_l; [split; [exact (terminal_renders _ (λ i, i) 0 all_commands (js "a") (Some {| snapshots := [] |}) false example_toggled)|decide_closed]|].
  eapply rtc_l; [split; [exact (terminal_settled _ example_expanded (proj1 (proj2 example_terminal)))|decide_closed]|]. apply rtc_refl.
Qed.

Lemma terminal_catches_up_witness : ∃ v,
  serve_rounds example_texts 1 (concat (rounds 1 (sched example_polled)).1) {[poll_key (js "a") (js "c1") := example_viewer]}
    !! poll_key (js "a") (js "c1") = Some v ∧ complete example_texts example_shown (poll_key (js "a") (js "c1")) v.
Proof.
  destruct example_terminal as (Hsubs & _ & Hidle).
  refine (proj2 (terminal_catches_up (λ _, true) example_closed example_polled example_texts example_shown 1 _ 1 _ eq_refl eq_refl example_run Hidle _ _ _)
    (js "entry-c1") _ example_viewer _ (lookup_singleton_eq _ _)).
  - split; [constructor|reflexivity].
  - rewrite Hsubs. cbn. lia.
  - intros k _. split; [|discriminate]. constructor; [apply example_red_line|]. apply plain_lines. decide_closed.
  - intros k v [<- <-]%lookup_singleton_Some. exists 0. split_and!; try lia.
    + split; reflexivity.
    + reflexivity.
    + vm_compute. reflexivity.
  - rewrite Hsubs. apply list_elem_of_here.
Defined.

Lemma terminal_polls_only_shown_witness :
  NoDup (pollers (sched (terminal_init (λ _, true) (λ i, i) 0 (js "a") None example_store false))).
Proof.
  exact (proj1 (terminal_polls_only_shown (λ _, true) _ (terminal_starts _ (λ i, i) 0 (js "a") None example_store false eq_refl))).
Defined.

Lemma twin_card_starves_witness : ∃ s,
  js "k" ∉ pollers (commit_cards [(js "i", js "k"); (js "j", js "k")] [(js "j", js "k")] s).
Proof.
  exists (initial_scheduler false).
  refine (proj2 (twin_card_starves [(js "i", js "k"); (js "j", js "k")] (js "i") (js "j") (js "k") (initial_scheduler false) _ _ _)); decide_closed.
Defined.
