(* ===== verification/WorkspacePicker.v ===== *)
(** The workspace picker ([web/src/pages/fleet/WorkspacePicker.tsx]): a column
    browser over the host's folders, at most three columns wide. *)
From S2P Require Import Prelude JsText.

Record Directory := { dir_name : jsstr; dir_path : jsstr }.

(** [None] stands for [null]: the list of roots. *)
Record DirectoryListing := {
  listing_path : option jsstr;
  parent : option jsstr;
  truncated : bool;
  directories : list Directory;
}.

Definition MAX_VISIBLE_COLUMNS : nat := 3.

(** [path.split(/[\\/]/)]. *)
Definition split_slashes (s : jsstr) : list jsstr := split 47 ((λ u, if u =? 92 then 47 else u) <$> s).

Definition folderName (path : option jsstr) : jsstr :=
  match path with
  | None => js "Locations"
  | Some p => last (js_filter (λ s, bool_decide (s ≠ [])) (split_slashes p)) ?? p
  end.

(** ** A column *)

Definition needle_of `{CaseMapping} (search : jsstr) : jsstr := toLowerCase (trim search).

Definition directory_matches `{CaseMapping} (needle : jsstr) (d : Directory) : bool :=
  includes needle (toLowerCase (dir_name d)) || includes needle (toLowerCase (dir_path d)).

Definition filteredDirectories `{CaseMapping} (active : bool) (search : jsstr) (ds : list Directory) : list Directory :=
  let needle := if active then needle_of search else [] in
  if bool_decide (needle = []) then ds else js_filter (directory_matches needle) ds.

(** ** The picker *)

Record picker := {
  is_open : bool;
  columnPaths : list (option jsstr);
  selectedPath : option jsstr;
  search : jsstr;
  searchOpen : bool;
}.

Definition initial_picker : picker :=
  {| is_open := false; columnPaths := [None]; selectedPath := None; search := []; searchOpen := false |}.

Definition go_to (s : picker) (columns : list (option jsstr)) (selected : option jsstr) : picker :=
  {| is_open := is_open s; columnPaths := columns; selectedPath := selected; search := []; searchOpen := searchOpen s |}.

Definition navigateTo (d : Directory) (columnIndex : nat) (s : picker) : picker :=
  go_to s (slice_last MAX_VISIBLE_COLUMNS (take (columnIndex + 1) (columnPaths s) ++ [Some (dir_path d)])) (Some (dir_path d)).

Definition showRoots (s : picker) : picker := go_to s [None] None.

(** [selectedListing] is the listing of the selected folder, when there is one. *)
Definition navigateUp (selectedListing : option DirectoryListing) (s : picker) : picker :=
  match selectedPath s, selectedListing with
  | Some _, Some l => go_to s [parent l] (parent l)
  | _, _ => s
  end.

Definition closePicker (s : picker) : picker :=
  {| is_open := false; columnPaths := columnPaths s; selectedPath := selectedPath s; search := search s; searchOpen := searchOpen s |}.

(** The trigger: an empty value stands for none. *)
Definition open_picker (value : jsstr) (s : picker) : picker :=
  let initialPath := if bool_decide (value = []) then None else Some value in
  {| is_open := true; columnPaths := [initialPath]; selectedPath := initialPath; search := []; searchOpen := false |}.

Definition toggle_search (s : picker) : picker :=
  {| is_open := is_open s; columnPaths := columnPaths s; selectedPath := selectedPath s; search := search s;
     searchOpen := negb (searchOpen s) |}.

Definition type_search (text : jsstr) (s : picker) : picker :=
  {| is_open := is_open s; columnPaths := columnPaths s; selectedPath := selectedPath s; search := text; searchOpen := searchOpen s |}.

(** Enter in the search field. *)
Definition first_match `{CaseMapping} (search : jsstr) (ds : list Directory) : option Directory :=
  js_find (λ d, bool_decide (needle_of search = []) || directory_matches (needle_of search) d) ds.

Definition search_enter `{CaseMapping} (selectedListing : option DirectoryListing) (s : picker) : picker :=
  match first_match (search s) (match selectedListing with Some l => directories l | None => [] end) with
  | Some d => navigateTo d (length (columnPaths s) - 1) s
  | None => s
  end.

(** "Use this folder": the picker and the value reported. *)
Definition use_folder (s : picker) : picker * option jsstr :=
  match selectedPath s with None => (s, None) | Some p => (closePicker s, Some p) end.

(** The row of a column that is marked as selected. *)
Definition column_selection (s : picker) (index : nat) : option jsstr := columnPaths s !! S index ≫= λ p, p.

Section steps.
(** What the listing queries hold for each path. *)
Context `{CaseMapping} (data : option jsstr → option DirectoryListing).

Inductive picker_step : picker → picker → Prop :=
  | pick_open v s : picker_step s (open_picker v s)
  | pick_directory i p l d s :
      columnPaths s !! i = Some p → data p = Some l →
      d ∈ filteredDirectories (bool_decide (i = length (columnPaths s) - 1)%nat) (search s) (directories l) →
      picker_step s (navigateTo d i s)
  | pick_enter s : picker_step s (search_enter (data (selectedPath s)) s)
  | pick_up s : picker_step s (navigateUp (data (selectedPath s)) s)
  | pick_roots s : picker_step s (showRoots s)
  | pick_toggle s : picker_step s (toggle_search s)
  | pick_type t s : picker_step s (type_search t s)
  | pick_close s : picker_step s (closePicker s)
  | pick_use s : picker_step s (use_folder s).1.

Inductive picker_reachable : picker → Prop :=
  | picker_init : picker_reachable initial_picker
  | picker_next s s' : picker_reachable s → picker_step s s' → picker_reachable s'.

(** A column shows a folder that the column before it lists. *)
Definition listed_in (p q : option jsstr) : Prop :=
  ∃ l d, data p = Some l ∧ d ∈ directories l ∧ q = Some (dir_path d).

Fixpoint column_chain (ps : list (option jsstr)) : Prop :=
  match ps with
  | p :: (q :: _) as ps => listed_in p q ∧ column_chain ps
  | _ => True
  end.

Record picker_ok (s : picker) : Prop := {
  ok_last : last (columnPaths s) = Some (selectedPath s);
  ok_width : (length (columnPaths s) ≤ MAX_VISIBLE_COLUMNS)%nat;
  ok_chain : column_chain (columnPaths s);
}.

(** ** Facts *)

Lemma chain_snoc ps p q : column_chain (ps ++ [p]) → listed_in p q → column_chain ((ps ++ [p]) ++ [q]).
Proof.
  induction ps as [|x ps IH]; intros Hc Hl; [done|].
  destruct ps as [|y ps]; cbn [app column_chain] in *; [by destruct Hc|]. destruct Hc as [? Hc]. split; [done|]. by apply IH.
Qed.

Lemma chain_take n ps : column_chain ps → column_chain (take n ps).
Proof.
  revert n. induction ps as [|p ps IH]; intros [|n] Hc; [done..|]. destruct ps as [|q ps]; [by destruct n|].
  destruct Hc as [Hl Hc]. destruct n as [|n]; [done|]. specialize (IH (S n) Hc). by split.
Qed.

Lemma chain_drop n ps : column_chain ps → column_chain (drop n ps).
Proof.
  revert n. induction ps as [|p ps IH]; intros [|n] Hc; [done..|]. cbn [drop]. apply IH.
  destruct ps; [done|]. apply Hc.
Qed.

Lemma navigate_ok d i p l s :
  picker_ok s → columnPaths s !! i = Some p → data p = Some l → d ∈ directories l → picker_ok (navigateTo d i s).
Proof.
  intros [Hlast Hwidth Hchain] Hi Hp Hd. unfold navigateTo, go_to, MAX_VISIBLE_COLUMNS. split; cbn [columnPaths selectedPath].
  - apply last_slice_last. lia.
  - rewrite slice_last_length; unfold MAX_VISIBLE_COLUMNS; lia.
  - unfold slice_last. apply chain_drop. rewrite Nat.add_1_r, (take_S_r _ _ p) by done.
    apply chain_snoc; [|by exists l, d]. rewrite <- (take_S_r _ _ p) by done. by apply chain_take.
Qed.

Lemma filtered_incl active needle ds d : d ∈ filteredDirectories active needle ds → d ∈ ds.
Proof. unfold filteredDirectories. case_bool_decide; [done|]. by intros [? _]%js_filter_elem. Qed.

(** Enter opens the first row of the rightmost column. *)
Lemma first_match_filtered text ds : first_match text ds = head (filteredDirectories true text ds).
Proof.
  unfold first_match, filteredDirectories. destruct (bool_decide (needle_of text = [])); cbn [orb]; [by destruct ds|].
  induction ds as [|d ds IH]; [done|]. cbn. by destruct (directory_matches _ d).
Qed.

Lemma last_column s p : picker_ok s → last (columnPaths s) = Some p → columnPaths s !! (length (columnPaths s) - 1)%nat = Some p.
Proof. intros _. rewrite last_lookup. by rewrite Nat.sub_1_r. Qed.

Lemma single_ok s p : columnPaths s = [p] → selectedPath s = p → picker_ok s.
Proof. intros Hc Hp. split; rewrite Hc; [by rewrite Hp|cbn; unfold MAX_VISIBLE_COLUMNS; lia|done]. Qed.

Lemma picker_step_ok s s' : picker_step s s' → picker_ok s → picker_ok s'.
Proof.
  intros Hstep Hok. destruct Hstep; try (by destruct Hok).
  - by eapply single_ok.
  - eapply navigate_ok; [done..|]. by eapply filtered_incl.
  - unfold search_enter. destruct (first_match _ _) as [d|] eqn:Hd; [|done].
    rewrite first_match_filtered in Hd. apply head_Some_elem_of, filtered_incl in Hd.
    destruct (data (selectedPath s)) as [l|] eqn:Hl; [|by apply not_elem_of_nil in Hd].
    eapply navigate_ok; [done| |done|done]. apply last_column; [done|]. apply Hok.
  - unfold navigateUp. destruct (selectedPath s) as [q|] eqn:Hq; [|done]. destruct (data (Some q)); [by eapply single_ok|done].
  - by eapply single_ok.
  - unfold use_folder. by destruct (selectedPath s); [destruct Hok|].
Qed.

Lemma picker_reachable_ok s : picker_reachable s → picker_ok s.
Proof. induction 1 as [|s s' _ IH Hstep]; [by eapply single_ok|by eapply picker_step_ok]. Qed.

Lemma chain_lookup ps i p q : column_chain ps → ps !! i = Some p → ps !! S i = Some q → listed_in p q.
Proof.
  revert i. induction ps as [|x ps IH]; intros i Hc Hp Hq; [done|]. destruct ps as [|y ps]; [by destruct i|].
  destruct Hc as [Hl Hc]. destruct i as [|i]; [by injection Hp as ->; injection Hq as ->|]. by apply (IH i Hc).
Qed.
End steps.

(** ** Theorems *)

(** The picker's columns are one path: in every reachable state the
    rightmost column is the selected folder, each column is a folder that the
    column before it lists, each column but the last marks the folder that is
    open in the next, and there are at most three. *)
Theorem picker_columns `{CaseMapping} data s (Hs : picker_reachable data s) :
  last (columnPaths s) = Some (selectedPath s) ∧
  (1 ≤ length (columnPaths s) ≤ 3)%nat ∧
  ∀ i p q, columnPaths s !! i = Some p → columnPaths s !! S i = Some q → listed_in data p q ∧ column_selection s i = q.
Proof.
  apply picker_reachable_ok in Hs as [Hlast Hwidth Hchain].
  split; [done|]. split; [split; [|exact Hwidth]; destruct (columnPaths s); [done|cbn; lia]|].
  intros i p q Hp Hq. split; [by eapply chain_lookup|unfold column_selection; by rewrite Hq].
Qed.

Definition example_dir (n p : string) : Directory := {| dir_name := js n; dir_path := js p |}.

Definition example_data (p : option jsstr) : option DirectoryListing :=
  Some {| listing_path := p; parent := None; truncated := false;
          directories := if bool_decide (p = None) then [example_dir "home" "/home"] else [example_dir "me" "/home/me"] |}.

Definition example_opened : picker := open_picker [] initial_picker.
Definition example_home : picker := navigateTo (example_dir "home" "/home") 0 example_opened.
Definition example_me : picker := navigateTo (example_dir "me" "/home/me") 1 example_home.

Lemma example_me_reachable : picker_reachable (H := basic_latin) example_data example_me.
Proof.
  eapply picker_next; [eapply picker_next; [eapply picker_next; [constructor|apply (pick_open _ [])]|]|].
  - eapply (pick_directory _ 0 None); [by vm_compute|done|left].
  - eapply (pick_directory _ 1 (Some (js "/home"))); [by vm_compute|done|left].
Qed.

Lemma picker_columns_witness :
  last (columnPaths example_me) = Some (Some (js "/home/me")) ∧ length (columnPaths example_me) = 3%nat.
Proof. split; [exact (proj1 (picker_columns _ _ example_me_reachable))|by vm_compute]. Defined.

(** Enter in the search field opens the first folder that the rightmost
    column shows, and that column shows, in the server's order, exactly the
    folders whose name or path contains the search text, whatever its case
    and the blanks around it. *)
Theorem search_opens_first_shown `{CaseMapping} data text s :
  let shown := filteredDirectories true text (match data with Some l => directories l | None => [] end) in
  search_enter data (type_search text s) =
    match head shown with
    | Some d => navigateTo d (length (columnPaths s) - 1) (type_search text s)
    | None => type_search text s
    end ∧
  shown `sublist_of` (match data with Some l => directories l | None => [] end) ∧
  ∀ l d, data = Some l → d ∈ shown ↔ d ∈ directories l ∧
    (needle_of text = [] ∨ directory_matches (needle_of text) d = true).
Proof.
  intros shown. split; [|split].
  - unfold search_enter. rewrite first_match_filtered. done.
  - unfold shown, filteredDirectories. case_bool_decide; [done|]. auto with console.
  - intros l d ->. unfold shown, filteredDirectories. case_bool_decide as Hn.
    + rewrite Hn. split; [intros ?; split; [done|by left]|by intros [? _]].
    + rewrite js_filter_elem. split; [intros [? ?]; auto|]. by intros [? [Hp|?]].
Qed.
