(* ===== verification/CreateSandbox.v ===== *)
(** Creating sandboxes ([web/src/pages/fleet/CreateSandboxModal.tsx]): the form
    built from the catalog, its submission as a streamed call, and the
    registration of the cluster that results. *)
From S2P Require Import Prelude JsNumber JsText NumText Json Rpc WebStorage Catalog SandboxClusters.

Inductive CreationMode := mode_sandbox | mode_cluster.

#[export] Instance CreationMode_eq_dec : EqDecision CreationMode.
Proof. solve_decision. Defined.

Definition COUNT : jsstr := js "count".

Definition default_step (values : gmap jsstr jsstr) (arg : ArgSpecDoc) : gmap jsstr jsstr :=
  match arg_default arg with Some d => <[arg_name arg := d]> values | None => values end.

Definition defaultValues (spec : option OperationSpecDoc) : gmap jsstr jsstr :=
  foldl default_step ∅ match spec with Some s => args s | None => [] end.

(** ** The modal *)

Record modal := {
  modal_open : bool;
  creationMode : CreationMode;
  workspacePickerOpen : bool;
  busy : bool;
  values : gmap jsstr jsstr;
  errors : list (jsstr * json);
}.

Definition initial_modal : modal :=
  {| modal_open := false; creationMode := mode_sandbox; workspacePickerOpen := false; busy := false; values := ∅; errors := [] |}.

Definition openModal (spec : option OperationSpecDoc) (s : modal) : modal :=
  {| modal_open := true; creationMode := mode_sandbox; workspacePickerOpen := false; busy := busy s;
     values := defaultValues spec; errors := [] |}.

(** The effect of the catalog's arrival: [{ ...defaults, ...current }]. *)
Definition fill_defaults (spec : option OperationSpecDoc) (s : modal) : modal :=
  match spec with
  | Some _ => if modal_open s
              then {| modal_open := true; creationMode := creationMode s; workspacePickerOpen := workspacePickerOpen s;
                      busy := busy s; values := values s ∪ defaultValues spec; errors := errors s |}
              else s
  | None => s
  end.

(** A field changes, and the mode does. *)
Definition set_field (k v : jsstr) (s : modal) : modal :=
  {| modal_open := modal_open s; creationMode := creationMode s; workspacePickerOpen := workspacePickerOpen s;
     busy := busy s; values := <[k := v]> (values s); errors := errors s |}.

Definition default_count (values : gmap jsstr jsstr) : gmap jsstr jsstr :=
  let count := values !! COUNT ?? [] in
  <[COUNT := if bool_decide (trim count = []) then js "1" else count]> values.

Definition choose_mode (m : CreationMode) (s : modal) : modal :=
  {| modal_open := modal_open s; creationMode := m; workspacePickerOpen := workspacePickerOpen s; busy := busy s;
     values := if bool_decide (m = mode_cluster) then default_count (values s) else values s; errors := [] |}.

(** The fields shown. *)
Definition visible_args (m : CreationMode) (spec : option OperationSpecDoc) : list ArgSpecDoc :=
  js_filter (λ arg, bool_decide (m = mode_cluster) || bool_decide (arg_name arg ≠ COUNT))
    match spec with Some s => args s | None => [] end.

(** ** Submission *)

Definition submissionValues (m : CreationMode) (values : gmap jsstr jsstr) : gmap jsstr jsstr :=
  match m with mode_sandbox => <[COUNT := js "1"]> values | mode_cluster => values end.

Definition COUNT_ERROR : jsstr := js "count must be an integer of 1 or more".

(** [typeof count !== "number" || count < 1]. *)
Definition bad_count (b : built) : bool :=
  match obj_get COUNT (built_args b) with Some (JNum n) => num_ltb n (num_of_Z 1) | _ => true end.

Definition prepare (m : CreationMode) (spec : OperationSpecDoc) (values : gmap jsstr jsstr) : built :=
  let b := buildArgs (args spec) (submissionValues m values) in
  if bool_decide (m = mode_cluster) && bad_count b
  then {| built_args := built_args b; built_errors := obj_set COUNT (JStr COUNT_ERROR) (built_errors b) |}
  else b.

Definition refuse (e : list (jsstr * json)) (s : modal) : modal :=
  {| modal_open := modal_open s; creationMode := creationMode s; workspacePickerOpen := workspacePickerOpen s;
     busy := busy s; values := values s; errors := e |}.

Definition submit_starts (s : modal) : modal :=
  {| modal_open := false; creationMode := creationMode s; workspacePickerOpen := workspacePickerOpen s;
     busy := true; values := values s; errors := [] |}.

Definition submit_settles (spec : OperationSpecDoc) (s : modal) : modal :=
  {| modal_open := modal_open s; creationMode := creationMode s; workspacePickerOpen := workspacePickerOpen s;
     busy := false; values := defaultValues (Some spec); errors := errors s |}.

(** What [onStream] is called with: the empty log, the log as it grows, and
    [null] ([None]) at the end. *)
Definition stream_calls (lines : list json) : list (option (list json)) :=
  Some [] :: imap (λ i _, Some (take (S i) lines)) lines ++ [None].

Record submitted := {
  after : modal;
  streamed : list (option (list json));
  sent : option (list (jsstr * json));
  failed : option stream_error;
  storage : Storage;
}.

Section submit.
Context (fetch : jsstr → jsstr → fetched_stream) (fits : gmap jsstr jsstr → bool) (now : jsstr).

(** The whole submission, the changes to the modal in between left out. *)
Definition submit (spec : option OperationSpecDoc) (store : Storage) (s : modal) : submitted :=
  match spec with
  | None => {| after := s; streamed := []; sent := None; failed := None; storage := store |}
  | Some spec =>
      let b := prepare (creationMode s) spec (values s) in
      if bool_decide (built_errors b ≠ [])
      then {| after := refuse (built_errors b) s; streamed := []; sent := None; failed := None; storage := store |}
      else
        let '(lines, result) := rpcStream fetch (js "create_sandbox") systemScope (built_args b) in
        let s := submit_settles spec (submit_starts s) in
        match result with
        | Returns created =>
            let '(_, store', _) := registerSandboxCluster fits store created now (bool_decide (creationMode s = mode_cluster)) in
            {| after := s; streamed := stream_calls lines; sent := Some (built_args b); failed := None; storage := store' |}
        | Throws e =>
            {| after := s; streamed := stream_calls lines; sent := Some (built_args b); failed := Some e; storage := store |}
        end
  end.
End submit.

(** ** Facts *)

(** An argument whose field is valid under every specification of its name. *)
Lemma buildArgs_get k v specs vals :
  (∀ spec, spec ∈ specs → arg_name spec = k → parseArgValue spec (field vals spec) = Valid v) →
  k ∈ arg_name <$> specs → obj_get k (built_args (buildArgs specs vals)) = Some v.
Proof.
  unfold buildArgs. induction specs as [|spec specs IH] using rev_ind; intros Hv Hk; [by apply not_elem_of_nil in Hk|].
  rewrite foldl_snoc. unfold build_step at 1. destruct (decide (arg_name spec = k)) as [<-|Hne].
  - rewrite (Hv spec) by set_solver. apply obj_get_set.
  - rewrite fmap_app, elem_of_app in Hk. destruct Hk as [Hk|Hk]; [|set_solver].
    destruct (parseArgValue spec _); cbn [built_args]; rewrite ?obj_get_set_ne by done; apply IH; set_solver.
Qed.

Lemma parse_one spec : arg_kind spec = kind_integer → parseArgValue spec (js "1") = Valid (JNum (num_of_Z 1)).
Proof. intros Hk. unfold parseArgValue. rewrite Hk. by vm_compute. Qed.

Lemma default_step_lookup specs vals k :
  foldl default_step vals specs !! k =
  match last (js_filter (λ a, bool_decide (arg_name a = k) && bool_decide (arg_default a ≠ None)) specs) with
  | Some a => arg_default a
  | None => vals !! k
  end.
Proof.
  induction specs as [|a specs IH] using rev_ind; [done|]. rewrite foldl_snoc, js_filter_app.
  unfold default_step at 1. cbn [List.filter]. destruct (arg_default a) as [d|] eqn:Hd.
  - destruct (decide (arg_name a = k)) as [<-|Hne].
    + rewrite lookup_insert_eq, bool_decide_true by done. cbn. by rewrite last_snoc, Hd.
    + rewrite lookup_insert_ne, (bool_decide_false (arg_name a = k)) by done. cbn. by rewrite app_nil_r, IH.
  - rewrite andb_false_r, app_nil_r. exact IH.
Qed.

Lemma stream_calls_prefix lines k :
  (k ≤ length lines)%nat → stream_calls lines !! k = Some (Some (take k lines)).
Proof.
  intros Hk. destruct k as [|k]; [by destruct lines|]. 
  change (stream_calls lines !! S k) with ((imap (λ i (_ : json), Some (take (S i) lines)) lines ++ [None]) !! k).
  rewrite lookup_app_l by (rewrite length_imap; lia). rewrite list_lookup_imap.
  destruct (lookup_lt_is_Some_2 lines k) as [x Hx]; [lia|]. by rewrite Hx.
Qed.

(** What a form must hold to be sent. *)
Definition count_valid (b : built) : Prop := ∃ n, obj_get COUNT (built_args b) = Some (JNum n) ∧ num_ltb n (num_of_Z 1) = false.

Lemma bad_count_spec b : bad_count b = false ↔ count_valid b.
Proof.
  unfold bad_count, count_valid. split.
  - destruct (obj_get COUNT _) as [[| |n| | |]|]; try done. by exists n.
  - by intros (n & -> & Hn).
Qed.

Lemma prepare_spec m spec vals :
  let cluster := bool_decide (m = mode_cluster) in
  let b := buildArgs (args spec) (if cluster then vals else <[COUNT := js "1"]> vals) in
  built_args (prepare m spec vals) = built_args b ∧
  (built_errors b = [] ∧ (cluster = true → count_valid b) ↔ built_errors (prepare m spec vals) = []) ∧
  (∀ k, k ≠ COUNT → obj_get k (built_errors (prepare m spec vals)) = obj_get k (built_errors b)) ∧
  (cluster = true → ¬ count_valid b → obj_get COUNT (built_errors (prepare m spec vals)) = Some (JStr COUNT_ERROR)).
Proof.
  cbv zeta. unfold prepare. destruct m.
  - rewrite !bool_decide_false by done. cbn [andb submissionValues]. split_and!; [done|naive_solver|done|done].
  - rewrite !bool_decide_true by done. cbn [andb submissionValues]. set (b := buildArgs (args spec) vals).
    destruct (bad_count b) eqn:Hb; cbn [built_args built_errors].
    + assert (¬ count_valid b) as Hn by (rewrite <- bad_count_spec; congruence). split_and!; [done| | |].
      * split; [intros [_ Hc]; by destruct (Hn (Hc eq_refl))|]. intros He. apply (f_equal (obj_get COUNT)) in He. by rewrite obj_get_set in He.
      * intros k Hk. by rewrite obj_get_set_ne.
      * intros _ _. apply obj_get_set.
    + apply bad_count_spec in Hb. naive_solver.
Qed.

(** ** Theorems *)

(** Submitting the creation form: with an error in any field nothing is
    sent, streamed or stored and the form shows the errors; otherwise the
    prepared arguments are sent once, the log is shown empty, then with every
    line the server streams, and is cleared at the end, success or failure
    leaves the form closed, ready and reset to the defaults, and only a
    success touches the stored clusters. *)
Theorem submit_spec fetch fits now spec store s :
  let r := submit fetch fits now (Some spec) store s in
  let b := prepare (creationMode s) spec (values s) in
  match sent r with
  | None => built_errors b ≠ [] ∧ streamed r = [] ∧ storage r = store ∧ failed r = None ∧ after r = refuse (built_errors b) s
  | Some a =>
      let '(lines, result) := rpcStream fetch (js "create_sandbox") systemScope a in
      a = built_args b ∧ built_errors b = [] ∧
      (∀ k, (k ≤ length lines)%nat → streamed r !! k = Some (Some (take k lines))) ∧
      length (streamed r) = (length lines + 2)%nat ∧ last (streamed r) = Some None ∧
      busy (after r) = false ∧ modal_open (after r) = false ∧ errors (after r) = [] ∧
      values (after r) = defaultValues (Some spec) ∧
      match result with
      | Returns created => failed r = None ∧
          storage r = (registerSandboxCluster fits store created now (bool_decide (creationMode s = mode_cluster))).1.2
      | Throws e => failed r = Some e ∧ storage r = store
      end
  end.
Proof.
  intros r b. unfold r, submit. fold b. case_bool_decide as He; [done|].
  destruct (rpcStream fetch _ systemScope (built_args b)) as [lines result] eqn:Hr.
  assert (length (stream_calls lines) = (length lines + 2)%nat) as Hlen.
  { unfold stream_calls. cbn. rewrite length_app, length_imap. cbn. lia. }
  assert (last (stream_calls lines) = Some None) as Hlast.
  { unfold stream_calls. by rewrite app_comm_cons, last_snoc. }
  destruct result as [created|e]; [destruct (registerSandboxCluster _ _ _ _ _) as [[c store'] told] eqn:Hreg|];
    cbn [sent]; rewrite Hr; cbn [streamed after failed storage fst snd]; repeat split; try done;
    try apply stream_calls_prefix. cbn [creationMode submit_settles submit_starts] in Hreg. by rewrite Hreg.
Qed.

(** How many sandboxes a submission asks for: one in the sandbox mode,
    whatever the hidden count field holds, and in the cluster mode a number
    that is not below one. *)
Theorem submitted_count fetch fits now spec store s a
    (Hcount : ∀ arg, arg ∈ args spec → arg_name arg = COUNT → arg_kind arg = kind_integer)
    (Hsent : sent (submit fetch fits now (Some spec) store s) = Some a) :
  (creationMode s = mode_sandbox → COUNT ∈ arg_name <$> args spec → obj_get COUNT a = Some (JNum (num_of_Z 1))) ∧
  (creationMode s = mode_cluster → ∃ n, obj_get COUNT a = Some (JNum n) ∧ num_ltb n (num_of_Z 1) = false).
Proof.
  unfold submit in Hsent. case_bool_decide as He; [done|].
  destruct (rpcStream _ _ _ _) as [lines result].
  assert (built_args (prepare (creationMode s) spec (values s)) = a) as <-.
  { destruct result; [destruct (registerSandboxCluster _ _ _ _ _) as [[? ?] ?]|]; by injection Hsent. }
  split; intros Hm; rewrite Hm in *; unfold prepare in *.
  - intros Hk. cbn [submissionValues] in *. rewrite bool_decide_false by done. apply buildArgs_get; [|done].
    intros arg Harg Hname. unfold field. rewrite Hname, lookup_insert_eq. apply parse_one. by apply Hcount.
  - rewrite bool_decide_true in * by done. cbn [andb] in *. destruct (bad_count _) eqn:Hbad; cbn [built_errors built_args] in *.
    + exfalso. apply (f_equal (obj_get COUNT)) in He. by rewrite obj_get_set in He.
    + unfold bad_count in Hbad. destruct (obj_get COUNT _) as [[| |n| | |]|]; try done. by exists n.
Qed.

Definition example_create : OperationSpecDoc :=
  {| operation_name := js "create_sandbox"; family := []; summary := []; description := [];
     args := [example_spec "count" kind_integer false]; related := [] |}.

Definition example_modal : modal :=
  {| modal_open := true; creationMode := mode_sandbox; workspacePickerOpen := false; busy := false;
     values := {[ COUNT := js "7" ]}; errors := [] |}.

Definition example_args : list (jsstr * json) := [(COUNT, JNum (num_of_Z 1))].

Lemma submitted_count_witness : obj_get COUNT example_args = Some (JNum (num_of_Z 1)).
Proof.
  refine (proj1 (submitted_count (λ _ _, StreamRejected []) (λ _, true) [] example_create {| available := true; items := ∅ |}
    example_modal example_args _ _) eq_refl _).
  - by intros arg ->%list_elem_of_singleton _.
  - by vm_compute.
  - decide_closed.
Defined.

(** Choosing the cluster mode leaves a typed count alone and fills a blank
    one with 1, and going back to one sandbox hides only the count field. *)
Theorem choose_mode_count s spec :
  values (choose_mode mode_cluster s) !! COUNT =
    Some (if bool_decide (trim (values s !! COUNT ?? []) = []) then js "1" else values s !! COUNT ?? []) ∧
  (∀ k, k ≠ COUNT → values (choose_mode mode_cluster s) !! k = values s !! k) ∧
  values (choose_mode mode_sandbox s) = values s ∧
  (∀ arg, arg ∈ visible_args mode_sandbox (Some spec) ↔ arg ∈ args spec ∧ arg_name arg ≠ COUNT) ∧
  visible_args mode_cluster (Some spec) = args spec.
Proof.
  split; [apply lookup_insert_eq|]. split; [intros k Hk; by apply lookup_insert_ne|]. split; [done|]. split.
  - intros arg. unfold visible_args. rewrite js_filter_elem, bool_decide_false by done. cbn [orb]. by rewrite bool_decide_eq_true.
  - unfold visible_args. rewrite bool_decide_true by done. cbn [orb]. by induction (args spec) as [|a l IH]; [|cbn; rewrite IH].
Qed.
