(* ===== verification/CreateFormView.v ===== *)
(** What the creation form and the folder picker in it show
    ([web/src/pages/fleet/CreateSandboxModal.tsx], [WorkspacePicker.tsx]):
    fields with their errors, columns with their rows, and the controls that
    can be pressed. *)
From S2P Require Import Prelude JsNumber JsText Json Rpc Catalog SandboxClusters WorkspacePicker CreateSandbox.

(** What a query of the query library holds: the last data it was answered
    with, and the message of the error its last attempt ended in. *)
Record use_query (A : Type) := { data_of : option A; error_of : option jsstr }.
Arguments data_of {A}.
Arguments error_of {A}.

Definition isPending {A} (q : use_query A) : bool :=
  match data_of q, error_of q with None, None => true | _, _ => false end.

(** ** The fields of the form *)

Definition IMAGE : jsstr := js "image".
Definition WORKSPACE_ROOT : jsstr := js "workspace_root".

(** "…" *)
Definition ellipsis : jsstr := [8230].

Inductive field_control :=
  | ImageSelect (choices : list jsstr) (placeholder : jsstr) (disabled : bool)
  | FolderPicker
  | TextField (numeric : bool) (placeholder : jsstr).

Record field_view := {
  field_name : jsstr;
  field_required : bool;
  field_description : option jsstr;
  field_error : option jsstr;
  field_value : jsstr;
  field_control_of : field_control;
}.

Definition string_of (v : json) : option jsstr := match v with JStr s => Some s | _ => None end.

Definition field_error_of (images : use_query (list jsstr)) (errors : list (jsstr * json)) (arg : ArgSpecDoc) : option jsstr :=
  match obj_get (arg_name arg) errors ≫= string_of with
  | Some e => Some e
  | None =>
      if bool_decide (arg_name arg = IMAGE) then
        match error_of images, data_of images with
        | Some e, _ => Some e
        | None, Some [] => Some (js "No Docker images are available.")
        | None, _ => None
        end
      else None
  end.

Definition field_control_for (images : use_query (list jsstr)) (arg : ArgSpecDoc) : field_control :=
  if bool_decide (arg_name arg = IMAGE) then
    ImageSelect (data_of images ?? [])
      (if isPending images then js "Loading Docker images" ++ ellipsis else js "Select a Docker image")
      (isPending images || bool_decide (is_Some (error_of images)) || bool_decide (data_of images ?? [] = []))
  else if bool_decide (arg_name arg = WORKSPACE_ROOT) then FolderPicker
  else TextField (bool_decide (arg_name arg = COUNT)) (help arg).

Definition field_of (images : use_query (list jsstr)) (s : modal) (arg : ArgSpecDoc) : field_view :=
  let error := field_error_of images (errors s) arg in
  {| field_name := arg_name arg;
     field_required := required arg || (bool_decide (creationMode s = mode_cluster) && bool_decide (arg_name arg = COUNT));
     field_description := match error with
                          | Some (_ :: _) => None
                          | _ => Some (if bool_decide (arg_name arg = COUNT) then js "1 or more sandboxes" else help arg)
                          end;
     field_error := error;
     field_value := values s !! arg_name arg ?? [];
     field_control_of := field_control_for images arg |}.

(** ** The dialog and the button that opens it *)

Record form_view := {
  form_summary : jsstr;
  form_fields : list field_view;
  submit_label : jsstr;
  submit_disabled : bool;
  closeOnEscape : bool;
}.

Record create_view := { trigger_label : jsstr; trigger_disabled : bool; form_shown : option form_view }.

Definition CreateSandboxModal (spec : option OperationSpecDoc) (images : use_query (list jsstr)) (s : modal) : create_view :=
  {| trigger_label := if busy s then js "Creating" ++ ellipsis else js "Create sandbox";
     trigger_disabled := busy s;
     form_shown :=
       if modal_open s then Some {|
         form_summary := match spec with Some d => summary d | None => js "Create a host-side sandbox record and runtime sandbox." end;
         form_fields := field_of images s <$> visible_args (creationMode s) spec;
         submit_label := if bool_decide (creationMode s = mode_sandbox) then js "Create sandbox" else js "Create cluster";
         submit_disabled := bool_decide (spec = None);
         closeOnEscape := negb (workspacePickerOpen s) |}
       else None |}.

(** ** The picker *)

Record column_view := {
  column_heading : jsstr;
  column_loading : bool;
  column_error : option jsstr;
  column_rows : option (list (Directory * bool));
  column_note : option jsstr;
  column_truncated : bool;
}.

Definition DirectoryColumn `{CaseMapping} (active : bool) (q : use_query DirectoryListing) (path : option jsstr) (search : jsstr)
    (selected : option jsstr) : column_view :=
  let ds := match data_of q with Some l => directories l | None => [] end in
  let shown := filteredDirectories active search ds in
  {| column_heading := folderName path;
     column_loading := isPending q;
     column_error := error_of q;
     column_rows := (λ _, (λ d, (d, bool_decide (Some (dir_path d) = selected))) <$> shown) <$> data_of q;
     column_note := data_of q ≫= λ _,
       if bool_decide (shown = []) then Some (if bool_decide (ds = []) then js "No folders inside" else js "No folders match this search")
       else None;
     column_truncated := match data_of q with Some l => truncated l | None => false end |}.

Record picker_view := {
  up_enabled : bool;
  roots_enabled : bool;
  shown_name : jsstr;
  search_field : option jsstr;
  picker_columns_shown : list column_view;
  chosen_folder : jsstr;
  use_enabled : bool;
}.

Definition column_of `{CaseMapping} (queries : option jsstr → use_query DirectoryListing) (s : picker) (i : nat) (path : option jsstr) : column_view :=
  DirectoryColumn (bool_decide (i = length (columnPaths s) - 1)%nat) (queries path) path (search s) (column_selection s i).

Definition WorkspacePicker `{CaseMapping} (queries : option jsstr → use_query DirectoryListing) (s : picker) : option picker_view :=
  if is_open s then Some {|
    up_enabled := bool_decide (is_Some (selectedPath s)) && negb (isPending (queries (selectedPath s)));
    roots_enabled := bool_decide (is_Some (selectedPath s));
    shown_name := folderName (selectedPath s);
    search_field := if searchOpen s then Some (search s) else None;
    picker_columns_shown := imap (column_of queries s) (columnPaths s);
    chosen_folder := selectedPath s ?? js "None selected";
    use_enabled := bool_decide (is_Some (selectedPath s)) |}
  else None.

Definition picker_trigger (value : jsstr) : jsstr :=
  if bool_decide (value = []) then js "Select a folder" ++ ellipsis else value.

(** ** Facts *)

Lemma parse_invalid_text spec raw t : parseArgValue spec raw = Invalid t → t ≠ [].
Proof.
  unfold parseArgValue. intros H.
  assert (∀ (l : jsstr) u, arg_name spec ++ u :: l ≠ []) as Hne by (intros l u [_ ?]%app_nil; discriminate).
  repeat case_match; simplify_eq; apply Hne.
Qed.

(** Each error is that of a field the catalog names. *)
Lemma build_error_field vals specs k e :
  obj_get k (built_errors (buildArgs specs vals)) = Some e →
  ∃ spec t, spec ∈ specs ∧ arg_name spec = k ∧ parseArgValue spec (field vals spec) = Invalid t ∧ e = JStr t.
Proof.
  unfold buildArgs. induction specs as [|spec specs IH] using rev_ind; [done|]. rewrite foldl_snoc. unfold build_step at 1.
  intros H. destruct (parseArgValue spec (field vals spec)) as [|t|v] eqn:Hp; cbn [built_errors] in H.
  - destruct (IH H) as (sp & t & ? & ?). exists sp, t. set_solver.
  - destruct (decide (arg_name spec = k)) as [<-|Hne].
    + rewrite obj_get_set in H. injection H as <-. exists spec, t. set_solver.
    + rewrite obj_get_set_ne in H by done. destruct (IH H) as (sp & t' & ? & ?). exists sp, t'. set_solver.
  - destruct (IH H) as (sp & t & ? & ?). exists sp, t. set_solver.
Qed.

(** What a refused submission complains of: a visible field, in words. *)
Lemma prepare_error m spec vals k e :
  (∀ arg, arg ∈ args spec → arg_name arg = COUNT → arg_kind arg = kind_integer) → COUNT ∈ arg_name <$> args spec →
  obj_get k (built_errors (prepare m spec vals)) = Some e →
  ∃ arg t, arg ∈ visible_args m (Some spec) ∧ arg_name arg = k ∧ e = JStr t ∧ t ≠ [].
Proof.
  intros Hcount Hhas H.
  assert (obj_get k (built_errors (buildArgs (args spec) (submissionValues m vals))) = Some e ∨ m = mode_cluster ∧ k = COUNT ∧ e = JStr COUNT_ERROR)
    as [Hb|(-> & -> & ->)].
  { unfold prepare in H. destruct (bool_decide_reflect (m = mode_cluster)) as [->|]; [|by left].
    cbn [andb] in H. destruct (bad_count _); [|by left]. cbn [built_errors] in H.
    destruct (decide (COUNT = k)) as [<-|Hne]; [right; rewrite obj_get_set in H; by injection H as <-|].
    left. by rewrite obj_get_set_ne in H. }
  - apply build_error_field in Hb as (arg & t & Harg & Hname & Hp & ->). exists arg, t. split_and!; [|done|done|by eapply parse_invalid_text].
    unfold visible_args. apply js_filter_elem. split; [done|]. destruct m; [|done].
    rewrite bool_decide_false by done. cbn [orb]. apply bool_decide_eq_true. intros Hc. unfold field in Hp. cbn [submissionValues] in Hp.
    rewrite Hc, lookup_insert_eq in Hp. cbn [default] in Hp. by rewrite parse_one in Hp by auto.
  - apply list_elem_of_fmap in Hhas as (arg & Hname & Harg). exists arg, COUNT_ERROR.
    split_and!; [|done|done|done]. unfold visible_args. apply js_filter_elem. by rewrite bool_decide_true.
Qed.

(** ** Theorems *)

(** A refused submission says why: there is an error, and every error stands
    under a field that the form shows, as its text and in place of the field's
    description, so none is hidden by the mode. The catalog's [count] is an
    integer argument. *)
Theorem refusal_shown fetch fits now spec store s images
    (Hcount : ∀ arg, arg ∈ args spec → arg_name arg = COUNT → arg_kind arg = kind_integer)
    (Hhas : COUNT ∈ arg_name <$> args spec)
    (Hsent : sent (submit fetch fits now (Some spec) store s) = None) :
  let s' := after (submit fetch fits now (Some spec) store s) in
  errors s' ≠ [] ∧
  ∀ k e, obj_get k (errors s') = Some e →
    ∃ arg t, arg ∈ visible_args (creationMode s') (Some spec) ∧ e = JStr t ∧
      let f := field_of images s' arg in
      field_name f = k ∧ field_error f = Some t ∧ field_description f = None ∧ field_value f = values s !! k ?? [].
Proof.
  unfold submit in *. case_bool_decide as He.
  - cbn [after errors refuse creationMode]. split; [done|]. intros k e Hk.
    destruct (prepare_error _ _ _ _ _ Hcount Hhas Hk) as (arg & t & Hvis & Hname & -> & Ht). exists arg, t.
    assert (field_error_of images (built_errors (prepare (creationMode s) spec (values s))) arg = Some t) as Hf.
    { unfold field_error_of. by rewrite Hname, Hk. }
    split; [done|]. split; [done|]. cbn [field_name field_error field_description field_value field_of errors refuse values].
    rewrite Hf, Hname. destruct t; [done|auto].
  - destruct (rpcStream _ _ _ _) as [lines [created|e]]; [destruct (registerSandboxCluster _ _ _ _ _) as [[? ?] ?]|]; discriminate.
Qed.

Definition example_cluster : modal :=
  {| modal_open := true; creationMode := mode_cluster; workspacePickerOpen := false; busy := false;
     values := {[ COUNT := js "0" ]}; errors := [] |}.

Definition example_refused : modal :=
  after (submit (λ _ _, StreamRejected []) (λ _, true) [] (Some example_create)
    {| WebStorage.available := true; WebStorage.items := ∅ |} example_cluster).

Lemma refusal_shown_witness : errors example_refused = [(COUNT, JStr COUNT_ERROR)] ∧ errors example_refused ≠ [].
Proof.
  split; [by vm_compute|].
  refine (proj1 (refusal_shown (λ _ _, StreamRejected []) (λ _, true) [] example_create
    {| WebStorage.available := true; WebStorage.items := ∅ |} example_cluster {| data_of := None; error_of := None |} _ _ _)).
  - by intros arg ->%list_elem_of_singleton _.
  - decide_closed.
  - by vm_compute.
Defined.

(** The picker shows one path: whatever has been picked, each column but the
    last shows a marked row, which is the folder open in the next column; only
    rows of that folder are marked, so the last column marks none; and a search
    hides no row of the columns before the last. *)
Theorem picker_marks_path `{CaseMapping} data s v (Hs : picker_reachable data s)
    (Hv : WorkspacePicker (λ p, {| data_of := data p; error_of := None |}) s = Some v) :
  length (picker_columns_shown v) = length (columnPaths s) ∧
  ∀ i c p, picker_columns_shown v !! i = Some c → columnPaths s !! i = Some p →
    column_heading c = folderName p ∧
    (∀ rows d, column_rows c = Some rows → (d, true) ∈ rows → columnPaths s !! S i = Some (Some (dir_path d))) ∧
    (∀ q, columnPaths s !! S i = Some q → ∃ rows d, column_rows c = Some rows ∧ (d, true) ∈ rows ∧ q = Some (dir_path d) ∧
       length rows = match data p with Some l => length (directories l) | None => O end).
Proof.
  unfold WorkspacePicker in Hv. destruct (is_open s); [|done]. injection Hv as <-. cbn [picker_columns_shown].
  split; [by rewrite length_imap|]. intros i c p Hc Hp. rewrite list_lookup_imap, Hp in Hc. injection Hc as <-.
  split; [done|]. unfold column_of, DirectoryColumn, column_selection. cbn [column_rows data_of]. split.
  - intros rows d Hrows Hd. destruct (data p) as [l|]; [|done]. injection Hrows as <-.
    apply list_elem_of_fmap in Hd as (d' & Hd & _). injection Hd as -> Hd. symmetry in Hd. apply bool_decide_eq_true in Hd.
    destruct (columnPaths s !! S i) as [q|]; [|done]. by cbn in Hd; rewrite Hd.
  - intros q Hq. assert (listed_in data p q) as (l & d & Hl & Hd & ->).
    { assert (picker_ok data s) as [_ _ Hch] by (by apply picker_reachable_ok).
      by eapply chain_lookup. }
    rewrite Hl, Hq. cbn [fmap option_fmap option_map]. eexists _, d. split; [done|].
    rewrite (bool_decide_false (i = _)) by (apply lookup_lt_Some in Hq; lia). unfold filteredDirectories.
    rewrite bool_decide_true by done. rewrite length_fmap. split; [|done].
    apply list_elem_of_fmap. exists d. split; [|done]. f_equal. symmetry. by apply bool_decide_eq_true.
Qed.

Lemma picker_marks_path_witness : ∃ v,
  WorkspacePicker (H := basic_latin) (λ p, {| data_of := example_data p; error_of := None |}) example_me = Some v ∧
  length (picker_columns_shown v) = length (columnPaths example_me).
Proof.
  eexists. split; [reflexivity|]. refine (proj1 (picker_marks_path example_data example_me _ example_me_reachable eq_refl)).
Defined.

(** The controls do what they offer: "Use this folder" is enabled when a folder
    is selected and then closes the picker and reports the folder it names; it
    reports nothing otherwise; "Up" leads to the parent the server gave. But
    after the selected folder's listing has failed (a folder that was removed,
    say), "Up" stays enabled and does nothing: only "Roots" leads out. *)
Theorem picker_controls `{CaseMapping} queries s v (Hv : WorkspacePicker queries s = Some v) :
  (use_enabled v = true → use_folder s = (closePicker s, Some (chosen_folder v))) ∧
  (use_enabled v = false → use_folder s = (s, None)) ∧
  (up_enabled v = true → match queries (selectedPath s) with
     | {| data_of := Some l |} => navigateUp (Some l) s = go_to s [parent l] (parent l)
     | {| data_of := None; error_of := e |} => is_Some e ∧ navigateUp None s = s
     end) ∧
  (∀ e, queries (selectedPath s) = {| data_of := None; error_of := Some e |} → use_enabled v = true → up_enabled v = true) ∧
  (roots_enabled v = use_enabled v ∧ columnPaths (showRoots s) = [None]).
Proof.
  unfold WorkspacePicker in Hv. destruct (is_open s); [|done]. injection Hv as <-.
  cbn [use_enabled up_enabled roots_enabled chosen_folder].
  assert (Hdec : ∀ o : option jsstr, bool_decide (is_Some o) = match o with Some _ => true | None => false end).
  { intros [?|]; [by apply bool_decide_true|apply bool_decide_false; by intros []]. }
  unfold use_folder, navigateUp. rewrite !Hdec. destruct (selectedPath s) as [p|] eqn:Hp; split_and!; try done.
  - cbn [andb]. unfold isPending. destruct (queries (Some p)) as [[l|] [e|]]; cbn [data_of error_of]; done.
  - intros e He _. unfold isPending. by rewrite He.
Qed.

Definition example_gone : option jsstr → use_query DirectoryListing := λ _, {| data_of := None; error_of := Some (js "no such folder") |}.

Lemma picker_controls_witness : ∃ v,
  WorkspacePicker (H := basic_latin) example_gone (open_picker (js "/gone") initial_picker) = Some v ∧
  up_enabled v = true ∧ navigateUp None (open_picker (js "/gone") initial_picker) = open_picker (js "/gone") initial_picker.
Proof.
  eexists. split; [reflexivity|]. split; [reflexivity|].
  exact (proj2 (proj1 (proj2 (proj2 (picker_controls (H := basic_latin) example_gone (open_picker (js "/gone") initial_picker) _ eq_refl))) eq_refl)).
Defined.
