(* ===== verification/CreateForm.v ===== *)
(** The creation of sandboxes on the dashboard
    ([web/src/pages/fleet/CreateSandboxModal.tsx]): the form, the folder picker
    in it, the streamed creations under way and the log the shell shows, which
    outlives the page. *)
From S2P Require Import Prelude JsNumber JsText Json Rpc WebStorage Catalog SandboxClusters WorkspacePicker CreateSandbox CreateFormView.

(** A creation under way: [here] when the form that sent it is the one on the
    page, and not one that was left. *)
Record creation := { created_with : OperationSpecDoc; created_args : list (jsstr * json); log : list json; here : bool }.

Record form_world := {
  form : modal;
  form_picker : picker;
  catalog : option OperationSpecDoc;
  creations : list creation;
  shell_logs : option (list json);
}.

Definition initial_form : form_world :=
  {| form := initial_modal; form_picker := initial_picker; catalog := None; creations := []; shell_logs := None |}.

(** The picker is part of the form: with the form closed it is not mounted, and
    it starts anew. *)
Definition with_form (s : modal) (p : picker) (w : form_world) : form_world :=
  {| form := s; form_picker := if modal_open s then p else initial_picker; catalog := catalog w;
     creations := creations w; shell_logs := shell_logs w |}.

(** [setOpen(false)] and [setWorkspacePickerOpen]. *)
Definition close_form (s : modal) : modal :=
  {| modal_open := false; creationMode := creationMode s; workspacePickerOpen := workspacePickerOpen s; busy := busy s;
     values := values s; errors := errors s |}.

Definition setWorkspacePickerOpen (b : bool) (s : modal) : modal :=
  {| modal_open := modal_open s; creationMode := creationMode s; workspacePickerOpen := b; busy := busy s;
     values := values s; errors := errors s |}.

(** ** The catalog and the trigger, each followed by the effect *)

Definition catalog_arrives (spec : OperationSpecDoc) (w : form_world) : form_world :=
  {| form := fill_defaults (Some spec) (form w); form_picker := form_picker w; catalog := Some spec;
     creations := creations w; shell_logs := shell_logs w |}.

Definition press_open (w : form_world) : form_world :=
  if busy (form w) then w else with_form (fill_defaults (catalog w) (openModal (catalog w) (form w))) initial_picker w.

(** ** The picker's handlers *)

Definition press_trigger (w : form_world) : form_world :=
  with_form (setWorkspacePickerOpen true (form w)) (open_picker (values (form w) !! WORKSPACE_ROOT ?? []) (form_picker w)) w.

Definition close_picker (w : form_world) : form_world :=
  with_form (setWorkspacePickerOpen false (form w)) (closePicker (form_picker w)) w.

Definition press_use (w : form_world) : form_world :=
  match use_folder (form_picker w) with
  | (p, Some path) => with_form (setWorkspacePickerOpen false (set_field WORKSPACE_ROOT path (form w))) p w
  | (_, None) => w
  end.

(** Escape, with the properties of the last render: the picker's listener, then
    the form's dialog. *)
Definition press_escape (w : form_world) : form_world :=
  if is_open (form_picker w) then close_picker w
  else if modal_open (form w) && negb (workspacePickerOpen (form w)) then with_form (close_form (form w)) (form_picker w) w
  else w.

(** ** Submission *)

Definition begin_creation (c : creation) (w : form_world) : form_world :=
  {| form := submit_starts (form w); form_picker := initial_picker; catalog := catalog w;
     creations := creations w ++ [c]; shell_logs := Some [] |}.

Definition press_submit (w : form_world) : form_world :=
  match catalog w with
  | None => w
  | Some spec =>
      let b := prepare (creationMode (form w)) spec (values (form w)) in
      if bool_decide (built_errors b ≠ []) then with_form (refuse (built_errors b) (form w)) (form_picker w) w
      else begin_creation {| created_with := spec; created_args := built_args b; log := []; here := true |} w
  end.

Definition add_line (line : json) (c : creation) : creation :=
  {| created_with := created_with c; created_args := created_args c; log := log c ++ [line]; here := here c |}.

Definition creation_line (i : nat) (line : json) (w : form_world) : form_world :=
  match creations w !! i with
  | None => w
  | Some c => {| form := form w; form_picker := form_picker w; catalog := catalog w;
                 creations := <[i := add_line line c]> (creations w); shell_logs := Some (log c ++ [line]) |}
  end.

(** The [finally] of the submission: a form that was left is not changed. *)
Definition creation_ends (i : nat) (w : form_world) : form_world :=
  match creations w !! i with
  | None => w
  | Some c => {| form := if here c then submit_settles (created_with c) (form w) else form w;
                 form_picker := form_picker w; catalog := catalog w;
                 creations := delete i (creations w); shell_logs := None |}
  end.

(** The page is left and opened again. *)
Definition leave_behind (c : creation) : creation :=
  {| created_with := created_with c; created_args := created_args c; log := log c; here := false |}.

Definition leave_page (w : form_world) : form_world :=
  {| form := initial_modal; form_picker := initial_picker; catalog := catalog w;
     creations := leave_behind <$> creations w; shell_logs := shell_logs w |}.

(** ** The steps *)

Section steps.
(** What is known of the folders: [data] is what the host lists, and [stays]
    whether the page is never left. *)
Context `{CaseMapping} (data : option jsstr → option DirectoryListing) (stays : bool).

(** What moves the picker and touches nothing else. *)
Inductive picker_moves : picker → picker → Prop :=
  | move_directory i p l d s :
      columnPaths s !! i = Some p → data p = Some l →
      d ∈ filteredDirectories (bool_decide (i = length (columnPaths s) - 1)%nat) (search s) (directories l) →
      picker_moves s (navigateTo d i s)
  | move_enter s : picker_moves s (search_enter (data (selectedPath s)) s)
  | move_up s : picker_moves s (navigateUp (data (selectedPath s)) s)
  | move_roots s : picker_moves s (showRoots s)
  | move_toggle s : picker_moves s (toggle_search s)
  | move_type t s : picker_moves s (type_search t s).

(** The form's own controls are there while it is open, and a field is changed
    by its own control. *)
Inductive form_step : form_world → form_world → Prop :=
  | form_catalog spec w : catalog w = None → form_step w (catalog_arrives spec w)
  | form_open w : form_step w (press_open w)
  | form_field k v w : modal_open (form w) = true → k ≠ WORKSPACE_ROOT → form_step w (with_form (set_field k v (form w)) (form_picker w) w)
  | form_mode m w : modal_open (form w) = true → form_step w (with_form (choose_mode m (form w)) (form_picker w) w)
  | form_trigger w : modal_open (form w) = true → form_step w (press_trigger w)
  | form_moves p w : is_open (form_picker w) = true → picker_moves (form_picker w) p → form_step w (with_form (form w) p w)
  | form_close_picker w : is_open (form_picker w) = true → form_step w (close_picker w)
  | form_use w : is_open (form_picker w) = true → form_step w (press_use w)
  | form_escape w : form_step w (press_escape w)
  | form_dismiss w : modal_open (form w) = true → form_step w (with_form (close_form (form w)) (form_picker w) w)
  | form_submit w : modal_open (form w) = true → form_step w (press_submit w)
  | form_line i line w : form_step w (creation_line i line w)
  | form_ends i w : form_step w (creation_ends i w)
  | form_leave w : stays = false → form_step w (leave_page w).

Inductive form_reachable : form_world → Prop :=
  | form_init : form_reachable initial_form
  | form_next w w' : form_reachable w → form_step w w' → form_reachable w'.

(** ** The invariant *)

Record form_ok (w : form_world) : Prop := {
  ok_mirror : modal_open (form w) = true → workspacePickerOpen (form w) = is_open (form_picker w);
  ok_unmounted : modal_open (form w) = false → form_picker w = initial_picker;
  ok_busy : busy (form w) = true → modal_open (form w) = false;
  ok_here : length (js_filter here (creations w)) = if busy (form w) then 1%nat else 0%nat;
  ok_stays : stays = true → Forall (λ c, here c = true) (creations w);
  ok_log : stays = true → shell_logs w = log <$> head (creations w);
}.

Lemma picker_moves_open p p' : picker_moves p p' → is_open p' = is_open p.
Proof.
  destruct 1; try done.
  - unfold search_enter. by destruct (first_match _ _).
  - unfold navigateUp. destruct (selectedPath s) as [q|]; [|done]. by destruct (data (Some q)).
Qed.

(** A handler of the open form that leaves [busy] and the creations alone. *)
Lemma with_form_ok s p w :
  form_ok w → modal_open (form w) = true → busy s = busy (form w) → (modal_open s = true → workspacePickerOpen s = is_open p) →
  form_ok (with_form s p w).
Proof.
  intros [Hm Hu Hb Hh Hs Hl] Ho Hbs Hmirror. destruct (busy (form w)) eqn:Hbusy; [by rewrite Hb in Ho|].
  unfold with_form. split; cbn; rewrite ?Hbs; try done.
  - intros Hopen. rewrite Hopen. by apply Hmirror.
  - by intros ->.
Qed.

Lemma open_when_picker w : form_ok w → is_open (form_picker w) = true → modal_open (form w) = true.
Proof. intros Hok Hp. destruct (modal_open (form w)) eqn:Ho; [done|]. by rewrite (ok_unmounted w Hok Ho) in Hp. Qed.

Lemma here_split i c w : creations w !! i = Some c →
  creations w = take i (creations w) ++ c :: drop (S i) (creations w) ∧
  (length (js_filter here (creations w)) = length (js_filter here (take i (creations w))) + (if here c then 1 else 0)
     + length (js_filter here (drop (S i) (creations w))))%nat.
Proof.
  intros Hc. pose proof (take_drop_middle _ _ _ Hc) as Heq. split; [by rewrite Heq|].
  rewrite <- Heq at 1. rewrite js_filter_app, length_app. cbn [List.filter].
  destruct (here c); cbn [length]; lia.
Qed.

Lemma creation_line_ok i line w : form_ok w → form_ok (creation_line i line w).
Proof.
  intros Hok. unfold creation_line. destruct (creations w !! i) as [c|] eqn:Hc; [|done].
  pose proof (lookup_lt_Some _ _ _ Hc) as Hi. destruct (here_split i c w Hc) as [Heq Hlen].
  destruct Hok as [Hm Hu Hb Hh Hs Hl]. split; cbn; try done.
  - rewrite insert_take_drop by done. rewrite js_filter_app, length_app. cbn [List.filter].
    rewrite <- Hh, Hlen. cbn [add_line here]. destruct (here c); cbn [length]; lia.
  - intros Hst. apply Forall_insert; [by apply Hs|]. cbn. by apply (Forall_lookup_1 _ _ _ _ (Hs Hst) Hc).
  - intros Hst. assert (i = 0%nat) as ->; [|destruct (creations w); [done|injection Hc as ->; done]].
    apply Hs in Hst. assert (js_filter here (creations w) = creations w) as Hall.
    { clear -Hst. induction Hst as [|x l Hx _ IH]; [done|]. cbn. by rewrite Hx, IH. }
    rewrite Hall in Hh. destruct (busy (form w)); lia.
Qed.

Lemma creation_ends_ok i w : form_ok w → form_ok (creation_ends i w).
Proof.
  intros Hok. unfold creation_ends. destruct (creations w !! i) as [c|] eqn:Hc; [|done].
  destruct (here_split i c w Hc) as [Heq Hlen]. destruct Hok as [Hm Hu Hb Hh Hs Hl].
  assert (length (js_filter here (delete i (creations w))) = length (js_filter here (take i (creations w))) + length (js_filter here (drop (S i) (creations w))))%nat as Hd.
  { rewrite delete_take_drop. by rewrite js_filter_app, length_app. }
  split; cbn.
  - destruct (here c); [|done]. cbn. intros Ho. by rewrite Hm.
  - destruct (here c); [|done]. done.
  - destruct (here c); [done|]. done.
  - rewrite Hd. destruct (here c); cbn; destruct (busy (form w)); lia.
  - intros Hst. apply Forall_delete. by apply Hs.
  - intros Hst. apply Hs in Hst. pose proof (Forall_lookup_1 _ _ _ _ Hst Hc) as Hcc. cbn in Hcc. rewrite Hcc in Hlen.
    destruct (creations w) as [|c1 [|c2 cs]]; [done|by destruct i as [|[|i]]|].
    inversion_clear Hst as [|? ? H1 Hst']. inversion_clear Hst' as [|? ? H2 _]. exfalso. cbn [js_filter List.filter] in Hh.
    rewrite H1, H2 in Hh. cbn [length] in Hh. destruct (busy (form w)); lia.
Qed.

Lemma submit_ok w : form_ok w → modal_open (form w) = true → form_ok (press_submit w).
Proof.
  intros Hok Ho. unfold press_submit. destruct (catalog w) as [spec|]; [|done].
  case_bool_decide; [apply with_form_ok; auto; intros; by apply Hok|].
  destruct Hok as [Hm Hu Hb Hh Hs Hl]. assert (busy (form w) = false) as Hbusy by (destruct (busy (form w)); [by rewrite Hb in Ho|done]).
  rewrite Hbusy in Hh. split; cbn; try done.
  - rewrite js_filter_app, length_app, Hh. done.
  - intros Hst. apply Forall_app. split; [by apply Hs|]. by repeat constructor.
  - intros Hst. specialize (Hs Hst). destruct (creations w) as [|c cs]; [done|]. inversion_clear Hs as [|? ? Hc _].
    cbn in Hh. by rewrite Hc in Hh.
Qed.

Lemma form_step_ok w w' : form_step w w' → form_ok w → form_ok w'.
Proof.
  intros Hstep Hok. destruct Hstep as [spec w Hc|w|k v w Ho Hk|m w Ho|w Ho|p w Hp Hmove|w Hp|w Hp|w|w Ho|w Ho|i l w|i w|w Hst].
  - destruct Hok as [Hm Hu Hb Hh Hs Hl]. destruct (modal_open (form w)) eqn:Ho; split; cbn; rewrite ?Ho; cbn; try done.
  - unfold press_open. destruct (busy (form w)) eqn:Hbusy; [done|]. destruct Hok as [Hm Hu Hb Hh Hs Hl].
    rewrite Hbusy in Hh. destruct (catalog w); split; cbn; rewrite ?Hbusy; try done.
  - apply with_form_ok; auto. apply Hok.
  - apply with_form_ok; auto. apply Hok.
  - by apply with_form_ok.
  - pose proof (open_when_picker w Hok Hp) as Ho. apply with_form_ok; [done..|]. intros _.
    rewrite (picker_moves_open _ _ Hmove). by apply Hok.
  - apply with_form_ok; auto using open_when_picker.
  - pose proof (open_when_picker w Hok Hp) as Ho. unfold press_use, use_folder. destruct (selectedPath _); [|done]. by apply with_form_ok.
  - unfold press_escape. destruct (is_open (form_picker w)) eqn:Hp; [apply with_form_ok; auto using open_when_picker|].
    destruct (modal_open (form w)) eqn:Ho; [|done]. destruct (workspacePickerOpen _); [done|]. by apply with_form_ok.
  - by apply with_form_ok.
  - by apply submit_ok.
  - by apply creation_line_ok.
  - by apply creation_ends_ok.
  - destruct Hok as [Hm Hu Hb Hh Hs Hl]. split; cbn; try done; try (by rewrite Hst).
    clear. induction (creations w) as [|c cs IH]; [done|exact IH].
Qed.

Lemma form_reachable_ok w : form_reachable w → form_ok w.
Proof. induction 1 as [|w w' _ IH Hstep]; [by split|by eapply form_step_ok]. Qed.
End steps.

(** ** The folder sent *)

Section provenance.
(** [host] holds of the folders the host names. *)
Context `{CaseMapping} (data : option jsstr → option DirectoryListing) (stays : bool) (host : jsstr → Prop).
Context (Hdirs : ∀ p l d, data p = Some l → d ∈ directories l → host (dir_path d)).
Context (Hparent : ∀ p l q, data p = Some l → parent l = Some q → host q).

(** A folder that may be the form's: one of the host, or the catalog's default. *)
Definition known_root (w : form_world) (path : jsstr) : Prop :=
  host path ∨ (∃ spec, catalog w = Some spec ∧ defaultValues (Some spec) !! WORKSPACE_ROOT = Some path).

Record root_ok (w : form_world) : Prop := {
  root_value : ∀ path, values (form w) !! WORKSPACE_ROOT = Some path → known_root w path;
  root_selected : ∀ path, selectedPath (form_picker w) = Some path → known_root w path;
  root_sent : ∀ c, c ∈ creations w → catalog w = Some (created_with c) ∧
    ∀ path, obj_get WORKSPACE_ROOT (created_args c) = Some (JStr path) → known_root w path;
}.

Lemma with_form_root s p w :
  root_ok w → values s !! WORKSPACE_ROOT = values (form w) !! WORKSPACE_ROOT →
  (∀ path, selectedPath p = Some path → known_root w path) → root_ok (with_form s p w).
Proof.
  intros [Hv Hp Hs] Hvs Hps. split; cbn [with_form form form_picker creations catalog]; [|destruct (modal_open s); [exact Hps|done]|exact Hs].
  rewrite Hvs. exact Hv.
Qed.

Lemma moves_selected p p' w : picker_moves data p p' → (∀ path, selectedPath p = Some path → known_root w path) →
  ∀ path, selectedPath p' = Some path → known_root w path.
Proof.
  intros Hmove Hp. destruct Hmove as [i q l d s Hi Hq Hd|s|s|s|s|t s]; try done.
  - intros path [= <-]. left. eapply Hdirs; [done|by eapply filtered_incl].
  - unfold search_enter. destruct (first_match _ _) as [d|] eqn:Hd; [|done]. intros path [= <-]. left.
    rewrite first_match_filtered in Hd. apply head_Some_elem_of, filtered_incl in Hd.
    destruct (data (selectedPath s)) as [l|] eqn:Hl; [by eapply Hdirs|by apply not_elem_of_nil in Hd].
  - unfold navigateUp. destruct (selectedPath s) as [q|] eqn:Hq; [|by rewrite Hq]. destruct (data (Some q)) as [l|] eqn:Hl; [|by rewrite Hq].
    intros path Hpath. left. by eapply Hparent.
Qed.
Lemma build_string_arg vals specs k path :
  obj_get k (built_args (buildArgs specs vals)) = Some (JStr path) → vals !! k = Some path.
Proof.
  unfold buildArgs. induction specs as [|spec specs IH] using rev_ind; [done|]. rewrite foldl_snoc. unfold build_step at 1.
  destruct (parseArgValue spec (field vals spec)) as [|t|v] eqn:Hp; cbn [built_args]; [exact IH..|].
  destruct (decide (arg_name spec = k)) as [<-|Hne]; [|by rewrite obj_get_set_ne].
  rewrite obj_get_set. intros [= ->]. unfold parseArgValue, field in Hp.
  destruct (vals !! arg_name spec) as [raw|]; cbn [default] in Hp; [|by destruct (required spec)].
  repeat case_match; by simplify_eq.
Qed.

Lemma known_root_default w spec path :
  catalog w = Some spec → defaultValues (Some spec) !! WORKSPACE_ROOT = Some path → known_root w path.
Proof. intros Hc Hd. right. by exists spec. Qed.

Lemma fill_defaults_value spec s k path : values (fill_defaults (Some spec) s) !! k = Some path →
  values s !! k = Some path ∨ defaultValues (Some spec) !! k = Some path.
Proof.
  unfold fill_defaults. destruct (modal_open s); [|by left]. cbn [values]. rewrite lookup_union_Some_raw. intuition.
Qed.

Lemma choose_mode_root m s : values (choose_mode m s) !! WORKSPACE_ROOT = values s !! WORKSPACE_ROOT.
Proof.
  unfold choose_mode. cbn [values]. destruct (bool_decide (m = mode_cluster)); [|done]. unfold default_count.
  by apply lookup_insert_ne.
Qed.

Lemma known_root_catalog spec w path : catalog w = None → known_root w path → known_root (catalog_arrives spec w) path.
Proof. intros Hc [Hh|(sp & Hsp & _)]; [by left|congruence]. Qed.

Lemma catalog_root spec w : catalog w = None → root_ok w → root_ok (catalog_arrives spec w).
Proof.
  intros Hc [Hv Hp Hs]. split.
  - intros path [Hq|Hq]%fill_defaults_value; [by apply known_root_catalog, Hv|by eapply known_root_default].
  - intros path Hq. apply known_root_catalog; [done|]. by apply Hp.
  - intros c Hin. destruct (Hs c Hin) as [Hcw _]. congruence.
Qed.

Lemma open_root w : root_ok w → root_ok (press_open w).
Proof.
  intros Hok. unfold press_open. destruct (busy (form w)); [done|]. split; [| |apply Hok].
  2: { intros path. cbn [with_form form_picker]. by destruct (modal_open (fill_defaults _ _)). }
  intros path Hq. change (known_root w path). unfold with_form in Hq. cbn [form] in Hq.
  destruct (catalog w) as [spec|] eqn:Hc; [|by change ((∅ : gmap jsstr jsstr) !! WORKSPACE_ROOT = Some path) in Hq].
  by apply fill_defaults_value in Hq as [Hq|Hq]; eapply known_root_default.
Qed.

Lemma submit_root w : root_ok w → root_ok (press_submit w).
Proof.
  intros Hok. unfold press_submit. destruct (catalog w) as [spec|] eqn:Hc; [|done]. case_bool_decide.
  - apply with_form_root; [done..|apply Hok].
  - destruct Hok as [Hv Hp Hs]. split; cbn [begin_creation form form_picker creations catalog]; [exact Hv|done|].
    intros c [Hin|Hin]%elem_of_app; [by apply Hs|]. apply list_elem_of_singleton in Hin as ->. split; [done|].
    cbn [created_args]. intros path Hpath.
    assert (obj_get WORKSPACE_ROOT (built_args (buildArgs (args spec) (submissionValues (creationMode (form w)) (values (form w))))) = Some (JStr path))
      as Hb%build_string_arg by (revert Hpath; unfold prepare; by destruct (_ && _)).
    assert (submissionValues (creationMode (form w)) (values (form w)) !! WORKSPACE_ROOT = values (form w) !! WORKSPACE_ROOT) as Hsame.
    { unfold submissionValues. destruct (creationMode (form w)); [by apply lookup_insert_ne|done]. }
    apply Hv. by rewrite <- Hsame.
Qed.
Lemma trigger_root w : root_ok w → root_ok (press_trigger w).
Proof.
  intros Hok. apply with_form_root; [done..|]. intros path. cbn [open_picker selectedPath].
  destruct (bool_decide_reflect (values (form w) !! WORKSPACE_ROOT ?? [] = [])) as [|Hne]; [done|]. intros [= <-].
  destruct (values (form w) !! WORKSPACE_ROOT) as [q|] eqn:Hq; [by apply (root_value w Hok)|done].
Qed.

Lemma use_root w : root_ok w → root_ok (press_use w).
Proof.
  intros Hok. unfold press_use, use_folder. destruct (selectedPath (form_picker w)) as [p|] eqn:Hp; [|done].
  destruct Hok as [Hv Hs Hc]. specialize (Hs p Hp).
  split; cbn [with_form form form_picker creations catalog setWorkspacePickerOpen set_field values modal_open]; [| |exact Hc].
  - intros path. rewrite lookup_insert_eq. by intros [= <-].
  - intros path. destruct (modal_open (form w)); [|done]. cbn [closePicker selectedPath]. rewrite Hp. by intros [= <-].
Qed.

Lemma line_root i l w : root_ok w → root_ok (creation_line i l w).
Proof.
  intros Hok. unfold creation_line. destruct (creations w !! i) as [c|] eqn:Hc; [|done].
  destruct Hok as [Hv Hp Hs]. split; [exact Hv|exact Hp|].
  intros c' (j & Hj)%list_elem_of_lookup. cbn [creations] in Hj. apply list_lookup_insert_Some in Hj as [(-> & <- & _)|(_ & Hj)].
  - apply (Hs c). by eapply list_elem_of_lookup_2.
  - apply Hs. by eapply list_elem_of_lookup_2.
Qed.

Lemma ends_root i w : root_ok w → root_ok (creation_ends i w).
Proof.
  intros Hok. unfold creation_ends. destruct (creations w !! i) as [c|] eqn:Hc; [|done].
  destruct Hok as [Hv Hp Hs]. assert (c ∈ creations w) as Hin by (by eapply list_elem_of_lookup_2).
  split; cbn [form form_picker creations].
  - intros path. destruct (here c); [|exact (Hv path)]. apply known_root_default, Hs, Hin.
  - exact Hp.
  - intros c' Hc'. apply Hs. rewrite delete_take_drop in Hc'. by eapply elem_of_drop_one.
Qed.

Lemma form_step_root w w' : form_step data stays w w' → root_ok w → root_ok w'.
Proof.
  intros Hstep Hok. destruct Hstep as [spec w Hc|w|k v w Ho Hk|m w Ho|w Ho|p w Hp Hmove|w Hp|w Hp|w|w Ho|w Ho|i l w|i w|w Hst].
  - by apply catalog_root.
  - by apply open_root.
  - apply with_form_root; [done| |apply Hok]. by apply lookup_insert_ne.
  - apply with_form_root; [done|apply choose_mode_root|apply Hok].
  - by apply trigger_root.
  - apply with_form_root; [done..|]. eapply moves_selected; [done|apply Hok].
  - apply with_form_root; [done..|apply Hok].
  - by apply use_root.
  - unfold press_escape. destruct (is_open _); [apply with_form_root; [done..|apply Hok]|].
    destruct (_ && _); [apply with_form_root; [done..|apply Hok]|done].
  - apply with_form_root; [done..|apply Hok].
  - by apply submit_root.
  - by apply line_root.
  - by apply ends_root.
  - destruct Hok as [Hv Hp Hs]. split; cbn [leave_page form form_picker creations]; [done|done|].
    intros c (c' & -> & Hc)%list_elem_of_fmap. by apply (Hs c').
Qed.
End provenance.

(** The world while the creation [c], the only one, has streamed [lines]. *)
Definition lines_so_far (c : creation) (lines : list json) (w : form_world) : form_world :=
  {| form := submit_starts (form w); form_picker := initial_picker; catalog := catalog w;
     creations := [ {| created_with := created_with c; created_args := created_args c; log := lines; here := here c |} ];
     shell_logs := Some lines |}.

Lemma foldl_lines c w lines : creations w = [] → log c = [] →
  foldl (λ w line, creation_line 0 line w) (begin_creation c w) lines = lines_so_far c lines w.
Proof.
  intros Hw Hc. induction lines as [|line lines IH] using rev_ind; [|by rewrite foldl_snoc, IH].
  unfold begin_creation, lines_so_far. rewrite Hw. destruct c. cbn in *. by subst.
Qed.

(** What a submission gives, refused or sent. *)
Lemma submit_result fetch fits now store spec s :
  let r := submit fetch fits now (Some spec) store s in
  let b := prepare (creationMode s) spec (values s) in
  if bool_decide (built_errors b ≠ []) then sent r = None ∧ after r = refuse (built_errors b) s ∧ streamed r = []
  else sent r = Some (built_args b) ∧ after r = submit_settles spec (submit_starts s) ∧
       streamed r = stream_calls (rpcStream fetch (js "create_sandbox") systemScope (built_args b)).1.
Proof.
  unfold submit. case_bool_decide; [done|]. destruct (rpcStream _ _ _ _) as [lines [created|e]]; [|done].
  by destruct (registerSandboxCluster _ _ _ _ _) as [[? ?] ?].
Qed.

(** ** Theorems *)

(** The two dialogs keep in step: while the form is open it knows whether the
    picker in it is, so that Escape closes one of them at a time: the picker,
    with everything typed kept, and the form only when the picker is closed.
    While a creation of this form is under way the form is closed, so that its
    end, which resets the fields, destroys nothing typed, and the form has at
    most one creation under way. *)
Theorem form_dialogs `{CaseMapping} data stays w (Hw : form_reachable data stays w) :
  (modal_open (form w) = true → workspacePickerOpen (form w) = is_open (form_picker w)) ∧
  (is_open (form_picker w) = true →
     modal_open (form w) = true ∧ is_open (form_picker (press_escape w)) = false ∧
     modal_open (form (press_escape w)) = true ∧ values (form (press_escape w)) = values (form w)) ∧
  (is_open (form_picker w) = false → modal_open (form (press_escape w)) = false) ∧
  (busy (form w) = true → modal_open (form w) = false ∧ press_open w = w) ∧
  length (js_filter here (creations w)) = (if busy (form w) then 1%nat else 0%nat).
Proof.
  pose proof (form_reachable_ok _ _ _ Hw) as Hok. split; [apply Hok|]. split; [|split; [|split; [|apply Hok]]].
  - intros Hp. pose proof (open_when_picker _ w Hok Hp) as Ho. unfold press_escape. rewrite Hp. cbn. by rewrite Ho.
  - intros Hp. unfold press_escape. rewrite Hp. destruct (modal_open (form w)) eqn:Ho; [|done].
    by rewrite (ok_mirror _ w Hok Ho), Hp.
  - intros Hb. split; [by apply Hok|]. unfold press_open. by rewrite Hb.
Qed.

(** While the page is not left, the log the shell shows is that of the one
    creation under way, and there is one exactly while the button says so. *)
Theorem creation_log_shown `{CaseMapping} data w (Hw : form_reachable data true w) :
  match creations w with
  | [] => shell_logs w = None ∧ busy (form w) = false
  | [c] => shell_logs w = Some (log c) ∧ busy (form w) = true ∧ here c = true
  | _ => False
  end.
Proof.
  destruct (form_reachable_ok _ _ _ Hw) as [_ _ _ Hh Hs Hl]. specialize (Hs eq_refl). specialize (Hl eq_refl).
  destruct (creations w) as [|c [|c2 cs]]; cbn in Hl.
  - cbn in Hh. by destruct (busy (form w)).
  - inversion_clear Hs as [|? ? Hc _]. cbn in Hh. rewrite Hc in Hh. by destruct (busy (form w)).
  - inversion_clear Hs as [|? ? H1 Hs']. inversion_clear Hs' as [|? ? H2 _]. cbn in Hh. rewrite H1, H2 in Hh.
    cbn in Hh. destruct (busy (form w)); lia.
Qed.

(** The folder that is sent is one the host named: whatever is opened, searched,
    picked, cancelled or typed in the other fields, the workspace root in the
    form, and that of every creation sent, is a folder of one of the host's
    listings, the parent of one, or the catalog's own default. *)
Theorem workspace_root_from_host `{CaseMapping} data stays (host : jsstr → Prop) w
    (Hdirs : ∀ p l d, data p = Some l → d ∈ directories l → host (dir_path d))
    (Hparent : ∀ p l q, data p = Some l → parent l = Some q → host q)
    (Hw : form_reachable data stays w) :
  (∀ path, values (form w) !! WORKSPACE_ROOT = Some path → known_root host w path) ∧
  (∀ c path, c ∈ creations w → obj_get WORKSPACE_ROOT (created_args c) = Some (JStr path) → known_root host w path).
Proof.
  assert (root_ok host w) as [Hv _ Hs].
  { induction Hw as [|w w' _ IH Hstep]; [split; cbn; try done; by intros c ?%not_elem_of_nil|by eapply form_step_root]. }
  split; [exact Hv|]. intros c path Hc. by apply Hs.
Qed.

(** C18: One creation from the button to its end. With the form open and no
    creation under way, pressing the button sends something exactly when every
    field is accepted (in the cluster mode the count among them, a number that is
    at least one; in the sandbox mode the count is 1, whatever the field holds).
    If so, the arguments built from the fields are sent; from then on and through
    every line the server streams the form is closed, has no errors, and cannot
    be opened, and the shell shows exactly the lines so far; at the end nothing
    is under way, the shell shows no log, and the form is closed, can be opened
    again and holds each argument's default and nothing else. Otherwise nothing is
    sent and the form stays open with all its values, each field with its error,
    the count with its own. Either way the form and the log are what [submit]
    computes. *)
Theorem creation_runs_submit fetch fits now store w spec
    (Hopen : modal_open (form w) = true) (Hspec : catalog w = Some spec) (Hnone : creations w = []) :
  let r := submit fetch fits now (Some spec) store (form w) in
  let cluster := bool_decide (creationMode (form w) = mode_cluster) in
  let b := buildArgs (args spec) (if cluster then values (form w) else <[js "count" := js "1"]> (values (form w))) in
  let count_ok := ∃ n, obj_get (js "count") (built_args b) = Some (JNum n) ∧ num_ltb n (num_of_Z 1) = false in
  let lines := (rpcStream fetch (js "create_sandbox") systemScope (built_args b)).1 in
  let during k := foldl (λ w line, creation_line 0 line w) (press_submit w) (take k lines) in
  let ended := creation_ends 0 (during (length lines)) in
  (built_errors b = [] ∧ (cluster = true → count_ok) →
     sent r = Some (built_args b) ∧
     (∀ k, (k ≤ length lines)%nat →
        created_args <$> creations (during k) = [built_args b] ∧
        shell_logs (during k) = Some (take k lines) ∧ streamed r !! k = Some (Some (take k lines)) ∧
        modal_open (form (during k)) = false ∧ errors (form (during k)) = [] ∧ press_open (during k) = during k) ∧
     creations ended = [] ∧ shell_logs ended = None ∧ last (streamed r) = Some None ∧
     modal_open (form ended) = false ∧ busy (form ended) = false ∧ modal_open (form (press_open ended)) = true ∧
     (∀ k, values (form ended) !! k =
        last (js_filter (λ a, bool_decide (arg_name a = k) && bool_decide (arg_default a ≠ None)) (args spec)) ≫= arg_default) ∧
     form ended = after r) ∧
  (¬ (built_errors b = [] ∧ (cluster = true → count_ok)) →
     sent r = None ∧ streamed r = [] ∧ creations (press_submit w) = [] ∧ shell_logs (press_submit w) = shell_logs w ∧
     modal_open (form (press_submit w)) = true ∧ busy (form (press_submit w)) = busy (form w) ∧
     values (form (press_submit w)) = values (form w) ∧ errors (form (press_submit w)) ≠ [] ∧
     (∀ k, k ≠ js "count" → obj_get k (errors (form (press_submit w))) = obj_get k (built_errors b)) ∧
     (cluster = true → ¬ count_ok →
        obj_get (js "count") (errors (form (press_submit w))) = Some (JStr (js "count must be an integer of 1 or more"))) ∧
     form (press_submit w) = after r).
Proof.
  intros r cluster b count_ok lines during ended.
  pose proof (submit_result fetch fits now store spec (form w)) as Hr. fold r in Hr. cbv zeta in Hr.
  destruct (prepare_spec (creationMode (form w)) spec (values (form w))) as (Hargs & Hacc & Hother & Hcount).
  fold cluster in Hargs, Hacc, Hother, Hcount. fold COUNT in b. fold b in Hargs, Hacc, Hother, Hcount.
  fold (count_valid b) in count_ok. split; intros Hin.
  - apply Hacc in Hin as He. rewrite bool_decide_false in Hr by (intros Hne; by apply Hne). rewrite Hargs in Hr. destruct Hr as (-> & Hafter & Hstr).
    assert (press_submit w = begin_creation {| created_with := spec; created_args := built_args b; log := []; here := true |} w) as Hpress.
    { unfold press_submit. rewrite Hspec, Hargs. by rewrite bool_decide_false by (intros Hne; by apply Hne). }
    assert (Hruns : ∀ k, during k = lines_so_far {| created_with := spec; created_args := built_args b; log := []; here := true |} (take k lines) w)
      by (intros k; unfold during; rewrite Hpress; by apply foldl_lines).
    split; [done|]. split; [intros k Hk; rewrite Hruns, Hstr; split_and!; try done; by apply stream_calls_prefix|].
    subst ended. rewrite Hruns, Hstr, Hafter. split; [done|]. split; [done|].
    split; [unfold stream_calls; by rewrite app_comm_cons, last_snoc|]. split; [done|]. split; [done|].
    split; [unfold press_open; cbn; by rewrite Hspec|]. split; [|done].
    intros k. cbn. unfold defaultValues. rewrite default_step_lookup, lookup_empty. by destruct (last _).
  - assert (built_errors (prepare (creationMode (form w)) spec (values (form w))) ≠ []) as He by (intros He; by apply Hin, Hacc).
    rewrite bool_decide_true in Hr by done. destruct Hr as (-> & -> & ->).
    assert (press_submit w = with_form (refuse (built_errors (prepare (creationMode (form w)) spec (values (form w)))) (form w)) (form_picker w) w) as ->.
    { unfold press_submit. rewrite Hspec. by rewrite bool_decide_true. }
    by split_and!.
Qed.

(** A page that was left forgets that it is creating: the form of the page
    opened again offers a second creation while the first is under way; the log
    of the first is then cleared, and the end of the first clears that of the
    second, which is still under way. *)
Theorem left_creation w c c2 (Hw : creations w = [c]) :
  let w1 := leave_page w in
  let w2 := begin_creation c2 (press_open w1) in
  (∀ images, trigger_disabled (CreateSandboxModal (catalog w1) images (form w1)) = false) ∧
  (catalog w ≠ None → modal_open (form (press_open w1)) = true) ∧
  shell_logs w1 = shell_logs w ∧ creations w2 = [leave_behind c; c2] ∧ shell_logs w2 = Some [] ∧
  creations (creation_ends 0 w2) = [c2] ∧ shell_logs (creation_ends 0 w2) = None ∧
  ∀ line, shell_logs (creation_line 0 line w2) = Some (log c ++ [line]).
Proof.
  cbv zeta. assert (creations (begin_creation c2 (press_open (leave_page w))) = [leave_behind c; c2]) as Hc.
  { unfold begin_creation, press_open, leave_page. cbn. by rewrite Hw. }
  split_and!; try done.
  - intros Hcat. unfold press_open, leave_page. cbn. by destruct (catalog w).
  - unfold creation_ends. by rewrite Hc.
  - unfold creation_ends. by rewrite Hc.
  - intros line. unfold creation_line. by rewrite Hc.
Qed.

(** ** Examples *)

Definition example_root : ArgSpecDoc :=
  {| arg_name := WORKSPACE_ROOT; arg_kind := kind_path; required := true; help := []; arg_default := None |}.

Definition example_catalog : OperationSpecDoc :=
  {| operation_name := js "create_sandbox"; family := []; summary := []; description := [];
     args := [example_root; example_spec "count" kind_integer false]; related := [] |}.

Definition example_loaded : form_world := catalog_arrives example_catalog initial_form.
Definition example_form_open : form_world := press_open example_loaded.
Definition example_picking : form_world := press_trigger example_form_open.
Definition example_picked_home : form_world := with_form (form example_picking) (navigateTo (example_dir "home" "/home") 0 (form_picker example_picking)) example_picking.
Definition example_used : form_world := press_use example_picked_home.
Definition example_creating : form_world := press_submit example_used.

#[local] Existing Instance basic_latin.

Lemma example_picking_reachable stays : form_reachable example_data stays example_picking.
Proof.
  refine (form_next _ _ example_form_open _ (form_next _ _ example_loaded _ (form_next _ _ _ _ (form_init _ _)
    (form_catalog _ _ example_catalog initial_form eq_refl)) (form_open _ _ example_loaded)) (form_trigger _ _ example_form_open eq_refl)).
Qed.

Lemma example_creating_reachable stays : form_reachable example_data stays example_creating.
Proof.
  refine (form_next _ _ example_used _ (form_next _ _ example_picked_home _ (form_next _ _ example_picking _ (example_picking_reachable stays)
    (form_moves _ _ _ example_picking eq_refl _)) (form_use _ _ example_picked_home eq_refl)) (form_submit _ _ example_used eq_refl)).
  refine (move_directory _ 0 None {| listing_path := None; parent := None; truncated := false; directories := [example_dir "home" "/home"] |}
    (example_dir "home" "/home") (form_picker example_picking) eq_refl eq_refl _).
  apply list_elem_of_here.
Qed.

Lemma form_dialogs_witness :
  modal_open (form (press_escape example_picking)) = true ∧ is_open (form_picker (press_escape example_picking)) = false.
Proof.
  destruct (proj1 (proj2 (form_dialogs example_data true example_picking (example_picking_reachable true))) eq_refl) as (_ & H1 & H2 & _).
  by split.
Defined.

Lemma creation_log_shown_witness : match creations example_creating with [c] => shell_logs example_creating = Some (log c) | _ => False end.
Proof. exact (proj1 (creation_log_shown example_data example_creating (example_creating_reachable true))). Defined.

Definition example_host (p : jsstr) : Prop := p = js "/home" ∨ p = js "/home/me".

Lemma example_hosted :
  (∀ p l d, example_data p = Some l → d ∈ directories l → example_host (dir_path d)) ∧
  (∀ p l q, example_data p = Some l → parent l = Some q → example_host q).
Proof.
  split; intros p l; [|by intros q [= <-]]. intros d [= <-]. cbn [directories].
  destruct (bool_decide (p = None)); intros ->%list_elem_of_singleton; [by left|by right].
Qed.

Lemma workspace_root_from_host_witness : known_root example_host example_creating (js "/home").
Proof.
  refine (proj1 (workspace_root_from_host example_data true example_host example_creating (proj1 example_hosted) (proj2 example_hosted)
    (example_creating_reachable true)) (js "/home") _).
  vm_compute. reflexivity.
Defined.

(** A server that sends a line of the log, and breaks off. *)
Definition example_fetch (url body : jsstr) : fetched_stream := StreamResponse 200 None (Some [Chunk (log_event (js "pull"))]).
Definition example_storage : Storage := {| WebStorage.available := true; WebStorage.items := ∅ |}.

Lemma creation_runs_submit_witness :
  shell_logs (creation_line 0 (JStr (js "pull")) (press_submit example_used)) = Some [JStr (js "pull")] ∧
  busy (form (creation_ends 0 (creation_line 0 (JStr (js "pull")) (press_submit example_used)))) = false ∧
  modal_open (form (press_submit example_form_open)) = true.
Proof.
  pose proof (creation_runs_submit example_fetch (λ _, true) [] example_storage example_used example_catalog eq_refl eq_refl eq_refl) as [Hsent _].
  set (spec := example_catalog) in *. set (vals := values (form example_used)) in *.
  assert (built_errors (buildArgs (args spec) (<[js "count" := js "1"]> vals)) = []) as He by (vm_compute; reflexivity).
  assert ((rpcStream example_fetch (js "create_sandbox") systemScope (built_args (buildArgs (args spec) (<[js "count" := js "1"]> vals)))).1
    = [JStr (js "pull")]) as Hlines by (vm_compute; reflexivity).
  destruct Hsent as (_ & Hduring & _ & _ & _ & _ & Hbusy & _); [split; [exact He|done]|]. split; [|split].
  - change (built_args _) with (built_args (buildArgs (args spec) (<[js "count" := js "1"]> vals))) in Hduring. rewrite Hlines in Hduring.
    exact (proj1 (proj2 (Hduring 1%nat ltac:(cbn; lia)))).
  - change (built_args _) with (built_args (buildArgs (args spec) (<[js "count" := js "1"]> vals))) in Hbusy. rewrite Hlines in Hbusy. exact Hbusy.
  - refine (proj1 (proj2 (proj2 (proj2 (proj2 (proj2 (creation_runs_submit example_fetch (λ _, true) [] example_storage
      example_form_open example_catalog eq_refl eq_refl eq_refl) _)))))).
    intros [Hnone _]. revert Hnone. vm_compute. discriminate.
Defined.

Definition example_second : creation := {| created_with := example_catalog; created_args := []; log := []; here := true |}.

Lemma left_creation_witness :
  creations (creation_ends 0 (begin_creation example_second (press_open (leave_page example_creating)))) = [example_second] ∧
  shell_logs (creation_ends 0 (begin_creation example_second (press_open (leave_page example_creating)))) = None.
Proof.
  destruct (left_creation example_creating {| created_with := example_catalog; created_args :=
    built_args (prepare mode_sandbox example_catalog (values (form example_used))); log := []; here := true |} example_second eq_refl)
    as (_ & _ & _ & _ & _ & H1 & H2 & _).
  split; [exact H1|exact H2].
Defined.
