(* ===== verification/Dashboard.v ===== *)
(** The dashboard page ([web/src/pages/dashboard/DashboardPage.tsx]): the state
    of the connection, the order of the cards over polls, the clusters a search
    shows, the address's filters and what the page shows. *)
From S2P Require Import Prelude JsCollections JsText Types Observability Fleet SandboxClusters Uri.

Inductive DashboardConnectionState := connecting | connected | stale | disconnected.

#[export] Instance DashboardConnectionState_eq_dec : EqDecision DashboardConnectionState.
Proof. solve_decision. Defined.

Inductive DashboardView := view_sandbox | view_cluster.

Definition connectionFor (fleet : option SandboxList) (error : bool) : DashboardConnectionState :=
  match error, fleet with
  | true, Some _ => stale
  | true, None => disconnected
  | false, Some _ => connected
  | false, None => connecting
  end.

Definition CONNECTION_LABELS (c : DashboardConnectionState) : jsstr :=
  match c with
  | connecting => js "Connecting to gateway"
  | connected => js "Connected"
  | stale => js "Connected " ++ [183] ++ js " showing stale data"
  | disconnected => js "Gateway disconnected"
  end.

(** ** The address *)

Definition filter_of (params : url_params) : jsstr := param_get (js "q") params ?? [].
Definition activeView (params : url_params) : DashboardView :=
  if bool_decide (param_get (js "view") params = Some (js "cluster")) then view_cluster else view_sandbox.

Definition updateFilter (value : jsstr) (params : url_params) : url_params := param_put (js "q") value params.
Definition updateView (v : DashboardView) (params : url_params) : url_params :=
  match v with view_cluster => param_set (js "view") (js "cluster") params | view_sandbox => param_delete (js "view") params end.

(** The "/" shortcut focuses the search field. *)
Record shortcut_key := { shortcut : jsstr; has_modifier : bool; in_text_field : bool }.
Definition focuses_search (ev : shortcut_key) : bool :=
  bool_decide (shortcut ev = js "/") && negb (has_modifier ev) && negb (in_text_field ev).

(** ** The order of the cards over polls *)

(** One render: the list shown, and the order remembered for the next. *)
Definition dashboard_fleet (slow fast : option SandboxList) (lifecycleActive : bool) (previousOrder : list jsstr)
    : option SandboxList := stabilizeFleetList (currentFleetList slow fast lifecycleActive) previousOrder.

Definition remembered_order (fleet : option SandboxList) : list jsstr := id <$> records_of fleet.

(** ** Clusters *)

Definition clusterIdsBySandbox (clusters : list ResolvedSandboxCluster) : gmap jsstr jsstr :=
  js_map (clusters ≫= λ c, (λ m, (id m, cluster_id (cluster c))) <$> members c).

Record ClusterSearchResult := { found_cluster : ResolvedSandboxCluster; found_members : list SandboxRecord }.

Definition clusterMatches `{CaseMapping} (needle : jsstr) (c : ResolvedSandboxCluster) : bool :=
  js_some (λ value, includes needle (toLowerCase value)) [cluster_id (cluster c); cluster_workspaceRoot (cluster c)].

Definition search_members `{CaseMapping} (filter : jsstr) (snapshot : option SnapshotResult) (c : ResolvedSandboxCluster)
    : list SandboxRecord :=
  let needle := toLowerCase (trim filter) in
  if bool_decide (needle = []) || clusterMatches needle c then members c
  else filterFleetRecords (members c) filter snapshot.

Definition search_cluster `{CaseMapping} (filter : jsstr) (snapshot : option SnapshotResult) (c : ResolvedSandboxCluster)
    : option ClusterSearchResult :=
  let ms := search_members filter snapshot c in
  if bool_decide (ms = []) then None else Some {| found_cluster := c; found_members := ms |}.

Definition visibleClusters `{CaseMapping} (filter : jsstr) (snapshot : option SnapshotResult) (clusters : list ResolvedSandboxCluster)
    : list ClusterSearchResult := omap (search_cluster filter snapshot) clusters.

(** A cluster's header. *)
Definition readyCount (c : ResolvedSandboxCluster) : nat := length (js_filter (λ m, bool_decide (state m = ready)) (members c)).

Definition readyLabel (c : ResolvedSandboxCluster) : jsstr :=
  let r := Z_to_js (Z.of_nat (readyCount c)) in
  if bool_decide (readyCount c = length (members c)) then r ++ js " ready"
  else r ++ js " of " ++ Z_to_js (Z.of_nat (length (members c))) ++ js " ready".

(** ** The page *)

(** [slowPending] and [clustersPending]: no answer yet; the errors are the
    queries'. *)
Record dashboard_input := {
  page_fleet : option SandboxList;
  page_snapshot : option SnapshotResult;
  page_clusters : list ResolvedSandboxCluster;
  page_params : url_params;
  slowPending : bool;
  clustersPending : bool;
  slowError : bool;
  fastError : bool;
  lifecycleActive : bool;
  createLogs : option (list jsstr);
}.

Section page.
Context `{CaseMapping} (p : dashboard_input).
Let records : list SandboxRecord := records_of (page_fleet p).
Let filter : jsstr := filter_of (page_params p).

(** [lifecycleActive ? listFast.error ?? list.error : list.error]. *)
Definition fleetError : bool := if lifecycleActive p then fastError p || slowError p else slowError p.

Definition connection : DashboardConnectionState := connectionFor (page_fleet p) fleetError.

Definition isInitialLoading : bool := slowPending p && bool_decide (page_fleet p = None).

Definition isClusterRegistryLoading : bool :=
  match activeView (page_params p) with view_cluster => clustersPending p | view_sandbox => false end.

Definition visibleSandboxes : list SandboxRecord := filterFleetRecords records filter (page_snapshot p).

Definition showCreationCard : bool :=
  match activeView (page_params p), createLogs p with
  | view_sandbox, Some _ => negb (js_some (λ r, bool_decide (state r = creating)) records)
  | _, _ => false
  end.

Definition isViewEmpty : bool :=
  match activeView (page_params p) with
  | view_sandbox => bool_decide (visibleSandboxes = []) && negb showCreationCard
  | view_cluster => bool_decide (visibleClusters filter (page_snapshot p) (page_clusters p) = [])
  end.

Definition emptyTitle : jsstr :=
  if bool_decide (records = []) then js "No sandboxes yet"
  else if bool_decide (filter ≠ []) then js "No matches"
  else match activeView (page_params p) with view_cluster => js "No clusters" | view_sandbox => js "No sandboxes" end.

Inductive dashboard_body :=
  | body_loading
  | body_unavailable
  | body_empty (title : jsstr)
  | body_sandboxes (cards : list SandboxRecord) (creating : option (list jsstr))
  | body_clusters (found : list ClusterSearchResult).

(** The alert above, and the body. *)
Definition shows_alert : bool := fleetError && bool_decide (page_fleet p ≠ None).

Definition body : dashboard_body :=
  if isInitialLoading || isClusterRegistryLoading then body_loading
  else if fleetError && bool_decide (page_fleet p = None) then body_unavailable
  else if isViewEmpty && bool_decide (page_fleet p ≠ None) then body_empty emptyTitle
  else match activeView (page_params p) with
       | view_sandbox => body_sandboxes visibleSandboxes (if showCreationCard then createLogs p else None)
       | view_cluster => body_clusters (visibleClusters filter (page_snapshot p) (page_clusters p))
       end.
End page.

(** ** Facts: the order *)

Lemma js_filter_sublist_mono {A} (p : A → bool) l l' : l `sublist_of` l' → js_filter p l `sublist_of` js_filter p l'.
Proof.
  induction 1 as [|x l l' _ IH|x l l' _ IH]; [done|cbn; destruct (p x); [by constructor|done]|].
  cbn. destruct (p x); [by constructor|done].
Qed.

Lemma find_ids previous l :
  NoDup (id <$> l) →
  id <$> omap (λ k, js_find (λ r, bool_decide (id r = k)) l) previous
  = js_filter (λ k, bool_decide (k ∈ id <$> l)) previous.
Proof.
  intros Hl. induction previous as [|k previous IH]; [done|]. cbn [omap list_omap List.filter].
  destruct (js_find (λ r, bool_decide (id r = k)) l) as [r|] eqn:Hr.
  - apply find_by_id in Hr as [Hr Hk]; [|done]. rewrite bool_decide_true by (apply list_elem_of_fmap; by exists r).
    cbn [fmap list_fmap]. by rewrite Hk, IH.
  - rewrite bool_decide_false, IH; [done|]. intros (r & -> & Hin)%list_elem_of_fmap.
    assert (js_find (λ r', bool_decide (id r' = id r)) l = Some r) as Hs by by apply find_by_id. by rewrite Hr in Hs.
Qed.

Lemma new_ids (previous : list jsstr) (l : list SandboxRecord) :
  id <$> js_filter (λ r, negb (bool_decide (id r ∈ previous))) l
  = js_filter (λ k, negb (bool_decide (k ∈ previous))) (id <$> l).
Proof. induction l as [|r l IH]; [done|]. cbn. destruct (negb _); cbn; by rewrite IH. Qed.

(** The order remembered after a poll: what is left of the old one, then the
    new records. *)
Lemma remembered_stable previous l :
  NoDup previous → NoDup (id <$> sandboxes l) →
  remembered_order (stabilizeFleetList (Some l) previous) =
  js_filter (λ k, bool_decide (k ∈ id <$> sandboxes l)) previous ++
  js_filter (λ k, negb (bool_decide (k ∈ previous))) (id <$> sandboxes l).
Proof.
  intros Hp Hl. unfold stabilizeFleetList, remembered_order. case_bool_decide as Hnil.
  - subst. cbn. symmetry. induction (id <$> sandboxes l) as [|k ks IH]; [done|]. cbn.
    rewrite bool_decide_false by apply not_elem_of_nil. cbn. f_equal. apply IH. by apply NoDup_cons in Hl as [_ ?].
  - cbn [records_of fmap option_fmap option_map default from_option sandboxes].
    unfold Datatypes.id. cbn [sandboxes]. rewrite sort_stable_order by done. unfold stable_order.
    by rewrite fmap_app, find_ids, new_ids.
Qed.

Lemma remembered_NoDup previous l :
  NoDup previous → NoDup (id <$> sandboxes l) → NoDup (remembered_order (stabilizeFleetList (Some l) previous)).
Proof.
  intros Hp Hl. rewrite remembered_stable by done. apply NoDup_app. split; [|split].
  - eapply sublist_NoDup; [|apply js_filter_sublist]; done.
  - intros k [Hk _]%js_filter_elem [_ Hn]%js_filter_elem. by rewrite bool_decide_true in Hn.
  - eapply sublist_NoDup; [|apply js_filter_sublist]; done.
Qed.

Lemma remembered_pair previous l a b :
  NoDup previous → NoDup (id <$> sandboxes l) → a ∈ id <$> sandboxes l → b ∈ id <$> sandboxes l →
  [a; b] `sublist_of` previous → [a; b] `sublist_of` remembered_order (stabilizeFleetList (Some l) previous).
Proof.
  intros Hp Hl Ha Hb Hab. rewrite remembered_stable by done. apply sublist_inserts_r.
  apply (js_filter_sublist_mono (λ k, bool_decide (k ∈ id <$> sandboxes l))) in Hab.
  cbn in Hab. by rewrite !bool_decide_true in Hab.
Qed.

(** The orders over a run of polls. *)
Definition poll_order (order : list jsstr) (l : SandboxList) : list jsstr :=
  remembered_order (stabilizeFleetList (Some l) order).

Lemma search_members_spec `{CaseMapping} filter snapshot c :
  search_members filter snapshot c `sublist_of` members c ∧
  (trim filter = [] ∨ clusterMatches (toLowerCase (trim filter)) c = true → search_members filter snapshot c = members c) ∧
  ∀ m, m ∈ members c → m ∈ filterFleetRecords (members c) filter snapshot → m ∈ search_members filter snapshot c.
Proof.
  unfold search_members.
  pose proof (toLowerCase_nil (trim filter)) as Hnil.
  split; [|split].
  - destruct (_ || _); [done|]. unfold filterFleetRecords. case_bool_decide; [done|]. apply js_filter_sublist.
  - intros [Hb|Hm]; [by rewrite bool_decide_true by (by apply Hnil)|by rewrite Hm, orb_true_r].
  - intros m Hm Hf. by destruct (_ || _).
Qed.

Lemma search_cluster_cases `{CaseMapping} filter snapshot c :
  (search_members filter snapshot c = [] ∧ search_cluster filter snapshot c = None) ∨
  (search_members filter snapshot c ≠ [] ∧
   search_cluster filter snapshot c = Some {| found_cluster := c; found_members := search_members filter snapshot c |}).
Proof. unfold search_cluster. case_bool_decide; auto. Qed.

(** ** Theorems *)

(** Cards do not move on the dashboard while they stay: over any run of
    polls whose answers all hold the sandboxes [a] and [b], whatever order the
    gateway lists them in and whichever others come and go, [a] stays before
    [b]. *)
Theorem cards_keep_order order sources a b
    (Horder : NoDup order) (Hab : [a; b] `sublist_of` order)
    (Hsources : Forall (λ l, NoDup (id <$> sandboxes l) ∧ a ∈ id <$> sandboxes l ∧ b ∈ id <$> sandboxes l) sources) :
  [a; b] `sublist_of` foldl poll_order order sources.
Proof.
  revert order Horder Hab. induction Hsources as [|l sources (Hl & Ha & Hb) _ IH]; intros order Horder Hab; [done|].
  cbn [foldl]. apply IH; [by apply remembered_NoDup|by apply remembered_pair].
Qed.

Definition example_list (ids : list string) : SandboxList := {| sandboxes := (λ i, example_record i ready) <$> ids |}.

Lemma cards_keep_order_witness :
  [js "a"; js "b"] `sublist_of`
  foldl poll_order [js "a"; js "c"; js "b"] [example_list ["b"; "d"; "a"]; example_list ["d"; "b"; "a"; "c"]]%string.
Proof.
  apply cards_keep_order; [decide_closed|apply sublist_skip, sublist_cons, sublist_skip, sublist_nil|].
  repeat constructor; decide_closed.
Defined.

(** A search over the clusters keeps their order and shows a cluster with
    all its members when the search is blank or matches the cluster's name or
    workspace, and otherwise with the members that match; a cluster of which
    nothing is left is not shown. *)
Theorem visibleClusters_spec `{CaseMapping} filter snapshot clusters :
  found_cluster <$> visibleClusters filter snapshot clusters `sublist_of` clusters ∧
  (∀ r, r ∈ visibleClusters filter snapshot clusters →
    found_members r ≠ [] ∧ found_members r `sublist_of` members (found_cluster r)) ∧
  (∀ c, c ∈ clusters → members c ≠ [] →
    trim filter = [] ∨ clusterMatches (toLowerCase (trim filter)) c = true →
    {| found_cluster := c; found_members := members c |} ∈ visibleClusters filter snapshot clusters) ∧
  (∀ c m, c ∈ clusters → m ∈ members c → m ∈ filterFleetRecords (members c) filter snapshot →
    ∃ r, r ∈ visibleClusters filter snapshot clusters ∧ found_cluster r = c ∧ m ∈ found_members r).
Proof.
  unfold visibleClusters. split; [|split; [|split]].
  - induction clusters as [|c clusters IH]; [done|]. cbn [omap list_omap].
    destruct (search_cluster_cases filter snapshot c) as [[_ ->]|[_ ->]]; [by apply sublist_cons|by apply sublist_skip].
  - intros r (c & _ & Hr)%list_elem_of_omap. destruct (search_cluster_cases filter snapshot c) as [[_ Hs]|[Hne Hs]];
      rewrite Hs in Hr; [done|injection Hr as <-]. split; [done|apply search_members_spec].
  - intros c Hc Hne Hmatch. apply list_elem_of_omap. exists c. split; [done|].
    destruct (search_members_spec filter snapshot c) as (_ & Hall & _). specialize (Hall Hmatch).
    destruct (search_cluster_cases filter snapshot c) as [[Hs _]|[_ ->]]; [congruence|by rewrite Hall].
  - intros c m Hc Hm Hmatch. destruct (search_members_spec filter snapshot c) as (_ & _ & Hin). specialize (Hin m Hm Hmatch).
    destruct (search_cluster_cases filter snapshot c) as [[Hs _]|[_ Hs]]; [by rewrite Hs in Hin; apply not_elem_of_nil in Hin|].
    eexists. split; [by apply list_elem_of_omap; exists c|]. by split.
Qed.

(** What the dashboard tells of the connection and keeps on screen: once
    the gateway has answered, the page never falls back to the loading of the
    sandboxes or to "unavailable", an error shows as stale data under an
    alert, and the collection shown is not empty; without an answer an error
    shows as disconnected and the gateway can be started; and a creation's log
    has its own card only while no sandbox is listed as creating. *)
Theorem dashboard_spec `{CaseMapping} p :
  (page_fleet p ≠ None →
     body p ≠ body_unavailable ∧ (body p = body_loading → activeView (page_params p) = view_cluster ∧ clustersPending p = true) ∧
     (connection p = stale ↔ shows_alert p = true) ∧ (connection p = connected ↔ fleetError p = false) ∧
     body p ≠ body_sandboxes [] None ∧ body p ≠ body_clusters []) ∧
  (page_fleet p = None →
     (connection p = disconnected ↔ fleetError p = true) ∧ shows_alert p = false ∧
     (body p = body_unavailable → connection p = disconnected)) ∧
  (∀ cards logs, body p = body_sandboxes cards (Some logs) →
     createLogs p = Some logs ∧ ∀ r, r ∈ records_of (page_fleet p) → state r ≠ creating).
Proof.
  unfold connection, connectionFor, shows_alert, body, isInitialLoading. split; [|split].
  - intros Hf. destruct (page_fleet p) as [l|] eqn:Hl; [|done]. rewrite (bool_decide_false (Some l = None)), !andb_false_r by done.
    rewrite (bool_decide_true (Some l ≠ None)), !andb_true_r by done. cbn [orb].
    unfold isClusterRegistryLoading, isViewEmpty.
    split; [|split; [|split; [|split; [|split]]]].
    + by repeat case_match.
    + by repeat case_match.
    + by destruct (fleetError p).
    + by destruct (fleetError p).
    + destruct (activeView (page_params p)) eqn:Hv; [|by repeat case_match]. case_bool_decide; [|intros [= Hnil _]; congruence].
      unfold showCreationCard. rewrite Hv. destruct (createLogs p); [|done]. by destruct (js_some _ _).
    + destruct (activeView (page_params p)); [by repeat case_match|]. destruct (clustersPending p); [done|].
      case_bool_decide; [done|congruence].
  - intros ->. rewrite (bool_decide_true (None = None)), (bool_decide_false (None ≠ None)), !andb_false_r by auto.
    split; [by destruct (fleetError p)|]. split; [done|].
    destruct (slowPending p && true || isClusterRegistryLoading p); [done|]. destruct (fleetError p); [done|]. cbn. by destruct (activeView _).
  - intros cards logs. destruct (_ || isClusterRegistryLoading p); [done|]. destruct (fleetError p && _); [done|].
    destruct (isViewEmpty p && _); [done|]. destruct (activeView (page_params p)) eqn:Hv; [|done].
    destruct (showCreationCard p) eqn:Hc; [|done]. intros [= _ Hlogs]. split; [done|].
    unfold showCreationCard in Hc. rewrite Hv, Hlogs in Hc. apply negb_true_iff in Hc. intros r Hr Hs.
    apply not_true_iff_false in Hc. apply Hc, js_some_exists. exists r. by rewrite bool_decide_true.
Qed.

(** The search and the view live in the address: what is typed and chosen
    is read back, and neither changes the other nor any other parameter. *)
Theorem address_round_trip value view params k :
  filter_of (updateFilter value params) = value ∧ activeView (updateView view params) = view ∧
  activeView (updateFilter value params) = activeView params ∧ filter_of (updateView view params) = filter_of params ∧
  (k ≠ js "q" → k ≠ js "view" →
   param_get k (updateFilter value params) = param_get k params ∧ param_get k (updateView view params) = param_get k params).
Proof.
  unfold filter_of, activeView, updateFilter, updateView. split; [|split; [|split; [|split]]].
  - by rewrite param_get_put, bool_decide_true.
  - destruct view; rewrite ?param_get_set, ?param_get_delete; done.
  - unfold param_put. destruct (bool_decide (value = [])); rewrite ?param_get_set, ?param_get_delete; done.
  - destruct view; rewrite ?param_get_set, ?param_get_delete; done.
  - intros Hq Hv. unfold param_put.
    split; [destruct (bool_decide (value = []))|destruct view]; rewrite ?param_get_set, ?param_get_delete; by rewrite bool_decide_false.
Qed.
