(* ===== verification/Cards.v ===== *)
(** What the dashboard shows of a sandbox and of the fleet
    ([web/src/pages/fleet/SandboxCard.tsx], [FleetSummaryBar.tsx],
    [web/src/pages/dashboard/DashboardSummary.tsx],
    [web/src/components/StateBadge.tsx], [HealthDot.tsx]), on the view models
    of [Fleet] and the page of [Dashboard]. *)
From S2P Require Import Prelude JsCollections JsNumber JsText NumText Types Observability Status Resources Fleet Format Uri SandboxClusters Dashboard.

(** The em dash of a value that is not known. *)
Definition UNKNOWN : jsstr := [8212].

Definition or_unknown {A} (show : A → jsstr) (v : option A) : jsstr :=
  match v with Some v => show v | None => UNKNOWN end.

(** ** The card of a sandbox *)

Definition formatCpu (value : option number) : jsstr :=
  match value with
  | Some v => if isFinite v then to_fixed (if num_ltb v (num_of_Z 1) then 2 else 1) v ++ js "%" else UNKNOWN
  | None => UNKNOWN
  end.

(** The button at the foot of a card: progress that cannot be pressed, an
    action that cannot, a link, or nothing. *)
Inductive card_action :=
  | card_progress (text : jsstr)
  | card_disabled (text : jsstr)
  | card_link (text destination : jsstr) (filled : bool)
  | card_no_action.

Definition progressLabel (s : SandboxState) : option jsstr :=
  match s with
  | creating => Some (js "Creating" ++ [8230])
  | stopping => Some (js "Stopping" ++ [8230])
  | _ => None
  end.

Definition is_open (k : SandboxPrimaryActionKind) : bool := match k with action_open => true | action_inspect => false end.

(** [destination] is the address of the sandbox; an identifier that cannot be
    encoded throws before anything is shown. *)
Definition action_of (view : SandboxCardViewModel) (destination : jsstr) : card_action :=
  match progressLabel (card_lifecycleState view) with
  | Some text => card_progress text
  | None =>
      match primaryAction view with
      | Some a => if disabled a then card_disabled (action_label a)
                  else card_link (action_label a) destination (is_open (action_kind a))
      | None => card_no_action
      end
  end.

(** The link of the membership badge. *)
Definition membership_link (clusterId : option jsstr) : option url_params :=
  match clusterId with
  | Some c => if bool_decide (c = []) then None else Some [(js "view", js "cluster"); (js "q", c)]
  | None => None
  end.

Record sandbox_card := {
  shown_id : jsstr;
  shown_membership : option url_params;
  shown_status : jsstr;
  shown_workspace : jsstr;
  shown_metrics : list (string * jsstr);
  shown_log : option (list jsstr);
  shown_failed : bool;
  shown_action : card_action;
}.

Definition SandboxCard (clusterId : option jsstr) (createLogs : option (list jsstr)) (record : SandboxRecord)
    (snapshot : option SandboxSnapshot) (usage : option SandboxCurrentUsage) : option sandbox_card :=
  let view := sandboxCardViewModel record snapshot usage in
  (λ enc,
    {| shown_id := id record;
       shown_membership := membership_link clusterId;
       shown_status := label (status view);
       shown_workspace := if bool_decide (workspaceRoot view = []) then UNKNOWN else workspaceRoot view;
       shown_metrics := [("CPU"%string, formatCpu (card_cpuPercent view)); ("MEM"%string, or_unknown formatBytes (card_memoryBytes view));
                         ("SESSIONS"%string, or_unknown Z_to_js (sessions view));
                         ("ACTIVE CMDS"%string, or_unknown Z_to_js (activeCommands view))];
       shown_log := if bool_decide (card_lifecycleState view = creating) then Some (createLogs ?? []) else None;
       shown_failed := bool_decide (card_lifecycleState view = failed);
       shown_action := action_of view (js "/sandboxes/" ++ enc) |}) <$> encodeURIComponent (id record).

(** ** Summaries *)

Definition DashboardSummary (fleet : option SandboxList) (snapshot : option SnapshotResult) (usage : gmap jsstr SandboxCurrentUsage)
    : list (string * jsstr) :=
  let summary := dashboardSummary fleet snapshot usage in
  [("Total Sandboxes"%string, or_unknown Z_to_js (total summary)); ("Ready"%string, or_unknown Z_to_js (summary_ready summary));
   ("Active Commands"%string, or_unknown Z_to_js (summary_activeCommands summary));
   ("Avg Memory"%string, or_unknown formatBytes (summary_averageMemoryBytes summary))].

(** The counts by state, in the order in which the states first occur. *)
Definition count_state (counts : list (SandboxState * Z)) (s : SandboxState) : list (SandboxState * Z) :=
  if js_some (λ c, bool_decide (c.1 = s)) counts
  then (λ c, if bool_decide (c.1 = s) then (c.1, c.2 + 1) else c) <$> counts
  else counts ++ [(s, 1)].

Definition byState (records : list SandboxRecord) : list (SandboxState * Z) := foldl count_state [] (state <$> records).

Definition add_memory (usage : gmap jsstr SandboxCurrentUsage) (total : option number) (record : SandboxRecord) : option number :=
  match usage !! id record ≫= memoryBytes with
  | Some m => Some (num_add (total ?? num_zero) m)
  | None => total
  end.

Record fleet_bar := {
  bar_total : Z;
  bar_states : list (SandboxState * Z);
  bar_executions : Z;
  bar_memory : jsstr;
}.

Definition FleetSummaryBar (fleet : option SandboxList) (snapshot : option SnapshotResult) (usage : gmap jsstr SandboxCurrentUsage)
    : fleet_bar :=
  let records := records_of fleet in
  {| bar_total := Z.of_nat (length records);
     bar_states := byState records;
     bar_executions := foldl (λ total e, total + inFlightCount e) 0 (snapshots_of snapshot);
     bar_memory := match foldl (add_memory usage) None records with Some m => formatMegabytes m | None => dash end |}.

(** ** Badges *)

Inductive Tone := tone_ok | tone_run | tone_warn | tone_idle | tone_bad.

Definition toneColors (t : Tone) : jsstr :=
  match t with
  | tone_ok => js "success" | tone_run => js "eyeBlue" | tone_warn => js "warning" | tone_idle => js "warm" | tone_bad => js "danger"
  end.

Definition sandboxTones (s : SandboxState) : Tone :=
  match s with ready => tone_ok | creating => tone_run | stopping => tone_warn | stopped => tone_idle | failed => tone_bad end.

Definition commandTones (s : CommandStatus) : Tone :=
  match s with running => tone_run | ok => tone_ok | error => tone_bad | timed_out => tone_warn | cancelled => tone_idle end.

Definition health_label (endpoint : option Endpoint) : jsstr :=
  match endpoint with Some _ => js "daemon_http endpoint registered" | None => js "daemon_http endpoint unavailable" end.

(** What a badge is given: a state of a sandbox, a status of a command, or a
    tone. *)
Inductive badge_state := badge_sandbox (s : SandboxState) | badge_command (c : CommandStatus) | badge_tone (t : Tone).

Definition StateBadge (s : badge_state) : jsstr :=
  toneColors match s with badge_sandbox s => sandboxTones s | badge_command c => commandTones c | badge_tone t => t end.

(** ** Facts *)

(** The number of sandboxes in a state. *)
Definition in_state (s : SandboxState) (l : list SandboxState) : nat := length (js_filter (λ t, bool_decide (t = s)) l).

Lemma in_state_snoc s l t : in_state s (l ++ [t]) = (in_state s l + (if bool_decide (t = s) then 1 else 0))%nat.
Proof. unfold in_state. rewrite js_filter_app, length_app. cbn [List.filter]. by destruct (bool_decide (t = s)). Qed.

Lemma in_state_pos s l : (0 < in_state s l)%nat ↔ s ∈ l.
Proof.
  induction l as [|t l IH] using rev_ind; [cbn; split; [lia|by intros ?%not_elem_of_nil]|]. rewrite in_state_snoc, elem_of_app, list_elem_of_singleton.
  destruct (bool_decide_reflect (t = s)) as [->|Hne]; [split; [by right|lia]|]. rewrite Nat.add_0_r, IH. naive_solver.
Qed.

Record counts_ok (l : list SandboxState) (counts : list (SandboxState * Z)) : Prop := {
  co_keys : NoDup counts.*1;
  co_count : ∀ s n, (s, n) ∈ counts ↔ s ∈ l ∧ n = Z.of_nat (in_state s l);
  co_sum : foldr Z.add 0 counts.*2 = Z.of_nat (length l);
}.

Lemma bump_keys (counts : list (SandboxState * Z)) s :
  ((λ c, if bool_decide (c.1 = s) then (c.1, c.2 + 1) else c) <$> counts).*1 = counts.*1.
Proof. rewrite <- list_fmap_compose. apply list_fmap_ext. intros i c _. cbn. by destruct (bool_decide (c.1 = s)). Qed.

Lemma bump_sum (counts : list (SandboxState * Z)) s : NoDup counts.*1 →
  foldr Z.add 0 ((λ c, if bool_decide (c.1 = s) then (c.1, c.2 + 1) else c) <$> counts).*2 =
  foldr Z.add 0 counts.*2 + (if bool_decide (s ∈ counts.*1) then 1 else 0).
Proof.
  induction counts as [|[t n] counts IH]; [done|]. cbn [fmap list_fmap fst snd foldr]. intros [Hn Hnd]%NoDup_cons. rewrite IH by done.
  destruct (bool_decide_reflect (t = s)) as [->|Hne]; cbn [snd].
  - rewrite (bool_decide_true (s ∈ s :: _)), (bool_decide_false (s ∈ counts.*1)) by (done || apply list_elem_of_here). lia.
  - destruct (bool_decide_reflect (s ∈ counts.*1)) as [Hin|Hin].
    + rewrite bool_decide_true by by apply list_elem_of_further. lia.
    + rewrite bool_decide_false by (rewrite elem_of_cons; naive_solver). lia.
Qed.

Lemma count_state_ok l counts s : counts_ok l counts → counts_ok (l ++ [s]) (count_state counts s).
Proof.
  intros [Hk Hc Hs]. unfold count_state.
  assert (js_some (λ c, bool_decide (c.1 = s)) counts = true ↔ s ∈ counts.*1) as Hiff.
  { rewrite js_some_exists, list_elem_of_fmap. split; intros (c & H1 & H2); exists c; bool_to_prop; [by subst|]. split; [done|]. by apply bool_decide_eq_true. }
  assert (s ∈ counts.*1 ↔ s ∈ l) as Hin.
  { rewrite list_elem_of_fmap. split; [intros ([t n] & -> & [? _]%Hc); done|]. intros Hl. exists (s, Z.of_nat (in_state s l)). split; [done|]. by apply Hc. }
  destruct (js_some _ _) eqn:Hsome.
  - pose proof (proj1 Hiff eq_refl) as Hs'. constructor; rewrite ?bump_keys; [done| |].
    + intros t n. rewrite list_elem_of_fmap, in_state_snoc. split.
      * intros ([u k] & Heq & [Hl Hu]%Hc). cbn [fst snd] in Heq. destruct (bool_decide_reflect (u = s)) as [Heq'|Hne]; injection Heq as Ht Hn; subst.
        { rewrite bool_decide_true by done. split; [set_solver|lia]. }
        { rewrite bool_decide_false by congruence. split; [set_solver|lia]. }
      * intros [Ht ->]. destruct (decide (t = s)) as [->|Hne].
        { exists (s, Z.of_nat (in_state s l)). cbn. rewrite bool_decide_true by done. split; [f_equal; lia|]. apply Hc. split; [by apply Hin|done]. }
        { exists (t, Z.of_nat (in_state t l)). cbn. rewrite !bool_decide_false by congruence. split; [f_equal; lia|]. apply Hc. set_solver. }
    + rewrite bump_sum, Hs, bool_decide_true, length_app by done. cbn. lia.
  - assert (s ∉ counts.*1) as Hs' by (rewrite <- Hiff; done). assert (s ∉ l) as Hl by (by rewrite <- Hin).
    constructor; rewrite ?fmap_app; cbn [fmap list_fmap fst snd].
    + apply NoDup_app. split_and!; [done|set_solver|apply NoDup_singleton].
    + intros t n. rewrite elem_of_app, list_elem_of_singleton, Hc, in_state_snoc, elem_of_app, list_elem_of_singleton. 
      assert (in_state s l = 0%nat) as H0.
      { destruct (decide (0 < in_state s l)%nat) as [Hpos|]; [|lia]. by apply in_state_pos in Hpos. }
      destruct (decide (t = s)) as [->|Hne].
      * rewrite bool_decide_true, H0 by done. split; [|intros [_ ->]; by right].
        intros [[? _]|Heq]; [done|]. injection Heq as ->. split; [by right|done].
      * rewrite bool_decide_false, Nat.add_0_r by congruence. naive_solver.
    + rewrite foldr_app. cbn [foldr]. rewrite length_app. cbn [length]. 
      assert (∀ z xs, foldr Z.add z xs = foldr Z.add 0 xs + z) as Hz by (intros z xs; induction xs as [|x xs IH]; cbn; lia).
      rewrite Hz, Hs. lia.
Qed.

Lemma byState_ok records : counts_ok (state <$> records) (byState records).
Proof.
  unfold byState. induction (state <$> records) as [|s l IH] using rev_ind.
  - constructor; cbn; [constructor| |done]. intros s n. split; [by intros ?%not_elem_of_nil|by intros [?%not_elem_of_nil _]].
  - rewrite foldl_snoc. by apply count_state_ok.
Qed.

(** ** Theorems *)

(** The fleet's badges count every sandbox once: each state that occurs
    has one badge with the number of sandboxes in it, no other state has one,
    and the counts add up to the total shown beside them. *)
Theorem fleet_bar_counts fleet snapshot usage :
  let bar := FleetSummaryBar fleet snapshot usage in
  NoDup (bar_states bar).*1 ∧
  (∀ s n, (s, n) ∈ bar_states bar ↔
     (∃ r, r ∈ records_of fleet ∧ state r = s) ∧ n = Z.of_nat (length (js_filter (λ r, bool_decide (state r = s)) (records_of fleet)))) ∧
  foldr Z.add 0 (bar_states bar).*2 = bar_total bar.
Proof.
  cbv zeta. cbn [bar_states bar_total FleetSummaryBar]. destruct (byState_ok (records_of fleet)) as [Hk Hc Hs].
  split_and!; [done| |by rewrite Hs, length_fmap].
  intros s n. rewrite Hc, list_elem_of_fmap.
  assert (in_state s (state <$> records_of fleet) = length (js_filter (λ r, bool_decide (state r = s)) (records_of fleet))) as ->.
  { unfold in_state. clear. induction (records_of fleet) as [|r l IH]; [done|]. cbn [fmap list_fmap List.filter].
    destruct (bool_decide (state r = s)); cbn [length]; by rewrite IH. }
  split; intros [(r & H1 & H2) ->]; (split; [|done]); exists r; by split.
Qed.

(** What a card lets the user do. A card exists exactly when the
    identifier can be part of an address; it leads into the sandbox exactly
    when the sandbox is ready, stopped or has failed, to the sandbox's own
    page; while it is being created or stopped the button cannot be pressed;
    the creation log is shown exactly while it is being created; and unless it
    is ready no gauge shows a value. *)
Theorem card_actions clusterId createLogs record snapshot usage :
  (SandboxCard clusterId createLogs record snapshot usage = None ↔ encodeURIComponent (id record) = None) ∧
  ∀ card enc, SandboxCard clusterId createLogs record snapshot usage = Some card → encodeURIComponent (id record) = Some enc →
    (∀ to, (∃ text filled, shown_action card = card_link text to filled) ↔
       (state record = ready ∨ state record = stopped ∨ state record = failed) ∧ to = js "/sandboxes/" ++ enc) ∧
    ((∃ text, shown_action card = card_progress text) ↔ state record = creating ∨ state record = stopping) ∧
    (shown_log card ≠ None ↔ state record = creating) ∧
    (state record ≠ ready → Forall (λ m, m.2 = UNKNOWN) (shown_metrics card)).
Proof.
  unfold SandboxCard. cbv zeta. destruct (encodeURIComponent (id record)) as [enc|]; cbn [fmap option_fmap option_map]; [|by split].
  split; [done|]. intros card enc' [= <-] [= <-].
  cbn [shown_action shown_log shown_metrics sandboxCardViewModel card_lifecycleState card_cpuPercent card_memoryBytes sessions activeCommands].
  unfold action_of, activeCommandsForRecord, is_ready. cbn [primaryAction card_lifecycleState sandboxCardViewModel].
  destruct (state record) eqn:Hst; cbn [progressLabel primaryActionFor disabled action_label action_kind is_open];
    rewrite ?(bool_decide_true (_ = _)), ?bool_decide_false by done; split_and!; try (naive_solver congruence).
  all: intros _; destruct snapshot; repeat constructor.
Qed.

Lemma includes_refl s : includes s s = true.
Proof. apply includes_spec. exists [], []. by rewrite app_nil_r. Qed.

(** The badge of a sandbox that is in a cluster leads to that cluster:
    the address it links to is the cluster view of the dashboard, and the
    search it carries shows the cluster of that name the sandbox is in, with
    all its members. *)
Theorem badge_leads_to_cluster `{CaseMapping} clusters record clusterId snapshot params
    (Hmember : clusterIdsBySandbox clusters !! id record = Some clusterId) (Hname : trim clusterId = clusterId)
    (Hlink : membership_link (Some clusterId) = Some params) :
  activeView params = view_cluster ∧ filter_of params = clusterId ∧
  ∃ c m, c ∈ clusters ∧ cluster_id (cluster c) = clusterId ∧ m ∈ members c ∧ id m = id record ∧
    {| found_cluster := c; found_members := members c |} ∈ visibleClusters (filter_of params) snapshot clusters.
Proof.
  unfold membership_link in Hlink. destruct (bool_decide_reflect (clusterId = [])) as [|Hne]; [done|].
  assert (params = [(js "view", js "cluster"); (js "q", clusterId)]) as -> by congruence.
  split; [reflexivity|]. assert (filter_of [(js "view", js "cluster"); (js "q", clusterId)] = clusterId) as -> by reflexivity. split; [done|].
  apply js_map_elem, list_elem_of_bind in Hmember as (c & Hm & Hc). apply list_elem_of_fmap in Hm as (m & [= Hid ->] & Hm).
  exists c, m. split_and!; [done..|]. pose proof (visibleClusters_spec (cluster_id (cluster c)) snapshot clusters) as (_ & _ & Hvis & _).
  apply Hvis; [done|by destruct (members c); [apply not_elem_of_nil in Hm|]|]. right. rewrite Hname. unfold clusterMatches.
  cbn [List.existsb]. by rewrite includes_refl.
Qed.

Definition example_clusters : list ResolvedSandboxCluster :=
  [{| cluster := example_cluster "cluster-a" ["1"; "2"]%string; members := [example_record "1" ready; example_record "2" ready] |}].

Lemma badge_leads_to_cluster_witness :
  filter_of [(js "view", js "cluster"); (js "q", js "cluster-a")] = js "cluster-a".
Proof.
  refine (proj1 (proj2 (@badge_leads_to_cluster basic_latin example_clusters (example_record "2" ready) (js "cluster-a") None
    [(js "view", js "cluster"); (js "q", js "cluster-a")] _ _ _))).
  - by vm_compute.
  - by vm_compute.
  - reflexivity.
Defined.
