(* ===== verification/NodePath.v ===== *)
(** Paths and files as the scripts see them: the functions of [node:path] on
    POSIX paths that [web/scripts/assets.mjs] calls, and a tree of files. An
    absolute path is the list of its segments. *)
From S2P Require Import Prelude JsText JsCollections.

Definition SLASH : Z := 47.
Definition PARENT : jsstr := js "..".

(** ** Paths *)

Definition isAbsolute (p : jsstr) : bool := startsWith [SLASH] p.

(** One segment of a path: nothing and [.] stay, [..] goes up. *)
Definition climb (base : list jsstr) (segment : jsstr) : list jsstr :=
  if bool_decide (segment = []) || bool_decide (segment = js ".") then base
  else if bool_decide (segment = PARENT) then take (length base - 1) base
  else base ++ [segment].

(** [join(base, p)] and [resolve(base, p)]. *)
Definition join_path (base : list jsstr) (p : jsstr) : list jsstr := foldl climb base (split SLASH p).
Definition resolve (base : list jsstr) (p : jsstr) : list jsstr := join_path (if isAbsolute p then [] else base) p.

Definition path_text (p : list jsstr) : jsstr := SLASH :: join [SLASH] p.

(** [relative(from, to)]: up from the first segment that differs, then down. *)
Fixpoint relative_segments (from to : list jsstr) : list jsstr :=
  match from, to with
  | f :: from', t :: to' => if bool_decide (f = t) then relative_segments from' to' else replicate (length from) PARENT ++ to
  | _, _ => replicate (length from) PARENT ++ to
  end.

Definition relative (from to : list jsstr) : jsstr := join [SLASH] (relative_segments from to).

(** [relativePath === ".." || relativePath.startsWith("../")]. *)
Definition escapes (root target : list jsstr) : bool :=
  bool_decide (relative root target = PARENT) || startsWith (PARENT ++ [SLASH]) (relative root target).

(** The index of the last occurrence of a unit. *)
Fixpoint last_index (c : Z) (s : jsstr) : option nat :=
  match s with
  | [] => None
  | u :: s => match last_index c s with Some i => Some (S i) | None => if u =? c then Some 0%nat else None end
  end.

(** [extname(p)]: from the last dot of the last segment, unless it comes first. *)
Definition extname (p : jsstr) : jsstr :=
  match last (js_filter (λ s, negb (bool_decide (s = []))) (split SLASH p)) with
  | None => []
  | Some base => if bool_decide (base = PARENT) then []
                 else match last_index 46 base with Some (S i) => drop (S i) base | _ => [] end
  end.

Example extname_examples :
  extname <$> [js "/a/b.png"; js "a.tar.gz/"; js ".png"; js "a."; js ".."; js "b"; js "..png"] =
  [js ".png"; js ".gz"; []; js "."; []; []; js ".png"].
Proof. reflexivity. Qed.

Example resolve_examples :
  ((λ p, path_text (resolve [js "r"; js "s"] p)) <$> [js "a/../b//./c"; js "../.."; js "../../../x"; js "/y/"] =
   [js "/r/s/b/c"; js "/"; js "/x"; js "/y"]) ∧
  (relative [js "r"; js "s"] <$> [[js "r"; js "s"; js "a"]; [js "r"; js "s"]; [js "r"]; [js "r"; js "t"]]) =
  [js "a"; []; js ".."; js "../t"].
Proof. split; reflexivity. Qed.

(** ** Files *)

(** What is at a place: a file, a directory with the entries in the order the
    file system lists them, or something else. *)
Inductive node :=
  | File (bytes : list Z)
  | Folder (entries : list (jsstr * node))
  | Special.

Definition entry (name : jsstr) (entries : list (jsstr * node)) : option node :=
  snd <$> js_find (λ e, bool_decide (e.1 = name)) entries.

(** The codes of a failed call of the file system. *)
Inductive fs_error := ENOENT | ENOTDIR | EISDIR | EIO | EEXIST.

Fixpoint node_at (n : node) (p : list jsstr) : outcome fs_error node :=
  match p with
  | [] => Returns n
  | s :: p => match n with
              | Folder es => match entry s es with Some n => node_at n p | None => Throws ENOENT end
              | _ => Throws ENOTDIR
              end
  end.

Definition readFile (fs : node) (p : list jsstr) : outcome fs_error (list Z) :=
  let! n := node_at fs p in
  match n with File bytes => Returns bytes | Folder _ => Throws EISDIR | Special => Throws EIO end.

Definition readdir (fs : node) (p : list jsstr) : outcome fs_error (list (jsstr * node)) :=
  let! n := node_at fs p in
  match n with Folder es => Returns es | _ => Throws ENOTDIR end.

Definition sort_paths : list (list jsstr) → list (list jsstr) := js_sort (λ p q, compare_units (path_text p) (path_text q)).

(** ** Facts: paths *)

(** A proper name of a segment. *)
Record name (s : jsstr) : Prop := {
  name_nonempty : s ≠ [];
  name_dot : s ≠ js ".";
  name_parent : s ≠ PARENT;
  name_plain : SLASH ∉ s;
}.

Lemma climb_name base s : name s → climb base s = base ++ [s].
Proof.
  intros [Hne Hd Hp _]. unfold climb. rewrite !bool_decide_false by done. done.
Qed.

Lemma climb_names base s : Forall name base → SLASH ∉ s → Forall name (climb base s).
Proof.
  intros Hb Hs. unfold climb. destruct (decide (s = [])) as [|Hne]; [by rewrite bool_decide_true|rewrite bool_decide_false by done].
  destruct (decide (s = js ".")) as [|Hd]; [by rewrite bool_decide_true|rewrite bool_decide_false by done]. cbn [orb].
  destruct (decide (s = PARENT)) as [|Hp]; [rewrite bool_decide_true by done; by apply Forall_take|rewrite bool_decide_false by done].
  apply Forall_app. split; [done|]. constructor; [by constructor|constructor].
Qed.

(** Paths are always lists of names. *)
Lemma join_path_names base p : Forall name base → Forall name (join_path base p).
Proof.
  intros Hb. unfold join_path. pose proof (split_parts SLASH p) as Hp. revert base Hb.
  induction Hp as [|s l Hs _ IH]; intros base Hb; cbn [foldl]; [done|]. by apply IH, climb_names.
Qed.

Lemma resolve_names base p : Forall name base → Forall name (resolve base p).
Proof. intros Hb. unfold resolve. destruct (isAbsolute p); apply join_path_names; [constructor|done]. Qed.

Lemma climb_all base l : Forall name l → foldl climb base l = base ++ l.
Proof.
  intros Hl. revert base. induction Hl as [|s l Hs _ IH]; intros base; cbn [foldl]; [by rewrite app_nil_r|].
  by rewrite climb_name, IH, <- app_assoc.
Qed.

Lemma names_plain l : Forall name l → Forall (λ p, SLASH ∉ p) l.
Proof. intros Hl. eapply Forall_impl; [exact Hl|]. by intros s []. Qed.

(** Names joined do not begin by going up. *)
Lemma names_down l : Forall name l → join [SLASH] l ≠ PARENT ∧ startsWith (PARENT ++ [SLASH]) (join [SLASH] l) = false.
Proof.
  intros Hl. destruct l as [|s l]; [done|]. pose proof (split_join SLASH (s :: l) ltac:(done) (names_plain _ Hl)) as Hsplit.
  apply Forall_cons in Hl as [Hs _]. split.
  - intros Heq. rewrite Heq in Hsplit. change (split SLASH PARENT) with [PARENT] in Hsplit. apply (name_parent s); [done|]. congruence.
  - apply not_true_iff_false. intros [x Hx]%startsWith_spec. rewrite Hx in Hsplit.
    change (split SLASH ((PARENT ++ [SLASH]) ++ x)) with (PARENT :: split SLASH x) in Hsplit.
    apply (name_parent s); [done|]. congruence.
Qed.

Lemma relative_segments_cases from to :
  (∃ rest, to = from ++ rest ∧ relative_segments from to = rest) ∨
  (¬ from `prefix_of` to ∧ ∃ l, relative_segments from to = PARENT :: l).
Proof.
  revert to. induction from as [|f from IH]; intros to; [left; by exists to|]. destruct to as [|t to]; cbn [relative_segments].
  - right. split; [by intros [? ?]|]. by eexists.
  - destruct (decide (f = t)) as [<-|Hne]; [rewrite bool_decide_true by done|rewrite bool_decide_false by done].
    + destruct (IH to) as [(rest & -> & ->)|[Hnp (l & ->)]]; [left; by exists rest|]. right. split; [|by exists l].
      intros [r Hr]. apply Hnp. exists r. by injection Hr.
    + right. split; [intros [r Hr]; by injection Hr as <-|]. by eexists.
Qed.

(** The test for leaving a directory is exact. *)
Lemma escapes_spec root target : Forall name target → escapes root target = false ↔ root `prefix_of` target.
Proof.
  intros Ht. unfold escapes, relative. destruct (relative_segments_cases root target) as [(rest & -> & ->)|[Hnp (l & ->)]].
  - apply Forall_app in Ht as [_ Hrest]. destruct (names_down rest Hrest) as [Hne ->].
    rewrite bool_decide_false by done. split; [intros _; by exists rest|done].
  - split; [|done]. intros [Hne Hst]%orb_false_iff. exfalso. destruct l as [|s l]; [by rewrite bool_decide_true in Hne|].
    apply not_true_iff_false in Hst. apply Hst, startsWith_spec. rewrite join_cons by done. exists (join [SLASH] (s :: l)). by rewrite <- app_assoc.
Qed.

(** A path below a directory is found again from its relative form, which is
    not absolute. *)
Lemma resolve_relative root target : Forall name target → root `prefix_of` target →
  isAbsolute (relative root target) = false ∧ resolve root (relative root target) = target.
Proof.
  intros Ht [rest ->]. apply Forall_app in Ht as [_ Hrest]. unfold relative.
  destruct (relative_segments_cases root (root ++ rest)) as [(rest' & Heq & ->)|[Hnp _]]; [|by destruct Hnp; exists rest].
  apply app_inv_head in Heq as <-. assert (isAbsolute (join [SLASH] rest) = false) as Hab.
  { apply not_true_iff_false. intros [x Hx]%startsWith_spec. destruct rest as [|s rest]; [done|].
    pose proof (split_join SLASH (s :: rest) ltac:(done) (names_plain _ Hrest)) as Hsplit. rewrite Hx in Hsplit.
    change (split SLASH ([SLASH] ++ x)) with ([] :: split SLASH x) in Hsplit. apply Forall_cons in Hrest as [[Hne _ _ _] _]. congruence. }
  split; [done|]. unfold resolve, join_path. rewrite Hab. destruct rest as [|s rest]; [by rewrite app_nil_r|].
  rewrite split_join by (try done; by apply names_plain). by apply climb_all.
Qed.

(** ** Facts: order and trees *)

Lemma compare_units_eq a b : compare_units a b = 0 ↔ a = b.
Proof.
  revert b. induction a as [|x a IH]; intros [|y b]; cbn [compare_units]; try done.
  destruct (Z.ltb_spec x y); [split; [done|intros [= -> ->]; lia]|].
  destruct (Z.ltb_spec y x); [split; [done|intros [= -> ->]; lia]|].
  rewrite IH. assert (x = y) as -> by lia. naive_solver congruence.
Qed.

Lemma compare_units_opp a b : compare_units b a = - compare_units a b.
Proof.
  revert b. induction a as [|x a IH]; intros [|y b]; cbn [compare_units]; try done.
  destruct (Z.ltb_spec x y), (Z.ltb_spec y x); try lia. apply IH.
Qed.

Lemma compare_units_trans a b c : compare_units a b ≤ 0 → compare_units b c ≤ 0 → compare_units a c ≤ 0.
Proof.
  revert b c. induction a as [|x a IH]; intros [|y b] [|z c]; cbn [compare_units]; try lia.
  destruct (Z.ltb_spec x y), (Z.ltb_spec y x), (Z.ltb_spec y z), (Z.ltb_spec z y), (Z.ltb_spec x z), (Z.ltb_spec z x); try lia.
  apply IH.
Qed.

Lemma sort_paths_perm l : sort_paths l ≡ₚ l.
Proof. apply js_sort_perm. Qed.

Lemma sort_paths_in_order l : StronglySorted (λ p q, compare_units (path_text p) (path_text q) ≤ 0) (sort_paths l).
Proof.
  apply (js_sort_in_order _ (λ _, True)); [|by apply Forall_true]. split.
  - intros x y _ _. rewrite (compare_units_opp (path_text x) (path_text y)). lia.
  - intros x y z _ _ _. apply compare_units_trans.
Qed.

(** Induction over a tree. *)
Section node_ind.
Context (P : node → Prop).
Hypothesis Pfile : ∀ b, P (File b).
Hypothesis Pfolder : ∀ es, Forall (λ e, P e.2) es → P (Folder es).
Hypothesis Pspecial : P Special.

Fixpoint node_nested_ind (n : node) : P n :=
  match n with
  | File b => Pfile b
  | Folder es => Pfolder es ((fix go es : Forall (λ e, P e.2) es :=
      match es with [] => Forall_nil_2 _ | e :: es => Forall_cons_2 _ _ _ (node_nested_ind e.2) (go es) end) es)
  | Special => Pspecial
  end.
End node_ind.

(** In a proper tree no directory has two entries of one name. *)
Inductive proper_tree : node → Prop :=
  | proper_file b : proper_tree (File b)
  | proper_folder es : NoDup es.*1 → Forall (λ e, proper_tree e.2) es → proper_tree (Folder es)
  | proper_special : proper_tree Special.

Lemma entry_Some s es n : NoDup es.*1 → entry s es = Some n ↔ (s, n) ∈ es.
Proof.
  intros Hnd. unfold entry. rewrite fmap_Some. split.
  - intros ([s' n'] & (l1 & l2 & -> & Hs & _)%js_find_Some & ->). bool_to_prop. cbn in *. subst. set_solver.
  - intros (l1 & l2 & ->)%list_elem_of_split. exists (s, n). split; [|done]. apply js_find_Some. exists l1, l2.
    split_and!; [done|by apply bool_decide_eq_true|]. apply Forall_forall. intros e He. apply bool_decide_eq_false. intros Heq.
    rewrite fmap_app, fmap_cons in Hnd. apply NoDup_app in Hnd as (_ & Hd & _). apply (Hd (e.1)); [|rewrite Heq; apply list_elem_of_here].
    by apply list_elem_of_fmap_2.
Qed.

(** A tree's proper folder, entry by entry. *)
Lemma node_at_cons es s p n : NoDup es.*1 →
  node_at (Folder es) (s :: p) = Returns n ↔ ∃ m, (s, m) ∈ es ∧ node_at m p = Returns n.
Proof.
  intros Hnd. cbn [node_at]. destruct (entry s es) as [m|] eqn:He.
  - apply (entry_Some _ _ _ Hnd) in He. split; [eauto|]. intros (m' & Hm' & Hn).
    apply (entry_Some _ _ _ Hnd) in He, Hm'. congruence.
  - split; [done|]. intros (m & Hm & _). apply (entry_Some _ _ _ Hnd) in Hm. congruence.
Qed.

Lemma node_at_app n p q : node_at n (p ++ q) = (let! m := node_at n p in node_at m q).
Proof.
  revert n. induction p as [|s p IH]; intros n; [done|]. cbn [node_at app].
  destruct n as [|es|]; [done| |done]. destruct (entry s es); [apply IH|done].
Qed.

Lemma node_at_proper n p m : proper_tree n → node_at n p = Returns m → proper_tree m.
Proof.
  revert n. induction p as [|s p IH]; intros n Hn; cbn [node_at]; [by intros [= <-]|].
  destruct Hn as [b|es Hnd Hes|]; try done. destruct (entry s es) as [k|] eqn:He; [|done].
  apply (entry_Some _ _ _ Hnd) in He. rewrite Forall_forall in Hes. apply IH, (Hes _ He).
Qed.

Fixpoint proper_treeb (n : node) : bool :=
  match n with
  | Folder es => bool_decide (NoDup es.*1) && forallb (λ e, proper_treeb e.2) es
  | _ => true
  end.

Lemma proper_treeb_sound n : proper_treeb n = true → proper_tree n.
Proof.
  induction n as [b|es IH|] using node_nested_ind; [constructor| |constructor].
  cbn [proper_treeb]. intros [Hnd Hall]%andb_true_iff. apply bool_decide_eq_true in Hnd. constructor; [done|].
  rewrite forallb_forall in Hall. rewrite Forall_forall in IH |- *. intros e He. apply (IH e He), Hall. by apply list_elem_of_In.
Qed.
