(* ===== verification/Assets.v ===== *)
(** The asset script ([web/scripts/assets.mjs]): what [verify] and
    [verify-dist] check of the manifest of images, fonts and icons, of the
    files it lists, and of the built application.

    The repository is a tree of files ([NodePath]); SHA-256 and the metadata
    that the image library reads from a file are parameters. A result that
    throws carries the errors of which one is thrown: only the checks that run
    together give more than one. Generating the assets (the image pipeline,
    the copied fonts, the icon generator) is not modelled, but the record
    written for a file is. *)
From S2P Require Import Prelude JsCollections JsNumber JsText NumText Json NodePath.

(** ** Texts of files *)

(** The decoder of UTF-8 with replacement: the bytes still needed, the range
    of the next one, and the code point so far. *)
Record utf8_state := { needed : nat; lower : Z; upper : Z; code_point : Z }.

Definition utf8_idle : utf8_state := {| needed := 0; lower := 128; upper := 191; code_point := 0 |}.
Definition REPLACEMENT : jsstr := [65533].

Definition utf8_first (b : Z) : jsstr * utf8_state :=
  let wait n lo hi c := ([], {| needed := n; lower := lo; upper := hi; code_point := c |}) in
  if b <? 128 then ([b], utf8_idle)
  else if (194 <=? b) && (b <=? 223) then wait 1%nat 128 191 (b - 192)
  else if (224 <=? b) && (b <=? 239) then wait 2%nat (if b =? 224 then 160 else 128) (if b =? 237 then 159 else 191) (b - 224)
  else if (240 <=? b) && (b <=? 244) then wait 3%nat (if b =? 240 then 144 else 128) (if b =? 244 then 143 else 191) (b - 240)
  else (REPLACEMENT, utf8_idle).

Definition utf16 (c : Z) : jsstr :=
  if c <? 65536 then [c] else [55296 + (c - 65536) / 1024; 56320 + (c - 65536) mod 1024].

Definition utf8_next (s : utf8_state) (b : Z) : jsstr * utf8_state :=
  match needed s with
  | O => utf8_first b
  | S n => if (lower s <=? b) && (b <=? upper s)
           then let c := code_point s * 64 + (b - 128) in
                match n with
                | O => (utf16 c, utf8_idle)
                | _ => ([], {| needed := n; lower := 128; upper := 191; code_point := c |})
                end
           else let '(out, s) := utf8_first b in (REPLACEMENT ++ out, s)
  end.

Fixpoint utf8_decode (s : utf8_state) (bytes : list Z) : jsstr :=
  match bytes with
  | [] => match needed s with O => [] | _ => REPLACEMENT end
  | b :: bytes => let '(out, s) := utf8_next s b in out ++ utf8_decode s bytes
  end.

Definition utf8_text : list Z → jsstr := utf8_decode utf8_idle.

Example utf8_examples :
  utf8_text <$> [[104; 105]; [195; 169]; [240; 159; 152; 128]; [195; 40]; [237; 160; 128]; [226; 130]; [192; 175]] =
  [js "hi"; [233]; [55357; 56832]; [65533; 40]; [65533; 65533; 65533]; [65533]; [65533; 65533]].
Proof. reflexivity. Qed.

(** The letters of a regular expression without case that are ASCII. *)
Definition ascii_lower (s : jsstr) : jsstr := lower_unit <$> s.

Definition names_user_path (text : jsstr) : bool :=
  includes (js "/users/") (ascii_lower text) || includes (js "\users\") (ascii_lower text).

Definition FORBIDDEN_HOSTS : list jsstr :=
  [js "fonts.googleapis.com"; js "fonts.gstatic.com"; js "cdn.tailwindcss.com"; js "fonts.google.com/icons"; js "stitch.withgoogle.com"].

Definition names_forbidden_host (text : jsstr) : bool := js_some (λ h, includes h (ascii_lower text)) FORBIDDEN_HOSTS.

(** ** Errors *)

Inductive asset_error :=
  | AssetError (message : jsstr)                      (* thrown by the script *)
  | ArgumentError                                     (* a path that is no text *)
  | PropertyError                                     (* a property of null or undefined, or no array *)
  | FileError (code : fs_error) (path : list jsstr)
  | NotJson
  | ImageRejected.

Abbreviation checked := (outcome (list asset_error)).

Definition fail {A} (message : jsstr) : checked A := Throws [AssetError message].
Definition require (b : bool) (message : jsstr) : checked unit := if b then Returns tt else fail message.

Definition read (fs : node) (p : list jsstr) : checked (list Z) :=
  match readFile fs p with Returns b => Returns b | Throws e => Throws [FileError e p] end.

Definition stat (fs : node) (p : list jsstr) : checked unit :=
  match node_at fs p with Returns _ => Returns tt | Throws e => Throws [FileError e p] end.

Definition parse_json (text : jsstr) : checked json := match parse text with Some v => Returns v | None => Throws [NotJson] end.

(** A loop that awaits one check after the other, and checks that run at once. *)
Definition in_turn {A} (check : A → checked unit) (l : list A) : checked unit :=
  foldr (λ a rest, let! _ := check a in rest) (Returns tt) l.

Definition at_once {A} (check : A → checked unit) (l : list A) : checked unit :=
  match l ≫= (λ a, match check a with Throws es => es | Returns _ => [] end) with
  | [] => Returns tt
  | es => Throws es
  end.

(** ** Values of the manifest *)

(** [v.k], which throws on [null] and [undefined]; [v?.k] does not. *)
Definition member (k : string) (v : option json) : checked (option json) :=
  match v with None | Some JNull => Throws [PropertyError] | Some v => Returns (get k v) end.

Definition optional_member (k : string) (v : option json) : option json := v ≫= get k.

(** [a === b]; objects and arrays of two texts are never the same. *)
Definition strict_eq (a b : option json) : bool :=
  match a, b with
  | None, None | Some JNull, Some JNull => true
  | Some (JBool x), Some (JBool y) => eqb x y
  | Some (JNum x), Some (JNum y) => num_eqb x y
  | Some (JStr x), Some (JStr y) => bool_decide (x = y)
  | _, _ => false
  end.

Definition is_text (v : option json) (s : jsstr) : bool := strict_eq v (Some (JStr s)).
Definition is_int (v : option json) (n : Z) : bool := strict_eq v (Some (JNum (num_of_Z n))).

(** [String(v)] of a value in a message; an object's is not spelled out. *)
Definition shown_value (v : option json) : jsstr :=
  match v with
  | None => js "undefined"
  | Some (JStr s) => s
  | Some v => stringify v
  end.

(** [Object.values(v)] and [...v]; the units of a text stand for its code
    points, none of which is a record. *)
Definition object_values (v : json) : list json :=
  match v with JObj l => l.*2 | JArr l => l | JStr s => (λ u, JStr [u]) <$> s | _ => [] end.

Definition spread (v : option json) : checked (list json) :=
  match v with
  | Some (JArr l) => Returns l
  | Some (JStr s) => Returns ((λ u, JStr [u]) <$> s)
  | _ => Throws [PropertyError]
  end.

Definition present (v : option json) : bool := match v with Some _ => true | None => false end.

(** ** The repository *)

Definition SOURCE_SHA256 : jsstr := js "b940877050866fb52b9e9e1142e7cffebfc5d5c77dfca26f0da5a82e00612bd3".
Definition SOURCE_SIDE : Z := 1024.
Definition PUBLIC_IMAGES : list (string * jsstr) :=
  [("png"%string, js "shared/public/brand/ephemeral-sandbox-mascot-b9408770.png");
   ("webp"%string, js "shared/public/brand/ephemeral-sandbox-mascot-b9408770.webp")].
Definition SOURCE_PATH : jsstr := js "shared/assets/source/ephemeral-sandbox-mascot.png".
Definition MANIFEST_PATH : jsstr := js "shared/assets/manifest.json".
Definition ICON_DIRECTORY : jsstr := js "desktop/src-tauri/icons".
Definition DIST_DIRECTORY : jsstr := js "web/dist".

(** What the image library reads from a file. *)
Record image_metadata := {
  image_width : option Z;
  image_height : option Z;
  image_channels : option Z;
  image_space : option jsstr;
  image_format : option jsstr;
  image_depth : option jsstr;
  hasAlpha : bool;
}.

Definition int_json (n : option Z) : option json := JNum ∘ num_of_Z <$> n.

Section repository.
Context `{CaseMapping} (sha256 : list Z → jsstr) (sharp : list Z → option image_metadata) (root : list jsstr) (fs : node).

Definition fromRoot (p : jsstr) : list jsstr := join_path root p.
Definition toRootPath (p : list jsstr) : jsstr := relative root p.

Definition image (bytes : list Z) : checked image_metadata :=
  match sharp bytes with Some m => Returns m | None => Throws [ImageRejected] end.

Definition assertRepositoryPath (p : option json) (what : jsstr) : checked (list jsstr) :=
  match p with
  | Some (JStr p) =>
      let resolved := resolve root p in
      if isAbsolute p || escapes root resolved
      then fail (what ++ js " must remain inside the repository: " ++ p)
      else Returns resolved
  | _ => Throws [ArgumentError]
  end.

(** ** Files *)

(** The files below a directory, each directory's sorted. *)
Fixpoint walk (directory : list jsstr) (n : node) : list (list jsstr) :=
  match n with
  | Folder es =>
      sort_paths (flat_map (λ e, match e.2 with
                                 | Folder _ => walk (directory ++ [e.1]) e.2
                                 | File _ => [directory ++ [e.1]]
                                 | Special => []
                                 end) es)
  | _ => []
  end.

Definition walkFiles (directory : list jsstr) : checked (list (list jsstr)) :=
  match readdir fs directory with
  | Returns es => Returns (walk directory (Folder es))
  | Throws e => Throws [FileError e directory]
  end.

Definition mimeTypeFor (p : jsstr) : jsstr :=
  let extension := toLowerCase (extname p) in
  match js_find (λ t, bool_decide (t.1 = extension))
    [(js ".png", js "image/png"); (js ".webp", js "image/webp"); (js ".ico", js "image/x-icon"); (js ".icns", js "image/icns");
     (js ".woff2", js "font/woff2"); (js ".json", js "application/json"); (js ".xml", js "application/xml")] with
  | Some t => t.2
  | None => js "application/octet-stream"
  end.

(** Bytes read as ASCII lose their highest bit. *)
Definition ascii_range (bytes : list Z) (start stop : nat) : jsstr := (λ b, Z.land b 127) <$> take (stop - start) (drop start bytes).

Definition magic_ok (bytes : list Z) (mimeType : option json) : bool :=
  (negb (is_text mimeType (js "image/png")) || bool_decide (ascii_range bytes 1 4 = js "PNG")) &&
  (negb (is_text mimeType (js "image/webp")) ||
     (bool_decide (ascii_range bytes 0 4 = js "RIFF") && bool_decide (ascii_range bytes 8 12 = js "WEBP"))) &&
  (negb (is_text mimeType (js "font/woff2")) || bool_decide (ascii_range bytes 0 4 = js "wOF2")).

Definition assertMagic (bytes : list Z) (mimeType : option json) (p : jsstr) : checked unit :=
  require (magic_ok bytes mimeType) (p ++ js " does not match its declared " ++ shown_value mimeType ++ js " format").

Definition is_raster (p : list jsstr) : bool := bool_decide (toLowerCase (extname (path_text p)) ∈ [js ".png"; js ".webp"]).

(** The record that [createManifest] writes for a file; the sides of an image
    that the library does not know are left out. *)
Definition fileRecord (p : list jsstr) (extra : list (jsstr * json)) : checked json :=
  let! bytes := read fs p in
  let record := foldl (λ l kv, obj_set kv.1 kv.2 l)
    [(js "path", JStr (toRootPath p)); (js "sha256", JStr (sha256 bytes));
     (js "bytes", JNum (num_of_Z (Z.of_nat (length bytes)))); (js "mimeType", JStr (mimeTypeFor (path_text p)))] extra in
  let with_side k v l := match v with Some n => obj_set (js k) (JNum (num_of_Z n)) l | None => l end in
  if is_raster p
  then let! m := image bytes in
       Returns (JObj (with_side "height"%string (image_height m) (with_side "width"%string (image_width m) record)))
  else Returns (JObj record).

(** The sides a record declares, if any, are those of the image. *)
Definition verify_sides (record : option json) (bytes : list Z) (p : jsstr) : checked unit :=
  let! width := member "width" record in
  let! height := member "height" record in
  if present width || present height
  then let! m := image bytes in
       require (strict_eq (int_json (image_width m)) width && strict_eq (int_json (image_height m)) height)
         (p ++ js " does not match its manifest dimensions")
  else Returns tt.

Definition verifyRecord (v : json) : checked unit :=
  let record := Some v in
  let! path := member "path" record in
  let! p := assertRepositoryPath path (js "manifest derivative path") in
  let! bytes := read fs p in
  let! _ := require (strict_eq (Some (JStr (sha256 bytes))) (optional_member "sha256" record) &&
                     is_int (optional_member "bytes" record) (Z.of_nat (length bytes)))
    (shown_value path ++ js " does not match its manifest hash/size") in
  let! _ := require (is_text (optional_member "mimeType" record) (mimeTypeFor (path_text p)))
    (shown_value path ++ js " has an incorrect MIME declaration") in
  let! _ := assertMagic bytes (optional_member "mimeType" record) (shown_value path) in
  verify_sides record bytes (shown_value path).

(** ** The mascot *)

(** The first expected value that the image does not have, in the order the
    script compares them. *)
Definition source_mismatch (m : image_metadata) : option (string * option json * option json) :=
  js_find (λ t, negb (strict_eq t.2 t.1.2))
    [("width"%string, int_json (Some SOURCE_SIDE), int_json (image_width m));
     ("height"%string, int_json (Some SOURCE_SIDE), int_json (image_height m));
     ("channels"%string, int_json (Some 4), int_json (image_channels m));
     ("colorMode"%string, Some (JStr (js "RGBA")), if bool_decide (image_channels m = Some 4) then Some (JStr (js "RGBA")) else None);
     ("colorSpace"%string, Some (JStr (js "sRGB")),
        if bool_decide (image_space m = Some (js "srgb")) then Some (JStr (js "sRGB")) else JStr <$> image_space m)].

Definition sourceMetadata : checked (list Z * image_metadata * jsstr) :=
  let! bytes := read fs (fromRoot SOURCE_PATH) in
  let digest := sha256 bytes in
  let! _ := require (bool_decide (digest = SOURCE_SHA256))
    (js "canonical mascot SHA-256 mismatch: expected " ++ SOURCE_SHA256 ++ js ", received " ++ digest) in
  let! m := image bytes in
  let! _ := match source_mismatch m with
            | Some (key, expected, actual) => fail (js "canonical mascot " ++ js key ++ js " mismatch: expected " ++
                shown_value expected ++ js ", received " ++ shown_value actual)
            | None => Returns tt
            end in
  let! _ := require (bool_decide (image_format m = Some (js "png")) && bool_decide (image_depth m = Some (js "uchar")) && hasAlpha m)
    (js "canonical mascot must be an 8-bit RGBA PNG") in
  Returns (bytes, m, digest).

(** ** [verify] *)

Definition source_declared (source : option json) (digest : jsstr) : checked bool :=
  let! path := member "path" source in
  Returns (is_text path SOURCE_PATH && is_text (optional_member "sha256" source) digest &&
           is_int (optional_member "width" source) SOURCE_SIDE && is_int (optional_member "height" source) SOURCE_SIDE &&
           is_text (optional_member "colorMode" source) (js "RGBA") && is_text (optional_member "colorSpace" source) (js "sRGB")).

Definition check_public_image (web : option json) (image : string * jsstr) : checked unit :=
  let! v := member image.1 web in
  require (is_text (optional_member "path" v) image.2) (js "asset manifest must pin " ++ image.2).

Definition served_records (manifest : json) : checked (list json) :=
  let! derivatives := member "derivatives" (Some manifest) in
  let! web := member "web" derivatives in
  let! images := match web with None | Some JNull => Throws [PropertyError] | Some v => Returns (object_values v) end in
  let! fonts := member "fonts" derivatives in
  let! fonts := spread fonts in
  Returns (images ++ fonts).

(** [tauriIcons.map((record) => record.path)], as [JSON.stringify] sees it. *)
Definition icon_paths (icons : option json) : checked (list json) :=
  match icons with
  | Some (JArr l) => foldr (λ v rest, let! p := member "path" (Some v) in let! ps := rest in Returns ((p ?? JNull) :: ps)) (Returns []) l
  | _ => Throws [PropertyError]
  end.

(** [path.replace("shared/public/", "")]: the first occurrence. *)
Definition without_first (part p : jsstr) : jsstr :=
  match indexOf part p with Some i => take i p ++ drop (i + length part) p | None => p end.

Definition check_font (css : jsstr) (font : json) : checked unit :=
  let! path := member "path" (Some font) in
  let publicUrl := SLASH :: without_first (js "shared/public/") (shown_value path) in
  let! _ := require (includes publicUrl css && includes (js "font-display: swap") css)
    (js "web/src/index.css does not self-host " ++ publicUrl) in
  let! license := assertRepositoryPath (optional_member "license" (Some font)) (js "font license path") in
  stat fs license.

(** The retired logo is gone: only [ENOENT] will do. *)
Definition check_retired : checked unit :=
  let p := fromRoot (js "web/public/assets/images/logo.png") in
  match node_at fs p with
  | Returns _ => fail (js "the retired robot logo must not remain a second brand source")
  | Throws ENOENT => Returns tt
  | Throws e => Throws [FileError e p]
  end.

(** What is done with the manifest once its head has been found in order; the
    number of records is what the script reports. *)
Definition verify_derivatives (manifest : json) : checked nat :=
  let! derivatives := member "derivatives" (Some manifest) in
  let! web := member "web" derivatives in
  let! _ := in_turn (check_public_image web) PUBLIC_IMAGES in
  let! served := served_records manifest in
  let! icons := member "tauriIcons" derivatives in
  let! icon_records := spread icons in
  let records := served ++ icon_records in
  let! _ := at_once verifyRecord records in
  let! actual := walkFiles (fromRoot ICON_DIRECTORY) in
  let! declared := icon_paths icons in
  let! _ := require (bool_decide (stringify (JArr (JStr ∘ toRootPath <$> actual)) = stringify (JArr declared)))
    (js "Tauri icon directory and manifest entries have drifted") in
  let! css := read fs (fromRoot (js "web/src/index.css")) in
  let! fonts := member "fonts" derivatives in
  let! fonts := spread fonts in
  let! _ := in_turn (check_font (utf8_text css)) fonts in
  let! _ := check_retired in
  Returns (length records).

Definition verify : checked nat :=
  let! source := sourceMetadata in
  let! bytes := read fs (fromRoot MANIFEST_PATH) in
  let text := utf8_text bytes in
  let! _ := require (negb (names_user_path text)) (js "asset manifest must not depend on a user-specific absolute path") in
  let! manifest := parse_json text in
  let! version := member "schemaVersion" (Some manifest) in
  let! _ := require (is_int version 1 && is_text (optional_member "product" (Some manifest)) (js "Ephemeral Sandbox"))
    (js "asset manifest schema or product name is incorrect") in
  let! declared := source_declared (optional_member "source" (Some manifest)) source.2 in
  let! _ := require declared (js "asset manifest canonical source metadata is incorrect") in
  verify_derivatives manifest.

(** ** [verify-dist] *)

Definition without_prefix (part p : jsstr) : jsstr := if startsWith part p then drop (length part) p else p.

Definition check_packaged (record : json) : checked unit :=
  let! path := member "path" (Some record) in
  let publicPath := without_prefix (js "shared/public/") (shown_value path) in
  let! bytes := read fs (join_path (fromRoot DIST_DIRECTORY) publicPath) in
  require (strict_eq (Some (JStr (sha256 bytes))) (optional_member "sha256" (Some record)))
    (js "web/dist/" ++ publicPath ++ js " does not match the shared asset manifest").

(** The outputs one field of an entry lists, if it is there. *)
Definition field_outputs (key : jsstr) (chunk : json) (field : string) : checked (list jsstr) :=
  match get field chunk with
  | None => Returns []
  | Some (JArr l) => match mapM (λ v, match v with JStr p => Some p | _ => None end) l with
                     | Some ps => Returns ps
                     | None => fail (js "web/dist/.vite/manifest.json has an invalid " ++ key ++ js "." ++ js field)
                     end
  | Some _ => fail (js "web/dist/.vite/manifest.json has an invalid " ++ key ++ js "." ++ js field)
  end.

Definition chunk_outputs (entry : jsstr * json) : checked (list jsstr) :=
  match get "file" entry.2 with
  | Some (JStr file) =>
      let! css := field_outputs entry.1 entry.2 "css" in
      let! assets := field_outputs entry.1 entry.2 "assets" in
      Returns (file :: css ++ assets)
  | _ => fail (js "web/dist/.vite/manifest.json has an invalid " ++ entry.1 ++ js " entry")
  end.

(** [Object.entries(v)]; of an array and of a text every entry is refused. *)
Definition object_entries (v : json) : checked (list (jsstr * json)) :=
  match v with
  | JNull => Throws [PropertyError]
  | JObj l => Returns l
  | JArr l => Returns (imap (λ i x, (Z_to_js (Z.of_nat i), x)) l)
  | JStr s => Returns (imap (λ i u, (Z_to_js (Z.of_nat i), JStr [u])) s)
  | _ => Returns []
  end.

(** The set of outputs, in the order it was filled. *)
Definition vite_outputs (manifest : json) : checked (list jsstr) :=
  let! entries := object_entries manifest in
  let! outputs := foldr (λ e rest, let! o := chunk_outputs e in let! os := rest in Returns (o ++ os)) (Returns []) entries in
  Returns (js_set outputs).

Definition is_script (output : jsstr) : bool := startsWith (js "assets/") output && bool_decide (extname output = js ".js").

Definition check_output (output : jsstr) : checked unit :=
  let dist := fromRoot DIST_DIRECTORY in
  let built := resolve dist output in
  let! _ := require (negb (isAbsolute output || escapes dist built)) (js "Vite manifest output escapes web/dist: " ++ output) in
  stat fs built.

Definition TEXT_EXTENSIONS : list jsstr := [js ".html"; js ".css"; js ".js"; js ".mjs"; js ".json"; js ".map"].

Definition check_text (p : list jsstr) : checked unit :=
  if bool_decide (extname (path_text p) ∈ TEXT_EXTENSIONS)
  then let! bytes := read fs p in
       require (negb (names_forbidden_host (utf8_text bytes))) (toRootPath p ++ js " contains a forbidden runtime asset dependency")
  else Returns tt.

Definition verifyDist : checked (nat * nat) :=
  let! _ := verify in
  let! canonical := read fs (fromRoot MANIFEST_PATH) in
  let! packaged := read fs (fromRoot (js "web/dist/.vite/shared-assets-manifest.json")) in
  let! _ := require (bool_decide (canonical = packaged))
    (js "web/dist/.vite/shared-assets-manifest.json must exactly match shared/assets/manifest.json") in
  let! manifest := parse_json (utf8_text canonical) in
  let! records := served_records manifest in
  let! _ := in_turn check_packaged records in
  let! bytes := read fs (fromRoot (js "web/dist/.vite/manifest.json")) in
  let! vite := parse_json (utf8_text bytes) in
  let! outputs := vite_outputs vite in
  let! _ := require (js_some is_script outputs) (js "Vite manifest does not identify the built JavaScript output") in
  let! _ := in_turn check_output outputs in
  let! files := walkFiles (fromRoot DIST_DIRECTORY) in
  let! _ := in_turn check_text files in
  Returns (length records, length outputs).
End repository.

(** ** Facts: checks *)

Lemma obind_Returns {E A B} (m : outcome E A) (f : A → outcome E B) b :
  obind m f = Returns b ↔ ∃ a, m = Returns a ∧ f a = Returns b.
Proof. destruct m; cbn; naive_solver. Qed.

Lemma require_Returns b message u : require b message = Returns u ↔ b = true.
Proof. unfold require. destruct b, u; cbn; naive_solver. Qed.

Lemma in_turn_Returns {A} (check : A → checked unit) l u : in_turn check l = Returns u ↔ Forall (λ a, check a = Returns tt) l.
Proof.
  destruct u. unfold in_turn. induction l as [|a l IH]; cbn [foldr]; [split; [constructor|done]|].
  rewrite obind_Returns, Forall_cons, <- IH. split; [intros ([] & ? & ?); done|]. intros [? ?]. by exists tt.
Qed.

Lemma at_once_Returns {A} (check : A → checked unit) (Hthrows : ∀ a es, check a = Throws es → es ≠ []) l u :
  at_once check l = Returns u ↔ Forall (λ a, check a = Returns tt) l.
Proof.
  destruct u. unfold at_once. induction l as [|a l IH]; cbn [mbind list_bind]; [split; [constructor|done]|].
  rewrite Forall_cons, <- IH. destruct (check a) as [[]|es] eqn:Ha.
  - cbn [app]. fold (mbind (M := list) (λ a, match check a with Throws es => es | Returns _ => [] end) l). naive_solver.
  - pose proof (Hthrows _ _ Ha). destruct es as [|e es]; [done|]. cbn [app]. naive_solver.
Qed.

Lemma read_Returns fs p b : read fs p = Returns b ↔ readFile fs p = Returns b.
Proof. unfold read. destruct (readFile fs p); naive_solver. Qed.

Lemma is_text_spec v s : is_text v s = true ↔ v = Some (JStr s).
Proof.
  unfold is_text, strict_eq. destruct v as [[| | |t| |]|]; try naive_solver. rewrite bool_decide_eq_true. naive_solver.
Qed.

Lemma strict_eq_text s v : strict_eq (Some (JStr s)) v = true ↔ v = Some (JStr s).
Proof.
  unfold strict_eq. destruct v as [[| | |t| |]|]; try naive_solver. rewrite bool_decide_eq_true. naive_solver.
Qed.

Lemma member_get k v x : get k v = Some x → member k (Some v) = Returns (Some x).
Proof. intros Hx. destruct v; try discriminate Hx. cbn [member]. by rewrite Hx. Qed.

Lemma repository_path_Returns root p what r (Hroot : Forall name root) :
  assertRepositoryPath root p what = Returns r ↔
  ∃ t, p = Some (JStr t) ∧ isAbsolute t = false ∧ r = resolve root t ∧ root `prefix_of` r.
Proof.
  destruct p as [[| | |t| |]|]; try (split; [done|]; intros (t' & [=] & _)).
  unfold assertRepositoryPath. pose proof (escapes_spec root (resolve root t) ltac:(by apply resolve_names)) as Hesc.
  destruct (isAbsolute t) eqn:Hab; cbn [orb]; [split; [done|]; intros (t' & [= <-] & ? & _); congruence|].
  destruct (escapes root (resolve root t)).
  - split; [done|]. intros (t' & [= <-] & _ & -> & Hp). by apply Hesc in Hp.
  - split; [intros [= <-]; exists t; split_and!; [done..|by apply Hesc]|]. by intros (t' & [= <-] & _ & -> & _).
Qed.

(** A path taken from a manifest is accepted exactly when it is relative
    and the place it leads to, after every [.] and [..], is the repository or
    below it; what is read is then that very place. Nothing outside the
    repository is reached through a manifest. *)
Theorem repository_paths_contained root p what r (Hroot : Forall name root) :
  assertRepositoryPath root (Some (JStr p)) what = Returns r ↔
  isAbsolute p = false ∧ r = resolve root p ∧ root `prefix_of` r.
Proof. rewrite (repository_path_Returns _ _ _ _ Hroot). naive_solver. Qed.

(** What the loop over a directory's entries adds. *)
Definition entry_files (directory : list jsstr) (e : jsstr * node) : list (list jsstr) :=
  match e.2 with Folder _ => walk (directory ++ [e.1]) e.2 | File _ => [directory ++ [e.1]] | Special => [] end.

Lemma walk_folder directory es : walk directory (Folder es) = sort_paths (flat_map (entry_files directory) es).
Proof. done. Qed.

Definition files_of (directory : list jsstr) (n : node) (p : list jsstr) : Prop :=
  ∃ rel b, rel ≠ [] ∧ p = directory ++ rel ∧ node_at n rel = Returns (File b).

Lemma entry_files_elem directory s m p :
  (∀ d p, p ∈ walk d m ↔ files_of d m p) →
  p ∈ entry_files directory (s, m) ↔ ∃ rel b, p = directory ++ s :: rel ∧ node_at m rel = Returns (File b).
Proof.
  intros IH. unfold entry_files. cbn [fst snd]. destruct m as [b|es|].
  - rewrite list_elem_of_singleton. split; [intros ->; by exists [], b|]. intros ([|s' rel] & b' & -> & Hn); [done|]. by cbn in Hn.
  - rewrite IH. unfold files_of. split.
    + intros (rel & b & Hne & -> & Hn). exists rel, b. by rewrite <- app_assoc.
    + intros (rel & b & -> & Hn). exists rel, b. split_and!; [by destruct rel|by rewrite <- app_assoc|done].
  - split; [set_solver|]. intros ([|s' rel] & b & -> & Hn); by cbn in Hn.
Qed.

Lemma entry_files_NoDup directory es : NoDup es.*1 →
  Forall (λ e, ∀ d, (∀ p, p ∈ walk d e.2 ↔ files_of d e.2 p) ∧ NoDup (walk d e.2)) es →
  NoDup (flat_map (entry_files directory) es).
Proof.
  intros Hnd Hwalk. induction Hwalk as [|[s m] es Hm Hes IH]; cbn [flat_map]; [constructor|].
  apply NoDup_cons in Hnd as [Hs Hnd]. apply NoDup_app. split_and!; [| |by apply IH].
  - unfold entry_files. cbn [fst snd]. destruct m; [by apply NoDup_singleton|apply Hm|constructor].
  - intros p Hp Hin. apply (entry_files_elem _ _ _ _ (λ d, proj1 (Hm d))) in Hp as (rel & b & -> & _).
    apply list_elem_of_In, in_flat_map in Hin as ([s' m'] & He & Hin). apply list_elem_of_In in He, Hin.
    rewrite Forall_forall in Hes. apply (entry_files_elem _ _ _ _ (λ d, proj1 (Hes _ He d))) in Hin as (rel' & b' & Heq & _).
    apply app_inv_head in Heq. injection Heq as <- _. apply Hs, list_elem_of_fmap. by exists (s, m').
Qed.

(** Walking a directory finds the regular files below it, each once and
    nothing else, sorted by their paths. *)
Theorem walk_finds_files n (Htree : proper_tree n) : ∀ directory,
  (∀ p, p ∈ walk directory n ↔ files_of directory n p) ∧ NoDup (walk directory n) ∧
  StronglySorted (λ p q, compare_units (path_text p) (path_text q) ≤ 0) (walk directory n).
Proof.
  induction n as [b|es IH|] using node_nested_ind; intros directory.
  1,3: split_and!; [|constructor|constructor]; intros p; (split; [set_solver|]); intros ([|s rel] & b' & ? & _ & ?); done.
  rewrite walk_folder. inversion Htree as [|? Hnd Hes|]; subst.
  assert (Forall (λ e, ∀ d, (∀ p, p ∈ walk d e.2 ↔ files_of d e.2 p) ∧ NoDup (walk d e.2)) es) as Hwalk.
  { rewrite Forall_forall in IH, Hes |- *. intros e He d. destruct (IH e He (Hes e He) d) as (? & ? & _). done. }
  clear IH Hes. split_and!; [| |apply sort_paths_in_order].
  - intros p. rewrite (sort_paths_perm _), list_elem_of_In, in_flat_map. rewrite Forall_forall in Hwalk. unfold files_of. split.
    + intros ([s m] & He & Hp). apply list_elem_of_In in He, Hp.
      apply entry_files_elem in Hp as (rel & b & -> & Hn); [|intros d; by apply (Hwalk _ He)].
      exists (s :: rel), b. split_and!; [done..|]. apply (node_at_cons _ _ _ _ Hnd). eauto.
    + intros ([|s rel] & b & Hne & -> & Hn); [done|]. apply (node_at_cons _ _ _ _ Hnd) in Hn as (m & He & Hn).
      exists (s, m). split; [by apply list_elem_of_In|]. apply list_elem_of_In. apply entry_files_elem; [intros d; by apply (Hwalk _ He)|]. eauto.
  - rewrite (sort_paths_perm _). by apply entry_files_NoDup.
Qed.
Section facts.
Context `{CaseMapping} (sha256 : list Z → jsstr) (sharp : list Z → option image_metadata) (root : list jsstr) (fs : node).

(** A record of the manifest and the file it is about. *)
Definition intact (v : json) : Prop := ∃ path bytes,
  get "path" v = Some (JStr path) ∧ isAbsolute path = false ∧ root `prefix_of` resolve root path ∧
  readFile fs (resolve root path) = Returns bytes ∧
  get "sha256" v = Some (JStr (sha256 bytes)) ∧ is_int (get "bytes" v) (Z.of_nat (length bytes)) = true ∧
  get "mimeType" v = Some (JStr (mimeTypeFor (path_text (resolve root path)))) ∧
  magic_ok bytes (get "mimeType" v) = true ∧ verify_sides sharp (Some v) bytes path = Returns tt.

Lemma verifyRecord_Returns v (Hroot : Forall name root) :
  verifyRecord sha256 sharp root fs v = Returns tt ↔ intact v.
Proof.
  unfold verifyRecord, intact, optional_member, assertMagic. split.
  - intros (path & Hpath & (p & Hp & (bytes & Hread & ([] & Hhash & ([] & Hmime & ([] & Hmagic & Hsides)%obind_Returns)%obind_Returns)%obind_Returns)%obind_Returns)%obind_Returns)%obind_Returns.
    apply (repository_path_Returns _ _ _ _ Hroot) in Hp as (t & -> & Hab & -> & Hpre).
    apply read_Returns in Hread. apply require_Returns in Hhash, Hmime, Hmagic. apply andb_true_iff in Hhash as [Hhash Hlen].
    apply strict_eq_text in Hhash. apply is_text_spec in Hmime. cbn [mbind option_bind shown_value] in *.
    assert (get "path" v = Some (JStr t)) as Hget by (unfold member in Hpath; destruct v; congruence).
    exists t, bytes. split_and!; done.
  - intros (t & bytes & Hget & Hab & Hpre & Hread & Hhash & Hlen & Hmime & Hmagic & Hsides).
    apply obind_Returns. exists (Some (JStr t)). split; [by apply member_get|].
    apply obind_Returns. exists (resolve root t). split; [by apply (repository_path_Returns _ _ _ _ Hroot); exists t|].
    apply obind_Returns. exists bytes. split; [by apply read_Returns|].
    cbn [mbind option_bind shown_value]. rewrite Hhash. 
    apply obind_Returns. exists tt. split; [apply require_Returns, andb_true_iff; split; [by apply strict_eq_text|done]|].
    apply obind_Returns. exists tt. split; [by apply require_Returns, is_text_spec|].
    apply obind_Returns. exists tt. split; [by apply require_Returns|done].
Qed.

(** What is thrown is always something. *)
Definition throws_something {A} (m : checked A) : Prop := ∀ es, m = Throws es → es ≠ [].

Lemma throws_obind {A B} (m : checked A) (f : A → checked B) :
  throws_something m → (∀ a, throws_something (f a)) → throws_something (obind m f).
Proof. intros Hm Hf es. destruct m as [a|es']; cbn; [apply Hf|]. intros [= <-]. by apply Hm. Qed.

Lemma throws_require b message : throws_something (require b message).
Proof. by destruct b; intros es; [|intros [= <-]]. Qed.

Lemma verifyRecord_throws v : throws_something (verifyRecord sha256 sharp root fs v).
Proof.
  assert (∀ k u, throws_something (member k u)) as Hmember by (intros k [[]|] es; cbn; naive_solver).
  assert (∀ bytes, throws_something (image sharp bytes)) as Himage by (intros bytes es; unfold image; case_match; naive_solver).
  unfold verifyRecord. apply throws_obind; [done|]. intros path. apply throws_obind.
  { intros es. unfold assertRepositoryPath. repeat case_match; naive_solver. }
  intros p. apply throws_obind; [intros es; unfold read; case_match; naive_solver|].
  intros bytes. repeat (apply throws_obind; [apply throws_require|]; intros ?). unfold verify_sides.
  apply throws_obind; [done|]. intros w. apply throws_obind; [done|]. intros h.
  destruct (present w || present h); [|by intros es]. apply throws_obind; [done|]. intros m. apply throws_require.
Qed.
Lemma obj_get_extra k extra : ∀ l, k ∉ extra.*1 → obj_get k (foldl (λ l kv, obj_set kv.1 kv.2 l) l extra) = obj_get k l.
Proof.
  induction extra as [|[k' v] extra IH]; intros l Hk; [done|]. cbn [foldl fmap list_fmap fst snd] in *.
  apply not_elem_of_cons in Hk as [Hne Hk]. rewrite IH by done. by apply obj_get_set_ne.
Qed.

Definition RECORD_KEYS : list jsstr := [js "path"; js "sha256"; js "bytes"; js "mimeType"; js "width"; js "height"].

Definition small (n : option Z) : Prop := match n with Some n => Z.abs n < 2 ^ 53 | None => True end.

Lemma int_json_same n : small n → strict_eq (int_json n) (int_json n) = true.
Proof. destruct n as [n|]; [|done]. intros Hn. cbn. rewrite num_eqb_of_Z by done. apply Z.eqb_refl. Qed.

(** The fields of a written record. *)
Lemma written_fields p extra r bytes :
  (∀ k, k ∈ RECORD_KEYS → k ∉ extra.*1) →
  (let record := foldl (λ l kv, obj_set kv.1 kv.2 l)
     [(js "path", JStr (toRootPath root p)); (js "sha256", JStr (sha256 bytes));
      (js "bytes", JNum (num_of_Z (Z.of_nat (length bytes)))); (js "mimeType", JStr (mimeTypeFor (path_text p)))] extra in
   let with_side k v l := match v with Some n => obj_set (js k) (JNum (num_of_Z n)) l | None => l end in
   if is_raster p
   then let! m := image sharp bytes in
        Returns (JObj (with_side "height"%string (image_height m) (with_side "width"%string (image_width m) record)))
   else Returns (JObj record)) = Returns r →
  get "path" r = Some (JStr (toRootPath root p)) ∧ get "sha256" r = Some (JStr (sha256 bytes)) ∧
  get "bytes" r = Some (JNum (num_of_Z (Z.of_nat (length bytes)))) ∧ get "mimeType" r = Some (JStr (mimeTypeFor (path_text p))) ∧
  ((get "width" r = None ∧ get "height" r = None) ∨
   ∃ m, sharp bytes = Some m ∧ get "width" r = int_json (image_width m) ∧ get "height" r = int_json (image_height m)).
Proof.
  intros Hextra. cbv zeta. set (base := [_; _; _; _]). set (record := foldl _ base extra).
  assert (∀ k, k ∈ RECORD_KEYS → obj_get k record = obj_get k base) as Hrec by (intros k Hk; by apply obj_get_extra, Hextra).
  assert (∀ k, js k ∈ RECORD_KEYS → ∀ w h, js k ≠ js "width" → js k ≠ js "height" →
    get k (JObj (match h with Some n => obj_set (js "height") (JNum (num_of_Z n)) (match w with Some n => obj_set (js "width") (JNum (num_of_Z n)) record | None => record end)
                 | None => match w with Some n => obj_set (js "width") (JNum (num_of_Z n)) record | None => record end end)) = obj_get (js k) base) as Hget.
  { intros k Hk w h Hkw Hkh. unfold get. destruct h, w; rewrite ?obj_get_set_ne by congruence; by apply Hrec. }
  unfold image. destruct (is_raster p).
  - destruct (sharp bytes) as [m|]; [|done]. cbn [obind]. intros [= <-].
    rewrite !Hget by decide_closed. split_and!; [reflexivity..|]. right. exists m. split; [done|].
    unfold get, int_json. destruct (image_height m), (image_width m); rewrite ?obj_get_set, ?(obj_get_set_ne (js "height") (js "width")) by decide_closed;
      rewrite ?obj_get_set, ?(obj_get_set_ne (js "width") (js "height")) by decide_closed; split; try reflexivity; rewrite ?Hrec by decide_closed; reflexivity.
  - intros [= <-]. unfold get. rewrite !Hrec by decide_closed. split_and!; [reflexivity..|]. left. split; reflexivity.
Qed.

(** What is generated verifies: the record written for a file of the
    repository is accepted as long as the file stays the same, whatever else
    is put into it, provided only that the file is in the format its extension
    stands for. *)
Theorem written_records_verify p extra r
    (Hroot : Forall name root) (Hnames : Forall name p) (Hp : root `prefix_of` p)
    (Hextra : ∀ k, k ∈ RECORD_KEYS → k ∉ extra.*1)
    (Hsmall : ∀ bytes, readFile fs p = Returns bytes → Z.of_nat (length bytes) < 2 ^ 53)
    (Himage : ∀ bytes m, sharp bytes = Some m → small (image_width m) ∧ small (image_height m)) :
  fileRecord sha256 sharp root fs p extra = Returns r →
  ∃ bytes, readFile fs p = Returns bytes ∧
    (verifyRecord sha256 sharp root fs r = Returns tt ↔ magic_ok bytes (Some (JStr (mimeTypeFor (path_text p)))) = true).
Proof.
  intros (bytes & Hread%read_Returns & Hr)%obind_Returns. exists bytes. split; [done|].
  rewrite verifyRecord_Returns by done.
  destruct (resolve_relative root p Hnames Hp) as [Hab Hres].
  destruct (written_fields p extra r bytes Hextra Hr) as (Hpath & Hsha & Hlen & Hmime & Hsides).
  unfold intact. rewrite Hsha, Hlen, Hmime, Hpath. split.
  - intros (t & bytes' & [= <-] & _ & _ & Hread' & [= _] & _ & _ & Hmagic & _). unfold toRootPath in *. rewrite Hres in Hread'. congruence.
  - intros Hmagic. exists (relative root p), bytes. rewrite Hres. split_and!; try done.
    + unfold is_int, strict_eq. rewrite num_eqb_of_Z by (specialize (Hsmall _ Hread); lia). apply Z.eqb_refl.
    + assert (∀ k x, get k r = x → member k (Some r) = Returns x) as Hm by (destruct r; try discriminate Hpath; intros k x Hx; cbn [member]; by rewrite Hx).
      unfold verify_sides. destruct Hsides as [[Hw Hh]|(m & Hsharp & Hw & Hh)]; rewrite (Hm _ _ Hw), (Hm _ _ Hh); cbn [obind]; [done|].
      destruct (present (int_json (image_width m)) || present (int_json (image_height m))); [|done].
      unfold image. rewrite Hsharp. cbn [obind]. destruct (Himage _ _ Hsharp). by rewrite !int_json_same.
Qed.
(** The files below a directory of the repository, in terms of reading them. *)
Lemma walkFiles_Returns directory files (Htree : proper_tree fs) :
  walkFiles fs directory = Returns files →
  ∀ p, p ∈ files ↔ ∃ rel b, rel ≠ [] ∧ p = directory ++ rel ∧ readFile fs p = Returns b.
Proof.
  unfold walkFiles, readdir. destruct (node_at fs directory) as [[b|es|]|] eqn:Hat; cbn [obind]; try done.
  intros [= <-] p. rewrite (proj1 (walk_finds_files (Folder es) (node_at_proper _ _ _ Htree Hat) directory) p).
  unfold files_of, readFile. split.
  - intros (rel & b & Hne & -> & Hn). exists rel, b. rewrite node_at_app, Hat. cbn [obind]. by rewrite Hn.
  - intros (rel & b & Hne & -> & Hn). exists rel, b. split_and!; [done..|]. rewrite node_at_app, Hat in Hn. cbn [obind] in Hn.
    destruct (node_at (Folder es) rel) as [[b'| |]|]; cbn in Hn; congruence.
Qed.

Lemma icon_paths_Returns icons declared : icon_paths icons = Returns declared →
  ∃ l, icons = Some (JArr l) ∧ declared = (λ v, get "path" v ?? JNull) <$> l.
Proof.
  destruct icons as [[| | | |l|]|]; try done. cbn [icon_paths]. intros Hl. exists l. split; [done|]. revert declared Hl.
  induction l as [|v l IH]; intros declared; cbn [foldr]; [by intros [= <-]|].
  intros (path & Hpath & (ps & Hps & [= <-])%obind_Returns)%obind_Returns. rewrite (IH ps Hps). cbn. f_equal.
  unfold member in Hpath. destruct v; congruence.
Qed.

Definition of_code_units (p : list jsstr) : Prop := wf_str (toRootPath root p).

Lemma strings_plain l : Forall wf_str l → plain (JArr (JStr <$> l)).
Proof. intros Hl. constructor. apply Forall_fmap. eapply Forall_impl; [exact Hl|]. intros s Hs. by constructor. Qed.

Lemma sourceMetadata_Returns s : sourceMetadata sha256 sharp root fs = Returns s →
  ∃ mascot, readFile fs (fromRoot root SOURCE_PATH) = Returns mascot ∧ sha256 mascot = SOURCE_SHA256.
Proof.
  intros (mascot & Hread%read_Returns & ([] & Hsha%require_Returns & _)%obind_Returns)%obind_Returns.
  exists mascot. split; [done|]. by apply bool_decide_eq_true in Hsha.
Qed.

Lemma member_Returns k v x : member k (Some v) = Returns x → get k v = x.
Proof. by destruct v; intros [=]. Qed.

Lemma member_Some k v x : member k v = Returns x → ∃ w, v = Some w ∧ get k w = x.
Proof. destruct v as [v|]; [|done]. intros Hx. exists v. split; [done|]. by apply member_Returns. Qed.

(** Two lists of texts that are written alike are the same. *)
Lemma stringify_texts a b : Forall wf_str a → Forall wf_str b →
  stringify (JArr (JStr <$> a)) = stringify (JArr (JStr <$> b)) → a = b.
Proof.
  intros Ha Hb Heq. apply (f_equal parse) in Heq. rewrite !parse_stringify in Heq by by apply strings_plain.
  injection Heq as Heq. assert (Inj (=) (=) JStr) by by intros ? ? [=]. by apply (inj (fmap (M:=list) JStr)).
Qed.

Lemma icons_declared files icons : Forall intact icons → Forall of_code_units files →
  (∀ v t, v ∈ icons → get "path" v = Some (JStr t) → wf_str t) →
  stringify (JArr (JStr ∘ toRootPath root <$> files)) = stringify (JArr ((λ v, get "path" v ?? JNull) <$> icons)) →
  get "path" <$> icons = (λ p, Some (JStr (toRootPath root p))) <$> files.
Proof.
  intros Hint Hfiles Hwf Heq.
  assert (∃ ts, get "path" <$> icons = Some ∘ JStr <$> ts ∧ (λ v, get "path" v ?? JNull) <$> icons = JStr <$> ts ∧ Forall wf_str ts)
    as (ts & -> & Hts & Hwts).
  { clear Heq. induction Hint as [|v l (t & _ & Ht & _) _ IH]; [by exists []|].
    destruct IH as (ts & Hts & Hts' & Hwts); [intros v' t' Hv'; apply Hwf; by right|].
    exists (t :: ts). rewrite !fmap_cons, Ht, Hts, Hts'. split_and!; [done..|]. constructor; [|done]. by apply (Hwf v); [left|]. }
  rewrite Hts, list_fmap_compose in Heq. apply stringify_texts in Heq; [|by apply Forall_fmap|done].
  rewrite <- Heq. by rewrite <- list_fmap_compose.
Qed.

Lemma verify_derivatives_Returns manifest n (Hroot : Forall name root) :
  verify_derivatives sha256 sharp root fs manifest = Returns n →
  ∃ served icons files,
    served_records manifest = Returns served ∧ (get "derivatives" manifest ≫= get "tauriIcons") = Some (JArr icons) ∧
    n = length (served ++ icons) ∧ Forall intact (served ++ icons) ∧
    walkFiles fs (fromRoot root ICON_DIRECTORY) = Returns files ∧
    stringify (JArr (JStr ∘ toRootPath root <$> files)) = stringify (JArr ((λ v, get "path" v ?? JNull) <$> icons)) ∧
    node_at fs (fromRoot root (js "web/public/assets/images/logo.png")) = Throws ENOENT.
Proof.
  intros (derivatives & Hd%member_Returns & (web & _ & ([] & _ & (served & Hserved & (icons & Hicons & (records & Hspread &
    ([] & Hall & (files & Hfiles & (declared & Hdeclared & ([] & Hsame & (css & _ & (fonts & _ & (fonts' & _ & ([] & _ &
    ([] & Hretired & [= <-])%obind_Returns)%obind_Returns)%obind_Returns)%obind_Returns)%obind_Returns)%obind_Returns)%obind_Returns)%obind_Returns)%obind_Returns)%obind_Returns)%obind_Returns)%obind_Returns)%obind_Returns)%obind_Returns)%obind_Returns.
  apply icon_paths_Returns in Hdeclared as (l & -> & ->). injection Hspread as <-. apply require_Returns, bool_decide_eq_true in Hsame.
  apply member_Some in Hicons as (w & -> & Hw). exists served, l, files. split_and!; try done.
  - rewrite Hd. done.
  - apply at_once_Returns in Hall; [|by apply verifyRecord_throws]. eapply Forall_impl; [exact Hall|].
    intros v Hv. by apply (verifyRecord_Returns _ Hroot).
  - unfold check_retired in Hretired. destruct (node_at _ _) as [|[]]; done.
Qed.

Lemma verify_Returns n : verify sha256 sharp root fs = Returns n →
  ∃ mascot bytes manifest,
    readFile fs (fromRoot root SOURCE_PATH) = Returns mascot ∧ sha256 mascot = SOURCE_SHA256 ∧
    readFile fs (fromRoot root MANIFEST_PATH) = Returns bytes ∧ names_user_path (utf8_text bytes) = false ∧
    parse (utf8_text bytes) = Some manifest ∧ verify_derivatives sha256 sharp root fs manifest = Returns n.
Proof.
  intros (source & Hsource & (bytes & Hbytes%read_Returns & ([] & Huser%require_Returns & (manifest & Hparse & (version & _ & ([] & _ &
    (declared & _ & ([] & _ & Hrest)%obind_Returns)%obind_Returns)%obind_Returns)%obind_Returns)%obind_Returns)%obind_Returns)%obind_Returns)%obind_Returns.
  apply sourceMetadata_Returns in Hsource as (mascot & Hmascot & Hsha). apply negb_true_iff in Huser.
  exists mascot, bytes, manifest. split_and!; try done. unfold parse_json in Hparse. destruct (parse _); congruence.
Qed.

(** A verified repository is sound: the mascot is the canonical one, the
    manifest names no user's path, every image, font and icon it records lies
    in the repository with the recorded hash, size, type and dimensions, the
    icons are exactly the files of the icon directory in order, and the
    retired logo is gone. *)
Theorem verify_sound n (Hroot : Forall name root) :
  verify sha256 sharp root fs = Returns n →
  ∃ mascot bytes manifest served icons files,
    readFile fs (fromRoot root SOURCE_PATH) = Returns mascot ∧ sha256 mascot = SOURCE_SHA256 ∧
    readFile fs (fromRoot root MANIFEST_PATH) = Returns bytes ∧
    names_user_path (utf8_text bytes) = false ∧ parse (utf8_text bytes) = Some manifest ∧
    served_records manifest = Returns served ∧ (get "derivatives" manifest ≫= get "tauriIcons") = Some (JArr icons) ∧
    n = length (served ++ icons) ∧ Forall intact (served ++ icons) ∧
    walkFiles fs (fromRoot root ICON_DIRECTORY) = Returns files ∧
    (Forall of_code_units files → (∀ v t, v ∈ icons → get "path" v = Some (JStr t) → wf_str t) →
     get "path" <$> icons = (λ p, Some (JStr (toRootPath root p))) <$> files) ∧
    node_at fs (fromRoot root (js "web/public/assets/images/logo.png")) = Throws ENOENT.
Proof.
  intros (mascot & bytes & manifest & ? & ? & ? & ? & ? & Hrest)%verify_Returns.
  apply (verify_derivatives_Returns _ _ Hroot) in Hrest as (served & icons & files & ? & ? & -> & Hint & ? & Hsame & ?).
  exists mascot, bytes, manifest, served, icons, files. split_and!; try done.
  intros Hunits Hwf. apply Forall_app in Hint as [_ Hint]. by apply icons_declared.
Qed.

(** One output of the build. *)
Lemma check_output_Returns o (Hroot : Forall name root) : check_output root fs o = Returns tt →
  isAbsolute o = false ∧ fromRoot root DIST_DIRECTORY `prefix_of` resolve (fromRoot root DIST_DIRECTORY) o ∧
  ∃ m, node_at fs (resolve (fromRoot root DIST_DIRECTORY) o) = Returns m.
Proof.
  intros ([] & Hin%require_Returns & Hstat)%obind_Returns. apply negb_true_iff, orb_false_iff in Hin as [Hab Hesc].
  apply escapes_spec in Hesc; [|apply resolve_names, join_path_names, Hroot]. split_and!; [done..|].
  unfold stat in Hstat. destruct (node_at _ _) as [m|]; [by exists m|done].
Qed.

Lemma check_packaged_Returns v : check_packaged sha256 root fs v = Returns tt →
  ∃ bytes, readFile fs (join_path (fromRoot root DIST_DIRECTORY)
      (without_prefix (js "shared/public/") (shown_value (get "path" v)))) = Returns bytes ∧
    get "sha256" v = Some (JStr (sha256 bytes)).
Proof.
  intros (path & <-%member_Returns & (bytes & Hread%read_Returns & Hsha%require_Returns%strict_eq_text)%obind_Returns)%obind_Returns.
  by exists bytes.
Qed.

(** A verified build is sound: besides the repository itself, every image
    and font of the manifest is served with the recorded hash, the one its
    file in the repository has; every output the bundler names lies in the
    build and exists, a script among them; and no page, style sheet, script
    or source map below the build names a forbidden host. *)
Theorem verifyDist_sound n k (Hroot : Forall name root) (Htree : proper_tree fs) :
  verifyDist sha256 sharp root fs = Returns (n, k) →
  let dist := fromRoot root DIST_DIRECTORY in
  (∃ m, verify sha256 sharp root fs = Returns m) ∧
  (∃ manifest records, served_records manifest = Returns records ∧ n = length records ∧
     ∀ v, v ∈ records → ∃ path bytes, path = shown_value (get "path" v) ∧
       readFile fs (join_path dist (without_prefix (js "shared/public/") path)) = Returns bytes ∧
       get "sha256" v = Some (JStr (sha256 bytes)) ∧ intact v) ∧
  (∃ vite outputs, vite_outputs vite = Returns outputs ∧ k = length outputs ∧ Exists (λ o, is_script o = true) outputs ∧
     ∀ o, o ∈ outputs → isAbsolute o = false ∧ dist `prefix_of` resolve dist o ∧ ∃ m, node_at fs (resolve dist o) = Returns m) ∧
  (∀ rel bytes, rel ≠ [] → readFile fs (dist ++ rel) = Returns bytes → extname (path_text (dist ++ rel)) ∈ TEXT_EXTENSIONS →
     names_forbidden_host (utf8_text bytes) = false).
Proof.
  intros (m & Hverify & (canonical & Hcanonical%read_Returns & (packaged & _ & ([] & _ & (manifest & Hmanifest & (records & Hrecords & ([] & Hpackaged%in_turn_Returns &
    (vbytes & _ & (vite & _ & (outputs & Houtputs & ([] & Hscript%require_Returns & ([] & Hout%in_turn_Returns & (files & Hfiles & ([] & Htext%in_turn_Returns &
    [= <- <-])%obind_Returns)%obind_Returns)%obind_Returns)%obind_Returns)%obind_Returns)%obind_Returns)%obind_Returns)%obind_Returns)%obind_Returns)%obind_Returns)%obind_Returns)%obind_Returns)%obind_Returns)%obind_Returns.
  cbv zeta. split_and!; [by exists m| | |].
  - exists manifest, records. split_and!; [done..|]. intros v Hv. rewrite Forall_forall in Hpackaged.
    exists (shown_value (get "path" v)). destruct (check_packaged_Returns v (Hpackaged v Hv)) as (bytes & ? & ?).
    exists bytes. split_and!; [done..|].
    apply verify_Returns in Hverify as (? & bytes' & manifest' & _ & _ & Hbytes & _ & Hparse & Hrest).
    apply (verify_derivatives_Returns _ _ Hroot) in Hrest as (served & icons & files' & Hserved & _ & _ & Hint & _).
    assert (bytes' = canonical) as -> by congruence. unfold parse_json in Hmanifest. rewrite Hparse in Hmanifest.
    assert (served = records) as -> by congruence. apply Forall_app in Hint as [Hint _]. rewrite Forall_forall in Hint. by apply Hint.
  - exists vite, outputs. split_and!; [done..| |].
    + apply js_some_exists in Hscript as (o & Ho & Hs). apply Exists_exists. by exists o.
    + intros o Ho. rewrite Forall_forall in Hout. by apply check_output_Returns, Hout.
  - intros rel bytes Hne Hread Hext. assert (fromRoot root DIST_DIRECTORY ++ rel ∈ files) as Hin.
    { apply (walkFiles_Returns _ _ Htree Hfiles). by exists rel, bytes. }
    rewrite Forall_forall in Htext. apply Htext in Hin. unfold check_text in Hin. rewrite bool_decide_true in Hin by done.
    apply obind_Returns in Hin as (b & Hb%read_Returns & Hok%require_Returns). rewrite Hread in Hb. injection Hb as <-.
    by apply negb_true_iff in Hok.
Qed.
End facts.

(** ** A small repository *)

Fixpoint put (p : list jsstr) (bytes : list Z) (n : node) : node :=
  match p with
  | [] => File bytes
  | s :: p => let es := match n with Folder es => es | _ => [] end in
              Folder (js_filter (λ e, negb (bool_decide (e.1 = s))) es ++ [(s, put p bytes (entry s es ?? Folder []))])
  end.

Definition tree_of (files : list (string * list Z)) : node := foldl (λ n f, put (js "r" :: split SLASH (js f.1)) f.2 n) (Folder []) files.

#[local] Existing Instance basic_latin.

Definition example_sha256 (_ : list Z) : jsstr := SOURCE_SHA256.
Definition example_sharp (_ : list Z) : option image_metadata :=
  Some {| image_width := Some 1024; image_height := Some 1024; image_channels := Some 4; image_space := Some (js "srgb");
          image_format := Some (js "png"); image_depth := Some (js "uchar"); hasAlpha := true |}.

Definition example_png : list Z := 137 :: js "PNG".
Definition example_files : list (string * list Z) :=
  [("shared/assets/source/ephemeral-sandbox-mascot.png", example_png);
   ("shared/public/brand/ephemeral-sandbox-mascot-b9408770.png", example_png);
   ("shared/public/brand/ephemeral-sandbox-mascot-b9408770.webp", js "RIFF1234WEBP");
   ("shared/public/fonts/inter.woff2", js "wOF2"); ("shared/assets/licenses/inter.txt", js "OFL");
   ("desktop/src-tauri/icons/icon.png", example_png);
   ("web/src/index.css", js "url(/fonts/inter.woff2); font-display: swap");
   ("web/dist/brand/ephemeral-sandbox-mascot-b9408770.png", example_png);
   ("web/dist/brand/ephemeral-sandbox-mascot-b9408770.webp", js "RIFF1234WEBP");
   ("web/dist/fonts/inter.woff2", js "wOF2");
   ("web/dist/assets/index.js", js "run()"); ("web/dist/index.html", js "<p>")]%string.

Definition example_root : list jsstr := [js "r"].

Definition example_record (p : string) (extra : list (jsstr * json)) : json :=
  match fileRecord example_sha256 example_sharp example_root (tree_of example_files) (fromRoot example_root (js p)) extra with
  | Returns v => v
  | Throws _ => JNull
  end.

Definition example_manifest : json :=
  JObj [(js "schemaVersion", JNum (num_of_Z 1)); (js "product", JStr (js "Ephemeral Sandbox"));
        (js "source", JObj [(js "path", JStr SOURCE_PATH); (js "sha256", JStr SOURCE_SHA256); (js "width", JNum (num_of_Z 1024));
           (js "height", JNum (num_of_Z 1024)); (js "colorMode", JStr (js "RGBA")); (js "colorSpace", JStr (js "sRGB"))]);
        (js "derivatives", JObj
           [(js "web", JObj [(js "png", example_record "shared/public/brand/ephemeral-sandbox-mascot-b9408770.png" []);
                             (js "webp", example_record "shared/public/brand/ephemeral-sandbox-mascot-b9408770.webp" [])]);
            (js "fonts", JArr [example_record "shared/public/fonts/inter.woff2" [(js "license", JStr (js "shared/assets/licenses/inter.txt"))]]);
            (js "tauriIcons", JArr [example_record "desktop/src-tauri/icons/icon.png" []])])].

Definition example_vite : json :=
  JObj [(js "index.html", JObj [(js "file", JStr (js "assets/index.js")); (js "css", JArr [JStr (js "index.html")])])].

Definition example_repository : node :=
  tree_of (example_files ++ [("shared/assets/manifest.json"%string, stringify example_manifest);
    ("web/dist/.vite/shared-assets-manifest.json"%string, stringify example_manifest);
    ("web/dist/.vite/manifest.json"%string, stringify example_vite)]).

Example example_verified : verifyDist example_sha256 example_sharp example_root example_repository = Returns (3%nat, 2%nat).
Proof. vm_compute. reflexivity. Qed.

Lemma example_root_names : Forall name example_root.
Proof. repeat constructor; decide_closed. Qed.

Lemma repository_paths_contained_witness :
  assertRepositoryPath example_root (Some (JStr (js "a/../../r/b"))) (js "path") = Returns [js "r"; js "b"] ∧
  example_root `prefix_of` [js "r"; js "b"].
Proof.
  assert (assertRepositoryPath example_root (Some (JStr (js "a/../../r/b"))) (js "path") = Returns [js "r"; js "b"]) as Hr by reflexivity.
  split; [exact Hr|]. apply (proj1 (repository_paths_contained example_root (js "a/../../r/b") (js "path") _ example_root_names) Hr).
Defined.

Lemma walk_finds_files_witness : NoDup (walk [] example_repository).
Proof.
  refine (proj1 (proj2 (walk_finds_files example_repository _ []))). apply proper_treeb_sound. vm_compute. reflexivity.
Defined.

Lemma written_records_verify_witness :
  verifyRecord example_sha256 example_sharp example_root example_repository
    (example_record "desktop/src-tauri/icons/icon.png" []) = Returns tt.
Proof.
  set (p := fromRoot example_root (js "desktop/src-tauri/icons/icon.png")).
  destruct (written_records_verify example_sha256 example_sharp example_root example_repository p []
    (example_record "desktop/src-tauri/icons/icon.png" [])) as (bytes & Hread & Hiff).
  - apply example_root_names.
  - apply join_path_names, example_root_names.
  - exists (split SLASH (js "desktop/src-tauri/icons/icon.png")). reflexivity.
  - intros k _. apply not_elem_of_nil.
  - intros bytes Hb. assert (bytes = example_png) as -> by (vm_compute in Hb; injection Hb as <-; reflexivity). reflexivity.
  - intros bytes m [= <-]. split; reflexivity.
  - vm_compute. reflexivity.
  - apply Hiff. assert (bytes = example_png) as -> by (vm_compute in Hread; injection Hread as <-; reflexivity). vm_compute. reflexivity.
Defined.

Lemma verify_sound_witness : ∃ mascot, readFile example_repository (fromRoot example_root SOURCE_PATH) = Returns mascot ∧ example_sha256 mascot = SOURCE_SHA256.
Proof.
  destruct (verify_sound example_sha256 example_sharp example_root example_repository 4%nat example_root_names) as (mascot & _ & _ & _ & _ & _ & Hr & Hs & _).
  - vm_compute. reflexivity.
  - exists mascot. split; [exact Hr|exact Hs].
Defined.

Lemma verifyDist_sound_witness : ∃ m, verify example_sha256 example_sharp example_root example_repository = Returns m.
Proof.
  refine (proj1 (verifyDist_sound example_sha256 example_sharp example_root example_repository 3%nat 2%nat example_root_names _ _)).
  - apply proper_treeb_sound. vm_compute. reflexivity.
  - vm_compute. reflexivity.
Defined.
