(* ===== verification/GenerateAssets.v ===== *)
(** The generation of the assets ([web/scripts/assets.mjs]): the images, the
    fonts with their licenses, the icons and the manifest that [generate]
    writes, and that what it wrote is what [verify] ([Assets]) then reads.

    The encoders of the image library and the icon generator are parameters;
    the text of the manifest, its layout and its encoding are not. *)
From S2P Require Import Prelude JsCollections JsNumber JsText NumText Json Uri NodePath Assets.

(** ** A text as the bytes of a file *)

(** A surrogate without its pair is written as the replacement character. *)
Fixpoint text_bytes (s : jsstr) : list Z :=
  match s with
  | [] => []
  | u :: s =>
      if is_lead u then
        match s with
        | v :: s' => if is_trail v then utf8 (65536 + (u - 55296) * 1024 + (v - 56320)) ++ text_bytes s'
                     else utf8 65533 ++ text_bytes s
        | [] => utf8 65533
        end
      else if is_trail u then utf8 65533 ++ text_bytes s
      else utf8 u ++ text_bytes s
  end.

Example text_bytes_examples :
  text_bytes <$> [js "hi"; [233]; [24180]; [55357; 56832]; [55357; 104]] =
  [[104; 105]; [195; 169]; [229; 185; 180]; [240; 159; 152; 128]; [239; 191; 189; 104]].
Proof. reflexivity. Qed.

(** ** Writing files *)

(** A directory with an entry of this name, in its place. *)
Fixpoint set_entry (s : jsstr) (m : node) (es : list (jsstr * node)) : list (jsstr * node) :=
  match es with
  | [] => [(s, m)]
  | e :: es => if bool_decide (e.1 = s) then (s, m) :: es else e :: set_entry s m es
  end.

(** What is at the end of a path, in a directory that exists, becomes what
    [change] makes of it. *)
Fixpoint update_at (p : list jsstr) (change : option node → outcome fs_error node) (n : node) : outcome fs_error node :=
  match p, n with
  | [], _ => Throws EISDIR
  | s :: p', Folder es =>
      let! m := match p' with
                | [] => change (entry s es)
                | _ => match entry s es with Some m => update_at p' change m | None => Throws ENOENT end
                end in
      Returns (Folder (set_entry s m es))
  | _, _ => Throws ENOTDIR
  end.

Definition overwrite (bytes : list Z) (old : option node) : outcome fs_error node :=
  match old with
  | Some (Folder _) => Throws EISDIR
  | Some Special => Throws EIO
  | _ => Returns (File bytes)
  end.

Definition writeFile (p : list jsstr) (bytes : list Z) (fs : node) : outcome fs_error node := update_at p (overwrite bytes) fs.

(** [mkdir(p, { recursive: true })]. *)
Fixpoint mkdir (p : list jsstr) (n : node) : outcome fs_error node :=
  match p, n with
  | [], Folder _ => Returns n
  | [], _ => Throws EEXIST
  | s :: p, Folder es => let! m := mkdir p (entry s es ?? Folder []) in Returns (Folder (set_entry s m es))
  | _, _ => Throws ENOTDIR
  end.

(** [rm(p, { force: true, recursive: true })]. *)
Fixpoint rm (p : list jsstr) (n : node) : outcome fs_error node :=
  match p, n with
  | [], _ => Throws EISDIR
  | s :: p', Folder es =>
      match p' with
      | [] => Returns (Folder (js_filter (λ e, negb (bool_decide (e.1 = s))) es))
      | _ => match entry s es with
             | Some m => let! m := rm p' m in Returns (Folder (set_entry s m es))
             | None => Returns n
             end
      end
  | _, _ => Throws ENOTDIR
  end.

Definition on_path {A} (p : list jsstr) (o : outcome fs_error A) : checked A :=
  match o with Returns a => Returns a | Throws e => Throws [FileError e p] end.

Definition write (p : list jsstr) (bytes : list Z) (fs : node) : checked node := on_path p (writeFile p bytes fs).
Definition make_directory (p : list jsstr) (fs : node) : checked node := on_path p (mkdir p fs).

(** [cp] of one file. *)
Definition cp (from to : list jsstr) (fs : node) : checked node := let! bytes := read fs from in write to bytes fs.

(** ** What is generated *)

Record font_source := {
  family : string;
  packageName : string;
  font_version : string;
  sourceFile : string;
  outputFile : string;
  font_weight : string;
  subset : string;
  licenseFile : string;
}.

Definition FONTS : list font_source :=
  [{| family := "Inter"; packageName := "@fontsource-variable/inter"; font_version := "5.2.8";
      sourceFile := "files/inter-latin-wght-normal.woff2"; outputFile := "inter-latin-100-900-v5.2.8.woff2";
      font_weight := "100 900"; subset := "latin"; licenseFile := "Inter-OFL-1.1.txt" |};
   {| family := "JetBrains Mono"; packageName := "@fontsource-variable/jetbrains-mono"; font_version := "5.2.8";
      sourceFile := "files/jetbrains-mono-latin-wght-normal.woff2"; outputFile := "jetbrains-mono-latin-100-800-v5.2.8.woff2";
      font_weight := "100 800"; subset := "latin"; licenseFile := "JetBrains-Mono-OFL-1.1.txt" |}]%string.

Definition FONT_DIRECTORY : jsstr := js "shared/public/fonts".
Definition LICENSE_DIRECTORY : jsstr := js "shared/assets/licenses".
Definition BRAND_DIRECTORY : jsstr := js "shared/public/brand".
Definition IMPORTED_FILENAME : jsstr :=
  js "ChatGPT Image 2026" ++ [24180] ++ js "7" ++ [26376] ++ js "13" ++ [26085] ++ js " 20_45_46.png".

(** What a process that was run came to; the icon generator leaves the icons
    in its output directory. *)
Record spawned := { status : option Z; stdout : jsstr; stderr : jsstr; icons_made : list (jsstr * node) }.

(** An object literal: a member that is [undefined] is not written. *)
Definition literal (l : list (string * option json)) : json := JObj (omap (λ kv, (js kv.1,.) <$> kv.2) l).

Section generation.
Context `{CaseMapping} (sha256 : list Z → jsstr) (sharp : list Z → option image_metadata) (root : list jsstr).
(** The encoders of the image library with its versions, and the generator of
    the icons. *)
Context (encode_png encode_webp : list Z → option (list Z)) (sharp_version vips_version : jsstr) (tauri : node → spawned).

Definition path_of (p : jsstr) (name : string) : list jsstr := join_path (fromRoot root p) (js name).

Definition encoded (bytes : option (list Z)) : checked (list Z) := match bytes with Some b => Returns b | None => Throws [ImageRejected] end.

Definition readPackage (name : string) (fs : node) : checked (list jsstr * json) :=
  let packagePath := path_of (js "web/node_modules") name in
  let! bytes := read fs (packagePath ++ [js "package.json"]) in
  let! metadata := parse_json (utf8_text bytes) in
  Returns (packagePath, metadata).

Definition public_image (format : string) : list jsstr :=
  fromRoot root (match js_find (λ i, String.eqb i.1 format) PUBLIC_IMAGES with Some i => i.2 | None => [] end).

Definition generatePublicImages (source : list Z) (fs : node) : checked node :=
  let! fs := make_directory (fromRoot root BRAND_DIRECTORY) fs in
  let! png := encoded (encode_png source) in
  let! webp := encoded (encode_webp source) in
  let! fs := write (public_image "png") png fs in
  write (public_image "webp") webp fs.

Definition generate_font (font : font_source) (fs : node) : checked node :=
  let! package := readPackage (packageName font) fs in
  let! version := member "version" (Some package.2) in
  let! _ := require (is_text version (js (font_version font)) && is_text (optional_member "license" (Some package.2)) (js "OFL-1.1"))
    (js (packageName font) ++ js " provenance mismatch: expected " ++ js (font_version font) ++ js " / OFL-1.1") in
  let! fs := cp (join_path package.1 (js (sourceFile font))) (path_of FONT_DIRECTORY (outputFile font)) fs in
  cp (join_path package.1 (js "LICENSE")) (path_of LICENSE_DIRECTORY (licenseFile font)) fs.

Definition generateFonts (fs : node) : checked node :=
  let! fs := make_directory (fromRoot root FONT_DIRECTORY) fs in
  let! fs := make_directory (fromRoot root LICENSE_DIRECTORY) fs in
  foldl (λ done font, let! fs := done in generate_font font fs) (Returns fs) FONTS.

Definition generateTauriIcons (fs : node) : checked node :=
  let directory := fromRoot root ICON_DIRECTORY in
  let! fs := on_path directory (rm directory fs) in
  let! fs := make_directory directory fs in
  let result := tauri fs in
  let! _ := require (bool_decide (status result = Some 0))
    (js "Tauri icon generation failed (" ++ (match status result with Some s => Z_to_js s | None => js "signal" end) ++ js "):" ++ [10] ++
     (if bool_decide (stderr result = []) then stdout result else stderr result)) in
  on_path directory (update_at directory (λ _, Returns (Folder (icons_made result))) fs).

Definition font_extra (font : font_source) : list (jsstr * json) :=
  [(js "family", JStr (js (family font))); (js "style", JStr (js "normal")); (js "weight", JStr (js (font_weight font)));
   (js "subset", JStr (js (subset font))); (js "version", JStr (js (font_version font)));
   (js "package", JStr (js (packageName font)));
   (js "license", JStr (js "shared/assets/licenses/" ++ js (licenseFile font)))].

(** Records written one after the other. *)
Definition file_records (fs : node) (l : list (list jsstr * list (jsstr * json))) : checked (list json) :=
  foldr (λ f rest, let! r := fileRecord sha256 sharp root fs f.1 f.2 in let! rs := rest in Returns (r :: rs)) (Returns []) l.

Definition manifest_value (source : list Z * image_metadata * jsstr) (png webp : json) (fonts icons : list json)
    (tauri_version : option json) : json :=
  let '(bytes, m, digest) := source in
  literal
    [("schemaVersion", Some (JNum (num_of_Z 1))); ("product", Some (JStr (js "Ephemeral Sandbox")));
     ("source", Some (literal
        [("path", Some (JStr (toRootPath root (fromRoot root SOURCE_PATH)))); ("filename", Some (JStr (js "ephemeral-sandbox-mascot.png")));
         ("importedFilename", Some (JStr IMPORTED_FILENAME)); ("sha256", Some (JStr digest));
         ("bytes", Some (JNum (num_of_Z (Z.of_nat (length bytes))))); ("width", int_json (image_width m));
         ("height", int_json (image_height m)); ("bitDepth", Some (JNum (num_of_Z 8))); ("colorMode", Some (JStr (js "RGBA")));
         ("colorSpace", Some (JStr (js "sRGB"))); ("mimeType", Some (JStr (js "image/png")))]));
     ("derivatives", Some (literal
        [("web", Some (literal [("png", Some png); ("webp", Some webp)])); ("fonts", Some (JArr fonts)); ("tauriIcons", Some (JArr icons))]));
     ("generators", Some (literal
        [("sharp", Some (JStr sharp_version)); ("libvips", Some (JStr vips_version)); ("tauriCli", tauri_version)]))]%string.

Definition manifest_bytes (manifest : json) : list Z := text_bytes (print (js "  ") [] manifest ++ [10]).

Definition createManifest (source : list Z * image_metadata * jsstr) (fs : node) : checked node :=
  let record p extra := fileRecord sha256 sharp root fs p extra in
  let! png := record (public_image "png") [] in
  let! webp := record (public_image "webp") [] in
  let! fonts := file_records fs ((λ f, (path_of FONT_DIRECTORY (outputFile f), font_extra f)) <$> FONTS) in
  let! files := walkFiles fs (fromRoot root ICON_DIRECTORY) in
  let! icons := file_records fs ((λ p, (p, [])) <$> files) in
  let! package := readPackage "@tauri-apps/cli" fs in
  let! version := member "version" (Some package.2) in
  write (fromRoot root MANIFEST_PATH) (manifest_bytes (manifest_value source png webp fonts icons version)) fs.

(** The images and the fonts are made at once, in directories of their own:
    when both fail, either error is thrown. *)
Definition public_files (source : list Z) (fs : node) : checked node :=
  match generatePublicImages source fs with
  | Returns fs => generateFonts fs
  | Throws es => Throws (es ++ match generateFonts fs with Throws es' => es' | Returns _ => [] end)
  end.

(** Everything that [generate] writes. *)
Definition generate_files (fs : node) : checked node :=
  let! source := sourceMetadata sha256 sharp root fs in
  let! fs := public_files source.1.1 fs in
  let! fs := generateTauriIcons fs in
  createManifest source fs.

Definition generate (fs : node) : checked (node * nat) :=
  let! fs := generate_files fs in
  let! n := verify sha256 sharp root fs in
  Returns (fs, n).

(** The command of the script, [verify] by default. *)
Definition run_command (command : option jsstr) (fs : node) : checked node :=
  let c := command ?? js "verify" in
  if bool_decide (c = js "generate") then let! r := generate fs in Returns r.1
  else if bool_decide (c = js "verify") then let! _ := verify sha256 sharp root fs in Returns fs
  else if bool_decide (c = js "verify-dist") then let! _ := verifyDist sha256 sharp root fs in Returns fs
  else fail (js "unknown asset command: " ++ c).
End generation.

(** ** Facts: reading a text back *)

(** Texts whose surrogates come in pairs. *)
Inductive paired : jsstr → Prop :=
  | paired_nil : paired []
  | paired_unit u s : 0 ≤ u < 65536 → is_lead u = false → is_trail u = false → paired s → paired (u :: s)
  | paired_pair u v s : is_lead u = true → is_trail v = true → paired s → paired (u :: v :: s).

Lemma paired_app s t : paired s → paired t → paired (s ++ t).
Proof. intros Hs Ht. induction Hs; cbn [app]; [done|by constructor..]. Qed.

Lemma low_unit u : 0 ≤ u < 55296 → is_lead u = false ∧ is_trail u = false.
Proof. unfold is_lead, is_trail. intros Hu. split; apply andb_false_iff; left; apply Z.leb_gt; lia. Qed.

Lemma paired_low s : Forall (λ u, 0 ≤ u < 55296) s → paired s.
Proof. induction 1 as [|u s Hu _ IH]; [constructor|]. destruct (low_unit u Hu). apply paired_unit; [lia|done..]. Qed.

Lemma decode_last lo hi c b rest : lo ≤ b ≤ hi →
  utf8_decode {| needed := 1; lower := lo; upper := hi; code_point := c |} (b :: rest) =
  code_units (c * 64 + (b - 128)) ++ utf8_decode utf8_idle rest.
Proof. intros [Hl Hh]. cbn [utf8_decode]. unfold utf8_next. cbn [needed lower upper code_point]. by rewrite (proj2 (Z.leb_le lo b)), (proj2 (Z.leb_le b hi)). Qed.

Lemma decode_more n lo hi c b rest : lo ≤ b ≤ hi →
  utf8_decode {| needed := S (S n); lower := lo; upper := hi; code_point := c |} (b :: rest) =
  utf8_decode {| needed := S n; lower := 128; upper := 191; code_point := c * 64 + (b - 128) |} rest.
Proof. intros [Hl Hh]. cbn [utf8_decode]. unfold utf8_next. cbn [needed lower upper code_point]. by rewrite (proj2 (Z.leb_le lo b)), (proj2 (Z.leb_le b hi)). Qed.

(** The first byte of a code point of several. *)
Lemma decode_first b rest :
  (194 ≤ b ≤ 223 → utf8_decode utf8_idle (b :: rest) = utf8_decode {| needed := 1; lower := 128; upper := 191; code_point := b - 192 |} rest) ∧
  (224 ≤ b ≤ 239 → utf8_decode utf8_idle (b :: rest) = utf8_decode {| needed := 2; lower := if b =? 224 then 160 else 128;
     upper := if b =? 237 then 159 else 191; code_point := b - 224 |} rest) ∧
  (240 ≤ b ≤ 244 → utf8_decode utf8_idle (b :: rest) = utf8_decode {| needed := 3; lower := if b =? 240 then 144 else 128;
     upper := if b =? 244 then 143 else 191; code_point := b - 240 |} rest).
Proof.
  cbn [utf8_decode]. unfold utf8_next, utf8_first. cbn [needed utf8_idle].
  split_and!; intros Hb; rewrite (proj2 (Z.ltb_ge b 128)) by lia;
    repeat match goal with |- context [?x <=? ?y] => destruct (Z.leb_spec x y); try lia end; done.
Qed.

(** The decoder takes the bytes of a code point as one step. *)
Lemma decode_point c rest : scalar c → utf8_decode utf8_idle (utf8 c ++ rest) = code_units c ++ utf8_decode utf8_idle rest.
Proof.
  intros [Hc Hs]. unfold utf8.
  destruct (Z.ltb_spec c 128); [|destruct (Z.ltb_spec c 2048); [|destruct (Z.ltb_spec c 65536)]]; cbn [app].
  - cbn [utf8_decode]. unfold utf8_next, utf8_first. cbn [needed utf8_idle]. rewrite (proj2 (Z.ltb_lt c 128)) by done.
    unfold code_units. by rewrite (proj2 (Z.ltb_lt c 65536)) by lia.
  - rewrite (proj1 (decode_first _ _)), decode_last by (Z.to_euclidean_division_equations; lia).
    do 2 f_equal. Z.to_euclidean_division_equations; lia.
  - rewrite (proj1 (proj2 (decode_first _ _))), decode_more, decode_last.
    + do 2 f_equal. Z.to_euclidean_division_equations; lia.
    + Z.to_euclidean_division_equations; lia.
    + repeat match goal with |- context [?x =? ?y] => destruct (Z.eqb_spec x y) end; Z.to_euclidean_division_equations; lia.
    + Z.to_euclidean_division_equations; lia.
  - rewrite (proj2 (proj2 (decode_first _ _))), !decode_more, decode_last.
    + do 2 f_equal. Z.to_euclidean_division_equations; lia.
    + Z.to_euclidean_division_equations; lia.
    + Z.to_euclidean_division_equations; lia.
    + repeat match goal with |- context [?x =? ?y] => destruct (Z.eqb_spec x y) end; Z.to_euclidean_division_equations; lia.
    + Z.to_euclidean_division_equations; lia.
Qed.

(** [readFile(p, "utf8")] reads what [writeFile] wrote. *)
Lemma text_bytes_read s : paired s → utf8_text (text_bytes s) = s.
Proof.
  unfold utf8_text. induction 1 as [|u s Hu Hl Ht _ IH|u v s Hu Hv _ IH]; [done| |].
  - cbn [text_bytes]. rewrite Hl, Ht, decode_point, IH.
    + unfold code_units. by rewrite (proj2 (Z.ltb_lt u 65536)) by lia.
    + split; [lia|]. intros ?. unfold is_lead, is_trail in *. bool_to_prop. lia.
  - cbn [text_bytes]. rewrite Hu, Hv. apply is_lead_range in Hu. apply is_trail_range in Hv.
    rewrite decode_point, IH by (split; lia). unfold code_units. rewrite (proj2 (Z.ltb_ge _ 65536)) by lia.
    cbn [app]. f_equal; [|f_equal]; Z.to_euclidean_division_equations; lia.
Qed.

(** ** Facts: the text of a value has its surrogates in pairs *)

Lemma unicode_escape_paired u : paired (unicode_escape u).
Proof.
  assert (∀ x, 0 ≤ hex_digit (x mod 16) < 55296) as Hd.
  { intros x. pose proof (Z.mod_pos_bound x 16). unfold hex_digit. case_match; lia. }
  apply paired_low. unfold unicode_escape. by repeat (constructor; [first [lia|apply Hd]|]).
Qed.

Lemma quote_unit_paired u : 0 ≤ u < 65536 → is_lead u = false → is_trail u = false → paired (quote_unit u).
Proof.
  intros Hu Hl Ht. unfold quote_unit.
  repeat match goal with |- context [if ?b then _ else _] => destruct b end;
    try (apply paired_low; repeat constructor; lia); [apply unicode_escape_paired|by constructor; [..|constructor]].
Qed.

Lemma quote_paired s : wf_str s → paired (quote s).
Proof.
  intros Hs. unfold quote. change (34 :: quote_body s ++ [34]) with ([34] ++ quote_body s ++ [34]).
  apply paired_app, paired_app; [apply paired_low; repeat constructor; lia| |apply paired_low; repeat constructor; lia].
  induction s as [s IH] using (induction_ltof1 _ length). unfold ltof in IH.
  destruct s as [|u s]; [constructor|]. apply Forall_cons in Hs as [Hu Hs]. cbn [quote_body].
  assert (paired (quote_body s)) as Htail by (apply IH; [cbn; lia|done]).
  destruct (is_lead u) eqn:Hlead; [destruct s as [|v s]; [apply unicode_escape_paired|destruct (is_trail v) eqn:Htrail]|].
  - apply Forall_cons in Hs as [_ Hs]. apply paired_pair; [done..|]. apply IH; [cbn; lia|done].
  - by apply paired_app; [apply unicode_escape_paired|].
  - destruct (is_trail u) eqn:Htrail; (apply paired_app; [|done]); [apply unicode_escape_paired|by apply quote_unit_paired].
Qed.

Lemma join_paired sep ps : paired sep → Forall paired ps → paired (join sep ps).
Proof.
  intros Hsep. induction 1 as [|p ps Hp Hps IH]; [constructor|]. destruct ps; [done|].
  rewrite join_cons by done. by repeat apply paired_app.
Qed.

Lemma bracketed_paired open close gap_line last_line parts :
  0 ≤ open < 55296 → 0 ≤ close < 55296 → paired gap_line → paired last_line → Forall paired parts →
  paired (bracketed open close gap_line last_line parts).
Proof.
  intros Ho Hc Hg Hl Hp. assert (∀ c, 0 ≤ c < 55296 → paired [c]) as Hone by (intros c ?; by apply paired_low, Forall_singleton).
  unfold bracketed. destruct parts as [|p parts]; [by apply (paired_app [open] [close]); apply Hone|].
  change (open :: ?t) with ([open] ++ t). apply paired_app, paired_app, paired_app, paired_app; auto.
  apply join_paired; [|done]. change (44 :: gap_line) with ([44] ++ gap_line). apply paired_app; [|done]. apply Hone. lia.
Qed.

Lemma spaces_paired g : spaces g → paired g.
Proof.
  intros Hg. apply paired_low. eapply Forall_impl; [exact Hg|]. intros u Hu%bool_decide_eq_true. set_unfold in Hu. lia.
Qed.

Lemma print_paired gap v : spaces gap → ∀ indent, spaces indent → plain v → paired (print gap indent v).
Proof.
  intros Hgap. assert (∀ indent, spaces indent → paired (new_line gap indent)) as Hline.
  { intros indent Hi. by apply spaces_paired, line_spaces, new_line_line. }
  induction v as [|b|n|s|l IH|l IH] using json_nested_ind; intros indent Hi Hv; cbn [print].
  - apply paired_low. repeat constructor; lia.
  - destruct b; apply paired_low; repeat constructor; lia.
  - inversion Hv as [| |z Hz| | |]; subst. rewrite num_of_Z_finite, num_to_js_Z by done.
    apply paired_low, Forall_forall. intros u Hu%Z_to_js_units. lia.
  - inversion Hv; subst. by apply quote_paired.
  - inversion Hv as [| | | |? Hl|]; subst. apply bracketed_paired; [lia|lia|apply Hline; by apply Forall_app_2|by apply Hline|].
    rewrite Forall_forall in IH, Hl. apply Forall_forall. intros p (w & -> & Hw)%list_elem_of_fmap. apply IH; [done|by apply Forall_app_2|by apply Hl].
  - inversion Hv as [| | | | |? _ Hl]; subst. apply bracketed_paired; [lia|lia|apply Hline; by apply Forall_app_2|by apply Hline|].
    rewrite Forall_forall in IH, Hl. apply Forall_forall. intros p (kv & -> & Hkv)%list_elem_of_fmap. destruct (Hl kv Hkv) as [Hk Hw].
    apply paired_app; [by apply quote_paired|]. apply paired_app; [|apply IH; [done|by apply Forall_app_2|done]].
    apply paired_low. unfold colon. case_bool_decide; repeat constructor; lia.
Qed.

(** A value written with a layout, as a line of a file, is read back. *)
Lemma written_value_reads gap v : spaces gap → plain v → parse (utf8_text (text_bytes (print gap [] v ++ [10]))) = Some v.
Proof.
  intros Hgap Hv. rewrite text_bytes_read.
  - apply parse_print; [done|right; exists []; split; [done|constructor]|done].
  - apply paired_app; [apply print_paired; [done|constructor|done]|]. apply paired_low. repeat constructor; lia.
Qed.

(** ** Facts: what is written, and what is left alone *)

Lemma entry_set s t m es : entry t (set_entry s m es) = if bool_decide (t = s) then Some m else entry t es.
Proof.
  unfold entry. induction es as [|e es IH]; cbn [set_entry].
  - unfold js_find. cbn. destruct (decide (t = s)) as [->|Hne]; [by rewrite !bool_decide_true|by rewrite !bool_decide_false by congruence].
  - unfold js_find in *. destruct (decide (e.1 = s)) as [He|He]; [rewrite (bool_decide_true (e.1 = s)) by done|rewrite (bool_decide_false (e.1 = s)) by done]; cbn.
    + destruct (decide (t = s)) as [->|Hne]; [by rewrite !bool_decide_true|by rewrite !bool_decide_false by congruence].
    + destruct (decide (e.1 = t)) as [Ht|Ht]; [|by rewrite (bool_decide_false (e.1 = t)) by done].
      rewrite !(bool_decide_true (e.1 = t)) by done. by rewrite bool_decide_false by congruence.
Qed.

(** Two places, neither below the other. *)
Definition apart (p q : list jsstr) : Prop := ¬ p `prefix_of` q ∧ ¬ q `prefix_of` p.

Lemma apart_cons s p q : apart (s :: p) (s :: q) ↔ apart p q.
Proof.
  unfold apart. assert (∀ a b : list jsstr, s :: a `prefix_of` s :: b ↔ a `prefix_of` b) as Hc; [|by rewrite !Hc].
  intros a b. split; [apply prefix_cons_inv_2|apply prefix_cons].
Qed.

Lemma apart_root (r p q : list jsstr) : apart (r ++ p) (r ++ q) ↔ apart p q.
Proof. induction r as [|s r IH]; [done|]. cbn [app]. by rewrite apart_cons. Qed.

Lemma apart_below p q r : apart p q → apart p (q ++ r).
Proof.
  intros [Hp Hq]. split.
  - intros Hpq. destruct (prefix_weak_total p q (q ++ r)) as [?|?]; [done|by eexists|done|done].
  - intros [k ->]. apply Hq. rewrite <- app_assoc. by eexists.
Qed.

Lemma apart_sym p q : apart p q → apart q p.
Proof. by intros []. Qed.

(** What a change of the tree at a place leaves alone. *)
Definition leaves_alone (p : list jsstr) (n n' : node) : Prop := ∀ q, apart p q → node_at n' q = node_at n q.

Lemma leaves_step s p q es m (es' : list (jsstr * node)) :
  (∀ t, t ≠ s → entry t es' = entry t es) → entry s es' = Some m →
  apart (s :: p) q → (∀ q', q = s :: q' → node_at m q' = node_at (Folder es) q) →
  node_at (Folder es') q = node_at (Folder es) q.
Proof.
  intros Hother Hsame [Hp Hq] Hm. destruct q as [|t q]; [by destruct Hq; apply prefix_nil|].
  destruct (decide (t = s)) as [->|Hne]; [|cbn [node_at]; by rewrite Hother].
  change (node_at (Folder es') (s :: q)) with (match entry s es' with Some n => node_at n q | None => Throws ENOENT end).
  rewrite Hsame. by apply Hm.
Qed.

Lemma entry_set_ne s m es t : t ≠ s → entry t (set_entry s m es) = entry t es.
Proof. intros Ht. by rewrite entry_set, bool_decide_false. Qed.

Lemma entry_set_eq s m es : entry s (set_entry s m es) = Some m.
Proof. by rewrite entry_set, bool_decide_true. Qed.

Lemma update_at_apart p change n n' : update_at p change n = Returns n' → leaves_alone p n n'.
Proof.
  revert n n'. induction p as [|s p IH]; intros n n'; cbn [update_at]; [by destruct n|]. destruct n as [|es|]; [done| |done].
  intros (m & Hm & [= <-])%obind_Returns q Hq.
  apply (leaves_step s p q es m); [by intros; apply entry_set_ne|by apply entry_set_eq|done|]. intros q' ->.
  apply apart_cons in Hq. destruct p as [|s' p]; [by destruct Hq as [[] _]; apply prefix_nil|].
  cbn [node_at]. destruct (entry s es) as [k|]; [|done]. by apply (IH k m).
Qed.

Lemma update_at_there p change n n' : update_at p change n = Returns n' →
  ∃ old m, change old = Returns m ∧ node_at n' p = Returns m.
Proof.
  revert n n'. induction p as [|s p IH]; intros n n'; cbn [update_at]; [by destruct n|]. destruct n as [|es|]; [done| |done].
  intros (m & Hm & [= <-])%obind_Returns. cbn [node_at]. rewrite entry_set_eq.
  destruct p as [|s' p]; [by exists (entry s es), m|]. destruct (entry s es) as [k|]; [|done]. by apply (IH k m).
Qed.

Lemma mkdir_apart p n n' : mkdir p n = Returns n' → leaves_alone p n n'.
Proof.
  revert n n'. induction p as [|s p IH]; intros n n'; cbn [mkdir]; [by destruct n; intros [= <-]|]. destruct n as [|es|]; [done| |done].
  intros (m & Hm & [= <-])%obind_Returns q Hq.
  apply (leaves_step s p q es m); [by intros; apply entry_set_ne|by apply entry_set_eq|done|]. intros q' ->.
  apply apart_cons in Hq. rewrite (IH _ _ Hm q' Hq). cbn [node_at]. destruct (entry s es) as [k|]; [done|].
  destruct q' as [|t q']; [by destruct Hq as [_ []]; apply prefix_nil|done].
Qed.

Lemma rm_apart p n n' : rm p n = Returns n' → leaves_alone p n n'.
Proof.
  revert n n'. induction p as [|s p IH]; intros n n'; cbn [rm]; [by destruct n|]. destruct n as [|es|]; [done| |done].
  destruct p as [|s' p].
  - intros [= <-] q [Hq Hq']. destruct q as [|t q]; [by destruct Hq'; apply prefix_nil|].
    assert (t ≠ s) as Hne by (intros ->; apply Hq; by exists q).
    cbn [node_at]. assert (entry t (js_filter (λ e, negb (bool_decide (e.1 = s))) es) = entry t es) as ->; [|done].
    unfold entry, js_find. induction es as [|e es IHes]; [done|]. cbn. destruct (decide (e.1 = s)) as [He|He].
    + rewrite (bool_decide_true (e.1 = s)) by done. cbn. rewrite (bool_decide_false (e.1 = t)) by congruence. exact IHes.
    + rewrite (bool_decide_false (e.1 = s)) by done. cbn. by destruct (bool_decide (e.1 = t)).
  - destruct (entry s es) as [k|] eqn:Hk; [|by intros [= <-]]. intros (m & Hm & [= <-])%obind_Returns q Hq.
    apply (leaves_step s (s' :: p) q es m); [by intros; apply entry_set_ne|by apply entry_set_eq|done|]. intros q' ->.
    apply apart_cons in Hq. cbn [node_at]. rewrite Hk. by apply (IH k m).
Qed.

#[export] Instance apart_dec p q : Decision (apart p q).
Proof. unfold apart. apply _. Defined.

(** Only what is at or below these places may have changed. *)
Definition within (ds : list (list jsstr)) (n n' : node) : Prop := ∀ q, Forall (λ d, apart d q) ds → node_at n' q = node_at n q.

Lemma within_trans ds n m n' : within ds n m → within ds m n' → within ds n n'.
Proof. intros H1 H2 q Hq. by rewrite H2, H1. Qed.

Lemma within_below ds d r n n' : d ∈ ds → leaves_alone (d ++ r) n n' → within ds n n'.
Proof.
  intros Hd Hn q Hq. apply Hn, apart_sym, apart_below, apart_sym. rewrite Forall_forall in Hq. by apply Hq.
Qed.

Lemma within_at ds d n n' : d ∈ ds → leaves_alone d n n' → within ds n n'.
Proof. intros Hd Hn. apply (within_below ds d []); [done|]. by rewrite app_nil_r. Qed.

Lemma within_mono ds ds' n n' : ds ⊆ ds' → within ds n n' → within ds' n n'.
Proof. intros Hds Hn q Hq. apply Hn. rewrite Forall_forall in Hq |- *. auto. Qed.

Lemma read_within ds n n' q : within ds n n' → Forall (λ d, apart d q) ds → read n' q = read n q.
Proof. intros Hn Hq. unfold read, readFile. by rewrite (Hn q Hq). Qed.

Lemma on_path_Returns {A} p (o : outcome fs_error A) a : on_path p o = Returns a ↔ o = Returns a.
Proof. unfold on_path. destruct o; naive_solver. Qed.

Lemma write_alone p bytes n n' : write p bytes n = Returns n' → leaves_alone p n n'.
Proof. intros Hw%on_path_Returns. by eapply update_at_apart. Qed.

Lemma write_there p bytes n n' : write p bytes n = Returns n' → node_at n' p = Returns (File bytes).
Proof.
  intros Hw%on_path_Returns. apply update_at_there in Hw as (old & m & Hm & Hn). rewrite Hn. unfold overwrite in Hm.
  destruct old as [[]|]; congruence.
Qed.

Lemma make_directory_alone p n n' : make_directory p n = Returns n' → leaves_alone p n n'.
Proof. intros Hm%on_path_Returns. by eapply mkdir_apart. Qed.

Lemma cp_alone from to n n' : cp from to n = Returns n' → leaves_alone to n n' ∧ ∃ bytes, node_at n' to = Returns (File bytes).
Proof. intros (bytes & _ & Hw)%obind_Returns. split; [by eapply write_alone|]. exists bytes. by eapply write_there. Qed.

(** ** Facts: the places of the repository *)

#[export] Instance name_dec s : Decision (name s).
Proof.
  refine (cast_if (decide (s ≠ [] ∧ s ≠ js "." ∧ s ≠ PARENT ∧ SLASH ∉ s))).
  - abstract (by split; destruct_and?).
  - abstract (by intros [? ? ? ?]; tauto).
Defined.

Ltac closed_names := decide_closed.

Section places.
Context (root : list jsstr).

(** A path of the script is its segments below the repository. *)
Lemma from_root p : Forall name (split SLASH p) → fromRoot root p = root ++ split SLASH p.
Proof. intros Hp. unfold fromRoot, join_path. by apply climb_all. Qed.

Lemma path_of_eq p f : Forall name (split SLASH p) → Forall name (split SLASH (js f)) →
  path_of root p f = fromRoot root p ++ split SLASH (js f).
Proof. intros Hp Hf. unfold path_of, join_path. by apply climb_all. Qed.

Lemma const_apart p q : Forall name (split SLASH p) → Forall name (split SLASH q) → apart (split SLASH p) (split SLASH q) →
  apart (fromRoot root p) (fromRoot root q).
Proof. intros Hp Hq Ha. rewrite !from_root by done. by apply apart_root. Qed.

Lemma relative_below rest : relative root (root ++ rest) = join [SLASH] rest.
Proof.
  unfold relative. destruct (relative_segments_cases root (root ++ rest)) as [(rest' & Heq & ->)|[Hnp _]]; [|by destruct Hnp; exists rest].
  by apply app_inv_head in Heq as <-.
Qed.

Lemma to_root_path p : Forall name (split SLASH p) → toRootPath root (fromRoot root p) = p.
Proof. intros Hp. rewrite from_root by done. unfold toRootPath. rewrite relative_below. apply join_split. Qed.
End places.

Ltac closed_apart := apply const_apart; [closed_names|closed_names|decide_closed].

(** The places that [generate] writes to. *)
Definition GENERATED : list jsstr := [BRAND_DIRECTORY; FONT_DIRECTORY; LICENSE_DIRECTORY; ICON_DIRECTORY; MANIFEST_PATH].

Section effects.
Context `{CaseMapping} (sha256 : list Z → jsstr) (sharp : list Z → option image_metadata) (root : list jsstr).
Context (encode_png encode_webp : list Z → option (list Z)) (sharp_version vips_version : jsstr) (tauri : node → spawned).
Let brand := fromRoot root BRAND_DIRECTORY.
Let font_directory := fromRoot root FONT_DIRECTORY.
Let license_directory := fromRoot root LICENSE_DIRECTORY.
Let icon_directory := fromRoot root ICON_DIRECTORY.
Let license f := path_of root LICENSE_DIRECTORY (licenseFile f).

Lemma public_image_path format : format ∈ ["png"; "webp"]%string → ∃ r, public_image root format = brand ++ r.
Proof.
  intros Hf. unfold brand.
  apply elem_of_cons in Hf as [->|Hf]; [|apply list_elem_of_singleton in Hf as ->].
  - exists [js "ephemeral-sandbox-mascot-b9408770.png"].
    change (public_image root "png") with (fromRoot root (js "shared/public/brand/ephemeral-sandbox-mascot-b9408770.png")).
    rewrite (from_root root (js _)), (from_root root BRAND_DIRECTORY), <- app_assoc by closed_names. f_equal.
  - exists [js "ephemeral-sandbox-mascot-b9408770.webp"].
    change (public_image root "webp") with (fromRoot root (js "shared/public/brand/ephemeral-sandbox-mascot-b9408770.webp")).
    rewrite (from_root root (js _)), (from_root root BRAND_DIRECTORY), <- app_assoc by closed_names. f_equal.
Qed.

Lemma images_within source fs fs' : generatePublicImages root encode_png encode_webp source fs = Returns fs' → within [brand] fs fs'.
Proof.
  intros (fs1 & Hd%make_directory_alone & (png & _ & (webp & _ & (fs2 & Hp%write_alone & Hw%write_alone)%obind_Returns)%obind_Returns)%obind_Returns)%obind_Returns.
  destruct (public_image_path "png") as [rp Hrp]; [by left|]. destruct (public_image_path "webp") as [rw Hrw]; [by right; left|].
  rewrite Hrp in Hp. rewrite Hrw in Hw.
  eapply within_trans; [apply (within_at _ brand); [by left|done]|].
  eapply within_trans; [apply (within_below _ brand rp); [by left|done]|]. apply (within_below _ brand rw); [by left|done].
Qed.

Lemma font_path f : f ∈ FONTS → (∃ r, path_of root FONT_DIRECTORY (outputFile f) = font_directory ++ r) ∧ ∃ r, license f = license_directory ++ r.
Proof.
  intros Hf. unfold license, font_directory, license_directory.
  apply elem_of_cons in Hf as [->|Hf]; [|apply list_elem_of_singleton in Hf as ->];
    rewrite !path_of_eq by closed_names; split; by eexists.
Qed.

Lemma font_effect f fs fs' : generate_font root f fs = Returns fs' →
  within [path_of root FONT_DIRECTORY (outputFile f); license f] fs fs' ∧ ∃ bytes, node_at fs' (license f) = Returns (File bytes).
Proof.
  intros (package & _ & (version & _ & ([] & _ & (fs1 & [Hf _]%cp_alone & [Hl Hb]%cp_alone)%obind_Returns)%obind_Returns)%obind_Returns)%obind_Returns.
  split; [|done]. eapply within_trans; [by apply (within_at _ (path_of root FONT_DIRECTORY (outputFile f))); [left|]|].
  apply (within_at _ (license f)); [by right; left|done].
Qed.

Lemma font_within f fs fs' : f ∈ FONTS → generate_font root f fs = Returns fs' → within [font_directory; license_directory] fs fs'.
Proof.
  intros Hf [Hw _]%font_effect. destruct (font_path f Hf) as [[r Hr] [l Hl]]. rewrite Hr, Hl in Hw. intros q Hq. apply Hw.
  rewrite !Forall_cons in Hq |- *. destruct Hq as (H1 & H2 & _). split_and!; [| |done]; by apply apart_sym, apart_below, apart_sym.
Qed.

Lemma fonts_effect fs fs' : generateFonts root fs = Returns fs' →
  within [font_directory; license_directory] fs fs' ∧ ∀ f, f ∈ FONTS → ∃ bytes, node_at fs' (license f) = Returns (File bytes).
Proof.
  intros (fs1 & Hd1%make_directory_alone & (fs2 & Hd2%make_directory_alone & Hfonts)%obind_Returns)%obind_Returns.
  unfold FONTS in Hfonts. cbn [foldl] in Hfonts. set (f1 := {| family := "Inter" |}) in Hfonts. set (f2 := {| family := "JetBrains Mono" |}) in Hfonts.
  assert (f1 ∈ FONTS) as Hf1 by by left. assert (f2 ∈ FONTS) as Hf2 by by right; left.
  apply obind_Returns in Hfonts as (fs3 & Hg1 & Hg2). cbn [obind] in Hg1.
  split.
  - eapply within_trans; [by apply (within_at _ font_directory); [left|]|].
    eapply within_trans; [by apply (within_at _ license_directory); [right; left|]|].
    eapply within_trans; [by apply (font_within f1)|]. by apply (font_within f2).
  - intros f Hf. apply font_effect in Hg1 as [_ [b1 Hb1]]. apply font_effect in Hg2 as [Hw2 [b2 Hb2]].
    apply elem_of_cons in Hf as [->|Hf]; [|apply list_elem_of_singleton in Hf as ->; by exists b2].
    exists b1. fold f1. rewrite (Hw2 (license f1)); [done|]. unfold license. rewrite !path_of_eq, !from_root, <- !app_assoc by closed_names.
    rewrite !Forall_cons, !apart_root. split_and!; [decide_closed..|constructor].
Qed.

Lemma icons_within fs fs' : generateTauriIcons root tauri fs = Returns fs' → within [icon_directory] fs fs'.
Proof.
  intros (fs1 & Hrm%on_path_Returns & (fs2 & Hd%make_directory_alone & ([] & _ & Hmade%on_path_Returns)%obind_Returns)%obind_Returns)%obind_Returns.
  apply rm_apart in Hrm. apply update_at_apart in Hmade.
  eapply within_trans; [by apply (within_at _ icon_directory); [left|]|].
  eapply within_trans; [by apply (within_at _ icon_directory); [left|]|]. by apply (within_at _ icon_directory); [left|].
Qed.
End effects.

(** ** Facts: the manifest is a value of its own text *)

Lemma obj_set_keys k v l : (obj_set k v l).*1 = if bool_decide (k ∈ l.*1) then l.*1 else l.*1 ++ [k].
Proof.
  induction l as [|[k' v'] l IH]; [done|]. cbn [obj_set]. destruct (decide (k' = k)) as [->|Hne].
  - rewrite bool_decide_true by done. cbn. by rewrite bool_decide_true by left.
  - rewrite (bool_decide_false (k' = k)) by done. cbn [fmap list_fmap fst]. rewrite IH.
    destruct (decide (k ∈ l.*1)) as [Hin|Hin].
    + rewrite !bool_decide_true; [done|by right|done].
    + rewrite !bool_decide_false; [done|by apply not_elem_of_cons|done].
Qed.

Lemma obj_set_plain k v l : plain (JObj l) → wf_str k → plain v → plain (JObj (obj_set k v l)).
Proof.
  intros Hl Hk Hv. inversion Hl as [| | | | |? Hnd Hall]; subst. constructor.
  - rewrite obj_set_keys. case_bool_decide; [done|]. apply NoDup_app. split_and!; [done|set_solver|apply NoDup_singleton].
  - clear Hl Hnd. induction Hall as [|[k' v'] l H1 Hl IH]; cbn [obj_set]; [by repeat constructor|].
    case_bool_decide; by constructor.
Qed.

Lemma literal_plain l : NoDup ((λ kv, js kv.1) <$> l) → Forall (λ kv, ∀ v, kv.2 = Some v → plain v) l → plain (literal l).
Proof.
  intros Hnd Hl. unfold literal. constructor.
  - assert ((omap (λ kv : string * option json, (js kv.1,.) <$> kv.2) l).*1 `sublist_of` (λ kv, js kv.1) <$> l) as Hsub.
    { clear. induction l as [|[k [v|]] l IH]; cbn; [constructor|by apply sublist_skip|by apply sublist_cons]. }
    by eapply sublist_NoDup.
  - clear Hnd. induction Hl as [|[k [v|]] l Hv _ IH]; cbn; [constructor| |done]. constructor; [|done]. split; [apply wf_js|by apply Hv].
Qed.

Lemma Returns_inj {E A} (a b : A) : Returns (E := E) a = Returns b → a = b.
Proof. congruence. Qed.

Section manifest.
Context `{CaseMapping} (sha256 : list Z → jsstr) (sharp : list Z → option image_metadata) (root : list jsstr).
Context (Hsha : ∀ bytes, wf_str (sha256 bytes)).
Context (Himage : ∀ bytes m, sharp bytes = Some m → small (image_width m) ∧ small (image_height m)).

Lemma extra_plain extra : ∀ l, plain (JObj l) → Forall (λ kv, wf_str kv.1 ∧ plain kv.2) extra →
  plain (JObj (foldl (λ l kv, obj_set kv.1 kv.2 l) l extra)).
Proof.
  induction extra as [|kv extra IH]; intros l Hl Hextra; [done|]. apply Forall_cons in Hextra as [[Hk Hv] Hextra].
  cbn [foldl]. apply IH; [by apply obj_set_plain|done].
Qed.

Lemma record_plain fs p extra r : fileRecord sha256 sharp root fs p extra = Returns r →
  wf_str (toRootPath root p) → wf_str (mimeTypeFor (path_text p)) →
  (∀ bytes, readFile fs p = Returns bytes → Z.of_nat (length bytes) < 2 ^ 53) →
  Forall (λ kv, wf_str kv.1 ∧ plain kv.2) extra → plain r.
Proof.
  intros (bytes & Hread%read_Returns & Hr)%obind_Returns Hp Hmime Hsmall Hextra. cbv zeta in Hr.
  match type of Hr with context [foldl ?f ?l extra] => assert (plain (JObj (foldl f l extra))) as Hrec end.
  { apply extra_plain; [|done]. constructor; [decide_closed|]. specialize (Hsmall bytes Hread).
    repeat (apply Forall_cons; split; [split; [apply wf_js|]|]); [by constructor|constructor; apply Hsha| |by constructor|constructor].
    apply plain_int. lia. }
  revert Hr Hrec. generalize (foldl (λ l kv, obj_set kv.1 kv.2 l) [(js "path", JStr (toRootPath root p)); (js "sha256", JStr (sha256 bytes));
     (js "bytes", JNum (num_of_Z (Z.of_nat (length bytes)))); (js "mimeType", JStr (mimeTypeFor (path_text p)))] extra).
  intros l Hr Hl. destruct (is_raster p); [|apply Returns_inj in Hr; by subst r].
  apply obind_Returns in Hr as (m & Hm & Hr). apply Returns_inj in Hr. subst r.
  unfold image in Hm. destruct (sharp bytes) as [m'|] eqn:Hs; [|done]. injection Hm as ->. destruct (Himage _ _ Hs) as [Hw Hh].
  destruct (image_width m), (image_height m); cbn in Hw, Hh; repeat (apply obj_set_plain; [|apply wf_js|by apply plain_int]); done.
Qed.

Lemma mime_wf p : wf_str (mimeTypeFor p).
Proof.
  unfold mimeTypeFor. destruct (js_find _ _) as [t|] eqn:Ht; [|apply wf_js].
  apply js_find_Some in Ht as (l1 & l2 & Heq & _).
  assert (t ∈ l1 ++ t :: l2) as Hin by (apply elem_of_app; right; by left). rewrite <- Heq in Hin. clear Heq.
  repeat (apply elem_of_cons in Hin as [->|Hin]; [apply wf_js|]). by apply elem_of_nil in Hin.
Qed.
End manifest.

(** ** Facts: the writing of the manifest *)

Section writing.
Context `{CaseMapping} (sha256 : list Z → jsstr) (sharp : list Z → option image_metadata) (root : list jsstr).
Context (encode_png encode_webp : list Z → option (list Z)) (sharp_version vips_version : jsstr) (tauri : node → spawned).

Let font_files : list (list jsstr * list (jsstr * json)) := (λ f, (path_of root FONT_DIRECTORY (outputFile f), font_extra f)) <$> FONTS.
Let created := createManifest sha256 sharp root sharp_version vips_version.
Let generated := generate_files sha256 sharp root encode_png encode_webp sharp_version vips_version tauri.
Let places := fromRoot root <$> GENERATED.

Lemma file_records_Returns fs l rs : file_records sha256 sharp root fs l = Returns rs ↔
  Forall2 (λ f r, fileRecord sha256 sharp root fs f.1 f.2 = Returns r) l rs.
Proof.
  revert rs. induction l as [|f l IH]; intros rs; cbn [file_records foldr].
  - split; [intros [= <-]; constructor|]. intros Hl. by inversion Hl.
  - rewrite obind_Returns. split.
    + intros (r & Hr & (rs' & Hrs & [= <-])%obind_Returns). constructor; [done|]. by apply IH.
    + intros Hl. inversion Hl as [|? r ? rs' Hr Hrs]; subst. exists r. split; [done|]. apply obind_Returns. exists rs'. by rewrite IH.
Qed.

(** What was read and written when the manifest was. *)
Record manifest_written (source : list Z * image_metadata * jsstr) (fs fs' : node) (png webp : json) (fonts icons : list json)
    (files : list (list jsstr)) (package : list jsstr * json) (version : option json) : Prop := {
  mw_png : fileRecord sha256 sharp root fs (public_image root "png") [] = Returns png;
  mw_webp : fileRecord sha256 sharp root fs (public_image root "webp") [] = Returns webp;
  mw_fonts : Forall2 (λ f r, fileRecord sha256 sharp root fs f.1 f.2 = Returns r) font_files fonts;
  mw_files : walkFiles fs (fromRoot root ICON_DIRECTORY) = Returns files;
  mw_icons : Forall2 (λ p r, fileRecord sha256 sharp root fs p [] = Returns r) files icons;
  mw_package : readPackage root "@tauri-apps/cli" fs = Returns package;
  mw_version : member "version" (Some package.2) = Returns version;
  mw_write : write (fromRoot root MANIFEST_PATH)
    (manifest_bytes (manifest_value root sharp_version vips_version source png webp fonts icons version)) fs = Returns fs';
}.

Lemma createManifest_Returns source fs fs' : created source fs = Returns fs' →
  ∃ png webp fonts icons files package version, manifest_written source fs fs' png webp fonts icons files package version.
Proof.
  intros (png & Hpng & (webp & Hwebp & (fonts & Hfonts & (files & Hfiles & (icons & Hicons & (package & Hpackage &
    (version & Hversion & Hwrite)%obind_Returns)%obind_Returns)%obind_Returns)%obind_Returns)%obind_Returns)%obind_Returns)%obind_Returns.
  exists png, webp, fonts, icons, files, package, version. constructor; [done|done|by apply file_records_Returns|done| |done..].
  apply file_records_Returns in Hicons. by apply Forall2_fmap_l in Hicons.
Qed.

Lemma created_within source fs fs' : created source fs = Returns fs' → within [fromRoot root MANIFEST_PATH] fs fs'.
Proof.
  intros (? & ? & ? & ? & ? & ? & ? & Hw)%createManifest_Returns. apply mw_write, write_alone in Hw.
  by apply (within_at _ (fromRoot root MANIFEST_PATH)); [left|].
Qed.

Lemma public_files_Returns source fs fs' : public_files root encode_png encode_webp source fs = Returns fs' →
  ∃ fs1, generatePublicImages root encode_png encode_webp source fs = Returns fs1 ∧ generateFonts root fs1 = Returns fs'.
Proof. unfold public_files. destruct (generatePublicImages _ _ _ _ _) as [fs1|]; [|done]. intros Hf. by exists fs1. Qed.

(** The steps of a generation. *)
Record generation_steps (fs fs' : node) (source : list Z * image_metadata * jsstr) (fs1 fs2 fs3 : node) : Prop := {
  gs_source : sourceMetadata sha256 sharp root fs = Returns source;
  gs_images : generatePublicImages root encode_png encode_webp source.1.1 fs = Returns fs1;
  gs_fonts : generateFonts root fs1 = Returns fs2;
  gs_icons : generateTauriIcons root tauri fs2 = Returns fs3;
  gs_manifest : created source fs3 = Returns fs';
}.

Lemma generated_Returns fs fs' : generated fs = Returns fs' → ∃ source fs1 fs2 fs3, generation_steps fs fs' source fs1 fs2 fs3.
Proof.
  intros (source & Hs & (fs2 & (fs1 & Hi & Hf)%public_files_Returns & (fs3 & Ht & Hm)%obind_Returns)%obind_Returns)%obind_Returns.
  by exists source, fs1, fs2, fs3.
Qed.

Lemma generated_within fs fs' : generated fs = Returns fs' → within places fs fs'.
Proof.
  intros (source & fs1 & fs2 & fs3 & [_ Hi Hf Ht Hm])%generated_Returns.
  apply images_within in Hi. apply fonts_effect in Hf as [Hf _]. apply icons_within in Ht. apply created_within in Hm.
  assert (∀ d, d ∈ GENERATED → fromRoot root d ∈ places) as Hin by (intros d ?; by apply list_elem_of_fmap_2).
  eapply within_trans; [eapply within_mono; [|exact Hi]|eapply within_trans; [eapply within_mono; [|exact Hf]|
    eapply within_trans; [eapply within_mono; [|exact Ht]|eapply within_mono; [|exact Hm]]]];
    intros d Hd; repeat (apply elem_of_cons in Hd as [->|Hd]; [apply Hin; decide_closed|]); by apply elem_of_nil in Hd.
Qed.

(** Nothing outside its own places is touched by [generate]: apart from the
    brand images, the fonts, the licenses, the icons and the manifest, every
    file and directory of the repository, and everything outside it, is what
    it was. *)
Theorem generate_stays_inside fs fs' q (Hmade : generated fs = Returns fs')
    (Hq : Forall (λ d, apart (fromRoot root d) q) GENERATED) : node_at fs' q = node_at fs q.
Proof. apply generated_within in Hmade. apply Hmade. unfold places. by apply Forall_fmap. Qed.
End writing.

(** ** Facts: what was written is read *)

Lemma walk_below n : ∀ d p, p ∈ walk d n → ∃ rel, p = d ++ rel.
Proof.
  induction n as [b|es IH|] using node_nested_ind; intros d p; cbn [walk]; try (intros Hp; by apply elem_of_nil in Hp).
  fold walk. rewrite (sort_paths_perm _), list_elem_of_In, in_flat_map. intros ([s m] & He & Hp). apply list_elem_of_In in He, Hp.
  rewrite Forall_forall in IH. specialize (IH _ He). cbn [fst snd] in *. destruct m as [b|es'|].
  - apply list_elem_of_singleton in Hp as ->. by eexists.
  - apply IH in Hp as [rel ->]. exists (s :: rel). by rewrite <- app_assoc.
  - by apply elem_of_nil in Hp.
Qed.

Lemma walkFiles_below fs d files p : walkFiles fs d = Returns files → p ∈ files → ∃ rel, p = d ++ rel.
Proof. unfold walkFiles. destruct (readdir fs d) as [es|]; [|done]. intros [= <-]. apply (walk_below (Folder es)). Qed.

Section reading.
Context `{CaseMapping} (sha256 : list Z → jsstr) (sharp : list Z → option image_metadata) (root : list jsstr) (fs fs' : node).

Lemma fileRecord_same p extra : read fs' p = read fs p →
  fileRecord sha256 sharp root fs' p extra = fileRecord sha256 sharp root fs p extra.
Proof. intros Hr. unfold fileRecord. by rewrite Hr. Qed.

Lemma walkFiles_same d : node_at fs' d = node_at fs d → walkFiles fs' d = walkFiles fs d.
Proof. intros Hn. unfold walkFiles, readdir. by rewrite Hn. Qed.

Lemma readPackage_same name : read fs' (path_of root (js "web/node_modules") name ++ [js "package.json"]) =
  read fs (path_of root (js "web/node_modules") name ++ [js "package.json"]) → readPackage root name fs' = readPackage root name fs.
Proof. intros Hr. unfold readPackage. by rewrite Hr. Qed.

Lemma sourceMetadata_same : read fs' (fromRoot root SOURCE_PATH) = read fs (fromRoot root SOURCE_PATH) →
  sourceMetadata sha256 sharp root fs' = sourceMetadata sha256 sharp root fs.
Proof. intros Hr. unfold sourceMetadata. by rewrite Hr. Qed.

(** What the mascot is checked for. *)
Lemma source_facts bytes m digest : sourceMetadata sha256 sharp root fs = Returns (bytes, m, digest) →
  digest = SOURCE_SHA256 ∧ sharp bytes = Some m ∧ readFile fs (fromRoot root SOURCE_PATH) = Returns bytes ∧
  is_int (int_json (image_width m)) SOURCE_SIDE = true ∧ is_int (int_json (image_height m)) SOURCE_SIDE = true.
Proof.
  intros (b & Hread%read_Returns & ([] & Hd%require_Returns%bool_decide_eq_true & (m' & Hm & ([] & Hmis & ([] & _ & Heq)%obind_Returns)%obind_Returns)%obind_Returns)%obind_Returns)%obind_Returns.
  apply Returns_inj in Heq. assert (b = bytes) as <- by congruence. assert (m' = m) as -> by congruence. assert (digest = sha256 b) as -> by congruence.
  clear Heq. unfold image in Hm. destruct (sharp b) as [k|] eqn:Hs; [|done]. apply Returns_inj in Hm as ->.
  destruct (source_mismatch m) as [[[k e] a]|] eqn:Hs'; [done|]. apply js_find_None in Hs'. rewrite !Forall_cons in Hs'.
  destruct Hs' as (Hw%negb_false_iff & Hh%negb_false_iff & _). by split_and!.
Qed.
End reading.

(** ** Facts: the records of a generation verify *)

Lemma Forall2_impl_elem {A B} (P Q : A → B → Prop) l k : Forall2 P l k → (∀ x y, x ∈ l → y ∈ k → P x y → Q x y) → Forall2 Q l k.
Proof.
  induction 1 as [|x y l k Hxy _ IH]; intros HQ; constructor; [apply HQ; [by left..|done]|]. apply IH. intros x' y' ? ?. apply HQ; by right.
Qed.

Lemma Forall2_right {A B} (P Q : A → B → Prop) (R : B → Prop) l k : Forall2 P l k → Forall2 Q l k →
  (∀ x y, x ∈ l → P x y → Q x y → R y) → Forall R k.
Proof.
  induction 1 as [|x y l k Hxy _ IH]; intros HQ HR; inversion HQ; subst; constructor; [by apply (HR x y); [left|..]|].
  apply IH; [done|]. intros x' y' Hx'. apply HR. by right.
Qed.

Section verified.
Context `{CaseMapping} (sha256 : list Z → jsstr) (sharp : list Z → option image_metadata) (root : list jsstr).
Context (sharp_version vips_version : jsstr).
Context (Hroot : Forall name root) (Hsha : ∀ bytes, wf_str (sha256 bytes)).
Context (Himage : ∀ bytes m, sharp bytes = Some m → small (image_width m) ∧ small (image_height m)).
Context (Hsharp : wf_str sharp_version) (Hvips : wf_str vips_version).

Definition font_file (f : font_source) : list jsstr := path_of root FONT_DIRECTORY (outputFile f).

(** The files the manifest is about. *)
Definition listed (icons : list (list jsstr)) : list (list jsstr) :=
  public_image root "png" :: public_image root "webp" :: (font_file <$> FONTS) ++ icons.

(** What [generate] relies on and does not make itself: the encoders, the
    packages and the icon generator give files of the formats their names
    stand for, of sizes that are safe integers; the style sheet serves the
    fonts; the retired logo is gone; and nothing is named after a user. *)
Record presentable (fs : node) (icons : list (list jsstr)) : Prop := {
  pr_names : Forall (Forall name) icons;
  pr_units : Forall (of_code_units root) icons;
  pr_small : ∀ p bytes, p ∈ fromRoot root SOURCE_PATH :: listed icons → readFile fs p = Returns bytes → Z.of_nat (length bytes) < 2 ^ 53;
  pr_format : ∀ p bytes, p ∈ listed icons → readFile fs p = Returns bytes →
    magic_ok bytes (Some (JStr (mimeTypeFor (path_text p)))) = true;
  pr_css : ∃ bytes, readFile fs (fromRoot root (js "web/src/index.css")) = Returns bytes ∧
    includes (js "font-display: swap") (utf8_text bytes) = true ∧
    ∀ f, f ∈ FONTS → includes (js "/fonts/" ++ js (outputFile f)) (utf8_text bytes) = true;
  pr_logo : node_at fs (fromRoot root (js "web/public/assets/images/logo.png")) = Throws ENOENT;
  pr_user : ∀ bytes, readFile fs (fromRoot root MANIFEST_PATH) = Returns bytes → names_user_path (utf8_text bytes) = false;
  pr_cli : ∀ package, readPackage root "@tauri-apps/cli" fs = Returns package →
    ∃ v, get "version" package.2 = Some (JStr v) ∧ wf_str v;
}.

(** A place the manifest can name. *)
Record place (p : list jsstr) : Prop := {
  place_names : Forall name p;
  place_inside : root `prefix_of` p;
  place_apart : apart (fromRoot root MANIFEST_PATH) p;
  place_units : wf_str (toRootPath root p);
}.

Lemma place_below rest : Forall name rest → apart (split SLASH MANIFEST_PATH) rest → wf_str (join [SLASH] rest) → place (root ++ rest).
Proof.
  intros Hn Ha Hw. constructor; [by apply Forall_app_2|by eexists| |].
  - rewrite from_root by closed_names. by apply apart_root.
  - unfold toRootPath. by rewrite relative_below.
Qed.

Lemma listed_place fs icons p : presentable fs icons → (∀ p, p ∈ icons → ∃ rel, p = fromRoot root ICON_DIRECTORY ++ rel) →
  p ∈ listed icons → place p.
Proof.
  intros Hpr Hicons Hp.
  assert (∀ c, Forall name (split SLASH c) → apart (split SLASH MANIFEST_PATH) (split SLASH c) → wf_str c → place (fromRoot root c)) as Hconst.
  { intros c Hn Ha Hw. rewrite from_root by done. apply place_below; [done..|]. by rewrite join_split. }
  apply elem_of_cons in Hp as [->|Hp].
  { apply (Hconst (js "shared/public/brand/ephemeral-sandbox-mascot-b9408770.png")); [closed_names|decide_closed|apply wf_js]. }
  apply elem_of_cons in Hp as [->|Hp].
  { apply (Hconst (js "shared/public/brand/ephemeral-sandbox-mascot-b9408770.webp")); [closed_names|decide_closed|apply wf_js]. }
  apply elem_of_app in Hp as [(f & -> & Hf)%list_elem_of_fmap|Hp].
  - unfold font_file. apply elem_of_cons in Hf as [->|Hf]; [|apply list_elem_of_singleton in Hf as ->];
      rewrite path_of_eq, from_root, <- app_assoc by closed_names; (apply place_below; [closed_names|decide_closed|decide_closed]).
  - pose proof (pr_names _ _ Hpr) as Hn. pose proof (pr_units _ _ Hpr) as Hu. rewrite Forall_forall in Hn, Hu.
    specialize (Hn p Hp). specialize (Hu p Hp). destruct (Hicons p Hp) as [rel ->].
    rewrite from_root in * by closed_names. rewrite <- app_assoc in *. constructor; [done|by eexists| |done].
    rewrite from_root by closed_names. apply apart_root, apart_below. decide_closed.
Qed.

(** A record written before the manifest verifies after it. *)
Lemma record_verifies fs fs' icons p extra r :
  presentable fs' icons → place p → p ∈ listed icons → within [fromRoot root MANIFEST_PATH] fs fs' →
  fileRecord sha256 sharp root fs p extra = Returns r →
  (∀ k, k ∈ RECORD_KEYS → k ∉ extra.*1) → Forall (λ kv, wf_str kv.1 ∧ plain kv.2) extra →
  verifyRecord sha256 sharp root fs' r = Returns tt ∧ get "path" r = Some (JStr (toRootPath root p)) ∧ plain r.
Proof.
  intros Hpr [Hn Hin Ha Hu] Hp Hw Hr Hextra Hplain.
  assert (∀ bytes, readFile fs' p = Returns bytes → Z.of_nat (length bytes) < 2 ^ 53) as Hsmall by (intros bytes; apply (pr_small _ _ Hpr); by right).
  rewrite <- (fileRecord_same sha256 sharp root fs fs') in Hr by by (apply (read_within [fromRoot root MANIFEST_PATH]); [|apply Forall_singleton]).
  pose proof (record_plain sha256 sharp root Hsha Himage fs' p extra r Hr Hu (mime_wf _) Hsmall Hplain) as Hrp.
  destruct (written_records_verify sha256 sharp root fs' p extra r Hroot Hn Hin Hextra Hsmall Himage Hr) as (bytes & Hb & Hv).
  split_and!; [|  |done].
  - apply Hv. by apply (pr_format _ _ Hpr).
  - apply obind_Returns in Hr as (bytes' & _ & Hr). by apply (written_fields sha256 sharp root p extra r bytes' Hextra) in Hr as [? _].
Qed.

(** ** Facts: the fonts *)

Lemma font_extra_keys f : (font_extra f).*1 = js <$> ["family"; "style"; "weight"; "subset"; "version"; "package"; "license"]%string.
Proof. reflexivity. Qed.

Lemma font_extra_ok f : (∀ k, k ∈ RECORD_KEYS → k ∉ (font_extra f).*1) ∧ Forall (λ kv, wf_str kv.1 ∧ plain kv.2) (font_extra f).
Proof.
  split.
  - rewrite font_extra_keys. assert (Forall (λ k, k ∉ js <$> ["family"; "style"; "weight"; "subset"; "version"; "package"; "license"]%string) RECORD_KEYS) as Hall by decide_closed.
    by rewrite Forall_forall in Hall.
  - unfold font_extra. repeat (apply Forall_cons; split; [split; [apply wf_js|constructor; try apply wf_js]|]); [|constructor].
    apply Forall_app_2; apply wf_js.
Qed.

Lemma font_license fs f r : fileRecord sha256 sharp root fs (font_file f) (font_extra f) = Returns r →
  get "license" r = Some (JStr (js "shared/assets/licenses/" ++ js (licenseFile f))).
Proof.
  intros (bytes & _ & Hr)%obind_Returns. cbv zeta in Hr. revert Hr. set (record := foldl _ _ _).
  assert (obj_get (js "license") record = Some (JStr (js "shared/assets/licenses/" ++ js (licenseFile f)))) as Hl by reflexivity.
  clearbody record. destruct (is_raster _); [|intros Hr%Returns_inj; by subst r].
  intros (m & _ & Hr)%obind_Returns. apply Returns_inj in Hr. subst r. unfold get.
  destruct (image_width m), (image_height m); rewrite ?obj_get_set_ne by decide_closed; done.
Qed.

(** The address a font is served at, and the place of its license. *)
Lemma font_paths f : f ∈ FONTS →
  without_first (js "shared/public/") (toRootPath root (font_file f)) = js "fonts/" ++ js (outputFile f) ∧
  assertRepositoryPath root (Some (JStr (js "shared/assets/licenses/" ++ js (licenseFile f)))) (js "font license path") =
    Returns (path_of root LICENSE_DIRECTORY (licenseFile f)).
Proof.
  intros Hf. split.
  - unfold font_file, toRootPath. apply elem_of_cons in Hf as [->|Hf]; [|apply list_elem_of_singleton in Hf as ->];
      rewrite path_of_eq, from_root, <- app_assoc, relative_below by closed_names; vm_compute; reflexivity.
  - apply (repository_path_Returns _ _ _ _ Hroot). exists (js "shared/assets/licenses/" ++ js (licenseFile f)).
    assert (Forall name (split SLASH (js "shared/assets/licenses/" ++ js (licenseFile f))) ∧
      split SLASH (js "shared/assets/licenses/" ++ js (licenseFile f)) = split SLASH LICENSE_DIRECTORY ++ split SLASH (js (licenseFile f)) ∧
      isAbsolute (js "shared/assets/licenses/" ++ js (licenseFile f)) = false ∧ Forall name (split SLASH (js (licenseFile f)))) as (Hn & Hs & Hab & Hn').
    { apply elem_of_cons in Hf as [->|Hf]; [|apply list_elem_of_singleton in Hf as ->];
        (split_and!; [closed_names|vm_compute; reflexivity|vm_compute; reflexivity|closed_names]). }
    assert (resolve root (js "shared/assets/licenses/" ++ js (licenseFile f)) = path_of root LICENSE_DIRECTORY (licenseFile f)) as Hres.
    { unfold resolve. rewrite Hab. change (join_path root ?t) with (fromRoot root t).
      rewrite (from_root root (_ ++ _)), path_of_eq, from_root, Hs by (done || closed_names). by rewrite <- app_assoc. }
    split; [done|]. split; [done|]. split; [by rewrite Hres|].
    rewrite path_of_eq, from_root, <- app_assoc by (done || closed_names). by eexists.
Qed.

Lemma font_served fs fs' icons f r : presentable fs' icons → f ∈ FONTS →
  (∃ bytes, node_at fs' (path_of root LICENSE_DIRECTORY (licenseFile f)) = Returns (File bytes)) →
  get "path" r = Some (JStr (toRootPath root (font_file f))) → fileRecord sha256 sharp root fs (font_file f) (font_extra f) = Returns r →
  ∀ css, readFile fs' (fromRoot root (js "web/src/index.css")) = Returns css → check_font root fs' (utf8_text css) r = Returns tt.
Proof.
  intros Hpr Hf [l Hl] Hpath Hr css Hcss. destruct (pr_css _ _ Hpr) as (css' & Hcss' & Hswap & Hurl).
  assert (css' = css) as -> by congruence. destruct (font_paths f Hf) as [Hurl' Hlicense].
  unfold check_font. rewrite (member_get _ _ _ Hpath). cbn [obind shown_value]. rewrite Hurl'.
  change (SLASH :: js "fonts/" ++ js (outputFile f)) with (js "/fonts/" ++ js (outputFile f)). rewrite (Hurl f Hf), Hswap.
  cbn [andb require obind]. unfold optional_member. cbn [mbind option_bind]. rewrite (font_license _ _ _ Hr), Hlicense. cbn [obind].
  unfold stat. by rewrite Hl.
Qed.

(** ** Facts: the manifest *)

(** All the records, with what they are about. *)
Lemma records_verify source fs fs' icons_files png webp fonts icons package version :
  presentable fs' icons_files →
  manifest_written sha256 sharp root sharp_version vips_version source fs fs' png webp fonts icons icons_files package version →
  Forall2 (λ p r, verifyRecord sha256 sharp root fs' r = Returns tt ∧ get "path" r = Some (JStr (toRootPath root p)) ∧ plain r)
    (listed icons_files) (png :: webp :: fonts ++ icons).
Proof.
  intros Hpr Hmw. pose proof (mw_write _ _ _ _ _ _ _ _ _ _ _ _ _ _ _ Hmw) as Hw. apply write_alone in Hw.
  assert (within [fromRoot root MANIFEST_PATH] fs fs') as Hin by (by apply (within_at _ (fromRoot root MANIFEST_PATH)); [left|]).
  assert (∀ p extra r, p ∈ listed icons_files → fileRecord sha256 sharp root fs p extra = Returns r →
    (∀ k, k ∈ RECORD_KEYS → k ∉ extra.*1) → Forall (λ kv, wf_str kv.1 ∧ plain kv.2) extra →
    verifyRecord sha256 sharp root fs' r = Returns tt ∧ get "path" r = Some (JStr (toRootPath root p)) ∧ plain r) as Hrec.
  { intros p extra r Hp Hr Hk Hx. apply (record_verifies fs fs' icons_files p extra); try done.
    apply (listed_place fs' icons_files); [done| |done]. intros p' Hp'. by apply (walkFiles_below _ _ _ _ (mw_files _ _ _ _ _ _ _ _ _ _ _ _ _ _ _ Hmw)). }
  destruct Hmw as [Hpng Hwebp Hfonts _ Hicons _ _ _].
  assert (∀ (k : jsstr), k ∈ RECORD_KEYS → k ∉ ([] : list (jsstr * json)).*1) as Hnone by (intros k _ Hk; by apply elem_of_nil in Hk).
  constructor; [by eapply Hrec; [left|..]|]. constructor; [by eapply Hrec; [right; left|..]|]. apply Forall2_app.
  - apply Forall2_fmap_l in Hfonts. apply Forall2_fmap_l. eapply Forall2_impl_elem; [exact Hfonts|].
    intros f r Hf _ Hr. destruct (font_extra_ok f) as [Hk Hx]. eapply Hrec; [|exact Hr|done|done].
    right. right. apply elem_of_app. left. by apply list_elem_of_fmap_2.
  - eapply Forall2_impl_elem; [exact Hicons|]. intros p r Hp _ Hr. eapply Hrec; [|exact Hr|done|done].
    right. right. apply elem_of_app. by right.
Qed.

Lemma int_json_plain n v : small n → int_json n = Some v → plain v.
Proof. destruct n as [n|]; [|done]. intros Hn Hv. cbn in Hv. assert (v = JNum (num_of_Z n)) as -> by congruence. by apply plain_int. Qed.

(** The members of a literal, one after the other. *)
Lemma literal_members l : NoDup ((λ kv, js kv.1) <$> l) → Forall (λ kv, match kv.2 with Some v => plain v | None => True end) l → plain (literal l).
Proof. intros Hnd Hl. apply literal_plain; [done|]. eapply Forall_impl; [exact Hl|]. intros [k o] Hk v Hv. cbn in *. by subst. Qed.

Lemma manifest_plain bytes m png webp fonts icons version :
  sharp bytes = Some m → Z.of_nat (length bytes) < 2 ^ 53 → Forall plain (png :: webp :: fonts ++ icons) →
  (∀ v, version = Some v → plain v) →
  plain (manifest_value root sharp_version vips_version (bytes, m, SOURCE_SHA256) png webp fonts icons version).
Proof.
  intros Hm Hlen Hrec Hversion. destruct (Himage _ _ Hm) as [Hw Hh]. apply Forall_cons in Hrec as [Hpng Hrec].
  apply Forall_cons in Hrec as [Hwebp [Hfonts Hicons]%Forall_app]. unfold manifest_value.
  apply literal_members; [decide_closed|]. repeat (apply Forall_cons_2; [cbn [snd]|]); [..|apply Forall_nil_2].
  - by apply plain_int.
  - constructor. apply wf_js.
  - apply literal_members; [decide_closed|]. repeat (apply Forall_cons_2; [cbn [snd]|]); [..|apply Forall_nil_2];
      try (by constructor; apply wf_js); try (by apply plain_int).
    + constructor. rewrite to_root_path by closed_names. apply wf_js.
    + constructor. decide_closed.
    + apply plain_int. lia.
    + destruct (int_json (image_width m)) eqn:Hj; [by apply (int_json_plain (image_width m))|done].
    + destruct (int_json (image_height m)) eqn:Hj; [by apply (int_json_plain (image_height m))|done].
  - apply literal_members; [decide_closed|]. repeat (apply Forall_cons_2; [cbn [snd]|]); [..|apply Forall_nil_2]; [|by constructor..].
    apply literal_members; [decide_closed|]. repeat (apply Forall_cons_2; [cbn [snd]|]); [done..|apply Forall_nil_2].
  - apply literal_members; [decide_closed|]. repeat (apply Forall_cons_2; [cbn [snd]|]); [..|apply Forall_nil_2]; [by constructor..|].
    destruct version; auto.
Qed.

Lemma icon_paths_ok files icons : Forall2 (λ p r, get "path" r = Some (JStr (toRootPath root p))) files icons →
  icon_paths (Some (JArr icons)) = Returns (JStr ∘ toRootPath root <$> files).
Proof.
  cbn [icon_paths]. induction 1 as [|p r files icons Hr _ IH]; [done|]. cbn [foldr]. rewrite (member_get _ _ _ Hr). cbn [obind].
  rewrite IH. done.
Qed.

Lemma check_retired_ok fs : node_at fs (fromRoot root (js "web/public/assets/images/logo.png")) = Throws ENOENT → check_retired root fs = Returns tt.
Proof. intros Hl. unfold check_retired. by rewrite Hl. Qed.

(** The manifest of a generation passes the checks of [verify]. *)
Lemma derivatives_verify source fs fs' files png webp fonts icons package version :
  presentable fs' files →
  manifest_written sha256 sharp root sharp_version vips_version source fs fs' png webp fonts icons files package version →
  walkFiles fs' (fromRoot root ICON_DIRECTORY) = Returns files →
  (∀ f, f ∈ FONTS → ∃ bytes, node_at fs' (path_of root LICENSE_DIRECTORY (licenseFile f)) = Returns (File bytes)) →
  verify_derivatives sha256 sharp root fs' (manifest_value root sharp_version vips_version source png webp fonts icons version)
    = Returns (4 + length files)%nat.
Proof.
  intros Hpr Hmw Hwalk Hlicenses. pose proof (records_verify _ _ _ _ _ _ _ _ _ _ Hpr Hmw) as Hrecords.
  destruct source as [[bytes m] digest]. set (manifest := manifest_value _ _ _ _ _ _ _ _ _).
  assert (get "derivatives" manifest = Some (literal
    [("web", Some (literal [("png", Some png); ("webp", Some webp)])); ("fonts", Some (JArr fonts)); ("tauriIcons", Some (JArr icons))]%string))
    as Hder by reflexivity.
  assert (served_records manifest = Returns ([png; webp] ++ fonts)) as Hserved by reflexivity.
  clearbody manifest. pose proof (mw_fonts _ _ _ _ _ _ _ _ _ _ _ _ _ _ _ Hmw) as Hfonts. clear Hmw.
  apply Forall2_cons in Hrecords as [(Hv1 & Hpng & _) Hrecords]. apply Forall2_cons in Hrecords as [(Hv2 & Hwebp & _) Hrecords].
  assert (length fonts = 2%nat) as Hlen by (by rewrite <- (Forall2_length _ _ _ Hfonts)).
  apply Forall2_app_inv in Hrecords as [Hfr Hir]; [|by rewrite length_fmap, Hlen].
  unfold verify_derivatives. rewrite (member_get _ _ _ Hder). cbn [obind].
  rewrite (member_get "web" _ (literal [("png", Some png); ("webp", Some webp)]%string)) by reflexivity. cbn [obind].
  rewrite (proj2 (in_turn_Returns _ _ tt)); [|repeat (apply Forall_cons_2; [|]); [..|apply Forall_nil_2]].
  2,3: unfold check_public_image; cbn [fst snd].
  2: rewrite (member_get "png" _ png) by reflexivity. 3: rewrite (member_get "webp" _ webp) by reflexivity.
  2,3: cbn [obind]; apply require_Returns, is_text_spec; unfold optional_member; cbn [mbind option_bind].
  2: rewrite Hpng; do 2 f_equal; apply to_root_path; closed_names.
  2: rewrite Hwebp; do 2 f_equal; apply to_root_path; closed_names.
  cbn [obind]. rewrite Hserved. cbn [obind].
  rewrite (member_get "tauriIcons" _ (JArr icons)) by reflexivity. cbn [obind spread].
  rewrite (proj2 (at_once_Returns _ (verifyRecord_throws sha256 sharp root fs') _ tt)).
  2: { rewrite <- app_assoc. constructor; [done|]. constructor; [done|]. apply Forall_app_2;
         [apply (Forall2_right _ _ _ _ _ Hfr Hfr)|apply (Forall2_right _ _ _ _ _ Hir Hir)]; by intros ? ? _ [? _]. }
  cbn [obind]. rewrite Hwalk. cbn [obind].
  rewrite (icon_paths_ok files icons); [|eapply Forall2_impl; [exact Hir|by intros ? ? (_ & ? & _)]].
  cbn [obind]. rewrite bool_decide_true by done. cbn [require obind].
  destruct (pr_css _ _ Hpr) as (css & Hcss & _). rewrite (proj2 (read_Returns _ _ _) Hcss). cbn [obind].
  rewrite (member_get "fonts" _ (JArr fonts)) by reflexivity. cbn [obind spread].
  rewrite (proj2 (in_turn_Returns _ _ tt)).
  2: { apply Forall2_fmap_l in Hfonts. apply Forall2_fmap_l in Hfr. apply (Forall2_right _ _ _ _ _ Hfonts Hfr).
       intros f v Hf Hv (_ & Hpath & _). by apply (font_served fs fs' files f); [..|apply Hlicenses|done|done|done]. }
  cbn [obind]. rewrite check_retired_ok by apply Hpr. cbn [obind]. f_equal.
  rewrite length_app, length_app, Hlen, <- (Forall2_length _ _ _ Hir). reflexivity.
Qed.
End verified.

(** ** Theorems *)

Section theorems.
Context `{CaseMapping} (sha256 : list Z → jsstr) (sharp : list Z → option image_metadata) (root : list jsstr).
Context (encode_png encode_webp : list Z → option (list Z)) (sharp_version vips_version : jsstr) (tauri : node → spawned).
Context (Hroot : Forall name root) (Hsha : ∀ bytes, wf_str (sha256 bytes)).
Context (Himage : ∀ bytes m, sharp bytes = Some m → small (image_width m) ∧ small (image_height m)).
Context (Hsharp : wf_str sharp_version) (Hvips : wf_str vips_version).

Let generated := generate_files sha256 sharp root encode_png encode_webp sharp_version vips_version tauri.

(** The licenses stay where they were copied to. *)
Lemma licenses_stay fs fs' source fs1 fs2 fs3 :
  generation_steps sha256 sharp root encode_png encode_webp sharp_version vips_version tauri fs fs' source fs1 fs2 fs3 →
  ∀ f, f ∈ FONTS → ∃ bytes, node_at fs' (path_of root LICENSE_DIRECTORY (licenseFile f)) = Returns (File bytes).
Proof.
  intros [_ _ Hf Ht Hm] f Hin. apply fonts_effect in Hf as [_ Hl]. destruct (Hl f Hin) as [bytes Hb]. exists bytes.
  assert (∀ d, Forall name (split SLASH d) → apart (split SLASH d) (split SLASH LICENSE_DIRECTORY) →
    apart (fromRoot root d) (path_of root LICENSE_DIRECTORY (licenseFile f))) as Ha.
  { intros d Hd Hda. destruct (font_path root f Hin) as [_ [r ->]]. apply apart_below. apply const_apart; [done|closed_names|done]. }
  apply created_within in Hm. apply icons_within in Ht. rewrite Hm; [rewrite Ht; [done|]|].
  all: apply Forall_singleton, Ha; [closed_names|decide_closed].
Qed.

(** A place that [generate] does not write to. *)
Lemma outside_generated q : Forall name (split SLASH q) → Forall (λ d, apart (split SLASH d) (split SLASH q)) GENERATED →
  Forall (λ d, apart d (fromRoot root q)) (fromRoot root <$> GENERATED).
Proof.
  intros Hq Ha. assert (Forall (λ d, Forall name (split SLASH d)) GENERATED) as Hn by decide_closed.
  rewrite Forall_forall in Ha, Hn. apply Forall_forall. intros d (c & -> & Hc)%list_elem_of_fmap. apply const_apart; auto.
Qed.

(** The text of the manifest reads back as the manifest. *)
Lemma manifest_reads manifest fs fs' : plain manifest → write (fromRoot root MANIFEST_PATH) (manifest_bytes manifest) fs = Returns fs' →
  ∃ bytes, readFile fs' (fromRoot root MANIFEST_PATH) = Returns bytes ∧ parse (utf8_text bytes) = Some manifest.
Proof.
  intros Hplain Hw%write_there. exists (manifest_bytes manifest). split.
  - unfold readFile. by rewrite Hw.
  - unfold manifest_bytes. apply written_value_reads; [|done]. repeat constructor.
Qed.

(** The version of the icon generator is a text. *)
Lemma version_plain source fs fs' icons png webp fonts icon_records package version :
  presentable root fs' icons → within [fromRoot root MANIFEST_PATH] fs fs' →
  manifest_written sha256 sharp root sharp_version vips_version source fs fs' png webp fonts icon_records icons package version →
  ∀ v, version = Some v → plain v.
Proof.
  intros Hpr Hlast Hmw v ->. pose proof (mw_package _ _ _ _ _ _ _ _ _ _ _ _ _ _ _ Hmw) as Hp.
  rewrite <- (readPackage_same root fs fs') in Hp.
  - apply (pr_cli _ _ _ Hpr) in Hp as (t & Ht & Hwf). pose proof (mw_version _ _ _ _ _ _ _ _ _ _ _ _ _ _ _ Hmw) as Hv.
    apply member_Returns in Hv. assert (v = JStr t) as -> by congruence. by constructor.
  - eapply read_within; [exact Hlast|]. apply Forall_singleton. rewrite path_of_eq by closed_names. rewrite <- app_assoc.
    apply apart_below. closed_apart.
Qed.

(** The head of the manifest is in order. *)
Lemma manifest_head bytes m png webp fonts icons version :
  is_int (int_json (image_width m)) SOURCE_SIDE = true → is_int (int_json (image_height m)) SOURCE_SIDE = true →
  let manifest := manifest_value root sharp_version vips_version (bytes, m, SOURCE_SHA256) png webp fonts icons version in
  member "schemaVersion" (Some manifest) = Returns (Some (JNum (num_of_Z 1))) ∧
  is_text (optional_member "product" (Some manifest)) (js "Ephemeral Sandbox") = true ∧
  source_declared (optional_member "source" (Some manifest)) SOURCE_SHA256 = Returns true.
Proof.
  intros Hw Hh. cbv zeta. split; [reflexivity|]. split; [reflexivity|].
  set (source := literal
        [("path", Some (JStr (toRootPath root (fromRoot root SOURCE_PATH)))); ("filename", Some (JStr (js "ephemeral-sandbox-mascot.png")));
         ("importedFilename", Some (JStr IMPORTED_FILENAME)); ("sha256", Some (JStr SOURCE_SHA256));
         ("bytes", Some (JNum (num_of_Z (Z.of_nat (length bytes))))); ("width", int_json (image_width m));
         ("height", int_json (image_height m)); ("bitDepth", Some (JNum (num_of_Z 8))); ("colorMode", Some (JStr (js "RGBA")));
         ("colorSpace", Some (JStr (js "sRGB"))); ("mimeType", Some (JStr (js "image/png")))]%string).
  change (optional_member "source" _) with (Some source). unfold source_declared.
  destruct (image_width m) as [w|]; [|done]. destruct (image_height m) as [h|]; [|done]. cbn [int_json fmap option_fmap option_map compose] in Hw, Hh.
  rewrite (member_get "path" source (JStr SOURCE_PATH)).
  - cbn [obind]. f_equal. rewrite !andb_true_iff. split_and!; [reflexivity|reflexivity|exact Hw|exact Hh|reflexivity|reflexivity].
  - unfold source. rewrite to_root_path by closed_names. reflexivity.
Qed.

(** C34: What [generate] writes is what [verify] accepts: when every step of a
    generation has succeeded, the repository it leaves verifies, and the
    command reports one record for each image, each font and each icon. The
    manifest is laid out over lines, encoded, decoded and parsed on the way;
    the mascot, the style sheet and the packages are found as they were, and
    the licenses where they were copied to. *)
Theorem generate_verifies fs fs' icons
    (Hmade : generated fs = Returns fs')
    (Hicons : walkFiles fs' (fromRoot root ICON_DIRECTORY) = Returns icons)
    (Hpr : presentable root fs' icons) :
  generate sha256 sharp root encode_png encode_webp sharp_version vips_version tauri fs = Returns (fs', (4 + length icons)%nat).
Proof.
  pose proof (generated_within _ _ _ _ _ _ _ _ _ _ Hmade) as Hin. unfold generate. fold generated. rewrite Hmade. cbn [obind].
  apply generated_Returns in Hmade as (source & fs1 & fs2 & fs3 & Hsteps). pose proof (licenses_stay _ _ _ _ _ _ Hsteps) as Hlicenses.
  destruct Hsteps as [Hsource _ _ _ Hm]. apply createManifest_Returns in Hm as (png & webp & fonts & icon_records & files & package & version & Hmw).
  assert (within [fromRoot root MANIFEST_PATH] fs3 fs') as Hlast.
  { apply (within_at _ (fromRoot root MANIFEST_PATH)); [by left|]. eapply write_alone, Hmw. }
  assert (files = icons) as ->.
  { pose proof (mw_files _ _ _ _ _ _ _ _ _ _ _ _ _ _ _ Hmw) as Hw. rewrite <- (walkFiles_same fs3 fs') in Hw; [congruence|].
    apply Hlast, Forall_singleton. closed_apart. }
  assert (sourceMetadata sha256 sharp root fs' = Returns source) as Hsource'.
  { rewrite (sourceMetadata_same _ _ _ fs); [done|]. eapply read_within; [exact Hin|]. apply outside_generated; [closed_names|decide_closed]. }
  destruct source as [[bytes m] digest]. destruct (source_facts _ _ _ _ _ _ _ Hsource') as (-> & Hs & Hread & Hw & Hh).
  pose proof (records_verify sha256 sharp root sharp_version vips_version Hroot Hsha Himage _ _ _ _ _ _ _ _ _ _ Hpr Hmw) as Hrecords.
  assert (Forall plain (png :: webp :: fonts ++ icon_records)) as Hplain.
  { apply (Forall2_right _ _ _ _ _ Hrecords Hrecords). by intros ? ? _ (_ & _ & ?). }
  pose proof (manifest_plain sharp root sharp_version vips_version Himage Hsharp Hvips bytes m png webp fonts icon_records version
    Hs (pr_small _ _ _ Hpr _ _ ltac:(by left) Hread) Hplain (version_plain _ _ _ _ _ _ _ _ _ _ Hpr Hlast Hmw)) as Hman.
  destruct (manifest_reads _ _ _ Hman (mw_write _ _ _ _ _ _ _ _ _ _ _ _ _ _ _ Hmw)) as (text & Htext & Hparse).
  destruct (manifest_head bytes m png webp fonts icon_records version Hw Hh) as (Hv & Hp & Hd).
  unfold verify. rewrite Hsource'. cbn [obind]. rewrite (proj2 (read_Returns _ _ _) Htext). cbn [obind].
  rewrite (pr_user _ _ _ Hpr _ Htext). cbn [negb require obind]. unfold parse_json. rewrite Hparse. cbn [obind]. rewrite Hv. cbn [obind].
  rewrite Hp. change (is_int (Some (JNum (num_of_Z 1))) 1) with true. cbn [andb require obind snd]. rewrite Hd. cbn [obind require].
  rewrite (derivatives_verify sha256 sharp root sharp_version vips_version Hroot Hsha Himage _ _ _ _ _ _ _ _ _ _ Hpr Hmw Hicons Hlicenses). done.
Qed.
End theorems.

(** A repository to generate the assets of. *)
Definition example_package (name version : string) : list Z :=
  stringify (JObj [(js "name", JStr (js name)); (js "version", JStr (js version)); (js "license", JStr (js "OFL-1.1"))]).

Definition example_sources : node := tree_of
  [("shared/assets/source/ephemeral-sandbox-mascot.png", example_png);
   ("web/node_modules/@fontsource-variable/inter/package.json", example_package "inter" "5.2.8");
   ("web/node_modules/@fontsource-variable/inter/files/inter-latin-wght-normal.woff2", js "wOF2 inter");
   ("web/node_modules/@fontsource-variable/inter/LICENSE", js "OFL");
   ("web/node_modules/@fontsource-variable/jetbrains-mono/package.json", example_package "mono" "5.2.8");
   ("web/node_modules/@fontsource-variable/jetbrains-mono/files/jetbrains-mono-latin-wght-normal.woff2", js "wOF2 mono");
   ("web/node_modules/@fontsource-variable/jetbrains-mono/LICENSE", js "OFL");
   ("web/node_modules/@tauri-apps/cli/package.json", example_package "cli" "2.0.0");
   ("desktop/src-tauri/icons/old.png", example_png);
   ("web/src/index.css", js "url(/fonts/inter-latin-100-900-v5.2.8.woff2) url(/fonts/jetbrains-mono-latin-100-800-v5.2.8.woff2); font-display: swap")]%string.

Definition example_tauri (_ : node) : spawned :=
  {| status := Some 0; stdout := []; stderr := []; icons_made := [(js "icon.png", File example_png); (js "icon.ico", File [0])] |}.

#[local] Existing Instance basic_latin.

Definition example_generation : checked node :=
  generate_files example_sha256 example_sharp example_root Some (λ _, Some (js "RIFF1234WEBP")) (js "0.34") (js "8.17") example_tauri example_sources.

Definition example_made : node := match example_generation with Returns fs => fs | Throws _ => Special end.

Definition example_icons : list (list jsstr) := (λ s, js <$> ["r"; "desktop"; "src-tauri"; "icons"; s]%string) <$> ["icon.ico"; "icon.png"]%string.

(** What is said of the files of a list, by computation. *)
Lemma listed_files (fs : node) (l : list (list jsstr)) (check : list jsstr → list Z → bool) :
  forallb (λ p, match readFile fs p with Returns b => check p b | Throws _ => true end) l = true →
  ∀ p bytes, p ∈ l → readFile fs p = Returns bytes → check p bytes = true.
Proof. intros Hall p bytes Hp%list_elem_of_In Hr. rewrite forallb_forall in Hall. specialize (Hall p Hp). by rewrite Hr in Hall. Qed.

Lemma example_presentable : presentable example_root example_made example_icons.
Proof.
  constructor.
  - decide_closed.
  - unfold of_code_units. decide_closed.
  - intros p bytes Hp Hr. apply Z.ltb_lt. revert p bytes Hp Hr.
    apply (listed_files _ _ (λ _ b, Z.of_nat (length b) <? 2 ^ 53)). vm_compute. reflexivity.
  - apply (listed_files _ _ (λ p b, magic_ok b (Some (JStr (mimeTypeFor (path_text p)))))). vm_compute. reflexivity.
  - eexists. split; [vm_compute; reflexivity|]. split; [vm_compute; reflexivity|].
    assert (∀ css, Forall (λ f, includes (js "/fonts/" ++ js (outputFile f)) css = true) FONTS →
      ∀ f, f ∈ FONTS → includes (js "/fonts/" ++ js (outputFile f)) css = true) as Hall by (intros css Hf; by apply Forall_forall).
    apply Hall. decide_closed.
  - vm_compute. reflexivity.
  - assert (∀ bytes, readFile example_made (fromRoot example_root MANIFEST_PATH) = Returns bytes → negb (names_user_path (utf8_text bytes)) = true) as Hall.
    { intros bytes. apply (listed_files example_made [fromRoot example_root MANIFEST_PATH] (λ _ b, negb (names_user_path (utf8_text b)))); [vm_compute; reflexivity|by left]. }
    intros bytes Hb. by apply negb_true_iff, Hall.
  - intros package Hp. exists (js "2.0.0"). split; [|apply wf_js].
    assert (readPackage example_root "@tauri-apps/cli" example_made = Returns
      (js <$> ["r"; "web"; "node_modules"; "@tauri-apps"; "cli"]%string,
       JObj [(js "name", JStr (js "cli")); (js "version", JStr (js "2.0.0")); (js "license", JStr (js "OFL-1.1"))])) as Heq by (vm_compute; reflexivity).
    rewrite Heq in Hp. apply Returns_inj in Hp. by rewrite <- Hp.
Qed.

Lemma generate_stays_inside_witness :
  node_at example_made (fromRoot example_root (js "web/src/index.css")) = node_at example_sources (fromRoot example_root (js "web/src/index.css")).
Proof.
  apply (generate_stays_inside example_sha256 example_sharp example_root Some (λ _, Some (js "RIFF1234WEBP")) (js "0.34") (js "8.17") example_tauri).
  - vm_compute. reflexivity.
  - decide_closed.
Defined.

Lemma generate_verifies_witness :
  generate example_sha256 example_sharp example_root Some (λ _, Some (js "RIFF1234WEBP")) (js "0.34") (js "8.17") example_tauri example_sources
    = Returns (example_made, 6%nat).
Proof.
  apply (generate_verifies example_sha256 example_sharp example_root Some (λ _, Some (js "RIFF1234WEBP")) (js "0.34") (js "8.17") example_tauri)
    with (icons := example_icons).
  - apply example_root_names.
  - intros bytes. apply wf_js.
  - intros bytes m Hm. assert (image_width m = Some 1024 ∧ image_height m = Some 1024) as [-> ->]; [|done].
    apply (inj Some) in Hm. rewrite <- Hm. by split.
  - apply wf_js.
  - apply wf_js.
  - vm_compute. reflexivity.
  - vm_compute. reflexivity.
  - apply example_presentable.
Defined.
