(* ===== verification/DashboardView.v ===== *)
(** The rendered dashboard: the queries of
    [web/src/pages/dashboard/DashboardPage.tsx] put through the core functions
    into the page of [Dashboard], and the cards and clusters it then shows
    ([Cards]). *)
From S2P Require Import Prelude JsCollections JsText NumText Types Observability Activity Resources Fleet FleetPolling Uri SandboxClusters Dashboard Cards.

(** ** From the queries to the page *)

(** The data and flags of the page's queries, the registry stored in the
    browser, what the effect of the last render remembered, and the address. *)
Record dashboard_queries := {
  list_data : option SandboxList;
  fast_data : option SandboxList;
  snapshot_data : option SnapshotResult;
  usage_data : option FleetResourcesResult;
  clusters_data : option (list SandboxClusterRecord);
  stored_clusters : list SandboxClusterRecord;
  list_pending : bool;
  clusters_pending : bool;
  list_failed : bool;
  fast_failed : bool;
  previousOrder : list jsstr;
  creation_logs : option (list jsstr);
  address : url_params;
}.

Section queries.
Context (q : dashboard_queries).

Definition lifecycle_active : bool := hasFleetActivity (list_data q) (snapshot_data q) (creation_logs q).
Definition shown_fleet : option SandboxList := dashboard_fleet (list_data q) (fast_data q) lifecycle_active (previousOrder q).
Definition clusterRegistry : list SandboxClusterRecord := clusters_data q ?? stored_clusters q.
Definition presentation : list ResolvedSandboxCluster * list SandboxRecord :=
  resolveSandboxClusters (records_of shown_fleet) clusterRegistry.

Definition page_input : dashboard_input :=
  {| page_fleet := shown_fleet; page_snapshot := snapshot_data q; page_clusters := presentation.1; page_params := address q;
     slowPending := list_pending q; clustersPending := clusters_pending q; slowError := list_failed q; fastError := fast_failed q;
     lifecycleActive := lifecycle_active; createLogs := creation_logs q |}.

(** ** What is rendered *)

Definition snapshotMap : gmap jsstr SandboxSnapshot := snapshotsBySandbox (snapshot_data q).
Definition currentUsage : gmap jsstr SandboxCurrentUsage := useFleetCurrentUsage (records_of shown_fleet) (usage_data q).

(** The logs of the creation under way belong to every card that is being
    created. *)
Definition card_logs (r : SandboxRecord) : option (list jsstr) :=
  if bool_decide (state r = creating) then creation_logs q else None.

Definition card_of (clusterId : option jsstr) (r : SandboxRecord) : option sandbox_card :=
  SandboxCard clusterId (card_logs r) r (snapshotMap !! id r) (currentUsage !! id r).

(** A cluster with the members found; collapsed it shows no cards. *)
Record cluster_section := {
  section_id : jsstr;
  section_count : jsstr;
  section_workspace : jsstr;
  section_ready : jsstr;
  section_complete : bool;
  section_toggle : jsstr;
  section_cards : list sandbox_card;
}.

Definition SandboxClusterCollection (collapsed : bool) (found : ClusterSearchResult) : option cluster_section :=
  let c := found_cluster found in
  let n := length (members c) in
  (λ cards,
    {| section_id := cluster_id (cluster c);
       section_count := Z_to_js (Z.of_nat n) ++ (if bool_decide (n = 1%nat) then js " sandbox" else js " sandboxes");
       section_workspace := if bool_decide (cluster_workspaceRoot (cluster c) = []) then UNKNOWN else cluster_workspaceRoot (cluster c);
       section_ready := readyLabel c;
       section_complete := bool_decide (readyCount c = n);
       section_toggle := (if collapsed then js "Expand " else js "Collapse ") ++ cluster_id (cluster c);
       section_cards := cards |}) <$> (if collapsed then Some [] else mapM (card_of None) (found_members found)).

Definition creation_text (logs : list jsstr) : jsstr :=
  if bool_decide (logs = []) then js "Starting" ++ [8230] else join [10] logs.

Definition emptyCopy `{CaseMapping} : jsstr :=
  let records := records_of shown_fleet in
  let filter := filter_of (address q) in
  let clusters := match activeView (address q) with view_cluster => true | view_sandbox => false end in
  if bool_decide (records = []) then js "Create your first sandbox to begin an isolated workspace."
  else if negb (bool_decide (filter = []))
       then js "No " ++ (if clusters then js "sandbox cluster" else js "sandbox") ++ js " matches " ++ [8220] ++ filter ++ [8221] ++
            js ". Try another ID, state, or workspace."
  else if clusters then js "Use Create sandbox and choose Cluster to create one or more sandboxes as a cluster."
  else js "Create a sandbox to begin an isolated workspace.".

(** The collection below the toolbar; [collapsed] is the state of each
    cluster's toggle. *)
Inductive collection :=
  | collection_loading (text : jsstr)
  | collection_unavailable
  | collection_empty (title copy : jsstr)
  | collection_sandboxes (cards : list sandbox_card) (creation : option jsstr)
  | collection_clusters (sections : list cluster_section).

Definition shown_collection `{CaseMapping} (collapsed : jsstr → bool) : option collection :=
  match body page_input with
  | body_loading => Some (collection_loading (if isClusterRegistryLoading page_input then js "Loading sandbox clusters" else js "Loading sandboxes"))
  | body_unavailable => Some collection_unavailable
  | body_empty title => Some (collection_empty title emptyCopy)
  | body_sandboxes records creation =>
      (λ cards, collection_sandboxes cards (creation_text <$> creation)) <$>
      mapM (λ r, card_of (clusterIdsBySandbox presentation.1 !! id r) r) records
  | body_clusters found =>
      collection_clusters <$> mapM (λ f, SandboxClusterCollection (collapsed (cluster_id (cluster (found_cluster f)))) f) found
  end.
End queries.

(** ** Facts *)

Lemma mapM_ids {A} (show : A → option sandbox_card) (key : A → jsstr) (l : list A) cards
    (Hshow : ∀ a c, show a = Some c → shown_id c = key a) :
  mapM show l = Some cards → shown_id <$> cards = key <$> l.
Proof.
  intros H%mapM_Some. induction H as [|a c l cards Hac _ IH]; [done|]. cbn. by rewrite IH, (Hshow a c Hac).
Qed.

Lemma card_of_id q clusterId r c : card_of q clusterId r = Some c → shown_id c = id r ∧ shown_membership c = membership_link clusterId.
Proof. unfold card_of, SandboxCard. cbv zeta. by intros (enc & _ & ->)%fmap_Some. Qed.

Lemma membership_link_inj c c' : c ≠ [] → membership_link (Some c) = membership_link c' → c' = Some c.
Proof.
  unfold membership_link. intros Hc. rewrite bool_decide_false by done. destruct c' as [c'|]; [|done].
  destruct (bool_decide_reflect (c' = [])); [done|]. congruence.
Qed.

(** The badge of a sandbox names the cluster that has it as a member. *)
Lemma clusterIds_spec clusters i c : NoDup (id <$> concat (members <$> clusters)) →
  clusterIdsBySandbox clusters !! i = Some c ↔ ∃ k, k ∈ clusters ∧ cluster_id (cluster k) = c ∧ i ∈ id <$> members k.
Proof.
  intros Hnd. unfold clusterIdsBySandbox.
  assert ((clusters ≫= λ c, (λ m, (id m, cluster_id (cluster c))) <$> members c).*1 = id <$> concat (members <$> clusters)) as Hkeys.
  { clear. induction clusters as [|k l IH]; [done|]. cbn [mbind list_bind fmap list_fmap concat]. rewrite !fmap_app.
    fold (mbind (M:=list) (λ c, (λ m, (id m, cluster_id (cluster c))) <$> members c) l). rewrite IH. f_equal.
    by rewrite <- list_fmap_compose. }
  split.
  - intros Hl%js_map_elem. apply list_elem_of_bind in Hl as (k & Hm & Hk). apply list_elem_of_fmap in Hm as (m & [= -> ->] & Hm).
    exists k. split_and!; [done..|]. by apply list_elem_of_fmap_2.
  - intros (k & Hk & <- & (m & -> & Hm)%list_elem_of_fmap). apply js_map_NoDup; [by rewrite Hkeys|].
    apply list_elem_of_bind. exists k. split; [|done]. apply list_elem_of_fmap. by exists m.
Qed.

Lemma visible_blank `{CaseMapping} filter snapshot clusters : trim filter = [] → Forall (λ c, members c ≠ []) clusters →
  visibleClusters filter snapshot clusters = (λ c, {| found_cluster := c; found_members := members c |}) <$> clusters.
Proof.
  intros Hblank Hne. unfold visibleClusters. induction Hne as [|c l Hc _ IH]; [done|]. cbn [omap list_omap fmap list_fmap].
  destruct (search_members_spec filter snapshot c) as (_ & Hall & _).
  destruct (search_cluster_cases filter snapshot c) as [[Hs _]|[_ ->]]; [rewrite Hall in Hs by auto; done|].
  rewrite Hall by auto. f_equal. apply IH.
Qed.

Section agree.
Context (q : dashboard_queries).
Hypothesis Hids : NoDup (id <$> records_of (currentFleetList (list_data q) (fast_data q) (lifecycle_active q))).

Lemma shown_ids : id <$> records_of (shown_fleet q) ≡ₚ id <$> records_of (currentFleetList (list_data q) (fast_data q) (lifecycle_active q)).
Proof. apply fmap_Permutation, stabilizeFleetList_permutation. Qed.

Lemma presentation_prefix : ∃ used, resolved_prefix (records_of (shown_fleet q)) (clusterRegistry q) ((presentation q).1, used).
Proof.
  pose proof (resolve_fold_prefix (records_of (shown_fleet q)) ltac:(by rewrite shown_ids) (clusterRegistry q)) as HP.
  unfold presentation, resolveSandboxClusters. destruct (foldl _ _ _) as [clusters used]. by exists used.
Qed.
End agree.

Lemma sandboxes_shown `{CaseMapping} q collapsed cards creation :
  shown_collection q collapsed = Some (collection_sandboxes cards creation) → trim (filter_of (address q)) = [] →
  mapM (λ r, card_of q (clusterIdsBySandbox (presentation q).1 !! id r) r) (records_of (shown_fleet q)) = Some cards.
Proof.
  unfold shown_collection, body. intros Hshown Hblank. destruct (_ || isClusterRegistryLoading _); [done|]. destruct (fleetError _ && _); [done|].
  destruct (isViewEmpty _ && _); [done|]. destruct (activeView _); [|by apply fmap_Some in Hshown as (? & _ & ?)].
  apply fmap_Some in Hshown as (cards' & Hcards & [= -> _]). unfold visibleSandboxes, filterFleetRecords in Hcards.
  rewrite bool_decide_true in Hcards by exact Hblank. exact Hcards.
Qed.

Lemma clusters_shown `{CaseMapping} q collapsed sections :
  shown_collection q collapsed = Some (collection_clusters sections) →
  mapM (λ f, SandboxClusterCollection q (collapsed (cluster_id (cluster (found_cluster f)))) f)
    (visibleClusters (filter_of (address q)) (snapshot_data q) (presentation q).1) = Some sections.
Proof.
  unfold shown_collection, body. intros Hshown. destruct (_ || isClusterRegistryLoading _); [done|]. destruct (fleetError _ && _); [done|].
  destruct (isViewEmpty _ && _); [done|]. destruct (activeView _); [by apply fmap_Some in Hshown as (? & _ & ?)|].
  by apply fmap_Some in Hshown as (sections' & Hs & [= ->]).
Qed.

Definition at_address (q : dashboard_queries) (params : url_params) : dashboard_queries :=
  {| list_data := list_data q; fast_data := fast_data q; snapshot_data := snapshot_data q; usage_data := usage_data q;
     clusters_data := clusters_data q; stored_clusters := stored_clusters q; list_pending := list_pending q;
     clusters_pending := clusters_pending q; list_failed := list_failed q; fast_failed := fast_failed q;
     previousOrder := previousOrder q; creation_logs := creation_logs q; address := params |}.

Lemma concat_ids (clusters : list ResolvedSandboxCluster) :
  concat ((λ k, id <$> members k) <$> clusters) = id <$> concat (members <$> clusters).
Proof. induction clusters as [|k l IH]; [done|]. cbn [fmap list_fmap concat]. by rewrite fmap_app, <- IH. Qed.

(** A section shows its cluster and the members found. *)
Lemma sections_of q clusters sections :
  mapM (SandboxClusterCollection q false) ((λ c, {| found_cluster := c; found_members := members c |}) <$> clusters) = Some sections →
  (λ s, (section_id s, shown_id <$> section_cards s)) <$> sections = (λ k, (cluster_id (cluster k), id <$> members k)) <$> clusters.
Proof.
  intros H%mapM_Some%Forall2_fmap_l. induction H as [|k s clusters sections Hs _ IH]; [done|].
  cbn [fmap list_fmap]. f_equal; [|exact IH]. unfold SandboxClusterCollection in Hs.
  apply fmap_Some in Hs as (cards & Hcards & ->). cbn [section_id section_cards found_cluster found_members] in *. f_equal.
  apply (mapM_ids (card_of q None) id); [|done]. intros r c Hc. by apply card_of_id in Hc as [? _].
Qed.

(** C39: The two views of the dashboard show the same fleet. With nothing
    searched for, the sandbox view has one card for each sandbox the gateway
    lists; the cluster view, expanded, shows no sandbox twice; and a card
    wears the badge of a cluster exactly when the cluster view shows the
    sandbox in the section of that cluster. *)
Theorem views_agree `{CaseMapping} q collapsed params cards creation sections
    (Hids : NoDup (id <$> records_of (currentFleetList (list_data q) (fast_data q) (lifecycle_active q))))
    (Hblank : trim (filter_of (address q)) = []) (Hblank' : trim (filter_of params) = [])
    (Hcards : shown_collection q collapsed = Some (collection_sandboxes cards creation))
    (Hsections : shown_collection (at_address q params) (λ _, false) = Some (collection_clusters sections)) :
  shown_id <$> cards ≡ₚ id <$> records_of (currentFleetList (list_data q) (fast_data q) (lifecycle_active q)) ∧
  NoDup (concat ((λ s, shown_id <$> section_cards s) <$> sections)) ∧
  ∀ card c, card ∈ cards → c ≠ [] →
    shown_membership card = membership_link (Some c) ↔
    ∃ s, s ∈ sections ∧ section_id s = c ∧ shown_id card ∈ shown_id <$> section_cards s.
Proof.
  apply sandboxes_shown in Hcards; [|done]. apply clusters_shown in Hsections.
  destruct (presentation_prefix q Hids) as [used [_ Hm Hnd Ho _]]. cbn [fst snd] in *.
  change (presentation (at_address q params)) with (presentation q) in Hsections.
  rewrite visible_blank in Hsections; [|done|by eapply Forall_impl; [exact Ho|intros k [? _]]].
  apply sections_of in Hsections. split_and!.
  - rewrite (mapM_ids _ id _ _ (λ r c Hc, proj1 (card_of_id _ _ _ _ Hc)) Hcards). by apply shown_ids.
  - replace ((λ s, shown_id <$> section_cards s) <$> sections) with ((λ k, id <$> members k) <$> (presentation q).1).
    + by rewrite concat_ids.
    + apply (f_equal (fmap snd)) in Hsections. by rewrite <- !list_fmap_compose in Hsections.
  - intros card c Hcard Hc. apply mapM_Some in Hcards. apply list_elem_of_lookup in Hcard as [j Hj].
    destruct (Forall2_lookup_r _ _ _ _ _ Hcards Hj) as (r & _ & Hr). apply card_of_id in Hr as [-> ->].
    transitivity (clusterIdsBySandbox (presentation q).1 !! id r = Some c).
    + split; [|by intros ->]. intros Hlink. by apply membership_link_inj.
    + rewrite clusterIds_spec by done. split.
      * intros (k & Hk & Hkc & Hi). apply (list_elem_of_fmap_2 (λ k, (cluster_id (cluster k), id <$> members k))) in Hk.
        rewrite <- Hsections in Hk. apply list_elem_of_fmap in Hk as (s & [= Hid Hcs] & Hs). exists s.
        split_and!; [done|congruence|by rewrite <- Hcs].
      * intros (s & Hs & Hsc & Hi). apply (list_elem_of_fmap_2 (λ s, (section_id s, shown_id <$> section_cards s))) in Hs.
        rewrite Hsections in Hs. apply list_elem_of_fmap in Hs as (k & [= Hid Hcs] & Hk). exists k.
        split_and!; [done|congruence|by rewrite <- Hcs].
Qed.

#[local] Existing Instance basic_latin.

Definition example_queries : dashboard_queries :=
  {| list_data := Some (example_list ["1"; "2"; "3"]%string); fast_data := None; snapshot_data := None; usage_data := None;
     clusters_data := Some [example_cluster "cluster-a" ["3"; "1"]%string]; stored_clusters := []; list_pending := false;
     clusters_pending := false; list_failed := false; fast_failed := false; previousOrder := []; creation_logs := None; address := [] |}.

Lemma views_agree_witness :
  ∃ cards sections,
    shown_collection example_queries (λ _, true) = Some (collection_sandboxes cards None) ∧
    shown_collection (at_address example_queries [(js "view", js "cluster")]) (λ _, false) = Some (collection_clusters sections) ∧
    shown_id <$> cards ≡ₚ js <$> ["1"; "2"; "3"]%string ∧ section_id <$> sections = [js "cluster-a"].
Proof.
  eexists _, _. split; [vm_compute; reflexivity|]. split; [vm_compute; reflexivity|]. split; [|reflexivity].
  refine (proj1 (views_agree example_queries (λ _, true) [(js "view", js "cluster")] _ None _ _ _ _ _ _)).
  - decide_closed.
  - reflexivity.
  - reflexivity.
  - vm_compute. reflexivity.
  - vm_compute. reflexivity.
Defined.
