(* ===== verification/FleetBoard.v ===== *)
(** The dashboard over time ([web/src/pages/dashboard/DashboardPage.tsx]): its
    queries, which start, are answered and fail, the creation whose log it
    follows, the address and the search field, and what each render memoises
    and remembers. What a render shows is the page of [DashboardView]. *)
From S2P Require Import Prelude JsCollections JsText Json Types Observability Poll Fleet SandboxClusters Uri Dashboard DashboardView.

(** ** State *)

(** Which array the list comes from: the slow query's, the fast one's or none,
    with the number of the answer that brought it (an answer with equal data
    keeps the array). *)
Inductive fleet_source := no_list | slow_list (n : nat) | fast_list (n : nat).

#[export] Instance fleet_source_eq_dec : EqDecision fleet_source.
Proof. solve_decision. Defined.

Record fleet_board := {
  page_queries : dashboard_queries;
  slow_answers : nat;
  fast_answers : nat;
  slow_out : bool;
  fast_out : bool;
  memo : option (fleet_source * option SandboxList);
  searching : bool;
  told : DashboardConnectionState;
}.

Definition with_queries (q : dashboard_queries) (b : fleet_board) : fleet_board :=
  {| page_queries := q; slow_answers := slow_answers b; fast_answers := fast_answers b; slow_out := slow_out b; fast_out := fast_out b;
     memo := memo b; searching := searching b; told := told b |}.

Definition set_slow (n : nat) (out : bool) (b : fleet_board) : fleet_board :=
  {| page_queries := page_queries b; slow_answers := n; fast_answers := fast_answers b; slow_out := out; fast_out := fast_out b;
     memo := memo b; searching := searching b; told := told b |}.

Definition set_fast (n : nat) (out : bool) (b : fleet_board) : fleet_board :=
  {| page_queries := page_queries b; slow_answers := slow_answers b; fast_answers := n; slow_out := slow_out b; fast_out := out;
     memo := memo b; searching := searching b; told := told b |}.

Definition set_searching (focus : bool) (b : fleet_board) : fleet_board :=
  {| page_queries := page_queries b; slow_answers := slow_answers b; fast_answers := fast_answers b; slow_out := slow_out b;
     fast_out := fast_out b; memo := memo b; searching := focus; told := told b |}.

(** The parts of the queries that an event changes. *)
Definition with_slow (data : option SandboxList) (pending failed : bool) (q : dashboard_queries) : dashboard_queries :=
  {| list_data := data; fast_data := fast_data q; snapshot_data := snapshot_data q; usage_data := usage_data q;
     clusters_data := clusters_data q; stored_clusters := stored_clusters q; list_pending := pending;
     clusters_pending := clusters_pending q; list_failed := failed; fast_failed := fast_failed q; previousOrder := previousOrder q;
     creation_logs := creation_logs q; address := address q |}.

Definition with_fast (data : option SandboxList) (failed : bool) (q : dashboard_queries) : dashboard_queries :=
  {| list_data := list_data q; fast_data := data; snapshot_data := snapshot_data q; usage_data := usage_data q;
     clusters_data := clusters_data q; stored_clusters := stored_clusters q; list_pending := list_pending q;
     clusters_pending := clusters_pending q; list_failed := list_failed q; fast_failed := failed; previousOrder := previousOrder q;
     creation_logs := creation_logs q; address := address q |}.

Definition with_observed (snapshot : option SnapshotResult) (usage : option FleetResourcesResult) (q : dashboard_queries) : dashboard_queries :=
  {| list_data := list_data q; fast_data := fast_data q; snapshot_data := snapshot; usage_data := usage;
     clusters_data := clusters_data q; stored_clusters := stored_clusters q; list_pending := list_pending q;
     clusters_pending := clusters_pending q; list_failed := list_failed q; fast_failed := fast_failed q; previousOrder := previousOrder q;
     creation_logs := creation_logs q; address := address q |}.

Definition with_clusters (data : option (list SandboxClusterRecord)) (stored : list SandboxClusterRecord) (pending : bool)
    (q : dashboard_queries) : dashboard_queries :=
  {| list_data := list_data q; fast_data := fast_data q; snapshot_data := snapshot_data q; usage_data := usage_data q;
     clusters_data := data; stored_clusters := stored; list_pending := list_pending q;
     clusters_pending := pending; list_failed := list_failed q; fast_failed := fast_failed q; previousOrder := previousOrder q;
     creation_logs := creation_logs q; address := address q |}.

Definition with_creation (logs : option (list jsstr)) (q : dashboard_queries) : dashboard_queries :=
  {| list_data := list_data q; fast_data := fast_data q; snapshot_data := snapshot_data q; usage_data := usage_data q;
     clusters_data := clusters_data q; stored_clusters := stored_clusters q; list_pending := list_pending q;
     clusters_pending := clusters_pending q; list_failed := list_failed q; fast_failed := fast_failed q; previousOrder := previousOrder q;
     creation_logs := logs; address := address q |}.

Definition with_order (order : list jsstr) (q : dashboard_queries) : dashboard_queries :=
  {| list_data := list_data q; fast_data := fast_data q; snapshot_data := snapshot_data q; usage_data := usage_data q;
     clusters_data := clusters_data q; stored_clusters := stored_clusters q; list_pending := list_pending q;
     clusters_pending := clusters_pending q; list_failed := list_failed q; fast_failed := fast_failed q; previousOrder := order;
     creation_logs := creation_logs q; address := address q |}.

(** ** The queries *)

Definition list_options : PollOptions :=
  {| option_mode := λ _, Some poll_slow; option_enabled := λ _, None; option_retry := None; option_focus := None |}.

Definition fast_options (q : dashboard_queries) : PollOptions :=
  {| option_mode := λ _, Some poll_fast; option_enabled := λ _, Some (lifecycle_active q); option_retry := None; option_focus := None |}.

(** One fetch of a query is under way at a time. A query without data is
    pending again, without its error, while it is fetched. *)
Definition slow_starts (b : fleet_board) : fleet_board :=
  let q := page_queries b in
  if config_enabled (usePoll list_options) None && negb (slow_out b)
  then set_slow (slow_answers b) true
         (with_queries (match list_data q with Some _ => q | None => with_slow None true false q end) b)
  else b.

Definition slow_settles (data : option SandboxList) (pending failed : bool) (n : nat) (b : fleet_board) : fleet_board :=
  if slow_out b then set_slow n false (with_queries (with_slow data pending failed (page_queries b)) b) else b.

Definition slow_answered (l : SandboxList) (b : fleet_board) : fleet_board := slow_settles (Some l) false false (S (slow_answers b)) b.

(** The answer equals the data held, which is kept. *)
Definition slow_unchanged (b : fleet_board) : fleet_board :=
  match list_data (page_queries b) with Some l => slow_settles (Some l) false false (slow_answers b) b | None => b end.

Definition slow_failed (b : fleet_board) : fleet_board := slow_settles (list_data (page_queries b)) false true (slow_answers b) b.

Definition fast_starts (b : fleet_board) : fleet_board :=
  let q := page_queries b in
  if config_enabled (usePoll (fast_options q)) None && negb (fast_out b)
  then set_fast (fast_answers b) true (with_queries (match fast_data q with Some _ => q | None => with_fast None false q end) b)
  else b.

Definition fast_settles (data : option SandboxList) (failed : bool) (n : nat) (b : fleet_board) : fleet_board :=
  if fast_out b then set_fast n false (with_queries (with_fast data failed (page_queries b)) b) else b.

Definition fast_answered (l : SandboxList) (b : fleet_board) : fleet_board := fast_settles (Some l) false (S (fast_answers b)) b.

Definition fast_unchanged (b : fleet_board) : fleet_board :=
  match fast_data (page_queries b) with Some l => fast_settles (Some l) false (fast_answers b) b | None => b end.

Definition fast_fails (b : fleet_board) : fleet_board := fast_settles (fast_data (page_queries b)) true (fast_answers b) b.

(** ** A render *)

Definition source_of (b : fleet_board) : fleet_source :=
  let q := page_queries b in
  let slow := match list_data q with Some _ => slow_list (slow_answers b) | None => no_list end in
  if lifecycle_active q then match fast_data q with Some _ => fast_list (fast_answers b) | None => slow end else slow.

(** The list shown: that of the memo, unless the source is another. *)
Definition memo_fleet (b : fleet_board) : option (option SandboxList) :=
  match memo b with
  | Some (s, fleet) => if bool_decide (s = source_of b) then Some fleet else None
  | None => None
  end.

(** The page with this list. *)
Definition input_with (fleet : option SandboxList) (q : dashboard_queries) : dashboard_input :=
  {| page_fleet := fleet; page_snapshot := snapshot_data q;
     page_clusters := (resolveSandboxClusters (records_of fleet) (clusterRegistry q)).1; page_params := address q;
     slowPending := list_pending q; clustersPending := clusters_pending q; slowError := list_failed q; fastError := fast_failed q;
     lifecycleActive := lifecycle_active q; createLogs := creation_logs q |}.

(** The render and its effects: a list computed anew is remembered with its
    order, and the frame is told of the connection. *)
Definition render_board (b : fleet_board) : fleet_board :=
  let q := page_queries b in
  let fleet := memo_fleet b ?? shown_fleet q in
  {| page_queries := match memo_fleet b with Some _ => q | None => with_order (remembered_order fleet) q end;
     slow_answers := slow_answers b; fast_answers := fast_answers b; slow_out := slow_out b; fast_out := fast_out b;
     memo := Some (source_of b, fleet); searching := searching b; told := connection (input_with fleet q) |}.

Definition board_fleet (b : fleet_board) : option SandboxList := match memo b with Some (_, fleet) => fleet | None => None end.

Definition board_records (b : fleet_board) : list SandboxRecord := records_of (board_fleet b).

(** ** Events *)

(** The clusters are those of [ClusterSync], listed or only stored. A key goes to the search field when it has the focus, to another field, or
    to the page. *)
Inductive board_event :=
  | Render
  | SlowStarts | SlowAnswered (l : SandboxList) | SlowUnchanged | SlowFailed
  | FastStarts | FastAnswered (l : SandboxList) | FastUnchanged | FastFailed
  | Observed (snapshot : option SnapshotResult) (usage : option FleetResourcesResult)
  | ClustersListed (data stored : list SandboxClusterRecord)
  | ClustersStored (stored : list SandboxClusterRecord)
  | Streams (logs : option (list jsstr))
  | Types (value : jsstr)
  | Chooses (v : DashboardView)
  | Presses (key : jsstr) (modifier elsewhere : bool)
  | FocusMoves (into_search : bool).

Definition press_board (key : jsstr) (modifier elsewhere : bool) (b : fleet_board) : fleet_board :=
  if searching b then (if bool_decide (key = js "Escape") then set_searching false b else b)
  else if focuses_search {| shortcut := key; has_modifier := modifier; in_text_field := elsewhere |} then set_searching true b
  else b.

Definition board_step (b : fleet_board) (e : board_event) : fleet_board :=
  let q := page_queries b in
  match e with
  | Render => render_board b
  | SlowStarts => slow_starts b
  | SlowAnswered l => slow_answered l b
  | SlowUnchanged => slow_unchanged b
  | SlowFailed => slow_failed b
  | FastStarts => fast_starts b
  | FastAnswered l => fast_answered l b
  | FastUnchanged => fast_unchanged b
  | FastFailed => fast_fails b
  | Observed snapshot usage => with_queries (with_observed snapshot usage q) b
  | ClustersListed data stored => with_queries (with_clusters (Some data) stored false q) b
  | ClustersStored stored => with_queries (with_clusters (clusters_data q) stored (clusters_pending q) q) b
  | Streams logs => with_queries (with_creation logs q) b
  | Types value => if searching b then with_queries (at_address q (updateFilter value (address q))) b else b
  | Chooses v => with_queries (at_address q (updateView v (address q))) b
  | Presses key modifier elsewhere => press_board key modifier elsewhere b
  | FocusMoves into_search => set_searching into_search b
  end.

Definition board_run (b : fleet_board) (es : list board_event) : fleet_board := foldl board_step b es.

(** Mounted, before any answer; the creation under way is the frame's. *)
Definition initial_board (params : url_params) (logs : option (list jsstr)) (stored : list SandboxClusterRecord) : fleet_board :=
  {| page_queries := {| list_data := None; fast_data := None; snapshot_data := None; usage_data := None; clusters_data := None;
       stored_clusters := stored; list_pending := true; clusters_pending := true; list_failed := false; fast_failed := false;
       previousOrder := []; creation_logs := logs; address := params |};
     slow_answers := 0; fast_answers := 0; slow_out := false; fast_out := false; memo := None; searching := false; told := connecting |}.

(** ** Facts: the memo *)

(** The answers of the gateway name each sandbox once. *)
Definition unique (data : option SandboxList) : Prop := NoDup (id <$> records_of data).

Definition answers_unique (e : board_event) : Prop :=
  match e with SlowAnswered l | FastAnswered l => NoDup (id <$> sandboxes l) | _ => True end.

Lemma stable_order_self (l l' : list SandboxRecord) :
  NoDup (id <$> l) → l' ≡ₚ l → omap (λ k, js_find (λ r, bool_decide (id r = k)) l) (id <$> l') = l'.
Proof.
  intros Hl Hp. assert (∀ r, r ∈ l' → r ∈ l) as Hin by (intros r; by rewrite Hp). clear Hp.
  induction l' as [|r l' IH]; [done|]. cbn [fmap list_fmap omap list_omap].
  assert (js_find (λ r', bool_decide (id r' = id r)) l = Some r) as ->.
  { apply find_by_id; [done|]. split; [|done]. apply Hin. by left. }
  f_equal. apply IH. intros r' ?. apply Hin. by right.
Qed.

Lemma js_filter_none {A} (p : A → bool) (l : list A) : (∀ x, x ∈ l → p x = false) → js_filter p l = [].
Proof. intros H. apply elem_of_nil_inv. intros x [Hx Hp]%js_filter_elem. by rewrite H in Hp. Qed.

(** Arranging a list by the order it was arranged in changes nothing. *)
Lemma stabilize_again data previous : NoDup previous → unique data →
  stabilizeFleetList data (remembered_order (stabilizeFleetList data previous)) = stabilizeFleetList data previous.
Proof.
  intros Hp Hu. destruct data as [l|]; [|done]. pose proof (stabilizeFleetList_permutation (Some l) previous) as Hperm.
  pose proof (remembered_NoDup previous l Hp Hu) as Hnd.
  destruct (stabilizeFleetList (Some l) previous) as [l'|] eqn:Hs; [|unfold stabilizeFleetList in Hs; by destruct (bool_decide _)].
  unfold remembered_order in *. change (records_of (Some l')) with (sandboxes l') in *. change (records_of (Some l)) with (sandboxes l) in *.
  unfold stabilizeFleetList. case_bool_decide as Hnil.
  - apply fmap_nil_inv in Hnil. rewrite Hnil in Hperm. apply Permutation_nil_l in Hperm. destruct l, l'. cbn in *. congruence.
  - rewrite sort_stable_order by done. f_equal. destruct l' as [l']. cbn [sandboxes] in *. f_equal. unfold stable_order.
    rewrite stable_order_self by done. rewrite js_filter_none; [by rewrite app_nil_r|].
    intros r Hr. rewrite negb_false_iff, bool_decide_eq_true. apply list_elem_of_fmap_2. by rewrite Hperm.
Qed.

(** The list that the source stands for. *)
Definition current_list (b : fleet_board) : option SandboxList :=
  let q := page_queries b in currentFleetList (list_data q) (fast_data q) (lifecycle_active q).

Definition source_list (s : fleet_source) (b : fleet_board) : option SandboxList :=
  match s with no_list => None | slow_list _ => list_data (page_queries b) | fast_list _ => fast_data (page_queries b) end.

(** A source that still stands for what its query holds. *)
Definition source_current (s : fleet_source) (b : fleet_board) : Prop :=
  match s with no_list => True | slow_list n => n = slow_answers b | fast_list n => n = fast_answers b end.

Definition source_past (s : fleet_source) (b : fleet_board) : Prop :=
  match s with no_list => True | slow_list n => (n ≤ slow_answers b)%nat | fast_list n => (n ≤ fast_answers b)%nat end.

Lemma source_of_current b : source_current (source_of b) b.
Proof. unfold source_of. cbv zeta. destruct (lifecycle_active (page_queries b)), (fast_data (page_queries b)), (list_data (page_queries b)); done. Qed.

Lemma source_of_list b : source_list (source_of b) b = current_list b.
Proof.
  unfold source_of, current_list, currentFleetList. cbv zeta.
  destruct (lifecycle_active (page_queries b)), (fast_data (page_queries b)) eqn:?, (list_data (page_queries b)) eqn:?; cbn [source_list]; congruence.
Qed.

(** What every event keeps: the lists held name each sandbox once, the order
    remembered is that of the memo, and a memo whose source still stands is
    what arranging that list anew would give. *)
Record board_ok (b : fleet_board) : Prop := {
  ok_slow : unique (list_data (page_queries b));
  ok_fast : unique (fast_data (page_queries b));
  ok_NoDup : NoDup (previousOrder (page_queries b));
  ok_order : previousOrder (page_queries b) = remembered_order (board_fleet b);
  ok_memo : ∀ s fleet, memo b = Some (s, fleet) → source_past s b ∧
    (source_current s b → fleet = stabilizeFleetList (source_list s b) (previousOrder (page_queries b)));
}.

Lemma unique_current b : board_ok b → unique (current_list b).
Proof.
  intros [Hs Hf _ _ _]. unfold current_list, currentFleetList. destruct (lifecycle_active _); [|done].
  destruct (fast_data _) eqn:?; [|done]. congruence.
Qed.

(** The fleet of a render is the one computed from the queries. *)
Lemma render_fleet b : board_ok b → memo_fleet b ?? shown_fleet (page_queries b) = shown_fleet (page_queries b).
Proof.
  intros Hok. unfold memo_fleet. destruct (memo b) as [[s fleet]|] eqn:Hm; [|done]. case_bool_decide as Hs; [|done].
  cbn. destruct (ok_memo _ Hok s fleet Hm) as [_ Hf]. subst s. rewrite source_of_list in Hf. apply Hf, source_of_current.
Qed.

Lemma render_queries b : board_ok b →
  page_queries (render_board b) = with_order (remembered_order (shown_fleet (page_queries b))) (page_queries b).
Proof.
  intros Hok. pose proof (render_fleet b Hok) as Hf. unfold render_board. cbn [page_queries].
  destruct (memo_fleet b) as [fleet|] eqn:Hm; [|by rewrite <- Hf]. cbn in Hf. rewrite <- Hf.
  assert (board_fleet b = fleet) as Hb.
  { unfold memo_fleet in Hm. unfold board_fleet. destruct (memo b) as [[s f]|]; [|done]. by destruct (bool_decide _); simplify_eq. }
  pose proof (ok_order _ Hok) as Ho. rewrite Hb in Ho. rewrite <- Ho. by destruct (page_queries b).
Qed.

(** ** Facts: what every event keeps *)

(** The lists, their numbers, the order and the memo are all that counts. *)
Lemma board_ok_same b b' :
  list_data (page_queries b') = list_data (page_queries b) → fast_data (page_queries b') = fast_data (page_queries b) →
  previousOrder (page_queries b') = previousOrder (page_queries b) → slow_answers b' = slow_answers b →
  fast_answers b' = fast_answers b → memo b' = memo b → board_ok b → board_ok b'.
Proof.
  intros Hl Hf Ho Hs Hn Hm [H1 H2 H3 H4 H5]. constructor; [by rewrite Hl|by rewrite Hf|by rewrite Ho| |].
  - unfold board_fleet. by rewrite Ho, Hm.
  - intros s fleet Hmemo. rewrite Hm in Hmemo. specialize (H5 s fleet Hmemo).
    destruct s; cbn [source_past source_current source_list] in *; congruence.
Qed.

Lemma slow_starts_ok b : board_ok b → board_ok (slow_starts b).
Proof.
  apply board_ok_same; unfold slow_starts; destruct (slow_out b); cbn; try done; destruct (list_data (page_queries b)) eqn:?; done.
Qed.

Lemma enabled_fast q : config_enabled (usePoll (fast_options q)) None = lifecycle_active q.
Proof. reflexivity. Qed.

Lemma fast_starts_ok b : board_ok b → board_ok (fast_starts b).
Proof.
  apply board_ok_same; unfold fast_starts; rewrite enabled_fast;
    destruct (lifecycle_active (page_queries b)), (fast_out b); cbn; try done; destruct (fast_data (page_queries b)) eqn:?; done.
Qed.

Lemma slow_settles_ok data pending failed n b :
  unique data → (n = S (slow_answers b) ∨ n = slow_answers b ∧ data = list_data (page_queries b)) →
  board_ok b → board_ok (slow_settles data pending failed n b).
Proof.
  intros Hu Hn Hok. unfold slow_settles. destruct (slow_out b); [|done].
  destruct Hok as [H1 H2 H3 H4 H5]. constructor; cbn; try done.
  intros s fleet Hm. specialize (H5 s fleet Hm).
  destruct s as [|k|k]; cbn [source_past source_current source_list slow_answers fast_answers set_slow with_queries page_queries
    with_slow list_data fast_data] in *; [done| |done].
  destruct H5 as [Hle Hfl]. destruct Hn as [->|[-> ->]]; [|done]. split; lia.
Qed.

Lemma fast_settles_ok data failed n b :
  unique data → (n = S (fast_answers b) ∨ n = fast_answers b ∧ data = fast_data (page_queries b)) →
  board_ok b → board_ok (fast_settles data failed n b).
Proof.
  intros Hu Hn Hok. unfold fast_settles. destruct (fast_out b); [|done].
  destruct Hok as [H1 H2 H3 H4 H5]. constructor; cbn; try done.
  intros s fleet Hm. specialize (H5 s fleet Hm).
  destruct s as [|k|k]; cbn [source_past source_current source_list slow_answers fast_answers set_fast with_queries page_queries
    with_fast list_data fast_data] in *; [done..|].
  destruct H5 as [Hle Hfl]. destruct Hn as [->|[-> ->]]; [|done]. split; lia.
Qed.

Lemma stabilized_NoDup data previous : NoDup previous → unique data → NoDup (remembered_order (stabilizeFleetList data previous)).
Proof. destruct data as [l|]; [apply remembered_NoDup|intros _ _; constructor]. Qed.

Lemma shown_current b : shown_fleet (page_queries b) = stabilizeFleetList (current_list b) (previousOrder (page_queries b)).
Proof. reflexivity. Qed.

Lemma render_ok b : board_ok b → board_ok (render_board b).
Proof.
  intros Hok. pose proof (render_queries b Hok) as Hq. pose proof (render_fleet b Hok) as Hf.
  pose proof (unique_current b Hok) as Hu. destruct Hok as [H1 H2 H3 _ _].
  assert (board_fleet (render_board b) = shown_fleet (page_queries b)) as Hb by exact Hf.
  constructor; rewrite ?Hq; cbn [list_data fast_data previousOrder with_order]; [done|done| |by rewrite Hb|].
  - rewrite shown_current. by apply stabilized_NoDup.
  - intros s fleet [= <- <-]. rewrite Hf. split.
    + pose proof (source_of_current b) as Hs. destruct (source_of b); cbn in *; lia.
    + intros _. assert (source_list (source_of b) (render_board b) = current_list b) as ->.
      { rewrite <- source_of_list. destruct (source_of b); cbn [source_list]; [done|by rewrite Hq..]. }
      rewrite shown_current. symmetry. by apply stabilize_again.
Qed.

Lemma board_step_ok b e : answers_unique e → board_ok b → board_ok (board_step b e).
Proof.
  intros Hu Hok. destruct e; cbn [board_step answers_unique] in *.
  - by apply render_ok.
  - by apply slow_starts_ok.
  - apply slow_settles_ok; auto.
  - unfold slow_unchanged. destruct (list_data (page_queries b)) as [l|] eqn:Hl; [|done].
    apply slow_settles_ok; [rewrite <- Hl; apply Hok|auto|done].
  - apply slow_settles_ok; [apply Hok|auto|done].
  - by apply fast_starts_ok.
  - apply fast_settles_ok; auto.
  - unfold fast_unchanged. destruct (fast_data (page_queries b)) as [l|] eqn:Hl; [|done].
    apply fast_settles_ok; [rewrite <- Hl; apply Hok|auto|done].
  - apply fast_settles_ok; [apply Hok|auto|done].
  - by apply (board_ok_same b).
  - by apply (board_ok_same b).
  - by apply (board_ok_same b).
  - by apply (board_ok_same b).
  - destruct (searching b); [|done]. by apply (board_ok_same b).
  - by apply (board_ok_same b).
  - unfold press_board. destruct (searching b); [destruct (bool_decide _)|destruct (focuses_search _)]; [|done| |done]; by apply (board_ok_same b).
  - by apply (board_ok_same b).
Qed.

Lemma board_run_ok b es : Forall answers_unique es → board_ok b → board_ok (board_run b es).
Proof. intros Hes. revert b. induction Hes as [|e es He _ IH]; intros b Hok; [done|]. apply IH. by apply board_step_ok. Qed.

Lemma initial_board_ok params logs stored : board_ok (initial_board params logs stored).
Proof. constructor; cbn; [constructor..|done|done]. Qed.

(** ** Facts: a render, and the cards that stay *)

Lemma shown_again b : board_ok b → shown_fleet (page_queries (render_board b)) = shown_fleet (page_queries b).
Proof.
  intros Hok. rewrite render_queries by done. rewrite !shown_current. apply stabilize_again; [apply Hok|by apply unique_current].
Qed.

Lemma render_records b : board_ok b → board_records (render_board b) ≡ₚ records_of (current_list b).
Proof.
  intros Hok. unfold board_records. change (board_fleet (render_board b)) with (memo_fleet b ?? shown_fleet (page_queries b)).
  rewrite render_fleet by done. rewrite shown_current. apply stabilizeFleetList_permutation.
Qed.

(** Both sandboxes are in every list held. *)
Definition both (a c : jsstr) (l : SandboxList) : Prop := a ∈ id <$> sandboxes l ∧ c ∈ id <$> sandboxes l.

Definition answers_both (a c : jsstr) (e : board_event) : Prop :=
  match e with SlowAnswered l | FastAnswered l => both a c l | _ => True end.

Record board_holds (a c : jsstr) (b : fleet_board) : Prop := {
  holds_slow : ∃ l, list_data (page_queries b) = Some l ∧ both a c l;
  holds_fast : ∀ l, fast_data (page_queries b) = Some l → both a c l;
  holds_order : [a; c] `sublist_of` previousOrder (page_queries b);
}.

Lemma holds_same a c b b' :
  list_data (page_queries b') = list_data (page_queries b) → fast_data (page_queries b') = fast_data (page_queries b) →
  previousOrder (page_queries b') = previousOrder (page_queries b) → board_holds a c b → board_holds a c b'.
Proof. intros Hl Hf Ho [H1 H2 H3]. constructor; [by rewrite Hl|intros l Hd; apply H2; congruence|by rewrite Ho]. Qed.

Lemma holds_settles a c b :
  (∀ data pending failed n l, data = Some l → both a c l → board_holds a c b → board_holds a c (slow_settles data pending failed n b)) ∧
  (∀ data failed n, (∀ l, data = Some l → both a c l) → board_holds a c b → board_holds a c (fast_settles data failed n b)).
Proof.
  split; [intros data pending failed n l -> Hl [H1 H2 H3]; unfold slow_settles; destruct (slow_out b)
         |intros data failed n Hd [H1 H2 H3]; unfold fast_settles; destruct (fast_out b)]; constructor; cbn; eauto.
Qed.

Lemma render_holds a c b : board_ok b → board_holds a c b → board_holds a c (render_board b).
Proof.
  intros Hok [H1 H2 H3]. constructor; rewrite render_queries by done; [done..|]. cbn [previousOrder with_order]. rewrite shown_current.
  assert (∃ l, current_list b = Some l ∧ both a c l) as (l & Hl & Ha & Hc).
  { unfold current_list, currentFleetList. destruct (lifecycle_active _); [|done].
    destruct (fast_data _) as [l|] eqn:Hf; [|done]. exists l. auto. }
  pose proof (unique_current b Hok) as Hu. rewrite Hl in *. apply remembered_pair; [apply Hok|exact Hu|done..].
Qed.

Lemma step_holds a c b e : board_ok b → answers_both a c e → board_holds a c b → board_holds a c (board_step b e).
Proof.
  intros Hok He Hb. destruct (holds_settles a c b) as [Hslow Hfast]. destruct (holds_slow _ _ _ Hb) as (l0 & Hl0 & Hboth).
  destruct e; cbn [board_step answers_both] in *.
  - by apply render_holds.
  - unfold slow_starts. rewrite Hl0. destruct (_ && _); [|done]. by apply (holds_same a c b).
  - by eapply Hslow.
  - unfold slow_unchanged. rewrite Hl0. by eapply Hslow.
  - by eapply Hslow.
  - unfold fast_starts. destruct (_ && _); [|done]. destruct (fast_data (page_queries b)) eqn:Hf; by apply (holds_same a c b).
  - apply Hfast; [|done]. by intros ? [= <-].
  - unfold fast_unchanged. destruct (fast_data (page_queries b)) as [l|] eqn:Hf; [|done]. apply Hfast; [|done].
    intros ? [= <-]. by apply Hb.
  - apply Hfast; [|done]. apply Hb.
  - by apply (holds_same a c b).
  - by apply (holds_same a c b).
  - by apply (holds_same a c b).
  - by apply (holds_same a c b).
  - destruct (searching b); [|done]. by apply (holds_same a c b).
  - by apply (holds_same a c b).
  - unfold press_board. destruct (searching b); [destruct (bool_decide _)|destruct (focuses_search _)]; [|done| |done]; by apply (holds_same a c b).
  - by apply (holds_same a c b).
Qed.

(** ** Facts: a list that is not asked for *)

(** Nothing brings the fast query another answer, and the creation goes on. *)
Definition creation_goes_on (e : board_event) : Prop :=
  match e with FastAnswered _ | Streams None => False | _ => True end.

Record board_creating (old : SandboxList) (b : fleet_board) : Prop := {
  creating_fast : fast_data (page_queries b) = Some old;
  creating_logs : is_Some (creation_logs (page_queries b));
}.

Lemma creating_current old b : board_creating old b → current_list b = Some old.
Proof.
  intros [Hf Hlogs]. unfold current_list, lifecycle_active, hasFleetActivity. rewrite bool_decide_true by done. cbn. by rewrite Hf.
Qed.

Lemma step_creating old b e : creation_goes_on e → board_creating old b → board_creating old (board_step b e).
Proof.
  intros He [Hf Hl]. destruct e as [| | | | | | | | | | | |logs| | | |]; cbn [board_step creation_goes_on] in *; try done.
  - unfold render_board. constructor; cbn [page_queries]; by destruct (memo_fleet b).
  - unfold slow_starts. destruct (_ && _); [|done]. constructor; cbn; by destruct (list_data (page_queries b)).
  - unfold slow_answered, slow_settles. by destruct (slow_out b).
  - unfold slow_unchanged, slow_settles. destruct (list_data (page_queries b)); [|done]. by destruct (slow_out b).
  - unfold slow_failed, slow_settles. by destruct (slow_out b).
  - unfold fast_starts. rewrite Hf. by destruct (_ && _).
  - unfold fast_unchanged, fast_settles. rewrite Hf. by destruct (fast_out b).
  - unfold fast_fails, fast_settles. rewrite Hf. by destruct (fast_out b).
  - by destruct logs.
  - by destruct (searching b).
  - unfold press_board. destruct (searching b); [by destruct (bool_decide _)|by destruct (focuses_search _)].
Qed.

(** ** Theorems *)

Definition mounted_board (params : url_params) (logs : option (list jsstr)) (stored : list SandboxClusterRecord)
    (es : list board_event) : fleet_board := board_run (initial_board params logs stored) es.

(** What a render of the dashboard shows, after any events, is the page of
    [DashboardView] with the queries as they are, although the list is
    memoised and the order is remembered from render to render: the records
    are those of the list that stands (the slow query's when nothing is under
    way), each once, and the frame is told the connection the page shows. *)
Theorem board_in_step params logs stored es (Hes : Forall answers_unique es) :
  let b := render_board (mounted_board params logs stored es) in
  board_fleet b = shown_fleet (page_queries b) ∧
  board_records b ≡ₚ records_of (current_list b) ∧
  NoDup (id <$> board_records b) ∧
  told b = connection (page_input (page_queries b)) ∧
  (lifecycle_active (page_queries b) = false → board_records b ≡ₚ records_of (list_data (page_queries b))).
Proof.
  cbv zeta. unfold mounted_board. set (b := board_run _ es).
  assert (board_ok b) as Hok by apply (board_run_ok _ es Hes), initial_board_ok.
  assert (current_list (render_board b) = current_list b) as Hcur.
  { unfold current_list. by rewrite render_queries. }
  assert (board_records (render_board b) ≡ₚ records_of (current_list b)) as Hp by by apply render_records.
  assert (board_fleet (render_board b) = shown_fleet (page_queries b)) as Hf by by apply render_fleet.
  split; [|split; [|split; [|split]]].
  - by rewrite shown_again.
  - by rewrite Hcur.
  - rewrite Hp. by apply unique_current.
  - unfold page_input, presentation. rewrite shown_again by done. rewrite render_queries by done.
    unfold render_board. cbn [told]. by rewrite render_fleet.
  - intros Hrest. rewrite Hp, <- Hcur. unfold current_list, currentFleetList. by rewrite Hrest.
Qed.

Definition two_lists : list board_event :=
  [SlowStarts; Render; SlowAnswered (example_list ["a"; "b"]%string); Render; Streams (Some []); FastStarts; Render;
   FastAnswered (example_list ["c"; "b"; "a"]%string); Render; Streams None].

Lemma board_in_step_witness :
  let b := render_board (mounted_board [] None [] two_lists) in
  board_fleet b = shown_fleet (page_queries b) ∧ told b = connected ∧ board_records b ≡ₚ sandboxes (example_list ["a"; "b"]%string).
Proof.
  assert (Forall answers_unique two_lists) as Hes by (repeat constructor; decide_closed).
  destruct (board_in_step [] None [] two_lists Hes) as (Hf & _ & _ & _ & Hr).
  split; [exact Hf|]. split; [vm_compute; reflexivity|]. apply Hr. vm_compute. reflexivity.
Defined.

(** C22: cards do not move on the dashboard while they stay: once the sandbox
    [a] has a card before that of [c], and every list held or answered later
    has both, [a] stays before [c], whatever order the gateway lists them in,
    whichever query's list is shown, and whatever happens on the page. *)
Theorem board_keeps_order a c b es (Hok : board_ok b) (Hb : board_holds a c b)
    (Hes : Forall (λ e, answers_unique e ∧ answers_both a c e) es) :
  [a; c] `sublist_of` id <$> board_records (board_run b es).
Proof.
  assert (board_ok (board_run b es) ∧ board_holds a c (board_run b es)) as [Hok' Hb'].
  { revert b Hok Hb. induction Hes as [|e es [Hu He] _ IH]; intros b Hok Hb; [done|]. apply IH; [by apply board_step_ok|by apply step_holds]. }
  pose proof (holds_order _ _ _ Hb') as Ho. by rewrite (ok_order _ Hok') in Ho.
Qed.

(** A creation, whose fast lists come in other orders, and its end. *)
Definition settled_board : fleet_board :=
  mounted_board [] None [] [SlowStarts; SlowAnswered (example_list ["a"; "x"; "b"]%string); Render].

Lemma board_keeps_order_witness :
  let es := [Streams (Some []); FastStarts; FastAnswered (example_list ["d"; "b"; "a"]%string); Render; Streams None;
             SlowStarts; SlowAnswered (example_list ["b"; "d"; "a"; "e"]%string); Render] in
  [js "a"; js "b"] `sublist_of` id <$> board_records (board_run settled_board es) ∧
  id <$> board_records (board_run settled_board es) = js <$> ["a"; "b"; "d"; "e"]%string.
Proof.
  cbv zeta. split; [|vm_compute; reflexivity]. apply board_keeps_order.
  - apply board_run_ok; [repeat constructor; decide_closed|apply initial_board_ok].
  - constructor; [|intros l Hl; vm_compute in Hl; discriminate Hl|].
    + exists (example_list ["a"; "x"; "b"]%string). split; [vm_compute; reflexivity|split; decide_closed].
    + assert (previousOrder (page_queries settled_board) = js <$> ["a"; "x"; "b"]%string) as -> by (vm_compute; reflexivity).
      apply sublist_skip, sublist_cons, sublist_skip, sublist_nil.
  - repeat constructor; decide_closed.
Defined.

(** C37: the board goes back in time when a creation starts. The fast query
    keeps its last list when nothing is under way, and that list stands again
    as soon as something is: whatever the slow query has listed since, the
    cards are those of the former activity, with sandboxes destroyed since and
    without those made since, while the frame says that all is well; and they
    stay for as long as the fast query is not answered, whatever the slow one
    lists meanwhile. *)
Theorem board_rolls_back b old new first es
    (Hok : board_ok b) (Hrest : lifecycle_active (page_queries b) = false)
    (Hold : fast_data (page_queries b) = Some old) (Hnew : list_data (page_queries b) = Some new)
    (Hes : Forall (λ e, answers_unique e ∧ creation_goes_on e) es) :
  let started := board_step b (Streams (Some first)) in
  board_records (board_step b Render) ≡ₚ sandboxes new ∧
  board_records (board_step started Render) ≡ₚ sandboxes old ∧
  (list_failed (page_queries b) = false → fast_failed (page_queries b) = false → told (board_step started Render) = connected) ∧
  board_records (board_step (board_run started es) Render) ≡ₚ sandboxes old.
Proof.
  cbv zeta. set (s := board_step b (Streams (Some first))). assert (board_ok s) as Hs by by apply board_step_ok.
  assert (board_creating old s) as Hc by by constructor.
  assert (∀ x, board_ok x → board_creating old x → board_records (board_step x Render) ≡ₚ sandboxes old) as Hshows.
  { intros x Hx Hcx. cbn [board_step]. rewrite render_records by done. by rewrite (creating_current old). }
  split; [|split; [by apply Hshows|split]].
  - cbn [board_step]. rewrite render_records by done. unfold current_list, currentFleetList. by rewrite Hrest, Hnew.
  - intros Hlf Hff. cbn [board_step]. unfold render_board. cbn [told]. rewrite render_fleet, shown_current, (creating_current old) by done.
    unfold connection, fleetError, connectionFor, input_with. cbn [lifecycleActive fastError slowError page_fleet].
    change (fast_failed (page_queries s)) with (fast_failed (page_queries b)).
    change (list_failed (page_queries s)) with (list_failed (page_queries b)). rewrite Hlf, Hff.
    unfold stabilizeFleetList. by destruct (lifecycle_active _), (bool_decide _).
  - assert (board_ok (board_run s es) ∧ board_creating old (board_run s es)) as [? ?]; [|by apply Hshows].
    clear Hshows. revert Hs Hc. generalize s. induction Hes as [|e es [Hu He] _ IH]; intros x Hx Hcx; [done|].
    apply IH; [by apply board_step_ok|by apply step_creating].
Qed.

(** A first creation, of [a], which is destroyed afterwards; then another. *)
Definition after_creation : fleet_board :=
  mounted_board [] None []
    [SlowStarts; SlowAnswered (example_list []); Render; Streams (Some []); FastStarts; FastAnswered (example_list ["a"]%string); Render;
     Streams None; SlowStarts; SlowAnswered (example_list ["b"]%string); Render].

Lemma board_rolls_back_witness :
  let es := [FastStarts; FastFailed; SlowStarts; SlowAnswered (example_list ["b"; "c"]%string)] in
  board_records (board_step after_creation Render) ≡ₚ sandboxes (example_list ["b"]%string) ∧
  told (board_step (board_step after_creation (Streams (Some []))) Render) = connected ∧
  board_records (board_step (board_run (board_step after_creation (Streams (Some []))) es) Render) ≡ₚ sandboxes (example_list ["a"]%string).
Proof.
  cbv zeta.
  destruct (board_rolls_back after_creation (example_list ["a"]%string) (example_list ["b"]%string) []
    [FastStarts; FastFailed; SlowStarts; SlowAnswered (example_list ["b"; "c"]%string)]) as (H1 & _ & H3 & H4).
  - apply board_run_ok; [repeat constructor; decide_closed|apply initial_board_ok].
  - vm_compute. reflexivity.
  - vm_compute. reflexivity.
  - vm_compute. reflexivity.
  - repeat constructor; decide_closed.
  - split; [exact H1|]. split; [apply H3; vm_compute; reflexivity|exact H4].
Defined.
