(* ===== verification/Waterfall.v ===== *)
(** What the trace view shows ([web/src/pages/sandbox/observability/TracesView.tsx]):
    the picker, the rows of the waterfall with their bars and flags, and the
    attributes of a span. The times of the locale, the virtualised list and
    the layout are the libraries'. Attributes are JSON values; their order is
    not modelled. *)
From S2P Require Import Prelude JsCollections JsNumber JsText NumText Json Observability Uri Format Traces.

(** ** The picker *)

Record trace_row := { trace_row_id : jsstr; trace_row_label : jsstr; trace_row_active : bool }.

(** The trace of the address, and what is shown of the query. *)
Definition selected_trace (traceId : option jsstr) : jsstr := traceId ?? js "last".

Definition TracePicker {A} (es : list (TraceEvent A)) (selected : jsstr) : list trace_row :=
  {| trace_row_id := js "last"; trace_row_label := js "last trace"; trace_row_active := bool_decide (selected = js "last") |} ::
  ((λ t, {| trace_row_id := t.1; trace_row_label := t.1; trace_row_active := bool_decide (selected = t.1) |}) <$> knownTraces es).

Inductive trace_body {A} := trace_failed | trace_shown (traceId : jsstr) (roots : list (TraceNode A)) | trace_loading.

Definition trace_body_of {A} (isError : bool) (data : option (TraceResult A)) : trace_body :=
  if isError then trace_failed else match data with Some r => trace_shown (trace r) (spans r) | None => trace_loading end.

(** ** The rows *)

Definition STATUS_COLORS (s : jsstr) : jsstr :=
  if bool_decide (s = js "completed") then js "var(--mantine-color-success-6)"
  else if bool_decide (s = js "error") then js "var(--mantine-color-danger-6)"
  else if bool_decide (s = js "cancelled") then js "var(--mantine-color-neutral-6)"
  else if bool_decide (s = js "timed_out") then js "var(--mantine-color-warning-6)"
  else js "var(--mantine-color-neutral-6)".

(** A text is shown as it is, any other value as JSON. *)
Definition SpanAttr (value : json) : jsstr := match value with JStr s => s | v => stringify v end.

Record span_row := {
  row_name : jsstr;
  row_indent : Z;
  row_expanded : option bool;         (* [aria-expanded] *)
  row_left : number;
  row_width : number;
  row_color : jsstr;
  row_title : jsstr;
  row_flags : list (jsstr * number);
  row_duration : jsstr;
  row_status : jsstr;
  row_attributes : option (gmap jsstr jsstr);
}.

Definition SpanRow (open : bool) (total : number) (row : FlatSpan json) : span_row :=
  let span := node_span (node row) in
  let duration := dur_ms span ?? num_zero in
  let attributes := negb (bool_decide (span_attrs span = ∅)) in
  {| row_name := span_name span;
     row_indent := depth row * 14;
     row_expanded := if attributes then Some open else None;
     row_left := span_left row total;
     row_width := span_width row total;
     row_color := STATUS_COLORS (span_status span);
     row_title := span_name span ++ [32; 183; 32] ++ to_fixed 1 duration ++ js "ms" ++ [32; 183; 32] ++ span_status span;
     row_flags := (λ e, ([9873; 32] ++ event_name (node_event e), event_left e total)) <$> node_events (node row);
     row_duration := to_fixed 1 duration ++ js "ms";
     row_status := span_status span;
     row_attributes := if open && attributes then Some (SpanAttr <$> span_attrs span) else None |}.

(** The waterfall, [None] when the trace has no spans. *)
Definition Waterfall (rows : list (FlatSpan json)) (openSpans : gset jsstr) : option (jsstr * list span_row) :=
  match rows with
  | [] => None
  | _ => let total := totalMs rows in
         Some (js "total " ++ to_fixed 0 total ++ js "ms",
               (λ row, SpanRow (bool_decide (span_id (node_span (node row)) ∈ openSpans)) total row) <$> rows)
  end.

(** ** Theorems *)

Lemma totalMs_bounds {A} (rows : list (FlatSpan A)) : Forall (λ r, is_nan (span_end r) = false) rows →
  is_nan (totalMs rows) = false ∧ num_leb (num_of_Z 1) (totalMs rows) = true ∧
  Forall (λ r, num_leb (span_end r) (totalMs rows) = true) rows.
Proof.
  intros Hrows. assert (Forall (λ x, is_nan x = false) (span_end <$> rows)) as Hends by by apply Forall_fmap.
  destruct (extreme_fold num_max (λ a b, num_leb b a = true) num_max_spec) with (l := span_end <$> rows) (a := num_of_Z 1)
    as [Hin [H1 Hall]%Forall_cons]; [intros a b c Ha Hb Hc Hab Hbc; by apply (num_leb_trans c b a)|apply num_leb_refl|done|done|].
  fold (totalMs rows) in *. split_and!; [|done|by rewrite Forall_fmap in Hall].
  apply elem_of_cons in Hin as [->|Hin]; [done|]. rewrite Forall_forall in Hends. by apply Hends.
Qed.

Lemma num_max_is_number a b : is_nan a = false → is_nan b = false → is_nan (num_max a b) = false.
Proof. intros Ha Hb. by destruct (num_max_spec a b Ha Hb) as [[-> | ->] _]. Qed.

(** The waterfall keeps its scale. The total is at least a millisecond and
    no span ends after it, every bar is at least half a percent wide, and the
    flag of an event always stands within its bar, between nothing and
    ninety-nine percent, wherever the event was recorded; a row shows its
    attributes exactly when its span is open and has some. *)
Theorem waterfall_in_scale (rows : list (FlatSpan json)) openSpans total_text shown
    (Hnumbers : Forall (λ r, is_nan (span_end r) = false) rows) :
  Waterfall rows openSpans = Some (total_text, shown) →
  num_leb (num_of_Z 1) (totalMs rows) = true ∧ Forall (λ r, num_leb (span_end r) (totalMs rows) = true) rows ∧
  Forall2 (λ r s,
    (is_nan (num_mul (num_div (dur_ms (node_span (node r)) ?? num_zero) (totalMs rows)) HUNDRED) = false →
     num_leb (num_of_ratio false 1 2) (row_width s) = true) ∧
    (∀ e, e ∈ node_events (node r) → is_nan (num_mul (num_div (event_offset_ms e) (totalMs rows)) HUNDRED) = false →
       ∃ title left, (title, left) ∈ row_flags s ∧ left = event_left e (totalMs rows) ∧
         num_leb num_zero left = true ∧ num_leb left (num_of_Z 99) = true) ∧
    (row_attributes s ≠ None ↔ span_id (node_span (node r)) ∈ openSpans ∧ span_attrs (node_span (node r)) ≠ ∅)) rows shown.
Proof.
  intros Hw. destruct (totalMs_bounds rows Hnumbers) as (_ & H1 & Hends). split_and!; [done..|].
  assert (shown = (λ row, SpanRow (bool_decide (span_id (node_span (node row)) ∈ openSpans)) (totalMs rows) row) <$> rows) as ->
    by (destruct rows; [done|by injection Hw]).
  apply Forall2_fmap_r, Forall_Forall2_diag, Forall_forall. intros r _. unfold compose, SpanRow. cbn [row_width row_flags row_attributes].
  split_and!.
  - intros Hn. by apply num_max_spec.
  - intros e He Hn. eexists _, _. split; [apply list_elem_of_fmap; exists e; split; [reflexivity|done]|]. split; [done|]. unfold event_left.
    set (x := num_mul _ _) in *. pose proof (num_max_is_number x num_zero Hn eq_refl) as Hm.
    destruct (num_min_spec (num_max x num_zero) (num_of_Z 99) Hm eq_refl) as (Hcase & _ & Hle). split; [|done].
    destruct Hcase as [-> | ->]; [by apply num_max_spec|done].
  - destruct (bool_decide_reflect (span_id (node_span (node r)) ∈ openSpans)), (bool_decide_reflect (span_attrs (node_span (node r)) = ∅)); cbn; naive_solver.
Qed.

Definition example_row (name : string) (offset dur : Z) : FlatSpan json :=
  {| depth := 0;
     node := TNode {| span_ts := num_zero; span_trace := js "t"; span_id := js name; span_name := js name; dur_ms := Some (num_of_Z dur);
                      span_status := js "error"; span_attrs := {[ js "k" := JNum (num_of_Z 7) ]} |} (num_of_Z offset) []
               [{| event_offset_ms := num_of_Z 500; node_event := {| event_ts := num_zero; event_trace := js "t"; event_parent := None;
                     event_name := js "e"; event_attrs := ∅ |} |}] |}.

Lemma waterfall_in_scale_witness :
  let rows := [example_row "a" 0 200; example_row "b" 50 100] in
  Waterfall rows {[ js "b" ]} <> None ∧ num_leb (num_of_Z 1) (totalMs rows) = true ∧
  (λ r, (num_to_js (row_left r), num_to_js (row_width r), (λ f, num_to_js f.2) <$> row_flags r)) <$> default [] (snd <$> Waterfall rows {[ js "b" ]}) =
  [(js "0", js "100", [js "99"]); (js "25", js "50", [js "99"])].
Proof.
  intros rows. split; [vm_compute; discriminate|]. split; [|vm_compute; reflexivity].
  refine (proj1 (waterfall_in_scale rows {[ js "b" ]} _ _ _ eq_refl)). repeat constructor.
Defined.
