(* ===== verification/EventsPage.v ===== *)
(** The page of the events ([web/src/pages/sandbox/observability/EventsView.tsx]):
    what it asks for and keeps showing as the filters and the tail change, the
    rows of its table, the ones drawn of a long table, and the keys.

    The query library is modelled as far as the page relies on it: a query for
    each key, fetched only while it is enabled, and the data of the last
    answered query shown while a new one has none ([keepPreviousData] of
    [usePoll.ts]). *)
From S2P Require Import Prelude JsCollections JsNumber JsText NumText Json Observability Uri Events Poll Traces.

(** ** The queries *)

Record event_query := { answer : option nat; failure : option jsstr }.

Record events_page {A} := {
  page_of : jsstr;
  address : url_params;
  tail : bool;
  expanded : option jsstr;
  selected : option jsstr;
  table : events_view (A := A);
  queries : gmap jsstr event_query;
  pending : list jsstr;
  last_answered : option jsstr;
}.
Arguments events_page : clear implicits.

Section page.
Context {A : Type}.
Notation events_page := (events_page A).

(** The key of the query, as the library compares keys: by their text. *)
Definition events_key (p : events_page) : jsstr :=
  stringify (JArr [JStr (js "observability"); JStr (page_of p); JStr (js "events"); JStr (filter_name_of (address p));
                   JNum (sinceMs_of (address p)); JNum (lastN_of (address p))]).

Definition query_of (k : jsstr) (p : events_page) : event_query := queries p !! k ?? {| answer := None; failure := None |}.

(** [mode] and [enabled]. *)
Definition events_options (p : events_page) : PollOptions :=
  {| option_mode := λ _, Some (if tail p then poll_fast else poll_slow); option_enabled := λ _, Some (tail p);
     option_retry := None; option_focus := None |}.

(** The array shown: the query's own, or that of the last answered one while
    this one has neither answer nor failure. *)
Definition shown_answer (p : events_page) : option nat :=
  match query_of (events_key p) p with
  | {| answer := Some d |} => Some d
  | {| answer := None; failure := Some _ |} => None
  | {| answer := None; failure := None |} => last_answered p ≫= λ k, answer (query_of k p)
  end.

Definition set_table (t : events_view) (last : option jsstr) (p : events_page) : events_page :=
  {| page_of := page_of p; address := address p; tail := tail p; expanded := expanded p; selected := selected p; table := t;
     queries := queries p; pending := pending p; last_answered := last |}.

Definition set_queries (qs : gmap jsstr event_query) (out : list jsstr) (t : events_view) (p : events_page) : events_page :=
  {| page_of := page_of p; address := address p; tail := tail p; expanded := expanded p; selected := selected p; table := t;
     queries := qs; pending := out; last_answered := last_answered p |}.

(** The array the table is given: without an answer, a fresh empty one. *)
Definition table_data (p : events_page) : events_view :=
  let t := table p in
  match shown_answer p with
  | Some d => {| arrays := arrays t; current := d; sorting := sorting t; cache := cache t |}
  | None => {| arrays := arrays t ++ [[]]; current := length (arrays t); sorting := sorting t; cache := cache t |}
  end.

(** A render. *)
Definition render_page (p : events_page) : events_page :=
  let t := table_data p in
  set_table {| arrays := arrays t; current := current t; sorting := sorting t;
               cache := Some (render_rows (arrays t) (current t) (sorting t) (cache t)).1 |}
    (match answer (query_of (events_key p) p) with Some _ => Some (events_key p) | None => last_answered p end) p.

(** ** Handlers *)

Definition go_to_filters (params : url_params) (p : events_page) : events_page :=
  {| page_of := page_of p; address := params; tail := tail p; expanded := expanded p; selected := selected p; table := table p;
     queries := queries p; pending := pending p; last_answered := last_answered p |}.

Definition toggle_tail (p : events_page) : events_page :=
  {| page_of := page_of p; address := address p; tail := negb (tail p); expanded := expanded p; selected := selected p; table := table p;
     queries := queries p; pending := pending p; last_answered := last_answered p |}.

Definition mark_rows (open sel : option jsstr) (p : events_page) : events_page :=
  {| page_of := page_of p; address := address p; tail := tail p; expanded := open; selected := sel; table := table p;
     queries := queries p; pending := pending p; last_answered := last_answered p |}.

Definition select_row (row : jsstr) (p : events_page) : events_page := mark_rows (expanded p) (Some row) p.

(** A click on the attributes goes on to the row. *)
Definition click_attrs (row : jsstr) (p : events_page) : events_page :=
  select_row row (mark_rows (if bool_decide (expanded p = Some row) then None else Some row) (selected p) p).

Inductive row_part := TheRow | TheAttributes | TheTrace (traceId : jsstr).

Definition is_activation (key : jsstr) : bool := bool_decide (key = js "Enter") || bool_decide (key = js " ").

(** The row's handler of a key pressed in it; whether the default is prevented. *)
Definition row_key_down (key row : jsstr) (p : events_page) : events_page * bool :=
  if is_activation key then (select_row row p, true) else (p, false).

(** The default of a key, if nothing prevents it: a button is clicked, a link
    followed. *)
Definition key_default (key : jsstr) (part : row_part) (row : jsstr) (p : events_page) : events_page * option jsstr :=
  match part with
  | TheRow => (p, None)
  | TheAttributes => (if is_activation key then click_attrs row p else p, None)
  | TheTrace traceId => (p, if bool_decide (key = js "Enter") then traceLink (page_of p) traceId else None)
  end.

Definition press_key (key : jsstr) (part : row_part) (row : jsstr) (p : events_page) : events_page * option jsstr :=
  let '(p, prevented) := row_key_down key row p in
  if prevented then (p, None) else key_default key part row p.

Definition set_sorting (s : list column_sort) (p : events_page) : events_page :=
  set_table {| arrays := arrays (table p); current := current (table p); sorting := s; cache := cache (table p) |} (last_answered p) p.

(** ** The query library *)

Definition fetch_starts (p : events_page) : events_page :=
  if config_enabled (usePoll (events_options p)) None then set_queries (queries p) (pending p ++ [events_key p]) (table p) p else p.

(** The fetch at [i] is answered with a new array, with data equal to what the
    query holds (which it keeps), or fails. *)
Definition fetch_answered (i : nat) (data : list (TraceEvent A)) (p : events_page) : events_page :=
  match pending p !! i with
  | None => p
  | Some k => set_queries (<[k := {| answer := Some (length (arrays (table p))); failure := None |}]> (queries p)) (delete i (pending p))
      {| arrays := arrays (table p) ++ [data]; current := current (table p); sorting := sorting (table p); cache := cache (table p) |} p
  end.

Definition fetch_unchanged (i : nat) (p : events_page) : events_page :=
  match pending p !! i with
  | None => p
  | Some k => set_queries (<[k := {| answer := answer (query_of k p); failure := None |}]> (queries p)) (delete i (pending p)) (table p) p
  end.

Definition fetch_failed (i : nat) (m : jsstr) (p : events_page) : events_page :=
  match pending p !! i with
  | None => p
  | Some k => set_queries (<[k := {| answer := answer (query_of k p); failure := Some m |}]> (queries p)) (delete i (pending p)) (table p) p
  end.

(** What happens without the reader touching the filters or the tail. *)
Inductive quiet_step : events_page → events_page → Prop :=
  | quiet_render p : quiet_step p (render_page p)
  | quiet_fetch p : quiet_step p (fetch_starts p)
  | quiet_answer i data p : quiet_step p (fetch_answered i data p)
  | quiet_unchanged i p : (∀ k, pending p !! i = Some k → is_Some (answer (query_of k p))) → quiet_step p (fetch_unchanged i p)
  | quiet_failed i m p : quiet_step p (fetch_failed i m p)
  | quiet_attrs row p : quiet_step p (click_attrs row p)
  | quiet_select row p : quiet_step p (select_row row p)
  | quiet_key key part row p : quiet_step p (press_key key part row p).1
  | quiet_sort s p : quiet_step p (set_sorting s p).

Inductive events_page_step : events_page → events_page → Prop :=
  | page_quiet p p' : quiet_step p p' → events_page_step p p'
  | page_filters params p : events_page_step p (go_to_filters params p)
  | page_tail p : events_page_step p (toggle_tail p).

Definition initial_events_page (sandboxId : jsstr) (params : url_params) : events_page :=
  {| page_of := sandboxId; address := params; tail := true; expanded := None; selected := None; table := initial_events;
     queries := ∅; pending := []; last_answered := None |}.

Inductive events_page_reachable : events_page → Prop :=
  | page_init sandboxId params : events_page_reachable (initial_events_page sandboxId params)
  | page_next p p' : events_page_reachable p → events_page_step p p' → events_page_reachable p'.

(** ** What is shown *)

Definition VIRTUALIZE_AT : nat := 200.

Record event_row := { row_id : jsstr; row_event : TraceEvent A; row_selected : bool; row_open : bool; row_link : option jsstr }.

Definition event_row_of (p : events_page) (e : TraceEvent A) : event_row :=
  {| row_id := eventKey e; row_event := e; row_selected := bool_decide (selected p = Some (eventKey e));
     row_open := bool_decide (expanded p = Some (eventKey e)); row_link := traceLink (page_of p) (event_trace e) |}.

(** The heading of a column, with the arrow of its order; the attributes are
    not sorted. *)
Definition EVENT_COLUMNS : list (jsstr * jsstr * bool) :=
  [(js "ts", js "timestamp", true); (js "name", js "name", true); (js "trace", js "trace", true); (js "attrs", js "attributes", false)].

Definition sort_arrow (column : jsstr) (sorting : list column_sort) : jsstr :=
  match js_find (λ c, bool_decide (sort_id c = column)) sorting with
  | Some c => if sort_desc c then [32; 8595] else [32; 8593]
  | None => []
  end.

Definition event_heading (sorting : list column_sort) (c : jsstr * jsstr * bool) : jsstr * bool :=
  (if c.2 then c.1.2 ++ sort_arrow c.1.1 sorting else c.1.2, c.2).

Record events_shown := {
  tail_label : jsstr;
  events_alert : option (jsstr * jsstr);
  events_headings : list (jsstr * bool);
  events_rows : list event_row;
}.

(** The page after a render; with no row it shows "No events" instead of the
    table. *)
Definition EventsView (p : events_page) : events_shown :=
  let t := table_data p in
  {| tail_label := if tail p then js "Live tail" else js "Paused";
     events_alert := (λ m, (if bool_decide (is_Some (answer (query_of (events_key p) p))) then js "Refresh paused on last confirmed events"
                            else js "Events unavailable", m)) <$> failure (query_of (events_key p) p);
     events_headings := event_heading (sorting t) <$> EVENT_COLUMNS;
     events_rows := event_row_of p <$> (render_rows (arrays t) (current t) (sorting t) (cache t)).2 |}.

(** The rows drawn of a long table, and the heights above and below them; the
    items are those of the virtualizer. *)
Record virtual_item := { item_index : nat; item_start : Z; item_end : Z }.

Definition drawn_rows (items : list virtual_item) (rows : list event_row) : list event_row :=
  if (VIRTUALIZE_AT <? length rows)%nat then omap (λ it, rows !! item_index it) items else rows.

Definition paddingTop (items : list virtual_item) (rows : list event_row) : Z :=
  if (VIRTUALIZE_AT <? length rows)%nat then match items with it :: _ => item_start it | [] => 0 end else 0.

Definition paddingBottom (totalSize : Z) (items : list virtual_item) (rows : list event_row) : Z :=
  if (VIRTUALIZE_AT <? length rows)%nat then totalSize - match last items with Some it => item_end it | None => 0 end else 0.

(** ** Facts *)

Lemma enabled_tail p : config_enabled (usePoll (events_options p)) None = tail p.
Proof. reflexivity. Qed.

(** Every array a query holds has been allocated, and the table's own state is
    one of [Events]. *)
Record events_page_ok (p : events_page) : Prop := {
  ok_table : reachable_events (table p);
  ok_answers : ∀ k q d, queries p !! k = Some q → answer q = Some d → (d < length (arrays (table p)))%nat;
}.

Lemma shown_allocated p d : events_page_ok p → shown_answer p = Some d → (d < length (arrays (table p)))%nat.
Proof.
  intros [_ Ha] Hd. assert (∀ k d, answer (query_of k p) = Some d → (d < length (arrays (table p)))%nat) as Hq.
  { intros k d'. unfold query_of. destruct (queries p !! k) as [q|] eqn:Hk; [|done]. by apply (Ha k). }
  unfold shown_answer in Hd. destruct (query_of (events_key p) p) as [[d'|] [m|]] eqn:Hk; try done.
  - injection Hd as <-. apply (Hq (events_key p)). by rewrite Hk.
  - injection Hd as <-. apply (Hq (events_key p)). by rewrite Hk.
  - destruct (last_answered p) as [k|]; [by apply (Hq k)|done].
Qed.

Lemma table_data_reachable p : events_page_ok p → reachable_events (table_data p).
Proof.
  intros Hok. pose proof Hok as [Ht _]. unfold table_data. destruct (shown_answer p) as [d|] eqn:Hd.
  - eapply events_next; [exact Ht|]. constructor. by apply shown_allocated.
  - eapply events_next; [exact Ht|]. constructor.
Qed.

Lemma table_data_length p : (length (arrays (table p)) ≤ length (arrays (table_data p)))%nat.
Proof. unfold table_data. destruct (shown_answer p); cbn [arrays]; [done|]. rewrite length_app. lia. Qed.

Lemma query_of_set k k' q out t p :
  query_of k' (set_queries (<[k := q]> (queries p)) out t p) = if bool_decide (k = k') then q else query_of k' p.
Proof.
  unfold query_of, set_queries. cbn [queries]. case_bool_decide as Hk; [subst; by rewrite lookup_insert_eq|by rewrite lookup_insert_ne].
Qed.

Lemma answers_insert p k q n : events_page_ok p → (length (arrays (table p)) ≤ n)%nat → (∀ d, answer q = Some d → (d < n)%nat) →
  ∀ k' q' d, <[k := q]> (queries p) !! k' = Some q' → answer q' = Some d → (d < n)%nat.
Proof.
  intros [_ Ha] Hn Hq k' q' d [(_ & <-)|(_ & Hk')]%lookup_insert_Some Hd; [by apply Hq|].
  specialize (Ha _ _ _ Hk' Hd). lia.
Qed.

Lemma query_answer_allocated p k d : events_page_ok p → answer (query_of k p) = Some d → (d < length (arrays (table p)))%nat.
Proof. intros [_ Ha]. unfold query_of. destruct (queries p !! k) as [q|] eqn:Hk; [by apply (Ha k)|done]. Qed.

Lemma quiet_step_ok p p' : quiet_step p p' → events_page_ok p → events_page_ok p'.
Proof.
  intros Hstep Hok. pose proof Hok as [Ht Ha].
  destruct Hstep as [p|p|i data p|i p _|i m p|row p|row p|key part row p|so p]; try done.
  - split; cbn [render_page set_table table queries].
    + eapply events_next; [by apply table_data_reachable|]. apply events_render.
    + intros k q d Hq Hd. cbn [arrays]. pose proof (table_data_length p). specialize (Ha _ _ _ Hq Hd). lia.
  - unfold fetch_starts. by destruct (config_enabled _ _).
  - unfold fetch_answered. destruct (pending p !! i) as [k|]; [|done]. split; cbn [set_queries table queries arrays].
    + eapply events_next; [eapply events_next; [exact Ht|apply (events_answer _ data)]|].
      refine (events_again {| arrays := arrays (table p) ++ [data]; current := length (arrays (table p)); sorting := sorting (table p);
        cache := cache (table p) |} (current (table p)) _). cbn [arrays]. rewrite length_app. destruct (reachable_cache_ok _ Ht). lia.
    + intros k' q' d'. apply answers_insert; [done|rewrite length_app; lia|]. intros d [= <-]. rewrite length_app. cbn. lia.
  - unfold fetch_unchanged. destruct (pending p !! i) as [k|]; [|done]. split; cbn [set_queries table queries]; [exact Ht|].
    intros k' q' d'. apply answers_insert; [done|lia|]. intros d. by apply query_answer_allocated.
  - unfold fetch_failed. destruct (pending p !! i) as [k|]; [|done]. split; cbn [set_queries table queries]; [exact Ht|].
    intros k' q' d'. apply answers_insert; [done|lia|]. intros d. by apply query_answer_allocated.
  - unfold press_key, row_key_down, key_default. destruct (is_activation key); [done|]. by destruct part.
  - split; cbn [set_sorting set_table table queries]; [|exact Ha]. eapply events_next; [exact Ht|]. constructor.
Qed.

Lemma page_reachable_ok p : events_page_reachable p → events_page_ok p.
Proof.
  induction 1 as [sandboxId params|p p' _ IH Hstep].
  - split; [constructor|]. intros k q d Hq. by change ((∅ : gmap jsstr event_query) !! k = Some q) in Hq.
  - destruct Hstep as [q q' Hq|params q|q]; [by eapply quiet_step_ok|by destruct IH|by destruct IH].
Qed.

(** The page showing, while paused, the data of other filters. *)
Record shows_others (k0 : jsstr) (p : events_page) : Prop := {
  so_paused : tail p = false;
  so_new : queries p !! events_key p = None;
  so_none_out : events_key p ∉ pending p;
  so_last : last_answered p = Some k0;
  so_answer : is_Some (answer (query_of k0 p));
}.

Lemma elem_of_delete_at {B} i (l : list B) x : x ∈ delete i l → x ∈ l.
Proof. rewrite delete_take_drop. apply elem_of_drop_one. Qed.

Lemma shows_others_settled k0 p i k q t : shows_others k0 p → pending p !! i = Some k → (k = k0 → is_Some (answer q)) →
  shows_others k0 (set_queries (<[k := q]> (queries p)) (delete i (pending p)) t p).
Proof.
  intros [Ht Hn Ho Hl Ha] Hk Hq. assert (k ≠ events_key p) as Hne by (intros ->; by apply Ho, (list_elem_of_lookup_2 _ i)).
  split; cbn [set_queries tail queries pending last_answered]; [done| | |done|].
  - by rewrite lookup_insert_ne.
  - intros Hin. by apply Ho, (elem_of_delete_at i).
  - rewrite query_of_set. case_bool_decide as Heq; [by apply Hq|done].
Qed.

Lemma quiet_shows_others k0 p p' : quiet_step p p' → shows_others k0 p → shows_others k0 p'.
Proof.
  intros Hstep Hok. destruct Hstep as [p|p|i data p|i p Hsame|i m p|row p|row p|key part row p|so p]; try by destruct Hok.
  - destruct Hok as [Ht Hn Ho Hl Ha]. split; [exact Ht|exact Hn|exact Ho| |exact Ha].
    unfold render_page, set_table. cbn [last_answered]. unfold query_of. by rewrite Hn.
  - unfold fetch_starts. by rewrite enabled_tail, (so_paused _ _ Hok).
  - unfold fetch_answered. destruct (pending p !! i) as [k|] eqn:Hk; [|done]. apply shows_others_settled; [done..|]. by eexists.
  - unfold fetch_unchanged. destruct (pending p !! i) as [k|] eqn:Hk; [|done]. apply shows_others_settled; [done..|].
    intros _. by apply Hsame.
  - unfold fetch_failed. destruct (pending p !! i) as [k|] eqn:Hk; [|done]. apply shows_others_settled; [done..|].
    intros ->. apply Hok.
  - unfold press_key, row_key_down, key_default. destruct (is_activation key); [by destruct Hok|]. by destruct part.
Qed.

(** ** Theorems *)

(** The table shows the answer it has: on every page reached by fetches,
    filters, clicks and keys, the rows are all the events of the array shown,
    in the order of the column clicked, whatever the caches of the table have
    been through; once the query of the current filters is answered that array
    is its answer. Rows with the same trace, time and name are one row to the
    page: they are marked, opened and closed together. *)
Theorem events_page_rows p (Hp : events_page_reachable p) :
  let rows := events_rows (EventsView p) in
  row_event <$> rows = fresh_rows (match shown_answer p with Some d => arrays (table p) !! d ?? [] | None => [] end) (sorting (table p)) ∧
  (∀ d, answer (query_of (events_key p) p) = Some d → shown_answer p = Some d) ∧
  (∀ r, r ∈ rows → row_id r = eventKey (row_event r) ∧ (row_selected r = true ↔ selected p = Some (row_id r)) ∧
                   (row_open r = true ↔ expanded p = Some (row_id r))) ∧
  (∀ r r', r ∈ rows → r' ∈ rows → row_id r = row_id r' → row_selected r = row_selected r' ∧ row_open r = row_open r').
Proof.
  pose proof (page_reachable_ok p Hp) as Hok. cbn [EventsView events_rows].
  assert (∀ r, r ∈ event_row_of p <$> (render_rows (arrays (table_data p)) (current (table_data p)) (sorting (table_data p)) (cache (table_data p))).2 →
    ∃ e, r = event_row_of p e) as Hrow by (intros r (e & -> & _)%list_elem_of_fmap; by exists e).
  split_and!.
  - rewrite <- list_fmap_compose. change (row_event ∘ event_row_of p) with (λ e : TraceEvent A, e). rewrite list_fmap_id.
    pose proof (render_rows_spec _ (reachable_cache_ok _ (table_data_reachable p Hok))) as Hr.
    destruct (render_rows _ _ _ _) as [c rows]. destruct Hr as [-> _]. unfold table_data.
    destruct (shown_answer p) as [d|]; cbn [arrays current sorting]; [done|]. by rewrite lookup_app_r, Nat.sub_diag.
  - intros d Hd. unfold shown_answer. destruct (query_of (events_key p) p) as [a f]. cbn in Hd. by subst.
  - intros r Hr. destruct (Hrow r Hr) as [e ->]. cbn. by rewrite !bool_decide_eq_true.
  - intros r r' Hr Hr' Hid. destruct (Hrow r Hr) as [e ->], (Hrow r' Hr') as [e' ->]. cbn in *. by rewrite Hid.
Qed.

(** A paused table answers for filters it was not asked about: when the tail
    is paused and the filters are changed to ones without an answer, then
    whatever happens until the filters or the tail change again, nothing is
    fetched and the table keeps showing, without an alert, the events of the
    filters before. *)
Theorem paused_filters_show_others p p' params d
    (Htail : tail p = false)
    (Hanswer : answer (query_of (events_key p) p) = Some d)
    (Hlast : last_answered p = Some (events_key p))
    (Hnew : queries p !! events_key (go_to_filters params p) = None)
    (Hout : events_key (go_to_filters params p) ∉ pending p)
    (Hquiet : rtc quiet_step (go_to_filters params p) p') :
  tail p' = false ∧ fetch_starts p' = p' ∧ events_alert (EventsView p') = None ∧
  shown_answer p' = answer (query_of (events_key p) p') ∧ is_Some (shown_answer p').
Proof.
  assert (shows_others (events_key p) p') as [Ht Hn Ho Hl Ha].
  { assert (shows_others (events_key p) (go_to_filters params p)) as H0 by (split; try done; by exists d).
    revert H0. generalize (events_key p). clear -Hquiet. intros k0. induction Hquiet as [|x y z Hxy _ IH]; [done|].
    intros H0. apply IH. by eapply quiet_shows_others. }
  assert (query_of (events_key p') p' = {| answer := None; failure := None |}) as Hq by (unfold query_of; by rewrite Hn).
  split; [done|]. split; [unfold fetch_starts; by rewrite enabled_tail, Ht|]. cbn [EventsView events_alert].
  unfold shown_answer. rewrite Hq, Hl. by split.
Qed.

(** The keyboard stops at the row: Enter and the space bar, pressed on the
    attributes or on the trace of a row, select the row and nothing more,
    because the row prevents their default. The attributes, which a click
    opens and closes, cannot be opened with the keyboard, nor can the trace
    be followed. *)
Theorem keyboard_stops_at_row key part row (p : events_page) :
  expanded (press_key key part row p).1 = expanded p ∧ (press_key key part row p).2 = None ∧
  expanded (click_attrs row p) ≠ expanded p ∧
  (is_activation key = true → selected (press_key key part row p).1 = Some row).
Proof.
  unfold press_key, row_key_down, key_default. split_and!.
  - destruct (is_activation key); [done|]. by destruct part.
  - destruct (is_activation key) eqn:Hk; [done|]. destruct part as [| |t]; [done..|].
    unfold is_activation in Hk. apply orb_false_iff in Hk as [Hk _]. cbn [snd]. by rewrite Hk.
  - unfold click_attrs. cbn. case_bool_decide as He; [by rewrite He|]. intros H. by apply He.
  - by intros ->.
Qed.

(** A long table is drawn in part but measured in full: with the items of the
    virtualizer, which follow one another at 34 pixels each, the rows drawn are
    consecutive rows of the table, at their own places, and together with the
    space above and below they are as high as the whole table. *)
Theorem window_fills items rows (i0 : nat)
    (Hlong : (VIRTUALIZE_AT < length rows)%nat)
    (Hitems : ∀ j it, items !! j = Some it →
       item_index it = (i0 + j)%nat ∧ item_start it = 34 * Z.of_nat (i0 + j) ∧ item_end it = 34 * Z.of_nat (i0 + j + 1))
    (Hfit : (i0 + length items ≤ length rows)%nat) :
  drawn_rows items rows = take (length items) (drop i0 rows) ∧
  (items ≠ [] → paddingTop items rows = 34 * Z.of_nat i0) ∧
  paddingTop items rows + 34 * Z.of_nat (length (drawn_rows items rows)) + paddingBottom (34 * Z.of_nat (length rows)) items rows
    = 34 * Z.of_nat (length rows).
Proof.
  unfold drawn_rows, paddingTop, paddingBottom. rewrite (proj2 (Nat.ltb_lt _ _) Hlong).
  assert (∀ l k, (∀ j it, l !! j = Some it → item_index it = (k + j)%nat) → (k + length l ≤ length rows)%nat →
    omap (λ it, rows !! item_index it) l = take (length l) (drop k rows)) as Hdrawn.
  { induction l as [|it l IH]; intros k Hl Hk; [done|]. cbn [omap list_omap length].
    rewrite (Hl 0%nat it) by done. rewrite Nat.add_0_r. cbn [length] in Hk.
    destruct (lookup_lt_is_Some_2 rows k) as [r Hr]; [lia|]. rewrite Hr, (drop_S _ _ _ Hr). cbn [take]. f_equal.
    apply IH; [|lia]. intros j it' Hj. rewrite (Hl (S j) it') by done. lia. }
  rewrite (Hdrawn items i0) by (done || (intros; by eapply Hitems)).
  rewrite length_take, length_drop. split; [done|]. split.
  - destruct items as [|it items]; [done|]. intros _. destruct (Hitems 0%nat it eq_refl) as (_ & -> & _). lia.
  - destruct items as [|it items]; [cbn; lia|]. destruct (Hitems 0%nat it eq_refl) as (_ & -> & _).
    destruct (last (it :: items)) as [it'|] eqn:Hl; [|by apply last_None in Hl].
    rewrite last_lookup in Hl. destruct (Hitems _ _ Hl) as (_ & _ & ->). cbn [length Nat.pred] in *. lia.
Qed.
End page.

(** ** Examples *)

Definition example_asked : events_page unit := fetch_starts (initial_events_page (js "box") []).
Definition example_filled : events_page unit := render_page (fetch_answered 0 [example_event 1 "a"; example_event 1 "a"] example_asked).
Definition example_paused : events_page unit := toggle_tail example_filled.

Lemma example_paused_reachable : events_page_reachable example_paused.
Proof.
  refine (page_next example_filled _ (page_next (fetch_answered 0 [example_event 1 "a"; example_event 1 "a"] example_asked) _
    (page_next example_asked _ (page_next _ _ (page_init (js "box") []) (page_quiet _ _ (quiet_fetch _)))
      (page_quiet _ _ (quiet_answer 0 [example_event 1 "a"; example_event 1 "a"] example_asked))) (page_quiet _ _ (quiet_render _))) (page_tail example_filled)).
Qed.

Lemma events_page_rows_witness :
  row_event <$> events_rows (EventsView example_paused) =
  fresh_rows (match shown_answer example_paused with Some d => arrays (table example_paused) !! d ?? [] | None => [] end) (sorting (table example_paused)).
Proof. exact (proj1 (events_page_rows example_paused example_paused_reachable)). Defined.

Definition example_filters : url_params := [(js "name", js "lease.acquired")].

Lemma paused_filters_show_others_witness : is_Some (shown_answer (go_to_filters example_filters example_paused)).
Proof.
  refine (proj2 (proj2 (proj2 (proj2 (paused_filters_show_others example_paused (go_to_filters example_filters example_paused) example_filters 1%nat
    _ _ _ _ _ (rtc_refl _ _)))))).
  - reflexivity.
  - vm_compute. reflexivity.
  - vm_compute. reflexivity.
  - vm_compute. reflexivity.
  - apply not_elem_of_nil.
Defined.

Definition example_rows : list (event_row (A := unit)) := replicate 201 (event_row_of example_paused (example_event 1 "a")).
Definition example_items : list virtual_item :=
  [{| item_index := 3; item_start := 102; item_end := 136 |}; {| item_index := 4; item_start := 136; item_end := 170 |}].

Lemma window_fills_witness : drawn_rows example_items example_rows = take 2 (drop 3 example_rows).
Proof.
  refine (proj1 (window_fills example_items example_rows 3%nat _ _ _)).
  - vm_compute. lia.
  - intros [|[|j]] it [= <-]; cbn; lia.
  - vm_compute. lia.
Defined.
