(* ===== verification/PreviewPage.v ===== *)
(** The preview of a port ([web/src/pages/sandbox/preview/PreviewTab.tsx],
    [web/src/components/PortPreview.tsx], [SandboxHeader.tsx]): the tab with
    its frame, forms and effects, the launcher in its popover, and the header
    of a sandbox that holds one. *)
From S2P Require Import Prelude JsNumber JsText NumText Observability Uri Format Cards Preview Types.

(** ** The tab *)

(** The parameters of the address, the drafts of the two forms, and the frame's
    state; [frame_loaded] tells that the frame shown has had its load event. *)
Record preview_page := {
  preview_sandbox : jsstr;
  preview_params : url_params;
  pathDraft : jsstr;
  portDraft : jsstr;
  reloadKey : Z;
  isLoading : bool;
  frame_loaded : bool;
}.

Definition address_of (p : preview_page) : option jsstr := previewUrl (preview_sandbox p) (preview_of (preview_params p)).

(** The [key] of the frame: another key is another frame. *)
Definition frame_key (url : jsstr) (reload : Z) : jsstr := url ++ 45 :: Z_to_js reload.

Definition frame_of (p : preview_page) : option (jsstr * jsstr) :=
  (λ url, (frame_key url (reloadKey p), url)) <$> address_of p.

(** The page with other parameters or another reload key, and the effects that
    depend on what has changed. *)
Definition rerender (params : url_params) (reload : Z) (p : preview_page) : preview_page :=
  let old := preview_of (preview_params p) in
  let new := preview_of params in
  let url := previewUrl (preview_sandbox p) new in
  let again := negb (bool_decide (url = address_of p)) || negb (reload =? reloadKey p) in
  {| preview_sandbox := preview_sandbox p;
     preview_params := params;
     pathDraft := if bool_decide (preview_path new = preview_path old) then pathDraft p else preview_path new;
     portDraft := if bool_decide (preview_port new = preview_port old) then portDraft p else preview_port new;
     reloadKey := reload;
     isLoading := if again then match url with Some _ => true | None => false end else isLoading p;
     frame_loaded := if again then false else frame_loaded p |}.

(** The first render, with all the effects. *)
Definition open_preview_page (sandboxId : jsstr) (params : url_params) : preview_page :=
  let new := preview_of params in
  {| preview_sandbox := sandboxId; preview_params := params; pathDraft := preview_path new; portDraft := preview_port new;
     reloadKey := 0; isLoading := match previewUrl sandboxId new with Some _ => true | None => false end; frame_loaded := false |}.

Definition set_drafts (path port : jsstr) (p : preview_page) : preview_page :=
  {| preview_sandbox := preview_sandbox p; preview_params := preview_params p; pathDraft := path; portDraft := port;
     reloadKey := reloadKey p; isLoading := isLoading p; frame_loaded := frame_loaded p |}.

(** [onLoad]. *)
Definition frame_loads (p : preview_page) : preview_page :=
  {| preview_sandbox := preview_sandbox p; preview_params := preview_params p; pathDraft := pathDraft p; portDraft := portDraft p;
     reloadKey := reloadKey p; isLoading := false; frame_loaded := true |}.

(** The two buttons are disabled without an address. *)
Definition press_refresh (p : preview_page) : preview_page :=
  match address_of p with Some _ => rerender (preview_params p) (reloadKey p + 1) p | None => p end.

Definition press_tab (p : preview_page) : option jsstr := address_of p.

Inductive preview_step : preview_page → preview_page → Prop :=
  | preview_scope_chosen v p : preview_step p (rerender (apply_preview (Some (v ?? SHARED)) None None (preview_params p)) (reloadKey p) p)
  | preview_port_submitted p : preview_step p (rerender (submit_port (portDraft p) (preview_params p)) (reloadKey p) p)
  | preview_path_submitted p : preview_step p (rerender (submit_path (pathDraft p) (preview_params p)) (reloadKey p) p)
  | preview_typed path port p : preview_step p (set_drafts path port p)
  | preview_linked params p : preview_step p (rerender params (reloadKey p) p)
  | preview_refreshed p : preview_step p (press_refresh p)
  | preview_loaded p : is_Some (frame_of p) → preview_step p (frame_loads p).

Inductive preview_reachable : preview_page → Prop :=
  | preview_init sandboxId params : preview_reachable (open_preview_page sandboxId params)
  | preview_next p p' : preview_reachable p → preview_step p p' → preview_reachable p'.

(** What is shown: the hint of an isolated scope, the two buttons, the spinner
    over the frame, and the frame, or the hint to pick a port. *)
Record preview_shown := {
  shows_hint : bool;
  buttons_enabled : bool;
  shows_spinner : bool;
  shown_frame : option (jsstr * jsstr);
  frame_sandbox : list jsstr;
}.

Definition PreviewTab (p : preview_page) : preview_shown :=
  {| shows_hint := negb (bool_decide (preview_scope_param (preview_of (preview_params p)) = SHARED));
     buttons_enabled := match address_of p with Some _ => true | None => false end;
     shows_spinner := match address_of p with Some _ => isLoading p | None => false end;
     shown_frame := frame_of p;
     frame_sandbox := [js "allow-scripts"] |}.

(** ** The launcher *)

(** What the reader does to a popover, and what a popover asks for then: the
    popover is code of the component library. *)
Inductive popover_event := TargetClicked | ClickedOutside | EscapePressed.

Record launcher := { launcher_open : bool; launcher_scope : jsstr; launcher_port : jsstr }.

Definition initial_launcher (defaultScope defaultPort : jsstr) : launcher :=
  {| launcher_open := false; launcher_scope := defaultScope; launcher_port := defaultPort |}.

Definition set_open (b : bool) (l : launcher) : launcher :=
  {| launcher_open := b; launcher_scope := launcher_scope l; launcher_port := launcher_port l |}.

Definition choose_scope (v : option jsstr) (defaultScope : jsstr) (l : launcher) : launcher :=
  {| launcher_open := launcher_open l; launcher_scope := v ?? defaultScope; launcher_port := launcher_port l |}.

Definition type_port (v : jsstr) (l : launcher) : launcher :=
  {| launcher_open := launcher_open l; launcher_scope := launcher_scope l; launcher_port := v |}.

(** The form is submitted or the button is pressed: the launcher and where it
    leads. *)
Definition launch_preview (sandboxId : jsstr) (l : launcher) : launcher * option (jsstr * url_params) :=
  if portValid (launcher_port l) then (set_open false l, openPreview sandboxId (launcher_scope l) (launcher_port l)) else (l, None).

Section launcher.
(** [asks e opened]: what the popover calls [onChange] with, if it does, when
    [e] happens and it was given [opened]. *)
Context (asks : popover_event → bool → option bool) (sandboxId defaultScope : jsstr).

Definition popover_happens (e : popover_event) (l : launcher) : launcher :=
  match asks e (launcher_open l) with Some b => set_open b l | None => l end.

(** The controls in the popover are there while it is open. *)
Inductive launcher_step : launcher → launcher → Prop :=
  | launcher_popover e l : launcher_step l (popover_happens e l)
  | launcher_scope_chosen v l : launcher_open l = true → launcher_step l (choose_scope v defaultScope l)
  | launcher_port_typed v l : launcher_open l = true → launcher_step l (type_port v l)
  | launcher_submitted l : launcher_open l = true → launcher_step l (launch_preview sandboxId l).1.
End launcher.

(** ** The header of a sandbox *)

Record sandbox_header := {
  header_state : option jsstr;
  header_health : option jsstr;
  header_root : option jsstr;
  header_rpc : option jsstr;
  header_http : option jsstr;
  header_base : option jsstr;
  header_scopes : option (list preview_scope);
  header_layers : option Z;
}.

Definition endpoint_text (kind : string) (e : Endpoint) : jsstr := js kind ++ [32] ++ host e ++ [58] ++ Z_to_js (port e).

(** The tone of the state, the label of the health dot, the texts, and, for a
    sandbox that is ready, the scopes of the launcher. *)
Definition SandboxHeader (record : option SandboxRecord) (snapshot : option SnapshotResult) : sandbox_header :=
  let is_ready := match record with Some r => bool_decide (state r = ready) | None => false end in
  {| header_state := (λ r, StateBadge (badge_sandbox (state r))) <$> record;
     header_health := if is_ready then (λ r, health_label (daemon_http r)) <$> record else None;
     header_root := workspace_root <$> record;
     header_rpc := endpoint_text "rpc" <$> (record ≫= daemon);
     header_http := endpoint_text "http" <$> (record ≫= daemon_http);
     header_base := (λ b, js "base " ++ shortHash (base_root_hash b) 8) <$> (record ≫= shared_base);
     header_scopes := if is_ready then Some (previewScopes snapshot) else None;
     header_layers := snapshot ≫= λ s, head (snapshots s) ≫= λ x, Some (layer_count (stack x)) |}.

(** ** Facts *)

Lemma last_separator_inj (sep : Z) (a b p q : jsstr) : sep ∉ p → sep ∉ q → a ++ sep :: p = b ++ sep :: q → a = b ∧ p = q.
Proof.
  intros Hp Hq Heq. apply (f_equal reverse) in Heq. rewrite !reverse_app, !reverse_cons, <- !app_assoc in Heq. cbn [app] in Heq.
  apply separator_inj in Heq as [Hpq Hab]; [|by rewrite elem_of_reverse..].
  split; [by apply (inj reverse)|by apply (inj reverse)].
Qed.

Lemma frame_key_inj url url' n n' : 0 ≤ n → 0 ≤ n' → frame_key url n = frame_key url' n' → url = url' ∧ n = n'.
Proof.
  intros Hn Hn' Heq. assert (∀ z, 0 ≤ z → 45 ∉ Z_to_js z) as Hdash.
  { intros z Hz. unfold Z_to_js. rewrite (proj2 (Z.ltb_ge _ _)) by done. intros H%dec_digits; lia. }
  apply last_separator_inj in Heq as [-> H]; [|by apply Hdash..]. by apply Z_to_js_inj in H.
Qed.

Record preview_ok (p : preview_page) : Prop := {
  ok_loading : isLoading p = match address_of p with Some _ => negb (frame_loaded p) | None => false end;
  ok_reload : 0 ≤ reloadKey p;
}.

Lemma rerender_ok params reload p : reloadKey p ≤ reload → preview_ok p → preview_ok (rerender params reload p).
Proof.
  intros Hle [Hl Hr]. split; [|cbn; lia].
  change (address_of (rerender params reload p)) with (previewUrl (preview_sandbox p) (preview_of params)).
  unfold rerender. cbn [isLoading frame_loaded]. rewrite Hl. unfold address_of. case_bool_decide as Hurl.
  - rewrite <- Hurl. cbn [negb orb]. by destruct (negb (reload =? reloadKey p)), (previewUrl _ _).
  - cbn [negb orb]. by destruct (previewUrl _ _).
Qed.

Lemma preview_step_ok p p' : preview_step p p' → preview_ok p → preview_ok p'.
Proof.
  intros Hstep Hok. destruct Hstep as [v p|p|p|path port p|params p|p|p Hf]; try (by apply rerender_ok).
  - by destruct Hok.
  - unfold press_refresh. destruct (address_of p); [|done]. apply rerender_ok; [lia|done].
  - destruct Hok as [Hl Hr]. split; [|done]. cbn [isLoading frame_loads].
    change (address_of (frame_loads p)) with (address_of p). by destruct (address_of p).
Qed.

Lemma preview_reachable_ok p : preview_reachable p → preview_ok p.
Proof.
  induction 1 as [sandboxId params|p p' _ IH Hstep]; [|by eapply preview_step_ok]. split; [|done].
  change (address_of (open_preview_page sandboxId params)) with (previewUrl sandboxId (preview_of params)).
  unfold open_preview_page. cbn [isLoading frame_loaded]. by destruct (previewUrl _ _).
Qed.

(** ** Theorems *)

(** The frame is that of the address. However the address, the forms, the
    refresh button and the load events follow one another, a frame is shown
    exactly while the address names a valid port, with the proxy's address of
    that sandbox, scope, port and path as its source; the spinner is over it
    exactly until its load event; refreshing an address gives another frame,
    which is loading; and frames of two pages with the same key have the same
    source and reload number, so that no frame is kept for another address. *)
Theorem preview_frame_current p (Hp : preview_reachable p) :
  let v := PreviewTab p in
  (snd <$> shown_frame v) = previewUrl (preview_sandbox p) (preview_of (preview_params p)) ∧
  (shows_spinner v = true ↔ is_Some (shown_frame v) ∧ frame_loaded p = false) ∧
  (buttons_enabled v = true →
     shown_frame (PreviewTab (press_refresh p)) ≠ shown_frame v ∧ shows_spinner (PreviewTab (press_refresh p)) = true) ∧
  (∀ p' k u u', preview_reachable p' → shown_frame v = Some (k, u) → shown_frame (PreviewTab p') = Some (k, u') →
     u = u' ∧ reloadKey p = reloadKey p').
Proof.
  pose proof (preview_reachable_ok p Hp) as [Hl Hr]. cbn [PreviewTab shown_frame shows_spinner buttons_enabled]. split_and!.
  - unfold frame_of, address_of. by destruct (previewUrl _ _).
  - unfold frame_of. rewrite Hl. destruct (address_of p); [|split; [done|by intros [[? [=]] _]]].
    rewrite negb_true_iff. split; [intros ->; split; [by eexists|done]|by intros [_ ->]].
  - intros Hb. unfold press_refresh. destruct (address_of p) as [url|] eqn:Hu; [|done].
    assert (address_of (rerender (preview_params p) (reloadKey p + 1) p) = Some url) as Hu' by exact Hu.
    unfold frame_of. rewrite Hu, Hu'. split.
    + intros [= Hkey]. apply frame_key_inj in Hkey as [_ Hn]; [|cbn; lia..]. cbn in Hn. lia.
    + unfold rerender. cbn [isLoading]. rewrite (proj2 (Z.eqb_neq _ _)) by lia. rewrite orb_true_r. unfold address_of in Hu. by rewrite Hu.
  - intros p' k u u' Hp'. pose proof (preview_reachable_ok p' Hp') as [_ Hr']. unfold frame_of.
    destruct (address_of p) as [url|]; [|done]. destruct (address_of p') as [url'|]; [|done].
    intros [= <- <-] [= Hkey <-]. by apply frame_key_inj in Hkey as [-> ->].
Qed.

Definition example_preview : preview_page := open_preview_page (js "box") [(js "port", js "5173")].

Lemma preview_frame_current_witness :
  shown_frame (PreviewTab (press_refresh example_preview)) ≠ shown_frame (PreviewTab example_preview).
Proof.
  exact (proj1 (proj1 (proj2 (proj2 (preview_frame_current example_preview (preview_init (js "box") [(js "port", js "5173")])))) eq_refl)).
Defined.

(** The launcher never opens. A popover that is told whether it is open leaves
    it to the page to open it when its target is clicked, and only asks to be
    closed; the page sets no handler on the target. So whatever is clicked and
    pressed, the launcher stays as it was at first, closed, and its scope and
    port can never be chosen: no preview is ever launched. *)
Theorem launcher_never_opens asks sandboxId defaultScope defaultPort l
    (Htarget : ∀ b, asks TargetClicked b = None)
    (Hdismiss : ∀ e b v, asks e b = Some v → e ≠ TargetClicked → v = false)
    (Hsteps : rtc (launcher_step asks sandboxId defaultScope) (initial_launcher defaultScope defaultPort) l) :
  l = initial_launcher defaultScope defaultPort.
Proof.
  remember (initial_launcher defaultScope defaultPort) as l0 eqn:Hl0.
  assert (launcher_open l0 = false) as Hclosed by by subst. clear Hl0.
  induction Hsteps as [l|l1 l2 l3 Hstep _ IH]; [done|].
  assert (l2 = l1) as ->; [|by apply IH].
  destruct Hstep as [e l|v l Ho|v l Ho|l Ho]; try (by rewrite Hclosed in Ho).
  unfold popover_happens. destruct (asks e (launcher_open l)) as [b|] eqn:He; [|done].
  destruct e; [by rewrite Htarget in He|..]; apply Hdismiss in He as ->; try done; destruct l; cbn in *; by subst.
Qed.

(** A popover that closes when the reader clicks outside or presses Escape. *)
Definition example_popover (e : popover_event) (opened : bool) : option bool :=
  match e with TargetClicked => None | _ => if opened then Some false else None end.

Lemma launcher_never_opens_witness :
  popover_happens example_popover TargetClicked (initial_launcher SHARED []) = initial_launcher SHARED [].
Proof.
  refine (launcher_never_opens example_popover (js "box") SHARED [] _ _ _ _).
  - reflexivity.
  - intros e b v He Hne. destruct e, b; cbn in He; congruence.
  - eapply rtc_l; [apply launcher_popover|apply rtc_refl].
Defined.
