(* ===== verification/CardPage.v ===== *)
(** The card of a command ([web/src/pages/sandbox/terminal/CommandCard.tsx],
    [StdinBar.tsx], [TranscriptViewer.tsx]): what it shows, the transcript that
    the viewers of a card opened more than once share, and the controls it
    sends while its input comes and goes. *)
From S2P Require Import Prelude JsNumber JsText NumText Json Types TerminalText Ledger Terminal Format Cards Transcript.

(** ** The head of a card *)

Inductive card_status :=
  | RunningFor (elapsed : jsstr)
  | Rejected (tone label : jsstr)
  | Settled (tone label : jsstr).

Definition elapsedSeconds (now : Z) (e : LedgerEntry) : number :=
  num_div (num_of_Z ((endedAt e ?? now) - startedAt e)) (num_of_Z 1000).

(** " · " *)
Definition middle_dot : jsstr := [32; 183; 32].

Definition card_status_of (now : Z) (e : LedgerEntry) : card_status :=
  if bool_decide (entry_status e = running) then RunningFor (formatDuration (elapsedSeconds now e))
  else if entry_publishRejected e then
    Rejected (toneColors tone_bad)
      (js "publish rejected" ++ match entry_publishRejectClass e with Some (u :: c) => middle_dot ++ u :: c | _ => [] end)
  else Settled (StateBadge (badge_command (entry_status e)))
         (match entry_exitCode e with Some c => CommandStatus_string (entry_status e) ++ middle_dot ++ js "exit " ++ Z_to_js c
                                    | None => CommandStatus_string (entry_status e) end).

Record card_head := { card_anchor : option jsstr; card_toggle : jsstr; card_owner : jsstr; card_state : card_status }.

Definition card_head_of (now : Z) (expanded : bool) (e : LedgerEntry) : card_head :=
  {| card_anchor := match commandSessionId e with Some (u :: s) => Some (js "cmd-" ++ u :: s) | _ => None end;
     card_toggle := js (if expanded then "Collapse" else "Expand") ++ js " command " ++ cmd e;
     card_owner := if autoPublish e then js "auto-publish" else workspaceSessionId e ?? js "session ?";
     card_state := card_status_of now e |}.

(** ** The frame, which is there while the card is open *)

Inductive inline_transcript := InlineLines (ls : list jsstr) | NoOutput.

Definition InlineTranscript (output : jsstr) : inline_transcript :=
  if bool_decide (output = []) then NoOutput else InlineLines (split 10 output).

Record card_frame := { frame_launcher : option jsstr; frame_body : card_body }.

(** The launcher's scope, for a command that runs; the body and the input. *)
Definition card_frame_of (previewScopes : list jsstr) (e : LedgerEntry) : card_frame :=
  {| frame_launcher := if bool_decide (entry_status e = running) then Some (defaultScope e previewScopes) else None;
     frame_body := card_shows e |}.

Definition CommandCard (now : Z) (previewScopes : list jsstr) (expanded : bool) (e : LedgerEntry) : card_head * option card_frame :=
  (card_head_of now expanded e, if expanded then Some (card_frame_of previewScopes e) else None).

(** The viewer of a transcript: the alert, the lines at the rows the
    virtualizer draws, the note of an empty one, and the counter. *)
Record viewer_shown := { stale_alert : bool; drawn_lines : list (nat * jsstr); empty_note : option jsstr; line_counter : jsstr }.

Definition TranscriptViewer (is_running : bool) (rows : list nat) (st : TranscriptState) : viewer_shown :=
  {| stale_alert := match transcript_error st with Some (_ :: _) => true | _ => false end;
     drawn_lines := (λ i, (i, match lines st !! i with Some (Some l) => l | _ => [] end)) <$> rows;
     empty_note := if bool_decide (lines st = [])
                   then Some (if is_running then js "waiting for output" ++ [8230] else js "no output") else None;
     line_counter := js "lines " ++ Z_to_js (fetchedTo st) ++ js " of " ++ Z_to_js (totalLines st) ++
                     (if is_running then middle_dot ++ js "tailing" else []) |}.

(** ** One transcript, several viewers

    The transcript of a command is kept for the page; a card that is closed and
    opened again has a new viewer, while calls of the former one may be out. *)

(** A call under way: the offset it asked for, and whether it is of the viewer
    that is mounted. *)
Record page_call := { call_offset : Z; call_mine : bool }.

Record shared_transcript := { held : TranscriptState; calls : list page_call }.

(** [fetchPages] of the mounted viewer: its poll, its nudge, its effects. *)
Definition viewer_fetches (s : shared_transcript) : shared_transcript :=
  if js_some call_mine (calls s) then s
  else {| held := held s; calls := calls s ++ [{| call_offset := fetchedTo (held s); call_mine := true |}] |}.

(** The card is closed and opened. *)
Definition viewer_remounts (s : shared_transcript) : shared_transcript :=
  {| held := held s; calls := (λ c, {| call_offset := call_offset c; call_mine := false |}) <$> calls s |}.

(** The call at [i] is answered, or fails. *)
Definition call_answered (i : nat) (out : CommandOutput) (s : shared_transcript) : shared_transcript :=
  match calls s !! i with
  | None => s
  | Some c =>
      let state := absorbOutput (held s) out in
      if fetchedTo state <? totalLines state
      then {| held := state; calls := <[i := {| call_offset := fetchedTo state; call_mine := call_mine c |}]> (calls s) |}
      else {| held := set_error state None; calls := delete i (calls s) |}
  end.

Definition call_failed (i : nat) (m : jsstr) (s : shared_transcript) : shared_transcript :=
  match calls s !! i with
  | None => s
  | Some _ => {| held := set_error (held s) (Some m); calls := delete i (calls s) |}
  end.

(** The server answers from what the command has written by then: some of its
    lines, from the first on, at least the ones it has told of. *)
Inductive shared_step (full : list jsstr) : shared_transcript → shared_transcript → Prop :=
  | shared_fetch s : shared_step full s (viewer_fetches s)
  | shared_remount s : shared_step full s (viewer_remounts s)
  | shared_answer i c written status s :
      calls s !! i = Some c → written `prefix_of` full → call_offset c ≤ Z.of_nat (length written) →
      shared_step full s (call_answered i (page_output written status (call_offset c)) s)
  | shared_failure i m s : shared_step full s (call_failed i m s)
  | shared_scroll a b c s : shared_step full s {| held := scroll_settles a b c (held s); calls := calls s |}.

Inductive shared_reachable (full : list jsstr) : shared_transcript → Prop :=
  | shared_init : shared_reachable full {| held := fresh_transcript; calls := [] |}
  | shared_next s s' : shared_reachable full s → shared_step full s s' → shared_reachable full s'.

(** ** The input and the controls under way *)

(** A control being written: by the frame, or by the input; [of_input] tells
    that the input is the one on the page. *)
Record control_call := { of_frame : bool; of_input : bool }.

Record card_input := { input_open : bool; input_entry : LedgerEntry; input_state : stdin_state; controls : list control_call }.

(** The input is there while the card is open and its command runs in a
    session of its own. *)
Definition input_offered (open : bool) (e : LedgerEntry) : bool :=
  open && bool_decide (entry_status e = running) && truthy_text (commandSessionId e).

Definition forget (c : control_call) : control_call := {| of_frame := of_frame c; of_input := false |}.

(** The card with another entry or another toggle: an input that goes takes
    its line and its pending flag along. *)
Definition with_card (open : bool) (e : LedgerEntry) (p : card_input) : card_input :=
  if input_offered open e then {| input_open := open; input_entry := e; input_state := input_state p; controls := controls p |}
  else {| input_open := open; input_entry := e;
          input_state := {| text := []; input_pending := false; frame_pending := frame_pending (input_state p) |};
          controls := forget <$> controls p |}.

(** The calls that a change of the pending flags stands for. *)
Definition started (s s' : stdin_state) : list control_call :=
  (if negb (input_pending s) && input_pending s' then [{| of_frame := false; of_input := true |}] else []) ++
  (if negb (frame_pending s) && frame_pending s' then [{| of_frame := true; of_input := false |}] else []).

Definition with_input (s : stdin_state) (p : card_input) : card_input :=
  {| input_open := input_open p; input_entry := input_entry p; input_state := s; controls := controls p ++ started (input_state p) s |}.

Definition toggle_card (p : card_input) : card_input := with_card (negb (input_open p)) (input_entry p) p.

Definition card_running (p : card_input) : bool := bool_decide (entry_status (input_entry p) = running).

Definition press_in_input (selecting : bool) (ev : key_press) (p : card_input) : card_input :=
  with_input (key_in_input (card_running p) (commandSessionId (input_entry p)) selecting ev (input_state p)).1 p.

Definition press_in_frame (selecting : bool) (ev : key_press) (p : card_input) : card_input :=
  with_input (frameKeyDown (card_running p) (commandSessionId (input_entry p)) selecting ev (input_state p)).1 p.

Definition press_control (control : jsstr) (p : card_input) : card_input := with_input (sendControl control (input_state p)).1 p.

Definition type_line (line : jsstr) (p : card_input) : card_input :=
  with_input {| text := line; input_pending := input_pending (input_state p); frame_pending := frame_pending (input_state p) |} p.

(** The write at [i] has been answered. *)
Definition control_settles (i : nat) (p : card_input) : card_input :=
  match controls p !! i with
  | None => p
  | Some c =>
      {| input_open := input_open p; input_entry := input_entry p;
         input_state := if of_frame c then frame_settles (input_state p)
                        else if of_input c then input_settles (input_state p) else input_state p;
         controls := delete i (controls p) |}
  end.

Inductive input_step : card_input → card_input → Prop :=
  | input_toggled p : input_step p (toggle_card p)
  | input_patched e p : input_step p (with_card (input_open p) e p)
  | input_key selecting ev p : input_offered (input_open p) (input_entry p) = true → input_step p (press_in_input selecting ev p)
  | input_control c p : input_offered (input_open p) (input_entry p) = true → input_step p (press_control c p)
  | input_typed line p : input_offered (input_open p) (input_entry p) = true → input_step p (type_line line p)
  | frame_key selecting ev p : input_open p = true → input_step p (press_in_frame selecting ev p)
  | input_settled i p : input_step p (control_settles i p).

Definition initial_input (e : LedgerEntry) : card_input :=
  {| input_open := false; input_entry := e; input_state := {| text := []; input_pending := false; frame_pending := false |}; controls := [] |}.

Inductive input_reachable : card_input → Prop :=
  | input_init e : input_reachable (initial_input e)
  | input_next p p' : input_reachable p → input_step p p' → input_reachable p'.

(** ** Facts: the shared transcript *)

Lemma page_output_prefix full written status o :
  written `prefix_of` full → 0 ≤ o < Z.of_nat (length written) → output (page_output written status o) ≠ [] →
  page_of full (page_output written status o).
Proof.
  intros [rest ->] Ho Hne. unfold page_of. split_and!; [|..|exact Hne].
  - cbn. unfold PAGE_LIMIT. lia.
  - cbn. unfold PAGE_LIMIT. lia.
  - cbn. rewrite length_app. lia.
  - cbn [output page_output start_offset end_offset]. rewrite take_app_le; [done|]. unfold PAGE_LIMIT. lia.
Qed.

Record shared_ok (full shown : list jsstr) (s : shared_transcript) : Prop := {
  so_held : caught_up shown (fetchedTo (held s)) (held s);
  so_range : 0 ≤ fetchedTo (held s) ≤ Z.of_nat (length full);
  so_calls : Forall (λ c, 0 ≤ call_offset c ≤ fetchedTo (held s)) (calls s);
}.

Lemma absorb_answer full shown written status o st :
  Forall2 terminal_line full shown → written `prefix_of` full → 0 ≤ o ≤ Z.of_nat (length written) → o ≤ fetchedTo st →
  0 ≤ fetchedTo st ≤ Z.of_nat (length full) → caught_up shown (fetchedTo st) st →
  let st' := absorbOutput st (page_output written status o) in
  caught_up shown (fetchedTo st') st' ∧ fetchedTo st ≤ fetchedTo st' ≤ Z.of_nat (length full).
Proof.
  intros Hshown Hpre Ho Hle Hrange [Hlines _]. cbv zeta.
  destruct (decide (o = Z.of_nat (length written))) as [->|Hne].
  { unfold absorbOutput. rewrite (proj2 (Z.ltb_ge _ _)) by (cbn; unfold PAGE_LIMIT; lia). cbn [andb fetchedTo]. split; [by split|lia]. }
  destruct (decide (output (page_output written status o) = [])) as [Hnil|Hout].
  { unfold absorbOutput. rewrite Hnil, (bool_decide_false ([] ≠ [])) by (intros H; by apply H). rewrite andb_false_r.
    cbn [fetchedTo]. split; [by split|lia]. }
  assert (page_of full (page_output written status o)) as Hpage by (apply page_output_prefix; [done|lia|done]).
  destruct (absorb_page full shown st _ (fetchedTo st) Hshown Hpage) as [Hl Hto]; [cbn; lia|lia|done|done|].
  destruct Hpage as (_ & Hend & _). split; [split; [by rewrite Hto|done]|]. rewrite Hto. lia.
Qed.

Lemma set_error_ok full st e : caught_up full (fetchedTo st) st → caught_up full (fetchedTo (set_error st e)) (set_error st e).
Proof. by intros []. Qed.

Lemma shared_step_ok full shown s s' : Forall2 terminal_line full shown → shared_step full s s' → shared_ok full shown s → shared_ok full shown s'.
Proof.
  intros Hshown Hstep [Hh Hr Hc]. destruct Hstep as [s|s|i c written status s Hi Hpre Hlen|i m s|a b c s].
  - unfold viewer_fetches. destruct (js_some _ _); [by split|]. split; [done..|]. apply Forall_app. split; [done|]. repeat constructor; cbn; lia.
  - split; [done..|]. apply Forall_fmap. eapply Forall_impl; [exact Hc|]. by intros [].
  - pose proof (Forall_lookup_1 _ _ _ _ Hc Hi) as [Ho Hle].
    destruct (absorb_answer full shown written status (call_offset c) (held s) Hshown Hpre ltac:(lia) Hle Hr Hh) as [Hh' Hr'].
    unfold call_answered. rewrite Hi. revert Hh' Hr'. cbv zeta. generalize (absorbOutput (held s) (page_output written status (call_offset c))).
    intros st Hh' Hr'. assert (Forall (λ c, 0 ≤ call_offset c ≤ fetchedTo st) (calls s)) as Hc' by (eapply Forall_impl; [exact Hc|]; cbn; lia).
    destruct (_ <? _); split; cbn [held calls]; [done|lia| |by apply set_error_ok|cbn; lia|by apply Forall_delete].
    apply Forall_insert; [done|cbn; lia].
  - unfold call_failed. destruct (calls s !! i); [|by split]. split; cbn [held calls]; [by apply set_error_ok|done|by apply Forall_delete].
  - unfold scroll_settles. case_bool_decide; [by split|]. split; cbn [held calls]; [by destruct Hh|done..].
Qed.

Lemma shared_reachable_ok full shown s : Forall2 terminal_line full shown → shared_reachable full s → shared_ok full shown s.
Proof.
  intros Hshown. induction 1 as [|s s' _ IH Hstep]; [|by eapply shared_step_ok].
  split; [by split|cbn; lia|constructor].
Qed.

(** ** Facts: controls *)

Definition count_calls (f : control_call → bool) (l : list control_call) : nat := length (js_filter f l).

Record input_ok (p : card_input) : Prop := {
  io_input : count_calls of_input (controls p) = if input_pending (input_state p) then 1%nat else 0%nat;
  io_frame : count_calls of_frame (controls p) = if frame_pending (input_state p) then 1%nat else 0%nat;
  io_apart : Forall (λ c, of_frame c = true → of_input c = false) (controls p);
}.

Lemma count_app f l l' : count_calls f (l ++ l') = (count_calls f l + count_calls f l')%nat.
Proof. unfold count_calls. by rewrite js_filter_app, length_app. Qed.

Lemma count_delete f i c l : l !! i = Some c → count_calls f l = (count_calls f (delete i l) + (if f c then 1 else 0))%nat.
Proof.
  intros Hi. rewrite delete_take_drop. rewrite <- (take_drop_middle l i c Hi) at 1. rewrite !count_app.
  unfold count_calls at 2. cbn [List.filter]. destruct (f c); cbn [length]; unfold count_calls; lia.
Qed.

Lemma count_forget l : count_calls of_frame (forget <$> l) = count_calls of_frame l ∧ count_calls of_input (forget <$> l) = 0%nat.
Proof.
  unfold count_calls. induction l as [|c l [IH1 IH2]]; [done|]. cbn [fmap list_fmap List.filter forget of_frame of_input].
  destruct (of_frame c); cbn [length]; split; congruence || done.
Qed.

Lemma with_card_ok open e p : input_ok p → input_ok (with_card open e p).
Proof.
  intros [Hi Hf Ha]. unfold with_card. destruct (input_offered open e); [by split|].
  destruct (count_forget (controls p)) as [H1 H2]. split; cbn [controls input_state input_pending frame_pending]; [exact H2|by rewrite H1|].
  apply Forall_fmap. eapply Forall_impl; [exact Ha|]. done.
Qed.

(** Keys and buttons never clear a flag. *)
Definition only_sets (s s' : stdin_state) : Prop :=
  (input_pending s = true → input_pending s' = true) ∧ (frame_pending s = true → frame_pending s' = true).

Lemma with_input_ok s p : only_sets (input_state p) s → input_ok p → input_ok (with_input s p).
Proof.
  intros [Hs1 Hs2] [Hi Hf Ha]. unfold with_input, started. split; cbn [controls input_state].
  - rewrite !count_app, Hi. destruct (input_pending (input_state p)), (input_pending s), (frame_pending (input_state p)), (frame_pending s);
      try done; by specialize (Hs1 eq_refl).
  - rewrite !count_app, Hf. destruct (input_pending (input_state p)), (input_pending s), (frame_pending (input_state p)), (frame_pending s);
      try done; by specialize (Hs2 eq_refl).
  - apply Forall_app. split; [done|]. apply Forall_app. split; [destruct (_ && _); by repeat constructor|destruct (_ && _); by repeat constructor].
Qed.

Lemma press_control_sends c p : input_pending (input_state p) = false →
  controls (press_control c p) = controls p ++ [{| of_frame := false; of_input := true |}].
Proof.
  intros Hp. unfold press_control, with_input, sendControl, started. rewrite Hp. cbn [fst controls input_pending frame_pending negb andb].
  by destruct (frame_pending (input_state p)).
Qed.

Lemma frame_sets r session sel ev s : only_sets s (frameKeyDown r session sel ev s).1.
Proof. unfold frameKeyDown, only_sets. repeat case_match; done. Qed.

Lemma input_sets ev s : only_sets s (input_keydown ev s).1.1.
Proof. unfold input_keydown, submitLine, sendControl, only_sets. repeat case_match; done. Qed.

Lemma key_sets r session sel ev s : only_sets s (key_in_input r session sel ev s).1.
Proof.
  unfold key_in_input. pose proof (input_sets ev s) as Hs. destruct (input_keydown ev s) as [[s1 w] []]; [exact Hs|].
  pose proof (frame_sets r session sel ev s1) as Hf. destruct (frameKeyDown r session sel ev s1) as [s2 w2].
  unfold only_sets in *. cbn in *. tauto.
Qed.

Lemma settles_ok i p : input_ok p → input_ok (control_settles i p).
Proof.
  intros Hok. unfold control_settles. destruct (controls p !! i) as [c|] eqn:Hc; [|done]. destruct Hok as [Hi Hf Ha].
  pose proof (count_delete of_input i c _ Hc) as Hdi. pose proof (count_delete of_frame i c _ Hc) as Hdf.
  pose proof (Forall_lookup_1 _ _ _ _ Ha Hc) as Hapart.
  split; cbn [controls input_state]; [| |by apply Forall_delete].
  - destruct (of_frame c) eqn:Hfc; [rewrite (Hapart Hfc) in Hdi|destruct (of_input c)]; cbn [frame_settles input_settles input_pending];
      destruct (input_pending (input_state p)); lia.
  - destruct (of_frame c) eqn:Hfc; [|destruct (of_input c)]; cbn [frame_settles input_settles frame_pending];
      destruct (frame_pending (input_state p)); lia.
Qed.

Lemma input_step_ok p p' : input_step p p' → input_ok p → input_ok p'.
Proof.
  intros Hstep Hok. destruct Hstep as [p|e p|sel ev p _|c p _|line p _|sel ev p _|i p].
  - by apply with_card_ok.
  - by apply with_card_ok.
  - apply with_input_ok; [apply key_sets|done].
  - apply with_input_ok; [|done]. unfold sendControl, only_sets. by destruct (input_pending (input_state p)) eqn:H; cbn; rewrite ?H.
  - by apply with_input_ok.
  - apply with_input_ok; [apply frame_sets|done].
  - by apply settles_ok.
Qed.

Lemma input_reachable_ok p : input_reachable p → input_ok p.
Proof. induction 1 as [e|p p' _ IH Hstep]; [by split|by eapply input_step_ok]. Qed.

(** ** Theorems *)

(** C19: One transcript for all viewers: however often a card is closed and opened
    while calls are under way, whatever calls of former viewers are answered
    or fail in whatever order, and however the command's output grows in the
    meantime, the transcript holds what the first lines of that output show,
    each once and in place, and every call under way asks for lines from a point
    that has been reached, so that no answer can leave a gap. This is of output
    whose control sequences end within their lines ([terminal_line]); what is
    shown of a line is its text without them. *)
Theorem transcript_shared full shown s
    (Hshown : Forall2 terminal_line full shown) (Hs : shared_reachable full s) :
  lines (held s) = Some <$> take (Z.to_nat (fetchedTo (held s))) shown ∧
  0 ≤ fetchedTo (held s) ≤ Z.of_nat (length full) ∧
  (∀ c, c ∈ calls s → 0 ≤ call_offset c ≤ fetchedTo (held s)) ∧
  (js_some call_mine (calls s) = true → viewer_fetches s = s).
Proof.
  destruct (shared_reachable_ok full shown s Hshown Hs) as [[Hl _] Hr Hc]. split; [exact Hl|]. split; [exact Hr|].
  split; [by rewrite <- Forall_forall|]. intros Hm. unfold viewer_fetches. by rewrite Hm.
Qed.

(** Controls are not repeated while one is under way: the frame has at most
    one control under way and so has the input on the page, whatever keys and
    buttons are pressed, lines typed and answers received; a further one is
    not sent. *)
Theorem controls_in_flight p (Hp : input_reachable p) :
  (count_calls of_frame (controls p) ≤ 1)%nat ∧ (count_calls of_input (controls p) ≤ 1)%nat ∧
  (count_calls of_input (controls p) = 1%nat → ∀ c, press_control c p = p) ∧
  (count_calls of_frame (controls p) = 1%nat → ∀ sel ev, press_in_frame sel ev p = p).
Proof.
  destruct (input_reachable_ok p Hp) as [Hi Hf _]. rewrite Hi, Hf.
  assert (∀ s, s = input_state p → with_input s p = p) as Hsame.
  { intros s ->. unfold with_input, started. destruct p as [o e [t [] []] l]; cbn; by rewrite app_nil_r. }
  split_and!; [destruct (frame_pending _); lia|destruct (input_pending _); lia| |].
  - intros H1 c. apply Hsame. unfold sendControl. destruct (input_pending (input_state p)); [done|lia].
  - intros H1 sel ev. apply Hsame. unfold frameKeyDown. destruct (frame_pending (input_state p)); [|lia]. by repeat case_match.
Qed.

(** A card that is closed forgets its input: closing and opening the card of
    a running command drops the line that was being typed, and an input that
    had a control under way sends it again. *)
Theorem reopened_card_forgets p c
    (Hoffered : input_offered (input_open p) (input_entry p) = true) :
  let p' := toggle_card (toggle_card p) in
  input_open p' = input_open p ∧ text (input_state p') = [] ∧ input_pending (input_state p') = false ∧
  count_calls of_input (controls (press_control c p')) = 1%nat ∧
  length (controls (press_control c p')) = S (length (controls p)).
Proof.
  cbv zeta. assert (input_open p = true ∧ input_offered true (input_entry p) = true) as [Ho Hoff].
  { unfold input_offered in *. destruct (input_open p); [done|discriminate]. }
  unfold toggle_card, with_card. rewrite Ho. cbn [negb]. change (input_offered false (input_entry p)) with false.
  cbn [input_open input_entry input_state controls negb]. rewrite Hoff. cbn [input_open input_entry input_state controls text input_pending].
  split_and!; [done..| |]; rewrite press_control_sends by done; cbn [controls].
  - by rewrite count_app, (proj2 (count_forget _)).
  - rewrite length_app, length_fmap. cbn [length]. lia.
Qed.

(** ** Examples *)

Definition example_entry : LedgerEntry :=
  {| localId := js "1"; commandSessionId := Some (js "c1"); cmd := js "cat"; workspaceSessionId := Some (js "w1"); autoPublish := false;
     startedAt := 0; entry_status := running; entry_exitCode := None; endedAt := None; inlineOutput := None;
     entry_publishRejected := false; entry_publishRejectClass := None |}.

Definition example_opened_card : card_input := toggle_card (initial_input example_entry).
Definition example_interrupted : card_input := press_control CTRL_C (type_line (js "hello") example_opened_card).

Lemma controls_in_flight_witness : press_control CTRL_C example_interrupted = example_interrupted.
Proof.
  refine (proj1 (proj2 (proj2 (controls_in_flight example_interrupted _))) eq_refl CTRL_C).
  refine (input_next (type_line (js "hello") example_opened_card) _ (input_next example_opened_card _
    (input_next _ _ (input_init example_entry) (input_toggled _)) (input_typed (js "hello") example_opened_card eq_refl))
    (input_control CTRL_C (type_line (js "hello") example_opened_card) eq_refl)).
Defined.

Lemma reopened_card_forgets_witness :
  length (controls (press_control CTRL_C (toggle_card (toggle_card example_interrupted)))) = 2%nat.
Proof. exact (proj2 (proj2 (proj2 (proj2 (reopened_card_forgets example_interrupted CTRL_C eq_refl))))). Defined.

(** A card closed during its first call and opened again. *)
Definition example_text : list jsstr := [js "a"; js "b"].
Definition example_asking : shared_transcript := viewer_fetches {| held := fresh_transcript; calls := [] |}.
Definition example_both : shared_transcript := viewer_fetches (viewer_remounts example_asking).
Definition example_second_first : shared_transcript := call_answered 1 (page_output example_text running 0) example_both.
Definition example_first_late : shared_transcript := call_answered 0 (page_output [js "a"] running 0) example_second_first.

Lemma example_first_late_reachable : shared_reachable example_text example_first_late.
Proof.
  refine (shared_next _ example_second_first _ (shared_next _ example_both _ (shared_next _ (viewer_remounts example_asking) _
    (shared_next _ example_asking _ (shared_next _ _ _ (shared_init _) (shared_fetch _ _)) (shared_remount _ _)) (shared_fetch _ _)) _) _).
  - refine (shared_answer _ 1 {| call_offset := 0; call_mine := true |} example_text running example_both eq_refl _ _); [done|cbn; lia].
  - refine (shared_answer _ 0 {| call_offset := 0; call_mine := false |} [js "a"] running example_second_first eq_refl _ _);
      [by exists [js "b"]|cbn; lia].
Qed.

Lemma transcript_shared_witness : lines (held example_first_late) = Some <$> take (Z.to_nat (fetchedTo (held example_first_late))) example_text.
Proof.
  refine (proj1 (transcript_shared example_text example_text example_first_late _ example_first_late_reachable)).
  apply plain_lines. decide_closed.
Defined.

(** The total is that of the last answer, also of a late one: the counter can
    say that more lines were fetched than there are. *)
Example counter_goes_back :
  line_counter (TranscriptViewer true [] (held example_first_late)) = js "lines 2 of 1" ++ middle_dot ++ js "tailing".
Proof. vm_compute. reflexivity. Qed.
