(* ===== verification/SidebarPage.v ===== *)
(** The session list of the terminal's sidebar as it is shown
    ([SessionList] and the end of [SessionSidebar] in
    [web/src/pages/sandbox/terminal/SessionSidebar.tsx]): the menu that creates
    sessions, one row for each session with its link, its buttons and its
    notices, the links of quick runs and of all commands, and the drawer or
    rail around them, composed with the footer of the terminal tab. *)
From S2P Require Import Prelude JsNumber JsText Json Types Observability Activity Rpc Terminal SessionActions Sessions.

(** ** What is shown *)

(** A link: whether it is the active one, and what [onSelect] is called with. *)
Record nav_link := {
  link_active : bool;
  link_label : jsstr;
  link_aria : option jsstr;
  link_description : jsstr;
  link_target : TerminalMode * option jsstr;
}.

Record profile_item := { item_label : jsstr; item_note : jsstr; item_disabled : bool; item_profile : NetworkProfile }.

Record list_row := { row_link : nav_link; shown_buttons : list (row_button * bool); shown_notices : list notice }.

Record session_list := {
  list_heading : option jsstr;
  new_disabled : bool;
  new_loading : bool;
  profile_items : list profile_item;
  list_rows : list list_row;
  list_empty : option jsstr;
  quick_link : nav_link;
  all_link : nav_link;
}.

Definition session_link (p : side_props) (s : sidebar) (r : session_row) : nav_link :=
  {| link_active := bool_decide (sp_mode p = mode_session) && bool_decide (sp_selected p = Some (row_session r));
     link_label := row_session r;
     link_aria := Some (js "Use workspace session " ++ row_session r);
     link_description := row_description s r;
     link_target := (mode_session, Some (row_session r)) |}.

Definition list_row_of (p : side_props) (s : sidebar) (r : session_row) : list_row :=
  {| row_link := session_link p s r; shown_buttons := row_buttons s r; shown_notices := row_feedback s r |}.

Definition new_menu (s : sidebar) : list profile_item :=
  [{| item_label := js "Shared session"; item_note := js "Sandbox network" ++ dot ++ js "retains changes";
      item_disabled := mutationBusy s; item_profile := shared |};
   {| item_label := js "Isolated session"; item_note := js "No external network" ++ dot ++ js "retains changes";
      item_disabled := mutationBusy s; item_profile := isolated |}].

Definition quick_link_of (mode : TerminalMode) : nav_link :=
  {| link_active := bool_decide (mode = mode_quick); link_label := js "Quick run"; link_aria := None;
     link_description := js "shared" ++ dot ++ js "auto-publish"; link_target := (mode_quick, None) |}.

Definition all_link_of (mode : TerminalMode) : nav_link :=
  {| link_active := bool_decide (mode = mode_all); link_label := js "All commands"; link_aria := None;
     link_description := js "unfiltered ledger"; link_target := (mode_all, None) |}.

Definition NO_SESSIONS : jsstr := js "No live sessions. Create one when commands need to share private changes.".

Definition SessionList (p : side_props) (s : sidebar) : session_list :=
  let sessions := session_rows (sp_workspaces p) s in
  {| list_heading := if sp_narrow p then None else Some (js "Workspace sessions");
     new_disabled := bool_decide (busyAction s ≠ None);
     new_loading := createBusy s;
     profile_items := new_menu s;
     list_rows := list_row_of p s <$> sessions;
     list_empty := if bool_decide (sessions = []) then Some NO_SESSIONS else None;
     quick_link := quick_link_of (sp_mode p);
     all_link := all_link_of (sp_mode p) |}.

(** The drawer of a narrow window, which may be closed, or the rail. *)
Inductive side_panel := PanelDrawer (opened : bool) (content : session_list) | PanelRail (content : session_list).

Definition SessionSidebar (opened : bool) (p : side_props) (s : sidebar) : side_panel :=
  if sp_narrow p then PanelDrawer opened (SessionList p s) else PanelRail (SessionList p s).

Definition panel_content (d : side_panel) : session_list := match d with PanelDrawer _ c | PanelRail c => c end.

(** The user can reach the list. *)
Definition panel_shown (d : side_panel) : bool := match d with PanelDrawer opened _ => opened | PanelRail _ => true end.

Definition nav_links (c : session_list) : list nav_link := (row_link <$> list_rows c) ++ [quick_link c; all_link c].

Section page.
Context (sandboxId : jsstr).

Definition side_panel_of (v : term) : side_panel := SessionSidebar (t_open v) (props_of sandboxId v) (side v).

(** A click on a link, and on an item of the menu. *)
Definition follow_link (l : nav_link) (v : term) : term :=
  settle sandboxId (run_effect sandboxId (t_snapshot v) v (Select (link_target l).1 (link_target l).2)).

Definition choose_profile (it : profile_item) (v : term) : term :=
  if item_disabled it then v else settle sandboxId (onCreate sandboxId (item_profile it) v).

Definition footer_of (v : term) : terminal_footer :=
  footer (t_snapshot v) sandboxId (t_params v) (t_optimistic v) (t_failed v).

(** The footer that fits what a row says of its session. *)
Definition footer_of_row (s : sidebar) (r : session_row) : terminal_footer :=
  if row_cleanup s r then footer_unavailable true
  else match row_state r with finalizing => footer_unavailable false | _ => footer_composer (Some (row_session r)) end.
End page.

(** ** Facts *)

Section facts.
Context (sandboxId : jsstr).
Implicit Types v : term.

(** A session the tab knows to have failed is marked in the list, unless it
    was closed here. *)
Definition failures_listed v : Prop := t_failed v ⊆ cleanupRequiredIds (side v) ∪ closedSessionIds (side v).

Lemma drop_created_ids ws s :
  cleanupRequiredIds (drop_created ws s) = cleanupRequiredIds s ∧ closedSessionIds (drop_created ws s) = closedSessionIds s.
Proof. unfold drop_created. by repeat case_match. Qed.

Lemma drop_stale_ids ws s :
  cleanupRequiredIds (drop_stale ws s) = cleanupRequiredIds s ∧ closedSessionIds (drop_stale ws s) = closedSessionIds s.
Proof. unfold drop_stale. by repeat (case_match; cbn). Qed.

Lemma settle_ids v :
  cleanupRequiredIds (side (settle sandboxId v)) = cleanupRequiredIds (side v) ∧
  closedSessionIds (side (settle sandboxId v)) = closedSessionIds (side v).
Proof.
  cbn [settle side with_address with_side].
  destruct (drop_stale_ids (t_workspaces sandboxId v) (drop_created (t_workspaces sandboxId v) (side v))) as [-> ->].
  apply drop_created_ids.
Qed.

Lemma settle_failures v : failures_listed v → failures_listed (settle sandboxId v).
Proof. unfold failures_listed. destruct (settle_ids v) as [-> ->]. done. Qed.

(** The failures a handler reports. *)
Definition reported (es : list side_effect) : gset jsstr :=
  list_to_set (omap (λ e, match e with FinalizationFailed i => Some i | _ => None end) es).

Lemma run_effects_failed snap es v : t_failed (run_effects sandboxId snap es v) = reported es ∪ t_failed v.
Proof.
  unfold run_effects, reported. revert v. induction es as [|e es IH]; intros v; cbn [foldl omap list_omap list_to_set]; [set_solver|].
  rewrite IH. destruct e; cbn [run_effect]; try done; [by destruct (onSelect _ _ _ _ _)|]. cbn. set_solver.
Qed.

Lemma closing_ids p i s :
  cleanupRequiredIds (closeSuccessfulSession p i s).1 = cleanupRequiredIds s ∖ {[i]} ∧
  closedSessionIds (closeSuccessfulSession p i s).1 = {[i]} ∪ closedSessionIds s ∧
  reported (closeSuccessfulSession p i s).2 = ∅.
Proof.
  unfold closeSuccessfulSession. split_and!; [done..|]. unfold reported. cbn [snd].
  by destruct (_ && _), (sp_narrow p).
Qed.

Lemma reported_app es es' : reported (es ++ es') = reported es ∪ reported es'.
Proof. unfold reported. by rewrite omap_app, list_to_set_app_L. Qed.

(** An answer reports no failure that the list does not show. *)
Lemma answers_failures f s a F :
  answers f s a → F ⊆ cleanupRequiredIds s ∪ closedSessionIds s →
  reported (ans_effects a) ∪ F ⊆ cleanupRequiredIds (ans_state a) ∪ closedSessionIds (ans_state a).
Proof.
  intros Ha HF.
  assert (∀ p i es, reported es = ∅ →
    reported ((closeSuccessfulSession p i s).2 ++ es) ∪ F ⊆
      cleanupRequiredIds (closeSuccessfulSession p i s).1 ∪ closedSessionIds (closeSuccessfulSession p i s).1) as Hclose.
  { intros p i es Hes. destruct (closing_ids p i s) as (-> & -> & Hr). rewrite reported_app, Hr, Hes.
    intros x Hx. destruct (decide (x = i)); set_solver. }
  destruct Ha as [n r _|i r _|i c r _]; destruct r as [out|e].
  - change (reported _) with (∅ : gset jsstr). cbn. set_solver.
  - change (reported _) with (∅ : gset jsstr). cbn. set_solver.
  - specialize (Hclose (fl_props f) i [RefreshPublishedState] eq_refl). unfold publishSession_answers.
    by destruct (closeSuccessfulSession _ _ _).
  - unfold publishSession_answers. destruct (closeProblem e); cbn; set_solver.
  - specialize (Hclose (fl_props f) i [RefreshSnapshot] eq_refl). unfold destroySession_answers.
    by destruct (closeSuccessfulSession _ _ _).
  - cbn. set_solver.
Qed.

(** What an answered call waits to tell is no failure either. *)
Definition quiet_waits (fs : list flight_op) : Prop :=
  ∀ f notes, f ∈ fs → fl_waits f = Some notes → reported notes = ∅.

Lemma answers_wait f s a notes : answers f s a → ans_waits a = Some notes → reported notes = ∅.
Proof.
  intros [n r _|i r _|i c r _]; destruct r as [out|e]; try done.
  - unfold publishSession_answers. destruct (closeSuccessfulSession _ _ _). intros [= <-]. unfold published_notice. by destruct (no_op _).
  - unfold publishSession_answers. destruct (closeProblem e); try done; by intros [= <-].
  - unfold destroySession_answers. destruct (closeSuccessfulSession _ _ _). by intros [= <-].
Qed.

(** A handler that changes neither the failures nor the lists of ids, and sends
    at most one call. *)
Lemma same_failures v w :
  failures_listed v ∧ quiet_waits (t_flights v) → t_failed w = t_failed v →
  cleanupRequiredIds (side w) = cleanupRequiredIds (side v) → closedSessionIds (side w) = closedSessionIds (side v) →
  (∀ f, f ∈ t_flights w → f ∈ t_flights v ∨ fl_waits f = None) →
  failures_listed (settle sandboxId w) ∧ quiet_waits (t_flights (settle sandboxId w)).
Proof.
  intros [H Hq] Hf Hc Hd Hfl. split; [apply settle_failures; unfold failures_listed; by rewrite Hf, Hc, Hd|].
  intros f notes [Hin|Hn]%Hfl Hw; [by eapply Hq|congruence].
Qed.

Lemma send_frame op s v :
  cleanupRequiredIds s = cleanupRequiredIds (side v) → closedSessionIds s = closedSessionIds (side v) →
  let w := send sandboxId op s v in
  t_failed w = t_failed v ∧ cleanupRequiredIds (side w) = cleanupRequiredIds (side v) ∧
  closedSessionIds (side w) = closedSessionIds (side v) ∧ (∀ f, f ∈ t_flights w → f ∈ t_flights v ∨ fl_waits f = None).
Proof.
  intros Hc Hd. cbn. split_and!; try done. intros f [Hf| ->%list_elem_of_singleton]%elem_of_app; [by left|by right].
Qed.

Lemma press_frame i b v :
  let w := press sandboxId i b v in
  t_failed w = t_failed v ∧ cleanupRequiredIds (side w) = cleanupRequiredIds (side v) ∧
  closedSessionIds (side w) = closedSessionIds (side v) ∧ (∀ f, f ∈ t_flights w → f ∈ t_flights v ∨ fl_waits f = None).
Proof.
  cbv zeta.
  assert (let w := onDiscard sandboxId i v in t_failed w = t_failed v ∧
    cleanupRequiredIds (side w) = cleanupRequiredIds (side v) ∧ closedSessionIds (side w) = closedSessionIds (side v) ∧
    (∀ f, f ∈ t_flights w → f ∈ t_flights v ∨ fl_waits f = None)) as Hdiscard.
  { unfold onDiscard. destruct (destroySession _ _ _) as [[s c]|] eqn:H; [|split_and!; auto].
    apply destroySession_spec in H as (_ & _ & _ & -> & _). by apply send_frame. }
  destruct b; cbn [press]; try exact Hdiscard; try (split_and!; auto; fail).
  destruct (publishSession _ _ _) as [s|] eqn:H; [|split_and!; auto].
  apply publishSession_spec in H as (_ & _ & _ & ->). by apply send_frame.
Qed.

Lemma create_frame n v :
  let w := onCreate sandboxId n v in
  t_failed w = t_failed v ∧ cleanupRequiredIds (side w) = cleanupRequiredIds (side v) ∧
  closedSessionIds (side w) = closedSessionIds (side v) ∧ (∀ f, f ∈ t_flights w → f ∈ t_flights v ∨ fl_waits f = None).
Proof.
  unfold onCreate. destruct (createSession (side v)) as [s|] eqn:H; [|split_and!; auto].
  apply createSession_spec in H as (_ & _ & ->). by apply send_frame.
Qed.

Lemma deliver_failures v before f after a :
  failures_listed v ∧ quiet_waits (t_flights v) → t_flights v = before ++ f :: after → answers f (side v) a →
  let w := settle sandboxId (deliver sandboxId before f after a v) in failures_listed w ∧ quiet_waits (t_flights w).
Proof.
  intros [Hv Hq] Hf Ha. cbv zeta. split.
  - apply settle_failures. unfold failures_listed, deliver. rewrite run_effects_failed.
    match goal with |- context [run_effects _ ?snap ?es ?u] => destruct (run_effects_frame sandboxId snap es u) as (-> & _) end.
    by apply (answers_failures f (side v)).
  - rewrite deliver_flights. intros g notes Hg Hn. rewrite !elem_of_app in Hg.
    destruct Hg as [Hg|[Hg|Hg]]; [apply (Hq g); [rewrite Hf, elem_of_app; auto|done]
      | |apply (Hq g); [rewrite Hf, elem_of_app, elem_of_cons; auto|done]].
    destruct (ans_waits a) as [l|] eqn:Hw; [|by apply not_elem_of_nil in Hg].
    apply list_elem_of_singleton in Hg as ->. injection Hn as <-. by eapply answers_wait.
Qed.

Lemma refreshed_failures v before f after notes :
  failures_listed v ∧ quiet_waits (t_flights v) → t_flights v = before ++ f :: after → fl_waits f = Some notes →
  let w := settle sandboxId (refreshed sandboxId before f after notes v) in failures_listed w ∧ quiet_waits (t_flights w).
Proof.
  intros [Hv Hq] Hf Hw. cbv zeta. split.
  - apply settle_failures. unfold failures_listed, refreshed. rewrite run_effects_failed.
    match goal with |- context [run_effects _ ?snap ?es ?u] => destruct (run_effects_frame sandboxId snap es u) as (-> & _) end.
    rewrite (Hq f notes) by (rewrite ?Hf, ?elem_of_app, ?elem_of_cons; auto). cbn. unfold failures_listed in Hv. set_solver.
  - rewrite refreshed_flights. intros g l [Hg|Hg]%elem_of_app; apply Hq; rewrite Hf, elem_of_app, ?elem_of_cons; auto.
Qed.

Lemma step_failures v v' :
  failures_listed v ∧ quiet_waits (t_flights v) → term_step sandboxId v v' →
  failures_listed v' ∧ quiet_waits (t_flights v').
Proof.
  intros Hv Hstep.
  destruct Hstep as [v snap Hne|v snap Heq|v r b Hr Hb|v n Hb|v before f after a Hf Hw Ha|v before f after notes Hf Hw|v m i|v params|v|v|v narrow].
  - destruct Hv as [Hv Hq]. split; [|exact Hq]. apply settle_failures. unfold failures_listed in *. cbn in *. set_solver.
  - apply (same_failures v); auto.
  - destruct (press_frame (row_session r) b v) as (? & ? & ? & ?). by apply (same_failures v).
  - destruct (create_frame n v) as (? & ? & ? & ?). by apply (same_failures v).
  - by apply deliver_failures.
  - by eapply refreshed_failures.
  - apply (same_failures v); [done|..]; cbn; destruct (onSelect _ _ _ _ _); auto.
  - apply (same_failures v); auto.
  - apply (same_failures v); auto.
  - apply (same_failures v); auto.
  - apply (same_failures v); auto.
Qed.

Lemma reachable_failures params narrow v : reachable_term sandboxId (initial_term params narrow) v → failures_listed v.
Proof.
  intros H. cut (failures_listed v ∧ quiet_waits (t_flights v)); [by intros []|].
  induction H as [|v v' _ IH Hstep]; [|by eapply step_failures]. split; [done|]. by intros f notes ?%not_elem_of_nil.
Qed.

(** The rows and their order do not depend on where the tab is. *)
Lemma session_rows_NoDup ws s : NoDup (snapshot_workspace_id <$> ws) → NoDup (row_session <$> session_rows ws s).
Proof.
  intros Hnd. unfold session_rows. set (rows := listed_row <$> _).
  assert (NoDup (row_session <$> rows)) as Hrows.
  { unfold rows. rewrite <- list_fmap_compose. change (row_session ∘ listed_row) with snapshot_workspace_id.
    eapply sublist_NoDup; [exact Hnd|]. apply fmap_sublist, js_filter_sublist. }
  destruct (createdSession s) as [c|]; [|done]. destruct (js_some _ rows) eqn:Hs; [done|].
  rewrite fmap_app. apply NoDup_app. split_and!; [done| |apply NoDup_singleton].
  intros i (r & -> & Hr)%list_elem_of_fmap Hi. apply list_elem_of_singleton in Hi. cbn in Hi.
  rewrite js_some_none in Hs. specialize (Hs r Hr). by apply bool_decide_eq_false in Hs.
Qed.

(** The row of a session that is listed and not closed, and of the created one. *)
Lemma row_cases ws s r :
  r ∈ session_rows ws s →
  (∃ w, w ∈ ws ∧ r = listed_row w ∧ snapshot_workspace_id w ∉ closedSessionIds s) ∨
  (∃ c, createdSession s = Some c ∧ r = created_row c).
Proof.
  intros Hr. destruct (persisted r) eqn:Hp; [left; by eapply persisted_row|]. right. unfold session_rows in Hr.
  set (rows := listed_row <$> _) in Hr.
  assert (r ∉ rows) as Hn by (unfold rows; intros (w & -> & _)%list_elem_of_fmap; done).
  destruct (createdSession s) as [c|]; [|done]. destruct (js_some _ rows); [done|].
  apply elem_of_app in Hr as [Hr| ->%list_elem_of_singleton]; [done|]. by exists c.
Qed.

(** Selecting a session that is listed or not leaves it selected. *)
Lemma select_session v i :
  i ≠ [] →
  let w := settle sandboxId (run_effect sandboxId (t_snapshot v) v (Select mode_session (Some i))) in
  t_params w = {| param_session := Some i; param_view := None |} ∧
  selectedSession (t_snapshot w) sandboxId (t_params w) (t_optimistic w) = Some i ∧
  terminal_mode (t_snapshot w) sandboxId (t_params w) (t_optimistic w) = mode_session ∧
  t_open w = false ∧ t_failed w = t_failed v ∧ t_workspaces sandboxId w = t_workspaces sandboxId v.
Proof.
  intros Hi. unfold run_effect, onSelect, truthy_text. rewrite !bool_decide_true by done. cbn [andb].
  set (ws := terminal_workspaces (t_snapshot v) sandboxId).
  set (opt := if js_some _ ws then _ else _).
  assert (Hlisted : i ∈ snapshot_workspace_id <$> ws ↔ workspace_of ws (Some i) ≠ None).
  { split.
    - intros (w & -> & Hw)%list_elem_of_fmap H. unfold workspace_of in H. rewrite js_find_None, Forall_forall in H.
      specialize (H w Hw). by rewrite bool_decide_true in H.
    - intros H. destruct (workspace_of ws (Some i)) as [w|] eqn:Hw; [|done]. apply workspace_of_some in Hw as [Hw <-].
      by apply list_elem_of_fmap_2. }
  assert (Hopt : workspace_of ws (Some i) = None → i ∈ opt).
  { intros Hn. unfold opt. destruct (js_some _ ws) eqn:Hs; [|set_solver]. apply js_some_exists in Hs as (w & Hw & Heq).
    apply bool_decide_eq_true in Heq. injection Heq as <-. exfalso. apply Hlisted; [by apply list_elem_of_fmap_2|done]. }
  assert (Hmiss : ∀ o, (workspace_of ws (Some i) = None → i ∈ o) →
    selectedSessionMissing (t_snapshot v) sandboxId {| param_session := Some i; param_view := None |} o = false).
  { intros o Ho. unfold selectedSessionMissing. cbn [param_session]. fold ws.
    destruct (bool_decide_reflect (workspace_of ws (Some i) = None)) as [Hn|Hn]; [|by rewrite andb_false_r].
    rewrite (bool_decide_false (i ∉ o)) by (intros H; by apply H, Ho). apply andb_false_r. }
  cbv zeta. unfold settle, t_workspaces. cbn [t_params t_optimistic t_snapshot t_open t_failed with_address with_side].
  unfold clear_missing. rewrite (Hmiss opt Hopt).
  assert (Hpr : workspace_of ws (Some i) = None → i ∈ prune_optimistic (t_snapshot v) sandboxId opt).
  { intros Hn. unfold prune_optimistic. fold ws. apply elem_of_filter. split; [|by apply Hopt]. by intros H%Hlisted. }
  specialize (Hmiss _ Hpr). unfold terminal_mode, selectedSession. rewrite Hmiss. cbn [param_session].
  unfold truthy_text. rewrite bool_decide_true by done. done.
Qed.

(** In a state of the invariant the effects have nothing more to drop. *)
Lemma settled_side v :
  term_ok sandboxId v → drop_stale (t_workspaces sandboxId v) (drop_created (t_workspaces sandboxId v) (side v)) = side v.
Proof.
  intros Hok. assert (drop_created (t_workspaces sandboxId v) (side v) = side v) as ->.
  { unfold drop_created. destruct (createdSession (side v)) as [c|] eqn:Hc; [|done].
    destruct (js_some _ _) eqn:Hs; [|done]. apply js_some_exists in Hs as (w & Hw & Heq). apply bool_decide_eq_true in Heq.
    exfalso. apply (ok_created _ _ Hok c Hc). rewrite <- Heq. by apply list_elem_of_fmap_2. }
  unfold drop_stale. assert (match discardConfirmId (side v) with
    | Some i => if truthy_text (Some i) && bool_decide (i ∉ snapshot_workspace_id <$> t_workspaces sandboxId v)
                then with_confirm None (side v) else side v
    | None => side v end = side v) as ->.
  { destruct (discardConfirmId (side v)) as [i|] eqn:Hi; [|done]. destruct (decide (i = [])) as [->|Hne]; [done|].
    rewrite (bool_decide_false (i ∉ _)); [by rewrite andb_false_r|]. intros H. by apply H, (ok_confirm _ _ Hok). }
  destruct (actionProblem (side v)) as [q|] eqn:Hq; [|done].
  rewrite bool_decide_false; [done|]. intros H. by apply H, (ok_problem _ _ Hok).
Qed.

(** What the footer of the selected session says is what its row says. *)
Lemma row_footer ws snapshot params optimistic failed s r :
  ws = terminal_workspaces snapshot sandboxId → NoDup (snapshot_workspace_id <$> ws) →
  r ∈ session_rows ws s → row_session r ≠ [] →
  (∀ c, createdSession s = Some c → created_id c ∉ snapshot_workspace_id <$> ws) →
  (row_session r ∈ failed ↔ row_session r ∈ cleanupRequiredIds s) →
  selectedSession snapshot sandboxId params optimistic = Some (row_session r) →
  terminal_mode snapshot sandboxId params optimistic = mode_session →
  footer snapshot sandboxId params optimistic failed = footer_of_row s r.
Proof.
  intros -> Hnd Hr Hi Hcreated Hfailed Hsel Hmode. unfold footer. rewrite Hmode.
  unfold selectedFinalizationState, footer_of_row, row_cleanup, cleanup_required. rewrite Hsel. unfold truthy_text.
  cbn [default from_option]. unfold Datatypes.id. rewrite (bool_decide_true (row_session r ≠ [])) by done. cbn [andb].
  rewrite (bool_decide_ext _ _ Hfailed). case_bool_decide as Hc; [done|]. cbn [orb].
  apply row_cases in Hr as [(w & Hw & -> & _)|(c & Hc' & ->)]; cbn [row_session listed_row created_row row_state].
  - rewrite workspace_of_unique by done. cbn. by destruct (finalization_state w).
  - destruct (workspace_of _ _) as [w|] eqn:Hw; [|done]. apply workspace_of_some in Hw as [Hw Heq].
    exfalso. apply (Hcreated c Hc'). rewrite <- Heq. by apply list_elem_of_fmap_2.
Qed.

(** Sessions created here that the snapshot does not list stay selectable. *)
Lemma optimistic_kept v i :
  i ∈ t_optimistic v → i ∉ snapshot_workspace_id <$> t_workspaces sandboxId v →
  i ∈ prune_optimistic (t_snapshot v) sandboxId (t_optimistic v).
Proof. intros Hi Hn. unfold prune_optimistic. by apply elem_of_filter. Qed.

Lemma optimistic_grows snap es v : t_optimistic v ⊆ t_optimistic (run_effects sandboxId snap es v).
Proof.
  unfold run_effects. revert v. induction es as [|e es IH]; intros v; [done|]. cbn [foldl]. etransitivity; [|apply IH].
  destruct e; cbn [run_effect]; try done. unfold onSelect. destruct (_ && _); [|done]. destruct (js_some _ _); [done|]. cbn. set_solver.
Qed.

Lemma settle_created v c : createdSession (side (settle sandboxId v)) = Some c → createdSession (side v) = Some c.
Proof.
  cbn [settle side with_address with_side].
  destruct (drop_stale_spec (t_workspaces sandboxId v) (drop_created (t_workspaces sandboxId v) (side v))) as (_ & _ & -> & _).
  unfold drop_created. destruct (createdSession (side v)) as [c'|] eqn:Hc; [|by rewrite Hc]. destruct (js_some _ _); [done|]. by rewrite Hc.
Qed.

Lemma address_selects v i :
  i ≠ [] → i ∈ t_optimistic v → i ∉ snapshot_workspace_id <$> t_workspaces sandboxId v →
  let w := settle sandboxId (with_address {| param_session := Some i; param_view := None |} (t_optimistic v) (t_open v) v) in
  selectedSession (t_snapshot w) sandboxId (t_params w) (t_optimistic w) = Some i ∧
  terminal_mode (t_snapshot w) sandboxId (t_params w) (t_optimistic w) = mode_session.
Proof.
  intros Hi Hopt Hn. cbv zeta. cbn [settle t_params t_optimistic t_snapshot with_address with_side].
  assert (∀ o, i ∈ o → selectedSessionMissing (t_snapshot v) sandboxId {| param_session := Some i; param_view := None |} o = false) as Hm.
  { intros o Ho. unfold selectedSessionMissing. cbn [param_session]. rewrite (bool_decide_false (i ∉ o)) by (intros H; by apply H).
    apply andb_false_r. }
  unfold clear_missing. rewrite (Hm _ Hopt). unfold terminal_mode, selectedSession.
  rewrite (Hm _ (optimistic_kept v i Hopt Hn)). cbn [param_session]. unfold truthy_text. by rewrite bool_decide_true.
Qed.

Lemma no_row ws s i :
  i ∉ snapshot_workspace_id <$> ws → (∀ c, createdSession s = Some c → created_id c ≠ i) →
  ∀ r, r ∈ session_rows ws s → row_session r ≠ i.
Proof.
  intros Hn Hc r Hr. destruct (row_cases _ _ _ Hr) as [(x & Hx & -> & _)|(c & Hs & ->)]; [|by apply Hc].
  intros Heq. apply Hn. rewrite <- Heq. by apply (list_elem_of_fmap_2 snapshot_workspace_id).
Qed.

Lemma footer_unlisted v i :
  selectedSession (t_snapshot v) sandboxId (t_params v) (t_optimistic v) = Some i →
  terminal_mode (t_snapshot v) sandboxId (t_params v) (t_optimistic v) = mode_session →
  i ∉ t_failed v → i ∉ snapshot_workspace_id <$> t_workspaces sandboxId v → footer_of sandboxId v = footer_composer (Some i).
Proof.
  intros Hsel Hmode Hok Hn. unfold footer_of, footer. rewrite Hmode. unfold selectedFinalizationState. rewrite Hsel.
  cbn [default from_option]. unfold Datatypes.id. rewrite (bool_decide_false (i ∈ t_failed v)), andb_false_r by done.
  destruct (workspace_of _ _) as [x|] eqn:Hx; [|done]. apply workspace_of_some in Hx as [Hx Heq].
  exfalso. apply Hn. rewrite <- Heq. by apply list_elem_of_fmap_2.
Qed.

(** The links that are active. *)
Definition active_links (c : session_list) : list nav_link := js_filter link_active (nav_links c).

Lemma active_links_eq p s :
  active_links (SessionList p s) =
  (if bool_decide (sp_mode p = mode_session)
   then session_link p s <$> js_filter (λ r, bool_decide (sp_selected p = Some (row_session r))) (session_rows (sp_workspaces p) s)
   else []) ++
  (if bool_decide (sp_mode p = mode_quick) then [quick_link_of (sp_mode p)] else []) ++
  (if bool_decide (sp_mode p = mode_all) then [all_link_of (sp_mode p)] else []).
Proof.
  unfold active_links, nav_links. cbn [list_rows SessionList quick_link all_link]. rewrite js_filter_app. f_equal.
  - induction (session_rows (sp_workspaces p) s) as [|r rs IH]; [by destruct (bool_decide _)|].
    rewrite !fmap_cons. cbn [js_filter List.filter row_link list_row_of session_link link_active].
    destruct (bool_decide (sp_mode p = mode_session)); [|exact IH]. cbn [andb].
    destruct (bool_decide (sp_selected p = Some (row_session r))); [|exact IH]. rewrite fmap_cons. by f_equal.
  - cbn [js_filter List.filter quick_link_of all_link_of link_active]. by destruct (sp_mode p).
Qed.

Lemma active_links_one p s :
  NoDup (row_session <$> session_rows (sp_workspaces p) s) → (length (active_links (SessionList p s)) ≤ 1)%nat.
Proof.
  intros Hnd. rewrite active_links_eq. destruct (sp_mode p); [done| |done].
  change (bool_decide (mode_session = mode_session)) with true. cbv iota. rewrite app_nil_r, length_fmap.
  set (rs := session_rows _ _) in *. set (q := λ r : session_row, bool_decide (sp_selected p = Some (row_session r))).
  destruct (js_filter q rs) as [|r l] eqn:Hf; [cbn; lia|].
  assert (r ∈ rs ∧ q r = true) as [Hr Hq] by (apply (js_filter_elem q rs r); rewrite Hf; by left).
  rewrite (js_filter_unique row_session q rs r) in Hf; [|done..|].
  - injection Hf as <-. cbn. lia.
  - intros y _ Hy. apply bool_decide_eq_true in Hq, Hy. congruence.
Qed.
End facts.

(** ** Theorems *)

(** A row opens its session, and the tab agrees with it. When the link of a
    row is followed, from any reachable state, the session is the selected one
    and the row's link the only active one; the sidebar is as it was, a drawer
    is closed; and what stands below the ledger is what the row says: the
    unavailable footer for a session whose row asks for a cleanup or is
    finalizing, and a composer for that very session otherwise. *)
Theorem row_opens_session sandboxId params narrow v r
    (Hreach : reachable_term sandboxId (initial_term params narrow) v)
    (Hnd : NoDup (snapshot_workspace_id <$> t_workspaces sandboxId v))
    (Hr : r ∈ session_rows (t_workspaces sandboxId v) (side v)) (Hi : row_session r ≠ [])
    (Hfresh : persisted r = false → row_session r ∉ closedSessionIds (side v)) :
  let w := follow_link sandboxId (session_link (props_of sandboxId v) (side v) r) v in
  side w = side v ∧ panel_shown (side_panel_of sandboxId w) = negb (t_narrow v) ∧
  active_links (panel_content (side_panel_of sandboxId w)) = [session_link (props_of sandboxId w) (side w) r] ∧
  footer_of sandboxId w = footer_of_row (side w) r.
Proof.
  cbv zeta. pose proof (reachable_ok _ _ _ _ Hreach) as Hok. unfold follow_link. cbn [session_link link_target fst snd].
  destruct (select_session sandboxId v (row_session r) Hi) as (_ & Hsel & Hmode & Hopen & Hfailed & Hws).
  set (w := settle _ _) in *.
  assert (side w = side v) as Hside.
  { transitivity (drop_stale (t_workspaces sandboxId v) (drop_created (t_workspaces sandboxId v) (side v)));
      [|by apply settled_side]. unfold w. cbn [run_effect]. by destruct (onSelect _ _ _ _ _). }
  assert (t_narrow w = t_narrow v) as Hnarrow by (unfold w; cbn [run_effect]; by destruct (onSelect _ _ _ _ _)).
  assert (row_session r ∉ closedSessionIds (side v)) as Hcl.
  { destruct (row_cases _ _ _ Hr) as [(u & _ & -> & Hu)|(c & _ & ->)]; [done|by apply Hfresh]. }
  split_and!; [done| | |].
  - unfold side_panel_of, SessionSidebar. cbn [sp_narrow props_of]. rewrite Hnarrow, Hopen. by destruct (t_narrow v).
  - assert (panel_content (side_panel_of sandboxId w) = SessionList (props_of sandboxId w) (side w)) as ->
      by (unfold side_panel_of, SessionSidebar; by destruct (sp_narrow _)).
    rewrite active_links_eq. cbn [sp_mode sp_selected sp_workspaces props_of]. rewrite Hmode, Hsel, Hws, Hside. cbn [app].
    rewrite bool_decide_true, app_nil_r by done.
    rewrite (js_filter_unique row_session _ _ r); [done|by apply session_rows_NoDup|done|by apply bool_decide_eq_true|].
    intros y _ Hy. apply bool_decide_eq_true in Hy. congruence.
  - rewrite Hside. apply (row_footer sandboxId (t_workspaces sandboxId v)); try done.
    + by intros c ?%(ok_created _ _ Hok).
    + rewrite Hfailed. split; [|apply Hok]. intros H%(reachable_failures _ _ _ _ Hreach). set_solver.
Qed.

(** The list offers what can be done. In every reachable state the items that
    create a session are enabled exactly when no call is under way, and then
    choosing one sends one creation with its profile; otherwise it sends
    nothing; of all links at most one is active, and exactly one when no
    session is selected; and a drawer that was closed asks for no
    confirmation when it is opened again. *)
Theorem session_list_controls sandboxId params narrow v it
    (Hreach : reachable_term sandboxId (initial_term params narrow) v)
    (Hnd : NoDup (snapshot_workspace_id <$> t_workspaces sandboxId v))
    (Hit : it ∈ profile_items (panel_content (side_panel_of sandboxId v))) :
  let c := panel_content (side_panel_of sandboxId v) in
  (item_disabled it = false ↔ t_flights v = []) ∧
  t_sent (choose_profile sandboxId it v) =
    t_sent v ++ (if bool_decide (t_flights v = []) then [op_create (item_profile it)] else []) ∧
  (length (active_links c) ≤ 1)%nat ∧
  (sp_mode (props_of sandboxId v) ≠ mode_session → length (active_links c) = 1%nat) ∧
  let w := settle sandboxId (with_address (t_params v) (t_optimistic v) true (settle sandboxId (close_drawer v))) in
  ∀ r, confirming (side w) r = false.
Proof.
  cbv zeta. pose proof (reachable_ok _ _ _ _ Hreach) as Hok. pose proof (core_busy _ (ok_core _ _ Hok)) as Hbusy.
  assert (panel_content (side_panel_of sandboxId v) = SessionList (props_of sandboxId v) (side v)) as Hc
    by (unfold side_panel_of, SessionSidebar; by destruct (sp_narrow _)).
  rewrite Hc in *. assert (item_disabled it = mutationBusy (side v)) as Hdis.
  { cbn [SessionList profile_items new_menu] in Hit. by apply elem_of_cons in Hit as [->| ->%list_elem_of_singleton]. }
  pose proof (mutationBusy_flags _ _ Hbusy) as Hflags.
  assert (item_disabled it = false ↔ t_flights v = []) as Hfree.
  { rewrite Hdis. destruct (mutationBusy (side v)), (t_flights v); naive_solver. }
  split_and!; [done| | | |].
  - unfold choose_profile. destruct (item_disabled it).
    + rewrite bool_decide_false by (intros H; by apply Hfree in H). by rewrite app_nil_r.
    + rewrite bool_decide_true by (by apply Hfree). unfold onCreate, createSession, mutationBusy in *.
      by rewrite <- Hdis.
  - apply active_links_one. by apply session_rows_NoDup.
  - intros Hmode. rewrite active_links_eq. by destruct (sp_mode _).
  - intros r. apply bool_decide_eq_false. cbn [close_drawer settle side with_address with_side with_confirm].
    intros H. assert (∀ ws s, discardConfirmId s = None → discardConfirmId (drop_stale ws (drop_created ws s)) = None) as Hn.
    { intros ws s Hs. destruct (drop_created_spec ws s) as (_ & _ & Hd & _). unfold drop_stale. rewrite Hd, Hs.
      by repeat case_match; cbn; rewrite ?Hd. }
    rewrite Hn in H; [done|]. by apply Hn.
Qed.

(** The list has a row for the last session created here only. When one more
    is created before the snapshot lists the first, the first one's row goes,
    although it is still an optimistic session of the tab: the address can go
    back to it, the composer then runs commands in it, and no link is active. *)
Theorem created_row_replaced sandboxId params narrow v f n a out
    (Hreach : reachable_term sandboxId (initial_term params narrow) v) (Hf : t_flights v = [f])
    (Hop : fl_op f = op_create n) (Ha : createdSession (side v) = Some a) (Hne : created_id a ≠ created_session_id out)
    (Hnil : created_id a ≠ []) (Hopt : created_id a ∈ t_optimistic v) (Hok : created_id a ∉ t_failed v) :
  let w := settle sandboxId (deliver sandboxId [] f [] (createSession_answers (Returns out) (side v)) v) in
  let back := settle sandboxId (with_address {| param_session := Some (created_id a); param_view := None |} (t_optimistic w) (t_open w) w) in
  (∀ r, r ∈ session_rows (t_workspaces sandboxId back) (side back) → row_session r ≠ created_id a) ∧
  footer_of sandboxId back = footer_composer (Some (created_id a)) ∧
  active_links (panel_content (side_panel_of sandboxId back)) = [].
Proof.
  intros w back. pose proof (ok_created _ _ (reachable_ok _ _ _ _ Hreach) _ Ha) as Hun.
  set (es := ans_effects (createSession_answers (Returns out) (side v))).
  set (u := with_flights [] (t_sent v) (with_side (ans_state (createSession_answers (Returns out) (side v))) v)).
  destruct (run_effects_frame sandboxId (fl_snapshot f) es u) as (Hs & _ & _ & Hsn & _).
  assert (t_snapshot w = t_snapshot v) as Hsnap by exact Hsn.
  assert (t_failed w = t_failed v) as Hfailed.
  { change (t_failed (run_effects sandboxId (fl_snapshot f) es u) = t_failed v). rewrite run_effects_failed.
    change (reported es) with (∅ : gset jsstr). apply (left_id_L ∅ (∪)). }
  assert (created_id a ∈ t_optimistic w) as Hw.
  { apply (optimistic_kept sandboxId (run_effects sandboxId (fl_snapshot f) es u));
      [exact (optimistic_grows sandboxId (fl_snapshot f) es u _ Hopt)|]. unfold t_workspaces. rewrite Hsn. exact Hun. }
  assert (∀ c, createdSession (side back) = Some c → created_id c = created_session_id out) as Hcreated.
  { intros c Hc. apply settle_created in Hc. unfold w in Hc. apply settle_created in Hc.
    unfold deliver in Hc. change (createdSession (side (run_effects sandboxId (fl_snapshot f) es u)) = Some c) in Hc.
    rewrite Hs in Hc. by injection Hc as <-. }
  assert (t_workspaces sandboxId back = t_workspaces sandboxId v) as Hws by (unfold t_workspaces; by rewrite <- Hsnap).
  assert (created_id a ∉ snapshot_workspace_id <$> t_workspaces sandboxId w) as Hww by (unfold t_workspaces; rewrite Hsnap; exact Hun).
  destruct (address_selects sandboxId w (created_id a) Hnil Hw Hww) as (Hsel & Hmode). fold back in Hsel, Hmode.
  assert (∀ r, r ∈ session_rows (t_workspaces sandboxId back) (side back) → row_session r ≠ created_id a) as Hrows.
  { apply no_row; [by rewrite Hws|]. intros c Hc%Hcreated. congruence. }
  split_and!; [exact Hrows| |].
  - apply footer_unlisted; [done..| |by rewrite Hws]. change (t_failed back) with (t_failed w). by rewrite Hfailed.
  - assert (panel_content (side_panel_of sandboxId back) = SessionList (props_of sandboxId back) (side back)) as ->
      by (unfold side_panel_of, SessionSidebar; by destruct (sp_narrow _)).
    rewrite active_links_eq. cbn [sp_mode sp_selected sp_workspaces props_of]. rewrite Hmode, Hsel.
    change (bool_decide (mode_session = mode_session)) with true. cbn [app]. rewrite app_nil_r.
    match goal with |- _ <$> ?l = [] => assert (l = []) as ->; [|done] end.
    apply elem_of_nil_inv. intros r [Hr Hq]%js_filter_elem. apply bool_decide_eq_true in Hq. apply (Hrows r Hr). congruence.
Qed.

(** ** Examples *)

Definition created_as (i : string) : WorkspaceSessionCreated :=
  {| created_session_id := js i; created_network := session_shared |}.

(** Two sessions created one after the other, before a snapshot. *)
Definition example_create_session (v : term) : term := settle (js "a") (onCreate (js "a") shared v).
Definition example_flight_of (v : term) : flight_op :=
  {| fl_op := op_create shared; fl_props := props_of (js "a") v; fl_snapshot := t_snapshot v; fl_waits := None |}.
Definition example_answer (i : string) (v v' : term) : term :=
  settle (js "a") (deliver (js "a") [] (example_flight_of v) [] (createSession_answers (Returns (created_as i)) (side v')) v').

Definition run_creating : term := example_create_session run_listed.
Definition run_created : term := example_answer "n1" run_listed run_creating.
Definition run_creating_again : term := example_create_session run_created.

Lemma run_creating_again_reachable :
  reachable_term (js "a") example_start run_created ∧ reachable_term (js "a") example_start run_creating_again.
Proof.
  assert (reachable_term (js "a") example_start run_creating) as H1.
  { eapply term_next; [apply run_listed_reachable|]. apply (step_create (js "a") run_listed shared). by vm_compute. }
  assert (reachable_term (js "a") example_start run_created) as H2.
  { eapply term_next; [exact H1|]. refine (step_answer (js "a") run_creating [] (example_flight_of run_listed) [] _ _ eq_refl _).
    - by vm_compute.
    - exact (answer_created (example_flight_of run_listed) _ shared (Returns (created_as "n1")) eq_refl). }
  split; [exact H2|]. eapply term_next; [exact H2|]. apply (step_create (js "a") run_created shared). by vm_compute.
Qed.

Lemma row_opens_session_witness :
  let r := created_row {| created_id := js "n1"; created_profile := shared |} in
  footer_of (js "a") (follow_link (js "a") (session_link (props_of (js "a") run_created) (side run_created) r) run_created) =
  footer_composer (Some (js "n1")).
Proof.
  refine (eq_trans (proj2 (proj2 (proj2 (row_opens_session (js "a") _ _ run_created
    (created_row {| created_id := js "n1"; created_profile := shared |}) (proj1 run_creating_again_reachable) _ _ _ _)))) _).
  - decide_closed.
  - apply (list_elem_of_lookup_2 _ 2). by vm_compute.
  - discriminate.
  - intros _. decide_closed.
  - by vm_compute.
Defined.

Lemma session_list_controls_witness :
  t_sent (choose_profile (js "a") {| item_label := js "Shared session"; item_note := js "Sandbox network" ++ dot ++ js "retains changes";
    item_disabled := mutationBusy (side run_created); item_profile := shared |} run_created) = t_sent run_created ++ [op_create shared].
Proof.
  refine (eq_trans (proj1 (proj2 (session_list_controls (js "a") _ _ run_created _ (proj1 run_creating_again_reachable) _ _))) _).
  - decide_closed.
  - by left.
  - by vm_compute.
Defined.

Lemma created_row_replaced_witness :
  let w := example_answer "n2" run_created run_creating_again in
  let back := settle (js "a") (with_address {| param_session := Some (js "n1"); param_view := None |} (t_optimistic w) (t_open w) w) in
  footer_of (js "a") back = footer_composer (Some (js "n1")).
Proof.
  refine (proj1 (proj2 (created_row_replaced (js "a") _ _ run_creating_again (example_flight_of run_created) shared
    {| created_id := js "n1"; created_profile := shared |} (created_as "n2") (proj2 run_creating_again_reachable) _ eq_refl _ _ _ _ _))).
  - by vm_compute.
  - by vm_compute.
  - by vm_compute.
  - discriminate.
  - decide_closed.
  - decide_closed.
Defined.
