(* ===== verification/LayerStackPage.v ===== *)
(** The page of the layer stack
    ([web/src/pages/sandbox/observability/LayerStackView.tsx]): its three
    polls, the header, the rows, the panels of the selected layer and of the
    chosen workspace, and what a render records.

    What the query library holds for a poll is given to the page as a
    [poll_result]. *)
From S2P Require Import Prelude JsNumber JsText Json Rpc Observability ObservabilityApi Format LayerStack.

(** ** The polls *)

(** [poll_failure]: [isError], with the error's message. *)
Record poll_result D := { poll_data : option D; poll_failure : option jsstr; poll_fetching : bool }.
Arguments poll_data {D} p.
Arguments poll_failure {D} p.
Arguments poll_fetching {D} p.
Arguments Build_poll_result {D}.

(** A poll: its key, whether it is enabled, and its request. *)
Record stack_query := {
  query_key : list jsstr;
  query_enabled : bool;
  query_fn : (jsstr → jsstr → fetched) → outcome RpcError json;
}.

Definition stack_key (sandboxId : jsstr) (rest : list jsstr) : list jsstr :=
  js "observability" :: sandboxId :: js "layerstack" :: rest.

Definition stack_poll (sandboxId : jsstr) : stack_query :=
  {| query_key := stack_key sandboxId []; query_enabled := true; query_fn := λ fetch, fetchLayerStack fetch sandboxId |}.

Definition workspace_poll (sandboxId : jsstr) (s : stack_selection) : stack_query :=
  {| query_key := stack_key sandboxId [js "workspace"; workspace_choice s];
     query_enabled := negb (bool_decide (workspace_choice s = ALL_WORKSPACES));
     query_fn := λ fetch, fetchLayerStackWorkspace fetch sandboxId (workspace_choice s) |}.

Definition layer_poll (sandboxId : jsstr) (s : stack_selection) : stack_query :=
  {| query_key := stack_key sandboxId [js "layer"; selectedLayerId s ?? []];
     query_enabled := bool_decide (selectedLayerId s ≠ None);
     query_fn := λ fetch, fetchLayerStackLayer fetch sandboxId (selectedLayerId s ?? []) |}.

(** All polls the page ever makes. *)
Inductive page_poll : stack_query → Prop :=
  | polls_stack sandboxId : page_poll (stack_poll sandboxId)
  | polls_workspace sandboxId s : page_poll (workspace_poll sandboxId s)
  | polls_layer sandboxId s : page_poll (layer_poll sandboxId s).

(** ** What is shown *)

Record stack_row := {
  stack_row_id : jsstr;
  stack_row_level : jsstr;
  stack_row_pressed : bool;
  stack_row_bar : jsstr * number;
  stack_row_size : jsstr;
  stack_row_leases : jsstr * jsstr * bool;
  stack_row_squashable : bool;
}.

(** The bar: its title, and its width in percent. *)
Definition bar_width (bytes widest : Z) : number :=
  num_max (num_mul (num_div (num_of_Z bytes) (num_of_Z widest)) (num_of_Z 100)) (num_of_Z 2).

Definition LayerRow (l : StackLayer) (index total : nat) (widest : Z) (squashable selected : bool) : stack_row :=
  {| stack_row_id := layer_id l;
     stack_row_level := level_label index total;
     stack_row_pressed := selected;
     stack_row_bar := (Z_to_js (layer_bytes l) ++ js " bytes", bar_width (layer_bytes l) widest);
     stack_row_size := formatBytes (num_of_Z (layer_bytes l));
     stack_row_leases := (leases_label l, leases_tooltip l, leased l);
     stack_row_squashable := squashable |}.

Definition layer_rows (stack : list StackLayer) (s : stack_selection) : list stack_row :=
  imap (λ i l, LayerRow l i (length stack) (maxBytes stack) (bool_decide (i ∈ squashRuns stack))
                 (bool_decide (Some (layer_id l) = selectedLayerId s))) stack.

Definition LayerEntryList (d : LayerStackLayerResult) : list (jsstr * jsstr * jsstr) * list jsstr :=
  match layer_entries d with
  | [] => ([], [js "no changed paths"])
  | entries => ((λ e, (entryKindColor (layer_entry_kind e), entryKindLabel (layer_entry_kind e), entry_path e)) <$> entries,
                if layer_truncated d then [js "Showing the first 500 entries returned by the backend."] else [])
  end.

Record delta_shown := { delta_heading : option (jsstr * jsstr); delta_body : panel LayerStackLayerResult }.

Definition LayerDeltaPanel (stack : list StackLayer) (s : stack_selection) (q : poll_result LayerStackLayerResult) : delta_shown :=
  {| delta_heading := (λ l, (shortHash (layer_id l) 10, formatBytes (num_of_Z (layer_bytes l)))) <$> selectedLayer stack s;
     delta_body := delta_panel s (bool_decide (poll_failure q ≠ None)) (poll_fetching q) (poll_data q) |}.

Definition WorkspacePanel (ws : list WorkspaceSnapshot) (s : stack_selection) (q : poll_result LayerStackWorkspaceResult)
    : panel LayerStackWorkspaceResult :=
  workspace_panel ws s (bool_decide (poll_failure q ≠ None)) (poll_fetching q) (poll_data q).

(** The lines of the workspace panel. *)
Definition live_workspaces (n : nat) : jsstr :=
  Z_to_js (Z.of_nat n) ++ js " live workspace" ++ if (n =? 1)%nat then [] else js "s".

Definition mount_lines (d : LayerStackWorkspaceResult) : (jsstr * jsstr) * list (jsstr * jsstr) :=
  ((stack_workspace d, formatBytes (num_of_Z (upper_bytes d ?? 0)) ++ js " upper"),
   (λ m, (mount_layer_id m, js "shared with " ++ Z_to_js (Z.of_nat (length (shared_with m))))) <$> mounts d).

Record stack_header := {
  shown_manifest : jsstr;
  shown_root : jsstr;
  shown_layers : jsstr;
  shown_leases : jsstr;
  workspace_options : list (jsstr * jsstr);
  squash_button : jsstr;
}.

(** "..." *)
Definition ELLIPSIS : jsstr := js "...".

Definition stack_header_of (data : option LayerStackResult) (ws : list WorkspaceSnapshot) : stack_header :=
  let n := Z_to_js (Z.of_nat (length (layers <$> data ?? []))) in
  {| shown_manifest := Z_to_js <$> (manifest_version <$> data) ?? ELLIPSIS;
     shown_root := (λ d, shortHash (root_hash d) 12) <$> data ?? ELLIPSIS;
     shown_layers := n ++ js " layers" ++ [32; 183; 32] ++ formatBytes (num_of_Z (total_bytes <$> data ?? 0));
     shown_leases := Z_to_js (active_lease_count <$> data ?? 0) ++ js " active leases";
     workspace_options := (ALL_WORKSPACES, js "all workspaces") ::
       ((λ w, (snapshot_workspace_id w, js "workspace" ++ [32; 183; 32] ++ snapshot_workspace_id w)) <$> ws);
     squash_button := js "Squash (" ++ n ++ js ")" |}.

Record stack_shown := {
  shown_header : stack_header;
  shown_alert : option jsstr;
  shown_rows : list stack_row;
  shown_delta : delta_shown;
  shown_mounts : panel LayerStackWorkspaceResult;
  shown_trend : list Z;
}.

Inductive stack_page := StackUnavailable (m : jsstr) | StackPage (p : stack_shown).

Record stack_results := {
  stack_result : poll_result LayerStackResult;
  workspace_result : poll_result LayerStackWorkspaceResult;
  layer_result : poll_result LayerStackLayerResult;
}.

Definition layers_of (r : stack_results) : list StackLayer := layers <$> poll_data (stack_result r) ?? [].

(** A render records the depth in the ring of the sandbox. *)
Definition render_depth (rings : gmap jsstr (list Z)) (sandboxId : jsstr) (r : stack_results) : gmap jsstr (list Z) * list Z :=
  match poll_data (stack_result r) with
  | Some d => recordDepth rings sandboxId (Z.of_nat (length (layers d)))
  | None => (rings, [])
  end.

Definition LayerStackView (rings : gmap jsstr (list Z)) (sandboxId : jsstr) (ws : list WorkspaceSnapshot) (s : stack_selection)
    (r : stack_results) : gmap jsstr (list Z) * stack_page :=
  let '(rings, trend) := render_depth rings sandboxId r in
  let q := stack_result r in
  (rings,
   match poll_failure q, poll_data q with
   | Some m, None => StackUnavailable m
   | failure, data =>
       StackPage {| shown_header := stack_header_of data ws; shown_alert := failure;
                    shown_rows := layer_rows (layers_of r) s;
                    shown_delta := LayerDeltaPanel (layers_of r) s (layer_result r);
                    shown_mounts := WorkspacePanel ws s (workspace_result r);
                    shown_trend := trend |}
   end).

(** The page after its effects: the render of the selection they settle on. *)
Definition settled_page (rings : gmap jsstr (list Z)) (sandboxId : jsstr) (ws : list WorkspaceSnapshot) (s : stack_selection)
    (r : stack_results) : stack_selection * (gmap jsstr (list Z) * stack_page) :=
  let rings := (LayerStackView rings sandboxId ws s r).1 in
  let s := follow ws (layers_of r) s in
  (s, LayerStackView rings sandboxId ws s r).

(** ** Facts *)

Lemma stack_rows_lookup stack s i :
  layer_rows stack s !! i =
  (λ l, LayerRow l i (length stack) (maxBytes stack) (bool_decide (i ∈ squashRuns stack))
          (bool_decide (Some (layer_id l) = selectedLayerId s))) <$> stack !! i.
Proof. apply list_lookup_imap. Qed.

Lemma maxBytes_range stack : Forall (λ l, layer_bytes l < 2 ^ 53) stack → 0 < maxBytes stack < 2 ^ 53.
Proof.
  intros Hb. unfold maxBytes. assert (∀ k, 0 < k < 2 ^ 53 → 0 < foldl (λ m l, Z.max m (layer_bytes l)) k stack < 2 ^ 53) as H; [|by apply H].
  induction Hb as [|l stack Hl _ IH]; intros k Hk; cbn [foldl]; [done|]. apply IH. lia.
Qed.

Lemma bar_width_least b w : 0 ≤ b → 0 < w < 2 ^ 53 → num_leb (num_of_Z 2) (bar_width b w) = true.
Proof.
  intros Hb Hw. unfold bar_width.
  assert (nonneg (num_mul (num_div (num_of_Z b) (num_of_Z w)) (num_of_Z 100)) = true) as Hn.
  { apply num_mul_pos_nonneg; [|done..]. apply num_div_nonneg; [by apply num_of_Z_nonneg|apply num_of_Z_finite; lia|].
    apply num_of_Z_pos. lia. }
  apply num_max_spec; [|done]. by destruct (num_mul _ _) as [|[]| |[]].
Qed.

(** The settled selection, and the row of the selected layer. *)
Lemma settled_selected ws stack s :
  Forall (λ l, layer_id l ≠ []) stack → stack ≠ [] →
  ∃ l, selectedLayer stack (follow ws stack s) = Some l ∧ l ∈ stack ∧ selectedLayerId (follow ws stack s) = Some (layer_id l).
Proof.
  intros Hids Hne. unfold follow. destruct (follow_layers_spec stack (follow_workspaces ws s) Hids) as [_ Hsel].
  set (s1 := follow_workspaces ws s) in *. set (s2 := follow_layers stack s1) in *.
  assert (∃ l, l ∈ stack ∧ Some (layer_id l) = selectedLayerId s2) as (l & Hl & Heq).
  { rewrite Hsel. unfold selectedLayer. destruct (js_find _ stack) as [l|] eqn:Hf.
    - rewrite bool_decide_true by done. apply js_find_Some in Hf as (l1 & l2 & -> & Hq & _). apply bool_decide_eq_true in Hq.
      exists l. split; [set_solver|done].
    - rewrite bool_decide_false by (intros H; by apply H). destruct stack as [|l stack]; [done|]. exists l. split; [set_solver|done]. }
  unfold selectedLayer. destruct (js_find _ stack) as [x|] eqn:Hf.
  - apply js_find_Some in Hf as (l1 & l2 & -> & Hq & _). apply bool_decide_eq_true in Hq. exists x. split_and!; [done|set_solver|done].
  - apply js_find_None in Hf. rewrite Forall_forall in Hf. specialize (Hf l Hl). by rewrite bool_decide_true in Hf.
Qed.

Lemma pressed_rows stack s l :
  NoDup (layer_id <$> stack) → l ∈ stack → selectedLayerId s = Some (layer_id l) →
  stack_row_id <$> js_filter stack_row_pressed (layer_rows stack s) = [layer_id l].
Proof.
  intros Hnd Hl Hsel. unfold layer_rows. set (n := length stack). set (m := maxBytes stack). set (q := squashRuns stack).
  clearbody n m q. rewrite Hsel.
  assert (∀ k, stack_row_id <$> js_filter stack_row_pressed (imap (λ i x, LayerRow x (k + i) n m (bool_decide (k + i ∈ q)%nat)
    (bool_decide (Some (layer_id x) = Some (layer_id l)))) stack) = [layer_id l]) as H; [|apply (H 0%nat)].
  induction stack as [|x stack IH]; intros k; [by apply not_elem_of_nil in Hl|]. rewrite fmap_cons in Hnd. apply NoDup_cons in Hnd as [Hx Hnd].
  rewrite imap_cons. cbn [js_filter List.filter stack_row_pressed LayerRow].
  assert (∀ k, js_filter stack_row_pressed (imap ((λ i x, LayerRow x (k + i) n m (bool_decide (k + i ∈ q)%nat)
      (bool_decide (Some (layer_id x) = Some (layer_id l)))) ∘ S) stack) =
    js_filter stack_row_pressed (imap (λ i x, LayerRow x (S k + i) n m (bool_decide (S k + i ∈ q)%nat)
      (bool_decide (Some (layer_id x) = Some (layer_id l)))) stack)) as Hshift.
  { intros j. f_equal. apply imap_ext. intros i y _. cbn. by rewrite Nat.add_succ_r. }
  rewrite Hshift. destruct (bool_decide_reflect (Some (layer_id x) = Some (layer_id l))) as [[= Heq]|Hne].
  - rewrite fmap_cons. cbn [stack_row_id LayerRow]. rewrite Heq. f_equal.
    match goal with |- _ <$> ?r = [] => assert (r = []) as ->; [|done] end. apply elem_of_nil_inv.
    intros r [Hr Hp]%js_filter_elem. apply elem_of_lookup_imap_1 in Hr as (i & y & -> & Hy). cbn in Hp.
    apply bool_decide_eq_true in Hp. injection Hp as Hp. apply Hx. rewrite Heq, <- Hp. apply list_elem_of_fmap_2. by eapply list_elem_of_lookup_2.
  - apply elem_of_cons in Hl as [->|Hl]; [done|]. by apply IH.
Qed.

(** A panel with data has that of the selection. *)
Lemma panel_of_data {D} a b (o : option D) x : panel_of a b o = panel_data x → o = Some x.
Proof. unfold panel_of. destruct a, b, o; try done. by intros [= ->]. Qed.

Lemma delta_panel_of s a b o x : delta_panel s a b o = panel_data x → selectedLayerId s = Some (layer_result_id x).
Proof.
  intros H%panel_of_data. unfold layer_data in H. destruct o as [y|]; [|done].
  destruct (bool_decide_reflect (Some (layer_result_id y) = selectedLayerId s)); [|done]. congruence.
Qed.

Lemma workspace_panel_of ws s a b o x :
  workspace_panel ws s a b o = panel_data x → stack_workspace x = workspace_choice s ∧ workspace_choice s ≠ ALL_WORKSPACES.
Proof.
  unfold workspace_panel. destruct (bool_decide_reflect (workspace_choice s = ALL_WORKSPACES)) as [|Hall]; [done|].
  intros H%panel_of_data. split; [|done]. unfold workspace_data in H. destruct o as [y|]; [|done].
  destruct (bool_decide_reflect (stack_workspace y = workspace_choice s)); [|done]. congruence.
Qed.

Lemma follow_choice ws stack s :
  workspace_choice (follow ws stack s) = ALL_WORKSPACES ∨ workspace_choice (follow ws stack s) ∈ snapshot_workspace_id <$> ws.
Proof.
  assert (workspace_choice (follow ws stack s) = workspace_choice (follow_workspaces ws s)) as ->.
  { unfold follow, follow_layers. by repeat case_match. }
  destruct (follow_workspaces_spec ws s) as [_ ->].
  destruct (bool_decide_reflect (workspace_choice s ∈ snapshot_workspace_id <$> ws)); auto.
Qed.

(** Two depths recorded twice each. *)
Lemma trend_of_two rings b m n :
  rings !! b = None → m ≠ n →
  let record r k := (recordDepth r b k).1 in
  (recordDepth (record (record (record rings m) m) n) b n).2 = [m; n].
Proof.
  intros Hb Hmn. cbv zeta. unfold recordDepth. cbn [fst snd]. rewrite !lookup_insert_eq, Hb. cbn [default from_option].
  unfold Datatypes.id, push_depth. cbn [last app]. rewrite (bool_decide_false (None = Some m)) by done.
  cbn [app length]. change (DEPTH_RING <? 1)%nat with false. cbn iota. cbn [last]. rewrite (bool_decide_true (Some m = Some m)) by done.
  cbn [last]. rewrite (bool_decide_false (Some m = Some n)) by congruence. cbn [app length].
  change (DEPTH_RING <? 2)%nat with false. cbn iota. cbn [last]. by rewrite bool_decide_true.
Qed.

Lemma view_shown rings sandboxId ws s r d :
  poll_data (stack_result r) = Some d →
  LayerStackView rings sandboxId ws s r =
  ((recordDepth rings sandboxId (Z.of_nat (length (layers d)))).1,
   StackPage {| shown_header := stack_header_of (Some d) ws; shown_alert := poll_failure (stack_result r);
                shown_rows := layer_rows (layers d) s; shown_delta := LayerDeltaPanel (layers d) s (layer_result r);
                shown_mounts := WorkspacePanel ws s (workspace_result r);
                shown_trend := (recordDepth rings sandboxId (Z.of_nat (length (layers d)))).2 |}).
Proof.
  intros Hd. unfold LayerStackView, render_depth, layers_of. rewrite Hd. cbn [fmap option_fmap option_map default from_option].
  unfold Datatypes.id. destruct (recordDepth _ _ _). by destruct (poll_failure _).
Qed.

(** ** Theorems *)

(** The page shows the stack it has, whatever its polls are at. With the
    layers' identifiers distinct, not blank and their sizes exact, once there
    is a stack there is a page, with a failure of the poll beside it; its rows
    are the layers in order, counted down to the base, each bar at least two
    percent wide and marked as squashable exactly as [squashRuns] says; after
    the effects exactly one row of a stack that is not empty is pressed, and
    the panel of changed paths is headed by that layer and shows no other
    layer's paths; and the panel of mounts shows no other workspace than the
    one chosen. *)
Theorem stack_page_shows rings sandboxId ws s r d
    (Hd : poll_data (stack_result r) = Some d) (Hids : Forall (λ l, layer_id l ≠ []) (layers d))
    (Hnd : NoDup (layer_id <$> layers d)) (Hbytes : Forall (λ l, 0 ≤ layer_bytes l < 2 ^ 53) (layers d)) :
  let '(s', (_, page)) := settled_page rings sandboxId ws s r in
  ∃ p, page = StackPage p ∧ shown_alert p = poll_failure (stack_result r) ∧
    length (shown_rows p) = length (layers d) ∧
    (∀ i row, shown_rows p !! i = Some row →
       stack_row_id row = layer_id <$> layers d !! i ?? [] ∧
       stack_row_level row = (if (i =? length (layers d) - 1)%nat then js "base" else js "L" ++ Z_to_js (Z.of_nat (length (layers d) - 1 - i))) ∧
       num_leb (num_of_Z 2) (stack_row_bar row).2 = true ∧
       (stack_row_squashable row = true ↔ i ∈ squashRuns (layers d))) ∧
    (layers d ≠ [] → ∃ l, l ∈ layers d ∧ stack_row_id <$> js_filter stack_row_pressed (shown_rows p) = [layer_id l] ∧
       delta_heading (shown_delta p) = Some (shortHash (layer_id l) 10, formatBytes (num_of_Z (layer_bytes l))) ∧
       ∀ x, delta_body (shown_delta p) = panel_data x → layer_result_id x = layer_id l) ∧
    (∀ x, shown_mounts p = panel_data x → stack_workspace x = workspace_choice s' ∧ workspace_choice s' ∈ snapshot_workspace_id <$> ws).
Proof.
  unfold settled_page. rewrite (view_shown _ _ _ _ _ _ Hd). cbn [fst].
  assert (layers_of r = layers d) as -> by (unfold layers_of; by rewrite Hd).
  rewrite (view_shown _ _ _ _ _ _ Hd). eexists. split_and!; [done|done| | | |]; cbn [shown_rows shown_delta shown_mounts delta_heading delta_body LayerDeltaPanel].
  - apply length_imap.
  - intros i row Hrow. rewrite stack_rows_lookup in Hrow. destruct (layers d !! i) as [l|] eqn:Hl; [|done]. injection Hrow as <-.
    cbn [stack_row_id stack_row_level stack_row_bar stack_row_squashable LayerRow snd]. split_and!; [done| | |apply bool_decide_eq_true].
    + apply lookup_lt_Some in Hl. unfold level_label. destruct (_ =? _)%nat eqn:Hi; [done|]. apply Nat.eqb_neq in Hi.
      do 2 f_equal. lia.
    + pose proof (proj1 (Forall_lookup _ _) Hbytes i l Hl) as Hb. cbv beta in Hb. apply bar_width_least; [lia|]. apply maxBytes_range.
      eapply Forall_impl; [exact Hbytes|]. by intros ? [].
  - intros Hne. destruct (settled_selected ws (layers d) s Hids Hne) as (l & Hsel & Hin & Hid). exists l.
    split_and!; [done|by apply pressed_rows|by rewrite Hsel|].
    intros x Hx. apply delta_panel_of in Hx. congruence.
  - intros x Hx. apply workspace_panel_of in Hx as [Heq Hall]. split; [done|].
    destruct (follow_choice ws (layers d) s) as [Hc|Hc]; [done|done].
Qed.

(** One key, one request: whatever is shown or chosen, two polls of the page
    with the same key send the same request, so the library never serves the
    answer to one as the answer to another. *)
Theorem key_tells_request q q' (Hq : page_poll q) (Hq' : page_poll q') (Hkey : query_key q = query_key q') fetch :
  query_fn q fetch = query_fn q' fetch.
Proof. destruct Hq, Hq'; cbn [query_key query_fn stack_poll workspace_poll layer_poll stack_key] in *; try discriminate;
  injection Hkey; intros; congruence. Qed.

(** The page of a sandbox begins with the stack of the one before. The poll
    keeps the previous data until the first answer for the new key: until
    then the page shows the layers of the other sandbox and asks the new one
    for a layer of the other, and its depth stays in the new sandbox's trend
    as a change that never happened. *)
Theorem depth_of_other_sandbox rings b ws s d d' waiting answered (Hring : rings !! b = None)
    (Hids : Forall (λ l, layer_id l ≠ []) (layers d)) (Hne : layers d ≠ []) (Hlen : length (layers d) ≠ length (layers d'))
    (Hkept : poll_data (stack_result waiting) = Some d) (Hdata : poll_data (stack_result answered) = Some d') :
  let '(s1, (rings1, page1)) := settled_page rings b ws s waiting in
  let '(_, (_, page2)) := settled_page rings1 b ws s1 answered in
  (∃ p, page1 = StackPage p ∧ stack_row_id <$> shown_rows p = layer_id <$> layers d) ∧
  (∃ l, l ∈ layers d ∧ query_enabled (layer_poll b s1) = true ∧
     ∀ fetch, query_fn (layer_poll b s1) fetch = fetchLayerStackLayer fetch b (layer_id l)) ∧
  (∃ p, page2 = StackPage p ∧ shown_trend p = [Z.of_nat (length (layers d)); Z.of_nat (length (layers d'))]).
Proof.
  unfold settled_page. rewrite !(view_shown _ _ _ _ waiting d) by done. cbn [fst].
  rewrite !(view_shown _ _ _ _ answered d') by done. cbn [fst].
  assert (layers_of waiting = layers d) as -> by (unfold layers_of; by rewrite Hkept).
  split_and!.
  - eexists. split; [done|]. cbn [shown_rows]. unfold layer_rows. apply list_eq. intros i.
    rewrite !list_lookup_fmap, list_lookup_imap. by destruct (layers d !! i).
  - destruct (settled_selected ws (layers d) s Hids Hne) as (l & _ & Hin & Hid).
    exists l. unfold layer_poll. cbn [query_enabled query_fn]. by rewrite Hid.
  - eexists. split; [done|]. cbn [shown_trend]. apply trend_of_two; [done|lia].
Qed.

(** ** Examples *)

Definition example_stack (ids : list string) : LayerStackResult :=
  {| manifest_version := 3; root_hash := js "root"; active_lease_count := 0; total_bytes := 20;
     layers := (λ i, example_layer i 0) <$> ids |}.

Definition nothing_asked {D} : poll_result D := {| poll_data := None; poll_failure := None; poll_fetching := false |}.

Definition example_results : stack_results :=
  {| stack_result := {| poll_data := Some (example_stack ["b"; "a"]); poll_failure := Some (js "late"); poll_fetching := false |};
     workspace_result := nothing_asked; layer_result := nothing_asked |}.

Lemma stack_page_shows_witness :
  let '(s', (_, page)) := settled_page ∅ (js "x") [] initial_selection example_results in
  ∃ p, page = StackPage p ∧ shown_alert p = Some (js "late") ∧ length (shown_rows p) = 2%nat.
Proof.
  destruct (stack_page_shows ∅ (js "x") [] initial_selection example_results (example_stack ["b"; "a"]) eq_refl) as (p & Hp & Ha & Hl & _).
  - repeat constructor; decide_closed.
  - decide_closed.
  - repeat constructor; cbn; lia.
  - exact (ex_intro _ p (conj Hp (conj Ha Hl))).
Defined.

Definition other_layer : stack_selection := {| workspace_choice := ALL_WORKSPACES; selectedLayerId := Some (js "b") |}.

Lemma key_tells_request_witness fetch :
  query_fn (workspace_poll (js "x") initial_selection) fetch = query_fn (workspace_poll (js "x") other_layer) fetch.
Proof.
  exact (key_tells_request (workspace_poll (js "x") initial_selection) (workspace_poll (js "x") other_layer)
    (polls_workspace _ _) (polls_workspace _ _) eq_refl fetch).
Defined.

(** The first render of sandbox "y" after that of another, and its answer. *)
Definition stack_results_of (data : LayerStackResult) (fetching : bool) : stack_results :=
  {| stack_result := {| poll_data := Some data; poll_failure := None; poll_fetching := fetching |};
     workspace_result := nothing_asked; layer_result := nothing_asked |}.

Lemma depth_of_other_sandbox_witness :
  let '(s1, (rings1, _)) := settled_page ∅ (js "y") [] initial_selection (stack_results_of (example_stack ["b"; "a"]) true) in
  ∃ p, (settled_page rings1 (js "y") [] s1 (stack_results_of (example_stack ["c"]) false)).2.2 = StackPage p ∧ shown_trend p = [2; 1].
Proof.
  refine (proj2 (proj2 (depth_of_other_sandbox ∅ (js "y") [] initial_selection (example_stack ["b"; "a"]) (example_stack ["c"])
    (stack_results_of (example_stack ["b"; "a"]) true) (stack_results_of (example_stack ["c"]) false) eq_refl _ _ _ eq_refl eq_refl))).
  - repeat constructor; decide_closed.
  - discriminate.
  - decide_closed.
Defined.
