(* ===== verification/TracesPage.v ===== *)
(** The page of the traces
    ([TracesView] and the list of [Waterfall] in
    [web/src/pages/sandbox/observability/TracesView.tsx]): its two polls, the
    picker beside it or in a drawer, the rows drawn of a waterfall, and which
    spans stay open as polls are answered and traces chosen. *)
From S2P Require Import Prelude JsCollections JsNumber JsText Json Rpc Observability ObservabilityApi Uri Traces Waterfall.

(** ** The polls *)

Definition RECENT_EVENTS : EventFilters := {| filter_name := None; sinceMs := None; lastN := Some 200 |}.

Definition recent_events_key (sandboxId : jsstr) : list jsstr :=
  [js "observability"; sandboxId; js "events"; js "for-traces"].

Definition recent_events_fn (fetch : jsstr → jsstr → fetched) (sandboxId : jsstr) : outcome RpcError json :=
  fetchEvents fetch sandboxId RECENT_EVENTS.

Definition trace_key (sandboxId selected : jsstr) : list jsstr := [js "observability"; sandboxId; js "trace"; selected].

Definition trace_fn (fetch : jsstr → jsstr → fetched) (sandboxId selected : jsstr) : outcome RpcError json :=
  fetchTrace fetch sandboxId selected.

(** ** The rows drawn *)

(** An item of the virtualizer. *)
Record span_item := { item_index : nat; item_start : Z }.

Definition SPAN_HEIGHT : Z := 34.
Definition OPEN_SPAN_HEIGHT : Z := 124.
Definition FIRST_SPANS : nat := 20%nat.

Definition estimateSize (rows : list (FlatSpan json)) (openSpans : gset jsstr) (index : nat) : Z :=
  match rows !! index with
  | Some row => if bool_decide (span_id (node_span (node row)) ∈ openSpans) then OPEN_SPAN_HEIGHT else SPAN_HEIGHT
  | None => SPAN_HEIGHT
  end.

(** Until the list is measured the first rows are drawn at their estimate. *)
Definition rendered_items (rows : list (FlatSpan json)) (items : list span_item) : list span_item :=
  if bool_decide (items ≠ []) then items
  else imap (λ i _, {| item_index := i; item_start := SPAN_HEIGHT * Z.of_nat i |}) (take (Nat.min (length rows) FIRST_SPANS) rows).

(** Each with its place and whether it is open. [None]: an item of no row,
    which throws. *)
Definition drawn_span (rows : list (FlatSpan json)) (openSpans : gset jsstr) (it : span_item) : option (Z * span_row) :=
  (λ row, (item_start it, SpanRow (bool_decide (span_id (node_span (node row)) ∈ openSpans)) (totalMs rows) row)) <$> rows !! item_index it.

Definition drawn_spans (rows : list (FlatSpan json)) (openSpans : gset jsstr) (items : list span_item) : option (list (Z * span_row)) :=
  mapM (drawn_span rows openSpans) (rendered_items rows items).

(** ** The page *)

(** The trace of the address, the drawer, and the open spans of the waterfall
    while there is one. *)
Record traces_page := { trace_param : option jsstr; pickerOpen : bool; waterfall : option (gset jsstr) }.

Definition initial_traces (param : option jsstr) : traces_page :=
  {| trace_param := param; pickerOpen := false; waterfall := None |}.

(** What the poll of the trace is at: it fails, or has data, or neither. *)
Inductive poll_stands := PollFails | PollShows | PollWaits.

Definition stands_of {A} (isError : bool) (data : option (TraceResult A)) : poll_stands :=
  match trace_body_of isError data with trace_failed => PollFails | trace_shown _ _ => PollShows | trace_loading => PollWaits end.

(** A render: the waterfall is there while there is a trace to show. *)
Definition render_traces (now : poll_stands) (p : traces_page) : traces_page :=
  {| trace_param := trace_param p; pickerOpen := pickerOpen p;
     waterfall := match now with PollShows => Some (waterfall p ?? ∅) | _ => None end |}.

Definition onToggle (span : jsstr) (p : traces_page) : traces_page :=
  {| trace_param := trace_param p; pickerOpen := pickerOpen p; waterfall := toggle_span span <$> waterfall p |}.

Definition open_selector (p : traces_page) : traces_page :=
  {| trace_param := trace_param p; pickerOpen := true; waterfall := waterfall p |}.

Definition close_selector (p : traces_page) : traces_page :=
  {| trace_param := trace_param p; pickerOpen := false; waterfall := waterfall p |}.

Section routing.
(** The parameter the router reads from the path a choice leads to. *)
Context (param_of : jsstr → option jsstr).

(** An identifier that cannot be encoded throws after the drawer is closed. *)
Definition choose_trace (i : jsstr) (p : traces_page) : traces_page :=
  {| trace_param := match selectTrace i with Some path => param_of path | None => trace_param p end;
     pickerOpen := false; waterfall := waterfall p |}.

Inductive traces_event :=
  | TraceRendered (now : poll_stands) | SpanToggled (span : jsstr) | TraceChosen (i : jsstr) | PickerOpened | PickerClosed.

Definition traces_step (p : traces_page) (e : traces_event) : traces_page :=
  match e with
  | TraceRendered now => render_traces now p
  | SpanToggled span => onToggle span p
  | TraceChosen i => choose_trace i p
  | PickerOpened => open_selector p
  | PickerClosed => close_selector p
  end.

Definition traces_run (p : traces_page) (es : list traces_event) : traces_page := foldl traces_step p es.
End routing.

(** The picker stands beside the trace, or in the drawer behind a button. *)
Inductive picker_place := PickerBeside (rows : list trace_row) | PickerDrawer (opened : bool) (rows : list trace_row).

Definition TracesView {A} (narrow : bool) (es : list (TraceEvent A)) (p : traces_page) : picker_place :=
  let rows := TracePicker es (selected_trace (trace_param p)) in
  if narrow then PickerDrawer (pickerOpen p) rows else PickerBeside rows.

(** ** Specification *)

(** How often a span was toggled. *)
Definition toggles (i : jsstr) (es : list traces_event) : nat :=
  length (js_filter (λ e, match e with SpanToggled j => bool_decide (j = i) | _ => false end) es).

Definition always_shown (es : list traces_event) : Prop :=
  ∀ e, e ∈ es → match e with TraceRendered now => now = PollShows | _ => True end.

(** ** Facts *)

Lemma toggle_span_elem i j open : j ∈ toggle_span i open ↔ if bool_decide (i = j) then j ∉ open else j ∈ open.
Proof. unfold toggle_span. destruct (bool_decide_reflect (i ∈ open)), (bool_decide_reflect (i = j)); set_solver. Qed.

Lemma odd_step (b : bool) n : Nat.odd ((if b then 1 else 0) + n) = xorb b (Nat.odd n).
Proof. destruct b; cbn [plus]; [rewrite Nat.odd_succ, <- Nat.negb_odd|]; by destruct (Nat.odd n). Qed.

Lemma toggles_cons i e es :
  toggles i (e :: es) = ((if match e with SpanToggled j => bool_decide (j = i) | _ => false end then 1 else 0) + toggles i es)%nat.
Proof. unfold toggles. cbn [js_filter List.filter]. by destruct (match e with SpanToggled j => _ | _ => _ end). Qed.

(** ** Theorems *)

(** The open spans are those that were toggled. While the poll shows a trace,
    whatever it is answered with, whichever trace is chosen and however the
    drawer is opened and closed, a span is open exactly if it was open and
    toggled an even number of times, or was not and toggled an odd number:
    no answer closes what the user opened. *)
Theorem open_spans_toggled param_of p es open (Hopen : waterfall p = Some open) (Hes : always_shown es) :
  ∃ open', waterfall (traces_run param_of p es) = Some open' ∧
    ∀ i, bool_decide (i ∈ open') = xorb (bool_decide (i ∈ open)) (Nat.odd (toggles i es)).
Proof.
  revert p open Hopen. induction es as [|e es IH]; intros p open Hopen.
  { exists open. split; [done|]. intros i. cbn. by destruct (bool_decide _). }
  assert (always_shown es) as Hes' by (intros x Hx; apply Hes; by right).
  assert (∃ open1, waterfall (traces_step param_of p e) = Some open1 ∧
    ∀ i, bool_decide (i ∈ open1) = xorb (bool_decide (i ∈ open))
      match e with SpanToggled j => bool_decide (j = i) | _ => false end) as (open1 & H1 & Hstep).
  { pose proof (Hes e ltac:(by left)) as He.
    destruct e as [now|j|i| |]; cbn [traces_step render_traces onToggle choose_trace open_selector close_selector waterfall]; rewrite Hopen.
    2: { eexists. split; [done|]. intros i. pose proof (toggle_span_elem j i open) as Ht.
         destruct (bool_decide_reflect (j = i)), (bool_decide_reflect (i ∈ open)), (bool_decide_reflect (i ∈ toggle_span j open)); naive_solver. }
    all: try (subst now); eexists; split; [done|]; intros k; by destruct (bool_decide _). }
  destruct (IH Hes' (traces_step param_of p e) open1 H1) as (open' & Ho & Hi). exists open'. split; [exact Ho|].
  intros i. rewrite Hi, Hstep, toggles_cons, odd_step. apply xorb_assoc.
Qed.

(** A failed poll forgets them. The alert stands in the waterfall's place even
    while the poll still has the trace, so when the next answer brings it back
    every span is closed. *)
Theorem failed_poll_closes_spans {A} param_of p es (r : TraceResult A) :
  let failed := stands_of true (Some r) in
  let again := stands_of false (Some r) in
  waterfall (traces_run param_of p (es ++ [TraceRendered failed])) = None ∧
  waterfall (traces_run param_of p (es ++ [TraceRendered failed; TraceRendered again])) = Some ∅.
Proof. cbv zeta. unfold traces_run. by rewrite !foldl_app. Qed.

(** Every item is a row. With the items the virtualizer gives for a list of
    this length, or before it gives any, a waterfall that has spans draws some
    of them, each item the span at its index, open exactly if it is one of the
    open ones. *)
Theorem waterfall_draws rows openSpans items
    (Hitems : Forall (λ it, (item_index it < length rows)%nat) items) (Hrows : rows ≠ []) :
  ∃ drawn, drawn_spans rows openSpans items = Some drawn ∧ drawn ≠ [] ∧
    Forall2 (λ it d, ∃ row, rows !! item_index it = Some row ∧ d.1 = item_start it ∧ row_name d.2 = span_name (node_span (node row)) ∧
       (row_attributes d.2 ≠ None → span_id (node_span (node row)) ∈ openSpans)) (rendered_items rows items) drawn ∧
    (items = [] → length drawn = Nat.min (length rows) FIRST_SPANS ∧ item_start <$> rendered_items rows items = fst <$> drawn).
Proof.
  assert (Forall (λ it, (item_index it < length rows)%nat) (rendered_items rows items)) as Hlt.
  { unfold rendered_items. destruct (bool_decide_reflect (items ≠ [])); [done|]. apply Forall_forall. intros it Hit.
    apply elem_of_lookup_imap_1 in Hit as (i & row & -> & Hrow). cbn. apply lookup_lt_Some in Hrow. rewrite length_take in Hrow. lia. }
  destruct (mapM_is_Some_2 (drawn_span rows openSpans) (rendered_items rows items)) as [drawn Hdrawn].
  { eapply Forall_impl; [exact Hlt|]. intros it Hit. unfold drawn_span. apply fmap_is_Some. by apply lookup_lt_is_Some. }
  exists drawn. assert (Hmap := Hdrawn). apply mapM_Some_1 in Hmap.
  assert (length drawn = length (rendered_items rows items)) as Hlen by (symmetry; by eapply Forall2_length).
  assert (length (rendered_items rows []) = Nat.min (length rows) FIRST_SPANS) as Hfirst.
  { unfold rendered_items. cbn. rewrite length_imap, length_take. lia. }
  split_and!; [done| | |].
  - intros ->. destruct (decide (items = [])) as [->|Hne].
    + rewrite Hfirst in Hlen. destruct rows; cbn in Hlen; done.
    + unfold rendered_items in Hlen. rewrite bool_decide_true in Hlen by done. by destruct items.
  - eapply Forall2_impl; [exact Hmap|]. intros it d Hd. unfold drawn_span in Hd. apply fmap_Some in Hd as (row & Hrow & ->).
    exists row. split_and!; [done..|]. cbn [snd SpanRow row_attributes]. destruct (bool_decide_reflect (span_id (node_span (node row)) ∈ openSpans)); done.
  - intros ->. split; [congruence|]. clear -Hmap. induction Hmap as [|it d its ds Hd _ IH]; [done|]. cbn. rewrite IH. f_equal.
    unfold drawn_span in Hd. by apply fmap_Some in Hd as (row & _ & ->).
Qed.

(** A chosen trace is the one marked. When the router reads back what the
    page encodes, choosing any row of the picker closes the drawer and makes
    that row, and no other, the current one; only an identifier that is no
    text, or a trace that is itself called "last", is an exception. *)
Theorem chosen_trace_marked {A} param_of narrow (es : list (TraceEvent A)) p i row
    (Hlast : param_of (js "../traces") = None) (Hparam : ∀ e, param_of (js "../traces/" ++ e) = decodeURIComponent e)
    (Hunits : Forall (λ u, 0 ≤ u < 65536) i) (Hrow : row ∈ TracePicker es (selected_trace (trace_param p))) (Hi : trace_row_id row = i)
    (Henc : encodeURIComponent i ≠ None) (Hname : js "last" ∉ event_trace <$> es) :
  let w := choose_trace param_of i p in
  pickerOpen w = false ∧ selected_trace (trace_param w) = i ∧
  trace_row_id <$> js_filter trace_row_active (TracePicker es (selected_trace (trace_param w))) = [i] ∧
  TracesView narrow es w = (if narrow then PickerDrawer false else PickerBeside) (TracePicker es i).
Proof.
  cbv zeta. assert (selected_trace (trace_param (choose_trace param_of i p)) = i) as Hsel.
  { unfold choose_trace, selectTrace. cbn [trace_param]. destruct (bool_decide_reflect (i = js "last")) as [->|Hne].
    - unfold selected_trace. by rewrite Hlast.
    - destruct (encodeURIComponent i) as [e|] eqn:He; [|done]. cbn [fmap option_fmap option_map]. rewrite Hparam.
      by rewrite (decode_encode i e). }
  split_and!; [done|done| |].
  - rewrite Hsel. assert (NoDup (trace_row_id <$> TracePicker es i) ∧ i ∈ trace_row_id <$> TracePicker es i) as [Hnd Hin].
    { destruct (knownTraces_complete es) as [Hnd Hel].
      assert (∀ s, trace_row_id <$> TracePicker es s = js "last" :: (knownTraces es).*1) as Hids.
      { intros s. unfold TracePicker. rewrite fmap_cons, <- list_fmap_compose. done. }
      rewrite Hids. split; [apply NoDup_cons; by rewrite Hel|]. rewrite <- (Hids (selected_trace (trace_param p))), <- Hi. by apply list_elem_of_fmap_2. }
    apply list_elem_of_fmap in Hin as (x & Hx & Hin).
    assert (∀ y, y ∈ TracePicker es i → trace_row_active y = true ↔ trace_row_id y = i) as Hact.
    { intros y [->|(t & -> & _)%list_elem_of_fmap]%elem_of_cons; cbn; rewrite bool_decide_eq_true; naive_solver. }
    rewrite (js_filter_unique trace_row_id trace_row_active _ x Hnd Hin); [by rewrite Hx|by apply Hact|].
    intros y Hy Hyt. apply (Hact y Hy) in Hyt. congruence.
  - unfold TracesView. rewrite Hsel. by destruct narrow.
Qed.

(** ** Examples *)

(** A router: the part of the path after the prefix, decoded. *)
Definition example_router (path : jsstr) : option jsstr :=
  if bool_decide (path = js "../traces") then None else decodeURIComponent (drop (length (js "../traces/")) path).

Definition example_events : list (TraceEvent unit) :=
  (λ t, {| event_ts := num_zero; event_trace := js t; event_parent := None; event_name := js "e"; event_attrs := ∅ |}) <$> ["t1"; "t/2"].

Lemma chosen_trace_marked_witness :
  trace_row_id <$> js_filter trace_row_active (TracePicker example_events
    (selected_trace (trace_param (choose_trace example_router (js "t/2") (open_selector (initial_traces None)))))) = [js "t/2"].
Proof.
  refine (proj1 (proj2 (proj2 (chosen_trace_marked example_router true example_events (open_selector (initial_traces None)) (js "t/2")
    {| trace_row_id := js "t/2"; trace_row_label := js "t/2"; trace_row_active := false |} _ _ _ _ _ _ _)))).
  - reflexivity.
  - intros e. unfold example_router. rewrite bool_decide_false by discriminate. by rewrite drop_app_length.
  - repeat constructor; decide_closed.
  - apply (list_elem_of_lookup_2 _ 2). vm_compute. reflexivity.
  - reflexivity.
  - by vm_compute.
  - decide_closed.
Defined.

Definition example_shown : traces_page := render_traces PollShows (initial_traces None).

Lemma open_spans_toggled_witness :
  ∃ open, waterfall (traces_run example_router example_shown
    [SpanToggled (js "a"); TraceRendered PollShows; SpanToggled (js "b"); TraceChosen (js "t1"); SpanToggled (js "b")]) = Some open ∧
    bool_decide (js "a" ∈ open) = true ∧ bool_decide (js "b" ∈ open) = false.
Proof.
  destruct (open_spans_toggled example_router example_shown [SpanToggled (js "a"); TraceRendered PollShows; SpanToggled (js "b");
    TraceChosen (js "t1"); SpanToggled (js "b")] ∅ eq_refl) as (open & Ho & Hi).
  - intros e He. repeat (apply elem_of_cons in He as [->|He]; [done|]). by apply not_elem_of_nil in He.
  - exact (ex_intro _ open (conj Ho (conj (Hi (js "a")) (Hi (js "b"))))).
Defined.

Lemma waterfall_draws_witness :
  ∃ drawn, drawn_spans [example_row "a" 0 200; example_row "b" 50 100] ∅ [] = Some drawn ∧ length drawn = 2%nat.
Proof.
  destruct (waterfall_draws [example_row "a" 0 200; example_row "b" 50 100] ∅ []) as (drawn & Hd & _ & _ & Hl).
  - constructor.
  - discriminate.
  - exact (ex_intro _ drawn (conj Hd (proj1 (Hl eq_refl)))).
Defined.
