(* ===== verification/DaemonPage.v ===== *)
(** The daemon page over time ([DaemonView] of
    [web/src/pages/sandbox/observability/DaemonView.tsx] composed with
    [useDaemonCapture.ts] and the store): whose samples end up in whose
    capture as the user moves between sandboxes and cadences while answers,
    jobs and failures come in.

    The query library holds one answer for each key and, while a key has none,
    shows that of the key before as a placeholder ([keepPreviousData] of
    [usePoll.ts]). *)
From S2P Require Import Prelude JsNumber JsText Types Observability DaemonMetrics CaptureStore DaemonCapture DaemonView.

Definition cadence_text (c : CaptureCadence) : jsstr :=
  match c with cadence_standard => js "standard" | cadence_close => js "close" end.

(** The key of the query. *)
Definition daemon_key (sandboxId : jsstr) (c : CaptureCadence) : list jsstr :=
  [js "observability"; sandboxId; js "daemon-diagnostic"; cadence_text c].

(** A request under way: whose daemon was asked, and for which key. *)
Record daemon_request := { asked_sandbox : jsstr; asked_cadence : CaptureCadence }.

Section page.
Context {DB : Type} `{IndexedStore DB}.

(** The page of the sandbox of the capture's view. *)
Record daemon_page := {
  capture : world DB;
  control : capture_control;
  cached : gmap (list jsstr) daemon_answer;
  previous : option daemon_answer;
  requests : list daemon_request;
  (** whether the last commit saw a failure of the store *)
  error_seen : bool;
}.

Definition page_sandbox (p : daemon_page) : jsstr := view_sandbox (view (capture p)).

Definition daemon_page_key (p : daemon_page) : list jsstr := daemon_key (page_sandbox p) (cadence (control p)).

(** The data shown, and whether it is a placeholder. *)
Definition answer_shown (p : daemon_page) : option daemon_answer * bool :=
  match cached p !! daemon_page_key p with Some a => (Some a, false) | None => (previous p, bool_decide (previous p ≠ None)) end.

Definition with_capture (w : world DB) (p : daemon_page) : daemon_page :=
  {| capture := w; control := control p; cached := cached p; previous := previous p; requests := requests p; error_seen := error_seen p |}.

Definition with_control (c : capture_control) (p : daemon_page) : daemon_page :=
  {| capture := capture p; control := c; cached := cached p; previous := previous p; requests := requests p; error_seen := error_seen p |}.

Definition enqueue (j : job) (w : world DB) : world DB :=
  {| view := view w; mounted := mounted w; store := store w; queue := queue w ++ [j]; stale := stale w |}.

(** The effect of an answer, which records it unless it is a placeholder;
    [rendered_ready] is the [ready] of the render. *)
Definition record_effect (rendered_ready : bool) (p : daemon_page) : daemon_page :=
  let '(answer, placeholder) := answer_shown p in
  match recorded_sample answer placeholder with
  | Some d => match recordSample rendered_ready d (view (capture p)) with
              | Some j => with_capture (enqueue j (capture p)) p
              | None => p
              end
  | None => p
  end.

(** A commit: the effect of the store's failure, when it is not the one seen
    before, and that of the answer; the library keeps what was shown. *)
Definition daemon_commit (rendered_ready : bool) (p : daemon_page) : daemon_page :=
  let error := failed (view (capture p)) in
  let p := if Bool.eqb error (error_seen p) then p else with_control (storage_effect error (control p)) p in
  let p := record_effect rendered_ready p in
  {| capture := capture p; control := control p; cached := cached p; previous := (answer_shown p).1; requests := requests p;
     error_seen := error |}.

(** The page is given another sandbox, or opened anew: the effects of the hook
    and of the page, in their order. *)
Definition open_page (sandboxId : jsstr) (p : daemon_page) : daemon_page :=
  let w := capture p in
  daemon_commit (mounted w && ready (view w))
    (with_control (sandbox_effect (control p))
       (with_capture (mount_world sandboxId w) p)).

(** The page is left: its states go with it, the answers stay in the library,
    and the jobs go on. *)
Definition leave_daemon_page (p : daemon_page) : daemon_page :=
  let w := capture p in
  {| capture := {| view := unmount (view w); mounted := false; store := store w; queue := []; stale := queue w :: stale w |};
     control := initial_control; cached := cached p; previous := None; requests := requests p; error_seen := false |}.

(** The poll asks while it is enabled, and is answered or fails. *)
Definition request_starts (p : daemon_page) : daemon_page :=
  if poll_enabled (control p) (view (capture p))
  then {| capture := capture p; control := control p; cached := cached p; previous := previous p;
          requests := requests p ++ [{| asked_sandbox := page_sandbox p; asked_cadence := cadence (control p) |}]; error_seen := error_seen p |}
  else p.

Definition request_answered (i : nat) (a : daemon_answer) (p : daemon_page) : daemon_page :=
  match requests p !! i with
  | Some q => {| capture := capture p; control := control p;
                 cached := <[daemon_key (asked_sandbox q) (asked_cadence q) := a]> (cached p); previous := previous p;
                 requests := delete i (requests p); error_seen := error_seen p |}
  | None => p
  end.

Definition request_failed (i : nat) (p : daemon_page) : daemon_page :=
  {| capture := capture p; control := control p; cached := cached p; previous := previous p; requests := delete i (requests p); error_seen := error_seen p |}.

(** The page as a transition system. [answers s a]: the daemon of [s] can
    answer [a]. *)
Context (answers : jsstr → daemon_answer → Prop).

Inductive daemon_step : daemon_page → daemon_page → Prop :=
  | page_opens s p : daemon_step p (open_page s p)
  | page_commits r p : mounted (capture p) = true → daemon_step p (daemon_commit r p)
  | page_fails_again p : failed (view (capture p)) = true → daemon_step p (with_control (storage_effect true (control p)) p)
  | page_toggles p : daemon_step p (with_control (toggle_capture (control p)) p)
  | page_cadence c p : daemon_step p (with_control (choose_cadence c (control p)) p)
  | page_asks p : mounted (capture p) = true → daemon_step p (request_starts p)
  | page_answered i q a p : requests p !! i = Some q → answers (asked_sandbox q) a → daemon_step p (request_answered i a p)
  | page_fails i p : daemon_step p (request_failed i p)
  | page_leaves p :
      daemon_step p (leave_daemon_page p)
  | page_clears p : mounted (capture p) = true → daemon_step p (with_capture (enqueue (new_job (view (capture p)) ClearCapture) (capture p)) p)
  | page_exports t s g p :
      daemon_step p (with_capture {| view := (readFullCapture t s g (view (capture p)) (store (capture p))).1; mounted := mounted (capture p);
                                   store := store (capture p); queue := queue (capture p); stale := stale (capture p) |} p)
  | page_job t j q v' db' o p :
      queue (capture p) = j :: q → run_job t j (view (capture p)) (store (capture p)) = (v', db', o) →
      daemon_step p (with_capture {| view := v'; mounted := mounted (capture p); store := db'; queue := rest_of o q; stale := stale (capture p) |} p)
  | page_stale_job j w p : stale_step j (capture p) w → daemon_step p (with_capture w p).

Definition initial_daemon_page (db : DB) (s : jsstr) : daemon_page :=
  {| capture := initial_world db s; control := initial_control; cached := ∅; previous := None; requests := []; error_seen := false |}.

Inductive page_reachable (db : DB) (s : jsstr) : daemon_page → Prop :=
  | page_init : page_reachable db s (initial_daemon_page db s)
  | page_next p p' : page_reachable db s p → daemon_step p p' → page_reachable db s p'.
End page.
Arguments daemon_page : clear implicits.

(** ** Facts *)

Section facts.
Context {DB : Type} `{IndexedStore DB} (answers : jsstr → daemon_answer → Prop).
Context (from : jsstr → DaemonProcessMetrics → Prop).
Context (answers_from : ∀ s a d, answers s a → answer_daemon a = daemon_metrics d →
  from s d ∧ 0 ≤ sampled_at_unix_ms d ≤ MAX_SAFE_INTEGER).
Implicit Types (p : daemon_page DB) (w : world DB).

(** A sample, a point and a job that belong to a sandbox. *)
Definition own_sample (s : jsstr) (d : DaemonProcessMetrics) : Prop := from s d ∧ 0 ≤ sampled_at_unix_ms d ≤ MAX_SAFE_INTEGER.
Definition own_point (s : jsstr) (q : DaemonMetricPoint) : Prop := own_sample s (sample q).

Definition job_own (j : job) : Prop :=
  match job_next j with
  | RecordSample d => own_sample (job_sandbox j) d
  | RecordClear next | RecordAppend _ next | RecordShow _ next => Forall (own_point (job_sandbox j)) next
  | LoadCapture | ClearCapture | ClearShow => True
  end.

Record capture_own w : Prop := {
  own_store s : Forall (own_point s) (db_points (store w) s);
  own_history : Forall (own_point (view_sandbox (view w))) (history (view w));
  own_jobs q j : q ∈ queue w :: stale w → j ∈ q → job_own j;
}.

Record page_own p : Prop := {
  own_capture : capture_own (capture p);
  own_world : world_ok (capture p);
  own_cached s c a d : cached p !! daemon_key s c = Some a → answer_daemon a = daemon_metrics d → own_sample s d;
}.

Lemma Forall_slice {A} (P : A → Prop) n l : Forall P l → Forall P (slice_last n l).
Proof. intros Hl. unfold slice_last. destruct n; [done|]. by apply Forall_drop. Qed.

Lemma put_point_own s q ps : own_point s q → Forall (own_point s) ps → Forall (own_point s) (put_point q ps).
Proof.
  intros Hq Hps. induction Hps as [|x ps Hx Hps IH]; cbn [put_point]; [by constructor|].
  destruct (_ <? _); [|destruct (_ =? _)]; repeat first [done | apply Forall_cons; split].
Qed.

Lemma report_view g v : view_sandbox (reportFailure g v) = view_sandbox v ∧ history (reportFailure g v) = history v.
Proof. unfold reportFailure. by destruct (negb _). Qed.

(** A step of a job, whose history is its own if it is of the current view. *)
Lemma run_job_own t j v (db : DB) v' db' o :
  run_job t j v db = (v', db', o) → job_own j → (job_generation j = generation v → job_sandbox j = view_sandbox v) →
  (∀ s, Forall (own_point s) (db_points db s)) → Forall (own_point (view_sandbox v)) (history v) →
  (∀ s, Forall (own_point s) (db_points db' s)) ∧ Forall (own_point (view_sandbox v')) (history v') ∧
  (∀ j', o = Some j' → job_own j').
Proof.
  intros Hrun Hj Hgen Hdb Hv. unfold run_job in Hrun. unfold job_own in Hj.
  assert (∀ g, Forall (own_point (view_sandbox (reportFailure g v))) (history (reportFailure g v))) as Hfail
    by (intros g; by destruct (report_view g v) as [-> ->]).
  assert (∀ db1, clearDaemonCapture t db (job_sandbox j) = Returns db1 → ∀ s, Forall (own_point s) (db_points db1 s)) as Hclear.
  { intros db1 Hc s. destruct t; [|done..]. apply clear_points in Hc as [Hs Ho].
    destruct (decide (s = job_sandbox j)) as [->|Hne]; [by rewrite Hs|by rewrite Ho]. }
  destruct (job_next j) as [|d|next|restarted next|restarted next| |] eqn:Hn.
  - rewrite read_points in Hrun. cbn in Hrun. destruct t; simplify_eq; [|by split_and!..].
    destruct (job_generation j =? generation v) eqn:Hg; cbn [negb] in Hrun; simplify_eq; [|by split_and!].
    split_and!; [done| |done]. cbn [view_sandbox history with_history]. apply Z.eqb_eq in Hg. rewrite <- (Hgen Hg).
    do 2 apply Forall_slice. apply Hdb.
  - destruct (job_generation j =? generation v) eqn:Hg; cbn [negb] in Hrun; simplify_eq; [|by split_and!].
    destruct (daemon_metric_next _ _ _) as [next|] eqn:Hnext; simplify_eq; [|by split_and!].
    split_and!; [done..|]. intros j' [= <-]. apply Z.eqb_eq in Hg. specialize (Hgen Hg).
    apply daemon_metric_next_Some in Hnext as (q & Hq & _ & _ & _ & Hnext).
    assert (own_point (job_sandbox j) q) as Hown by (unfold own_point; by rewrite Hq).
    assert (Forall (own_point (job_sandbox j)) next) as Hall.
    { destruct Hnext as [[-> _]|[-> _]]; [|by constructor]. apply Forall_slice, Forall_app. rewrite Hgen.
      split; [done|]. constructor; [by rewrite <- Hgen|constructor]. }
    by destruct (_ && _).
  - destruct (clearDaemonCapture _ _ _) as [db1|] eqn:Hc; simplify_eq; [|by split_and!].
    split_and!; [by apply Hclear|done|]. by intros j' [= <-].
  - destruct (last next) as [q|] eqn:Hl; simplify_eq; [|by split_and!].
    assert (own_point (job_sandbox j) q) as Hq by (apply last_Some_elem_of in Hl; rewrite Forall_forall in Hj; by apply Hj).
    destruct (appendDaemonCapture _ _ _ _ _) as [db1|] eqn:Ha; simplify_eq; [|by split_and!].
    split_and!; [|done|by intros j' [= <-]]. intros s. destruct (decide (s = job_sandbox j)) as [->|Hne];
      [|by rewrite (append_other _ _ _ _ _ _ _ Ha Hne)]. destruct t; [|done..].
    apply append_points in Ha as ->; [|apply Hq|done]. apply Forall_drop. by apply put_point_own.
  - destruct (job_generation j =? generation v) eqn:Hg; cbn [negb] in Hrun; simplify_eq; [|by split_and!].
    split_and!; [done| |done]. cbn [view_sandbox history with_history]. apply Z.eqb_eq in Hg. by rewrite <- (Hgen Hg).
  - destruct (clearDaemonCapture _ _ _) as [db1|] eqn:Hc; simplify_eq; [|by split_and!].
    split_and!; [by apply Hclear|done|]. by intros j' [= <-].
  - destruct (job_generation j =? generation v) eqn:Hg; cbn [negb] in Hrun; simplify_eq; [|by split_and!].
    split_and!; [done| |done]. constructor.
Qed.

Lemma own_enqueue j w : capture_own w → job_own j → capture_own (enqueue j w).
Proof.
  intros [Hst Hh Hj] Hown. split; [done..|]. intros q j' Hq Hin. cbn [enqueue queue stale] in Hq.
  apply elem_of_cons in Hq as [->|Hq]; [|apply (Hj q); [by right|done]].
  apply elem_of_app in Hin as [Hin| ->%list_elem_of_singleton]; [|done]. apply (Hj (queue w)); [by left|done].
Qed.

(** A view that shows nothing, or what it showed, with the jobs there were. *)
Lemma own_view v m q w :
  capture_own w → history v = [] ∨ (history v = history (view w) ∧ view_sandbox v = view_sandbox (view w)) →
  (∀ l j, l ∈ q → j ∈ l → job_own j ∨ ∃ l, l ∈ queue w :: stale w ∧ j ∈ l) →
  ∀ own rest, q = own :: rest →
  capture_own {| view := v; mounted := m; store := store w; queue := own; stale := rest |}.
Proof.
  intros [Hst Hh Hj] Hv Hq own rest Heq. split; cbn [store view queue stale]; [done| |].
  - destruct Hv as [->|[-> ->]]; [constructor|done].
  - intros l j Hl Hin. rewrite <- Heq in Hl. destruct (Hq l j Hl Hin) as [?|(l' & Hl' & Hj')]; [done|by apply (Hj l')].
Qed.

(** A job runs, of the view's queue or of an earlier one. *)
Lemma own_ran t j q v' db' o w own rest :
  capture_own w → world_ok w → run_job t j (view w) (store w) = (v', db', o) →
  (∃ l, l ∈ queue w :: stale w ∧ j ∈ l) →
  (∀ l, l ∈ own :: rest → l ∈ queue w :: stale w ∨ l = rest_of o q) →
  (∃ l, l ∈ queue w :: stale w ∧ ∀ x, x ∈ q → x ∈ l) →
  capture_own {| view := v'; mounted := mounted w; store := db'; queue := own; stale := rest |}.
Proof.
  intros [Hst Hh Hj] Hok Hrun (l & Hl & Hin) Hlists (l' & Hl' & Hq).
  assert (job_generation j = generation (view w) → job_sandbox j = view_sandbox (view w)) as Hgen.
  { intros Hg. apply elem_of_cons in Hl as [->|Hl]; [by apply (ok_own w Hok)|].
    pose proof (ok_stale w Hok l j Hl Hin). lia. }
  destruct (run_job_own t j (view w) (store w) v' db' o Hrun (Hj l j Hl Hin) Hgen Hst Hh) as (Hst' & Hh' & Ho).
  split; cbn [store view queue stale]; [done..|]. intros k x Hk Hx.
  destruct (Hlists k Hk) as [Hk'|Hk']; [by apply (Hj k)|]. subst k. unfold rest_of in Hx. destruct o as [j'|].
  - apply elem_of_cons in Hx as [->|Hx]; [by apply Ho|]. apply (Hj l'); auto.
  - apply (Hj l'); auto.
Qed.

Lemma daemon_key_inj s c s' c' : daemon_key s c = daemon_key s' c' → s = s'.
Proof. unfold daemon_key. congruence. Qed.

Lemma record_effect_own r p : page_own p → mounted (capture p) = true → page_own (record_effect r p).
Proof.
  intros [Hc Hw Hk] Hm. unfold record_effect, answer_shown. destruct (cached p !! daemon_page_key p) as [a|] eqn:Hcached.
  - unfold recorded_sample. destruct (answer_daemon a) as [| |d] eqn:Ha; [done..|]. cbn iota.
    unfold recordSample. destruct (_ || _); [done|].
    pose proof (Hk _ _ a d Hcached Ha) as Hown.
    split; cbn [capture with_capture cached]; [by apply own_enqueue| |done].
    unfold enqueue. rewrite Hm. apply world_ok_enqueue; [done|apply Hown|done].
  - unfold recorded_sample. destruct (previous p) as [a|]; cbn; [|done]. by destruct (answer_daemon a).
Qed.

Lemma record_effect_mounted r p : mounted (capture (record_effect r p)) = mounted (capture p).
Proof. unfold record_effect. destruct (answer_shown p) as [o b]. destruct (recorded_sample o b); [|done]. by destruct (recordSample _ _ _). Qed.

Lemma daemon_commit_own r p : page_own p → mounted (capture p) = true → page_own (daemon_commit r p).
Proof.
  intros Hp Hm. unfold daemon_commit. set (p1 := if _ : bool then p else _).
  assert (page_own p1 ∧ mounted (capture p1) = true) as [Hp1 Hm1] by (unfold p1; destruct (Bool.eqb _ _); by destruct Hp).
  destruct (record_effect_own r p1 Hp1 Hm1) as [Hc Hw Hk]. by split.
Qed.

Lemma open_page_own s p : page_own p → page_own (open_page s p).
Proof.
  intros [Hc Hw Hk]. unfold open_page. apply daemon_commit_own; [|done].
  split; cbn [capture with_control with_capture cached]; [| |done].
  - apply (own_view (mount s (view (capture p))) true
      ([new_job (mount s (view (capture p))) LoadCapture] :: queue (capture p) :: stale (capture p)) (capture p) Hc); [by left| |done].
    intros l j Hl Hj. apply elem_of_cons in Hl as [->|Hl]; [|right; by exists l].
    apply list_elem_of_singleton in Hj as ->. by left.
  - by apply world_ok_mount.
Qed.

Lemma daemon_step_own p p' : page_own p → daemon_step answers p p' → page_own p'.
Proof.
  intros Hp Hstep. assert (Hown := Hp). destruct Hown as [Hc Hw Hk].
  destruct Hstep as [s p|r p Hm|p Hf|p|c p|p Hm|i q a p Hq Ha|i p|p|p Hm|t s g p|t j q v' db' o p Hq Hrun|j w p Hst].
  - by apply open_page_own.
  - by apply daemon_commit_own.
  - by split.
  - by split.
  - by split.
  - unfold request_starts. by destruct (poll_enabled _ _).
  - unfold request_answered. rewrite Hq. split; [done..|]. intros s c b d Hb Hd. cbn [cached] in Hb.
    apply lookup_insert_Some in Hb as [[Heq <-]|[_ Hb]]; [|by apply (Hk s c b)].
    apply daemon_key_inj in Heq as <-. by apply (answers_from _ a).
  - by split.
  - split; cbn [capture leave_daemon_page cached]; [| |done].
    + apply (own_view (unmount (view (capture p))) false ([] :: queue (capture p) :: stale (capture p)) (capture p) Hc); [by right| |done].
      intros l j Hl Hj. apply elem_of_cons in Hl as [->|Hl]; [by apply not_elem_of_nil in Hj|]. right. by exists l.
    + by apply world_ok_unmount.
  - split; cbn [capture with_capture cached]; [by apply own_enqueue| |done]. unfold enqueue. rewrite Hm. by apply world_ok_enqueue.
  - split; cbn [capture with_capture cached]; [| |done].
    + apply (own_view _ _ (queue (capture p) :: stale (capture p)) (capture p) Hc); [|intros l j Hl Hj; right; by exists l|done].
      right. unfold readFullCapture. destruct (readDaemonCapture _ _ _ _); [done|]. by destruct (report_view g (view (capture p))).
    + by apply world_ok_read.
  - split; cbn [capture with_capture cached]; [| |done].
    + apply (own_ran t j q v' db' o (capture p) _ _ Hc Hw Hrun).
      * exists (queue (capture p)). rewrite Hq. split; by left.
      * intros l Hl. apply elem_of_cons in Hl as [->|Hl]; [by right|left; by right].
      * exists (queue (capture p)). split; [by left|]. intros x Hx. rewrite Hq. by right.
    + edestruct world_ok_job; [done..|]. done.
  - destruct (stale_step_ok j (capture p) w Hst Hw) as (Hw' & _ & _). split; cbn [capture with_capture cached]; [|done|done].
    destruct Hst as [t q1 q q2 v' db' o Hq Hrun]. apply (own_ran t j q v' db' o (capture p) _ _ Hc Hw Hrun).
    + exists (j :: q). rewrite Hq. split; [|by left]. right. apply elem_of_app. right. by left.
    + intros l Hl. rewrite Hq. apply elem_of_cons in Hl as [->|Hl]; [left; by left|].
      apply elem_of_app in Hl as [Hl|[->|Hl]%elem_of_cons]; [left; right; apply elem_of_app; by left|by right|].
      left. right. apply elem_of_app. right. by right.
    + exists (j :: q). rewrite Hq. split; [right; apply elem_of_app; right; by left|]. intros x Hx. by right.
Qed.

Lemma page_reachable_own db s p : (∀ x, Forall (own_point x) (db_points db x)) → page_reachable answers db s p → page_own p.
Proof.
  intros Hdb. induction 1 as [|p p' _ IH Hstep]; [|by eapply daemon_step_own].
  split; [split|apply (reachable_world_ok db s); constructor|]; cbn; try done.
  intros q j Hq Hj. apply elem_of_cons in Hq as [->|Hq]; by apply not_elem_of_nil in Hj || by apply not_elem_of_nil in Hq.
Qed.
End facts.

(** ** Theorems *)

(** C17: A capture holds samples of its own sandbox only. Whatever the daemons
    answer (in time, late, or to a page that has moved on), however the user
    goes from sandbox to sandbox and back, leaves and returns while jobs are
    under way, changes the cadence, pauses, clears and exports, and whatever
    transactions fail: if the captures on disk began so,
    every point ever stored for a sandbox was answered by the daemon of that
    sandbox, and so was every point the page shows. *)
Theorem captured_from_own_sandbox {DB} `{IndexedStore DB} (answers : jsstr → daemon_answer → Prop) (from : jsstr → DaemonProcessMetrics → Prop)
    (db : DB) s p
    (Hanswers : ∀ x a d, answers x a → answer_daemon a = daemon_metrics d → from x d ∧ 0 ≤ sampled_at_unix_ms d ≤ MAX_SAFE_INTEGER)
    (Hdb : ∀ x q, q ∈ db_points db x → from x (sample q) ∧ 0 ≤ sampled_at_unix_ms (sample q) ≤ MAX_SAFE_INTEGER)
    (Hreach : page_reachable answers db s p) :
  (∀ x q, q ∈ db_points (store (capture p)) x → from x (sample q)) ∧
  (∀ q, q ∈ history (view (capture p)) → from (page_sandbox p) (sample q)).
Proof.
  assert (page_own from p) as [[Hst Hh _] _ _].
  { eapply (page_reachable_own answers from); [exact Hanswers| |exact Hreach]. intros x. apply Forall_forall. intros q Hq. by apply Hdb. }
  split; [intros x q Hq; specialize (Hst x)|intros q Hq]; [rewrite Forall_forall in Hst; by apply Hst|].
  rewrite Forall_forall in Hh. by apply Hh.
Qed.

(** A failed store stops the capture, and resuming does not start it. The
    commit that first sees the failure pauses the page and nothing is asked
    any more; a user who resumes is told that the page is capturing, but until
    another sandbox is opened no request is sent. *)
Theorem resumed_after_failure {DB} `{IndexedStore DB} r r' (p : daemon_page DB)
    (Hfailed : failed (view (capture p)) = true) (Hnew : error_seen p = false) :
  let stopped := daemon_commit r p in
  let resumed := daemon_commit r' (with_control (toggle_capture (control stopped)) stopped) in
  capturing (control stopped) = false ∧ request_starts stopped = stopped ∧
  capturing (control resumed) = true ∧ request_starts resumed = resumed.
Proof.
  assert (∀ b (q : daemon_page DB), failed (view (capture q)) = true →
    failed (view (capture (daemon_commit b q))) = true ∧ error_seen (daemon_commit b q) = true ∧
    capturing (control (daemon_commit b q)) = if error_seen q then capturing (control q) else false) as Hcommit.
  { intros b q Hq. unfold daemon_commit. rewrite Hq. set (q1 := if _ : bool then q else _).
    assert (capture (record_effect b q1) = capture q ∨ ∃ j, capture (record_effect b q1) = enqueue j (capture q)) as Hcap.
    { assert (capture q1 = capture q) as <- by (unfold q1; by destruct (Bool.eqb _ _)). unfold record_effect. destruct (answer_shown q1) as [o f].
      destruct (recorded_sample o f) as [d|]; [|by left]. destruct (recordSample b d _) as [j|]; [right; by exists j|by left]. }
    assert (control (record_effect b q1) = control q1) as Hcontrol.
    { unfold record_effect. destruct (answer_shown q1) as [o f]. destruct (recorded_sample o f) as [d|]; [|done]. by destruct (recordSample b d _). }
    cbn [capture control error_seen]. rewrite Hcontrol. split_and!; [|done|].
    - destruct Hcap as [->|[j ->]]; done.
    - unfold q1. by destruct (error_seen q). }
  assert (∀ q : daemon_page DB, failed (view (capture q)) = true → request_starts q = q) as Hasks.
  { intros q Hq. unfold request_starts, poll_enabled. rewrite Hq. by rewrite andb_false_r. }
  cbv zeta. destruct (Hcommit r p Hfailed) as (H1 & H2 & H3). rewrite Hnew in H3. set (stopped := daemon_commit r p) in *.
  destruct (Hcommit r' (with_control (toggle_capture (control stopped)) stopped) H1) as (H4 & _ & H5).
  split_and!; [done|by apply Hasks| |by apply Hasks]. rewrite H5. cbn [error_seen with_control control]. rewrite H2.
  cbn [toggle_capture capturing]. by rewrite H3.
Qed.

(** ** Examples *)

(** Two daemons; that of sandbox "a" has process 1, that of "b" process 2. *)
Definition example_pid (s : jsstr) : Z := if bool_decide (s = js "a") then 1 else 2.
Definition example_reply (s : jsstr) : daemon_answer :=
  {| answer_daemon := daemon_metrics (example_sample (example_pid s) 5 50); answer_series := [] |}.
Definition example_answers (s : jsstr) (a : daemon_answer) : Prop := a = example_reply s.
Definition example_from (s : jsstr) (d : DaemonProcessMetrics) : Prop := d = example_sample (example_pid s) 5 50.

Definition run_next (p : daemon_page sorted_store) : daemon_page sorted_store := with_capture (run_first (capture p)) p.

Lemma run_next_step p : queue (capture p) ≠ [] → daemon_step example_answers p (run_next p).
Proof.
  intros Hne. unfold run_next, run_first. destruct (queue (capture p)) as [|j q] eqn:Hq; [done|].
  destruct (run_job _ _ _ _) as [[v' db'] o] eqn:Hrun. exact (page_job example_answers Completes j q v' db' o p Hq Hrun).
Qed.

(** The page of "a" is opened and loaded, its daemon is asked and answers, and
    the jobs of the answer run. *)
Definition example_first : daemon_page sorted_store := run_next (open_page (js "a") (initial_daemon_page empty_store (js "a"))).
Definition example_asked : daemon_page sorted_store := request_starts example_first.
Definition example_answered : daemon_page sorted_store := daemon_commit true (request_answered 0 (example_reply (js "a")) example_asked).
Definition example_captured : daemon_page sorted_store := run_next (run_next (run_next example_answered)).

Lemma example_captured_reachable : page_reachable example_answers empty_store (js "a") example_captured.
Proof.
  assert (page_reachable example_answers empty_store (js "a") example_first) as H1.
  { eapply page_next; [|apply run_next_step; vm_compute; discriminate]. eapply page_next; [apply page_init|]. apply page_opens. }
  assert (page_reachable example_answers empty_store (js "a") example_answered) as H2.
  { eapply page_next; [|apply page_commits; reflexivity].
    eapply page_next; [|refine (page_answered example_answers 0 {| asked_sandbox := js "a"; asked_cadence := cadence_standard |} _ example_asked eq_refl eq_refl)].
    eapply page_next; [exact H1|]. apply page_asks. reflexivity. }
  unfold example_captured. do 3 (eapply page_next; [|apply run_next_step; vm_compute; discriminate]). exact H2.
Qed.

Lemma captured_from_own_sandbox_witness :
  length (db_points (store (capture example_captured)) (js "a")) = 1%nat ∧
  ∀ q, q ∈ db_points (store (capture example_captured)) (js "a") → sample q = example_sample 1 5 50.
Proof.
  split; [vm_compute; reflexivity|]. intros q.
  refine (proj1 (captured_from_own_sandbox example_answers example_from empty_store (js "a") example_captured _ _ example_captured_reachable) (js "a") q).
  - intros x a d -> [= <-]. split; [reflexivity|]. unfold example_pid. destruct (bool_decide _); split; vm_compute; discriminate.
  - intros x y Hy. pose proof (db_empty_points (DB := sorted_store) x) as He. change db_empty with empty_store in He.
    rewrite He in Hy. by apply not_elem_of_nil in Hy.
Defined.

Definition example_broken : daemon_page sorted_store :=
  with_capture {| view := reportFailure 2 (view (capture example_captured)); mounted := true; store := store (capture example_captured);
                  queue := []; stale := [] |} example_captured.

Lemma resumed_after_failure_witness :
  let stopped := daemon_commit false example_broken in
  capturing (control (daemon_commit false (with_control (toggle_capture (control stopped)) stopped))) = true.
Proof.
  refine (proj1 (proj2 (proj2 (resumed_after_failure false false example_broken _ _)))); vm_compute; reflexivity.
Defined.
