(* ===== verification/ConsolePage.v ===== *)
(** The console as it is put together: the routes ([web/src/App.tsx]), the
    frame around every page ([web/src/shell/Shell.tsx]), and what the frame and
    the dashboard ([web/src/pages/dashboard/DashboardPage.tsx]) keep as the
    user moves between pages.

    Matching a path is the router's; [Router] is what the console relies on. *)
From S2P Require Import Prelude JsText Uri Types SandboxClusters Dashboard DashboardView ObservabilityTab Shell.

(** ** The routes *)

Inductive console_page :=
  | DashboardRoute | TerminalRoute | FilesRoute | PreviewRoute
  | ResourcesRoute | DaemonRoute | CgroupRoute | TracesRoute | EventsRoute | LayerStackRoute.

Inductive route_element := Page (p : console_page) | Navigate (to : jsstr) | LegacyLayerStack | NotFound.

Inductive route_part := Static (s : jsstr) | Dynamic (name : jsstr).

#[export] Instance console_page_eq_dec : EqDecision console_page.
Proof. solve_decision. Defined.

#[export] Instance route_element_eq_dec : EqDecision route_element.
Proof. solve_decision. Defined.

#[export] Instance route_part_eq_dec : EqDecision route_part.
Proof. solve_decision. Defined.

Definition under_sandbox (rest : list string) (e : route_element) : list route_part * route_element :=
  (Static SANDBOXES :: Dynamic (js "sandboxId") :: (Static ∘ js <$> rest), e).

(** The leaves of the tree of routes; any other path is not found. *)
Definition ROUTES : list (list route_part * route_element) :=
  [([], Page DashboardRoute);
   under_sandbox [] (Navigate (js "terminal"));
   under_sandbox ["terminal"] (Page TerminalRoute);
   under_sandbox ["files"] (Page FilesRoute);
   under_sandbox ["layerstack"] LegacyLayerStack;
   under_sandbox ["preview"] (Page PreviewRoute);
   under_sandbox ["observability"] (Navigate (js "resources"));
   under_sandbox ["observability"; "resources"] (Page ResourcesRoute);
   under_sandbox ["observability"; "daemon"] (Page DaemonRoute);
   under_sandbox ["observability"; "cgroup"] (Page CgroupRoute);
   under_sandbox ["observability"; "traces"] (Page TracesRoute);
   (Static SANDBOXES :: Dynamic (js "sandboxId") :: Static (js "observability") :: Static (js "traces") :: [Dynamic (js "traceId")], Page TracesRoute);
   under_sandbox ["observability"; "events"] (Page EventsRoute);
   under_sandbox ["observability"; "layerstack"] (Page LayerStackRoute)]%string.

(** A path fits a pattern; its parameters are decoded. *)
Fixpoint fits (pattern : list route_part) (parts : list jsstr) : bool :=
  match pattern, parts with
  | [], [] => true
  | Static s :: pattern, p :: parts => bool_decide (s = p) && fits pattern parts
  | Dynamic _ :: pattern, p :: parts => fits pattern parts
  | _, _ => false
  end.

Class Router := {
  element_at : jsstr → route_element;
  element_fits pattern e pathname :
    (pattern, e) ∈ ROUTES → fits pattern (path_parts pathname) = true → element_at pathname = e;
}.

(** Where a path ends once its redirect is followed: a relative one goes below
    the path; [None] when the sandbox cannot be encoded again. *)
Definition follow_redirect (pathname : jsstr) (e : route_element) : option jsstr :=
  match e with
  | Navigate to => Some (pathname ++ 47 :: to)
  | LegacyLayerStack =>
      loc_pathname <$> LegacyLayerStackRedirect (decodePathSegment ∘ fst <$> sandbox_parts pathname)
        {| loc_pathname := pathname; loc_search := []; loc_hash := [] |}
  | Page _ | NotFound => Some pathname
  end.

(** ** The frame *)

Record shell_state := {
  navigationOpen : bool;
  createLogs : option (list jsstr);
  shell_connection : DashboardConnectionState;
}.

Definition initial_shell : shell_state := {| navigationOpen := false; createLogs := None; shell_connection := connecting |}.

Definition isDashboard (pathname : jsstr) : bool := bool_decide (pathname = js "/").

Definition SHELL_LABELS (c : DashboardConnectionState) : jsstr :=
  match c with
  | connecting => js "Connecting"
  | connected => js "Connected"
  | stale => js "Stale data"
  | disconnected => js "Disconnected"
  end.

(** The start of the backend: the request of the last press, and whether the
    page was reloaded since. *)
Inductive mutation := MutationIdle | MutationPending | MutationFailed (m : jsstr).

Record shell_shown := {
  shown_burger : option jsstr;
  shown_pill : option jsstr;
  shown_trail : list Crumb;
  shown_navigation : list (NavigationItem * bool);
  shown_backend : option (option jsstr * bool);
}.

(** The name of the burger, the state on the dashboard, the trail elsewhere,
    the items with the one that is focused, and the control of the backend. *)
Definition Shell (pathname : jsstr) (s : shell_state) (backendStart : mutation) : shell_shown :=
  {| shown_burger := if isDashboard pathname then None
                     else Some (js (if navigationOpen s then "Close navigation" else "Open navigation"));
     shown_pill := if isDashboard pathname then Some (js "Console " ++ SHELL_LABELS (shell_connection s)) else None;
     shown_trail := if isDashboard pathname then [] else crumbs pathname;
     shown_navigation := imap (λ i e, (e, bool_decide (Z.of_nat i = activeIndex pathname))) (navigationItems pathname);
     shown_backend := if isDashboard pathname
                      then Some (match backendStart with MutationFailed m => Some m | _ => None end,
                                 match backendStart with MutationPending => true | _ => false end)
                      else None |}.

Definition with_navigation (open : bool) (s : shell_state) : shell_state :=
  {| navigationOpen := open; createLogs := createLogs s; shell_connection := shell_connection s |}.

Definition setConnection (c : DashboardConnectionState) (s : shell_state) : shell_state :=
  {| navigationOpen := navigationOpen s; createLogs := createLogs s; shell_connection := c |}.

(** ** The clusters of the dashboard *)

(** The sections on the page, each with its toggle; React keeps the toggle of a
    section while a section with its key is rendered. *)
Definition sections := gmap jsstr bool.

Definition render_sections (visible : list jsstr) (s : sections) : sections :=
  list_to_map ((λ i, (i, s !! i ?? false)) <$> visible).

Definition toggle_section (i : jsstr) (s : sections) : sections :=
  match s !! i with Some collapsed => <[i := negb collapsed]> s | None => s end.

(** The sections a render of the dashboard shows: those found, in the cluster
    view, while there is a collection. *)
Definition sections_of_body (b : dashboard_body) : list jsstr :=
  match b with body_clusters found => (λ f, cluster_id (cluster (found_cluster f))) <$> found | _ => [] end.

(** ** The console over time *)

Record console_state := { pathname : jsstr; shell : shell_state; collapsed : sections }.

Definition initial_console (path : jsstr) : console_state := {| pathname := path; shell := initial_shell; collapsed := ∅ |}.

Inductive frame_event :=
  | PressBurger
  | CloseDrawer
  | Follow (item : nat)
  | GoTo (to : jsstr)
  | RenderDashboard (p : dashboard_input)
  | ToggleCluster (i : jsstr).

(** The dashboard is unmounted by a page that is not it. *)
Definition leave_to (to : jsstr) (c : sections) : sections := if isDashboard to then c else ∅.

Section steps.
Context `{CaseMapping}.

Definition frame_step (c : console_state) (e : frame_event) : console_state :=
  match e with
  | PressBurger =>
      if isDashboard (pathname c) then c
      else {| pathname := pathname c; shell := with_navigation (negb (navigationOpen (shell c))) (shell c); collapsed := collapsed c |}
  | CloseDrawer => {| pathname := pathname c; shell := with_navigation false (shell c); collapsed := collapsed c |}
  | Follow item =>
      match navigationItems (pathname c) !! item with
      | Some e => {| pathname := item_to e; shell := with_navigation false (shell c); collapsed := leave_to (item_to e) (collapsed c) |}
      | None => c
      end
  | GoTo to => {| pathname := to; shell := shell c; collapsed := leave_to to (collapsed c) |}
  | RenderDashboard p =>
      if isDashboard (pathname c)
      then {| pathname := pathname c; shell := setConnection (connection p) (shell c);
              collapsed := render_sections (sections_of_body (body p)) (collapsed c) |}
      else c
  | ToggleCluster i => {| pathname := pathname c; shell := shell c; collapsed := toggle_section i (collapsed c) |}
  end.

Definition frame_run (c : console_state) (es : list frame_event) : console_state := foldl frame_step c es.
End steps.

(** The pages the items of the navigation stand for. *)
Definition NAVIGATION_PAGES : list console_page :=
  [DashboardRoute; TerminalRoute; FilesRoute; ResourcesRoute; ResourcesRoute; DaemonRoute; CgroupRoute; TracesRoute; EventsRoute;
   LayerStackRoute; PreviewRoute].

(** ** Facts: paths below a sandbox *)

Definition sandbox_path (enc : jsstr) (rest : list string) : jsstr := (SANDBOXES :: enc :: (js <$> rest)) ≫= (47 ::.).

Definition plain_parts (rest : list string) : Prop := Forall (λ p : jsstr, 47 ∉ p ∧ p ≠ []) (js <$> rest).

Lemma sandbox_path_parts enc rest : 47 ∉ enc ∧ enc ≠ [] → plain_parts rest → path_parts (sandbox_path enc rest) = SANDBOXES :: enc :: (js <$> rest).
Proof.
  intros Henc Hrest. apply path_parts_join. apply Forall_cons. split; [decide_closed|]. by apply Forall_cons.
Qed.

Lemma fits_static (rest : list string) : fits (Static ∘ js <$> rest) (js <$> rest) = true.
Proof. induction rest as [|r rest IH]; [done|]. rewrite !fmap_cons. cbn [fits compose]. by rewrite bool_decide_true, IH. Qed.

Lemma element_under `{Router} enc rest e :
  47 ∉ enc ∧ enc ≠ [] → plain_parts rest → under_sandbox rest e ∈ ROUTES → element_at (sandbox_path enc rest) = e.
Proof.
  intros Henc Hrest Hin. apply (element_fits _ e (sandbox_path enc rest) Hin). rewrite sandbox_path_parts by done.
  unfold under_sandbox. cbn [fst fits]. rewrite bool_decide_true by done. apply fits_static.
Qed.

(** A page below a sandbox is reached, and its navigation is the sandbox's. *)
Lemma sandbox_path_of enc rest : 47 ∉ enc ∧ enc ≠ [] → plain_parts rest → sandbox_parts (sandbox_path enc rest) = Some (enc, js <$> rest).
Proof. intros Henc Hrest. unfold sandbox_parts. rewrite sandbox_path_parts by done. by rewrite bool_decide_true. Qed.

Lemma redirect_below enc rest to : sandbox_path enc rest ++ 47 :: js to = sandbox_path enc (rest ++ [to]).
Proof.
  unfold sandbox_path. rewrite fmap_app. change (?a :: ?b :: ?l ++ ?r) with ((a :: b :: l) ++ r). rewrite bind_app.
  f_equal. cbn [mbind list_bind fmap list_fmap app]. by rewrite app_nil_r.
Qed.

Lemma sandbox_path_base enc rest : sandbox_path enc rest = js "/sandboxes/" ++ enc ++ ((js <$> rest) ≫= (47 ::.)).
Proof. reflexivity. Qed.

(** An item is highlighted at its own address, and the one of all the views at
    the addresses below it. *)
Lemma item_active_there enc suffix text nested :
  item_active (item (js "/sandboxes/" ++ enc ++ js "/" ++ js suffix) (js "/sandboxes/" ++ enc) text suffix nested) = true.
Proof.
  unfold item. cbn [item_active]. rewrite <- app_assoc. destruct nested; [by rewrite bool_decide_true|].
  by destruct (bool_decide (js suffix = js "observability")); rewrite bool_decide_true.
Qed.

Lemma item_active_below enc (view : string) text :
  item_active (item (js "/sandboxes/" ++ enc ++ js "/observability/" ++ js view) (js "/sandboxes/" ++ enc) text "observability" false) = true.
Proof.
  unfold item. cbn [item_active]. rewrite (bool_decide_true (js "observability" = js "observability")) by done.
  apply orb_true_intro. right. apply startsWith_spec. rewrite <- !app_assoc. do 2 apply prefix_app.
  exists (js view). reflexivity.
Qed.

(** The items below the dashboard: the path of each, the redirect it meets, and
    the page it lands on. *)
Record landing := { landing_parts : list string; landing_redirect : option string; landing_page : console_page }.

Definition lands (parts : list string) (redirect : option string) (p : console_page) : landing :=
  {| landing_parts := parts; landing_redirect := redirect; landing_page := p |}.

Definition LANDINGS : list landing :=
  [lands ["terminal"] None TerminalRoute; lands ["files"] None FilesRoute; lands ["observability"] (Some "resources") ResourcesRoute;
   lands ["observability"; "resources"] None ResourcesRoute; lands ["observability"; "daemon"] None DaemonRoute;
   lands ["observability"; "cgroup"] None CgroupRoute; lands ["observability"; "traces"] None TracesRoute;
   lands ["observability"; "events"] None EventsRoute; lands ["observability"; "layerstack"] None LayerStackRoute;
   lands ["preview"] None PreviewRoute]%string.

Definition landing_element (l : landing) : route_element :=
  match landing_redirect l with Some to => Navigate (js to) | None => Page (landing_page l) end.

Definition landing_path (l : landing) : list string := landing_parts l ++ option_list (landing_redirect l).

Lemma landings_routed :
  Forall (λ l, (plain_parts (landing_parts l) ∧ plain_parts (landing_path l)) ∧
    under_sandbox (landing_parts l) (landing_element l) ∈ ROUTES ∧ under_sandbox (landing_path l) (Page (landing_page l)) ∈ ROUTES) LANDINGS.
Proof. decide_closed. Qed.

Lemma items_landings enc pathname rest :
  sandbox_parts pathname = Some (enc, rest) →
  item_to <$> navigationItems pathname = js "/" :: (sandbox_path enc ∘ landing_parts <$> LANDINGS).
Proof. intros Hpath. rewrite (navigation_targets _ _ _ Hpath). reflexivity. Qed.

Lemma landing_reached `{Router} enc l :
  47 ∉ enc ∧ enc ≠ [] → l ∈ LANDINGS →
  let land := sandbox_path enc (landing_path l) in
  follow_redirect (sandbox_path enc (landing_parts l)) (element_at (sandbox_path enc (landing_parts l))) = Some land ∧
  element_at land = Page (landing_page l) ∧ sandbox_parts land = Some (enc, js <$> landing_path l).
Proof.
  intros Henc Hl land. pose proof landings_routed as Hall. rewrite Forall_forall in Hall.
  destruct (Hall l Hl) as ([Hplain Hplain'] & Hat & Hland).
  rewrite (element_under _ _ _ Henc Hplain Hat). split; [|split; [by apply element_under|by apply sandbox_path_of]].
  unfold land, landing_element, landing_path. destruct (landing_redirect l) as [to|]; cbn [follow_redirect option_list].
  - by rewrite redirect_below.
  - by rewrite app_nil_r.
Qed.

Lemma dashboard_item pathname e :
  navigationItems pathname !! 0%nat = Some e →
  item_label e = js "Dashboard" ∧ item_to e = js "/" ∧ item_active e = bool_decide (pathname = js "/").
Proof. intros He. unfold navigationItems in He. by destruct (sandbox_parts pathname) as [[? ?]|]; apply (inj Some) in He; subst e. Qed.

Lemma landing_highlighted enc pathname rest rest' i l e :
  sandbox_parts pathname = Some (enc, rest) → sandbox_parts (sandbox_path enc (landing_path l)) = Some (enc, rest') →
  LANDINGS !! i = Some l → navigationItems pathname !! S i = Some e →
  ∃ e', navigationItems (sandbox_path enc (landing_path l)) !! S i = Some e' ∧ item_label e' = item_label e ∧ item_active e' = true.
Proof.
  intros Hpath Hland Hl He. unfold navigationItems in He |- *. rewrite Hpath in He. rewrite Hland.
  do 10 (destruct i as [|i]; [injection Hl as <-; injection He as <-; eexists; split; [reflexivity|]; split; [reflexivity|];
    first [apply item_active_there|apply (item_active_below enc "resources")]|]). done.
Qed.

(** ** Theorems *)

(** C33: The navigation leads somewhere. From any page of a sandbox, whatever
    characters its identifier has, each item of the navigation leads to the
    page it is named after, past at most one redirect; the page is one of the
    same sandbox, and the item is highlighted there. *)
Theorem navigation_reaches `{Router} id enc pathname rest i e
    (Hid : Forall (λ u, 0 ≤ u < 65536) id) (Hne : id ≠ []) (Henc : encodeURIComponent id = Some enc)
    (Hpath : sandbox_parts pathname = Some (enc, rest)) (He : navigationItems pathname !! i = Some e) :
  ∃ land p, follow_redirect (item_to e) (element_at (item_to e)) = Some land ∧
    NAVIGATION_PAGES !! i = Some p ∧ element_at land = Page p ∧
    (i ≠ 0%nat → ∃ rest', sandbox_parts land = Some (enc, rest')) ∧
    (∃ e', navigationItems land !! i = Some e' ∧ item_label e' = item_label e ∧ item_active e' = true).
Proof.
  pose proof (encoded_part id enc Hid Hne Henc) as Hpart. pose proof (items_landings _ _ _ Hpath) as Hto.
  apply (f_equal (λ l, l !! i)) in Hto. rewrite list_lookup_fmap, He in Hto. destruct i as [|i].
  { exists (js "/"), DashboardRoute. destruct (dashboard_item pathname e He) as (Hlabel & Hroot & Hactive).
    rewrite Hroot. assert (element_at (js "/") = Page DashboardRoute) as Hat; [apply (element_fits [] _ (js "/")); [by left|reflexivity]|].
    rewrite Hat. split; [done|]. split; [done|]. split; [done|]. split; [done|].
    destruct (navigationItems (js "/") !! 0%nat) as [e'|] eqn:He'; [|done]. exists e'. split; [done|].
    destruct (dashboard_item _ e' He') as (-> & _ & ->). by rewrite Hlabel. }
  change ((js "/" :: (sandbox_path enc ∘ landing_parts <$> LANDINGS)) !! S i) with ((sandbox_path enc ∘ landing_parts <$> LANDINGS) !! i) in Hto.
  rewrite list_lookup_fmap in Hto. destruct (LANDINGS !! i) as [l|] eqn:Hl; [|done]. apply (inj Some) in Hto. rewrite Hto.
  destruct (landing_reached enc l Hpart) as (Hfollow & Hat & Hparts); [by apply list_elem_of_lookup_2 in Hl|].
  exists (sandbox_path enc (landing_path l)), (landing_page l). split_and!; [done| |done|by eexists|].
  - change NAVIGATION_PAGES with (DashboardRoute :: (landing_page <$> LANDINGS)).
    change ((?x :: ?l) !! S i) with (l !! i). by rewrite list_lookup_fmap, Hl.
  - by apply (landing_highlighted enc pathname rest (js <$> landing_path l) i l e).
Qed.

(** No path fits two of the routes. *)
Fixpoint overlap (p q : list route_part) : bool :=
  match p, q with
  | [], [] => true
  | Static a :: p, Static b :: q => bool_decide (a = b) && overlap p q
  | _ :: p, _ :: q => overlap p q
  | _, _ => false
  end.

Lemma fits_overlap p q parts : fits p parts = true → fits q parts = true → overlap p q = true.
Proof.
  revert q parts. induction p as [|[a|a] p IH]; intros [|[b|b] q] [|part parts]; cbn [fits overlap]; try done;
    rewrite ?andb_true_iff, ?bool_decide_eq_true; naive_solver congruence.
Qed.

Lemma routes_apart : Forall (λ r, Forall (λ r' : list route_part * route_element, overlap r.1 r'.1 = true → r = r') ROUTES) ROUTES.
Proof. decide_closed. Qed.

(** A router that takes the first route that fits. *)
Definition first_route_at (pathname : jsstr) : route_element :=
  match js_find (λ r : list route_part * route_element, fits r.1 (path_parts pathname)) ROUTES with Some r => r.2 | None => NotFound end.

Lemma first_route_fits pattern e pathname :
  (pattern, e) ∈ ROUTES → fits pattern (path_parts pathname) = true → first_route_at pathname = e.
Proof.
  intros Hin Hfits. unfold first_route_at. destruct (js_find _ ROUTES) as [r|] eqn:Hfind.
  - apply js_find_Some in Hfind as (l1 & l2 & Hl & Hfits' & _). pose proof routes_apart as Hall. rewrite Forall_forall in Hall.
    assert (r ∈ ROUTES) as Hr by (rewrite Hl; apply elem_of_app; right; by left).
    specialize (Hall r Hr). rewrite Forall_forall in Hall.
    by rewrite (Hall (pattern, e) Hin) by (by apply (fits_overlap _ _ (path_parts pathname))).
  - apply js_find_None in Hfind. rewrite Forall_forall in Hfind. specialize (Hfind (pattern, e) Hin). cbv beta in Hfind. cbn [fst] in Hfind. congruence.
Qed.

Definition first_route : Router := {| element_at := first_route_at; element_fits := first_route_fits |}.

Lemma navigation_reaches_witness :
  ∃ land p, @follow_redirect (js "/sandboxes/a%2Fb/observability") (@element_at first_route (js "/sandboxes/a%2Fb/observability")) = Some land ∧
    NAVIGATION_PAGES !! 3%nat = Some p ∧ @element_at first_route land = Page p ∧
    (3%nat ≠ 0%nat → ∃ rest', sandbox_parts land = Some (js "a%2Fb", rest')) ∧
    (∃ e', navigationItems land !! 3%nat = Some e' ∧ item_label e' = js "Observability" ∧ item_active e' = true).
Proof.
  refine (@navigation_reaches first_route (js "a/b") (js "a%2Fb") (js "/sandboxes/a%2Fb/files") [js "files"] 3
    {| item_label := js "Observability"; item_to := js "/sandboxes/a%2Fb/observability"; item_active := false |} _ _ _ _ _).
  - decide_closed.
  - done.
  - by vm_compute.
  - by vm_compute.
  - by vm_compute.
Defined.

(** *** The clusters *)

Lemma render_lookup visible s i :
  render_sections visible s !! i = if bool_decide (i ∈ visible) then Some (s !! i ?? false) else None.
Proof.
  unfold render_sections. destruct (bool_decide_reflect (i ∈ visible)) as [Hi|Hi].
  - apply elem_of_list_to_map_1'; [|by apply list_elem_of_fmap; exists i].
    intros y (j & Heq & _)%list_elem_of_fmap. by injection Heq as -> ->.
  - apply not_elem_of_list_to_map_1. intros (y & -> & (j & -> & Hj)%list_elem_of_fmap)%list_elem_of_fmap. done.
Qed.

Lemma toggle_lookup i j s : toggle_section i s !! j = if bool_decide (i = j) then negb <$> s !! j else s !! j.
Proof.
  unfold toggle_section. destruct (bool_decide_reflect (i = j)) as [->|Hne].
  - destruct (s !! j) as [b|] eqn:Hs; [cbn; apply lookup_insert_eq|done].
  - destruct (s !! i); [by apply lookup_insert_ne|done].
Qed.

(** What is done while the section of a cluster stays on the page, and how often
    its button is pressed. *)
Definition keeps_section `{CaseMapping} (i : jsstr) (e : frame_event) : Prop :=
  match e with
  | RenderDashboard p => i ∈ sections_of_body (body p)
  | Follow n => n = 0%nat
  | GoTo to => to = js "/"
  | PressBurger | CloseDrawer | ToggleCluster _ => True
  end.

Definition presses (i : jsstr) (es : list frame_event) : nat :=
  length (js_filter (λ e, match e with ToggleCluster j => bool_decide (j = i) | _ => false end) es).

Lemma keeps_step `{CaseMapping} i c e b :
  pathname c = js "/" → collapsed c !! i = Some b → keeps_section i e →
  pathname (frame_step c e) = js "/" ∧ collapsed (frame_step c e) !! i = Some (xorb b (Nat.odd (presses i [e]))).
Proof.
  intros Hpath Hb Hkeep. assert (isDashboard (pathname c) = true) as Hdash by (unfold isDashboard; by apply bool_decide_eq_true).
  unfold presses. destruct e as [| |n|to|p|j]; cbn [keeps_section frame_step List.filter length Nat.odd pathname collapsed]; rewrite ?Hdash.
  - by rewrite xorb_false_r.
  - by rewrite xorb_false_r.
  - rewrite Hkeep. destruct (navigationItems (pathname c) !! 0%nat) as [e|] eqn:He; [|by rewrite xorb_false_r].
    cbn [pathname collapsed]. destruct (dashboard_item _ e He) as (_ & -> & _). split; [done|]. by rewrite xorb_false_r.
  - split; [done|]. rewrite Hkeep. change (leave_to (js "/") (collapsed c)) with (collapsed c).
    by rewrite Hb, xorb_false_r.
  - cbn [pathname collapsed]. split; [done|]. rewrite render_lookup, bool_decide_true, Hb by done. by rewrite xorb_false_r.
  - split; [done|]. rewrite toggle_lookup, Hb. destruct (bool_decide (j = i)); cbn; [by destruct b|by rewrite xorb_false_r].
Qed.

(** A cluster stays as it was put: as long as its section is on the page, and
    whatever else is rendered, opened or searched for meanwhile, it is collapsed
    or expanded exactly as the presses of its own button leave it. *)
Theorem cluster_stays_put `{CaseMapping} i c b es
    (Hpath : pathname c = js "/") (Hb : collapsed c !! i = Some b) (Hes : Forall (keeps_section i) es) :
  collapsed (frame_run c es) !! i = Some (xorb b (Nat.odd (presses i es))).
Proof.
  revert c b Hpath Hb. induction Hes as [|e es He _ IH]; intros c b Hpath Hb; [by rewrite xorb_false_r|].
  destruct (keeps_step i c e b Hpath Hb He) as [Hpath' Hb']. change (frame_run c (e :: es)) with (frame_run (frame_step c e) es).
  rewrite (IH _ _ Hpath' Hb'). rewrite xorb_assoc. do 2 f_equal. rewrite <- Nat.odd_add. f_equal.
  unfold presses. change (e :: es) with ([e] ++ es). by rewrite js_filter_app, length_app.
Qed.

#[local] Existing Instance basic_latin.

(** A cluster on the dashboard, and the dashboard without it: the view of the
    sandboxes, and a search that does not find it. *)
Definition cluster_input (params : url_params) : dashboard_input := page_input (at_address example_queries params).
Definition shown_input : dashboard_input := cluster_input [(js "view", js "cluster")].
Definition searched_input : dashboard_input := cluster_input [(js "view", js "cluster"); (js "q", js "other")].

Definition folded_console : console_state :=
  frame_run (initial_console (js "/")) [RenderDashboard shown_input; ToggleCluster (js "cluster-a")].

Lemma cluster_stays_put_witness :
  collapsed (frame_run folded_console [GoTo (js "/"); RenderDashboard shown_input; ToggleCluster (js "cluster-a"); RenderDashboard shown_input])
    !! js "cluster-a" = Some false.
Proof.
  refine (cluster_stays_put (js "cluster-a") folded_console true _ _ _ _).
  - done.
  - by vm_compute.
  - repeat constructor; cbn [keeps_section]; first [reflexivity|decide_closed].
Defined.

(** A cluster folded away opens again when it leaves the page: after a search
    that does not find it, the other view, an error or a visit to another page,
    the render that shows it again shows it expanded. *)
Theorem hidden_cluster_reopens `{CaseMapping} i c e p
    (Hpath : pathname c = js "/")
    (Hhides : match e with RenderDashboard p => i ∉ sections_of_body (body p) | GoTo to => to ≠ js "/" | _ => False end)
    (Hshows : i ∈ sections_of_body (body p)) :
  collapsed (frame_run c [e; GoTo (js "/"); RenderDashboard p]) !! i = Some false.
Proof.
  assert (isDashboard (js "/") = true) as Hdash by reflexivity.
  enough (collapsed (frame_step c e) !! i = None) as Hnone.
  { cbn [frame_run foldl]. remember (frame_step c e) as c1 eqn:Hc1. clear Hc1. cbn [frame_step pathname collapsed].
    rewrite Hdash. cbn [pathname collapsed]. rewrite render_lookup, bool_decide_true by done. unfold leave_to. rewrite Hdash.
    by rewrite Hnone. }
  destruct e as [| |n|to|p'|j]; try done; cbn [frame_step collapsed].
  - unfold leave_to, isDashboard. by rewrite bool_decide_false.
  - rewrite Hpath, Hdash. cbn [collapsed]. by rewrite render_lookup, bool_decide_false.
Qed.

Lemma hidden_cluster_reopens_witness :
  collapsed folded_console !! js "cluster-a" = Some true ∧
  collapsed (frame_run folded_console [RenderDashboard searched_input; GoTo (js "/"); RenderDashboard shown_input]) !! js "cluster-a" = Some false.
Proof.
  split; [by vm_compute|]. refine (hidden_cluster_reopens (js "cluster-a") folded_console (RenderDashboard searched_input) shown_input _ _ _).
  - done.
  - decide_closed.
  - decide_closed.
Defined.
