(* ===== verification/ChartPage.v ===== *)
(** The chart panes and the page of the resource charts
    ([web/src/pages/sandbox/observability/ResourcesView.tsx],
    [DaemonCharts.tsx]): what is drawn and said, and the life of the plots,
    which belong to the plotting library and are made, given data, resized and
    destroyed by the effects of a pane. *)
From S2P Require Import Prelude JsNumber JsText NumText Types Observability Resources DaemonMetrics Format Uri FilesTab Charts LayerStackPage.

(** ** The plot of a pane *)

Section pane.
Context {D : Type}.

(** What a render computes: the memoised columns, with the number of the
    render that made them, and whether there is something to draw. *)
Record pane_render := { columns_of : nat; columns : D; draws : bool }.

Record plot := { plotted : D; plot_width : Z; plot_height : Z }.

(** The plots of the library that were made and not destroyed, by number; the
    one the pane refers to; those whose host is observed; and the render of the
    last commit ([None]: not mounted). *)
Record pane := {
  plots : gmap nat plot;
  plotRef : option nat;
  observed : gset nat;
  made : nat;
  committed : option pane_render;
}.

Definition initial_pane : pane := {| plots := ∅; plotRef := None; observed := ∅; made := 0; committed := None |}.

(** The height of a plot, the width it is made with, and whether the browser
    has a [ResizeObserver]. *)
Context (height : Z) (first_width : Z → Z) (has_observer : bool).

Definition destroy_plot (p : pane) : pane :=
  match plotRef p with
  | None => p
  | Some i => {| plots := delete i (plots p); plotRef := None; observed := observed p ∖ {[ i ]}; made := made p; committed := committed p |}
  end.

Definition make_plot (clientWidth : Z) (r : pane_render) (p : pane) : pane :=
  if draws r
  then {| plots := <[made p := {| plotted := columns r; plot_width := first_width clientWidth; plot_height := height |}]> (plots p);
          plotRef := Some (made p); observed := if has_observer then {[ made p ]} ∪ observed p else observed p;
          made := S (made p); committed := committed p |}
  else p.

Definition update_plot (i : nat) (f : plot → plot) (p : pane) : pane :=
  {| plots := alter f i (plots p); plotRef := plotRef p; observed := observed p; made := made p; committed := committed p |}.

Definition set_data (d : D) (q : plot) : plot := {| plotted := d; plot_width := plot_width q; plot_height := plot_height q |}.

(** [plotRef.current?.setData(data)]. *)
Definition give_data (r : pane_render) (p : pane) : pane :=
  if draws r then match plotRef p with Some i => update_plot i (set_data (columns r)) p | None => p end else p.

(** The effects of a commit, each when what it depends on changed. *)
Definition pane_commit (clientWidth : Z) (r : pane_render) (p : pane) : pane :=
  let draws_changed := match committed p with Some q => negb (Bool.eqb (draws q) (draws r)) | None => true end in
  let data_changed := match committed p with Some q => negb (columns_of q =? columns_of r)%nat | None => true end in
  let p := if draws_changed then make_plot clientWidth r (destroy_plot p) else p in
  let p := if draws_changed || data_changed then give_data r p else p in
  {| plots := plots p; plotRef := plotRef p; observed := observed p; made := made p; committed := Some r |}.

Definition pane_leaves (p : pane) : pane :=
  let p := destroy_plot p in
  {| plots := plots p; plotRef := plotRef p; observed := observed p; made := made p; committed := None |}.

(** The observer tells of a host that changed its width. *)
Definition pane_resized (i : nat) (clientWidth : Z) (p : pane) : pane :=
  if bool_decide (i ∈ observed p)
  then update_plot i (λ q, {| plotted := plotted q; plot_width := Z.max clientWidth 1; plot_height := height |}) p
  else p.

Inductive pane_event := Commit (clientWidth : Z) (r : pane_render) | Leave | ResizeTo (i : nat) (clientWidth : Z).

Definition pane_step (p : pane) (e : pane_event) : pane :=
  match e with
  | Commit w r => pane_commit w r p
  | Leave => pane_leaves p
  | ResizeTo i w => pane_resized i w p
  end.

Definition pane_run (es : list pane_event) : pane := foldl pane_step initial_pane es.
End pane.
Arguments pane D : clear implicits.
Arguments pane_render D : clear implicits.
Arguments pane_event D : clear implicits.
Arguments plot D : clear implicits.

(** ** The page of the resource charts *)

(** [ResourceSeriesResult]: the answer of either route. *)
Record resource_answer := {
  answer_series : list ResourceSample;
  from_daemon_disk : bool;
  answer_availability : option ResourceAvailability;
  answer_errors : list jsstr;
}.

Definition of_cgroup (c : CgroupSeries) : resource_answer :=
  {| answer_series := cgroup_series c; from_daemon_disk := false; answer_availability := None; answer_errors := [] |}.

Definition of_resources (r : SandboxResourcesResult) : resource_answer :=
  {| answer_series := resources_series r; from_daemon_disk := true; answer_availability := Some (resources_availability r);
     answer_errors := resources_errors r |}.

Record pane_shown := {
  pane_title : jsstr;
  pane_plot : option (list number * list number);
  pane_empty : option jsstr;
  pane_figures : list (jsstr * jsstr);
}.

Inductive resource_alert := ResourcesUnavailable (m : jsstr) | CgroupUnavailable (reason : jsstr) | PartlyAvailable (errors : jsstr).

Record resources_shown := {
  scope_select : jsstr * list (jsstr * jsstr);
  window_select : jsstr * list (jsstr * jsstr);
  refresh_note : jsstr;
  resource_alerts : list resource_alert;
  resource_panes : list pane_shown;
}.

Section page.
Context (toLocaleString : nat → number → jsstr).

(** What a metric reads as in a text: [String(x)]. *)
Definition metric_text (v : metric_value) : jsstr :=
  match v with
  | MNumber n => num_to_js n
  | MBool b => js (if b then "true" else "false")
  | MString s => s
  end.

Definition ChartPane (title : jsstr) (value : ResourceSample → option number) (samples : list ResourceSample) : pane_shown :=
  let data := chart_data value samples in
  {| pane_title := title;
     pane_plot := if chart_hasData data then Some data else None;
     pane_empty := if chart_hasData data then None else Some (js "no samples in this window");
     pane_figures := match summary value samples with
                     | Some s => [(js "Latest", toLocaleString 2 (summary_latest s)); (js "Minimum", toLocaleString 2 (summary_min s));
                                  (js "Maximum", toLocaleString 2 (summary_max s))]
                     | None => []
                     end |}.

Definition samples_of (q : poll_result resource_answer) : list ResourceSample := answer_series <$> poll_data q ?? [].

Definition scope_options_of (snapshot : option SnapshotResult) : list (jsstr * jsstr) :=
  (SANDBOX_SCOPE, js "sandbox") ::
  ((λ w, (snapshot_workspace_id w, js "workspace " ++ [183; 32] ++ snapshot_workspace_id w)) <$> files_workspaces snapshot).

Definition cgroup_reason (samples : list ResourceSample) : jsstr :=
  match last samples with
  | Some s => match metrics s !! js "cgroup_error" with Some v => metric_text v | None => [] end
  | None => []
  end.

Definition ResourcesView (params : url_params) (snapshot : option SnapshotResult) (q : poll_result resource_answer) : resources_shown :=
  let scope := resource_scope params in
  let samples := samples_of q in
  {| scope_select := (scope, scope_options_of snapshot);
     window_select := (num_to_js (windowMs params), (λ w, (Z_to_js w.2, js w.1)) <$> WINDOWS);
     refresh_note := js "auto-refresh " ++ [183; 32] ++ Z_to_js (Z.of_nat (length samples)) ++ js " samples" ++
                     (if from_daemon_disk <$> poll_data q ?? false then [32; 183; 32] ++ js "daemon disk" else []);
     resource_alerts :=
       match poll_failure q, poll_data q with Some m, None => [ResourcesUnavailable m] | _, _ => [] end ++
       (if cgroup_unavailable scope samples then [CgroupUnavailable (cgroup_reason samples)] else []) ++
       match poll_data q with
       | Some a => match answer_availability a with
                   | Some resources_partial => if bool_decide (scope = SANDBOX_SCOPE) then [PartlyAvailable (join (js "; ") (answer_errors a))] else []
                   | _ => []
                   end
       | None => []
       end;
     resource_panes := (λ c, ChartPane c.1 c.2 samples) <$> RESOURCE_CHARTS |}.

(** What a pane is given by a render of the page: the columns are those of the
    answer it holds. *)
Definition pane_of (value : ResourceSample → option number) (answer_number : nat) (q : poll_result resource_answer)
    : pane_render (list number * list number) :=
  let data := chart_data value (samples_of q) in
  {| columns_of := answer_number; columns := data; draws := chart_hasData data |}.
End page.

(** ** Facts *)

Section facts.
Context {D : Type} (height : Z) (first_width : Z → Z) (has_observer : bool).
Let step : pane D → pane_event D → pane D := pane_step height first_width has_observer.
Let run : list (pane_event D) → pane D := pane_run height first_width has_observer.

Definition watched (i : nat) : gset nat := if has_observer then {[ i ]} else ∅.

(** The plot of the pane, and no other, shows [d]. *)
Definition draws_only (d : D) (p : pane D) : Prop :=
  ∃ i q, plotRef p = Some i ∧ plots p = {[ i := q ]} ∧ plotted q = d ∧ plot_height q = height ∧ observed p = watched i.

Definition draws_nothing (p : pane D) : Prop := plotRef p = None ∧ plots p = ∅ ∧ observed p = ∅.

Definition pane_ok (p : pane D) : Prop :=
  match committed p with
  | Some r => if draws r then draws_only (columns r) p else draws_nothing p
  | None => draws_nothing p
  end.

Lemma destroy_clears p : pane_ok p → draws_nothing (destroy_plot p) ∧ committed (destroy_plot p) = committed p.
Proof.
  intros Hp. unfold destroy_plot. assert (draws_nothing p ∨ ∃ d, draws_only d p) as [(Hr & ? & ?)|(d & i & q & Hr & Hs & _ & _ & Ho)].
  { unfold pane_ok in Hp. destruct (committed p) as [r|]; [destruct (draws r)|]; eauto. }
  - by rewrite Hr.
  - rewrite Hr. split; [|done]. split; [done|]. cbn [plots observed]. rewrite Hs, Ho. split; [apply delete_singleton_eq|].
    unfold watched. destruct has_observer; set_solver.
Qed.

Lemma make_draws w r p : draws_nothing p → draws r = true → draws_only (columns r) (make_plot height first_width has_observer w r p).
Proof.
  intros (Hr & Hs & Ho) Hd. unfold make_plot. rewrite Hd. eexists (made p), _. cbn [plotRef plots observed]. split_and!; [done|by rewrite Hs| | |].
  - done.
  - done.
  - rewrite Ho. unfold watched. destruct has_observer; set_solver.
Qed.

Lemma give_draws r p d : draws r = true → draws_only d p → draws_only (columns r) (give_data r p).
Proof.
  intros Hd (i & q & Hr & Hs & _ & Hh & Ho). unfold give_data. rewrite Hd, Hr. exists i, (set_data (columns r) q).
  unfold update_plot. cbn [plotRef plots observed]. split_and!; [done| |done|done|done]. rewrite Hs. apply alter_singleton_eq.
Qed.

Lemma give_nothing r p : draws r = false → draws_nothing p → draws_nothing (give_data r p).
Proof. intros Hd Hp. unfold give_data. by rewrite Hd. Qed.

Definition draws_what (r : pane_render D) (p : pane D) : Prop := if draws r then draws_only (columns r) p else draws_nothing p.

Lemma remake_ok w r p : pane_ok p → draws_what r (make_plot height first_width has_observer w r (destroy_plot p)).
Proof.
  intros [Hd _]%destroy_clears. unfold draws_what. destruct (draws r) eqn:Hr; [by apply make_draws|]. unfold make_plot. by rewrite Hr.
Qed.

Lemma give_ok r p d : (if draws r then draws_only d p else draws_nothing p) → draws_what r (give_data r p).
Proof. unfold draws_what. intros Hp. destruct (draws r) eqn:Hr; [by apply (give_draws r p d)|by apply give_nothing]. Qed.

Lemma pane_commit_ok w r p :
  pane_ok p → (∀ q, committed p = Some q → columns_of q = columns_of r → columns q = columns r) →
  pane_ok (pane_commit height first_width has_observer w r p).
Proof.
  intros Hp Hmemo. pose proof (remake_ok w r p Hp) as Hmake. pose proof (give_ok r _ (columns r) Hmake) as Hgiven.
  unfold pane_commit. destruct (committed p) as [q|] eqn:Hc; [|exact Hgiven].
  destruct (Bool.eqb (draws q) (draws r)) eqn:Hdraws; cbn [negb orb]; [|exact Hgiven]. apply eqb_prop in Hdraws.
  unfold pane_ok in Hp. rewrite Hc, Hdraws in Hp. destruct (Nat.eqb_spec (columns_of q) (columns_of r)) as [Heq|Hne]; cbn [negb].
  - rewrite (Hmemo q eq_refl Heq) in Hp. exact Hp.
  - exact (give_ok r p (columns q) Hp).
Qed.

Lemma pane_leaves_ok p : pane_ok p → pane_ok (pane_leaves p).
Proof. by intros [Hd _]%destroy_clears. Qed.

Lemma pane_resized_ok i w p : pane_ok p → pane_ok (pane_resized height i w p) ∧ committed (pane_resized height i w p) = committed p.
Proof.
  unfold pane_resized. destruct (bool_decide_reflect (i ∈ observed p)) as [Hi|]; [|done]. intros Hp. split; [|done].
  unfold pane_ok in Hp |- *. cbn [update_plot committed]. assert (¬ draws_nothing p) as Hsome.
  { intros (_ & _ & Ho). rewrite Ho in Hi. by apply not_elem_of_empty in Hi. }
  destruct (committed p) as [r|]; [destruct (draws r)|]; [|done..].
  destruct Hp as (j & q & Hr & Hs & Hq & Hh & Ho). assert (i = j) as ->; [rewrite Ho in Hi; unfold watched in Hi; destruct has_observer; set_solver|].
  exists j, {| plotted := plotted q; plot_width := Z.max w 1; plot_height := height |}.
  unfold update_plot. cbn [plotRef plots observed]. split_and!; [done| |done|done|done]. rewrite Hs. by rewrite alter_singleton_eq.
Qed.

(** The columns are memoised: renders with the same columns have equal ones. *)
Definition memoised (es : list (pane_event D)) : Prop :=
  ∀ w r w' r', Commit w r ∈ es → Commit w' r' ∈ es → columns_of r = columns_of r' → columns r = columns r'.

Lemma pane_run_ok es : memoised es → pane_ok (run es) ∧ (∀ r, committed (run es) = Some r → ∃ w, Commit w r ∈ es).
Proof.
  induction es as [|e es IH] using rev_ind; intros Hmemo; [by split|].
  destruct IH as [Hok Hin]; [intros w r w' r' H1 H2; apply (Hmemo w r w' r'); apply elem_of_app; by left|].
  assert (run (es ++ [e]) = step (run es) e) as -> by apply foldl_snoc. destruct e as [w r| |i w].
  - split.
    + apply pane_commit_ok; [done|]. intros q Hq. destruct (Hin q Hq) as [w' Hw']. apply (Hmemo w' q w r); apply elem_of_app; [by left|].
      right. by left.
    + intros r' Hr'. assert (r' = r) as -> by (by injection Hr'). exists w. apply elem_of_app. right. by left.
  - split; [by apply pane_leaves_ok|done].
  - destruct (pane_resized_ok i w (run es) Hok) as [Hok' Hc]. split; [done|]. intros r Hr.
    change (committed (pane_resized height i w (run es)) = Some r) in Hr. rewrite Hc in Hr. destruct (Hin r Hr) as [w' Hw'].
    exists w'. apply elem_of_app. by left.
Qed.
End facts.

Lemma resource_alerts_in toLocaleString params snapshot q a :
  a ∈ resource_alerts (ResourcesView toLocaleString params snapshot q) ↔
  (∃ m, poll_failure q = Some m ∧ poll_data q = None ∧ a = ResourcesUnavailable m) ∨
  (cgroup_unavailable (resource_scope params) (samples_of q) = true ∧ a = CgroupUnavailable (cgroup_reason (samples_of q))) ∨
  (∃ d, poll_data q = Some d ∧ answer_availability d = Some resources_partial ∧ resource_scope params = SANDBOX_SCOPE ∧
     a = PartlyAvailable (join (js "; ") (answer_errors d))).
Proof.
  cbn [ResourcesView resource_alerts]. rewrite !elem_of_app. f_equiv; [|f_equiv].
  - destruct (poll_failure q) as [m|], (poll_data q); rewrite ?list_elem_of_singleton, ?elem_of_nil; naive_solver.
  - destruct (cgroup_unavailable _ _); rewrite ?list_elem_of_singleton, ?elem_of_nil; naive_solver.
  - destruct (poll_data q) as [d|]; [|rewrite elem_of_nil; naive_solver].
    destruct (answer_availability d) as [[]|] eqn:Ha; [rewrite elem_of_nil; naive_solver congruence| |rewrite elem_of_nil; naive_solver congruence].
    destruct (bool_decide_reflect (resource_scope params = SANDBOX_SCOPE)); rewrite ?list_elem_of_singleton, ?elem_of_nil; naive_solver.
Qed.

(** ** Theorems *)

(** C38: No plot leaks, and none is stale. Whatever renders a pane commits, with
    data or too little of it, however its host is resized, and whether it is
    left and entered again: while the last render draws there is exactly one
    plot, of its columns, at its height, the one the pane refers to and the only
    one whose host is watched; otherwise, and when the pane is left, the library
    holds no plot of it and nothing is watched. *)
Theorem plot_in_step {D} (height : Z) (first_width : Z → Z) (has_observer : bool) (es : list (pane_event D)) (Hmemo : memoised es) :
  let p := pane_run height first_width has_observer es in
  match committed p with
  | Some r => if draws r
              then ∃ i q, plotRef p = Some i ∧ plots p = {[ i := q ]} ∧ plotted q = columns r ∧ plot_height q = height ∧
                     observed p = (if has_observer then {[ i ]} else ∅)
              else plots p = ∅ ∧ observed p = ∅
  | None => plots p = ∅ ∧ observed p = ∅
  end.
Proof.
  destruct (pane_run_ok height first_width has_observer es Hmemo) as [Hok _]. cbv zeta. unfold pane_ok in Hok.
  destruct (committed _) as [r|]; [destruct (draws r); [exact Hok|]|]; by destruct Hok as (_ & ? & ?).
Qed.

(** What the resource page says of its answer. Each chart that is drawn plots
    the samples of the answer held; a failure is told only as long as there is
    none: once an answer is held, a page whose refreshes fail looks like one
    whose refreshes succeed, and goes on saying that it refreshes; a partial
    store is told of the sandbox's own charts only, and a missing cgroup only
    of a workspace's. *)
Theorem resources_page_says toLocaleString params snapshot q :
  let page := ResourcesView toLocaleString params snapshot q in
  (poll_data q = None → poll_failure q = None → resource_alerts page = []) ∧
  (∀ m, poll_data q = None → poll_failure q = Some m → resource_alerts page = [ResourcesUnavailable m]) ∧
  (∀ a m fetching, poll_data q = Some a →
     ResourcesView toLocaleString params snapshot {| poll_data := Some a; poll_failure := m; poll_fetching := fetching |} = page) ∧
  (∀ e, PartlyAvailable e ∈ resource_alerts page → resource_scope params = SANDBOX_SCOPE) ∧
  (∀ e, CgroupUnavailable e ∈ resource_alerts page → resource_scope params ≠ SANDBOX_SCOPE ∧
     ∀ s, s ∈ samples_of q → metrics s !! js "cgroup_available" = Some (MBool false)) ∧
  (∀ s d, s ∈ resource_panes page → pane_plot s = Some d →
     ∃ value, (pane_title s, value) ∈ RESOURCE_CHARTS ∧ d = chart_data value (samples_of q) ∧ pane_empty s = None).
Proof.
  cbv zeta. split_and!.
  - intros Hd Hf. cbn [ResourcesView resource_alerts]. unfold cgroup_unavailable, samples_of. rewrite Hd, Hf. cbn. by rewrite andb_false_r.
  - intros m Hd Hf. cbn [ResourcesView resource_alerts]. unfold cgroup_unavailable, samples_of. rewrite Hd, Hf. cbn. by rewrite andb_false_r.
  - intros a m fetching Hd. unfold ResourcesView, samples_of. cbn [poll_data poll_failure]. rewrite Hd. by destruct m, (poll_failure q).
  - intros e He. by apply resource_alerts_in in He as [(m & _ & _ & ?)|[[_ ?]|(d & _ & _ & ? & _)]].
  - intros e He. apply resource_alerts_in in He as [(m & _ & _ & ?)|[[Hun _]|(d & _ & _ & _ & ?)]]; [done| |done].
    unfold cgroup_unavailable in Hun. apply andb_true_iff in Hun as [[Hscope _]%andb_true_iff Hall].
    apply negb_true_iff, bool_decide_eq_false in Hscope. split; [done|]. intros s Hs.
    pose proof (proj1 (js_every_forall _ _) Hall s Hs) as Hc. cbv beta in Hc.
    by destruct (metrics s !! js "cgroup_available") as [[|[]|]|].
  - intros s d (c & -> & Hc)%list_elem_of_fmap. cbn [ChartPane pane_plot pane_title pane_empty].
    destruct (chart_hasData _); [|done]. intros [= <-]. exists c.2. split_and!; [|done..]. by destruct c.
Qed.

(** A pane that is drawn, given new data, left without enough, and drawn again. *)
Definition example_render (n : nat) (ys : list number) : pane_render (list number) :=
  {| columns_of := n; columns := ys; draws := (1 <? length ys)%nat |}.

Definition example_pane_events : list (pane_event (list number)) :=
  [Commit 0 (example_render 0 [num_zero]); Commit 300 (example_render 1 [num_zero; num_of_Z 1]); ResizeTo 0 0;
   Commit 300 (example_render 2 [num_zero; num_of_Z 2]); Commit 300 (example_render 3 []); Commit 300 (example_render 4 [num_zero; num_of_Z 3])].

Lemma plot_in_step_witness :
  plots (pane_run 140 (λ w, w) true example_pane_events) =
    {[ 1%nat := {| plotted := [num_zero; num_of_Z 3]; plot_width := 300; plot_height := 140 |} ]} ∧
  ∃ i, observed (pane_run 140 (λ w, w) true example_pane_events) = {[ i ]}.
Proof.
  split; [by vm_compute|]. assert (memoised example_pane_events) as Hmemo.
  { intros w r w' r' Hr Hr' Heq. unfold example_pane_events in Hr, Hr'. rewrite !elem_of_cons, elem_of_nil in Hr, Hr'.
    destruct_or?; simplify_eq; done. }
  destruct (plot_in_step 140 (λ w, w) true example_pane_events Hmemo) as (i & q & _ & _ & _ & _ & Ho). by exists i.
Defined.

Lemma resources_page_says_witness :
  resource_alerts (ResourcesView (λ _, num_to_js) [] None {| poll_data := None; poll_failure := Some (js "late"); poll_fetching := false |})
    = [ResourcesUnavailable (js "late")].
Proof. refine (proj1 (proj2 (resources_page_says (λ _, num_to_js) [] None _)) (js "late") _ _); reflexivity. Defined.
