(* ===== verification/DetailPage.v ===== *)
(** The page of a sandbox ([web/src/pages/sandbox/SandboxDetail.tsx]): its poll
    over a change of sandbox, its header, notice and tabs, those of the
    observability pages below it ([observability/ObservabilityTab.tsx]), and the
    dialog that dissolves a cluster
    ([web/src/components/RemoveClusterAction.tsx]). *)
From S2P Require Import Prelude JsText Uri Types Observability Rpc SessionActions Actions Shell ObservabilityTab Preview PreviewPage SandboxClusters DashboardView ConsolePage.

(** ** The record of the sandbox *)

(** What the query library holds for the poll of a sandbox. *)
Record detail_query := { polled_record : option SandboxRecord; polled_error : option thrown }.

Definition not_inspected : detail_query := {| polled_record := None; polled_error := None |}.

(** [shown_before]: the data the poll last gave the page, which stands in while
    the sandbox's own is awaited; [toastShownRef] and the toasts. *)
Record detail_page := {
  sandbox_of : jsstr;
  records : gmap jsstr detail_query;
  shown_before : option SandboxRecord;
  toast : bool * toasts;
}.

Definition query_at (id : jsstr) (p : detail_page) : detail_query := records p !! id ?? not_inspected.

(** [record.data] and [record.error]; nothing is asked without an identifier. *)
Definition record_data (p : detail_page) : option SandboxRecord :=
  match query_at (sandbox_of p) p with
  | {| polled_record := Some r |} => Some r
  | {| polled_record := None; polled_error := Some _ |} => None
  | {| polled_record := None; polled_error := None |} => shown_before p
  end.

Definition record_error (p : detail_page) : option thrown := polled_error (query_at (sandbox_of p) p).

Definition record_enabled (p : detail_page) : bool := negb (bool_decide (sandbox_of p = [])).

(** A render with the data it shows, and the effect on failures. *)
Definition detail_commit (p : detail_page) : detail_page :=
  {| sandbox_of := sandbox_of p; records := records p;
     shown_before := match polled_record (query_at (sandbox_of p) p) with Some r => Some r | None => shown_before p end;
     toast := toast_effect (toast p) (record_error p) |}.

Inductive detail_event :=
  | OpenSandbox (id : jsstr)
  | InspectStarts (id : jsstr)
  | InspectAnswers (id : jsstr) (r : SandboxRecord)
  | InspectFails (id : jsstr) (e : thrown).

Definition set_query (id : jsstr) (q : detail_query) (p : detail_page) : detail_page :=
  {| sandbox_of := sandbox_of p; records := <[id := q]> (records p); shown_before := shown_before p; toast := toast p |}.

(** A failed query that has no data is pending again once it is asked. *)
Definition detail_update (e : detail_event) (p : detail_page) : detail_page :=
  match e with
  | OpenSandbox id => {| sandbox_of := id; records := records p; shown_before := shown_before p; toast := toast p |}
  | InspectStarts id => match polled_record (query_at id p) with Some _ => p | None => set_query id not_inspected p end
  | InspectAnswers id r => set_query id {| polled_record := Some r; polled_error := None |} p
  | InspectFails id err => set_query id {| polled_record := polled_record (query_at id p); polled_error := Some err |} p
  end.

Definition detail_step (p : detail_page) (e : detail_event) : detail_page := detail_commit (detail_update e p).
Definition detail_run (p : detail_page) (es : list detail_event) : detail_page := foldl detail_step p es.

Definition opened_sandbox (id : jsstr) : detail_page :=
  detail_commit {| sandbox_of := id; records := ∅; shown_before := None; toast := (false, initial_toasts) |}.

(** ** What is shown, and given to the tabs *)

Record detail_shown := {
  shown_name : jsstr;
  shown_header : sandbox_header;
  shown_notice : option (jsstr * jsstr);
  shown_tabs : list jsstr * jsstr;
}.

Definition base_path (enc : jsstr) : jsstr := js "/sandboxes/" ++ enc.

Definition SandboxDetail (enc pathname : jsstr) (snapshot : option SnapshotResult) (p : detail_page) : detail_shown :=
  {| shown_name := sandbox_of p;
     shown_header := SandboxHeader (record_data p) snapshot;
     shown_notice := sandbox_notice (record_data p);
     shown_tabs := (TABS, currentTab pathname (base_path enc)) |}.

Record sandbox_context := { context_id : jsstr; context_record : option SandboxRecord; context_error : option thrown }.

Definition context_of (p : detail_page) : sandbox_context :=
  {| context_id := sandbox_of p; context_record := record_data p; context_error := record_error p |}.

(** ** The tabs *)

Definition press_sandbox_tab (enc tab : jsstr) : option jsstr :=
  if bool_decide (tab ∈ TABS) then Some (base_path enc ++ js "/" ++ tab) else None.

(** Relative to the route of the observability pages. *)
Definition press_view (enc view : jsstr) : option jsstr :=
  if bool_decide (view = []) then None else Some (base_path enc ++ js "/observability/" ++ view).

(** ** Dissolving a cluster *)

Record remove_world := { removing : remove_dialog; removals : nat; notices : list jsstr; failures : nat }.

Definition initial_removal : remove_world :=
  {| removing := {| remove_open := false; remove_busy := false |}; removals := 0; notices := []; failures := 0 |}.

Inductive removal_event := PressRemove | CloseRemoval | ConfirmRemoval | RemovalEnds (succeeded : bool).

(** The buttons of the dialog are there while it is open, and the one that
    confirms is not offered while busy. *)
Definition removal_step (memberCount : nat) (w : remove_world) (e : removal_event) : remove_world :=
  match e with
  | PressRemove =>
      {| removing := {| remove_open := true; remove_busy := remove_busy (removing w) |}; removals := removals w; notices := notices w; failures := failures w |}
  | CloseRemoval =>
      {| removing := remove_close (removing w); removals := removals w; notices := notices w; failures := failures w |}
  | ConfirmRemoval =>
      if remove_open (removing w) && negb (remove_busy (removing w))
      then {| removing := {| remove_open := true; remove_busy := true |}; removals := S (removals w); notices := notices w; failures := failures w |}
      else w
  | RemovalEnds succeeded =>
      match removals w with
      | O => w
      | S n => {| removing := {| remove_open := if succeeded then false else remove_open (removing w); remove_busy := false |}; removals := n;
                  notices := if succeeded then notices w ++ [Z_to_js (Z.of_nat memberCount) ++ js " sandboxes are still running as individuals."]
                             else notices w;
                  failures := if succeeded then failures w else S (failures w) |}
      end
  end.

Definition removal_run (memberCount : nat) (es : list removal_event) : remove_world := foldl (removal_step memberCount) initial_removal es.

(** ** Facts *)

Lemma startsWith_head (b x y : jsstr) : startsWith (b ++ x) (b ++ y) = startsWith x y.
Proof.
  apply eq_true_iff_eq. rewrite !startsWith_spec. split; [apply prefix_app_head|apply prefix_app].
Qed.

Lemma same_head (b x y : jsstr) : bool_decide (b ++ x = b ++ y) = bool_decide (x = y).
Proof. apply bool_decide_ext. split; [apply app_inv_head|by intros ->]. Qed.

Lemma js_find_ext {A} (f g : A → bool) l : (∀ x, f x = g x) → js_find f l = js_find g l.
Proof. intros Hfg. unfold js_find. induction l as [|x l IH]; [done|]. cbn [List.find]. rewrite Hfg. by destruct (g x). Qed.

(** The tab of a page is told by what follows the sandbox. *)
Definition tab_below (rest : jsstr) : jsstr :=
  js_find (λ tab, bool_decide (rest = js "/" ++ tab) || startsWith (js "/" ++ tab ++ js "/") rest) TABS ?? js "terminal".

Lemma currentTab_below base rest : currentTab (base ++ rest) base = tab_below rest.
Proof. unfold currentTab, tab_below. f_equal. apply js_find_ext. intros tab. by rewrite same_head, startsWith_head. Qed.

(** Where a press lands, when it goes to the item [l] of the navigation. *)
Lemma press_lands `{Router} enc l to tab :
  47 ∉ enc ∧ enc ≠ [] → l ∈ LANDINGS → to = sandbox_path enc (landing_parts l) →
  tab_below ((js <$> landing_path l) ≫= (47 ::.)) = tab →
  ∃ land, follow_redirect to (element_at to) = Some land ∧ element_at land = Page (landing_page l) ∧ currentTab land (base_path enc) = tab ∧
    land = sandbox_path enc (landing_path l).
Proof.
  intros Henc Hl -> Htab. destruct (landing_reached enc l Henc Hl) as (Hfollow & Hat & _). eexists. split_and!; [exact Hfollow|exact Hat| |done].
  rewrite sandbox_path_base. change (js "/sandboxes/" ++ enc ++ ?x) with (base_path enc ++ x). by rewrite currentTab_below.
Qed.

(** The dialog as its calls stand. *)
Record removal_ok (w : remove_world) : Prop := {
  rm_busy : removals w = if remove_busy (removing w) then 1%nat else 0%nat;
  rm_open : remove_busy (removing w) = true → remove_open (removing w) = true;
}.

Lemma removal_step_ok n w e : removal_ok w → removal_ok (removal_step n w e).
Proof.
  destruct w as [[opened busy] n' told failed]. intros [Hb Ho]. cbn in Hb, Ho. subst n'.
  destruct e as [| | |[]], opened, busy; constructor; cbn; auto.
Qed.

Lemma removal_run_ok n es : removal_ok (removal_run n es).
Proof. unfold removal_run. induction es as [|e es IH] using rev_ind; [by constructor|]. rewrite foldl_snoc. by apply removal_step_ok. Qed.

(** A sandbox that waits for its record keeps waiting whatever others bring. *)
Definition quiet_for (id : jsstr) (e : detail_event) : Prop :=
  match e with InspectAnswers x _ | InspectFails x _ => x ≠ id | OpenSandbox _ => False | InspectStarts _ => True end.

Lemma query_at_set x q p id : query_at id (set_query x q p) = if bool_decide (x = id) then q else query_at id p.
Proof.
  unfold query_at, set_query. cbn [records]. destruct (bool_decide_reflect (x = id)) as [->|Hne]; [by rewrite lookup_insert_eq|by rewrite lookup_insert_ne].
Qed.

Lemma waiting_step id r e p :
  quiet_for id e → sandbox_of p = id ∧ query_at id p = not_inspected ∧ shown_before p = Some r →
  sandbox_of (detail_step p e) = id ∧ query_at id (detail_step p e) = not_inspected ∧ shown_before (detail_step p e) = Some r.
Proof.
  intros He (Hof & Hq & Hb). assert (sandbox_of (detail_update e p) = id ∧ query_at id (detail_update e p) = not_inspected ∧
    shown_before (detail_update e p) = Some r) as (Hof' & Hq' & Hb').
  { destruct e as [x|x|x a|x a]; cbn [quiet_for] in He; cbn [detail_update]; [done| | |].
    - destruct (polled_record (query_at x p)); [done|]. rewrite query_at_set. split_and!; [done| |done]. by destruct (bool_decide _).
    - rewrite query_at_set, bool_decide_false by done. done.
    - rewrite query_at_set, bool_decide_false by done. done. }
  unfold detail_step, detail_commit. cbn [sandbox_of shown_before]. split_and!; [done|exact Hq'|]. by rewrite Hof', Hq'.
Qed.

(** ** Theorems *)

(** The tabs lead where they say. Pressing a tab of a sandbox, whatever
    characters its identifier has, shows a page of that sandbox, past at most
    one redirect, with that tab as the current one; and so does pressing a view
    of the observability pages, which is then the current view, unless the
    identifier is that of a view. *)
Theorem sandbox_tabs_reach `{Router} id enc (Hid : Forall (λ u, 0 ≤ u < 65536) id) (Hne : id ≠ []) (Henc : encodeURIComponent id = Some enc) :
  (∀ tab, tab ∈ TABS → ∃ to land p, press_sandbox_tab enc tab = Some to ∧ follow_redirect to (element_at to) = Some land ∧
     element_at land = Page p ∧ currentTab land (base_path enc) = tab) ∧
  (∀ view, view ∈ view_names → enc ∉ view_names → ∃ to p, press_view enc view = Some to ∧ follow_redirect to (element_at to) = Some to ∧
     element_at to = Page p ∧ currentTab to (base_path enc) = js "observability" ∧ currentView to = view).
Proof.
  pose proof (encoded_part id enc Hid Hne Henc) as Hpart. split.
  - assert (∀ l tab, l ∈ LANDINGS → press_sandbox_tab enc tab = Some (sandbox_path enc (landing_parts l)) →
      tab_below ((js <$> landing_path l) ≫= (47 ::.)) = tab → ∃ to land p, press_sandbox_tab enc tab = Some to ∧
        follow_redirect to (element_at to) = Some land ∧ element_at land = Page p ∧ currentTab land (base_path enc) = tab) as Hgo.
    { intros l tab Hl Hpress Htab. destruct (press_lands enc l _ tab Hpart Hl eq_refl Htab) as (land & ? & ? & ? & _). by eexists _, land, _. }
    intros tab Htab. unfold TABS in Htab. cbn [map] in Htab. rewrite !elem_of_cons, elem_of_nil in Htab.
    destruct Htab as [->|[->|[->|[->|[]]]]]; [eapply (Hgo _ _ (list_elem_of_lookup_2 LANDINGS 0 _ eq_refl))|eapply (Hgo _ _ (list_elem_of_lookup_2 LANDINGS 1 _ eq_refl))
      |eapply (Hgo _ _ (list_elem_of_lookup_2 LANDINGS 2 _ eq_refl))|eapply (Hgo _ _ (list_elem_of_lookup_2 LANDINGS 9 _ eq_refl))];
      first [reflexivity|by vm_compute].
  - assert (∀ l view, l ∈ LANDINGS → landing_redirect l = None → press_view enc view = Some (sandbox_path enc (landing_parts l)) →
      tab_below ((js <$> landing_path l) ≫= (47 ::.)) = js "observability" → sandbox_path enc (landing_parts l) = observability_path enc view [] →
      view ∈ view_names → enc ∉ view_names →
      ∃ to p, press_view enc view = Some to ∧ follow_redirect to (element_at to) = Some to ∧
        element_at to = Page p ∧ currentTab to (base_path enc) = js "observability" ∧ currentView to = view) as Hgo.
    { intros l view Hl Hred Hpress Htab Hpath Hview Hnot.
      destruct (press_lands enc l _ _ Hpart Hl eq_refl Htab) as (land & Hfollow & Hat & Hcur & Hland).
      unfold landing_path in Hland. rewrite Hred in Hland. cbn [option_list] in Hland. rewrite app_nil_r in Hland. subst land.
      eexists _, _. split_and!; [exact Hpress|exact Hfollow|exact Hat|exact Hcur|]. rewrite Hpath. apply tab_of_page; [|done|].
      - constructor; [by apply Hpart|constructor].
      - by constructor. }
    intros view Hview Hnot. pose proof Hview as Hcases. unfold view_names, VIEWS in Hcases. cbn [fmap list_fmap fst] in Hcases.
    rewrite !elem_of_cons, elem_of_nil in Hcases.
    destruct Hcases as [->|[->|[->|[->|[->|[->|[]]]]]]];
      [eapply (Hgo _ _ (list_elem_of_lookup_2 LANDINGS 3 _ eq_refl))|eapply (Hgo _ _ (list_elem_of_lookup_2 LANDINGS 4 _ eq_refl))
      |eapply (Hgo _ _ (list_elem_of_lookup_2 LANDINGS 5 _ eq_refl))|eapply (Hgo _ _ (list_elem_of_lookup_2 LANDINGS 6 _ eq_refl))
      |eapply (Hgo _ _ (list_elem_of_lookup_2 LANDINGS 7 _ eq_refl))|eapply (Hgo _ _ (list_elem_of_lookup_2 LANDINGS 8 _ eq_refl))];
      first [exact Hview|exact Hnot|reflexivity|by vm_compute].
Qed.

Lemma sandbox_tabs_reach_witness :
  ∃ to p, press_view (js "a%2Fb") (js "traces") = Some to ∧ @follow_redirect to (@element_at first_route to) = Some to ∧
    @element_at first_route to = Page p ∧ currentTab to (base_path (js "a%2Fb")) = js "observability" ∧ currentView to = js "traces".
Proof.
  refine (proj2 (@sandbox_tabs_reach first_route (js "a/b") (js "a%2Fb") _ _ _) (js "traces") _ _).
  - decide_closed.
  - done.
  - by vm_compute.
  - decide_closed.
  - decide_closed.
Defined.

(** The page of a sandbox begins with the record of the one before. From a
    page that has the record of its sandbox, opening another one that was not
    inspected yet shows, under the new name, the header and the notice of the
    other, and gives the tabs the other's record; so it stays, whatever other
    sandboxes' polls bring, until its own is answered or fails; when it fails
    the record is gone. *)
Theorem record_of_other_sandbox p id r es e snapshot enc pathname
    (Hr : polled_record (query_at (sandbox_of p) p) = Some r) (Hnew : records p !! id = None)
    (Hes : Forall (quiet_for id) es) :
  let q := detail_run (detail_commit p) (OpenSandbox id :: es) in
  let page := SandboxDetail enc pathname snapshot q in
  shown_name page = id ∧ shown_header page = SandboxHeader (Some r) snapshot ∧ shown_notice page = sandbox_notice (Some r) ∧
  context_of q = {| context_id := id; context_record := Some r; context_error := None |} ∧
  context_record (context_of (detail_step q (InspectFails id e))) = None.
Proof.
  intros q page. enough (sandbox_of q = id ∧ query_at id q = not_inspected ∧ shown_before q = Some r) as (Hof & Hq & Hbefore).
  { unfold page, SandboxDetail, context_of, record_data, record_error. cbn [shown_name shown_header shown_notice].
    rewrite Hof, Hq. cbn [polled_error not_inspected]. rewrite Hbefore. split_and!; try done.
    unfold detail_step. cbn [context_record detail_commit detail_update set_query sandbox_of records]. rewrite Hof, Hq.
    unfold record_data. cbn [sandbox_of detail_commit set_query]. rewrite ?Hof.
    assert (∀ x, query_at id (detail_commit x) = query_at id x) as -> by done. by rewrite query_at_set, bool_decide_true. }
  subst q page. unfold detail_run. cbn [foldl]. assert (shown_before (detail_commit p) = Some r) as Hbefore by (cbn; by rewrite Hr).
  assert (sandbox_of (detail_step (detail_commit p) (OpenSandbox id)) = id ∧ query_at id (detail_step (detail_commit p) (OpenSandbox id)) = not_inspected ∧
    shown_before (detail_step (detail_commit p) (OpenSandbox id)) = Some r) as Hstart.
  { unfold detail_step. set (p0 := detail_update _ _). assert (query_at id p0 = not_inspected) as Hq by (unfold query_at; cbn; by rewrite Hnew).
    split_and!; [done|exact Hq|]. change (match polled_record (query_at id p0) with Some r => Some r | None => shown_before (detail_commit p) end = Some r).
    by rewrite Hq. }
  revert Hstart. generalize (detail_step (detail_commit p) (OpenSandbox id)). clear - Hes.
  induction Hes as [|x es Hx _ IH]; intros s Hs; [done|]. apply IH. by apply waiting_step.
Qed.

(** Two sandboxes, one stopped. *)
Definition example_detail_record : SandboxRecord :=
  {| Types.id := js "a"; workspace_root := js "/w"; state := stopped; daemon := None; daemon_http := None; shared_base := None;
     activity_revision := None |}.

Lemma record_of_other_sandbox_witness :
  let q := detail_run (detail_commit (detail_step (opened_sandbox (js "a")) (InspectAnswers (js "a") example_detail_record)))
             [OpenSandbox (js "b"); InspectStarts (js "b")] in
  shown_name (SandboxDetail (js "b") (js "/sandboxes/b/files") None q) = js "b" ∧
  shown_notice (SandboxDetail (js "b") (js "/sandboxes/b/files") None q) = Some (js "Sandbox stopped", js "warning").
Proof.
  intros q. destruct (record_of_other_sandbox (detail_step (opened_sandbox (js "a")) (InspectAnswers (js "a") example_detail_record)) (js "b")
    example_detail_record [InspectStarts (js "b")] (ThrownError []) None (js "b") (js "/sandboxes/b/files")) as (Hname & _ & Hnotice & _).
  - by vm_compute.
  - by vm_compute.
  - by repeat constructor.
  - split; [exact Hname|]. etransitivity; [exact Hnotice|]. by vm_compute.
Defined.

(** The dialog that dissolves a cluster tells the truth. However it is
    opened, closed and confirmed, and however its calls end: it is busy exactly
    while one call is under way, and then it is open and cannot be closed; a
    second cannot be started; a failure leaves it as it was, to be tried
    again, and each success is noticed once. *)
Theorem removal_dialog_truthful n es :
  let w := removal_run n es in
  removals w = (if remove_busy (removing w) then 1%nat else 0%nat) ∧
  (remove_busy (removing w) = true → remove_open (removing w) = true ∧ removal_step n w CloseRemoval = w ∧ removal_step n w ConfirmRemoval = w ∧
     removing (removal_step n w (RemovalEnds false)) = {| remove_open := true; remove_busy := false |} ∧
     removing (removal_step n w (RemovalEnds true)) = {| remove_open := false; remove_busy := false |} ∧
     length (notices (removal_step n w (RemovalEnds true))) = S (length (notices w)) ∧
     failures (removal_step n w (RemovalEnds false)) = S (failures w)).
Proof.
  cbv zeta. destruct (removal_run_ok n es) as [Hb Ho]. destruct (removal_run n es) as [[opened busy] n' told failed]. cbn in Hb, Ho |- *.
  split; [done|]. intros ->. specialize (Ho eq_refl). subst. cbn. split_and!; try done. rewrite length_app. cbn. lia.
Qed.
